(* ===== verification/_CoqProject ===== *)
-Q . S2P
Prelude.v
Protocol.v
Replay.v
Crypto.v
ToyCrypto.v
DataPlane.v
Morph.v
Speedy.v
RateLimit.v
Users.v
Config.v
ClientWire.v
Registry.v
Traffic.v
Wire.v
Daemon.v
Liveness.v
Packet.v
Flow.v
Divert.v
Handshake.v
EndToEnd.v
Effects.v
ClientLoop.v
Socks.v
Diagnostics.v
SplitTunnel.v
Android.v
WinNetwork.v
Wfp.v
AppPaths.v
AppExclusions.v
FullTunnel.v
Text.v
LinuxNetwork.v
Report.v
Profile.v
Admin.v
Apple.v
MacNetwork.v
MacTunnel.v
GuiProfiles.v
WinGui.v
WinRuntime.v
Float64.v
Reliability.v
LinuxGui.v
WinEvents.v
Startup.v
TrafficOpen.v
