(* ===== verification/Prelude.v ===== *)
(** * MouseVPN: a verification development

    MouseVPN is a VPN written in Rust: a server daemon (crates/server, with the device
    registry and traffic store of crates/admin-api) and clients for several platforms
    that share the protocol crates.  A client authenticates by a Noise IK handshake in
    one UDP round trip, is assigned an address, and then exchanges encrypted IPv4
    packets with the server's TUN interface; both ends may wrap every datagram in an
    obfuscation layer (MouseMorph or Speedy).

    ** Files and sources

    The files are listed bottom up; paths are under src/crates.

    - Prelude.v: results with panics, slices, big-endian integers, machine-width
      arithmetic, the tactics and hint databases of the library.
    - Protocol.v: protocol/src, the outer header and datagrams, inner packets, session
      parameters.
    - Replay.v: crypto/src/replay.rs, the sliding window of accepted sequence numbers,
      and its specification by a set.
    - Crypto.v: crypto/src/session.rs, handshake.rs, keys.rs, context.rs: transport
      sessions, the Noise handshake, key derivation.  The cryptographic libraries are
      the classes [Primitives] and [Noise]; [NoiseLaws] and the like state their
      documented behaviour.  ToyCrypto.v has a concrete instance for the witnesses.
    - DataPlane.v: data-plane/src, IPv4 parsing, the tunnel's sender and receiver.
    - Morph.v, Speedy.v: morph/src/lib.rs and speedy/src/lib.rs, the two obfuscation
      codecs.
    - RateLimit.v: server/src/rate_limit.rs.  Users.v: server/src/users.rs, sessions.rs
      and state.rs.  Config.v: config/src.  ClientWire.v: client-wire/src/lib.rs.
    - Registry.v: admin-api/src/registry.rs and registry_store.rs, the devices, their
      file and the authorization flags sessions share.  Traffic.v:
      admin-api/src/traffic.rs, the byte counters and their flush to the database.
    - Wire.v: the wire modes and the tag router of server/src/daemon.rs; Daemon.v: the
      daemon's handshakes, uplink, downlink, keepalives and session table.
    - Liveness.v: linux-client and windows-client liveness.rs, when to probe and when to
      reconnect.
    - Packet.v, Flow.v, Divert.v: windows-client/src/windivert, the packet parser, the
      flow table and its classification by executable, and the diverter that routes the
      packets of selected applications through the tunnel.
    - Handshake.v: the clients' handshakes, transport/src/udp.rs and client-core/src.
      EndToEnd.v: a client of Handshake.v and the server of Daemon.v together.
    - Effects.v: the stateful computations the packet loops are written in, and triples
      about them.  ClientLoop.v: the Linux client's packet_loop.rs, outgoing.rs and
      metrics.rs with the TUN and resolver updates of linux-platform.  Socks.v:
      linux-client/src/socks.  SplitTunnel.v and Diagnostics.v: windows-client
      split_tunnel.rs, diagnostics.rs.  Android.v: android-native session.rs,
      handshake.rs, registry.rs.
    - WinNetwork.v: windows-client network.rs and netcfg.rs, the network policy of a
      session, its journal and its recovery; WinRuntime.v: runtime.rs, the session under
      that policy and its restarts; WinEvents.v: network_events.rs; FullTunnel.v:
      packet_loop.rs with its two threads; Wfp.v: killswitch.rs and app_bypass.rs as
      filters of the Windows Filtering Platform.
    - AppPaths.v, AppExclusions.v: app_exclusions.rs of the Windows application.
    - Text.v: the texts of addresses, numbers and UTF-8 of the standard library.
    - LinuxNetwork.v: linux-platform and the start of a session in linux-client
      runtime.rs.  MacNetwork.v, MacTunnel.v: macos-client network.rs, utun.rs, main.rs.
      Apple.v: apple-native session.rs, handshake.rs, ffi.rs.
    - Report.v: the report of admin-api/src/traffic.rs; TrafficOpen.v: the opening of its
      database and the import of the old format; Admin.v: handlers.rs, auth.rs and
      the routes; Profile.v: profile-cli and device-cli; Startup.v: the server's
      bootstrap.rs and main.rs, proxy-client, and the accept loop of
      linux-client/src/proxy.rs.
    - GuiProfiles.v: profiles.rs of the Windows application and its twin in the Linux
      main.rs; WinGui.v: windows-gui main.rs and helper_log.rs; LinuxGui.v: linux-gui
      main.rs and helper_runtime.rs; Reliability.v: linux-gui reliability.rs, on the
      binary64 numbers of Float64.v.

    ** How code is translated

    A function of the source is a function of the same name; a method of a mutable
    object takes and returns the object.  [Result] is [res], whose third constructor is
    a panic, so that indexing, slicing and subtraction that abort in Rust abort in the
    model.  Bytes and integers are [Z] with the wrapping, saturation and range checks of
    the source written out; an instant is a number of milliseconds.  Objects behind an
    [Arc] that several owners mutate are pointers into a heap (sessions and
    authorization flags in Daemon.v and Registry.v, counters in Traffic.v).  Clocks,
    random bytes and the outcomes of system calls are arguments; in the client they are
    a tape, one moment per interaction.  A buffer the caller passes for the result is
    returned instead.  Locks are taken to be unpoisoned.  Threads that share state
    interleave: between datagrams and packets in Daemon.v, between accesses to shared state
    in FullTunnel.v, ClientLoop.v and WinGui.v, between any two operations of the loop in
    MacTunnel.v, and within a flush in Traffic.v; a report (Report.v) is a snapshot.

    ** What the theorems show

    - Replay and encryption: the bitmap window refines a set; a session delivers each
      sequence number at most once, and only authentic packets change the window; the
      tunnel over a network that loses, repeats, reorders and forges datagrams delivers
      a duplicate-free sub-multiset of what was sent.
    - The server, over all reachable states and interleavings of its datagrams, TUN
      packets and administration: the invariant of its tables; what reaches the TUN is
      authenticated and carries the device's own address; endpoints move only on
      authenticated packets; sessions are installed only for registered devices and
      never displace another's; a packet from the TUN goes to its owner alone; a
      revoked device is silent at once; the repetition of the handshake answered last changes
      no session (an older one does, as an example shows); nothing panics.
    - Both ends, in every wire mode and through the server's limiter and tag router: the
      server accepts the request a client builds, the client accepts the answer, and an
      IPv4 packet the client then encodes comes out of the server's TUN; a masked datagram
      is recognised by every router that was refreshed since the device was registered.
    - Wire formats: round trips and exact characterisations of what is decoded.
    - Persistent state: registry operations preserve well-formedness and have exactly
      the outcomes of the source, disk included; a flush conserves every byte whether
      or not the commit succeeds; an old history is imported once, wherever attempts die.
    - Clients: connecting ends, and a session only comes from an authenticated answer to
      an own request; every keepalive, the probes of a migration included, is accounted for;
      new parameters are applied whole or rolled back when one call of the platform fails;
      every outgoing packet is sent or counted; which reconnect requests are honoured;
      reconnects are paced and never stop.  The SOCKS proxy answers a client at most once,
      joins it only to the address it asked for or that the session's resolver gave, and
      waits only for bytes that a silent client does not send or take.
    - The Windows split tunnel: packets of routed applications never pass outside the
      tunnel while the physical address stays, replies return to the socket that sent the request, batches are forwarded
      completely; only authentic packets are injected; both halves and the translation
      always belong to one session; loss is never underreported.

    - The network of the machine: on Linux traffic cannot leave beside a session as long as
      nobody replaces the ruleset, and the repair after a crash removes what a session left
      and nothing else, but for the host route of another server; on Windows the runtime
      restarts sessions until it is stopped, never with two Wintun sessions open, and undoes
      the policy when it ends, a crash is undone from the journal, and the filters of the
      kill switch let through what they should; on macOS routes and resolver are restored.
      The Windows full tunnel hands sessions over between its threads in order; packets the
      Apple session returns are authentic and in the order of arrival; the macOS helper
      keeps both halves of the address space in the tunnel while it reconnects.
    - Administration: every request needs the token; a provisioned device can connect
      with the profile it is given; the traffic report equals its definition by sums.
    - The desktop applications: profiles and settings are replaced whole or not at all,
      under every failure and at every point where the process may die; the Windows
      window only shows what belongs to the present helper, but for the lines proved to
      slip through, and a helper that was told to stop as disconnected when it has ended,
      unless the tray reported an error meanwhile; the log is bounded.  The watchdog of Linux repairs only when it is
      alone; recommendations come from complete data and are the best by score.

    ** Bounds and fuel

    Loops over data are structural.  Fuel appears in the clients' handshake: the loop
    reads the clock at every turn, and [Handshake.negotiation_ends] shows that fuel for
    the interactions before the deadline suffices.  Socks.v follows DNS names with fuel
    for the length of the packet, and spent fuel counts as a panic, which is excluded.
    Loops that only end when the user or the system says so (the runtime, the receive
    loops, the restarts) take fuel as the number of turns observed; a result [None] is
    a run that has not ended or whose process died, and the theorems speak of its state
    as well.  Waiting for a lock and for a stop is shown to end.  WinGui.v counts
    generations in 64 bits, and its theorem is about runs of fewer than 2^64 events.
    Counters that wrap at 64 bits are kept wrapped; theorems that need a counter below
    its maximum say so.

    ** Not modelled

    System calls themselves, whose answers are arguments or tapes; the start of threads,
    signals, sockets and devices, and the loading of drivers; axum, Tauri, tray menus,
    autostart, PolicyKit; the conversions of JNI and C strings; parsing of TOML and JSON,
    which is library code; socket options; platform.rs of the Windows client, which
    looks for Wine and elevation and unpacks the Wintun library.  Log lines and the texts of
    errors are dropped except where another component reads them. *)

From Stdlib Require Export ZArith Lia Bool Ascii String.
From stdpp Require Export base gmap sets list strings numbers tactics option.

#[export] Set Default Goal Selector "!".
Global Open Scope Z_scope.
Global Open Scope list_scope.

(** ** Fallible code

    A Rust function returning [Result<A, E>] becomes a function into
    [res E A]; the third constructor is an abort of the thread (an index or a
    slice out of bounds, a failed [expect]).  Keeping the abort as a value makes
    "never panics" a theorem instead of an assumption. *)
Inductive res (E A : Type) : Type :=
| Ok (a : A)
| Err (e : E)
| Panic.
Arguments Ok {E A} a.
Arguments Err {E A} e.
Arguments Panic {E A}.

#[global] Instance res_ret {E} : MRet (res E) := fun A a => Ok a.
#[global] Instance res_bind {E} : MBind (res E) := fun A B f m =>
  match m with Ok a => f a | Err e => Err e | Panic => Panic end.
#[global] Instance res_fmap {E} : FMap (res E) := fun A B f m =>
  match m with Ok a => Ok (f a) | Err e => Err e | Panic => Panic end.

#[global] Instance res_eq_dec {E A} `{EqDecision E, EqDecision A} : EqDecision (res E A).
Proof. solve_decision. Defined.

(** [Result::map_err] *)
Definition map_err {E F A} (f : E -> F) (m : res E A) : res F A :=
  match m with Ok a => Ok a | Err e => Err (f e) | Panic => Panic end.

(** [Option::ok_or] *)
Definition ok_or {E A} (o : option A) (e : E) : res E A :=
  match o with Some a => Ok a | None => Err e end.

(** [Result::ok] *)
Definition res_ok {E A} (m : res E A) : option A :=
  match m with Ok a => Some a | _ => None end.

Definition no_panic {E A} (m : res E A) : Prop :=
  match m with Panic => False | _ => True end.

Definition is_ok {E A} (m : res E A) : bool :=
  match m with Ok _ => true | _ => false end.

(** ** Bytes, lengths and slices

    A byte is a [Z] in [0, 256); a [usize] is a [Z].  Slices follow Rust:
    out-of-range indices abort. *)
Abbreviation bytes := (list Z) (only parsing).

Definition uint (w : Z) (x : Z) : Prop := 0 <= x < 2 ^ w.
Abbreviation u8 := (uint 8).
Abbreviation u16 := (uint 16).
Abbreviation u32 := (uint 32).
Abbreviation u64 := (uint 64).

Definition is_bytes (l : bytes) : Prop := Forall u8 l.

Definition len {A} (l : list A) : Z := Z.of_nat (length l).

(** [l[i]] *)
Definition index {E} (l : bytes) (i : Z) : res E Z :=
  if decide (0 <= i < len l) then Ok (nth (Z.to_nat i) l 0) else Panic.

(** [l[i] = v] *)
Definition set_index {E} (l : list Z) (i v : Z) : res E (list Z) :=
  if decide (0 <= i < len l) then Ok (<[Z.to_nat i := v]> l) else Panic.

(** A [for] loop whose body may fail or abort. *)
Fixpoint for_each {E A S} (body : S -> A -> res E S) (items : list A) (s : S) : res E S :=
  match items with
  | [] => Ok s
  | x :: items => s' ← body s x; for_each body items s'
  end.

Definition sub_list {A} (l : list A) (a b : Z) : list A :=
  take (Z.to_nat (b - a)) (drop (Z.to_nat a) l).

(** [&l[a..b]] *)
Definition slice {E} (l : bytes) (a b : Z) : res E bytes :=
  if decide (0 <= a <= b /\ b <= len l) then Ok (sub_list l a b) else Panic.

(** [l.get(i)] *)
Definition get_opt (l : bytes) (i : Z) : option Z :=
  if decide (0 <= i < len l) then Some (nth (Z.to_nat i) l 0) else None.

(** [l.get(a..b)] *)
Definition get_range (l : bytes) (a b : Z) : option bytes :=
  if decide (0 <= a <= b /\ b <= len l) then Some (sub_list l a b) else None.

(** [dst[a..a + src.len()].copy_from_slice(src)], in range. *)
Definition copy_at (dst : bytes) (a : Z) (src : bytes) : bytes :=
  take (Z.to_nat a) dst ++ src ++ drop (Z.to_nat a + length src) dst.

(** [<[u8; n]>::try_from(slice)] *)
Definition try_into_array {E} (n : Z) (l : bytes) (e : E) : res E bytes :=
  if decide (len l = n) then Ok l else Err e.

Definition zeros (n : Z) : bytes := replicate (Z.to_nat n) 0.

(** [Vec::resize(n, 0)] followed by [Vec::truncate] *)
Definition resize (l : bytes) (n : Z) : bytes :=
  take (Z.to_nat n) l ++ zeros (n - len l).

(** The bytes of a string literal. *)
Definition ascii_bytes (s : string) : bytes :=
  map (fun a => Z.of_N (Ascii.N_of_ascii a)) (list_ascii_of_string s).

(** ** Machine integers *)
Definition u64_max : Z := 2 ^ 64 - 1.
Definition u32_max : Z := 2 ^ 32 - 1.

Definition sat_add64 (a b : Z) : Z := Z.min (a + b) u64_max.
Definition sat_sub (a b : Z) : Z := Z.max 0 (a - b).
Definition wrap64 (a : Z) : Z := a mod 2 ^ 64.
Definition checked_add64 (a b : Z) : option Z :=
  if a + b <=? u64_max then Some (a + b) else None.

(** [to_be_bytes] and [from_be_bytes] *)
Fixpoint be_bytes (n : nat) (x : Z) : bytes :=
  match n with
  | O => []
  | S n => (x / 256 ^ Z.of_nat n) mod 256 :: be_bytes n x
  end.

Definition be_value (l : bytes) : Z := fold_left (fun acc b => acc * 256 + b) l 0.

(** ** Text

    A Rust [String] or [&str] as the list of its code points; [char::is_whitespace]
    is the Unicode property White_Space. *)
Abbreviation str := (list Z) (only parsing).

Definition is_whitespace (c : Z) : bool :=
  ((9 <=? c) && (c <=? 13)) || (c =? 32) || (c =? 0x85) || (c =? 0xA0) || (c =? 0x1680) ||
  ((0x2000 <=? c) && (c <=? 0x200A)) || (c =? 0x2028) || (c =? 0x2029) || (c =? 0x202F) ||
  (c =? 0x205F) || (c =? 0x3000).

Fixpoint trim_start (s : str) : str :=
  match s with
  | c :: s' => if is_whitespace c then trim_start s' else s
  | [] => []
  end.

Definition trim (s : str) : str := rev (trim_start (rev (trim_start s))).

(** ** Network addresses

    [std::net::IpAddr] and [SocketAddr]; an address is its integer value. *)
Inductive IpAddr := V4 (a : Z) | V6 (a : Z).

#[global] Instance IpAddr_eq_dec : EqDecision IpAddr.
Proof. solve_decision. Defined.
#[global] Instance IpAddr_countable : Countable IpAddr.
Proof.
  refine (inj_countable' (fun a => match a with V4 a => inl a | V6 a => inr a end)
    (fun s => match s with inl a => V4 a | inr a => V6 a end) _).
  by intros [].
Defined.

Record SocketAddr := mkSocketAddr { ip : IpAddr; port : Z }.

#[global] Instance SocketAddr_eq_dec : EqDecision SocketAddr.
Proof. solve_decision. Defined.

(** [Instant::saturating_duration_since]; [duration_since] saturates as well. *)
Definition duration_since (now earlier : Z) : Z := sat_sub now earlier.

(** ** Lemmas *)
Create HintDb vpn.

Lemma len_nonneg {A} (l : list A) : 0 <= len l.
Proof. unfold len; lia. Qed.

Lemma len_nil {A} : len (@nil A) = 0.
Proof. done. Qed.

Lemma len_cons {A} (x : A) l : len (x :: l) = 1 + len l.
Proof. unfold len; simpl; lia. Qed.

Lemma len_app {A} (l k : list A) : len (l ++ k) = len l + len k.
Proof. unfold len; rewrite length_app; lia. Qed.

Lemma len_take {A} (l : list A) n : len (take n l) = Z.min (Z.of_nat n) (len l).
Proof. unfold len; rewrite length_take; lia. Qed.

Lemma len_drop {A} (l : list A) n : len (drop n l) = Z.max 0 (len l - Z.of_nat n).
Proof. unfold len; rewrite length_drop; lia. Qed.

Lemma len_zeros n : len (zeros n) = Z.max 0 n.
Proof. unfold len, zeros; rewrite length_replicate; lia. Qed.

Lemma len_map {A B} (f : A -> B) l : len (map f l) = len l.
Proof. unfold len; rewrite length_map; done. Qed.

Lemma len_be_bytes n x : len (be_bytes n x) = Z.of_nat n.
Proof. induction n; simpl; [done|rewrite len_cons, IHn; lia]. Qed.

Create Rewrite HintDb len.
#[export] Hint Rewrite @len_nil @len_cons @len_app @len_take @len_drop len_zeros @len_map len_be_bytes : len.

Ltac len_simpl := autorewrite with len in *.

(** Solves goals about lengths of concatenations and slices. *)
Ltac len_lia :=
  repeat match goal with
  | l : list ?A |- _ =>
      lazymatch goal with
      | _ : 0 <= len l |- _ => fail
      | _ => pose proof (len_nonneg l)
      end
  end; autorewrite with len in *; lia.

Lemma len_copy_at dst a src :
  0 <= a -> a + len src <= len dst -> len (copy_at dst a src) = len dst.
Proof. intros; unfold copy_at; unfold len in *; rewrite !length_app, length_take, length_drop; lia. Qed.

Lemma len_sub_list {A} (l : list A) a b :
  0 <= a <= b -> b <= len l -> len (sub_list l a b) = b - a.
Proof. intros; unfold sub_list; rewrite len_take, len_drop; lia. Qed.

Lemma slice_ok {E} l a b :
  0 <= a <= b -> b <= len l -> slice (E:=E) l a b = Ok (sub_list l a b).
Proof. intros; unfold slice; rewrite decide_True; done. Qed.

Lemma index_ok {E} l i :
  0 <= i < len l -> index (E:=E) l i = Ok (nth (Z.to_nat i) l 0).
Proof. intros; unfold index; rewrite decide_True; done. Qed.

Lemma set_index_ok {E} l i v :
  0 <= i < len l -> set_index (E:=E) l i v = Ok (<[Z.to_nat i := v]> l).
Proof. intros; unfold set_index; rewrite decide_True; done. Qed.

Lemma len_insert {A} (l : list A) i v : len (<[i := v]> l) = len l.
Proof. unfold len; by rewrite length_insert. Qed.

Lemma nth_insert (l : list Z) i j v :
  (i < length l)%nat -> nth j (<[i := v]> l) 0 = if decide (i = j) then v else nth j l 0.
Proof.
  intros Hi. rewrite !nth_lookup. case_decide; subst.
  - by rewrite list_lookup_insert_eq.
  - by rewrite list_lookup_insert_ne.
Qed.

Lemma nth_replicate_0 i n : nth i (replicate n 0) 0 = 0.
Proof. revert i; induction n; intros [|i]; simpl; auto. Qed.

Lemma sub_list_full {A} (l : list A) : sub_list l 0 (len l) = l.
Proof. unfold sub_list; rewrite Z2Nat.inj_0, drop_0, take_ge; [done|unfold len; lia]. Qed.

Lemma sub_list_app_l {A} (l k : list A) b :
  0 <= b <= len l -> sub_list (l ++ k) 0 b = sub_list l 0 b.
Proof. intros; unfold sub_list, len in *; rewrite !Z2Nat.inj_0, !drop_0, take_app_le; [done|lia]. Qed.

Lemma sub_list_app_eq {A} (l k : list A) n : n = len l -> sub_list (l ++ k) 0 n = l.
Proof. intros ->; rewrite sub_list_app_l by (pose proof (len_nonneg l); lia); apply sub_list_full. Qed.

Lemma sub_list_app_r {A} (l k : list A) a b :
  len l <= a -> sub_list (l ++ k) a b = sub_list k (a - len l) (b - len l).
Proof.
  intros; unfold sub_list, len in *.
  rewrite drop_app_ge by lia. f_equal; [lia|f_equal; lia].
Qed.

Lemma sub_list_cons_app {A} (x : A) (l k : list A) : sub_list (x :: l ++ k) 1 (len l + 1) = l.
Proof.
  unfold sub_list. replace (Z.to_nat (len l + 1 - 1)) with (length l) by (unfold len; lia).
  change (Z.to_nat 1) with 1%nat. change (drop 1 (x :: l ++ k)) with (l ++ k).
  apply take_app_length.
Qed.

(** A slice whose bounds are the ends of a segment is that segment. *)
Lemma slice_app {E} (l k r : bytes) a b :
  a = len l -> b = a + len k -> slice (E:=E) (l ++ k ++ r) a b = Ok k.
Proof.
  intros -> ->. pose proof (len_nonneg l); pose proof (len_nonneg k); pose proof (len_nonneg r).
  rewrite slice_ok by (rewrite ?len_app; lia).
  rewrite sub_list_app_r, Z.sub_diag, sub_list_app_eq by lia. done.
Qed.

Lemma slice_app_l {E} (l k : bytes) b : b = len l -> slice (E:=E) (l ++ k) 0 b = Ok l.
Proof. intros ->. apply (slice_app [] l k); done. Qed.

Lemma slice_app_r {E} (l k : bytes) a b :
  a = len l -> b = len l + len k -> slice (E:=E) (l ++ k) a b = Ok k.
Proof. intros -> ->. rewrite <- (app_nil_r k) at 1. by apply slice_app. Qed.

(** Clocks at most a second apart are at most an epoch apart. *)
Lemma near_epochs t t' n : 1 <= n -> Z.abs (t - t') <= 1 -> Z.abs (t / n - t' / n) <= 1.
Proof.
  intros Hn H.
  assert (Hle : forall a b, a <= b + 1 -> a / n <= b / n + 1).
  { intros a b Hab. replace (b / n + 1) with ((b + 1 * n) / n) by (apply Z.div_add; lia).
    apply Z.div_le_mono; lia. }
  pose proof (Hle t t' ltac:(lia)). pose proof (Hle t' t ltac:(lia)). lia.
Qed.

Lemma epoch_u64 t n : u64 t -> 1 <= n -> 0 <= t / n <= u64_max.
Proof.
  unfold uint, u64_max. intros Ht Hn.
  split; [apply Z.div_pos; lia|apply Z.div_le_upper_bound; nia].
Qed.

Lemma get_range_app_l (l k : bytes) b : b = len l -> get_range (l ++ k) 0 b = Some l.
Proof.
  intros ->. pose proof (slice_app_l (E := unit) l k (len l) eq_refl) as H.
  unfold slice in H. unfold get_range. case_match; [by injection H as ->|done].
Qed.

(** A string is blank after trimming exactly when it is all whitespace. *)
Lemma trim_start_nil s : trim_start s = [] <-> forallb is_whitespace s = true.
Proof.
  induction s as [|c s IH]; simpl; [done|]. destruct (is_whitespace c); simpl; [done|].
  split; discriminate.
Qed.

Lemma trim_nil s : trim s = [] <-> forallb is_whitespace s = true.
Proof.
  unfold trim. split.
  - intros H. apply (f_equal (@rev Z)) in H. rewrite rev_involutive in H. simpl in H.
    apply trim_start_nil in H. apply trim_start_nil. rewrite forallb_forall in H.
    destruct (trim_start s) as [|c r] eqn:Hs; [done|]. exfalso.
    assert (Hc : is_whitespace c = true) by (apply H, in_rev; rewrite rev_involutive; by left).
    clear H. revert Hs. induction s as [|x s IH]; simpl; [done|].
    destruct (is_whitespace x) eqn:Hx; [done|]. intros [= -> ->]. congruence.
  - intros H%trim_start_nil. by rewrite H.
Qed.

Lemma is_bytes_app l k : is_bytes (l ++ k) <-> is_bytes l /\ is_bytes k.
Proof. apply Forall_app. Qed.

Lemma is_bytes_nth l i : is_bytes l -> u8 (nth i l 0).
Proof.
  intros H. destruct (nth_in_or_default i l 0) as [Hin | ->]; [|unfold uint; lia].
  unfold is_bytes in H; rewrite Forall_forall in H. by apply H.
Qed.

Lemma is_bytes_sub_list l a b : is_bytes l -> is_bytes (sub_list l a b).
Proof. intros. by apply Forall_take, Forall_drop. Qed.

Lemma is_bytes_check l : forallb (fun y => (0 <=? y) && (y <? 256)) l = true -> is_bytes l.
Proof.
  intros H. apply Forall_forall. intros x Hx. rewrite forallb_forall in H. specialize (H x Hx).
  apply andb_true_iff in H as [?%Z.leb_le ?%Z.ltb_lt]. unfold uint. lia.
Qed.

Lemma u8_lxor a b : u8 a -> u8 b -> u8 (Z.lxor a b).
Proof.
  unfold uint. intros Ha Hb. split; [by apply Z.lxor_nonneg; split; intros; lia|].
  destruct (Z.eq_dec (Z.lxor a b) 0) as [->|Hne]; [lia|]. apply Z.log2_lt_pow2.
  { assert (0 <= Z.lxor a b) by (apply Z.lxor_nonneg; split; lia). lia. }
  eapply Z.le_lt_trans; [apply Z.log2_lxor; lia|].
  apply Z.max_lub_lt; [destruct (Z.eq_dec a 0) as [->|]|destruct (Z.eq_dec b 0) as [->|]];
    first [done|apply Z.log2_lt_pow2; lia].
Qed.

Lemma be_bytes_is_bytes n x : is_bytes (be_bytes n x).
Proof.
  induction n; simpl; constructor; [|done].
  unfold uint; pose proof (Z.mod_pos_bound (x / 256 ^ Z.of_nat n) 256); lia.
Qed.

Lemma be_value_acc l acc :
  fold_left (fun acc b => acc * 256 + b) l acc = acc * 256 ^ len l + be_value l.
Proof.
  unfold be_value. revert acc; induction l as [|b l IH]; intros acc; simpl.
  - rewrite len_nil; lia.
  - rewrite IH, (IH (0 * 256 + b)), len_cons, Z.pow_add_r by (pose proof (len_nonneg l); lia). lia.
Qed.

Lemma be_value_cons b l : be_value (b :: l) = b * 256 ^ len l + be_value l.
Proof. unfold be_value at 1; simpl; by rewrite be_value_acc. Qed.

Lemma be_value_app l k : be_value (l ++ k) = be_value l * 256 ^ len k + be_value k.
Proof. unfold be_value at 1; rewrite fold_left_app, be_value_acc; done. Qed.

Lemma be_value_bytes n x : be_value (be_bytes n x) = x mod 256 ^ Z.of_nat n.
Proof.
  induction n as [|n IH].
  - simpl; by rewrite Z.mod_1_r.
  - cbn [be_bytes]. rewrite be_value_cons, IH, len_be_bytes.
    rewrite Nat2Z.inj_succ, Z.pow_succ_r by lia.
    rewrite (Z.mul_comm 256), Z.rem_mul_r by lia. lia.
Qed.

Lemma be_value_bound l : is_bytes l -> 0 <= be_value l < 256 ^ len l.
Proof.
  induction 1 as [|b l Hb Hl IH]; [done|].
  rewrite be_value_cons, len_cons, Z.pow_add_r by (pose proof (len_nonneg l); lia).
  unfold uint in Hb. nia.
Qed.

Lemma be_value_uint w l : w = 8 * len l -> is_bytes l -> uint w (be_value l).
Proof.
  intros -> Hl. unfold uint. rewrite Z.pow_mul_r by (try apply len_nonneg; lia).
  by apply be_value_bound.
Qed.

Lemma be_bytes_add n x y :
  (256 ^ Z.of_nat n | y) -> be_bytes n (y + x) = be_bytes n x.
Proof.
  revert x y; induction n as [|n IH]; intros x y [q ->]; [done|].
  cbn [be_bytes]. rewrite Nat2Z.inj_succ, Z.pow_succ_r by lia. f_equal.
  - replace (q * (256 * 256 ^ Z.of_nat n) + x) with (x + (q * 256) * 256 ^ Z.of_nat n) by lia.
    rewrite Z.div_add by lia. by rewrite Z_mod_plus_full.
  - apply IH. exists (q * 256). lia.
Qed.

Lemma be_bytes_value l : is_bytes l -> be_bytes (length l) (be_value l) = l.
Proof.
  induction 1 as [|b l Hb Hl IH]; [done|].
  cbn [length be_bytes]. rewrite be_value_cons. fold (len l).
  pose proof (be_value_bound l Hl) as Hv. unfold uint in Hb. f_equal.
  - rewrite Z.add_comm, Z.div_add by lia.
    rewrite (Z.div_small (be_value l)) by lia. rewrite Z.mod_small; lia.
  - rewrite be_bytes_add; [done|]. exists b; done.
Qed.

Lemma be_value_inj l k :
  is_bytes l -> is_bytes k -> len l = len k -> be_value l = be_value k -> l = k.
Proof.
  intros Hl Hk Hlen Hv. rewrite <- (be_bytes_value l), <- (be_bytes_value k) by done.
  rewrite Hv. f_equal. unfold len in Hlen. lia.
Qed.

Lemma u8_small x : u8 x -> x mod 256 = x.
Proof. unfold uint; intros; apply Z.mod_small; lia. Qed.

(** The entries kept and the entries removed by [HashMap::retain] add up. *)
Lemma map_size_filter_compl `{Countable K} {A} (P : K * A -> Prop) `{!forall x, Decision (P x)} (m : gmap K A) :
  (size (filter P m) + size (filter (fun x => ~ P x) m) = size m)%nat.
Proof.
  rewrite <- (map_filter_union_complement P m) at 3.
  by rewrite map_size_disj_union by apply map_disjoint_filter_complement.
Qed.

Lemma map_err_ok {E F A} (f : E -> F) (m : res E A) a : map_err f m = Ok a <-> m = Ok a.
Proof. destruct m; simpl; split; congruence. Qed.

Lemma bind_ok {E A B} (f : A -> res E B) m b :
  m ≫= f = Ok b <-> exists a, m = Ok a /\ f a = Ok b.
Proof.
  unfold mbind, res_bind. split.
  - destruct m; intros H; try discriminate. eauto.
  - intros (a & -> & H). done.
Qed.

Lemma no_panic_bind {E A B} (f : A -> res E B) m :
  no_panic m -> (forall a, m = Ok a -> no_panic (f a)) -> no_panic (m ≫= f).
Proof. destruct m; unfold mbind, res_bind; simpl; auto. Qed.

Lemma no_panic_map_err {E F A} (f : E -> F) (m : res E A) :
  no_panic m -> no_panic (map_err f m).
Proof. by destruct m. Qed.

#[export] Hint Resolve no_panic_map_err be_bytes_is_bytes len_nonneg : vpn.

(** Computes the binds of a [res] computation whose heads are known. *)
Ltac res_simpl := cbv beta iota delta [mbind res_bind mret res_ret fmap res_fmap].
Tactic Notation "res_simpl" "in" hyp(H) :=
  cbv beta iota delta [mbind res_bind mret res_ret fmap res_fmap] in H.

(** Splits the first [n] cells off a list known to be long enough. *)
Ltac peel l n :=
  lazymatch n with
  | O => idtac
  | S ?m => destruct l as [|? l]; [exfalso; autorewrite with len in *; pose_nonneg; lia|peel l m]
  end
with pose_nonneg :=
  repeat match goal with
  | k : list ?A |- _ =>
      lazymatch goal with
      | _ : 0 <= len k |- _ => fail
      | _ => pose proof (len_nonneg k)
      end
  end.

(** Membership of concrete lists of bytes. *)
Ltac bytes_tac := unfold is_bytes in *; repeat first [apply Forall_nil_2 | apply Forall_cons_2]; done.

(** Case analysis on the test of the outermost conditional of the goal. *)
Ltac case_if :=
  match goal with
  | |- context [if ?b then _ else _] =>
      lazymatch type of b with
      | bool => let H := fresh "Hif" in destruct b eqn:H
      | _ => let H := fresh "Hif" in destruct b as [H|H]
      end
  end.

(** Turns boolean comparisons in the context into propositions. *)
Ltac boolify :=
  repeat match goal with
  | H : _ && _ = true |- _ => apply andb_true_iff in H as [? ?]
  | H : _ || _ = false |- _ => apply orb_false_iff in H as [? ?]
  | H : negb _ = true |- _ => apply negb_true_iff in H
  | H : negb _ = false |- _ => apply negb_false_iff in H
  | H : (_ <? _) = true |- _ => apply Z.ltb_lt in H
  | H : (_ <? _) = false |- _ => apply Z.ltb_ge in H
  | H : (_ <=? _) = true |- _ => apply Z.leb_le in H
  | H : (_ <=? _) = false |- _ => apply Z.leb_gt in H
  | H : (_ =? _) = true |- _ => apply Z.eqb_eq in H
  | H : (_ =? _) = false |- _ => apply Z.eqb_neq in H
  | H : bool_decide _ = true |- _ => apply bool_decide_eq_true in H
  | H : bool_decide _ = false |- _ => apply bool_decide_eq_false in H
  end.
