(* ===== verification/Protocol.v ===== *)
(** * Wire types of crates/protocol

    The versioned outer header and datagram, the authenticated inner packet and
    the negotiated session parameters: encoders, decoders, their error values,
    and the theorems that decoding never aborts, inverts encoding and accepts
    only canonical encodings. *)

From S2P Require Import Prelude.

(** src/crates/protocol/src/lib.rs *)
Definition VERSION : Z := 1.

Module PacketKind.

Inductive t :=
| HandshakeInit
| HandshakeResponse
| Data
| Keepalive
| Close.

#[global] Instance eq_dec : EqDecision t.
Proof. solve_decision. Defined.

(** [kind as u8] *)
Definition to_u8 (k : t) : Z :=
  match k with
  | HandshakeInit => 1
  | HandshakeResponse => 2
  | Data => 3
  | Keepalive => 4
  | Close => 5
  end.

End PacketKind.

Module DecodeError.

Inductive t :=
| Truncated (actual minimum : Z)
| UnsupportedVersion (version : Z)
| UnknownPacketKind (kind : Z)
| InvalidHeader.

#[global] Instance eq_dec : EqDecision t.
Proof. solve_decision. Defined.

End DecodeError.

(** [impl TryFrom<u8> for PacketKind] *)
Definition PacketKind_try_from (value : Z) : res DecodeError.t PacketKind.t :=
  match value with
  | 1 => Ok PacketKind.HandshakeInit
  | 2 => Ok PacketKind.HandshakeResponse
  | 3 => Ok PacketKind.Data
  | 4 => Ok PacketKind.Keepalive
  | 5 => Ok PacketKind.Close
  | value => Err (DecodeError.UnknownPacketKind value)
  end.

Module Header.

Definition HEADER_LEN : Z := 20.

Record t := mk {
  kind : PacketKind.t;
  flags : Z;
  session_id : Z;
  sequence : Z;
}.

#[global] Instance eq_dec : EqDecision t.
Proof. solve_decision. Defined.

(** The Rust field types: [u16], [u64], [u64]. *)
Definition wf (h : t) : Prop :=
  u16 (flags h) /\ u64 (session_id h) /\ u64 (sequence h).

Definition encode (h : t) : bytes :=
  let output := zeros HEADER_LEN in
  let output := copy_at output 0 [VERSION] in
  let output := copy_at output 1 [PacketKind.to_u8 (kind h)] in
  let output := copy_at output 2 (be_bytes 2 (flags h)) in
  let output := copy_at output 4 (be_bytes 8 (session_id h)) in
  copy_at output 12 (be_bytes 8 (sequence h)).

Definition decode (input : bytes) : res DecodeError.t t :=
  if len input <? HEADER_LEN
  then Err (DecodeError.Truncated (len input) HEADER_LEN)
  else
    version ← index input 0;
    if negb (version =? VERSION) then Err (DecodeError.UnsupportedVersion version)
    else
      k ← index input 1;
      kind ← PacketKind_try_from k;
      f0 ← index input 2;
      f1 ← index input 3;
      s ← slice input 4 12;
      sid ← try_into_array 8 s DecodeError.InvalidHeader;
      q ← slice input 12 20;
      seq ← try_into_array 8 q DecodeError.InvalidHeader;
      Ok (mk kind (be_value [f0; f1]) (be_value sid) (be_value seq)).

End Header.

Module Datagram.

Record t := mk {
  header : Header.t;
  payload : bytes;
}.

#[global] Instance eq_dec : EqDecision t.
Proof. solve_decision. Defined.

Definition encode (d : t) : bytes := Header.encode (header d) ++ payload d.

Definition decode (input : bytes) : res DecodeError.t t :=
  header ← Header.decode input;
  payload ← slice input Header.HEADER_LEN (len input);
  Ok (mk header payload).

End Datagram.

Module InnerPacketKind.

Inductive t :=
| Data
| Keepalive
| Close.

#[global] Instance eq_dec : EqDecision t.
Proof. solve_decision. Defined.

Definition to_u8 (k : t) : Z :=
  match k with Data => 1 | Keepalive => 2 | Close => 3 end.

End InnerPacketKind.

Module InnerDecodeError.

Inductive t :=
| Empty
| UnknownKind (kind : Z).

#[global] Instance eq_dec : EqDecision t.
Proof. solve_decision. Defined.

End InnerDecodeError.

(** [impl TryFrom<u8> for InnerPacketKind] *)
Definition InnerPacketKind_try_from (value : Z) : res InnerDecodeError.t InnerPacketKind.t :=
  match value with
  | 1 => Ok InnerPacketKind.Data
  | 2 => Ok InnerPacketKind.Keepalive
  | 3 => Ok InnerPacketKind.Close
  | value => Err (InnerDecodeError.UnknownKind value)
  end.

Module InnerPacket.

Record t := mk {
  kind : InnerPacketKind.t;
  payload : bytes;
}.

#[global] Instance eq_dec : EqDecision t.
Proof. solve_decision. Defined.

Definition encode (p : t) : bytes := [InnerPacketKind.to_u8 (kind p)] ++ payload p.

Definition decode (input : bytes) : res InnerDecodeError.t t :=
  match input with
  | [] => Err InnerDecodeError.Empty
  | k :: payload =>
      kind ← InnerPacketKind_try_from k;
      Ok (mk kind payload)
  end.

End InnerPacket.

(** An [Ipv4Addr] as its 32-bit value; [octets] are its big-endian bytes. *)
Abbreviation Ipv4Addr := Z (only parsing).

Definition octets (a : Ipv4Addr) : bytes := be_bytes 4 a.

(** [Ipv4Addr::new] *)
Definition ipv4_new (a b c d : Z) : Ipv4Addr := be_value [a; b; c; d].

Module SessionParametersError.

Inductive t :=
| InvalidLength (actual expected : Z)
| InvalidPrefix (prefix : Z)
| InvalidMtu (mtu : Z).

#[global] Instance eq_dec : EqDecision t.
Proof. solve_decision. Defined.

End SessionParametersError.

Module SessionParameters.

Definition SESSION_PARAMETERS_LEN : Z := 11.

Record t := mk {
  client_address : Ipv4Addr;
  prefix_len : Z;
  mtu : Z;
  dns : Ipv4Addr;
}.

#[global] Instance eq_dec : EqDecision t.
Proof. solve_decision. Defined.

Definition wf (p : t) : Prop :=
  u32 (client_address p) /\ u8 (prefix_len p) /\ u16 (mtu p) /\ u32 (dns p).

Definition encode (p : t) : bytes :=
  let output := zeros SESSION_PARAMETERS_LEN in
  let output := copy_at output 0 (octets (client_address p)) in
  let output := copy_at output 4 [prefix_len p] in
  let output := copy_at output 5 (be_bytes 2 (mtu p)) in
  copy_at output 7 (octets (dns p)).

Definition decode (input : bytes) : res SessionParametersError.t t :=
  if negb (len input =? SESSION_PARAMETERS_LEN)
  then Err (SessionParametersError.InvalidLength (len input) SESSION_PARAMETERS_LEN)
  else
    i0 ← index input 0; i1 ← index input 1; i2 ← index input 2; i3 ← index input 3;
    i4 ← index input 4; i5 ← index input 5; i6 ← index input 6;
    i7 ← index input 7; i8 ← index input 8; i9 ← index input 9; i10 ← index input 10;
    let parameters := mk (ipv4_new i0 i1 i2 i3) i4 (be_value [i5; i6]) (ipv4_new i7 i8 i9 i10) in
    if 32 <? prefix_len parameters
    then Err (SessionParametersError.InvalidPrefix (prefix_len parameters))
    else if negb ((576 <=? mtu parameters) && (mtu parameters <=? 9000))
    then Err (SessionParametersError.InvalidMtu (mtu parameters))
    else Ok parameters.

End SessionParameters.

(** ** Headers and datagrams *)

Lemma packet_kind_roundtrip k : PacketKind_try_from (PacketKind.to_u8 k) = Ok k.
Proof. by destruct k. Qed.

Lemma packet_kind_canonical v k : PacketKind_try_from v = Ok k -> v = PacketKind.to_u8 k.
Proof.
  unfold PacketKind_try_from. intros H. repeat case_match; by simplify_eq.
Qed.

Lemma packet_kind_no_panic v : no_panic (PacketKind_try_from v).
Proof. unfold PacketKind_try_from. by repeat case_match. Qed.

Lemma header_encode_eq h :
  Header.encode h =
  VERSION :: PacketKind.to_u8 (Header.kind h) :: be_bytes 2 (Header.flags h) ++
  be_bytes 8 (Header.session_id h) ++ be_bytes 8 (Header.sequence h).
Proof. reflexivity. Qed.

Lemma header_encode_len h : len (Header.encode h) = Header.HEADER_LEN.
Proof. reflexivity. Qed.

Lemma try_into_array_ok {E} n l (e : E) : len l = n -> try_into_array n l e = Ok l.
Proof. intros; unfold try_into_array; by rewrite decide_True. Qed.

(** What [Header::decode] computes once the length check has passed. *)
Lemma header_decode_long input :
  Header.HEADER_LEN <= len input ->
  Header.decode input =
  if negb (nth 0 input 0 =? VERSION)
  then Err (DecodeError.UnsupportedVersion (nth 0 input 0))
  else kind ← PacketKind_try_from (nth 1 input 0);
       Ok (Header.mk kind (be_value [nth 2 input 0; nth 3 input 0])
             (be_value (sub_list input 4 12)) (be_value (sub_list input 12 20))).
Proof.
  unfold Header.HEADER_LEN. intros Hlen. unfold Header.decode, Header.HEADER_LEN.
  destruct (Z.ltb_spec (len input) 20); [lia|].
  rewrite !index_ok by lia. rewrite !slice_ok by lia.
  res_simpl. change (Z.to_nat 0) with O. case_if; [done|].
  change (Z.to_nat 1) with 1%nat. destruct (PacketKind_try_from _); [|done..].
  by rewrite !try_into_array_ok by (rewrite len_sub_list; lia).
Qed.

Lemma header_decode_short input :
  len input < Header.HEADER_LEN ->
  Header.decode input = Err (DecodeError.Truncated (len input) Header.HEADER_LEN).
Proof.
  intros. unfold Header.decode. destruct (Z.ltb_spec (len input) Header.HEADER_LEN); [done|lia].
Qed.

Lemma header_decode_no_panic input : no_panic (Header.decode input).
Proof.
  destruct (Z.lt_ge_cases (len input) Header.HEADER_LEN).
  - by rewrite header_decode_short.
  - rewrite header_decode_long by done. case_if; [done|].
    apply no_panic_bind; [apply packet_kind_no_panic|done].
Qed.

Lemma header_decode_encode h rest :
  Header.wf h -> Header.decode (Header.encode h ++ rest) = Ok h.
Proof.
  intros (Hf & Hs & Hq). unfold uint in *.
  rewrite header_decode_long by (rewrite len_app, header_encode_len; pose proof (len_nonneg rest); lia).
  replace (sub_list (Header.encode h ++ rest) 4 12) with (be_bytes 8 (Header.session_id h)) by reflexivity.
  replace (sub_list (Header.encode h ++ rest) 12 20) with (be_bytes 8 (Header.sequence h)) by reflexivity.
  replace [nth 2 (Header.encode h ++ rest) 0; nth 3 (Header.encode h ++ rest) 0]
    with (be_bytes 2 (Header.flags h)) by reflexivity.
  rewrite header_encode_eq. simpl nth. rewrite packet_kind_roundtrip.
  unfold mbind, res_bind. simpl negb. cbv iota. rewrite !be_value_bytes.
  destruct h as [k f s q]; simpl in *. repeat f_equal; apply Z.mod_small; lia.
Qed.

(** The only bytes that decode to [h] start with the encoding of [h]. *)
Lemma header_decode_canonical input h :
  is_bytes input -> Header.decode input = Ok h ->
  Header.wf h /\ input = Header.encode h ++ drop 20 input.
Proof.
  intros Hb Hd.
  destruct (Z.lt_ge_cases (len input) Header.HEADER_LEN) as [?|Hlen].
  { by rewrite header_decode_short in Hd. }
  rewrite header_decode_long in Hd by done. unfold Header.HEADER_LEN in Hlen.
  destruct (negb _) eqn:Hv; [done|]. boolify.
  apply bind_ok in Hd as (k & Hk & [= <-]).
  apply packet_kind_canonical in Hk.
  do 20 (destruct input as [|? input]; [exfalso; rewrite ?len_cons, ?len_nil in Hlen; lia|]).
  cbn in Hv, Hk. subst.
  unfold is_bytes in Hb. rewrite !Forall_cons_iff in Hb. destruct_and!.
  unfold Header.wf; simpl Header.flags; simpl Header.session_id; simpl Header.sequence.
  unfold sub_list; simpl take.
  split.
  - refine (conj _ (conj _ _)); (apply be_value_uint; [reflexivity|bytes_tac]).
  - rewrite header_encode_eq; cbn [Header.kind Header.flags Header.session_id Header.sequence].
    rewrite (be_bytes_value [_; _]) by bytes_tac.
    rewrite !(be_bytes_value [_; _; _; _; _; _; _; _]) by bytes_tac.
    reflexivity.
Qed.

Lemma datagram_decode_eq input :
  Datagram.decode input =
  header ← Header.decode input; Ok (Datagram.mk header (drop 20 input)).
Proof.
  unfold Datagram.decode. destruct (Header.decode input) eqn:Hh; res_simpl; [|done..].
  destruct (Z.lt_ge_cases (len input) Header.HEADER_LEN) as [?|Hlen].
  { by rewrite header_decode_short in Hh. }
  unfold Header.HEADER_LEN in *. rewrite slice_ok by lia. do 2 f_equal.
  unfold sub_list. rewrite take_ge; [done|]. rewrite length_drop. unfold len in *. lia.
Qed.

Lemma datagram_encode_len d : len (Datagram.encode d) = Header.HEADER_LEN + len (Datagram.payload d).
Proof. unfold Datagram.encode. by rewrite len_app, header_encode_len. Qed.

Lemma datagram_decode_encode d :
  Header.wf (Datagram.header d) -> Datagram.decode (Datagram.encode d) = Ok d.
Proof.
  intros Hwf. rewrite datagram_decode_eq. unfold Datagram.encode.
  rewrite header_decode_encode by done. res_simpl.
  rewrite drop_app_length' by reflexivity. by destruct d.
Qed.

Lemma datagram_decode_no_panic input : no_panic (Datagram.decode input).
Proof.
  rewrite datagram_decode_eq. apply no_panic_bind; [apply header_decode_no_panic|done].
Qed.

(** [Datagram::decode] accepts exactly the encodings of well-formed
    datagrams: decoding inverts encoding, every accepted input is the canonical
    encoding of the datagram it decodes to, so no two inputs decode to the same
    datagram. *)
Theorem datagram_decode_iff input d :
  is_bytes input ->
  Datagram.decode input = Ok d <->
  Header.wf (Datagram.header d) /\ input = Datagram.encode d.
Proof.
  intros Hb; split.
  - rewrite datagram_decode_eq. intros (h & Hh & [= <-])%bind_ok.
    apply header_decode_canonical in Hh as [? ?]; done.
  - intros [? ->]. by apply datagram_decode_encode.
Qed.

Lemma datagram_decode_iff_witness :
  Datagram.decode ([1; 3; 0; 0] ++ be_bytes 8 7 ++ be_bytes 8 9 ++ [69; 0]) =
  Ok (Datagram.mk (Header.mk PacketKind.Data 0 7 9) [69; 0]).
Proof.
  apply datagram_decode_iff.
  - vm_compute. repeat constructor; intros [=].
  - split; [vm_compute; repeat split; intros [=]|reflexivity].
Defined.

(** Every branch of [Datagram::decode] on arbitrary bytes: the thread never
    aborts, short input is [Truncated], then the version byte and then the kind
    byte decide, and otherwise the header fields and the rest of the input are
    returned. *)
Theorem datagram_decode_branches input :
  no_panic (Datagram.decode input) /\
  (len input < Header.HEADER_LEN ->
   Datagram.decode input = Err (DecodeError.Truncated (len input) Header.HEADER_LEN)) /\
  (Header.HEADER_LEN <= len input -> nth 0 input 0 <> VERSION ->
   Datagram.decode input = Err (DecodeError.UnsupportedVersion (nth 0 input 0))) /\
  (Header.HEADER_LEN <= len input -> nth 0 input 0 = VERSION -> ~ 1 <= nth 1 input 0 <= 5 ->
   Datagram.decode input = Err (DecodeError.UnknownPacketKind (nth 1 input 0))) /\
  (Header.HEADER_LEN <= len input -> nth 0 input 0 = VERSION -> 1 <= nth 1 input 0 <= 5 ->
   exists k, PacketKind.to_u8 k = nth 1 input 0 /\
   Datagram.decode input =
   Ok (Datagram.mk (Header.mk k (be_value (sub_list input 2 4)) (be_value (sub_list input 4 12))
                      (be_value (sub_list input 12 20))) (drop 20 input))).
Proof.
  split; [apply datagram_decode_no_panic|].
  rewrite datagram_decode_eq. split.
  { intros ?. by rewrite header_decode_short. }
  assert (Hlong : Header.HEADER_LEN <= len input ->
    [nth 2 input 0; nth 3 input 0] = sub_list input 2 4).
  { unfold Header.HEADER_LEN. intros Hlen.
    do 4 (destruct input as [|? input]; [exfalso; rewrite ?len_cons, ?len_nil in Hlen; lia|]). done. }
  refine (conj _ (conj _ _)).
  - intros Hlen Hv. rewrite header_decode_long by done.
    destruct (Z.eqb_spec (nth 0 input 0) VERSION); done.
  - intros Hlen Hv Hk. rewrite header_decode_long, Hv by done. simpl negb. cbv iota.
    unfold PacketKind_try_from. by repeat case_match; try lia.
  - intros Hlen Hv Hk. rewrite header_decode_long, Hv, Hlong by done. simpl negb. cbv iota.
    assert (Hks : exists k, PacketKind_try_from (nth 1 input 0) = Ok k).
    { unfold PacketKind_try_from. repeat case_match; eauto; lia. }
    destruct Hks as [k Hks]. exists k. split; [by rewrite (packet_kind_canonical _ _ Hks)|].
    by rewrite Hks.
Qed.

(** ** Inner packets *)

Lemma inner_kind_roundtrip k : InnerPacketKind_try_from (InnerPacketKind.to_u8 k) = Ok k.
Proof. by destruct k. Qed.

Lemma inner_decode_encode p : InnerPacket.decode (InnerPacket.encode p) = Ok p.
Proof. unfold InnerPacket.decode, InnerPacket.encode; simpl. rewrite inner_kind_roundtrip. by destruct p. Qed.

Lemma inner_decode_canonical input p :
  InnerPacket.decode input = Ok p -> input = InnerPacket.encode p.
Proof.
  unfold InnerPacket.decode. destruct input as [|k payload]; [done|].
  intros (kind & Hk & [= <-])%bind_ok. unfold InnerPacket.encode; simpl. f_equal.
  unfold InnerPacketKind_try_from in Hk. repeat case_match; by simplify_eq.
Qed.

Lemma inner_decode_no_panic input : no_panic (InnerPacket.decode input).
Proof.
  destruct input as [|k payload]; [done|]. apply no_panic_bind; [|done].
  unfold InnerPacketKind_try_from. by repeat case_match.
Qed.

(** ** Session parameters *)

Lemma parameters_encode_eq p :
  SessionParameters.encode p =
  octets (SessionParameters.client_address p) ++ [SessionParameters.prefix_len p] ++
  be_bytes 2 (SessionParameters.mtu p) ++ octets (SessionParameters.dns p).
Proof. reflexivity. Qed.

Definition parameters_valid (p : SessionParameters.t) : Prop :=
  SessionParameters.prefix_len p <= 32 /\ 576 <= SessionParameters.mtu p <= 9000.

Lemma parameters_decode_long i0 i1 i2 i3 i4 i5 i6 i7 i8 i9 i10 :
  SessionParameters.decode [i0; i1; i2; i3; i4; i5; i6; i7; i8; i9; i10] =
  let p := SessionParameters.mk (be_value [i0; i1; i2; i3]) i4 (be_value [i5; i6])
             (be_value [i7; i8; i9; i10]) in
  if 32 <? i4 then Err (SessionParametersError.InvalidPrefix i4)
  else if negb ((576 <=? be_value [i5; i6]) && (be_value [i5; i6] <=? 9000))
  then Err (SessionParametersError.InvalidMtu (be_value [i5; i6]))
  else Ok p.
Proof. reflexivity. Qed.

Lemma parameters_decode_encode p :
  SessionParameters.wf p -> parameters_valid p ->
  SessionParameters.decode (SessionParameters.encode p) = Ok p.
Proof.
  intros (Ha & Hp & Hm & Hd) [Hp32 Hmtu].
  rewrite parameters_encode_eq. unfold octets.
  set (a := be_bytes 4 (SessionParameters.client_address p)).
  set (m := be_bytes 2 (SessionParameters.mtu p)).
  set (d := be_bytes 4 (SessionParameters.dns p)).
  assert (Hva : be_value a = SessionParameters.client_address p)
    by (subst a; rewrite be_value_bytes; apply Z.mod_small, Ha).
  assert (Hvm : be_value m = SessionParameters.mtu p)
    by (subst m; rewrite be_value_bytes; apply Z.mod_small, Hm).
  assert (Hvd : be_value d = SessionParameters.dns p)
    by (subst d; rewrite be_value_bytes; apply Z.mod_small, Hd).
  transitivity (SessionParameters.decode
    [nth 0 a 0; nth 1 a 0; nth 2 a 0; nth 3 a 0; SessionParameters.prefix_len p; nth 0 m 0; nth 1 m 0;
     nth 0 d 0; nth 1 d 0; nth 2 d 0; nth 3 d 0]); [reflexivity|].
  rewrite parameters_decode_long. cbv zeta.
  change [nth 0 a 0; nth 1 a 0; nth 2 a 0; nth 3 a 0] with a.
  change [nth 0 m 0; nth 1 m 0] with m.
  change [nth 0 d 0; nth 1 d 0; nth 2 d 0; nth 3 d 0] with d.
  rewrite Hva, Hvm, Hvd.
  destruct (Z.ltb_spec 32 (SessionParameters.prefix_len p)); [lia|].
  destruct (Z.leb_spec 576 (SessionParameters.mtu p)); [|lia].
  destruct (Z.leb_spec (SessionParameters.mtu p) 9000); [|lia]. by destruct p.
Qed.

(** [SessionParameters::decode] accepts exactly the eleven-byte encodings of
    parameters with a prefix of at most 32 and an MTU in [576, 9000], returns what
    was encoded, and never aborts. *)
Theorem parameters_decode_iff input p :
  is_bytes input ->
  no_panic (SessionParameters.decode input) /\
  (SessionParameters.decode input = Ok p <->
   SessionParameters.wf p /\ parameters_valid p /\ input = SessionParameters.encode p).
Proof.
  intros Hb. destruct (Z.eq_dec (len input) SessionParameters.SESSION_PARAMETERS_LEN) as [Hlen|Hlen].
  2: { unfold SessionParameters.decode. rewrite (proj2 (Z.eqb_neq _ _) Hlen). simpl.
       split; [done|]. split; [done|]. intros (Hwf & Hv & ->). by destruct Hlen. }
  unfold SessionParameters.SESSION_PARAMETERS_LEN in Hlen.
  do 11 (destruct input as [|? input]; [exfalso; rewrite ?len_cons, ?len_nil in Hlen; lia|]).
  destruct input; [|exfalso; rewrite !len_cons in Hlen; pose proof (len_nonneg input); lia].
  split; [rewrite parameters_decode_long; by repeat case_if|]. split.
  - rewrite parameters_decode_long. cbv zeta. repeat case_if; intros [= <-]. boolify.
    unfold is_bytes in Hb. rewrite !Forall_cons_iff in Hb. destruct_and!.
    split; [|split; [by split|]].
    + refine (conj _ (conj _ (conj _ _))); try done;
        (apply be_value_uint; [reflexivity|bytes_tac]).
    + rewrite parameters_encode_eq. unfold octets.
      cbn [SessionParameters.client_address SessionParameters.prefix_len SessionParameters.mtu SessionParameters.dns].
      rewrite !(be_bytes_value [_; _; _; _]), (be_bytes_value [_; _]) by bytes_tac. done.
  - intros (Hwf & Hv & ->). by apply parameters_decode_encode.
Qed.

Lemma parameters_decode_iff_witness :
  SessionParameters.decode [10; 77; 0; 2; 24; 5; 0; 1; 1; 1; 1] =
  Ok (SessionParameters.mk 172818434 24 1280 16843009).
Proof.
  apply parameters_decode_iff.
  - vm_compute. repeat constructor; intros [=].
  - split; [|split; [|reflexivity]]; vm_compute; repeat split; intros [=].
Defined.
