(* ===== verification/Replay.v ===== *)
(** * The receive window of crates/crypto/src/replay.rs

    A circular bitmap of 129 64-bit words tracks which sequence numbers have been
    authenticated.  The theorems show that it refines the plain set of
    authenticated sequence numbers: on every stream of sequence numbers, accepted
    or rejected, the bitmap gives the verdicts of the set. *)

From S2P Require Import Prelude.

Definition REPLAY_WINDOW_SIZE : Z := 8192.
Definition WINDOW_SIZE : Z := REPLAY_WINDOW_SIZE.
Definition WORD_BITS : Z := 64.
Definition WORD_COUNT : Z := WINDOW_SIZE / WORD_BITS + 1.

Module ReplayError.

Inductive t :=
| Duplicate
| TooOld.

#[global] Instance eq_dec : EqDecision t.
Proof. solve_decision. Defined.

End ReplayError.

Module ReplayWindow.

Record t := mk {
  highest : option Z;
  seen : list Z;
}.

#[global] Instance eq_dec : EqDecision t.
Proof. solve_decision. Defined.

(** [impl Default for ReplayWindow] *)
Definition default : t := mk None (replicate (Z.to_nat WORD_COUNT) 0).

(** [1_u64 << (sequence % WORD_BITS)] *)
Definition mask (sequence : Z) : Z := Z.shiftl 1 (sequence mod WORD_BITS).

(** [word % WORD_COUNT] *)
Definition index_of (word : Z) : Z := word mod WORD_COUNT.

Definition ensure_acceptable (w : t) (sequence : Z) : res ReplayError.t unit :=
  match highest w with
  | None => Ok tt
  | Some highest =>
      if highest <? sequence then Ok tt
      else if WINDOW_SIZE <=? highest - sequence then Err ReplayError.TooOld
      else
        word ← index (seen w) (index_of (sequence / WORD_BITS));
        if negb (Z.land word (mask sequence) =? 0) then Err ReplayError.Duplicate
        else Ok tt
  end.

(** The words a new highest sequence opens are cleared first. *)
Definition advance (w : t) (sequence : Z) : res ReplayError.t (list Z) :=
  match highest w with
  | None => Ok (seen w)
  | Some highest =>
      if highest <? sequence then
        let previous_word := highest / WORD_BITS in
        let next_word := sequence / WORD_BITS in
        if WORD_COUNT <=? next_word - previous_word
        then Ok (replicate (length (seen w)) 0)
        else for_each (fun seen word => set_index seen (index_of word) 0)
               (seqZ (previous_word + 1) (next_word - previous_word)) (seen w)
      else Ok (seen w)
  end.

Definition mark_authenticated (w : t) (sequence : Z) : res ReplayError.t t :=
  seen ← advance w sequence;
  let i := index_of (sequence / WORD_BITS) in
  word ← index seen i;
  seen ← set_index seen i (Z.lor word (mask sequence));
  let grows := match highest w with None => true | Some highest => highest <? sequence end in
  Ok (mk (if grows then Some sequence else highest w) seen).

End ReplayWindow.

(** ** The specification: a set of authenticated sequence numbers *)
Module ReplaySpec.

(** The highest sequence number authenticated so far and all of them. *)
Record t := mk {
  highest : option Z;
  accepted : gset Z;
}.

Definition empty : t := mk None ∅.

Definition verdict (a : t) (sequence : Z) : res ReplayError.t unit :=
  match highest a with
  | None => Ok tt
  | Some highest =>
      if decide (WINDOW_SIZE <= highest - sequence) then Err ReplayError.TooOld
      else if decide (sequence ∈ accepted a) then Err ReplayError.Duplicate
      else Ok tt
  end.

Definition add (a : t) (sequence : Z) : t :=
  mk (Some (match highest a with None => sequence | Some h => Z.max h sequence end))
     ({[sequence]} ∪ accepted a).

End ReplaySpec.

(** One offered sequence number: checked, and marked when the check passes (this
    is how [decrypt_into] drives the window for an authentic packet). *)
Definition offer (w : ReplayWindow.t) (sequence : Z) : res ReplayError.t ReplayWindow.t :=
  _ ← ReplayWindow.ensure_acceptable w sequence;
  ReplayWindow.mark_authenticated w sequence.

Fixpoint verdicts (w : ReplayWindow.t) (sequences : list Z) : list (res ReplayError.t unit) :=
  match sequences with
  | [] => []
  | s :: rest =>
      match offer w s with
      | Ok w' => Ok tt :: verdicts w' rest
      | Err e => Err e :: verdicts w rest
      | Panic => [Panic]
      end
  end.

Fixpoint spec_verdicts (a : ReplaySpec.t) (sequences : list Z) : list (res ReplayError.t unit) :=
  match sequences with
  | [] => []
  | s :: rest =>
      match ReplaySpec.verdict a s with
      | Ok _ => Ok tt :: spec_verdicts (ReplaySpec.add a s) rest
      | r => r :: spec_verdicts a rest
      end
  end.

(** ** Representation invariant *)

(** The bit that stands for [s]. *)
Definition bit (seen : list Z) (s : Z) : bool :=
  Z.testbit (nth (Z.to_nat (ReplayWindow.index_of (s / WORD_BITS))) seen 0) (s mod WORD_BITS).

Record represents (w : ReplayWindow.t) (a : ReplaySpec.t) : Prop := {
  rep_len : len (ReplayWindow.seen w) = WORD_COUNT;
  rep_highest : ReplayWindow.highest w = ReplaySpec.highest a;
  rep_empty : ReplaySpec.highest a = None -> ReplaySpec.accepted a = ∅;
  rep_blank : ReplaySpec.highest a = None -> forall i, nth i (ReplayWindow.seen w) 0 = 0;
  rep_max : forall h s, ReplaySpec.highest a = Some h -> s ∈ ReplaySpec.accepted a -> 0 <= s <= h;
  rep_top : forall h, ReplaySpec.highest a = Some h -> h ∈ ReplaySpec.accepted a;
  rep_bits : forall h s, ReplaySpec.highest a = Some h -> 0 <= s ->
    h / WORD_BITS - WORD_COUNT < s / WORD_BITS <= h / WORD_BITS ->
    (bit (ReplayWindow.seen w) s = true <-> s ∈ ReplaySpec.accepted a);
}.

(** ** Lemmas on the bitmap *)

Lemma index_of_bound word : 0 <= ReplayWindow.index_of word < WORD_COUNT.
Proof. apply Z.mod_pos_bound. done. Qed.

Lemma index_of_inj x y :
  Z.abs (x - y) < WORD_COUNT -> ReplayWindow.index_of x = ReplayWindow.index_of y -> x = y.
Proof.
  unfold ReplayWindow.index_of. change WORD_COUNT with 129. intros Hd He.
  Z.div_mod_to_equations. nia.
Qed.

Lemma land_mask word s :
  negb (Z.land word (ReplayWindow.mask s) =? 0) = Z.testbit word (s mod WORD_BITS).
Proof.
  unfold ReplayWindow.mask, WORD_BITS. pose proof (Z.mod_pos_bound s 64 eq_refl) as Hm.
  set (k := s mod 64) in *. destruct (Z.eqb_spec (Z.land word (Z.shiftl 1 k)) 0) as [H0|H0]; simpl.
  - apply (f_equal (fun z => Z.testbit z k)) in H0.
    rewrite Z.land_spec, Z.shiftl_spec, Z.sub_diag, Z.bits_0 in H0 by lia.
    rewrite andb_true_r in H0. done.
  - destruct (Z.testbit word k) eqn:Hk; [done|]. exfalso; apply H0.
    apply Z.bits_inj'. intros i Hi. rewrite Z.land_spec, Z.bits_0.
    destruct (Z.eq_dec i k) as [->|]; [by rewrite Hk|].
    rewrite Z.shiftl_1_l, Z.pow2_bits_false by done. apply andb_false_r.
Qed.

Lemma lor_mask word s i :
  0 <= i -> Z.testbit (Z.lor word (ReplayWindow.mask s)) i =
  (Z.testbit word i || (i =? s mod WORD_BITS)).
Proof.
  intros Hi. unfold ReplayWindow.mask. rewrite Z.lor_spec, Z.shiftl_1_l, Z.pow2_bits_eqb.
  - by rewrite Z.eqb_sym.
  - apply Z.mod_pos_bound; done.
Qed.

(** The clearing loop never aborts and clears exactly the words it names. *)
Lemma clear_words words seen :
  len seen = WORD_COUNT ->
  exists seen',
    for_each (E:=ReplayError.t) (fun seen word => set_index seen (ReplayWindow.index_of word) 0)
      words seen = Ok seen' /\
    len seen' = WORD_COUNT /\
    forall i, nth i seen' 0 =
      if decide (i ∈ (fun word => Z.to_nat (ReplayWindow.index_of word)) <$> words)
      then 0 else nth i seen 0.
Proof.
  revert seen; induction words as [|word words IH]; intros seen Hlen; cbn [for_each].
  - exists seen. do 2 (split; [done|]). intros i.
    rewrite decide_False; [done|]. apply not_elem_of_nil.
  - pose proof (index_of_bound word). rewrite set_index_ok by lia. res_simpl.
    edestruct (IH (<[Z.to_nat (ReplayWindow.index_of word) := 0]> seen)) as (seen' & -> & Hl & Hn).
    { by rewrite len_insert. }
    exists seen'. do 2 (split; [done|]). intros i. rewrite Hn.
    destruct (decide (i ∈ _)) as [Hin|Hin].
    + by rewrite decide_True by (apply elem_of_cons; auto).
    + rewrite nth_insert by (unfold len in *; lia).
      destruct (decide (Z.to_nat (ReplayWindow.index_of word) = i)) as [<-|Hne].
      * by rewrite decide_True by (apply elem_of_cons; auto).
      * rewrite decide_False; [done|]. intros [->|?]%elem_of_cons; done.
Qed.

Lemma represents_default : represents ReplayWindow.default ReplaySpec.empty.
Proof.
  constructor; try done. intros _ i. apply nth_replicate_0.
Qed.

Lemma bit_zero seen s :
  nth (Z.to_nat (ReplayWindow.index_of (s / WORD_BITS))) seen 0 = 0 -> bit seen s = false.
Proof. intros H. unfold bit. rewrite H. apply Z.bits_0. Qed.

Lemma index_in_bounds {E} seen word :
  len seen = WORD_COUNT ->
  index (E:=E) seen (ReplayWindow.index_of word) =
  Ok (nth (Z.to_nat (ReplayWindow.index_of word)) seen 0).
Proof. intros. apply index_ok. pose proof (index_of_bound word). lia. Qed.

Lemma ensure_refines w a s :
  represents w a -> 0 <= s ->
  ReplayWindow.ensure_acceptable w s = ReplaySpec.verdict a s.
Proof.
  intros R Hs. unfold ReplayWindow.ensure_acceptable, ReplaySpec.verdict.
  rewrite (rep_highest _ _ R). destruct (ReplaySpec.highest a) as [h|] eqn:Hh; [|done].
  destruct (Z.ltb_spec h s) as [Hlt|Hge].
  { rewrite decide_False by (unfold WINDOW_SIZE, REPLAY_WINDOW_SIZE; lia).
    rewrite decide_False; [done|]. intros Hin. pose proof (rep_max _ _ R h s Hh Hin). lia. }
  destruct (Z.leb_spec WINDOW_SIZE (h - s)) as [?|Hw]; [by rewrite decide_True|].
  rewrite decide_False by lia. rewrite index_in_bounds by apply R. res_simpl.
  rewrite land_mask. fold (bit (ReplayWindow.seen w) s).
  pose proof (rep_bits _ _ R h s Hh Hs) as Hbit.
  assert (h / WORD_BITS - WORD_COUNT < s / WORD_BITS <= h / WORD_BITS) as Hwin.
  { change WORD_COUNT with 129. unfold WINDOW_SIZE, REPLAY_WINDOW_SIZE, WORD_BITS in *.
    Z.div_mod_to_equations. lia. }
  specialize (Hbit Hwin). destruct (bit _ _).
  - by rewrite decide_True by tauto.
  - rewrite decide_False; [done|]. intros Hin. by apply Hbit in Hin.
Qed.

(** The window after a new highest sequence has opened its words and before its
    bit is set: no abort, and the bits around the new highest stand for exactly
    the sequence numbers authenticated before. *)
Lemma advance_bits w a s :
  represents w a -> 0 <= s ->
  let top := match ReplaySpec.highest a with None => s | Some h => Z.max h s end in
  exists seen',
    ReplayWindow.advance w s = Ok seen' /\ len seen' = WORD_COUNT /\
    forall t, 0 <= t ->
      top / WORD_BITS - WORD_COUNT < t / WORD_BITS <= top / WORD_BITS ->
      (bit seen' t = true <-> t ∈ ReplaySpec.accepted a).
Proof.
  intros R Hs top. unfold ReplayWindow.advance. rewrite (rep_highest _ _ R). subst top.
  destruct (ReplaySpec.highest a) as [h|] eqn:Hh.
  2: { exists (ReplayWindow.seen w). do 2 (split; [done || apply R|]). intros t _ _.
       rewrite (rep_empty _ _ R Hh), bit_zero by (by apply (rep_blank _ _ R)).
       split; [done|]. intros Hin. by apply not_elem_of_empty in Hin. }
  destruct (Z.ltb_spec h s) as [Hlt|Hge].
  2: { rewrite Z.max_l by lia. exists (ReplayWindow.seen w). do 2 (split; [done || apply R|]).
       intros t Ht Hwin. by apply (rep_bits _ _ R h). }
  rewrite Z.max_r by lia.
  assert (Hfresh : forall t, h / WORD_BITS < t / WORD_BITS -> t ∉ ReplaySpec.accepted a).
  { intros t Ht Hin. pose proof (rep_max _ _ R h t Hh Hin).
    assert (t / WORD_BITS <= h / WORD_BITS) by (apply Z.div_le_mono; [done|lia]). lia. }
  destruct (Z.leb_spec WORD_COUNT (s / WORD_BITS - h / WORD_BITS)) as [Hfar|Hnear].
  - exists (replicate (length (ReplayWindow.seen w)) 0). split; [done|].
    split; [unfold len; rewrite length_replicate; apply R|]. intros t Ht Hwin.
    rewrite bit_zero.
    + split; [done|]. intros Hin. exfalso. apply (Hfresh t); [lia|done].
    + apply nth_replicate_0.
  - destruct (clear_words (seqZ (h / WORD_BITS + 1) (s / WORD_BITS - h / WORD_BITS)) (ReplayWindow.seen w))
      as (seen' & -> & Hl & Hn); [apply R|].
    exists seen'. do 2 (split; [done|]). intros t Ht Hwin.
    unfold bit. rewrite Hn. destruct (decide (_ ∈ _)) as [Hin|Hout].
    + rewrite Z.bits_0. split; [done|]. intros Hacc. exfalso.
      apply list_elem_of_fmap in Hin as (word & Hi & Hword%elem_of_seqZ).
      pose proof (index_of_bound word). pose proof (index_of_bound (t / WORD_BITS)).
      assert (t / WORD_BITS = word) by (apply index_of_inj; lia).
      apply (Hfresh t); [lia|done].
    + fold (bit (ReplayWindow.seen w) t). apply (rep_bits _ _ R h); [done..|].
      split; [|lia || idtac].
      { assert (h / WORD_BITS <= s / WORD_BITS) by (apply Z.div_le_mono; [done|lia]). lia. }
      destruct (Z.le_gt_cases (t / WORD_BITS) (h / WORD_BITS)); [done|].
      exfalso; apply Hout. apply list_elem_of_fmap. exists (t / WORD_BITS).
      split; [done|]. apply elem_of_seqZ. lia.
Qed.

Lemma mark_refines w a s :
  represents w a -> 0 <= s -> ReplaySpec.verdict a s = Ok tt ->
  exists w', ReplayWindow.mark_authenticated w s = Ok w' /\ represents w' (ReplaySpec.add a s).
Proof.
  intros R Hs Hv. destruct (advance_bits w a s R Hs) as (seen' & Hadv & Hl & Hbits).
  unfold ReplayWindow.mark_authenticated. rewrite Hadv. res_simpl.
  rewrite index_in_bounds by done.
  pose proof (index_of_bound (s / WORD_BITS)) as Hi. rewrite set_index_ok by lia.
  eexists; split; [reflexivity|].
  assert (Htop : (if match ReplayWindow.highest w with None => true | Some h => h <? s end
     then Some s else ReplayWindow.highest w) = ReplaySpec.highest (ReplaySpec.add a s)).
  { unfold ReplaySpec.add. rewrite (rep_highest _ _ R).
    destruct (ReplaySpec.highest a) as [h|]; simpl; [|done].
    destruct (Z.ltb_spec h s); f_equal; lia. }
  assert (Hbelow : forall h t, ReplaySpec.highest (ReplaySpec.add a s) = Some h ->
     t ∈ ReplaySpec.accepted (ReplaySpec.add a s) -> 0 <= t <= h).
  { intros h t [= <-] [->%elem_of_singleton|Hin]%elem_of_union;
      destruct (ReplaySpec.highest a) as [h'|] eqn:Hh; try lia.
    - pose proof (rep_max _ _ R h' t Hh Hin). lia.
    - rewrite (rep_empty _ _ R Hh) in Hin. by apply not_elem_of_empty in Hin. }
  constructor; try done; cbn [ReplayWindow.seen].
  - by rewrite len_insert.
  - intros h [= <-]. simpl. rewrite elem_of_union, elem_of_singleton.
    destruct (ReplaySpec.highest a) as [h'|] eqn:Hh; [|by left].
    destruct (Z.max_spec h' s) as [[_ ->]|[_ ->]]; [by left|].
    right. by apply (rep_top _ _ R h').
  - intros h t [= <-] Ht Hwin. simpl. rewrite elem_of_union, elem_of_singleton.
    set (top := match ReplaySpec.highest a with None => s | Some h => Z.max h s end) in *.
    assert (Hswin : top / WORD_BITS - WORD_COUNT < s / WORD_BITS <= top / WORD_BITS).
    { change WORD_COUNT with 129. subst top. unfold ReplaySpec.verdict in Hv.
      destruct (ReplaySpec.highest a) as [h'|] eqn:Hh; [|lia].
      destruct (decide (WINDOW_SIZE <= h' - s)) as [|Hwide]; [done|].
      unfold WINDOW_SIZE, REPLAY_WINDOW_SIZE, WORD_BITS in *. Z.div_mod_to_equations. lia. }
    specialize (Hbits t Ht Hwin). unfold bit.
    rewrite nth_insert by (unfold len in *; lia).
    pose proof (index_of_bound (t / WORD_BITS)).
    destruct (decide (_ = _)) as [Heq|Hne].
    + assert (Hword : t / WORD_BITS = s / WORD_BITS) by (apply index_of_inj; lia).
      rewrite lor_mask by (apply Z.mod_pos_bound; done).
      rewrite <- Hword. fold (bit seen' t). rewrite orb_true_iff, Z.eqb_eq, Hbits.
      assert (t mod WORD_BITS = s mod WORD_BITS <-> t = s).
      { unfold WORD_BITS in *. split; [|congruence]. intros. Z.div_mod_to_equations. lia. }
      tauto.
    + fold (bit seen' t). rewrite Hbits. split; [tauto|]. intros [->|?]; [done|tauto].
Qed.

Lemma offer_refines w a s :
  represents w a -> 0 <= s ->
  match ReplaySpec.verdict a s with
  | Ok _ => exists w', offer w s = Ok w' /\ represents w' (ReplaySpec.add a s)
  | Err e => offer w s = Err e
  | Panic => False
  end.
Proof.
  intros R Hs. unfold offer. rewrite (ensure_refines w a s) by done.
  destruct (ReplaySpec.verdict a s) as [[]|e|] eqn:Hv; res_simpl; [|done|].
  - by apply mark_refines.
  - unfold ReplaySpec.verdict in Hv. by repeat case_match.
Qed.

Lemma verdicts_refine sequences w a :
  represents w a -> Forall (fun s => 0 <= s) sequences ->
  verdicts w sequences = spec_verdicts a sequences.
Proof.
  intros R Hs; revert w a R; induction Hs as [|s rest Hs Hrest IH]; intros w a R; [done|]; simpl.
  pose proof (offer_refines w a s R Hs) as Hof.
  destruct (ReplaySpec.verdict a s) as [[]|e|]; [|by rewrite Hof; f_equal; apply IH|done].
  destruct Hof as (w' & -> & R'). f_equal. by apply IH.
Qed.

(** [C1] The circular bitmap refines the set of authenticated sequence numbers:
    on every finite stream of [u64] sequence numbers the verdicts of the window
    (fresh, duplicate, too old) are those of the set, whatever the order, the
    wrap-around of the ring and the size of the jumps; no step aborts. *)
Theorem replay_window_refines_set sequences :
  Forall u64 sequences ->
  verdicts ReplayWindow.default sequences = spec_verdicts ReplaySpec.empty sequences /\
  Panic ∉ verdicts ReplayWindow.default sequences.
Proof.
  intros Hs. rewrite (verdicts_refine sequences _ _ represents_default).
  - split; [done|]. generalize ReplaySpec.empty as a.
    induction sequences as [|s rest IH]; intros a; [apply not_elem_of_nil|].
    apply Forall_cons_iff in Hs as [_ Hs]. simpl.
    destruct (ReplaySpec.verdict a s) eqn:Hv;
      (rewrite not_elem_of_cons; split; [|by apply IH]); try done.
    unfold ReplaySpec.verdict in Hv. by repeat case_match.
  - revert Hs. apply Forall_impl. unfold uint; lia.
Qed.

Lemma replay_window_refines_set_witness :
  verdicts ReplayWindow.default [1; 8192; 1; 2; 2; 8193; 1] =
  [Ok tt; Ok tt; Err ReplayError.Duplicate; Ok tt; Err ReplayError.Duplicate; Ok tt;
   Err ReplayError.TooOld].
Proof.
  assert (H := proj1 (replay_window_refines_set [1; 8192; 1; 2; 2; 8193; 1]
    ltac:(repeat constructor; intros [=]))).
  rewrite H. vm_compute. reflexivity.
Defined.
