(* ===== verification/Crypto.v ===== *)
(** * Keys, handshake and sessions of crates/crypto

    The cryptographic libraries (snow, x25519-dalek, sha2, hkdf, hmac,
    chacha20poly1305, blake3) are not part of the repository: their operations are
    the fields of the classes [Primitives] and [Noise], and what the code relies on
    is stated in separate classes of laws.  Everything MouseVPN itself does around
    them (key-length checks, labels, role-ordered HKDF info, message-size limits,
    the order of replay check, authentication and window update) is modelled. *)

From S2P Require Import Prelude Replay.

(** ** Library operations *)

Class Primitives := {
  sha256 : bytes -> bytes;
  (** [x25519 scalar point] *)
  x25519 : bytes -> bytes -> bytes;
  X25519_BASEPOINT_BYTES : bytes;
  (** [hkdf_sha256 salt ikm info length]: extract then expand *)
  hkdf_sha256 : bytes -> bytes -> bytes -> Z -> option bytes;
  (** [hkdf_expand prk info length] *)
  hkdf_expand : bytes -> bytes -> Z -> option bytes;
  hmac_sha256 : bytes -> bytes -> bytes;
  (** [chacha_seal key nonce aad plaintext] = ciphertext and detached tag *)
  chacha_seal : bytes -> bytes -> bytes -> bytes -> option (bytes * bytes);
  (** [chacha_open key nonce aad ciphertext tag] *)
  chacha_open : bytes -> bytes -> bytes -> bytes -> bytes -> option bytes;
  (** [blake3_keyed_hash key input] *)
  blake3_keyed_hash : bytes -> bytes -> bytes;
}.

(** The operations of snow that the code calls.  Buffers are passed as their
    capacity; the bytes written are returned.  [entropy] is what the library
    draws from its generator. *)
Class Noise := {
  transport : Type;
  write_message : transport -> Z -> bytes -> Z -> option bytes;
  read_message : transport -> Z -> bytes -> Z -> option bytes;
  HandshakeState : Type;
  build_initiator : bytes -> bytes -> bytes -> option HandshakeState;
  build_responder : bytes -> bytes -> option HandshakeState;
  hs_write_message : HandshakeState -> bytes -> bytes -> Z -> option (HandshakeState * bytes);
  hs_read_message : HandshakeState -> bytes -> Z -> option (HandshakeState * bytes);
  get_remote_static : HandshakeState -> option bytes;
  into_stateless_transport_mode : HandshakeState -> option transport;
  generate_keypair : bytes -> option (bytes * bytes);
}.

(** ** What the code relies on *)

(** Diffie-Hellman agreement, and HKDF expanding to the requested short length. *)
Class PrimitiveLaws `{Primitives} := {
  x25519_agree : forall a b,
    x25519 a (x25519 b X25519_BASEPOINT_BYTES) = x25519 b (x25519 a X25519_BASEPOINT_BYTES);
  hkdf_len : forall salt ikm info n, 0 <= n <= 255 * 32 ->
    exists out, hkdf_sha256 salt ikm info n = Some out /\ len out = n;
  hkdf_expand_len : forall prk info n, len prk = 32 -> 0 <= n <= 255 * 32 ->
    exists out, hkdf_expand prk info n = Some out /\ len out = n;
  hmac_len : forall key input, len (hmac_sha256 key input) = 32;
  blake3_len : forall key input, len (blake3_keyed_hash key input) = 32;
  blake3_bytes : forall key input, is_bytes (blake3_keyed_hash key input);
  (** the detached interface keeps the length and yields a 16-byte tag; opening
      what was sealed under the same key, nonce and associated data succeeds *)
  chacha_seal_total : forall key nonce aad p, len key = 32 -> len nonce = 12 ->
    exists c tag, chacha_seal key nonce aad p = Some (c, tag) /\ len c = len p /\ len tag = 16;
  chacha_open_seal : forall key nonce aad p c tag,
    chacha_seal key nonce aad p = Some (c, tag) -> chacha_open key nonce aad c tag = Some p;
  chacha_open_len : forall key nonce aad c tag p,
    chacha_open key nonce aad c tag = Some p -> len p = len c;
  chacha_open_bytes : forall key nonce aad c tag p, is_bytes c ->
    chacha_open key nonce aad c tag = Some p -> is_bytes p;
}.

(** Two ends of one direction: what [a] writes, [b] reads. *)
Definition paired `{Noise} (a b : transport) : Prop :=
  forall sequence plaintext capacity ciphertext capacity',
    write_message a sequence plaintext capacity = Some ciphertext ->
    len plaintext <= capacity' ->
    read_message b sequence ciphertext capacity' = Some plaintext.

(** The documented sizes of snow's stateless transport: a 16-byte tag, a limit of
    65535 bytes per message, an error when the buffer is too small, and the nonce 2^64-1
    reserved. *)
Class NoiseLaws `{Noise} := {
  write_message_len : forall t n p cap c,
    write_message t n p cap = Some c -> len c = len p + 16;
  write_message_total : forall t n p cap,
    0 <= n < 2 ^ 64 - 1 -> len p + 16 <= 65535 -> len p + 16 <= cap -> exists c, write_message t n p cap = Some c;
  read_message_len : forall t n c cap p,
    read_message t n c cap = Some p -> len p = len c - 16;
}.

(** ** src/crates/crypto/src/lib.rs, error.rs *)
Definition MAX_NOISE_MESSAGE_LEN : Z := 65535.
Definition KEY_LEN : Z := 32.

Module CryptoError.

(** The payload of [Noise], a snow error that is only ever printed, is dropped. *)
Inductive t :=
| Noise
| InvalidKeyLength (actual : Z)
| MessageTooLarge (actual maximum : Z)
| InvalidSharedSecret
| MissingPeerStaticKey
| Replay (e : ReplayError.t).

#[global] Instance eq_dec : EqDecision t.
Proof. solve_decision. Defined.

End CryptoError.

(** The [?] operator on a snow result. *)
Definition noise_err {A} (o : option A) : res CryptoError.t A := ok_or o CryptoError.Noise.

(** ** Keys *)
Abbreviation PublicKey := (list Z) (only parsing).
Abbreviation SecretKey := (list Z) (only parsing).

Definition key_wf (k : bytes) : Prop := len k = KEY_LEN /\ is_bytes k.

Definition PublicKey_from_slice (b : bytes) : res CryptoError.t PublicKey :=
  try_into_array KEY_LEN b (CryptoError.InvalidKeyLength (len b)).

Definition SecretKey_from_vec (b : bytes) : res CryptoError.t SecretKey :=
  try_into_array KEY_LEN b (CryptoError.InvalidKeyLength (len b)).

Section Keys.
Context `{P : Primitives}.

Definition public_key (k : SecretKey) : PublicKey := x25519 k X25519_BASEPOINT_BYTES.

Definition derive_wire_key (local_secret_key : SecretKey)
    (peer_public_key server_public_key client_public_key : PublicKey) (label : bytes)
    : res CryptoError.t bytes :=
  let shared := x25519 local_secret_key peer_public_key in
  if decide (shared = zeros KEY_LEN) then Err CryptoError.InvalidSharedSecret
  else
    let info := zeros (KEY_LEN * 2) in
    let info := copy_at info 0 server_public_key in
    let info := copy_at info KEY_LEN client_public_key in
    ok_or (hkdf_sha256 label shared info KEY_LEN) (CryptoError.InvalidKeyLength KEY_LEN).

Definition MORPH_KEY_LABEL : bytes := ascii_bytes "MouseVPN MouseMorph v2 key".

Definition derive_morph_key (local peer server client : bytes) : res CryptoError.t bytes :=
  derive_wire_key local peer server client MORPH_KEY_LABEL.

Definition derive_speedy_key (local peer server client : bytes) : res CryptoError.t bytes :=
  derive_wire_key local peer server client (ascii_bytes "MouseVPN Speedy v1 key").

(** ** Protocol contexts *)
Definition CONTEXT_LABEL : bytes := ascii_bytes "MouseVPN deployment context v1" ++ [0].

Definition context_for_server (server_public_key : PublicKey) : bytes :=
  sha256 (CONTEXT_LABEL ++ server_public_key).

Definition context_for_speedy_server (server_public_key : PublicKey) : bytes :=
  sha256 ((ascii_bytes "MouseVPN Speedy v1 context" ++ [0]) ++ server_public_key).

End Keys.

(** ** Sessions *)
Definition AUTH_TAG_LEN : Z := 16.
Definition MAX_PLAINTEXT_LEN : Z := MAX_NOISE_MESSAGE_LEN - AUTH_TAG_LEN.

Section Sessions.
Context `{N : Noise}.

Definition encrypt_into (t : transport) (sequence : Z) (plaintext : bytes) (capacity : Z)
    : res CryptoError.t bytes :=
  if MAX_PLAINTEXT_LEN <? len plaintext
  then Err (CryptoError.MessageTooLarge (len plaintext) MAX_PLAINTEXT_LEN)
  else noise_err (write_message t sequence plaintext capacity).

(** The window is returned next to the result: it changes on success only. *)
Definition decrypt_into (t : transport) (window : ReplayWindow.t) (sequence : Z)
    (ciphertext : bytes) (capacity : Z) : ReplayWindow.t * res CryptoError.t bytes :=
  if MAX_NOISE_MESSAGE_LEN <? len ciphertext
  then (window, Err (CryptoError.MessageTooLarge (len ciphertext) MAX_NOISE_MESSAGE_LEN))
  else
    match map_err CryptoError.Replay (ReplayWindow.ensure_acceptable window sequence) with
    | Err e => (window, Err e)
    | Panic => (window, Panic)
    | Ok _ =>
        match read_message t sequence ciphertext capacity with
        | None => (window, Err CryptoError.Noise)
        | Some plaintext =>
            match ReplayWindow.mark_authenticated window sequence with
            | Ok window => (window, Ok plaintext)
            | Err e => (window, Err (CryptoError.Replay e))
            | Panic => (window, Panic)
            end
        end
    end.

Record SecureSession := mkSecureSession {
  ss_transport : transport;
  ss_receive_window : ReplayWindow.t;
  ss_peer_static_key : PublicKey;
}.

Record SendHalf := mkSendHalf {
  send_transport : transport;
  send_peer_static_key : PublicKey;
}.

Record ReceiveHalf := mkReceiveHalf {
  recv_transport : transport;
  recv_window : ReplayWindow.t;
  recv_peer_static_key : PublicKey;
}.

Definition SecureSession_new (t : transport) (peer : PublicKey) : SecureSession :=
  mkSecureSession t ReplayWindow.default peer.

Definition SecureSession_split (s : SecureSession) : SendHalf * ReceiveHalf :=
  (mkSendHalf (ss_transport s) (ss_peer_static_key s),
   mkReceiveHalf (ss_transport s) (ss_receive_window s) (ss_peer_static_key s)).

(** [SecureSession::encrypt]: the buffer is [plaintext.len() + AUTH_TAG_LEN] long. *)
Definition SecureSession_encrypt (s : SecureSession) (sequence : Z) (plaintext : bytes)
    : res CryptoError.t bytes :=
  encrypt_into (ss_transport s) sequence plaintext (len plaintext + AUTH_TAG_LEN).

Definition SecureSession_decrypt (s : SecureSession) (sequence : Z) (ciphertext : bytes)
    : SecureSession * res CryptoError.t bytes :=
  let '(window, result) :=
    decrypt_into (ss_transport s) (ss_receive_window s) sequence ciphertext (len ciphertext) in
  (mkSecureSession (ss_transport s) window (ss_peer_static_key s), result).

Definition SendHalf_encrypt_into (s : SendHalf) (sequence : Z) (plaintext : bytes) (capacity : Z)
    : res CryptoError.t bytes :=
  encrypt_into (send_transport s) sequence plaintext capacity.

Definition ReceiveHalf_decrypt_into (r : ReceiveHalf) (sequence : Z) (ciphertext : bytes)
    (capacity : Z) : ReceiveHalf * res CryptoError.t bytes :=
  let '(window, result) :=
    decrypt_into (recv_transport r) (recv_window r) sequence ciphertext capacity in
  (mkReceiveHalf (recv_transport r) window (recv_peer_static_key r), result).

(** ** Handshake *)
Definition write_handshake_message (state : HandshakeState) (entropy payload : bytes)
    : res CryptoError.t (HandshakeState * bytes) :=
  noise_err (hs_write_message state entropy payload MAX_NOISE_MESSAGE_LEN).

Definition read_handshake_message (state : HandshakeState) (message : bytes)
    : res CryptoError.t (HandshakeState * bytes) :=
  if MAX_NOISE_MESSAGE_LEN <? len message
  then Err (CryptoError.MessageTooLarge (len message) MAX_NOISE_MESSAGE_LEN)
  else noise_err (hs_read_message state message (len message)).

Definition peer_static_key (state : HandshakeState) : res CryptoError.t PublicKey :=
  k ← ok_or (get_remote_static state) CryptoError.MissingPeerStaticKey;
  PublicKey_from_slice k.

Definition ClientHandshake_new (client_secret_key server_public_key context : bytes)
    : res CryptoError.t HandshakeState :=
  noise_err (build_initiator client_secret_key server_public_key context).

Definition ClientHandshake_write_initial := write_handshake_message.

Definition ClientHandshake_finish (state : HandshakeState) (response : bytes)
    : res CryptoError.t (SecureSession * bytes) :=
  '(state, payload) ← read_handshake_message state response;
  peer ← peer_static_key state;
  t ← noise_err (into_stateless_transport_mode state);
  Ok (SecureSession_new t peer, payload).

Definition ServerHandshake_new (server_secret_key context : bytes)
    : res CryptoError.t HandshakeState :=
  noise_err (build_responder server_secret_key context).

Definition ServerHandshake_read_initial := read_handshake_message.

Definition ServerHandshake_peer_static_key (state : HandshakeState) : option PublicKey :=
  k ← get_remote_static state; res_ok (PublicKey_from_slice k).

Definition ServerHandshake_finish (state : HandshakeState) (entropy payload : bytes)
    : res CryptoError.t (SecureSession * bytes) :=
  peer ← peer_static_key state;
  '(state, response) ← write_handshake_message state entropy payload;
  t ← noise_err (into_stateless_transport_mode state);
  Ok (SecureSession_new t peer, response).

(** [KeyPair::generate]: the secret and public halves. *)
Definition KeyPair_generate (entropy : bytes) : res CryptoError.t (SecretKey * PublicKey) :=
  '(private, public) ← noise_err (generate_keypair entropy);
  secret ← SecretKey_from_vec private;
  public ← PublicKey_from_slice public;
  Ok (secret, public).

End Sessions.

(** ** Key agreement *)

(** Both ends of a Diffie-Hellman pair derive the same key. *)
Lemma derive_wire_key_agree `{PL : PrimitiveLaws} client_secret server_secret label :
  derive_wire_key client_secret (public_key server_secret) (public_key server_secret) (public_key client_secret) label =
  derive_wire_key server_secret (public_key client_secret) (public_key server_secret) (public_key client_secret) label.
Proof. unfold derive_wire_key, public_key. by rewrite x25519_agree. Qed.

(** Both roles derive the same wire key: the client from its secret and the
    server's public key, the server from its secret and the client's public key,
    with the role-ordered public keys in the HKDF info on both sides; and the
    derivation can only fail for a peer key with an all-zero shared secret. *)
Theorem wire_keys_agree `{PL : PrimitiveLaws} client_secret server_secret label :
  let server_public := public_key server_secret in
  let client_public := public_key client_secret in
  derive_wire_key client_secret server_public server_public client_public label =
  derive_wire_key server_secret client_public server_public client_public label /\
  (x25519 client_secret server_public <> zeros KEY_LEN ->
   exists key, derive_wire_key server_secret client_public server_public client_public label = Ok key /\
               len key = KEY_LEN).
Proof.
  intros server_public client_public. split; [apply derive_wire_key_agree|].
  unfold derive_wire_key, server_public, client_public, public_key.
  rewrite x25519_agree. intros Hnz. rewrite decide_False by done.
  edestruct (hkdf_len label (x25519 server_secret client_public)) as (out & Hout & Hl);
    [|rewrite Hout; eauto]. unfold KEY_LEN; lia.
Qed.

(** ** Replay protection of a session *)

Section ReceiveTheorems.
Context `{N : Noise}.

(** Every outcome of one decryption, in terms of the set of authenticated
    sequence numbers that the window represents. *)
Lemma decrypt_into_spec t w a sequence ciphertext capacity :
  represents w a -> 0 <= sequence ->
  match decrypt_into t w sequence ciphertext capacity with
  | (w', Ok p) =>
      len ciphertext <= MAX_NOISE_MESSAGE_LEN /\ ReplaySpec.verdict a sequence = Ok tt /\
      read_message t sequence ciphertext capacity = Some p /\ represents w' (ReplaySpec.add a sequence)
  | (w', Err e) =>
      w' = w /\
      ((MAX_NOISE_MESSAGE_LEN < len ciphertext /\
        e = CryptoError.MessageTooLarge (len ciphertext) MAX_NOISE_MESSAGE_LEN) \/
       (exists r, ReplaySpec.verdict a sequence = Err r /\ e = CryptoError.Replay r) \/
       (read_message t sequence ciphertext capacity = None /\ e = CryptoError.Noise))
  | (_, Panic) => False
  end.
Proof.
  intros R Hs. unfold decrypt_into.
  destruct (Z.ltb_spec MAX_NOISE_MESSAGE_LEN (len ciphertext)); [split; auto|].
  rewrite (ensure_refines w a) by done.
  destruct (ReplaySpec.verdict a sequence) as [[]|e|] eqn:Hv; simpl.
  - destruct (read_message _ _ _ _) eqn:Hr; [|by split; auto].
    destruct (mark_refines w a sequence R Hs Hv) as (w' & -> & R'). auto.
  - split; [done|]. right; left. eauto.
  - unfold ReplaySpec.verdict in Hv. by repeat case_match.
Qed.

(** One datagram of a session: its sequence number, ciphertext and the capacity of
    the buffer it is decrypted into. *)
Record arrival := mkArrival { ar_sequence : Z; ar_ciphertext : bytes; ar_capacity : Z }.

Fixpoint receive_all (r : ReceiveHalf) (arrivals : list arrival)
    : ReceiveHalf * list (Z * res CryptoError.t bytes) :=
  match arrivals with
  | [] => (r, [])
  | x :: rest =>
      let '(r, out) := ReceiveHalf_decrypt_into r (ar_sequence x) (ar_ciphertext x) (ar_capacity x) in
      let '(r, outs) := receive_all r rest in
      (r, (ar_sequence x, out) :: outs)
  end.

(** The sequence numbers whose plaintext was handed out. *)
Definition delivered (outs : list (Z * res CryptoError.t bytes)) : list Z :=
  omap (fun '(s, out) => match out with Ok _ => Some s | _ => None end) outs.

Lemma receive_all_delivers r a arrivals :
  represents (recv_window r) a -> Forall (fun x => 0 <= ar_sequence x) arrivals ->
  let outs := (receive_all r arrivals).2 in
  NoDup (delivered outs) /\
  (forall s, s ∈ delivered outs -> s ∉ ReplaySpec.accepted a) /\
  Forall (fun x => no_panic x.2) outs.
Proof.
  intros R Hs. revert r a R. induction Hs as [|x rest Hx Hrest IH]; intros r a R; simpl.
  { split; [constructor|]. split; [intros s Hin; by apply not_elem_of_nil in Hin|constructor]. }
  unfold ReceiveHalf_decrypt_into.
  pose proof (decrypt_into_spec (recv_transport r) (recv_window r) a (ar_sequence x)
    (ar_ciphertext x) (ar_capacity x) R Hx) as Hspec.
  destruct (decrypt_into _ _ _ _ _) as [w out]. cbn [fst snd].
  set (r' := mkReceiveHalf (recv_transport r) w (recv_peer_static_key r)).
  destruct (receive_all r' rest) as [r'' outs] eqn:Hr. cbn [snd].
  destruct out as [p|e|]; [| |done].
  - destruct Hspec as (_ & Hv & _ & R'). specialize (IH r' _ R'). rewrite Hr in IH. simpl in IH.
    destruct IH as (Hnd & Hfresh & Hnp).
    assert (Hnew : ar_sequence x ∉ ReplaySpec.accepted a).
    { unfold ReplaySpec.verdict in Hv. intros Hin.
      destruct (ReplaySpec.highest a) eqn:Hh; [repeat case_decide; done|].
      rewrite (rep_empty _ _ R Hh) in Hin. by apply not_elem_of_empty in Hin. }
    cbn [delivered omap list_omap]. fold (delivered outs). split; [|split].
    + constructor; [|done]. intros Hin. apply (Hfresh _ Hin). simpl. set_solver.
    + intros s [->|Hin]%elem_of_cons; [done|]. specialize (Hfresh _ Hin). simpl in Hfresh. set_solver.
    + by constructor.
  - destruct Hspec as (-> & _). specialize (IH r' a R). rewrite Hr in IH. simpl in IH.
    destruct IH as (Hnd & Hfresh & Hnp). cbn [delivered omap list_omap]. fold (delivered outs).
    split; [done|]. split; [done|]. by constructor.
Qed.

(** [C2] A session hands out the plaintext of each sequence number at most once,
    for every stream of datagrams an adversary may present (reordered, replayed,
    forged, oversized), and no datagram aborts the receiver. *)
Theorem session_delivers_each_sequence_once r arrivals :
  recv_window r = ReplayWindow.default -> Forall (fun x => u64 (ar_sequence x)) arrivals ->
  NoDup (delivered (receive_all r arrivals).2) /\
  Forall (fun x => no_panic x.2) (receive_all r arrivals).2.
Proof.
  intros Hw Hs. edestruct (receive_all_delivers r ReplaySpec.empty arrivals) as (? & _ & ?); [| |done].
  - rewrite Hw. apply represents_default.
  - revert Hs. apply Forall_impl. unfold uint; lia.
Qed.

(** [C3] One decryption, on every branch, against the set specification of the window:
    an oversized datagram is refused as too large, one whose number the window refuses
    with the error of the window, one that does not authenticate as a Noise error, each
    leaving the session as it was; an authentic datagram with an acceptable number is
    delivered and its number recorded. *)
Theorem decrypt_commits_only_authenticated r a sequence ciphertext capacity :
  represents (recv_window r) a -> u64 sequence ->
  let outcome := ReceiveHalf_decrypt_into r sequence ciphertext capacity in
  if MAX_NOISE_MESSAGE_LEN <? len ciphertext
  then outcome = (r, Err (CryptoError.MessageTooLarge (len ciphertext) MAX_NOISE_MESSAGE_LEN))
  else match ReplaySpec.verdict a sequence with
       | Ok _ =>
           match read_message (recv_transport r) sequence ciphertext capacity with
           | None => outcome = (r, Err CryptoError.Noise)
           | Some p => exists r', outcome = (r', Ok p) /\ represents (recv_window r') (ReplaySpec.add a sequence) /\
               recv_transport r' = recv_transport r /\ recv_peer_static_key r' = recv_peer_static_key r
           end
       | Err e => outcome = (r, Err (CryptoError.Replay e))
       | Panic => False
       end.
Proof.
  intros R [Hs _]. cbv zeta. unfold ReceiveHalf_decrypt_into, decrypt_into.
  assert (Hr : mkReceiveHalf (recv_transport r) (recv_window r) (recv_peer_static_key r) = r) by (by destruct r).
  destruct (MAX_NOISE_MESSAGE_LEN <? len ciphertext); [by rewrite Hr|].
  rewrite (ensure_refines (recv_window r) a) by done.
  destruct (ReplaySpec.verdict a sequence) as [[]|e|] eqn:Hv; cbn [map_err]; [|by rewrite Hr|].
  - destruct (read_message _ _ _ _) as [p|] eqn:Hm; [|by rewrite Hr].
    destruct (mark_refines (recv_window r) a sequence R Hs Hv) as (w' & -> & R'). eexists. by split_and!.
  - unfold ReplaySpec.verdict in Hv. by repeat case_match.
Qed.

End ReceiveTheorems.
