(* ===== verification/ToyCrypto.v ===== *)
(** * Concrete instances of the library interfaces

    Executable stand-ins for the cryptographic libraries: they have no security, but
    they satisfy every law of [PrimitiveLaws] and [NoiseLaws], so the theorems that
    assume those laws are not vacuous and can be evaluated on concrete inputs.  The
    witnesses of the theorems of Crypto.v are here.  The instances are visible only
    where the module [Toy] is imported, which files do behind their last theorem. *)

From S2P Require Import Prelude Replay Crypto.

Module Toy.

(** A 32-byte mixture of a key and an input. *)
Definition toy_mix (key input : bytes) : bytes :=
  map (fun i => (nth i key 0 + nth i input 0 + fold_right Z.add 0 input) mod 256) (seq 0 32).

Definition in_hkdf_range (n : Z) : bool := (0 <=? n) && (n <=? 255 * 32).

#[export] Instance toy_primitives : Primitives := {
  sha256 := toy_mix [];
  x25519 a b := map (fun i => (nth i a 0 + nth i b 0) mod 256) (seq 0 32);
  X25519_BASEPOINT_BYTES := 9 :: replicate 31 0;
  hkdf_sha256 salt ikm info n :=
    if in_hkdf_range n then Some (resize (toy_mix ikm (salt ++ info)) n) else None;
  hkdf_expand prk info n := if in_hkdf_range n then Some (resize (toy_mix prk info) n) else None;
  hmac_sha256 := toy_mix;
  chacha_seal key nonce aad p := Some (p, sub_list (toy_mix key (nonce ++ aad ++ p)) 0 16);
  chacha_open key nonce aad c tag :=
    if bool_decide (sub_list (toy_mix key (nonce ++ aad ++ c)) 0 16 = tag) then Some c else None;
  blake3_keyed_hash := toy_mix;
}.

Lemma toy_mix_len key input : len (toy_mix key input) = 32.
Proof. done. Qed.

Lemma toy_resize_len l n : 0 <= n -> len (resize l n) = n.
Proof. intros. unfold resize. len_lia. Qed.

#[export] Instance toy_primitive_laws : PrimitiveLaws.
Proof.
  split.
  - intros a b. cbn [x25519 toy_primitives]. apply map_ext_in. intros i Hi. apply in_seq in Hi.
    assert (Hnth : forall f, nth i (map f (seq 0 32)) 0 = f i).
    { intros f. rewrite (nth_indep _ 0 (f 0%nat)) by (rewrite length_map, length_seq; lia).
      rewrite map_nth, seq_nth by lia. done. }
    rewrite !Hnth, !Zplus_mod_idemp_r. f_equal. lia.
  - intros salt ikm info n Hn. eexists. cbn [hkdf_sha256 toy_primitives]. unfold in_hkdf_range.
    destruct (Z.leb_spec 0 n); [|lia]. destruct (Z.leb_spec n (255 * 32)); [|lia].
    split; [done|]. apply toy_resize_len. lia.
  - intros prk info n _ Hn. eexists. cbn [hkdf_expand toy_primitives]. unfold in_hkdf_range.
    destruct (Z.leb_spec 0 n); [|lia]. destruct (Z.leb_spec n (255 * 32)); [|lia].
    split; [done|]. apply toy_resize_len. lia.
  - done.
  - done.
  - intros key input. unfold is_bytes. apply Forall_forall. intros x Hx.
    apply in_map_iff in Hx as (i & <- & _). unfold uint. change (2 ^ 8) with 256. by apply Z.mod_pos_bound.
  - intros. eexists _, _. split; [done|]. split; [done|]. by rewrite len_sub_list; rewrite ?toy_mix_len.
  - intros key nonce aad p c tag [= <- <-]. cbn [chacha_open toy_primitives]. by rewrite bool_decide_true.
  - intros key nonce aad c tag p. cbn [chacha_open toy_primitives]. case_if; [by intros [= ->]|done].
  - intros key nonce aad c tag p Hc. cbn [chacha_open toy_primitives]. case_if; [by intros [= ->]|done].
Qed.

(** A transport is its key; the tag is sixteen bytes made of key and nonce. *)
Definition toy_tag (key nonce : Z) (p : bytes) : bytes :=
  be_bytes 8 nonce ++ be_bytes 8 (key + fold_right Z.add 0 p).

(** A handshake in the clear: the initiator sends its public key and the payload, the
    responder answers with its payload behind 48 octets in place of its ephemeral key and
    the tag. *)
Inductive toy_handshake :=
| ToyInitiator (secret server : bytes)
| ToyResponder (secret : bytes) (client : option bytes).

#[export] Instance toy_noise : Noise := {
  transport := Z;
  write_message key nonce p capacity :=
    if (len p + 16 <=? 65535) && (len p + 16 <=? capacity) then Some (p ++ toy_tag key nonce p) else None;
  read_message key nonce c capacity :=
    let n := (length c - 16)%nat in
    if (16 <=? len c) && (len c - 16 <=? capacity) && bool_decide (drop n c = toy_tag key nonce (take n c))
    then Some (take n c) else None;
  HandshakeState := toy_handshake;
  build_initiator secret server context := Some (ToyInitiator secret server);
  build_responder secret context := Some (ToyResponder secret None);
  hs_write_message state entropy payload capacity :=
    match state with
    | ToyInitiator secret server => Some (state, public_key secret ++ payload)
    | ToyResponder secret (Some client) => Some (state, replicate 48 0 ++ payload)
    | ToyResponder secret None => None
    end;
  hs_read_message state message capacity :=
    match state with
    | ToyInitiator secret server => if len message <? 48 then None else Some (state, drop 48 message)
    | ToyResponder secret _ =>
        if len message <? 32 then None
        else Some (ToyResponder secret (Some (take 32 message)), drop 32 message)
    end;
  get_remote_static state :=
    match state with ToyInitiator _ server => Some server | ToyResponder _ client => client end;
  into_stateless_transport_mode state := Some 7;
  generate_keypair entropy :=
    if 32 <=? len entropy then Some (take 32 entropy, public_key (take 32 entropy)) else None;
}.

Lemma toy_tag_len key nonce p : length (toy_tag key nonce p) = 16%nat.
Proof. done. Qed.

#[export] Instance toy_noise_laws : NoiseLaws.
Proof.
  split.
  - intros t n p cap c. cbn [write_message toy_noise]. case_if; [|done]. intros [= <-].
    rewrite len_app. unfold len at 2. by rewrite toy_tag_len.
  - intros t n p cap H1 H2. cbn [write_message toy_noise].
    destruct (Z.leb_spec (len p + 16) 65535); [|lia]. destruct (Z.leb_spec (len p + 16) cap); [|lia]. eauto.
  - intros t n c cap p. cbn [read_message toy_noise]. cbv zeta. case_if; [|done]. intros [= <-].
    boolify. unfold len in *. rewrite length_take. lia.
Qed.

Lemma toy_paired (key : Z) : paired (H := toy_noise) key key.
Proof.
  intros n p cap c cap'. cbn [write_message read_message toy_noise]. case_if; [|done]. intros [= <-] Hl.
  boolify. cbv zeta. rewrite length_app, toy_tag_len, Nat.add_sub, drop_app_length, take_app_length.
  rewrite bool_decide_true by done. unfold len in *. rewrite length_app, toy_tag_len.
  destruct (Z.leb_spec 16 (Z.of_nat (length p + 16))); [|lia].
  destruct (Z.leb_spec (Z.of_nat (length p + 16) - 16) cap'); [|lia]. done.
Qed.

(** Two datagrams of a session under the toy transport. *)
Definition toy_receiver : ReceiveHalf := mkReceiveHalf 7 ReplayWindow.default (zeros 32).
Definition toy_arrival (q : Z) : arrival := mkArrival q ([1; 2; 3] ++ toy_tag 7 q [1; 2; 3]) 19.

Lemma session_delivers_each_sequence_once_witness :
  delivered (receive_all toy_receiver [toy_arrival 5; toy_arrival 3; toy_arrival 5]).2 = [5; 3] /\
  NoDup (delivered (receive_all toy_receiver [toy_arrival 5; toy_arrival 3; toy_arrival 5]).2).
Proof.
  split; [vm_compute; reflexivity|].
  apply (session_delivers_each_sequence_once toy_receiver); [reflexivity|].
  repeat constructor; unfold uint; simpl; lia.
Defined.

Lemma decrypt_commits_only_authenticated_witness :
  (exists r' p, ReceiveHalf_decrypt_into toy_receiver 5 (ar_ciphertext (toy_arrival 5)) 19 = (r', Ok p) /\
    read_message (recv_transport toy_receiver) 5 (ar_ciphertext (toy_arrival 5)) 19 = Some p) /\
  ReceiveHalf_decrypt_into toy_receiver 5 [1; 2; 3] 19 = (toy_receiver, Err CryptoError.Noise).
Proof.
  split.
  - pose proof (decrypt_commits_only_authenticated toy_receiver ReplaySpec.empty 5
      (ar_ciphertext (toy_arrival 5)) 19 represents_default ltac:(unfold uint; lia)) as H.
    destruct (read_message (recv_transport toy_receiver) 5 (ar_ciphertext (toy_arrival 5)) 19) as [p|] eqn:Hp.
    + destruct H as (r' & H & _). exists r', p. split; [exact H|reflexivity].
    + exfalso. vm_compute in Hp. discriminate Hp.
  - exact (decrypt_commits_only_authenticated toy_receiver ReplaySpec.empty 5 [1; 2; 3] 19 represents_default ltac:(unfold uint; lia)).
Defined.

Lemma wire_keys_agree_witness :
  derive_wire_key (1 :: replicate 31 2) (public_key (replicate 32 5)) (public_key (replicate 32 5))
    (public_key (1 :: replicate 31 2)) MORPH_KEY_LABEL =
  derive_wire_key (replicate 32 5) (public_key (1 :: replicate 31 2)) (public_key (replicate 32 5))
    (public_key (1 :: replicate 31 2)) MORPH_KEY_LABEL.
Proof. apply (wire_keys_agree (1 :: replicate 31 2) (replicate 32 5) MORPH_KEY_LABEL). Defined.

End Toy.
