(* ===== verification/DataPlane.v ===== *)
(** * The encrypted IP data plane of crates/data-plane

    [Ipv4Packet.parse] (ipv4.rs), the allocating [TunnelDataPlane], and the
    zero-allocation halves [TunnelSender] and [TunnelReceiver] that the daemon and
    the clients drive from separate threads (tunnel.rs).  A receiver or a sender is
    passed in and returned with the result, so that what an operation commits on
    its error paths is visible.  Output buffers owned by the caller are returned on
    success; their capacity matters to the crypto calls and is passed on, their
    contents after an error are not read by any caller and are left out. *)

From S2P Require Import Prelude Protocol Replay Crypto ToyCrypto.

Module Ipv4PacketError.

Inductive t :=
| Truncated
| UnsupportedVersion (version : Z)
| InvalidHeaderLength
| InvalidTotalLength.

#[global] Instance eq_dec : EqDecision t.
Proof. solve_decision. Defined.

End Ipv4PacketError.

Module DataPlaneError.

Inductive t :=
| Crypto (e : CryptoError.t)
| Outer (e : DecodeError.t)
| Inner (e : InnerDecodeError.t)
| Ip (e : Ipv4PacketError.t)
| UnexpectedPacketKind (k : PacketKind.t)
| UnexpectedInnerPacketKind (k : InnerPacketKind.t)
| SessionMismatch
| PacketExceedsMtu (actual mtu : Z)
| SequenceExhausted.

#[global] Instance eq_dec : EqDecision t.
Proof. solve_decision. Defined.

End DataPlaneError.

Definition MINIMUM_HEADER_LEN : Z := 20.
Definition TUNNEL_OVERHEAD : Z := Header.HEADER_LEN + 1 + AUTH_TAG_LEN.

Module Ipv4Packet.

Record t := mk {
  as_bytes : bytes;
  source : Ipv4Addr;
  destination : Ipv4Addr;
}.

#[global] Instance eq_dec : EqDecision t.
Proof. solve_decision. Defined.

Definition parse (input : bytes) : res Ipv4PacketError.t t :=
  if len input <? MINIMUM_HEADER_LEN then Err Ipv4PacketError.Truncated
  else
    b0 ← index input 0;
    let version := Z.shiftr b0 4 in
    if negb (version =? 4) then Err (Ipv4PacketError.UnsupportedVersion version)
    else
      let header_len := Z.land b0 0x0f * 4 in
      if (header_len <? MINIMUM_HEADER_LEN) || (len input <? header_len)
      then Err Ipv4PacketError.InvalidHeaderLength
      else
        b2 ← index input 2;
        b3 ← index input 3;
        let total_len := be_value [b2; b3] in
        if (total_len <? header_len) || (len input <? total_len)
        then Err Ipv4PacketError.InvalidTotalLength
        else
          b ← slice input 0 total_len;
          s0 ← index input 12; s1 ← index input 13; s2 ← index input 14; s3 ← index input 15;
          d0 ← index input 16; d1 ← index input 17; d2 ← index input 18; d3 ← index input 19;
          Ok (mk b (ipv4_new s0 s1 s2 s3) (ipv4_new d0 d1 d2 d3)).

End Ipv4Packet.

(** [DecodedPacket] and the borrowed [Decoded]. *)
Inductive Decoded :=
| Ip (packet : bytes)
| Keepalive.

#[global] Instance Decoded_eq_dec : EqDecision Decoded.
Proof. solve_decision. Defined.

Definition looks_like_protocol_datagram (input : bytes) : bool :=
  (Header.HEADER_LEN <=? len input) && (nth 0 input 0 =? VERSION).

Section Tunnel.
Context `{N : Noise}.

Record TunnelDataPlane := mkTunnelDataPlane {
  tp_session_id : Z;
  tp_next_sequence : Z;
  tp_mtu : Z;
  tp_crypto : SecureSession;
}.

Record TunnelSender := mkTunnelSender {
  ts_session_id : Z;
  ts_next_sequence : Z;
  ts_mtu : Z;
  ts_crypto : SendHalf;
  ts_plaintext : bytes;
}.

Record TunnelReceiver := mkTunnelReceiver {
  tr_session_id : Z;
  tr_mtu : Z;
  tr_crypto : ReceiveHalf;
}.

Definition TunnelDataPlane_new (session_id mtu : Z) (crypto : SecureSession) : TunnelDataPlane :=
  mkTunnelDataPlane session_id 0 mtu crypto.

Definition TunnelDataPlane_split (p : TunnelDataPlane) : TunnelSender * TunnelReceiver :=
  let '(send, receive) := SecureSession_split (tp_crypto p) in
  (mkTunnelSender (tp_session_id p) (tp_next_sequence p) (tp_mtu p) send [],
   mkTunnelReceiver (tp_session_id p) (tp_mtu p) receive).

(** The private [TunnelDataPlane::encode]. *)
Definition TunnelDataPlane_encode (p : TunnelDataPlane) (kind : PacketKind.t) (inner : bytes)
    : TunnelDataPlane * res DataPlaneError.t bytes :=
  let sequence := tp_next_sequence p in
  match checked_add64 sequence 1 with
  | None => (p, Err DataPlaneError.SequenceExhausted)
  | Some next =>
      match SecureSession_encrypt (tp_crypto p) sequence inner with
      | Err e => (p, Err (DataPlaneError.Crypto e))
      | Panic => (p, Panic)
      | Ok ciphertext =>
          let header := Header.mk kind 0 (tp_session_id p) sequence in
          (mkTunnelDataPlane (tp_session_id p) next (tp_mtu p) (tp_crypto p),
           Ok (Datagram.encode (Datagram.mk header ciphertext)))
      end
  end.

Definition TunnelDataPlane_encode_ip (p : TunnelDataPlane) (ip_packet : bytes)
    : TunnelDataPlane * res DataPlaneError.t bytes :=
  match Ipv4Packet.parse ip_packet with
  | Err e => (p, Err (DataPlaneError.Ip e))
  | Panic => (p, Panic)
  | Ok ip =>
      let packet := Ipv4Packet.as_bytes ip in
      if tp_mtu p <? len packet
      then (p, Err (DataPlaneError.PacketExceedsMtu (len packet) (tp_mtu p)))
      else
        let inner := InnerPacket.encode (InnerPacket.mk InnerPacketKind.Data packet) in
        TunnelDataPlane_encode p PacketKind.Data inner
  end.

Definition TunnelDataPlane_encode_keepalive (p : TunnelDataPlane)
    : TunnelDataPlane * res DataPlaneError.t bytes :=
  let inner := InnerPacket.encode (InnerPacket.mk InnerPacketKind.Keepalive []) in
  TunnelDataPlane_encode p PacketKind.Keepalive inner.

(** [matches!(kind, Data | Keepalive)] *)
Definition is_tunnel_kind (kind : PacketKind.t) : bool :=
  match kind with PacketKind.Data | PacketKind.Keepalive => true | _ => false end.

Definition TunnelDataPlane_decode (p : TunnelDataPlane) (input : bytes)
    : TunnelDataPlane * res DataPlaneError.t Decoded :=
  match Datagram.decode input with
  | Err e => (p, Err (DataPlaneError.Outer e))
  | Panic => (p, Panic)
  | Ok datagram =>
      let header := Datagram.header datagram in
      if negb (Header.session_id header =? tp_session_id p)
      then (p, Err DataPlaneError.SessionMismatch)
      else if negb (is_tunnel_kind (Header.kind header))
      then (p, Err (DataPlaneError.UnexpectedPacketKind (Header.kind header)))
      else
        let '(crypto, out) :=
          SecureSession_decrypt (tp_crypto p) (Header.sequence header) (Datagram.payload datagram) in
        let p := mkTunnelDataPlane (tp_session_id p) (tp_next_sequence p) (tp_mtu p) crypto in
        (p,
         plaintext ← map_err DataPlaneError.Crypto out;
         inner ← map_err DataPlaneError.Inner (InnerPacket.decode plaintext);
         match Header.kind header, InnerPacket.kind inner with
         | PacketKind.Data, InnerPacketKind.Data =>
             ip ← map_err DataPlaneError.Ip (Ipv4Packet.parse (InnerPacket.payload inner));
             if tp_mtu p <? len (Ipv4Packet.as_bytes ip)
             then Err (DataPlaneError.PacketExceedsMtu (len (Ipv4Packet.as_bytes ip)) (tp_mtu p))
             else Ok (Ip (Ipv4Packet.as_bytes ip))
         | PacketKind.Keepalive, InnerPacketKind.Keepalive =>
             if len (InnerPacket.payload inner) =? 0 then Ok Keepalive
             else Err (DataPlaneError.UnexpectedInnerPacketKind InnerPacketKind.Keepalive)
         | _, kind => Err (DataPlaneError.UnexpectedInnerPacketKind kind)
         end)
  end.

Definition TunnelDataPlane_decode_ip (p : TunnelDataPlane) (input : bytes)
    : TunnelDataPlane * res DataPlaneError.t bytes :=
  let '(p, out) := TunnelDataPlane_decode p input in
  (p, d ← out;
      match d with
      | Ip packet => Ok packet
      | Keepalive => Err (DataPlaneError.UnexpectedPacketKind PacketKind.Keepalive)
      end).

(** [TunnelSender::encode_into]: the output is resized for header, plaintext and
    tag, encrypted into behind the header, truncated, and the header written. *)
Definition TunnelSender_encode_into (s : TunnelSender) (kind : PacketKind.t)
    (inner_kind : InnerPacketKind.t) (payload output : bytes)
    : TunnelSender * res DataPlaneError.t bytes :=
  let sequence := ts_next_sequence s in
  match checked_add64 sequence 1 with
  | None => (s, Err DataPlaneError.SequenceExhausted)
  | Some next =>
      let plaintext := InnerPacketKind.to_u8 inner_kind :: payload in
      let s := mkTunnelSender (ts_session_id s) sequence (ts_mtu s) (ts_crypto s) plaintext in
      let output := resize output (Header.HEADER_LEN + len plaintext + AUTH_TAG_LEN) in
      match SendHalf_encrypt_into (ts_crypto s) sequence plaintext (len output - Header.HEADER_LEN) with
      | Err e => (s, Err (DataPlaneError.Crypto e))
      | Panic => (s, Panic)
      | Ok ciphertext =>
          let output := copy_at output Header.HEADER_LEN ciphertext in
          let output := take (Z.to_nat (Header.HEADER_LEN + len ciphertext)) output in
          let header := Header.mk kind 0 (ts_session_id s) sequence in
          let output := copy_at output 0 (Header.encode header) in
          (mkTunnelSender (ts_session_id s) next (ts_mtu s) (ts_crypto s) plaintext, Ok output)
      end
  end.

Definition TunnelSender_encode_ip_into (s : TunnelSender) (ip_packet output : bytes)
    : TunnelSender * res DataPlaneError.t bytes :=
  match Ipv4Packet.parse ip_packet with
  | Err e => (s, Err (DataPlaneError.Ip e))
  | Panic => (s, Panic)
  | Ok ip =>
      let packet := Ipv4Packet.as_bytes ip in
      if ts_mtu s <? len packet
      then (s, Err (DataPlaneError.PacketExceedsMtu (len packet) (ts_mtu s)))
      else TunnelSender_encode_into s PacketKind.Data InnerPacketKind.Data packet output
  end.

Definition TunnelSender_encode_keepalive_into (s : TunnelSender) (output : bytes)
    : TunnelSender * res DataPlaneError.t bytes :=
  TunnelSender_encode_into s PacketKind.Keepalive InnerPacketKind.Keepalive [] output.

(** [TunnelReceiver::decode_into]: the buffer is resized to the payload, so that
    length is the capacity of the decryption. *)
Definition TunnelReceiver_decode_into (r : TunnelReceiver) (datagram : Datagram.t)
    : TunnelReceiver * res DataPlaneError.t Decoded :=
  let header := Datagram.header datagram in
  if negb (Header.session_id header =? tr_session_id r)
  then (r, Err DataPlaneError.SessionMismatch)
  else if negb (is_tunnel_kind (Header.kind header))
  then (r, Err (DataPlaneError.UnexpectedPacketKind (Header.kind header)))
  else
    let '(crypto, out) :=
      ReceiveHalf_decrypt_into (tr_crypto r) (Header.sequence header)
        (Datagram.payload datagram) (len (Datagram.payload datagram)) in
    let r := mkTunnelReceiver (tr_session_id r) (tr_mtu r) crypto in
    (r,
     output ← map_err DataPlaneError.Crypto out;
     inner ← map_err DataPlaneError.Inner (InnerPacket.decode output);
     match Header.kind header, InnerPacket.kind inner with
     | PacketKind.Data, InnerPacketKind.Data =>
         ip ← map_err DataPlaneError.Ip (Ipv4Packet.parse (InnerPacket.payload inner));
         let ip_len := len (Ipv4Packet.as_bytes ip) in
         if tr_mtu r <? ip_len
         then Err (DataPlaneError.PacketExceedsMtu ip_len (tr_mtu r))
         else packet ← slice output 1 (ip_len + 1); Ok (Ip packet)
     | PacketKind.Keepalive, InnerPacketKind.Keepalive =>
         if len (InnerPacket.payload inner) =? 0 then Ok Keepalive
         else Err (DataPlaneError.UnexpectedInnerPacketKind InnerPacketKind.Keepalive)
     | _, kind => Err (DataPlaneError.UnexpectedInnerPacketKind kind)
     end).

End Tunnel.

(** ** IPv4 parsing *)

(** The structural conditions of RFC 791 that the tunnel checks, on the fields read
    directly from the input. *)
Definition ipv4_header_len (input : bytes) : Z := nth 0 input 0 mod 16 * 4.
Definition ipv4_total_len (input : bytes) : Z := be_value (sub_list input 2 4).
Definition ipv4_valid (input : bytes) : Prop :=
  20 <= len input /\ nth 0 input 0 / 16 = 4 /\
  20 <= ipv4_header_len input <= ipv4_total_len input /\ ipv4_total_len input <= len input.

#[global] Instance ipv4_valid_dec input : Decision (ipv4_valid input).
Proof. unfold ipv4_valid. apply _. Defined.

(** What is read from a valid packet. *)
Definition ipv4_view (input : bytes) : Ipv4Packet.t :=
  Ipv4Packet.mk (take (Z.to_nat (ipv4_total_len input)) input)
    (be_value (sub_list input 12 16)) (be_value (sub_list input 16 20)).

Lemma parse_long (i : bytes) :
  20 <= len i ->
  Ipv4Packet.parse i =
  (if negb (nth 0 i 0 / 16 =? 4) then Err (Ipv4PacketError.UnsupportedVersion (nth 0 i 0 / 16))
   else if (ipv4_header_len i <? 20) || (len i <? ipv4_header_len i)
   then Err Ipv4PacketError.InvalidHeaderLength
   else if (ipv4_total_len i <? ipv4_header_len i) || (len i <? ipv4_total_len i)
   then Err Ipv4PacketError.InvalidTotalLength
   else Ok (ipv4_view i)).
Proof.
  intros Hlen.
  assert (Hcells : sub_list i 2 4 = [nth 2 i 0; nth 3 i 0] /\
    sub_list i 12 16 = [nth 12 i 0; nth 13 i 0; nth 14 i 0; nth 15 i 0] /\
    sub_list i 16 20 = [nth 16 i 0; nth 17 i 0; nth 18 i 0; nth 19 i 0]).
  { do 20 (destruct i as [|? i]; [exfalso; rewrite ?len_cons, ?len_nil in Hlen; lia|]). done. }
  destruct Hcells as (H2 & H12 & H16).
  unfold Ipv4Packet.parse, MINIMUM_HEADER_LEN. destruct (Z.ltb_spec (len i) 20); [lia|].
  rewrite !index_ok by lia. res_simpl.
  rewrite Z.shiftr_div_pow2 by lia. change (2 ^ 4) with 16.
  change 0x0f with (Z.ones 4). rewrite Z.land_ones by lia. change (2 ^ 4) with 16.
  unfold ipv4_view, ipv4_header_len, ipv4_total_len, ipv4_new. rewrite H2, H12, H16.
  change (Z.to_nat 0) with 0%nat. change (Z.to_nat 2) with 2%nat. change (Z.to_nat 3) with 3%nat.
  do 3 (case_if; [done|]). boolify.
  pose proof (Z.mod_pos_bound (nth 0 i 0) 16).
  rewrite slice_ok by lia. unfold sub_list. by rewrite drop_0, Z.sub_0_r.
Qed.

Lemma parse_short i : len i < 20 -> Ipv4Packet.parse i = Err Ipv4PacketError.Truncated.
Proof.
  intros. unfold Ipv4Packet.parse, MINIMUM_HEADER_LEN.
  by destruct (Z.ltb_spec (len i) 20); [|lia].
Qed.

Lemma parse_no_panic i : no_panic (Ipv4Packet.parse i).
Proof.
  destruct (Z.lt_ge_cases (len i) 20); [by rewrite parse_short|].
  rewrite parse_long by done. by repeat case_if.
Qed.

Lemma parse_ok i ip : Ipv4Packet.parse i = Ok ip <-> ipv4_valid i /\ ip = ipv4_view i.
Proof.
  unfold ipv4_valid. destruct (Z.lt_ge_cases (len i) 20).
  { rewrite parse_short by done. split; [done|lia]. }
  rewrite parse_long by done. split.
  - repeat case_if; try done. intros [= <-]. boolify. repeat split; lia.
  - intros [(_ & Hv & Hh & Ht) ->].
    rewrite Hv. simpl negb. cbv iota.
    repeat match goal with |- context [?a <? ?b] => destruct (Z.ltb_spec a b); [lia|] end. done.
Qed.

(** The bytes of a parsed packet parse to the same packet: nothing outside
    [total_len] was used. *)
Lemma parse_as_bytes i ip :
  Ipv4Packet.parse i = Ok ip -> Ipv4Packet.parse (Ipv4Packet.as_bytes ip) = Ok ip.
Proof.
  rewrite !parse_ok. intros [(Hl & Hv & Hh & Ht) ->]. cbn [ipv4_view Ipv4Packet.as_bytes].
  set (n := Z.to_nat (ipv4_total_len i)). assert (Hn : (20 <= n)%nat) by lia.
  assert (Hl' : len (take n i) = ipv4_total_len i) by (rewrite len_take; lia).
  assert (Hsub : forall a b, 0 <= a <= b -> b <= 20 -> sub_list (take n i) a b = sub_list i a b).
  { intros a b ? ?. unfold sub_list. rewrite skipn_firstn_comm, take_take. f_equal. lia. }
  assert (H0 : nth 0 (take n i) 0 = nth 0 i 0) by (destruct n, i; simpl; done || lia).
  unfold ipv4_valid, ipv4_view, ipv4_header_len, ipv4_total_len.
  rewrite !Hsub, H0, Hl' by lia. fold (ipv4_header_len i) (ipv4_total_len i).
  split; [by repeat split; lia|]. f_equal. subst n. by rewrite take_take, Nat.min_id.
Qed.

Lemma parse_len i ip :
  Ipv4Packet.parse i = Ok ip ->
  20 <= len (Ipv4Packet.as_bytes ip) <= len i /\
  exists rest, i = Ipv4Packet.as_bytes ip ++ rest.
Proof.
  rewrite parse_ok. intros [(Hl & Hv & Hh & Ht) ->]. simpl. rewrite len_take.
  split; [lia|]. eexists. symmetry. apply take_drop.
Qed.

(** [Ipv4Packet::parse] decides exactly the structural validity of an IPv4
    packet, never aborts, and returns the bytes up to the total-length field with
    the addresses at offsets 12 and 16; the returned bytes are themselves a packet
    that parses to the same value. *)
Theorem ipv4_parse_decides input ip :
  no_panic (Ipv4Packet.parse input) /\
  (Ipv4Packet.parse input = Ok ip <-> ipv4_valid input /\ ip = ipv4_view input) /\
  (ipv4_valid input ->
   Ipv4Packet.parse (Ipv4Packet.as_bytes (ipv4_view input)) = Ok (ipv4_view input)).
Proof.
  split; [apply parse_no_panic|]. split; [apply parse_ok|].
  intros Hv. apply parse_as_bytes with input. by apply parse_ok.
Qed.

(** ** Sending and receiving *)

Lemma len_resize l n : 0 <= n -> len (resize l n) = n.
Proof. intros. unfold resize. len_lia. Qed.

(** Writing the header in front of a ciphertext already behind it. *)
Lemma header_over_ciphertext h output ciphertext :
  len ciphertext <= len output - Header.HEADER_LEN ->
  copy_at (take (Z.to_nat (Header.HEADER_LEN + len ciphertext))
             (copy_at output Header.HEADER_LEN ciphertext)) 0 (Header.encode h) =
  Datagram.encode (Datagram.mk h ciphertext).
Proof.
  intros Hl. pose proof (header_encode_len h) as Hh. unfold Header.HEADER_LEN, len in *.
  unfold copy_at, Datagram.encode. cbn [Datagram.header Datagram.payload].
  generalize dependent (Header.encode h). intros e He.
  rewrite (app_assoc (take (Z.to_nat 20) output)), (take_app_le (_ ++ ciphertext))
    by (rewrite length_app, length_take; lia).
  rewrite (take_ge (take _ _ ++ ciphertext)) by (rewrite length_app, length_take; lia).
  change (Z.to_nat 0) with 0%nat. rewrite take_0, Nat.add_0_l.
  rewrite drop_app_ge by (rewrite length_take; lia). simpl. f_equal.
  rewrite length_take. replace (length e - _)%nat with 0%nat by lia. done.
Qed.

Section TunnelLemmas.
Context `{N : Noise, NL : !NoiseLaws}.

(** The datagram that leaves with sequence number [q]. *)
Definition framed (session_id : Z) (kind : PacketKind.t) (q : Z) (ciphertext : bytes) : bytes :=
  Datagram.encode (Datagram.mk (Header.mk kind 0 session_id q) ciphertext).

Lemma encrypt_into_len t q p cap c : encrypt_into t q p cap = Ok c -> len c = len p + 16.
Proof.
  unfold encrypt_into, noise_err, ok_or. case_if; [done|].
  destruct (write_message t q p cap) eqn:Hw; [|done].
  intros [= <-]. by eapply write_message_len.
Qed.

Lemma encrypt_into_no_panic t q p cap : no_panic (encrypt_into t q p cap).
Proof. unfold encrypt_into, noise_err, ok_or. by repeat case_match. Qed.

Lemma sender_encode_eq s kind inner_kind payload output :
  let plaintext := InnerPacket.encode (InnerPacket.mk inner_kind payload) in
  TunnelSender_encode_into s kind inner_kind payload output =
  match checked_add64 (ts_next_sequence s) 1 with
  | None => (s, Err DataPlaneError.SequenceExhausted)
  | Some next =>
      match encrypt_into (send_transport (ts_crypto s)) (ts_next_sequence s) plaintext
              (len plaintext + AUTH_TAG_LEN) with
      | Err e => (mkTunnelSender (ts_session_id s) (ts_next_sequence s) (ts_mtu s) (ts_crypto s) plaintext,
                  Err (DataPlaneError.Crypto e))
      | Panic => (mkTunnelSender (ts_session_id s) (ts_next_sequence s) (ts_mtu s) (ts_crypto s) plaintext,
                  Panic)
      | Ok c => (mkTunnelSender (ts_session_id s) next (ts_mtu s) (ts_crypto s) plaintext,
                 Ok (framed (ts_session_id s) kind (ts_next_sequence s) c))
      end
  end.
Proof.
  intros plaintext. unfold TunnelSender_encode_into. destruct (checked_add64 _ _) as [next|]; [|done].
  unfold SendHalf_encrypt_into. fold plaintext.
  change (InnerPacketKind.to_u8 inner_kind :: payload) with plaintext. cbn [ts_crypto ts_session_id ts_mtu].
  pose proof (len_nonneg plaintext). unfold AUTH_TAG_LEN in *.
  rewrite len_resize by (unfold Header.HEADER_LEN; lia).
  replace (Header.HEADER_LEN + len plaintext + 16 - Header.HEADER_LEN) with (len plaintext + 16) by lia.
  destruct (encrypt_into _ _ _ _) as [c|e|] eqn:He; [|done..].
  rewrite header_over_ciphertext; [done|]. apply encrypt_into_len in He.
  rewrite len_resize; unfold Header.HEADER_LEN; lia.
Qed.

(** ** The split halves refine the undivided plane *)

(** One call on a plane, or on its halves. *)
Inductive tunnel_call :=
| EncodeIp (packet : bytes)
| EncodeKeepalive
| Decode (input : bytes).

Definition plane_call (p : TunnelDataPlane) (c : tunnel_call)
    : TunnelDataPlane * res DataPlaneError.t (bytes + Decoded) :=
  match c with
  | EncodeIp packet => let '(p, out) := TunnelDataPlane_encode_ip p packet in (p, inl <$> out)
  | EncodeKeepalive => let '(p, out) := TunnelDataPlane_encode_keepalive p in (p, inl <$> out)
  | Decode input => let '(p, out) := TunnelDataPlane_decode p input in (p, inr <$> out)
  end.

(** The receive threads decode the outer datagram first and pass it on; every call
    reuses the buffer [output], whatever it holds. *)
Definition halves_call (output : bytes) (h : TunnelSender * TunnelReceiver) (c : tunnel_call)
    : (TunnelSender * TunnelReceiver) * res DataPlaneError.t (bytes + Decoded) :=
  let '(s, r) := h in
  match c with
  | EncodeIp packet => let '(s, out) := TunnelSender_encode_ip_into s packet output in (s, r, inl <$> out)
  | EncodeKeepalive => let '(s, out) := TunnelSender_encode_keepalive_into s output in (s, r, inl <$> out)
  | Decode input =>
      match Datagram.decode input with
      | Ok d => let '(r, out) := TunnelReceiver_decode_into r d in (s, r, inr <$> out)
      | Err e => (s, r, Err (DataPlaneError.Outer e))
      | Panic => (s, r, Panic)
      end
  end.

Fixpoint plane_run (p : TunnelDataPlane) (cs : list (tunnel_call * bytes)) :=
  match cs with
  | [] => []
  | (c, _) :: cs => let '(p, out) := plane_call p c in out :: plane_run p cs
  end.

Fixpoint halves_run (h : TunnelSender * TunnelReceiver) (cs : list (tunnel_call * bytes)) :=
  match cs with
  | [] => []
  | (c, buffer) :: cs => let '(h, out) := halves_call buffer h c in out :: halves_run h cs
  end.

(** The halves hold the plane's state; the sender's scratch buffer is free. *)
Definition split_of (p : TunnelDataPlane) (h : TunnelSender * TunnelReceiver) : Prop :=
  exists scratch,
    h = (mkTunnelSender (tp_session_id p) (tp_next_sequence p) (tp_mtu p)
           (SecureSession_split (tp_crypto p)).1 scratch,
         mkTunnelReceiver (tp_session_id p) (tp_mtu p) (SecureSession_split (tp_crypto p)).2).

Lemma encode_simulates p s scratch kind ik payload output :
  s = mkTunnelSender (tp_session_id p) (tp_next_sequence p) (tp_mtu p)
        (SecureSession_split (tp_crypto p)).1 scratch ->
  let '(p', out) := TunnelDataPlane_encode p kind (InnerPacket.encode (InnerPacket.mk ik payload)) in
  exists scratch',
    TunnelSender_encode_into s kind ik payload output =
    (mkTunnelSender (tp_session_id p') (tp_next_sequence p') (tp_mtu p')
       (SecureSession_split (tp_crypto p')).1 scratch', out) /\
    tp_session_id p' = tp_session_id p /\ tp_mtu p' = tp_mtu p /\ tp_crypto p' = tp_crypto p.
Proof.
  intros ->. rewrite sender_encode_eq. unfold TunnelDataPlane_encode, SecureSession_encrypt.
  cbn [ts_next_sequence ts_crypto ts_session_id ts_mtu SecureSession_split fst send_transport].
  destruct (checked_add64 _ _); [|by eauto].
  destruct (encrypt_into _ _ _ _); by eauto.
Qed.

Lemma decode_simulates p d :
  let r := mkTunnelReceiver (tp_session_id p) (tp_mtu p) (SecureSession_split (tp_crypto p)).2 in
  forall input, Datagram.decode input = Ok d ->
  let '(p', out) := TunnelDataPlane_decode p input in
  TunnelReceiver_decode_into r d =
  (mkTunnelReceiver (tp_session_id p') (tp_mtu p') (SecureSession_split (tp_crypto p')).2, out) /\
  tp_session_id p' = tp_session_id p /\ tp_mtu p' = tp_mtu p /\
  tp_next_sequence p' = tp_next_sequence p /\
  (SecureSession_split (tp_crypto p')).1 = (SecureSession_split (tp_crypto p)).1.
Proof.
  intros r input Hd. subst r. unfold TunnelDataPlane_decode. rewrite Hd.
  unfold TunnelReceiver_decode_into. cbn [tr_session_id tr_mtu tr_crypto].
  case_if; [done|]. case_if; [done|].
  unfold SecureSession_decrypt, ReceiveHalf_decrypt_into, SecureSession_split.
  cbn [snd recv_transport recv_window recv_peer_static_key].
  destruct (decrypt_into _ _ _ _ _) as [w out]. cbn. split; [|done]. f_equal.
  destruct out as [output|e|]; res_simpl; cbn [map_err]; [|done..].
  destruct (InnerPacket.decode output) as [inner|e|] eqn:Hi; simpl; [|done..].
  destruct (Header.kind _), (InnerPacket.kind inner); try done.
  destruct (Ipv4Packet.parse _) as [ip|e|] eqn:Hp; simpl; [|done..]. case_if; [done|].
  apply inner_decode_canonical in Hi. apply parse_len in Hp as [Hl [rest Hrest]].
  subst output. unfold InnerPacket.encode in *. rewrite Hrest in *.
  rewrite slice_ok by len_lia. simpl app. by rewrite sub_list_cons_app.
Qed.

Lemma call_simulates p h c buffer :
  split_of p h ->
  split_of (plane_call p c).1 (halves_call buffer h c).1 /\
  (plane_call p c).2 = (halves_call buffer h c).2.
Proof.
  intros [scratch ->]. destruct c as [packet| |input]; cbn [plane_call halves_call].
  - unfold TunnelDataPlane_encode_ip, TunnelSender_encode_ip_into. cbn [ts_mtu].
    destruct (Ipv4Packet.parse packet) as [ip|e|]; cbv zeta iota; [|by repeat eexists..].
    case_if; [by repeat eexists|].
    epose proof (encode_simulates p _ scratch PacketKind.Data InnerPacketKind.Data
      (Ipv4Packet.as_bytes ip) buffer eq_refl) as H.
    destruct (TunnelDataPlane_encode _ _ _) as [p' out]. destruct H as (scratch' & -> & Hs & Hm & Hc).
    simpl. split; [|done]. exists scratch'. by rewrite <- Hs, <- Hm, <- Hc.
  - epose proof (encode_simulates p _ scratch PacketKind.Keepalive InnerPacketKind.Keepalive
      [] buffer eq_refl) as H.
    unfold TunnelDataPlane_encode_keepalive, TunnelSender_encode_keepalive_into.
    destruct (TunnelDataPlane_encode _ _ _) as [p' out]. destruct H as (scratch' & -> & Hs & Hm & Hc).
    simpl. split; [|done]. exists scratch'. by rewrite <- Hs, <- Hm, <- Hc.
  - destruct (Datagram.decode input) as [d|e|] eqn:Hd.
    + pose proof (decode_simulates p d input Hd) as H.
      destruct (TunnelDataPlane_decode p input) as [p' out]. destruct H as (H & Hs & Hm & Hn & Hsend).
      cbv zeta in H. rewrite H. cbn [fst snd]. split; [|done]. exists scratch.
      by rewrite <- Hs, <- Hm, <- Hn, <- Hsend.
    + unfold TunnelDataPlane_decode. rewrite Hd. by repeat eexists.
    + unfold TunnelDataPlane_decode. rewrite Hd. by repeat eexists.
Qed.

(** The zero-allocation halves are a refinement of the undivided plane: for
    every sequence of sends, keepalives and receptions, and whatever the reused
    buffers hold, the halves of [TunnelDataPlane::split] return the same datagrams,
    packets and errors as the plane itself. *)
Theorem split_halves_refine_plane p calls :
  halves_run (TunnelDataPlane_split p) calls = plane_run p calls.
Proof.
  assert (Hs : split_of p (TunnelDataPlane_split p)) by (exists []; done).
  revert Hs. generalize (TunnelDataPlane_split p). revert p.
  induction calls as [|[c buffer] calls IH]; intros p h Hs; [done|]. simpl.
  destruct (call_simulates p h c buffer Hs) as [Hs' Hout].
  destruct (plane_call p c) as [p' out], (halves_call buffer h c) as [h' out']; simpl in *.
  by rewrite Hout, (IH p').
Qed.

(** ** Sequence numbers of a sender *)

Inductive send_call := SendIp (packet : bytes) | SendKeepalive.

Definition sender_call (s : TunnelSender) (c : send_call) : TunnelSender * res DataPlaneError.t bytes :=
  match c with
  | SendIp packet => TunnelSender_encode_ip_into s packet []
  | SendKeepalive => TunnelSender_encode_keepalive_into s []
  end.

(** The datagrams a sender emits, its failed calls omitted. *)
Fixpoint sender_run (s : TunnelSender) (cs : list send_call) : list bytes :=
  match cs with
  | [] => []
  | c :: cs =>
      match sender_call s c with
      | (s, Ok d) => d :: sender_run s cs
      | (s, _) => sender_run s cs
      end
  end.

Definition sequence_of (d : bytes) : option Z :=
  match Datagram.decode d with Ok d => Some (Header.sequence (Datagram.header d)) | _ => None end.

Lemma sequence_of_framed sid k q c : u64 sid -> u64 q -> sequence_of (framed sid k q c) = Some q.
Proof.
  intros. unfold sequence_of, framed. rewrite datagram_decode_encode; [done|].
  repeat split; simpl; unfold uint in *; lia.
Qed.

(** What one call may do to the counter, and what it emits. *)
Definition sender_step (s : TunnelSender) (r : TunnelSender * res DataPlaneError.t bytes) : Prop :=
  let '(s', out) := r in
  ts_session_id s' = ts_session_id s /\ ts_mtu s' = ts_mtu s /\ ts_crypto s' = ts_crypto s /\
  match out with
  | Ok d => ts_next_sequence s' = ts_next_sequence s + 1 /\ u64 (ts_next_sequence s') /\
            exists k c, d = framed (ts_session_id s) k (ts_next_sequence s) c
  | Err _ => ts_next_sequence s' = ts_next_sequence s
  | Panic => False
  end.

Lemma sender_encode_step s kind ik payload output :
  u64 (ts_next_sequence s) -> sender_step s (TunnelSender_encode_into s kind ik payload output).
Proof.
  intros Hu. rewrite sender_encode_eq. unfold sender_step, checked_add64, u64_max.
  destruct (Z.leb_spec (ts_next_sequence s + 1) (2 ^ 64 - 1)); [|done].
  pose proof (encrypt_into_no_panic (send_transport (ts_crypto s)) (ts_next_sequence s)
    (InnerPacket.encode (InnerPacket.mk ik payload))
    (len (InnerPacket.encode (InnerPacket.mk ik payload)) + AUTH_TAG_LEN)).
  destruct (encrypt_into _ _ _ _); [|done..]. simpl.
  repeat split; try done; unfold uint in *; try lia. eauto.
Qed.

Lemma sender_call_step s c : u64 (ts_next_sequence s) -> sender_step s (sender_call s c).
Proof.
  intros Hu. destruct c as [packet|]; simpl; [|by apply sender_encode_step].
  unfold TunnelSender_encode_ip_into. pose proof (parse_no_panic packet).
  destruct (Ipv4Packet.parse packet) as [ip| |]; [|done..].
  case_if; [done|]. by apply sender_encode_step.
Qed.

(** A sender never uses a nonce twice: the datagrams it emits carry consecutive
    sequence numbers starting at its counter, over any mix of data packets,
    keepalives and failing calls, and it refuses to send rather than wrap. *)
Theorem sender_sequences_are_consecutive s cs :
  u64 (ts_session_id s) -> u64 (ts_next_sequence s) ->
  let out := sender_run s cs in
  map sequence_of out =
    map (fun i => Some (ts_next_sequence s + Z.of_nat i)) (seq 0 (length out)) /\
  ts_next_sequence s + len out <= u64_max.
Proof.
  intros Hid. revert s Hid. induction cs as [|c cs IH]; intros s Hid Hu; simpl.
  { split; [done|]. unfold len, u64_max; simpl; unfold uint in Hu; lia. }
  pose proof (sender_call_step s c Hu) as Hstep.
  destruct (sender_call s c) as [s' [d|e|]]; destruct Hstep as (Hid' & _ & _ & Hstep); [| |done].
  - destruct Hstep as (Hn & Hu' & k & ct & ->). rewrite <- Hid' in Hid at 1.
    specialize (IH s' Hid Hu') as [IH1 IH2]. simpl. rewrite Hid' in Hid. split.
    + rewrite sequence_of_framed by done. f_equal; [f_equal; lia|].
      rewrite IH1, Hn, <- seq_shift, map_map. apply map_ext. intros i. f_equal. lia.
    + rewrite len_cons. lia.
  - rewrite <- Hstep. apply IH; by rewrite ?Hid', ?Hstep.
Qed.

(** ** What a receiver hands out *)

Lemma receiver_decode_spec r a d :
  represents (recv_window (tr_crypto r)) a -> 0 <= Header.sequence (Datagram.header d) ->
  let q := Header.sequence (Datagram.header d) in
  let read := read_message (recv_transport (tr_crypto r)) q (Datagram.payload d)
                (len (Datagram.payload d)) in
  let '(r', out) := TunnelReceiver_decode_into r d in
  tr_session_id r' = tr_session_id r /\ tr_mtu r' = tr_mtu r /\
  recv_transport (tr_crypto r') = recv_transport (tr_crypto r) /\
  match out with
  | Ok decoded =>
      Header.session_id (Datagram.header d) = tr_session_id r /\
      ReplaySpec.verdict a q = Ok tt /\ represents (recv_window (tr_crypto r')) (ReplaySpec.add a q) /\
      match decoded with
      | Ip b => Header.kind (Datagram.header d) = PacketKind.Data /\
                (exists padding, read = Some (1 :: b ++ padding)) /\
                ipv4_valid b /\ ipv4_total_len b = len b /\ len b <= tr_mtu r
      | Keepalive => Header.kind (Datagram.header d) = PacketKind.Keepalive /\ read = Some [2]
      end
  | Err _ =>
      r' = r \/
      (ReplaySpec.verdict a q = Ok tt /\ (exists p, read = Some p) /\
       represents (recv_window (tr_crypto r')) (ReplaySpec.add a q))
  | Panic => False
  end.
Proof.
  intros R Hq q read. unfold TunnelReceiver_decode_into.
  case_if; [by auto|]. case_if; [by auto|]. boolify.
  unfold ReceiveHalf_decrypt_into. fold q.
  pose proof (decrypt_into_spec (recv_transport (tr_crypto r)) (recv_window (tr_crypto r)) a q
    (Datagram.payload d) (len (Datagram.payload d)) R Hq) as Hspec.
  destruct (decrypt_into _ _ _ _ _) as [w out]. cbn [tr_session_id tr_mtu tr_crypto recv_transport recv_window].
  do 3 (split; [done|]). destruct out as [output|e|]; res_simpl; cbn [map_err]; [| |done].
  2: { destruct Hspec as [-> _]. left. by destruct r as [? ? []]. }
  destruct Hspec as (_ & Hv & Hread & R'). fold read in Hread.
  assert (Herr : exists p, read = Some p) by eauto.
  pose proof (inner_decode_no_panic output).
  destruct (InnerPacket.decode output) as [inner|e|] eqn:Hi; simpl; [|by auto|done].
  apply inner_decode_canonical in Hi. unfold InnerPacket.encode in Hi.
  destruct (Header.kind _) eqn:Hk, (InnerPacket.kind inner) eqn:Hik; try (by right; eauto).
  - pose proof (parse_no_panic (InnerPacket.payload inner)).
    destruct (Ipv4Packet.parse _) as [ip|e|] eqn:Hp; simpl; [|by auto|done].
    case_if; [by auto|]. boolify.
    pose proof (parse_as_bytes _ _ Hp) as Hb. apply parse_ok in Hb as [Hvalid Hview].
    apply parse_len in Hp as [Hl [rest Hrest]]. rewrite Hrest in Hi. simpl in Hi. subst output.
    rewrite slice_ok by len_lia. cbn [mbind res_bind].
    rewrite sub_list_cons_app.
    assert (Htl : ipv4_total_len (Ipv4Packet.as_bytes ip) = len (Ipv4Packet.as_bytes ip)).
    { apply (f_equal (fun p => len (Ipv4Packet.as_bytes p))) in Hview.
      cbn [ipv4_view Ipv4Packet.as_bytes] in Hview. rewrite len_take in Hview.
      destruct Hvalid as (_ & _ & ? & ?). lia. }
    do 4 (split; [done|]). split; [by eauto|]. by split_and!.
  - destruct (Z.eqb_spec (len (InnerPacket.payload inner)) 0) as [H0|]; [|by auto].
    destruct (InnerPacket.payload inner) eqn:Hpay; [|exfalso; len_lia]. simpl in Hi. subst output. done.
Qed.

(** A receiver only hands out what an authenticated peer sent in this session:
    a packet comes from a [Data] datagram of its own session with a fresh sequence
    number, its bytes are the authenticated plaintext behind the kind byte, and it
    is a structurally valid IPv4 packet of exactly its total length within the
    tunnel MTU; a keepalive is the authenticated keepalive byte and nothing else.
    Errors before authentication leave the receiver as it was, and nothing aborts. *)
Theorem receiver_hands_out_only_valid_packets r a d :
  represents (recv_window (tr_crypto r)) a -> Header.wf (Datagram.header d) ->
  let q := Header.sequence (Datagram.header d) in
  let read := read_message (recv_transport (tr_crypto r)) q (Datagram.payload d)
                (len (Datagram.payload d)) in
  match TunnelReceiver_decode_into r d with
  | (r', Ok decoded) =>
      Header.session_id (Datagram.header d) = tr_session_id r /\
      ReplaySpec.verdict a q = Ok tt /\ represents (recv_window (tr_crypto r')) (ReplaySpec.add a q) /\
      match decoded with
      | Ip b => Header.kind (Datagram.header d) = PacketKind.Data /\
                (exists padding, read = Some (1 :: b ++ padding)) /\
                ipv4_valid b /\ ipv4_total_len b = len b /\ len b <= tr_mtu r
      | Keepalive => Header.kind (Datagram.header d) = PacketKind.Keepalive /\ read = Some [2]
      end
  | (r', Err _) => r' = r \/ (ReplaySpec.verdict a q = Ok tt /\ exists p, read = Some p)
  | (_, Panic) => False
  end.
Proof.
  intros R (_ & _ & Hq) q read. unfold uint in Hq.
  pose proof (receiver_decode_spec r a d R (proj1 Hq)) as Hspec. cbv zeta in Hspec. fold q read in Hspec.
  destruct (TunnelReceiver_decode_into r d) as [r' [decoded|e|]];
    destruct Hspec as (_ & _ & _ & Hspec); [done| |done].
  destruct Hspec as [->|(? & ? & _)]; auto.
Qed.

(** ** A tunnel over an unreliable network *)

(** The reference: the [i]-th packet sent carries sequence number [i]; a datagram
    that arrives is delivered when the set of numbers seen so far accepts it. *)
Fixpoint channel_spec (a : ReplaySpec.t) (packets : list bytes) (arrivals : list nat)
    : list (res DataPlaneError.t Decoded) :=
  match arrivals with
  | [] => []
  | i :: arrivals =>
      match ReplaySpec.verdict a (Z.of_nat i) with
      | Ok _ => Ok (Ip (nth i packets [])) ::
                channel_spec (ReplaySpec.add a (Z.of_nat i)) packets arrivals
      | Err e => Err (DataPlaneError.Crypto (CryptoError.Replay e)) :: channel_spec a packets arrivals
      | Panic => [Panic]
      end
  end.

(** The implementation: the datagrams as they arrive, each decoded and passed on. *)
Fixpoint receiver_run (r : TunnelReceiver) (datagrams : list bytes)
    : list (res DataPlaneError.t Decoded) :=
  match datagrams with
  | [] => []
  | input :: rest =>
      match Datagram.decode input with
      | Ok d => let '(r, out) := TunnelReceiver_decode_into r d in out :: receiver_run r rest
      | Err e => Err (DataPlaneError.Outer e) :: receiver_run r rest
      | Panic => [Panic]
      end
  end.

(** A packet the tunnel carries whole. *)
Definition carries (mtu : Z) (packet : bytes) : Prop :=
  ipv4_valid packet /\ ipv4_total_len packet = len packet /\ len packet <= mtu.

Lemma carries_parse mtu packet :
  carries mtu packet -> exists ip, Ipv4Packet.parse packet = Ok ip /\ Ipv4Packet.as_bytes ip = packet.
Proof.
  intros (Hv & Hl & Hm). exists (ipv4_view packet). split; [by apply parse_ok|].
  simpl. rewrite Hl. apply take_ge. unfold len. lia.
Qed.

Lemma sender_encode_total s packet output :
  carries (ts_mtu s) packet -> ts_mtu s + 1 <= MAX_PLAINTEXT_LEN ->
  u64 (ts_next_sequence s) -> ts_next_sequence s < u64_max ->
  exists c,
    write_message (send_transport (ts_crypto s)) (ts_next_sequence s) (1 :: packet)
      (1 + len packet + AUTH_TAG_LEN) = Some c /\
    TunnelSender_encode_ip_into s packet output =
    (mkTunnelSender (ts_session_id s) (ts_next_sequence s + 1) (ts_mtu s) (ts_crypto s) (1 :: packet),
     Ok (framed (ts_session_id s) PacketKind.Data (ts_next_sequence s) c)).
Proof.
  intros Hc Hm Hu Hn. destruct (carries_parse _ _ Hc) as (ip & Hp & Hb). destruct Hc as (_ & _ & Hc).
  unfold TunnelSender_encode_ip_into. rewrite Hp. cbv zeta. rewrite Hb.
  destruct (Z.ltb_spec (ts_mtu s) (len packet)); [lia|].
  rewrite sender_encode_eq. unfold checked_add64.
  destruct (Z.leb_spec (ts_next_sequence s + 1) u64_max); [|lia].
  change (InnerPacket.encode (InnerPacket.mk InnerPacketKind.Data packet)) with (1 :: packet).
  unfold encrypt_into. rewrite len_cons.
  destruct (Z.ltb_spec MAX_PLAINTEXT_LEN (1 + len packet)); [lia|].
  unfold MAX_PLAINTEXT_LEN, MAX_NOISE_MESSAGE_LEN, AUTH_TAG_LEN in *.
  destruct (write_message_total (send_transport (ts_crypto s)) (ts_next_sequence s) (1 :: packet)
    (1 + len packet + 16)) as [c Hw]; [unfold uint, u64_max in *; rewrite ?len_cons; lia..|].
  exists c. by rewrite Hw.
Qed.

(** The datagram with number [q] that carries [packet] from [s]. *)
Definition carried (s : TunnelSender) (q : Z) (packet d : bytes) : Prop :=
  exists c, d = framed (ts_session_id s) PacketKind.Data q c /\
    write_message (send_transport (ts_crypto s)) q (1 :: packet) (1 + len packet + AUTH_TAG_LEN) = Some c.

Lemma sender_run_carries s packets :
  Forall (carries (ts_mtu s)) packets -> ts_mtu s + 1 <= MAX_PLAINTEXT_LEN ->
  u64 (ts_next_sequence s) -> ts_next_sequence s + len packets <= u64_max ->
  length (sender_run s (map SendIp packets)) = length packets /\
  forall i, (i < length packets)%nat ->
    carried s (ts_next_sequence s + Z.of_nat i) (nth i packets [])
      (nth i (sender_run s (map SendIp packets)) []).
Proof.
  intros Hp. revert s Hp. induction packets as [|p packets IH]; intros s Hp Hm Hu Hn; simpl.
  { split; [done|lia]. }
  apply Forall_cons_iff in Hp as [Hc Hp]. rewrite len_cons in Hn. pose proof (len_nonneg packets).
  destruct (sender_encode_total s p [] Hc Hm Hu ltac:(lia)) as (c & Hw & ->).
  set (s' := mkTunnelSender _ _ _ _ _).
  destruct (IH s') as [Hl Hi]; [done|done|unfold uint, u64_max in *; simpl; lia|simpl; lia|].
  split; [simpl; by rewrite Hl|]. intros [|i] Hlt; simpl.
  - exists c. by rewrite Z.add_0_r.
  - specialize (Hi i ltac:(lia)). unfold carried in Hi |- *. simpl in Hi.
    by rewrite Nat2Z.inj_succ, <- Z.add_1_l, Z.add_assoc.
Qed.

Lemma receive_carried s r a q packet d :
  represents (recv_window (tr_crypto r)) a -> u64 q -> u64 (ts_session_id s) ->
  paired (send_transport (ts_crypto s)) (recv_transport (tr_crypto r)) ->
  tr_session_id r = ts_session_id s -> carries (tr_mtu r) packet ->
  tr_mtu r + 1 <= MAX_PLAINTEXT_LEN -> carried s q packet d ->
  exists dg r', Datagram.decode d = Ok dg /\
  match ReplaySpec.verdict a q with
  | Ok _ => TunnelReceiver_decode_into r dg = (r', Ok (Ip packet)) /\
            represents (recv_window (tr_crypto r')) (ReplaySpec.add a q)
  | Err e => TunnelReceiver_decode_into r dg = (r', Err (DataPlaneError.Crypto (CryptoError.Replay e))) /\
             recv_window (tr_crypto r') = recv_window (tr_crypto r)
  | Panic => False
  end /\ recv_transport (tr_crypto r') = recv_transport (tr_crypto r) /\
  tr_session_id r' = tr_session_id r /\ tr_mtu r' = tr_mtu r.
Proof.
  intros R Hq Hid Hpair Hsid Hc Hm (c & -> & Hw).
  set (dg := Datagram.mk (Header.mk PacketKind.Data 0 (ts_session_id s) q) c).
  assert (Hdec : Datagram.decode (framed (ts_session_id s) PacketKind.Data q c) = Ok dg).
  { apply datagram_decode_encode. repeat split; simpl; unfold uint in *; lia. }
  exists dg. unfold TunnelReceiver_decode_into. cbn [dg Datagram.header Header.session_id Header.kind
    Header.sequence Datagram.payload]. rewrite Hsid, Z.eqb_refl. cbn [negb is_tunnel_kind].
  unfold ReceiveHalf_decrypt_into.
  assert (Hlc : len c = 1 + len packet + 16).
  { apply write_message_len in Hw. by rewrite len_cons in Hw. }
  assert (Hread : read_message (recv_transport (tr_crypto r)) q c (len c) = Some (1 :: packet)).
  { eapply Hpair; [exact Hw|]. rewrite len_cons. lia. }
  pose proof (decrypt_into_spec (recv_transport (tr_crypto r)) (recv_window (tr_crypto r)) a q c (len c)
    R (proj1 Hq)) as Hspec.
  destruct (decrypt_into _ _ _ _ _) as [w out]. destruct out as [p|e|]; [| |done].
  - destruct Hspec as (_ & -> & Hr & R'). rewrite Hread in Hr. injection Hr as <-.
    exists (mkTunnelReceiver (ts_session_id s) (tr_mtu r)
      (mkReceiveHalf (recv_transport (tr_crypto r)) w (recv_peer_static_key (tr_crypto r)))).
    split; [exact Hdec|]. split; [|done]. split; [|exact R'].
    f_equal. res_simpl. cbn [map_err InnerPacket.decode InnerPacketKind_try_from].
    res_simpl. cbn [map_err InnerPacket.kind InnerPacket.payload].
    destruct (carries_parse _ _ Hc) as (ip & -> & Hb). cbn [map_err tr_mtu]. rewrite Hb.
    destruct Hc as (_ & _ & Hc). destruct (Z.ltb_spec (tr_mtu r) (len packet)); [lia|].
    rewrite slice_ok by len_lia. cbn [mbind]. rewrite <- (app_nil_r packet) at 1.
    by rewrite sub_list_cons_app.
  - destruct Hspec as (-> & [[Hbig _]|[(e' & -> & ->)|[Hr _]]]).
    + destruct Hc as (_ & _ & Hc). unfold MAX_PLAINTEXT_LEN, AUTH_TAG_LEN in *. lia.
    + eexists. split; [exact Hdec|]. by split.
    + congruence.
Qed.

Lemma receiver_run_spec s r a packets datagrams arrivals :
  represents (recv_window (tr_crypto r)) a -> u64 (ts_session_id s) ->
  paired (send_transport (ts_crypto s)) (recv_transport (tr_crypto r)) ->
  tr_session_id r = ts_session_id s -> Forall (carries (tr_mtu r)) packets ->
  tr_mtu r + 1 <= MAX_PLAINTEXT_LEN -> len packets <= u64_max ->
  (forall i, (i < length packets)%nat -> carried s (Z.of_nat i) (nth i packets []) (nth i datagrams [])) ->
  Forall (fun i => i < length packets)%nat arrivals ->
  receiver_run r (map (fun i => nth i datagrams []) arrivals) = channel_spec a packets arrivals.
Proof.
  intros R Hid Hpair Hsid Hp Hm Hn Hsent Harr. revert r a R Hpair Hsid Hp Hm.
  induction Harr as [|i arrivals Hi Harr IH]; intros r a R Hpair Hsid Hp Hm; [done|]. simpl.
  assert (Hc : carries (tr_mtu r) (nth i packets [])).
  { rewrite Forall_forall in Hp. apply Hp. by apply nth_In. }
  destruct (receive_carried s r a (Z.of_nat i) _ _ R
    ltac:(unfold uint, u64_max, len in *; lia) Hid Hpair Hsid Hc Hm (Hsent i Hi))
    as (dg & r' & -> & Hout & Ht & Hs & Hmtu).
  destruct (ReplaySpec.verdict a (Z.of_nat i)); [| |done].
  - destruct Hout as [-> R']. f_equal. apply IH; rewrite ?Ht, ?Hs, ?Hmtu; done.
  - destruct Hout as [-> Hw]. f_equal. apply IH; rewrite ?Ht, ?Hs, ?Hmtu, ?Hw; done.
Qed.

(** [C13] End to end over an unreliable network: two fresh ends of one session, any
    packets the MTU admits sent in order, and datagrams arriving in any order, any
    number of times or never.  Every arrival is answered as the set of sequence
    numbers says: the original packet byte for byte the first time it arrives
    inside the window, a replay error otherwise. *)
Theorem tunnel_over_unreliable_network (send receive : SecureSession) session_id mtu packets arrivals :
  u64 session_id -> mtu + 1 <= MAX_PLAINTEXT_LEN ->
  paired (ss_transport send) (ss_transport receive) ->
  ss_receive_window receive = ReplayWindow.default ->
  Forall (carries mtu) packets -> len packets <= u64_max ->
  Forall (fun i => i < length packets)%nat arrivals ->
  let s := (TunnelDataPlane_split (TunnelDataPlane_new session_id mtu send)).1 in
  let r := (TunnelDataPlane_split (TunnelDataPlane_new session_id mtu receive)).2 in
  let datagrams := sender_run s (map SendIp packets) in
  length datagrams = length packets /\
  receiver_run r (map (fun i => nth i datagrams []) arrivals) =
  channel_spec ReplaySpec.empty packets arrivals.
Proof.
  intros Hid Hm Hpair Hw Hp Hn Harr s r datagrams.
  destruct (sender_run_carries s packets) as [Hl Hsent]; [done|done|unfold uint; simpl; lia|simpl; lia|].
  split; [done|]. apply receiver_run_spec with s; try done.
  simpl. rewrite Hw. apply represents_default.
Qed.

End TunnelLemmas.

(** ** Witnesses *)

Import Toy.

(** A 24-byte IPv4 packet from 10.0.0.2 to 10.0.0.1. *)
Definition toy_packet (x : Z) : bytes :=
  [69; 0; 0; 24; 0; 0; 0; 0; 64; 17; 0; 0; 10; 0; 0; 2; 10; 0; 0; 1; x; 1; 2; 3].

Definition toy_session : SecureSession := SecureSession_new (N := toy_noise) 7 (zeros 32).

Lemma toy_packet_carried x : carries 100 (toy_packet x).
Proof. unfold carries, ipv4_valid. repeat split; vm_compute; congruence. Qed.

Lemma split_halves_refine_plane_witness :
  let p := TunnelDataPlane_new 77 100 toy_session in
  halves_run (TunnelDataPlane_split p) [(EncodeIp (toy_packet 9), [1; 2]); (EncodeKeepalive, [])] =
  plane_run p [(EncodeIp (toy_packet 9), [1; 2]); (EncodeKeepalive, [])].
Proof. apply split_halves_refine_plane. Defined.

Lemma sender_sequences_are_consecutive_witness :
  let s := (TunnelDataPlane_split (TunnelDataPlane_new 77 100 toy_session)).1 in
  map sequence_of (sender_run s [SendIp (toy_packet 9); SendIp [1]; SendKeepalive]) = [Some 0; Some 1].
Proof.
  intros s. destruct (sender_sequences_are_consecutive s [SendIp (toy_packet 9); SendIp [1]; SendKeepalive])
    as [-> _]; [unfold uint; simpl; lia..|]. vm_compute. reflexivity.
Defined.

Lemma receiver_hands_out_only_valid_packets_witness :
  let r := (TunnelDataPlane_split (TunnelDataPlane_new 77 100 toy_session)).2 in
  let d := Datagram.mk (Header.mk PacketKind.Data 0 77 3) (1 :: toy_packet 9 ++ toy_tag 7 3 (1 :: toy_packet 9)) in
  match TunnelReceiver_decode_into r d with
  | (r', Ok (Ip b)) => ipv4_valid b /\ b = toy_packet 9
  | _ => False
  end.
Proof.
  intros r d.
  pose proof (receiver_hands_out_only_valid_packets r ReplaySpec.empty d represents_default
    ltac:(repeat split; simpl; lia)) as H.
  assert (Hok : (TunnelReceiver_decode_into r d).2 = Ok (Ip (toy_packet 9))) by (vm_compute; reflexivity).
  revert H Hok. cbv zeta. destruct (TunnelReceiver_decode_into r d) as [r' out]. cbn [snd]. intros H ->.
  destruct H as (_ & _ & _ & _ & _ & Hv & _). done.
Defined.

Lemma tunnel_over_unreliable_network_witness :
  let s := (TunnelDataPlane_split (TunnelDataPlane_new 77 100 toy_session)).1 in
  let r := (TunnelDataPlane_split (TunnelDataPlane_new 77 100 toy_session)).2 in
  let datagrams := sender_run s (map SendIp [toy_packet 4; toy_packet 5]) in
  receiver_run r (map (fun i => nth i datagrams []) [1; 0; 1]%nat) =
  [Ok (Ip (toy_packet 5)); Ok (Ip (toy_packet 4));
   Err (DataPlaneError.Crypto (CryptoError.Replay ReplayError.Duplicate))].
Proof.
  intros s r datagrams.
  destruct (tunnel_over_unreliable_network toy_session toy_session 77 100 [toy_packet 4; toy_packet 5]
    [1; 0; 1]%nat) as [_ H].
  - unfold uint; lia.
  - unfold MAX_PLAINTEXT_LEN, MAX_NOISE_MESSAGE_LEN, AUTH_TAG_LEN; lia.
  - apply toy_paired.
  - reflexivity.
  - repeat constructor; apply toy_packet_carried.
  - unfold len, u64_max; simpl; lia.
  - repeat constructor; simpl; lia.
  - transitivity (channel_spec ReplaySpec.empty [toy_packet 4; toy_packet 5] [1; 0; 1]%nat); [exact H|].
    vm_compute. reflexivity.
Defined.
