(* ===== verification/Morph.v ===== *)
(** * The MouseMorph envelope of crates/morph

    A MouseMorph frame is a clear routing tag and nonce, then an encrypted header,
    the wrapped datagram and random padding, then the authentication tag.  The
    system clock is the argument [clock] (seconds since the Unix epoch, [None] for a
    clock before it) and the bytes drawn from the operating system are [random]
    ([None] for a failing generator). *)

From S2P Require Import Prelude Protocol Replay Crypto ToyCrypto DataPlane.

Definition FORMAT_VERSION : Z := 2.
Definition ROUTING_TAG_LEN : Z := 8.
Definition NONCE_LEN : Z := 12.
Definition CLEAR_PREFIX_LEN : Z := ROUTING_TAG_LEN + NONCE_LEN.
Definition INNER_HEADER_LEN : Z := 6.
Definition MIN_FRAME_LEN : Z := CLEAR_PREFIX_LEN + INNER_HEADER_LEN + AUTH_TAG_LEN.
Definition ROUTE_LABEL : bytes := ascii_bytes "MouseVPN MouseMorph v2 route".
Definition MAX_DATAGRAM_LEN : Z := 1472.
Definition SAFE_TUN_MTU : Z := 1280.
Definition MAX_RANDOM_PADDING : Z := 31.
Definition FRAME_RANDOM_LEN : Z := NONCE_LEN + 2 + MAX_RANDOM_PADDING.

(** The text of a failing generator is dropped. *)
Module MorphError.

Inductive t :=
| Truncated (actual minimum : Z)
| FrameTooLarge (actual maximum : Z)
| InvalidFrame
| InvalidProfile (value : Z)
| UnknownRoutingTag
| Clock
| Random
| CipherInit
| Encryption
| Authentication.

#[global] Instance eq_dec : EqDecision t.
Proof. solve_decision. Defined.

End MorphError.

Module Profile.

Inductive t := Quiet | Balanced | Paranoid.

#[global] Instance eq_dec : EqDecision t.
Proof. solve_decision. Defined.

Definition to_u8 (p : t) : Z := match p with Quiet => 1 | Balanced => 2 | Paranoid => 3 end.

Definition epoch_seconds (p : t) : Z :=
  match p with Quiet => 30 | Balanced => 5 | Paranoid => 1 end.

Definition from_id (value : Z) : res MorphError.t t :=
  match value with
  | 1 => Ok Quiet
  | 2 => Ok Balanced
  | 3 => Ok Paranoid
  | _ => Err (MorphError.InvalidProfile value)
  end.

End Profile.

Module Direction.

Inductive t := ClientToServer | ServerToClient.

#[global] Instance eq_dec : EqDecision t.
Proof. solve_decision. Defined.

Definition to_u8 (d : t) : Z := match d with ClientToServer => 0 | ServerToClient => 1 end.

End Direction.

Module FrameKind.

Inductive t := Cover | Payload.

Definition to_u8 (k : t) : Z := match k with Cover => 0 | Payload => 1 end.

End FrameKind.

Module DecodedFrame.

Inductive t :=
| Cover (profile : Profile.t)
| Payload (profile : Profile.t).

#[global] Instance eq_dec : EqDecision t.
Proof. solve_decision. Defined.

End DecodedFrame.

(** [random_inclusive], on the two bytes it draws. *)
Definition random_inclusive (minimum maximum : Z) (random : option bytes) : res MorphError.t Z :=
  if minimum =? maximum then Ok minimum
  else
    random ← ok_or random MorphError.Random;
    let span := maximum - minimum + 1 in
    Ok (minimum + be_value random mod span).

Definition cover_count (p : Profile.t) (random : option bytes) : res MorphError.t Z :=
  match p with
  | Profile.Quiet => Ok 0
  | Profile.Balanced => random_inclusive 1 2 random
  | Profile.Paranoid => random_inclusive 3 5 random
  end.

Definition handshake_jitter_ms (p : Profile.t) (random : option bytes) : res MorphError.t Z :=
  match p with
  | Profile.Quiet => Ok 0
  | Profile.Balanced => random_inclusive 1 4 random
  | Profile.Paranoid => random_inclusive 2 12 random
  end.

Definition current_epoch (clock : option Z) (p : Profile.t) : res MorphError.t Z :=
  seconds ← ok_or clock MorphError.Clock;
  Ok (seconds / Profile.epoch_seconds p).

Definition accepted_epochs (epoch : Z) : list Z :=
  [sat_sub epoch 1; epoch; sat_add64 epoch 1].

Definition associated_data (route : bytes) (direction : Direction.t) : bytes :=
  copy_at (copy_at (zeros (ROUTING_TAG_LEN + 1)) 0 route) ROUTING_TAG_LEN [Direction.to_u8 direction].

Section Morph.
Context `{P : Primitives}.

Definition routing_tag_at (key : bytes) (p : Profile.t) (d : Direction.t) (epoch : Z) : bytes :=
  sub_list
    (hmac_sha256 key (ROUTE_LABEL ++ [Profile.to_u8 p] ++ [Direction.to_u8 d] ++ be_bytes 8 epoch))
    0 ROUTING_TAG_LEN.

Definition matches_routing_tag (key : bytes) (p : Profile.t) (d : Direction.t) (epoch : Z)
    (route : bytes) : bool :=
  existsb (fun candidate => bool_decide (routing_tag_at key p d candidate = route))
    [epoch; sat_sub epoch 1; sat_add64 epoch 1].

(** [encode_frame]: the content of [output] after success. *)
Definition encode_frame (clock : option Z) (random : option bytes) (key : bytes)
    (profile : Profile.t) (kind : FrameKind.t) (inner : bytes) (direction : Direction.t)
    : res MorphError.t bytes :=
  if 65535 <? len inner then Err (MorphError.FrameTooLarge (len inner) 65535)
  else
    let inner_len := be_bytes 2 (len inner) in
    let minimum := MIN_FRAME_LEN + len inner in
    if MAX_DATAGRAM_LEN <? minimum then Err (MorphError.FrameTooLarge minimum MAX_DATAGRAM_LEN)
    else
      epoch ← current_epoch clock profile;
      let route := routing_tag_at key profile direction epoch in
      random ← ok_or random MorphError.Random;
      nonce ← slice random 0 NONCE_LEN;
      c0 ← index random NONCE_LEN;
      c1 ← index random (NONCE_LEN + 1);
      let choice := be_value [c0; c1] in
      let padding_len :=
        Z.min (choice mod (MAX_RANDOM_PADDING + 1)) (MAX_DATAGRAM_LEN - minimum) in
      l0 ← index inner_len 0;
      l1 ← index inner_len 1;
      padding ← slice random (NONCE_LEN + 2) (NONCE_LEN + 2 + padding_len);
      let output := [] ++ route in
      let output := output ++ nonce in
      let output := output ++ [FORMAT_VERSION; FrameKind.to_u8 kind; Profile.to_u8 profile; 0; l0; l1] in
      let output := output ++ inner in
      let output := output ++ padding in
      if negb (len key =? 32) then Err MorphError.CipherInit
      else
        let aad := associated_data route direction in
        clear ← slice output 0 CLEAR_PREFIX_LEN;
        plaintext ← slice output CLEAR_PREFIX_LEN (len output);
        '(ciphertext, authentication) ← ok_or (chacha_seal key nonce aad plaintext) MorphError.Encryption;
        Ok (clear ++ ciphertext ++ authentication).

Definition decode_frame (clock : option Z) (key : bytes) (expected_profile : Profile.t)
    (input : bytes) (direction : Direction.t) : res MorphError.t (DecodedFrame.t * bytes) :=
  if len input <? MIN_FRAME_LEN then Err (MorphError.Truncated (len input) MIN_FRAME_LEN)
  else if MAX_DATAGRAM_LEN <? len input
  then Err (MorphError.FrameTooLarge (len input) MAX_DATAGRAM_LEN)
  else
    tag ← slice input 0 ROUTING_TAG_LEN;
    route ← try_into_array ROUTING_TAG_LEN tag MorphError.InvalidFrame;
    epoch ← current_epoch clock expected_profile;
    if negb (matches_routing_tag key expected_profile direction epoch route)
    then Err MorphError.UnknownRoutingTag
    else
      n ← slice input ROUTING_TAG_LEN CLEAR_PREFIX_LEN;
      nonce ← try_into_array NONCE_LEN n MorphError.InvalidFrame;
      let ciphertext_end := len input - AUTH_TAG_LEN in
      ciphertext ← slice input CLEAR_PREFIX_LEN ciphertext_end;
      if negb (len key =? 32) then Err MorphError.CipherInit
      else
        let aad := associated_data route direction in
        authentication ← slice input ciphertext_end (len input);
        output ← ok_or (chacha_open key nonce aad ciphertext authentication) MorphError.Authentication;
        if len output <? INNER_HEADER_LEN then Err MorphError.InvalidFrame
        else
          b0 ← index output 0;
          b3 ← index output 3;
          if negb (b0 =? FORMAT_VERSION) || negb (b3 =? 0) then Err MorphError.InvalidFrame
          else
            b2 ← index output 2;
            profile ← Profile.from_id b2;
            if negb (bool_decide (profile = expected_profile)) then Err MorphError.InvalidFrame
            else
              b4 ← index output 4;
              b5 ← index output 5;
              let inner_len := be_value [b4; b5] in
              if len output <? INNER_HEADER_LEN + inner_len then Err MorphError.InvalidFrame
              else
                value ← index output 1;
                if (value =? FrameKind.to_u8 FrameKind.Cover) && (inner_len =? 0)
                then Ok (DecodedFrame.Cover profile, [])
                else if value =? FrameKind.to_u8 FrameKind.Payload
                then
                  inner ← slice output INNER_HEADER_LEN (INNER_HEADER_LEN + inner_len);
                  Ok (DecodedFrame.Payload profile, inner)
                else Err MorphError.InvalidFrame.

(** [MorphCodec] *)
Record MorphCodec := mkMorphCodec { mc_key : bytes; mc_profile : Profile.t }.

Definition MorphCodec_encode_payload (clock : option Z) (random : option bytes) (c : MorphCodec)
    (inner : bytes) (d : Direction.t) : res MorphError.t bytes :=
  encode_frame clock random (mc_key c) (mc_profile c) FrameKind.Payload inner d.

Definition MorphCodec_encode_cover (clock : option Z) (random : option bytes) (c : MorphCodec)
    (d : Direction.t) : res MorphError.t bytes :=
  encode_frame clock random (mc_key c) (mc_profile c) FrameKind.Cover [] d.

Definition MorphCodec_decode (clock : option Z) (c : MorphCodec) (input : bytes) (d : Direction.t)
    : res MorphError.t (DecodedFrame.t * bytes) :=
  decode_frame clock (mc_key c) (mc_profile c) input d.

End Morph.

(** ** Random choices *)

Lemma random_inclusive_bounds lo hi random n :
  lo <= hi -> random_inclusive lo hi random = Ok n -> lo <= n <= hi.
Proof.
  intros Hle. unfold random_inclusive. destruct (Z.eqb_spec lo hi); [intros [= <-]; lia|].
  destruct random as [r|]; [|done]. res_simpl. intros [= <-].
  pose proof (Z.mod_pos_bound (be_value r) (hi - lo + 1)). lia.
Qed.

(** ** Frames *)

(** The encrypted header. *)
Definition frame_header (kind : FrameKind.t) (p : Profile.t) (n : Z) : bytes :=
  [FORMAT_VERSION; FrameKind.to_u8 kind; Profile.to_u8 p; 0; n / 256 mod 256; n mod 256].

(** The padding chosen by the two bytes behind the nonce. *)
Definition frame_padding_len (random inner : bytes) : Z :=
  Z.min (be_value [nth 12 random 0; nth 13 random 0] mod 32) (MAX_DATAGRAM_LEN - (MIN_FRAME_LEN + len inner)).

(** The part of [decode_frame] behind authentication. *)
Definition decode_plain (expected_profile : Profile.t) (output : bytes)
    : res MorphError.t (DecodedFrame.t * bytes) :=
  if (len output <? 6) || negb (nth 0 output 0 =? FORMAT_VERSION) || negb (nth 3 output 0 =? 0)
  then Err MorphError.InvalidFrame
  else
    profile ← Profile.from_id (nth 2 output 0);
    if negb (bool_decide (profile = expected_profile)) then Err MorphError.InvalidFrame
    else
      let inner_len := be_value [nth 4 output 0; nth 5 output 0] in
      if len output <? 6 + inner_len then Err MorphError.InvalidFrame
      else if (nth 1 output 0 =? 0) && (inner_len =? 0) then Ok (DecodedFrame.Cover profile, [])
      else if nth 1 output 0 =? 1
      then inner ← slice output 6 (6 + inner_len); Ok (DecodedFrame.Payload profile, inner)
      else Err MorphError.InvalidFrame.

Lemma frame_padding_bounds random inner :
  MIN_FRAME_LEN + len inner <= MAX_DATAGRAM_LEN ->
  0 <= frame_padding_len random inner <= 31 /\
  MIN_FRAME_LEN + len inner + frame_padding_len random inner <= MAX_DATAGRAM_LEN.
Proof.
  intros. unfold frame_padding_len.
  pose proof (Z.mod_pos_bound (be_value [nth 12 random 0; nth 13 random 0]) 32). lia.
Qed.

Lemma associated_data_eq route d :
  len route = 8 -> associated_data route d = route ++ [Direction.to_u8 d].
Proof.
  intros Hl. do 8 (destruct route as [|? route]; [exfalso; len_lia|]).
  destruct route; [done|exfalso; len_lia].
Qed.

(** Evaluates the size constants of the format. *)
Ltac morph_consts :=
  cbv [MIN_FRAME_LEN CLEAR_PREFIX_LEN INNER_HEADER_LEN MAX_DATAGRAM_LEN FRAME_RANDOM_LEN
    ROUTING_TAG_LEN NONCE_LEN MAX_RANDOM_PADDING AUTH_TAG_LEN] in *;
  change (8 + 12 + 6 + 16) with 42 in *; change (8 + 12) with 20 in *; change (12 + 2 + 31) with 45 in *;
  change (12 + 2) with 14 in *; change (12 + 1) with 13 in *; change (31 + 1) with 32 in *.

Section MorphLemmas.
Context `{P : Primitives}.

Lemma encode_frame_eq t random key p kind inner d :
  MIN_FRAME_LEN + len inner <= MAX_DATAGRAM_LEN -> len random = FRAME_RANDOM_LEN -> len key = 32 ->
  (forall k i, len (hmac_sha256 k i) = 32) ->
  let route := routing_tag_at key p d (t / Profile.epoch_seconds p) in
  let nonce := sub_list random 0 12 in
  let padding := sub_list random 14 (14 + frame_padding_len random inner) in
  len route = 8 /\ len nonce = 12 /\ len padding = frame_padding_len random inner /\
  encode_frame (Some t) (Some random) key p kind inner d =
  ('(ciphertext, authentication) ←
     ok_or (chacha_seal key nonce (associated_data route d)
              (frame_header kind p (len inner) ++ inner ++ padding)) MorphError.Encryption;
   Ok (route ++ nonce ++ ciphertext ++ authentication)).
Proof.
  intros Hmin Hr Hk Hmac route nonce padding. pose proof (len_nonneg inner).
  pose proof (frame_padding_bounds random inner Hmin) as [Hpad Htot].
  assert (Hroute : len route = 8).
  { unfold route, routing_tag_at, ROUTING_TAG_LEN. rewrite len_sub_list; [done|lia|rewrite Hmac; lia]. }
  assert (Hfp : Z.min (be_value [nth 12 random 0; nth 13 random 0] mod 32) (1472 - (42 + len inner)) =
    frame_padding_len random inner) by done.
  unfold encode_frame, current_epoch. cbn [ok_or mbind res_bind]. morph_consts.
  assert (Hnonce : len nonce = 12) by (unfold nonce; rewrite len_sub_list; lia).
  split; [done|]. split; [done|]. split; [unfold padding; rewrite len_sub_list; lia|].
  destruct (Z.ltb_spec 65535 (len inner)); [lia|].
  destruct (Z.ltb_spec 1472 (42 + len inner)); [lia|]. fold route.
  rewrite slice_ok by lia. fold nonce. res_simpl. rewrite !index_ok by lia.
  change (Z.to_nat 12) with 12%nat. change (Z.to_nat 13) with 13%nat. rewrite Hfp.
  rewrite !index_ok by (rewrite len_be_bytes; lia). rewrite slice_ok by lia. fold padding.
  rewrite Hk. cbn [Z.eqb Pos.eqb negb app].
  set (hdr := [FORMAT_VERSION; _; _; _; _; _]).
  assert (Hhdr : hdr = frame_header kind p (len inner)).
  { unfold hdr, frame_header. repeat f_equal; simpl; by rewrite Z.div_1_r. }
  rewrite Hhdr, <- !app_assoc. rewrite (app_assoc route).
  rewrite slice_app_l, slice_app_r by (rewrite ?len_app; lia).
  destruct (ok_or _ _) as [[c a]|e|]; [|done..]. by rewrite <- app_assoc.
Qed.

Lemma decode_frame_eq t key p route nonce c a d :
  len route = 8 -> len nonce = 12 -> len a = 16 -> 6 <= len c -> 36 + len c <= MAX_DATAGRAM_LEN ->
  len key = 32 ->
  decode_frame (Some t) key p (route ++ nonce ++ c ++ a) d =
  if negb (matches_routing_tag key p d (t / Profile.epoch_seconds p) route)
  then Err MorphError.UnknownRoutingTag
  else (output ← ok_or (chacha_open key nonce (associated_data route d) c a) MorphError.Authentication;
        decode_plain p output).
Proof.
  intros Hroute Hnonce Ha Hc Hmax Hk. unfold decode_frame, current_epoch. cbn [ok_or mbind res_bind].
  morph_consts. assert (Hlen : len (route ++ nonce ++ c ++ a) = 36 + len c) by (rewrite !len_app; lia).
  rewrite Hlen. destruct (Z.ltb_spec (36 + len c) 42); [lia|].
  destruct (Z.ltb_spec 1472 (36 + len c)); [lia|].
  rewrite slice_app_l by lia. res_simpl. rewrite try_into_array_ok by done. case_if; [done|].
  rewrite slice_app by lia. rewrite try_into_array_ok by done.
  rewrite (app_assoc route nonce), slice_app by (rewrite ?len_app; lia).
  rewrite Hk. cbn [Z.eqb Pos.eqb negb].
  rewrite (app_assoc (route ++ nonce) c), slice_app_r by (rewrite ?len_app; lia).
  destruct (ok_or _ _) as [output|e|]; [|done..]. unfold decode_plain.
  destruct (Z.ltb_spec (len output) 6); [done|]. rewrite !index_ok by lia.
  change (Z.to_nat 0) with 0%nat. change (Z.to_nat 1) with 1%nat. change (Z.to_nat 2) with 2%nat.
  change (Z.to_nat 3) with 3%nat. change (Z.to_nat 4) with 4%nat. change (Z.to_nat 5) with 5%nat.
  simpl orb. case_if; [done|]. reflexivity.
Qed.

Lemma decode_plain_header p kind inner padding :
  0 <= len inner <= 65535 -> (kind = FrameKind.Cover -> inner = []) ->
  decode_plain p (frame_header kind p (len inner) ++ inner ++ padding) =
  Ok match kind with
     | FrameKind.Cover => (DecodedFrame.Cover p, [])
     | FrameKind.Payload => (DecodedFrame.Payload p, inner)
     end.
Proof.
  intros Hl Hcover. unfold decode_plain. pose proof (len_nonneg padding).
  set (n := len inner).
  assert (Hn : be_value [n / 256 mod 256; n mod 256] = n).
  { unfold be_value. simpl. rewrite (Z.mod_small (n / 256)); [|split; [apply Z.div_pos; lia|]].
    - pose proof (Z_div_mod_eq_full n 256). lia.
    - apply Z.div_lt_upper_bound; lia. }
  assert (Hlen : len (frame_header kind p n ++ inner ++ padding) = 6 + n + len padding).
  { rewrite !len_app. fold n. change (len (frame_header kind p n)) with 6. lia. }
  rewrite Hlen. destruct (Z.ltb_spec (6 + n + len padding) 6); [lia|].
  change (nth 0 _ 0) with FORMAT_VERSION. change (nth 3 _ 0) with 0. change (nth 2 _ 0) with (Profile.to_u8 p).
  change (nth 1 _ 0) with (FrameKind.to_u8 kind). change (nth 4 _ 0) with (n / 256 mod 256).
  change (nth 5 _ 0) with (n mod 256). rewrite Hn. cbn [orb negb Z.eqb Pos.eqb FORMAT_VERSION].
  assert (Hp : Profile.from_id (Profile.to_u8 p) = Ok p) by (by destruct p). rewrite Hp. res_simpl.
  rewrite bool_decide_true by done. cbn [negb].
  destruct (Z.ltb_spec (6 + n + len padding) (6 + n)); [lia|].
  destruct kind; cbn [FrameKind.to_u8 Z.eqb andb].
  - unfold n. by rewrite Hcover.
  - rewrite slice_app; [done|done|]. by fold n.
Qed.

Lemma matches_routing_tag_spec key p d epoch route :
  matches_routing_tag key p d epoch route = true <->
  exists e, e ∈ accepted_epochs epoch /\ routing_tag_at key p d e = route.
Proof.
  unfold matches_routing_tag. rewrite existsb_exists. unfold accepted_epochs.
  setoid_rewrite bool_decide_eq_true. setoid_rewrite list_elem_of_In. simpl.
  split; intros (e & Hin & He); exists e; tauto.
Qed.

(** An inner header that is accepted is one the encoder writes. *)
Lemma decode_plain_sound p output f out :
  is_bytes output -> decode_plain p output = Ok (f, out) ->
  exists kind padding,
    output = frame_header kind p (len out) ++ out ++ padding /\
    f = match kind with FrameKind.Cover => DecodedFrame.Cover p | FrameKind.Payload => DecodedFrame.Payload p end.
Proof.
  intros Hb. unfold decode_plain. destruct (Z.ltb_spec (len output) 6) as [|Hlen]; [done|].
  do 6 (destruct output as [|? output]; [exfalso; len_lia|]). cbn [nth orb].
  unfold is_bytes in Hb. rewrite !Forall_cons_iff in Hb. destruct Hb as (_ & _ & _ & _ & Hz4 & Hz5 & Hb).
  case_if; [done|]. intros (profile & Hp & H)%bind_ok. revert H.
  case_if; [done|]. case_if; [done|]. boolify. subst profile.
  assert (Hz1 : z1 = Profile.to_u8 p).
  { unfold Profile.from_id in Hp. repeat case_match; simplify_eq; done. }
  set (n := be_value [z3; z4]) in *. assert (Hn : n = z3 * 256 + z4) by (unfold n, be_value; simpl; lia).
  unfold uint in Hz4, Hz5. pose proof (len_nonneg output). rewrite !len_cons in *.
  assert (Hhi : n / 256 mod 256 = z3).
  { rewrite Hn, Z.add_comm, Z.div_add, (Z.div_small z4), Z.add_0_l, Z.mod_small; lia. }
  assert (Hlo : n mod 256 = z4) by (rewrite Hn, Z.add_comm, Z_mod_plus_full, Z.mod_small; lia).
  destruct ((z0 =? 0) && (n =? 0)) eqn:Hcover.
  - intros [= <- <-]. exists FrameKind.Cover, output. boolify. split; [|done].
    assert (z3 = 0 /\ z4 = 0) as [-> ->] by lia. unfold frame_header. simpl. by subst.
  - destruct (Z.eqb_spec z0 1); [|done].
    intros (inner & Hs & [= <- <-])%bind_ok. exists FrameKind.Payload, (drop (Z.to_nat n) output).
    rewrite slice_ok in Hs by (rewrite ?len_cons; lia). injection Hs as <-.
    rewrite len_sub_list by (rewrite ?len_cons; lia). replace (6 + n - 6) with n by lia.
    unfold frame_header, sub_list. rewrite Hhi, Hlo. change (Z.to_nat 6) with 6%nat. simpl drop.
    replace (6 + n - 6) with n by lia. split; [|done]. simplify_eq. simpl. repeat f_equal.
    by rewrite take_drop.
Qed.

End MorphLemmas.

Section MorphTheorems.
Context `{P : Primitives, PL : !PrimitiveLaws}.

Lemma routing_tag_len key p d e : len (routing_tag_at key p d e) = 8.
Proof. unfold routing_tag_at, ROUTING_TAG_LEN. rewrite len_sub_list; rewrite ?hmac_len; lia. Qed.

Lemma epoch_seconds_pos p : 1 <= Profile.epoch_seconds p.
Proof. by destruct p. Qed.

(** Neighbouring epochs are accepted; the saturations are never reached by a clock
    that counts 64-bit seconds. *)
Lemma neighbour_epoch_accepted e e' :
  0 <= e <= u64_max -> 0 <= e' <= u64_max -> Z.abs (e - e') <= 1 -> e ∈ accepted_epochs e'.
Proof.
  intros. unfold accepted_epochs, sat_sub, sat_add64. apply list_elem_of_In. simpl.
  destruct (Z.eq_dec e e'); [right; left; lia|]. destruct (Z.lt_ge_cases e e'); [left|right; right; left]; lia.
Qed.

Lemma encode_frame_fits clock random key p kind inner d frame :
  encode_frame clock random key p kind inner d = Ok frame -> MIN_FRAME_LEN + len inner <= MAX_DATAGRAM_LEN.
Proof.
  unfold encode_frame. destruct (Z.ltb_spec 65535 (len inner)); [done|].
  destruct (Z.ltb_spec MAX_DATAGRAM_LEN (MIN_FRAME_LEN + len inner)); [done|]. lia.
Qed.

Lemma encode_frame_total t random key p kind inner d :
  MIN_FRAME_LEN + len inner <= MAX_DATAGRAM_LEN -> len random = FRAME_RANDOM_LEN -> len key = 32 ->
  exists nonce padding c a,
    let route := routing_tag_at key p d (t / Profile.epoch_seconds p) in
    encode_frame (Some t) (Some random) key p kind inner d = Ok (route ++ nonce ++ c ++ a) /\
    chacha_seal key nonce (associated_data route d) (frame_header kind p (len inner) ++ inner ++ padding)
      = Some (c, a) /\
    len nonce = 12 /\ len a = 16 /\ len c = 6 + len inner + len padding /\
    len padding = frame_padding_len random inner.
Proof.
  intros Hmin Hr Hk.
  destruct (encode_frame_eq t random key p kind inner d Hmin Hr Hk hmac_len) as (_ & Hn & Hpad & Heq).
  set (nonce := sub_list random 0 12) in *. set (padding := sub_list random 14 _) in *.
  set (route := routing_tag_at _ _ _ _) in *.
  destruct (chacha_seal_total key nonce (associated_data route d)
    (frame_header kind p (len inner) ++ inner ++ padding) Hk Hn) as (c & a & Hs & Hc & Ha).
  exists nonce, padding, c, a. rewrite Heq, Hs. split_and!; try done.
  rewrite Hc, !len_app. change (len (frame_header kind p (len inner))) with 6. lia.
Qed.

Lemma encode_frame_no_panic clock random key p kind inner d :
  match random with Some r => len r = FRAME_RANDOM_LEN | None => True end ->
  no_panic (encode_frame clock random key p kind inner d).
Proof.
  intros Hr. unfold encode_frame. case_if; [done|].
  destruct (Z.ltb_spec MAX_DATAGRAM_LEN (MIN_FRAME_LEN + len inner)) as [|Hmax]; [done|].
  destruct clock as [t|]; [|done]. destruct random as [r|]; [|done].
  destruct (frame_padding_bounds r inner Hmax) as [Hpad _].
  unfold current_epoch, frame_padding_len in *. cbn [ok_or mbind res_bind]. morph_consts.
  pose proof (len_nonneg inner). rewrite slice_ok by lia. res_simpl. rewrite !index_ok by lia.
  rewrite !index_ok by (rewrite len_be_bytes; lia). change (Z.to_nat 12) with 12%nat.
  change (Z.to_nat 13) with 13%nat. rewrite slice_ok by lia. case_if; [done|].
  pose proof (routing_tag_len key p d (t / Profile.epoch_seconds p)).
  rewrite !slice_ok by (len_lia || (rewrite ?len_app, ?len_sub_list by lia; len_lia)).
  by destruct (chacha_seal _ _ _ _) as [[]|].
Qed.

(** What the wrapped frame looks like and how it decodes. *)
Lemma wrapped_frame_roundtrip t t' random key p kind inner d :
  u64 t -> u64 t' -> Z.abs (t / Profile.epoch_seconds p - t' / Profile.epoch_seconds p) <= 1 ->
  len random = FRAME_RANDOM_LEN -> len key = 32 ->
  MIN_FRAME_LEN + len inner <= MAX_DATAGRAM_LEN -> (kind = FrameKind.Cover -> inner = []) ->
  exists frame,
    encode_frame (Some t) (Some random) key p kind inner d = Ok frame /\
    get_range frame 0 8 = Some (routing_tag_at key p d (t / Profile.epoch_seconds p)) /\
    MIN_FRAME_LEN + len inner <= len frame <=
      Z.min MAX_DATAGRAM_LEN (MIN_FRAME_LEN + len inner + MAX_RANDOM_PADDING) /\
    decode_frame (Some t') key p frame d =
    Ok match kind with
       | FrameKind.Cover => (DecodedFrame.Cover p, [])
       | FrameKind.Payload => (DecodedFrame.Payload p, inner)
       end.
Proof.
  intros Ht Ht' Hskew Hr Hk Hmin Hcover. pose proof (len_nonneg inner).
  destruct (encode_frame_total t random key p kind inner d Hmin Hr Hk)
    as (nonce & padding & c & a & Henc & Hs & Hn & Ha & Hc & Hpad).
  pose proof (frame_padding_bounds random inner Hmin) as [Hp1 Hp2].
  pose proof (routing_tag_len key p d (t / Profile.epoch_seconds p)) as Hroute.
  set (route := routing_tag_at _ _ _ _) in *. rewrite Henc.
  eexists. split; [reflexivity|]. morph_consts. split.
  { apply get_range_app_l. lia. }
  split; [rewrite !len_app; lia|].
  rewrite decode_frame_eq by (morph_consts; lia).
  assert (Hm : matches_routing_tag key p d (t' / Profile.epoch_seconds p) route = true).
  { apply matches_routing_tag_spec. exists (t / Profile.epoch_seconds p). split; [|done].
    pose proof (epoch_seconds_pos p). by apply neighbour_epoch_accepted; [apply epoch_u64..|]. }
  rewrite Hm. cbn [negb]. rewrite (chacha_open_seal _ _ _ _ _ _ Hs). cbn [ok_or mbind res_bind].
  apply decode_plain_header; [lia|done].
Qed.

(** A MouseMorph frame carries what was wrapped: every datagram of at most
    1430 bytes is encoded, into a frame of the datagram's size plus 42 to 73 bytes
    and never above 1472, and a peer with the same key and profile whose clock is at
    most one epoch away unwraps exactly the datagram, or recognises the cover. *)
Theorem morph_frame_roundtrip t t' random key p kind inner d :
  u64 t -> u64 t' -> Z.abs (t / Profile.epoch_seconds p - t' / Profile.epoch_seconds p) <= 1 ->
  len random = FRAME_RANDOM_LEN -> len key = 32 ->
  MIN_FRAME_LEN + len inner <= MAX_DATAGRAM_LEN -> (kind = FrameKind.Cover -> inner = []) ->
  exists frame,
    encode_frame (Some t) (Some random) key p kind inner d = Ok frame /\
    MIN_FRAME_LEN + len inner <= len frame <=
      Z.min MAX_DATAGRAM_LEN (MIN_FRAME_LEN + len inner + MAX_RANDOM_PADDING) /\
    decode_frame (Some t') key p frame d =
    Ok match kind with
       | FrameKind.Cover => (DecodedFrame.Cover p, [])
       | FrameKind.Payload => (DecodedFrame.Payload p, inner)
       end.
Proof.
  intros Ht Ht' Hskew Hr Hk Hmin Hcover.
  destruct (wrapped_frame_roundtrip t t' random key p kind inner d) as (frame & He & _ & H); eauto.
Qed.

(** Every input in the size range splits into the parts of a frame. *)
Lemma frame_split (input : bytes) :
  MIN_FRAME_LEN <= len input ->
  exists route nonce c a, input = route ++ nonce ++ c ++ a /\
    len route = 8 /\ len nonce = 12 /\ len a = 16 /\ 6 <= len c.
Proof.
  intros Hlo. morph_consts.
  exists (take 8 input), (take 12 (drop 8 input)),
    (take (length input - 36) (drop 20 input)), (drop (length input - 16) input).
  unfold len in *. rewrite ?length_take, ?length_drop. split_and!; try lia.
  rewrite <- (take_drop 8 input) at 1. f_equal.
  rewrite <- (take_drop 12 (drop 8 input)) at 1. f_equal. rewrite drop_drop.
  rewrite <- (take_drop (length input - 36) (drop (8 + 12) input)) at 1. f_equal.
  rewrite drop_drop. f_equal. lia.
Qed.

(** Without a clock or with a key of another size nothing is accepted. *)
Lemma decode_frame_guards clock key p input d :
  clock = None \/ len key <> 32 \/ ~ MIN_FRAME_LEN <= len input <= MAX_DATAGRAM_LEN ->
  exists e, decode_frame clock key p input d = Err e.
Proof.
  intros Hbad. unfold decode_frame.
  destruct (Z.ltb_spec (len input) MIN_FRAME_LEN) as [|Hlo]; [by eauto|].
  destruct (Z.ltb_spec MAX_DATAGRAM_LEN (len input)) as [|Hhi]; [by eauto|].
  destruct (frame_split input Hlo) as (route & nonce & c & a & -> & Hroute & Hnonce & Ha & Hc).
  morph_consts. rewrite slice_app_l by done. res_simpl. rewrite try_into_array_ok by done.
  destruct clock as [t|]; simpl; [|by eauto]. destruct Hbad as [?|[Hk|?]]; [done| |lia].
  case_if; [by eauto|]. rewrite slice_app by lia. rewrite try_into_array_ok by done.
  rewrite (app_assoc route nonce), slice_app by (rewrite ?len_app; lia).
  destruct (Z.eqb_spec (len key) 32); [done|by eauto].
Qed.

Lemma decode_plain_no_panic p output : is_bytes output -> no_panic (decode_plain p output).
Proof.
  intros Hb. unfold decode_plain. case_if; [done|]. apply no_panic_bind.
  { unfold Profile.from_id. by repeat case_match. }
  intros profile _. repeat case_if; try done. boolify.
  assert (0 <= be_value [nth 4 output 0; nth 5 output 0]).
  { apply be_value_bound. repeat constructor; try apply is_bytes_nth; done. }
  rewrite slice_ok by lia. done.
Qed.

(** Unwrapping either fails, or opens the frame and reads the plaintext. *)
Lemma decode_frame_cases clock key p input d :
  (exists e, decode_frame clock key p input d = Err e) \/
  (exists t e route nonce c a output,
     clock = Some t /\ input = route ++ nonce ++ c ++ a /\
     len route = 8 /\ len nonce = 12 /\ len a = 16 /\ MIN_FRAME_LEN <= len input <= MAX_DATAGRAM_LEN /\
     e ∈ accepted_epochs (t / Profile.epoch_seconds p) /\ route = routing_tag_at key p d e /\
     chacha_open key nonce (route ++ [Direction.to_u8 d]) c a = Some output /\
     decode_frame clock key p input d = decode_plain p output).
Proof.
  destruct (decide (clock = None \/ len key <> 32 \/ ~ MIN_FRAME_LEN <= len input <= MAX_DATAGRAM_LEN))
    as [Hbad|Hgood].
  { left. by apply decode_frame_guards. }
  destruct clock as [t|]; [|tauto]. assert (Hk : len key = 32) by (apply dec_stable; tauto).
  assert (Hlen : MIN_FRAME_LEN <= len input <= MAX_DATAGRAM_LEN) by (apply dec_stable; tauto). clear Hgood.
  destruct (frame_split input (proj1 Hlen)) as (route & nonce & c & a & -> & Hroute & Hnonce & Ha & Hc).
  rewrite decode_frame_eq by (rewrite !len_app in Hlen; morph_consts; lia).
  destruct (matches_routing_tag _ _ _ _ _) eqn:Hm; [|left; by eauto]. cbn [negb].
  apply matches_routing_tag_spec in Hm as (e & He & Hroute_eq).
  destruct (chacha_open _ _ _ _ _) as [output|] eqn:Ho; [|left; by eauto]. cbn [ok_or mbind res_bind].
  rewrite associated_data_eq in Ho by done. right.
  exists t, e, route, nonce, c, a, output. destruct Hlen. by split_and!.
Qed.

Lemma decode_frame_no_panic clock key p input d : is_bytes input -> no_panic (decode_frame clock key p input d).
Proof.
  intros Hb. destruct (decode_frame_cases clock key p input d)
    as [[e ->]|(t & e & route & nonce & c & a & output & _ & -> & _ & _ & _ & _ & _ & _ & Ho & ->)]; [done|].
  apply decode_plain_no_panic. rewrite !is_bytes_app in Hb. eapply chacha_open_bytes; [|exact Ho]. tauto.
Qed.

Lemma decode_frame_bytes clock key p input d f out :
  is_bytes input -> decode_frame clock key p input d = Ok (f, out) -> is_bytes out.
Proof.
  intros Hb. destruct (decode_frame_cases clock key p input d)
    as [[e ->]|(t & e & route & nonce & c & a & output & _ & -> & _ & _ & _ & _ & _ & _ & Ho & ->)]; [done|].
  rewrite !is_bytes_app in Hb. apply chacha_open_bytes in Ho; [|tauto]. intros Hd.
  destruct (decode_plain_sound p output f out Ho Hd) as (kind & padding & -> & _).
  rewrite !is_bytes_app in Ho. tauto.
Qed.

(** Unwrapping is sound on arbitrary bytes: it never aborts; a frame is only
    accepted when its size is between 42 and 1472, its clear tag is the tag of the
    previous, current or next epoch, and the rest authenticates under the key with
    tag and direction as associated data; and what is returned is the datagram
    announced by the authenticated header. *)
Theorem morph_decode_sound clock key p input d :
  is_bytes input ->
  match decode_frame clock key p input d with
  | Ok (f, out) =>
      exists t e route nonce c a kind padding,
        clock = Some t /\ input = route ++ nonce ++ c ++ a /\
        len route = 8 /\ len nonce = 12 /\ len a = 16 /\ MIN_FRAME_LEN <= len input <= MAX_DATAGRAM_LEN /\
        e ∈ accepted_epochs (t / Profile.epoch_seconds p) /\ route = routing_tag_at key p d e /\
        chacha_open key nonce (route ++ [Direction.to_u8 d]) c a =
          Some (frame_header kind p (len out) ++ out ++ padding) /\
        f = match kind with
            | FrameKind.Cover => DecodedFrame.Cover p
            | FrameKind.Payload => DecodedFrame.Payload p
            end
  | Err _ => True
  | Panic => False
  end.
Proof.
  intros Hb. destruct (decode_frame_cases clock key p input d)
    as [[e ->]|(t & e & route & nonce & c & a & output & -> & -> & Hr & Hn & Ha & Hlen & He & Heq & Ho & ->)]; [done|].
  assert (Hout : is_bytes output).
  { rewrite !is_bytes_app in Hb. eapply chacha_open_bytes; [|exact Ho]. tauto. }
  pose proof (decode_plain_no_panic p output Hout).
  destruct (decode_plain p output) as [[f out]|err|] eqn:Hd; [|done..].
  destruct (decode_plain_sound p output f out Hout Hd) as (kind & padding & -> & ->).
  exists t, e, route, nonce, c, a, kind, padding. destruct Hlen. by split_and!.
Qed.

(** The window of accepted routing tags is exactly the previous, current and
    next epoch, although the code tries the current one first. *)
Theorem matches_routing_tag_iff key p d epoch route :
  matches_routing_tag key p d epoch route = true <->
  exists e, e ∈ accepted_epochs epoch /\ routing_tag_at key p d e = route.
Proof. apply matches_routing_tag_spec. Qed.

(** Cover counts and handshake delays stay within the ranges of the profile. *)
Theorem cover_bounds p random n :
  (cover_count p random = Ok n ->
   match p with Profile.Quiet => n = 0 | Profile.Balanced => 1 <= n <= 2 | Profile.Paranoid => 3 <= n <= 5 end) /\
  (handshake_jitter_ms p random = Ok n ->
   match p with Profile.Quiet => n = 0 | Profile.Balanced => 1 <= n <= 4 | Profile.Paranoid => 2 <= n <= 12 end).
Proof.
  destruct p; simpl; split; try congruence; apply random_inclusive_bounds; lia.
Qed.

End MorphTheorems.

(** ** Witnesses *)

Import Toy.

Lemma morph_frame_roundtrip_witness :
  exists frame,
    encode_frame (Some 1000) (Some (replicate 45 7)) (replicate 32 5) Profile.Balanced FrameKind.Payload
      [1; 2; 3] Direction.ClientToServer = Ok frame /\
    decode_frame (Some 1004) (replicate 32 5) Profile.Balanced frame Direction.ClientToServer =
    Ok (DecodedFrame.Payload Profile.Balanced, [1; 2; 3]).
Proof.
  destruct (morph_frame_roundtrip 1000 1004 (replicate 45 7) (replicate 32 5) Profile.Balanced
    FrameKind.Payload [1; 2; 3] Direction.ClientToServer) as (frame & He & _ & Hd).
  - unfold uint; lia.
  - unfold uint; lia.
  - vm_compute. congruence.
  - reflexivity.
  - reflexivity.
  - vm_compute. congruence.
  - discriminate.
  - exists frame. split; [exact He|exact Hd].
Defined.

Definition toy_frame : bytes :=
  match encode_frame (Some 1000) (Some (replicate 45 7)) (replicate 32 5) Profile.Balanced FrameKind.Payload
          [1; 2; 3] Direction.ClientToServer with Ok f => f | _ => [] end.

Lemma morph_decode_sound_witness :
  match decode_frame (Some 1004) (replicate 32 5) Profile.Balanced toy_frame Direction.ClientToServer with
  | Ok (f, out) => out = [1; 2; 3] /\ MIN_FRAME_LEN <= len toy_frame <= MAX_DATAGRAM_LEN
  | _ => False
  end.
Proof.
  assert (Hb : is_bytes toy_frame) by (apply is_bytes_check; vm_compute; reflexivity).
  pose proof (morph_decode_sound (Some 1004) (replicate 32 5) Profile.Balanced toy_frame
    Direction.ClientToServer Hb) as H.
  assert (Hok : decode_frame (Some 1004) (replicate 32 5) Profile.Balanced toy_frame Direction.ClientToServer =
    Ok (DecodedFrame.Payload Profile.Balanced, [1; 2; 3])) by (vm_compute; reflexivity).
  rewrite Hok in H |- *. destruct H as (t & e & route & nonce & c & a & k & pad & H).
  split; [reflexivity|apply H].
Defined.
