(* ===== verification/Speedy.v ===== *)
(** * The Speedy wire mode of crates/speedy

    A Speedy frame is a routing tag, the Noise datagram with its 20-byte header
    masked, and a truncated keyed hash over both.  The codec memoises the routing
    tags of one epoch behind a mutex shared by its clones; the cache is part of the
    state here, and the theorems show that it never changes a result.  Every
    operation clears the caller's buffer first, so the buffer is returned on error
    paths too. *)

From S2P Require Import Prelude Protocol Replay Crypto ToyCrypto DataPlane.

Module Speedy.

Definition ROUTING_TAG_LEN : Z := 8.
Definition AUTH_TAG_LEN : Z := 16.
Definition SAMPLE_LEN : Z := 16.
Definition OVERHEAD : Z := ROUTING_TAG_LEN + AUTH_TAG_LEN.
Definition MAX_DATAGRAM_LEN : Z := 1452.
Definition MAX_INNER_DATAGRAM_LEN : Z := MAX_DATAGRAM_LEN - OVERHEAD.
Definition SAFE_TUN_MTU : Z := 1391.
Definition EPOCH_SECONDS : Z := 10.
Definition MIN_FRAME_LEN : Z := OVERHEAD + Header.HEADER_LEN + SAMPLE_LEN.

Module Direction.

Inductive t := ClientToServer | ServerToClient.

#[global] Instance eq_dec : EqDecision t.
Proof. solve_decision. Defined.

Definition to_u8 (d : t) : Z := match d with ClientToServer => 0 | ServerToClient => 1 end.

End Direction.

Module SpeedyError.

Inductive t :=
| InvalidLength
| InvalidHeader
| UnknownRoutingTag
| Authentication
| Clock
| Cache.

#[global] Instance eq_dec : EqDecision t.
Proof. solve_decision. Defined.

End SpeedyError.

Record DirectionKeys := mkDirectionKeys { dk_route : bytes; dk_mask : bytes; dk_auth : bytes }.

(** A two-element array indexed by [direction as usize]. *)
Record by_direction (A : Type) := both { to_server : A; to_client : A }.
Arguments both {A} _ _.
Arguments to_server {A} _.
Arguments to_client {A} _.

Definition at_direction {A} (b : by_direction A) (d : Direction.t) : A :=
  match d with Direction.ClientToServer => to_server b | Direction.ServerToClient => to_client b end.

(** The tags are those of the current, previous and next epoch. *)
Record RouteCache := mkRouteCache { rc_epoch : Z; rc_tags : by_direction (list bytes) }.

Record SpeedyCodec := mkSpeedyCodec {
  sc_secrets : by_direction DirectionKeys;
  sc_routes : option RouteCache;
}.

Definition accepted_epochs (epoch : Z) : list Z :=
  [epoch; sat_sub epoch 1; sat_add64 epoch 1].

Definition current_epoch (clock : option Z) : res SpeedyError.t Z :=
  seconds ← ok_or clock SpeedyError.Clock; Ok (seconds / EPOCH_SECONDS).

Definition validate_inner (inner : bytes) (direction : Direction.t) : res SpeedyError.t unit :=
  if negb ((Header.HEADER_LEN + SAMPLE_LEN <=? len inner) && (len inner <=? MAX_INNER_DATAGRAM_LEN))
  then Err SpeedyError.InvalidLength
  else
    packet ← map_err (fun _ => SpeedyError.InvalidHeader) (Datagram.decode inner);
    if negb (Header.flags (Datagram.header packet) =? 0) then Err SpeedyError.InvalidHeader
    else
      match Header.kind (Datagram.header packet), direction with
      | PacketKind.Data, _ | PacketKind.Keepalive, _ => Ok tt
      | PacketKind.HandshakeInit, Direction.ClientToServer
      | PacketKind.HandshakeResponse, Direction.ServerToClient =>
          if Header.sequence (Datagram.header packet) =? 0 then Ok tt else Err SpeedyError.InvalidHeader
      | _, _ => Err SpeedyError.InvalidHeader
      end.

(** [for (byte, mask) in bytes.iter_mut().zip(mask) { *byte ^= mask }] *)
Fixpoint xor_zip (l mask : bytes) : bytes :=
  match l, mask with
  | b :: l, m :: mask => Z.lxor b m :: xor_zip l mask
  | l, _ => l
  end.

Section Codec.
Context `{P : Primitives}.

Definition derive (key : bytes) (direction : Direction.t) (purpose : Z) : res SpeedyError.t bytes :=
  match hkdf_expand key [83; 80; 1; Direction.to_u8 direction; purpose] 32 with
  | Some output => Ok output
  | None => Panic
  end.

Definition derive_keys (key : bytes) (direction : Direction.t) : res SpeedyError.t DirectionKeys :=
  route ← derive key direction 0;
  mask ← derive key direction 1;
  auth ← derive key direction 2;
  Ok (mkDirectionKeys route mask auth).

Definition SpeedyCodec_new (key : bytes) : res SpeedyError.t SpeedyCodec :=
  c2s ← derive_keys key Direction.ClientToServer;
  s2c ← derive_keys key Direction.ServerToClient;
  Ok (mkSpeedyCodec (both c2s s2c) None).

Definition routing_tag_at (c : SpeedyCodec) (direction : Direction.t) (epoch : Z) : bytes :=
  sub_list (hmac_sha256 (dk_route (at_direction (sc_secrets c) direction))
              ((ascii_bytes "Speedy v1 route" ++ [0]) ++ be_bytes 8 epoch)) 0 ROUTING_TAG_LEN.

(** [tags]: refreshes the cache when it is empty or of another epoch. *)
Definition tags (c : SpeedyCodec) (direction : Direction.t) (epoch : Z) : SpeedyCodec * list bytes :=
  let stale := match sc_routes c with None => true | Some cached => negb (rc_epoch cached =? epoch) end in
  let fresh :=
    mkRouteCache epoch
      (both (map (routing_tag_at c Direction.ClientToServer) (accepted_epochs epoch))
            (map (routing_tag_at c Direction.ServerToClient) (accepted_epochs epoch))) in
  let cache := match sc_routes c with Some cached => if stale then fresh else cached | None => fresh end in
  (mkSpeedyCodec (sc_secrets c) (Some cache), at_direction (rc_tags cache) direction).

Definition header_mask (c : SpeedyCodec) (direction : Direction.t) (route inner : bytes)
    : res SpeedyError.t bytes :=
  last ← slice inner (len inner - SAMPLE_LEN) (len inner);
  let sample := zeros (ROUTING_TAG_LEN + SAMPLE_LEN) in
  let sample := copy_at sample 0 route in
  let sample := copy_at sample ROUTING_TAG_LEN last in
  Ok (blake3_keyed_hash (dk_mask (at_direction (sc_secrets c) direction)) sample).

(** The frame that [encode_at] builds once the datagram is validated. *)
Definition mask_frame (c : SpeedyCodec) (inner : bytes) (direction : Direction.t) (tags : list bytes)
    : res SpeedyError.t bytes :=
  let route := nth 0 tags [] in
  mask ← header_mask c direction route inner;
  let output := [] ++ route in
  let output := output ++ inner in
  prefix ← slice output 0 ROUTING_TAG_LEN;
  header ← slice output ROUTING_TAG_LEN (ROUTING_TAG_LEN + Header.HEADER_LEN);
  rest ← slice output (ROUTING_TAG_LEN + Header.HEADER_LEN) (len output);
  let output := prefix ++ xor_zip header mask ++ rest in
  let mac := blake3_keyed_hash (dk_auth (at_direction (sc_secrets c) direction)) output in
  tag ← slice mac 0 AUTH_TAG_LEN;
  Ok (output ++ tag).

Definition encode_at (c : SpeedyCodec) (inner : bytes) (direction : Direction.t) (epoch : Z)
    : SpeedyCodec * bytes * res SpeedyError.t unit :=
  match validate_inner inner direction with
  | Err e => (c, [], Err e)
  | Panic => (c, [], Panic)
  | Ok _ =>
      let '(c, tags) := tags c direction epoch in
      match mask_frame c inner direction tags with
      | Err e => (c, [], Err e)
      | Panic => (c, [], Panic)
      | Ok output => (c, output, Ok tt)
      end
  end.

Definition encode (clock : option Z) (c : SpeedyCodec) (inner : bytes) (direction : Direction.t)
    : SpeedyCodec * bytes * res SpeedyError.t unit :=
  match current_epoch clock with
  | Err e => (c, [], Err e)
  | Panic => (c, [], Panic)
  | Ok epoch => encode_at c inner direction epoch
  end.

(** Tag lookup, authentication and unmasking of a frame of admissible size. *)
Definition unmask_frame (c : SpeedyCodec) (input : bytes) (direction : Direction.t) (tags : list bytes)
    : res SpeedyError.t bytes :=
  route ← slice input 0 ROUTING_TAG_LEN;
  if negb (bool_decide (route ∈ tags)) then Err SpeedyError.UnknownRoutingTag
  else
    let end_ := len input - AUTH_TAG_LEN in
    covered ← slice input 0 end_;
    let mac := blake3_keyed_hash (dk_auth (at_direction (sc_secrets c) direction)) covered in
    expected ← slice mac 0 AUTH_TAG_LEN;
    actual ← slice input end_ (len input);
    if negb (bool_decide (expected = actual)) then Err SpeedyError.Authentication
    else
      inner ← slice input ROUTING_TAG_LEN end_;
      mask ← header_mask c direction route inner;
      let output := [] ++ inner in
      header ← slice output 0 Header.HEADER_LEN;
      rest ← slice output Header.HEADER_LEN (len output);
      Ok (xor_zip header mask ++ rest).

Definition decode_at (c : SpeedyCodec) (input : bytes) (direction : Direction.t) (epoch : Z)
    : SpeedyCodec * bytes * res SpeedyError.t unit :=
  if negb ((MIN_FRAME_LEN <=? len input) && (len input <=? MAX_DATAGRAM_LEN))
  then (c, [], Err SpeedyError.InvalidLength)
  else
    let '(c, tags) := tags c direction epoch in
    match unmask_frame c input direction tags with
    | Err e => (c, [], Err e)
    | Panic => (c, [], Panic)
    | Ok output =>
        match validate_inner output direction with
        | Err error => (c, [], Err error)
        | Panic => (c, output, Panic)
        | Ok _ => (c, output, Ok tt)
        end
    end.

Definition decode (clock : option Z) (c : SpeedyCodec) (input : bytes) (direction : Direction.t)
    : SpeedyCodec * bytes * res SpeedyError.t unit :=
  match current_epoch clock with
  | Err e => (c, [], Err e)
  | Panic => (c, [], Panic)
  | Ok epoch => decode_at c input direction epoch
  end.

End Codec.

(** ** Masking *)

Lemma len_xor_zip l mask : len (xor_zip l mask) = len l.
Proof.
  revert mask; induction l as [|b l IH]; intros [|m mask]; simpl; try done.
  by rewrite !len_cons, IH.
Qed.

Lemma xor_zip_involutive l mask : xor_zip (xor_zip l mask) mask = l.
Proof.
  revert mask; induction l as [|b l IH]; intros [|m mask]; simpl; try done.
  rewrite IH. f_equal. by rewrite Z.lxor_assoc, Z.lxor_nilpotent, Z.lxor_0_r.
Qed.

(** ** The tag cache *)

Section Cache.
Context `{P : Primitives}.

(** The tags computed directly. *)
Definition tags_of (c : SpeedyCodec) (d : Direction.t) (epoch : Z) : list bytes :=
  map (routing_tag_at c d) (accepted_epochs epoch).

(** A cache only holds tags of its own epoch and keys. *)
Definition cache_ok (c : SpeedyCodec) : Prop :=
  match sc_routes c with
  | None => True
  | Some cached => forall d, at_direction (rc_tags cached) d = tags_of c d (rc_epoch cached)
  end.

Lemma tags_spec c d epoch :
  cache_ok c ->
  let '(c', t) := tags c d epoch in
  sc_secrets c' = sc_secrets c /\ cache_ok c' /\ t = tags_of c d epoch.
Proof.
  intros Hc. unfold tags. split; [done|].
  destruct (sc_routes c) as [cached|] eqn:Hr.
  - destruct (Z.eqb_spec (rc_epoch cached) epoch) as [He|]; simpl.
    + unfold cache_ok in Hc |- *. rewrite Hr in Hc. simpl. split; [exact Hc|]. by rewrite Hc, He.
    + split; [intros []; done|]. by destruct d.
  - split; [intros []; done|]. by destruct d.
Qed.

Lemma routing_tag_at_secrets c c' d e :
  sc_secrets c = sc_secrets c' -> routing_tag_at c d e = routing_tag_at c' d e.
Proof. unfold routing_tag_at. by intros ->. Qed.

Lemma tags_of_secrets c c' d e : sc_secrets c = sc_secrets c' -> tags_of c d e = tags_of c' d e.
Proof. intros H. unfold tags_of. apply map_ext. intros. by apply routing_tag_at_secrets. Qed.

Lemma mask_frame_secrets c c' inner d t :
  sc_secrets c = sc_secrets c' -> mask_frame c inner d t = mask_frame c' inner d t.
Proof. unfold mask_frame, header_mask. by intros ->. Qed.

Lemma unmask_frame_secrets c c' input d t :
  sc_secrets c = sc_secrets c' -> unmask_frame c input d t = unmask_frame c' input d t.
Proof. unfold unmask_frame, header_mask. by intros ->. Qed.

(** The results without any cache. *)
Definition encode_ref (c : SpeedyCodec) (inner : bytes) (d : Direction.t) (epoch : Z)
    : bytes * res SpeedyError.t unit :=
  match (_ ← validate_inner inner d; mask_frame c inner d (tags_of c d epoch)) with
  | Ok output => (output, Ok tt)
  | Err e => ([], Err e)
  | Panic => ([], Panic)
  end.

Definition decode_ref (c : SpeedyCodec) (input : bytes) (d : Direction.t) (epoch : Z)
    : bytes * res SpeedyError.t unit :=
  if negb ((MIN_FRAME_LEN <=? len input) && (len input <=? MAX_DATAGRAM_LEN))
  then ([], Err SpeedyError.InvalidLength)
  else
    match (output ← unmask_frame c input d (tags_of c d epoch); _ ← validate_inner output d; Ok output) with
    | Ok output => (output, Ok tt)
    | Err e => ([], Err e)
    | Panic => ([], Panic)
    end.

Lemma validate_inner_no_panic inner d : no_panic (validate_inner inner d).
Proof.
  unfold validate_inner. case_if; [done|]. apply no_panic_bind.
  - apply no_panic_map_err, datagram_decode_no_panic.
  - intros dg _. by repeat case_match.
Qed.

Lemma encode_at_ref c inner d epoch :
  cache_ok c ->
  let '(c', output, r) := encode_at c inner d epoch in
  sc_secrets c' = sc_secrets c /\ cache_ok c' /\ (output, r) = encode_ref c inner d epoch.
Proof.
  intros Hc. unfold encode_at, encode_ref.
  destruct (validate_inner inner d); [|done..]. res_simpl.
  pose proof (tags_spec c d epoch Hc) as Ht. destruct (tags c d epoch) as [c' t].
  destruct Ht as (Hs & Hc' & ->). rewrite (mask_frame_secrets c' c) by done.
  by destruct (mask_frame _ _ _ _).
Qed.

Lemma decode_at_ref c input d epoch :
  cache_ok c ->
  let '(c', output, r) := decode_at c input d epoch in
  sc_secrets c' = sc_secrets c /\ cache_ok c' /\ (output, r) = decode_ref c input d epoch.
Proof.
  intros Hc. unfold decode_at, decode_ref. case_if; [done|].
  pose proof (tags_spec c d epoch Hc) as Ht. destruct (tags c d epoch) as [c' t].
  destruct Ht as (Hs & Hc' & ->). rewrite (unmask_frame_secrets c' c) by done.
  destruct (unmask_frame _ _ _ _) as [output|e|]; [|done..]. res_simpl.
  pose proof (validate_inner_no_panic output d). by destruct (validate_inner output d).
Qed.

(** One use of a codec or of any of its clones, which share the cache. *)
Inductive codec_call :=
| Encode (inner : bytes) (d : Direction.t) (epoch : Z)
| Decode (input : bytes) (d : Direction.t) (epoch : Z).

Fixpoint codec_run (c : SpeedyCodec) (calls : list codec_call) : list (bytes * res SpeedyError.t unit) :=
  match calls with
  | [] => []
  | Encode inner d epoch :: calls =>
      let '(c, output, r) := encode_at c inner d epoch in (output, r) :: codec_run c calls
  | Decode input d epoch :: calls =>
      let '(c, output, r) := decode_at c input d epoch in (output, r) :: codec_run c calls
  end.

Definition codec_ref (c : SpeedyCodec) (call : codec_call) : bytes * res SpeedyError.t unit :=
  match call with
  | Encode inner d epoch => encode_ref c inner d epoch
  | Decode input d epoch => decode_ref c input d epoch
  end.

(** [C20] The routing-tag cache is transparent: over any interleaving of encodings
    and decodings through a codec and its clones, with epochs going forwards or
    backwards, every call returns what a codec that recomputes its tags returns. *)
Theorem speedy_cache_is_transparent c calls :
  sc_routes c = None -> codec_run c calls = map (codec_ref c) calls.
Proof.
  intros Hn. assert (Hc : cache_ok c) by (unfold cache_ok; by rewrite Hn). clear Hn.
  assert (Hgen : forall c', sc_secrets c' = sc_secrets c -> cache_ok c' ->
    codec_run c' calls = map (codec_ref c) calls); [|by apply Hgen].
  induction calls as [|[inner d epoch|input d epoch] calls IH]; intros c' Hs Hc'; [done| |]; simpl.
  - pose proof (encode_at_ref c' inner d epoch Hc') as H.
    destruct (encode_at _ _ _ _) as [[c'' output] r]. destruct H as (Hs' & Hc'' & ->).
    rewrite IH by congruence. f_equal. unfold encode_ref.
    by rewrite (tags_of_secrets c' c), (mask_frame_secrets c' c) by done.
  - pose proof (decode_at_ref c' input d epoch Hc') as H.
    destruct (decode_at _ _ _ _) as [[c'' output] r]. destruct H as (Hs' & Hc'' & ->).
    rewrite IH by congruence. f_equal. unfold decode_ref.
    by rewrite (tags_of_secrets c' c), (unmask_frame_secrets c' c) by done.
Qed.

End Cache.

(** ** Frames *)

Section Frames.
Context `{P : Primitives, PL : !PrimitiveLaws}.

(** The mask depends on the tag and on the last sixteen bytes only. *)
Definition mask_of (c : SpeedyCodec) (d : Direction.t) (route last : bytes) : bytes :=
  blake3_keyed_hash (dk_mask (at_direction (sc_secrets c) d))
    (copy_at (copy_at (zeros (ROUTING_TAG_LEN + SAMPLE_LEN)) 0 route) ROUTING_TAG_LEN last).

Definition mac_of (c : SpeedyCodec) (d : Direction.t) (covered : bytes) : bytes :=
  sub_list (blake3_keyed_hash (dk_auth (at_direction (sc_secrets c) d)) covered) 0 AUTH_TAG_LEN.

Definition masked (c : SpeedyCodec) (d : Direction.t) (route header middle last : bytes) : bytes :=
  route ++ xor_zip header (mask_of c d route last) ++ middle ++ last.

(** A datagram of admissible size: header, middle, and the sampled tail. *)
Lemma inner_split (inner : bytes) :
  36 <= len inner ->
  exists header middle last, inner = header ++ middle ++ last /\ len header = 20 /\ len last = 16.
Proof.
  intros Hl. exists (take 20 inner), (take (length inner - 36) (drop 20 inner)), (drop (length inner - 16) inner).
  unfold len in *. rewrite length_take, length_drop. split_and!; try lia.
  rewrite <- (take_drop 20 inner) at 1. f_equal.
  rewrite <- (take_drop (length inner - 36) (drop 20 inner)) at 1. f_equal.
  rewrite drop_drop. f_equal. lia.
Qed.

Lemma header_mask_eq c d route header middle last :
  len last = 16 -> header_mask c d route (header ++ middle ++ last) = Ok (mask_of c d route last).
Proof.
  intros Hl. unfold header_mask, SAMPLE_LEN. rewrite app_assoc.
  rewrite slice_app_r; [done|rewrite !len_app; lia..].
Qed.

Lemma mac_len c d covered : len (mac_of c d covered) = 16.
Proof. unfold mac_of, AUTH_TAG_LEN. rewrite len_sub_list; rewrite ?blake3_len; lia. Qed.

Lemma mac_slice {E} c d covered :
  slice (E:=E) (blake3_keyed_hash (dk_auth (at_direction (sc_secrets c) d)) covered) 0 AUTH_TAG_LEN =
  Ok (mac_of c d covered).
Proof. apply slice_ok; unfold AUTH_TAG_LEN; rewrite ?blake3_len; lia. Qed.

Lemma mask_frame_eq c d t header middle last :
  len header = 20 -> len last = 16 -> len (nth 0 t []) = 8 ->
  let frame := masked c d (nth 0 t []) header middle last in
  mask_frame c (header ++ middle ++ last) d t = Ok (frame ++ mac_of c d frame).
Proof.
  intros Hh Hl Hr frame. unfold mask_frame. rewrite header_mask_eq by done. res_simpl.
  unfold ROUTING_TAG_LEN, Header.HEADER_LEN. change (8 + 20) with 28. rewrite app_nil_l.
  rewrite slice_app_l by done. rewrite slice_app by lia.
  rewrite (app_assoc (nth 0 t [])), slice_app_r by (rewrite ?len_app; lia).
  fold (masked c d (nth 0 t []) header middle last). fold frame. by rewrite mac_slice.
Qed.

Lemma unmask_frame_eq c d t route header middle last tag :
  len route = 8 -> len header = 20 -> len last = 16 -> len tag = 16 ->
  unmask_frame c (route ++ (header ++ middle ++ last) ++ tag) d t =
  if negb (bool_decide (route ∈ t)) then Err SpeedyError.UnknownRoutingTag
  else if negb (bool_decide (mac_of c d (route ++ header ++ middle ++ last) = tag))
  then Err SpeedyError.Authentication
  else Ok (xor_zip header (mask_of c d route last) ++ middle ++ last).
Proof.
  intros Hr Hh Hl Ht. unfold unmask_frame.
  assert (Hlen : len (route ++ (header ++ middle ++ last) ++ tag) - AUTH_TAG_LEN =
    len route + len (header ++ middle ++ last)).
  { unfold AUTH_TAG_LEN. rewrite !len_app. lia. }
  rewrite Hlen. unfold ROUTING_TAG_LEN, Header.HEADER_LEN. rewrite (slice_app_l route _ 8) by lia. res_simpl.
  case_if; [done|]. set (inner := header ++ middle ++ last) in *.
  rewrite (app_assoc route inner), slice_app_l by (rewrite len_app; lia). rewrite mac_slice.
  rewrite slice_app_r by (rewrite ?len_app; lia). case_if; [done|].
  rewrite <- app_assoc. rewrite slice_app by lia. unfold inner at 1. rewrite header_mask_eq by done.
  rewrite app_nil_l. unfold inner. rewrite slice_app_l by done.
  rewrite slice_app_r by (rewrite ?len_app; lia). done.
Qed.

Lemma tags_of_len c d e t : t ∈ tags_of c d e -> len t = 8.
Proof.
  unfold tags_of. rewrite list_elem_of_In, in_map_iff. intros (x & <- & _).
  unfold routing_tag_at, ROUTING_TAG_LEN. rewrite len_sub_list; rewrite ?hmac_len; lia.
Qed.

Lemma neighbour_accepted e e' :
  0 <= e <= u64_max -> 0 <= e' <= u64_max -> Z.abs (e - e') <= 1 -> e ∈ accepted_epochs e'.
Proof.
  intros. unfold accepted_epochs, sat_sub, sat_add64. apply list_elem_of_In. simpl.
  destruct (Z.eq_dec e e'); [left; lia|]. destruct (Z.lt_ge_cases e e'); [right; left|right; right; left]; lia.
Qed.

Lemma tag_accepted c d e e' :
  0 <= e <= u64_max -> 0 <= e' <= u64_max -> Z.abs (e - e') <= 1 ->
  nth 0 (tags_of c d e) [] ∈ tags_of c d e'.
Proof.
  intros. change (nth 0 (tags_of c d e) []) with (routing_tag_at c d e).
  unfold tags_of. rewrite list_elem_of_In, in_map_iff. exists e. split; [done|].
  by apply list_elem_of_In, neighbour_accepted.
Qed.

Lemma validate_inner_len inner d :
  validate_inner inner d = Ok tt -> 36 <= len inner <= MAX_INNER_DATAGRAM_LEN.
Proof.
  unfold validate_inner, Header.HEADER_LEN, SAMPLE_LEN. case_if; [done|]. intros _. boolify. lia.
Qed.

Lemma frame_len c d route header middle last :
  len route = 8 ->
  let frame := masked c d route header middle last in
  len (frame ++ mac_of c d frame) = len (header ++ middle ++ last) + OVERHEAD.
Proof.
  intros Hr frame. unfold frame, masked. rewrite len_app, mac_len, !len_app, len_xor_zip.
  unfold OVERHEAD, ROUTING_TAG_LEN, AUTH_TAG_LEN. lia.
Qed.

Lemma decode_ref_frame c d e route header middle last :
  len header = 20 -> len last = 16 -> route ∈ tags_of c d e ->
  validate_inner (header ++ middle ++ last) d = Ok tt ->
  let frame := masked c d route header middle last in
  decode_ref c (frame ++ mac_of c d frame) d e = (header ++ middle ++ last, Ok tt).
Proof.
  intros Hh Hl Hin Hv frame. pose proof (tags_of_len _ _ _ _ Hin) as Hr.
  pose proof (validate_inner_len _ _ Hv) as Hlen. unfold decode_ref.
  unfold frame. rewrite frame_len by done. fold frame.
  assert (Hsize : (MIN_FRAME_LEN <=? len (header ++ middle ++ last) + OVERHEAD) &&
    (len (header ++ middle ++ last) + OVERHEAD <=? MAX_DATAGRAM_LEN) = true).
  { unfold MIN_FRAME_LEN, MAX_INNER_DATAGRAM_LEN, Header.HEADER_LEN, SAMPLE_LEN in *.
    apply andb_true_iff; split; apply Z.leb_le; lia. }
  rewrite Hsize. cbn [negb]. unfold frame at 1, masked.
  rewrite <- (app_assoc route), unmask_frame_eq by (rewrite ?len_xor_zip, ?mac_len; done).
  rewrite !bool_decide_true by done. cbn [negb mbind res_bind].
  by rewrite xor_zip_involutive, Hv.
Qed.

(** What the masked frame looks like and how it decodes. *)
Lemma masked_frame_roundtrip c c' inner d e e' :
  cache_ok c -> cache_ok c' -> sc_secrets c' = sc_secrets c ->
  0 <= e <= u64_max -> 0 <= e' <= u64_max -> Z.abs (e - e') <= 1 ->
  validate_inner inner d = Ok tt ->
  exists frame,
    (encode_at c inner d e).1.2 = frame /\ (encode_at c inner d e).2 = Ok tt /\
    get_range frame 0 8 = Some (routing_tag_at c d e) /\
    len frame = len inner + OVERHEAD /\ len frame <= MAX_DATAGRAM_LEN /\
    (decode_at c' frame d e').1.2 = inner /\ (decode_at c' frame d e').2 = Ok tt.
Proof.
  intros Hc Hc' Hsec He He' Hskew Hv. eexists. split; [reflexivity|].
  pose proof (encode_at_ref c inner d e Hc) as Henc.
  destruct (encode_at c inner d e) as [[c1 frame] r]. destruct Henc as (_ & _ & Henc). cbn [fst snd].
  pose proof (decode_at_ref c' frame d e' Hc') as Hdec.
  destruct (decode_at c' frame d e') as [[c2 out] r2]. destruct Hdec as (_ & _ & Hdec). cbn [fst snd].
  pose proof (validate_inner_len _ _ Hv) as Hl. unfold MAX_INNER_DATAGRAM_LEN in Hl.
  destruct (inner_split inner (proj1 Hl)) as (header & middle & last & -> & Hh & Hlast).
  assert (Hin : nth 0 (tags_of c d e) [] ∈ tags_of c' d e').
  { rewrite (tags_of_secrets c' c) by done. by apply tag_accepted. }
  pose proof (tags_of_len _ _ _ _ Hin) as Hroute.
  unfold encode_ref in Henc. rewrite Hv in Henc. res_simpl in Henc.
  rewrite mask_frame_eq in Henc by done. injection Henc as -> ->.
  change (nth 0 (tags_of c d e) []) with (routing_tag_at c d e) in *.
  pose proof (frame_len c d _ header middle last Hroute) as Hlen. cbv zeta in Hlen.
  split; [done|]. split.
  { unfold masked. rewrite <- app_assoc. apply get_range_app_l. lia. }
  split; [exact Hlen|]. split; [lia|].
  assert (Hframe : masked c d (routing_tag_at c d e) header middle last =
    masked c' d (routing_tag_at c d e) header middle last)
    by (unfold masked, mask_of; by rewrite Hsec).
  assert (Hmac : forall x, mac_of c d x = mac_of c' d x) by (intros; unfold mac_of; by rewrite Hsec).
  rewrite Hframe, Hmac, decode_ref_frame in Hdec by done. by injection Hdec as -> ->.
Qed.

(** A Speedy frame carries the datagram it was made from: every datagram the
    protocol allows in that direction is encoded with 24 bytes of overhead into at
    most 1452 bytes, and a codec with the same keys, whatever its cache holds and
    with a clock at most one epoch away, recovers it byte for byte. *)
Theorem speedy_frame_roundtrip c c' inner d e e' :
  cache_ok c -> cache_ok c' -> sc_secrets c' = sc_secrets c ->
  0 <= e <= u64_max -> 0 <= e' <= u64_max -> Z.abs (e - e') <= 1 ->
  validate_inner inner d = Ok tt ->
  exists frame,
    (encode_at c inner d e).1.2 = frame /\ (encode_at c inner d e).2 = Ok tt /\
    len frame = len inner + OVERHEAD /\ len frame <= MAX_DATAGRAM_LEN /\
    (decode_at c' frame d e').1.2 = inner /\ (decode_at c' frame d e').2 = Ok tt.
Proof.
  intros Hc Hc' Hsec He He' Hskew Hv.
  destruct (masked_frame_roundtrip c c' inner d e e') as (frame & H1 & H2 & _ & H); eauto.
Qed.

(** A frame of admissible size: tag, datagram in its three parts, authenticator. *)
Lemma frame_parts (input : bytes) :
  60 <= len input ->
  exists route header middle last tag,
    input = route ++ (header ++ middle ++ last) ++ tag /\ len route = 8 /\ len header = 20 /\
    len last = 16 /\ len tag = 16.
Proof.
  intros Hlen. destruct (inner_split (sub_list input 8 (len input - 16))) as (header & middle & last & Hi & ? & ?).
  { rewrite len_sub_list; lia. }
  exists (take 8 input), header, middle, last, (drop (length input - 16) input). rewrite <- Hi.
  unfold len in *. rewrite length_take, length_drop. split_and!; try lia. unfold sub_list.
  rewrite <- (take_drop 8 input) at 1. f_equal.
  rewrite <- (take_drop (length input - 24) (drop 8 input)) at 1. f_equal; [f_equal; lia|].
  rewrite drop_drop. f_equal. lia.
Qed.

Lemma xor_zip_bytes l mask : is_bytes l -> is_bytes mask -> is_bytes (xor_zip l mask).
Proof.
  unfold is_bytes. revert mask. induction l as [|b l IH]; intros [|m mask] Hl Hm; simpl; try done.
  apply Forall_cons_iff in Hl as [? ?], Hm as [? ?]. apply Forall_cons_iff. split; [by apply u8_lxor|by apply IH].
Qed.

Lemma decode_cache c input d clock : cache_ok c -> cache_ok (decode clock c input d).1.1.
Proof.
  intros Hc. unfold decode. destruct clock as [t|]; [|done]. cbn [current_epoch ok_or mbind res_bind].
  pose proof (decode_at_ref c input d (t / EPOCH_SECONDS) Hc) as Hdec.
  destruct (decode_at _ _ _ _) as [[c' output] r]. apply Hdec.
Qed.

(** Unmasking bytes yields bytes. *)
Lemma decode_bytes c input d clock : cache_ok c -> is_bytes input -> is_bytes (decode clock c input d).1.2.
Proof.
  intros Hc Hb. unfold decode. destruct clock as [t|]; [|constructor]. cbn [current_epoch ok_or mbind res_bind].
  pose proof (decode_at_ref c input d (t / EPOCH_SECONDS) Hc) as Hdec.
  destruct (decode_at _ _ _ _) as [[c' output] r]. destruct Hdec as (_ & _ & Hdec). cbn [fst snd].
  unfold decode_ref in Hdec. revert Hdec. case_if; [intros [= -> ->]; constructor|]. boolify.
  unfold MIN_FRAME_LEN, OVERHEAD, ROUTING_TAG_LEN, AUTH_TAG_LEN, Header.HEADER_LEN, SAMPLE_LEN in *.
  destruct (frame_parts input) as (route & header & middle & last & tag & -> & Hr & Hh & Hl & Ht); [lia|].
  rewrite unmask_frame_eq by done. case_if; [intros [= -> ->]; constructor|].
  case_if; [intros [= -> ->]; constructor|]. res_simpl.
  destruct (validate_inner _ _) as [[]|err|]; intros [= -> ->]; [|constructor..].
  rewrite !is_bytes_app in *. destruct Hb as (_ & (? & ? & ?) & _). split_and!; try done.
  apply xor_zip_bytes; [done|]. apply blake3_bytes.
Qed.

Lemma decode_no_panic c input d clock : cache_ok c -> no_panic (decode clock c input d).2.
Proof.
  intros Hc. unfold decode. destruct clock as [t|]; [|done]. cbn [current_epoch ok_or mbind res_bind].
  pose proof (decode_at_ref c input d (t / EPOCH_SECONDS) Hc) as Hdec.
  destruct (decode_at _ _ _ _) as [[c' output] r]. destruct Hdec as (_ & _ & Hdec).
  unfold decode_ref in Hdec. revert Hdec. case_if; [by intros [= -> ->]|]. boolify.
  unfold MIN_FRAME_LEN, OVERHEAD, ROUTING_TAG_LEN, AUTH_TAG_LEN, Header.HEADER_LEN, SAMPLE_LEN in *.
  destruct (frame_parts input) as (route & header & middle & last & tag & -> & Hr & Hh & Hl & Ht); [lia|].
  rewrite unmask_frame_eq by done. case_if; [by intros [= -> ->]|]. case_if; [by intros [= -> ->]|]. res_simpl.
  pose proof (validate_inner_no_panic (xor_zip header (mask_of c d route last) ++ middle ++ last) d) as Hnp.
  by destruct (validate_inner _ _) as [[]|err|]; intros [= -> ->].
Qed.

Lemma encode_no_panic c inner d clock : cache_ok c -> no_panic (encode clock c inner d).2.
Proof.
  intros Hc. unfold encode. destruct clock as [t|]; [|done]. cbn [current_epoch ok_or mbind res_bind].
  pose proof (encode_at_ref c inner d (t / EPOCH_SECONDS) Hc) as Henc.
  destruct (encode_at _ _ _ _) as [[c' output] r]. destruct Henc as (_ & _ & Henc).
  unfold encode_ref in Henc. pose proof (validate_inner_no_panic inner d) as Hnp.
  destruct (validate_inner inner d) as [[]|err|] eqn:Hv; [|by injection Henc as -> ->|done].
  pose proof (validate_inner_len _ _ Hv) as Hl.
  destruct (inner_split inner (proj1 Hl)) as (header & middle & last & -> & Hh & Hlast).
  res_simpl in Henc. rewrite mask_frame_eq in Henc; [by injection Henc as -> ->|done|done|].
  apply (tags_of_len c d (t / EPOCH_SECONDS)). by left.
Qed.

(** Decoding arbitrary bytes never aborts; on error the output buffer is
    empty; and success means the frame had an accepted tag and the keyed hash of
    everything before the last sixteen bytes, and that the exposed datagram is valid
    for the direction. *)
Theorem speedy_decode_sound c input d e :
  cache_ok c ->
  let '(c', output, r) := decode_at c input d e in
  cache_ok c' /\ sc_secrets c' = sc_secrets c /\
  match r with
  | Ok _ =>
      exists route body tag,
        input = route ++ body ++ tag /\ len input <= MAX_DATAGRAM_LEN /\
        route ∈ tags_of c d e /\ tag = mac_of c d (route ++ body) /\ len output = len body /\
        drop 20 output = drop 20 body /\ validate_inner output d = Ok tt
  | Err _ => output = []
  | Panic => False
  end.
Proof.
  intros Hc. pose proof (decode_at_ref c input d e Hc) as Hdec.
  destruct (decode_at c input d e) as [[c' output] r]. destruct Hdec as (Hs & Hc' & Hdec).
  split; [done|]. split; [done|]. unfold decode_ref in Hdec. revert Hdec.
  case_if; [by intros [= -> ->]|]. boolify.
  unfold MIN_FRAME_LEN, OVERHEAD, ROUTING_TAG_LEN, AUTH_TAG_LEN, Header.HEADER_LEN, SAMPLE_LEN in *.
  destruct (frame_parts input) as (route & header & middle & last & tag & -> & Hr & Hh & Hl & Ht); [lia|].
  rewrite unmask_frame_eq by done. case_if; [by intros [= -> ->]|]. case_if; [by intros [= -> ->]|].
  boolify. res_simpl. set (out := xor_zip _ _ ++ middle ++ last).
  pose proof (validate_inner_no_panic out d) as Hnp.
  destruct (validate_inner out d) as [[]|err|] eqn:Hv; [|by intros [= -> ->]|done].
  intros [= -> ->]. exists route, (header ++ middle ++ last), tag. split_and!; try done.
  - unfold out. by rewrite !len_app, len_xor_zip.
  - pose proof (len_xor_zip header (mask_of c d route last)) as Hx. unfold out, len in *.
    rewrite (drop_app_length' (xor_zip _ _)), (drop_app_length' header) by lia. done.
Qed.

End Frames.

(** ** Witnesses *)

Import Toy.

Definition toy_codec : SpeedyCodec :=
  match SpeedyCodec_new (replicate 32 5) with
  | Ok c => c
  | _ => mkSpeedyCodec (both (mkDirectionKeys [] [] []) (mkDirectionKeys [] [] [])) None
  end.

Definition toy_datagram : bytes :=
  Datagram.encode (Datagram.mk (Header.mk PacketKind.Data 0 77 3) (replicate 30 4)).

Lemma speedy_cache_is_transparent_witness :
  codec_run toy_codec [Encode toy_datagram Direction.ClientToServer 100;
                       Encode toy_datagram Direction.ClientToServer 100] =
  map (codec_ref toy_codec) [Encode toy_datagram Direction.ClientToServer 100;
                             Encode toy_datagram Direction.ClientToServer 100].
Proof. apply speedy_cache_is_transparent. vm_compute. reflexivity. Defined.

Lemma speedy_frame_roundtrip_witness :
  exists frame,
    (encode_at toy_codec toy_datagram Direction.ClientToServer 100).1.2 = frame /\
    (decode_at toy_codec frame Direction.ClientToServer 101).1.2 = toy_datagram.
Proof.
  destruct (speedy_frame_roundtrip toy_codec toy_codec toy_datagram Direction.ClientToServer 100 101)
    as (frame & He & _ & _ & _ & Hd & _).
  - exact I.
  - exact I.
  - reflexivity.
  - unfold u64_max; lia.
  - unfold u64_max; lia.
  - lia.
  - vm_compute. reflexivity.
  - exists frame. split; [exact He|exact Hd].
Defined.

Definition toy_frame : bytes := (encode_at toy_codec toy_datagram Direction.ClientToServer 100).1.2.

Lemma speedy_decode_sound_witness :
  let '(c', output, r) := decode_at toy_codec toy_frame Direction.ClientToServer 100 in
  cache_ok c' /\ validate_inner output Direction.ClientToServer = Ok tt.
Proof.
  pose proof (speedy_decode_sound toy_codec toy_frame Direction.ClientToServer 100 I) as H.
  assert (Hok : (decode_at toy_codec toy_frame Direction.ClientToServer 100).2 = Ok tt)
    by (vm_compute; reflexivity).
  destruct (decode_at toy_codec toy_frame Direction.ClientToServer 100) as [[c' output] r].
  cbn [snd] in Hok. rewrite Hok in H. destruct H as (Hc & _ & route & body & tag & H).
  split; [exact Hc|apply H].
Defined.

End Speedy.
