(* ===== verification/RateLimit.v ===== *)
(** * The handshake limiter of crates/server/src/rate_limit.rs

    A fixed-window counter per source address with a bounded table.  [Instant::now]
    is the argument [now].  The theorems bound the handshakes admitted from one
    source in a window, the size of the table, and what one source can do to the
    counters of another. *)

From S2P Require Import Prelude.

Record Counter := mkCounter { started : Z; attempts : Z }.

Definition DEFAULT_MAX_CLIENTS : Z := 65536.
Definition CLEANUP_INTERVAL : Z := 4096.

Record HandshakeLimiter := mkHandshakeLimiter {
  clients : gmap IpAddr Counter;
  maximum_attempts : Z;
  window : Z;
  maximum_clients : Z;
  operations : Z;
  last_cleanup : option Z;
}.

Definition HandshakeLimiter_new (maximum_attempts window : Z) : HandshakeLimiter :=
  mkHandshakeLimiter ∅ maximum_attempts window DEFAULT_MAX_CLIENTS 0 None.

Definition allow_at (l : HandshakeLimiter) (address : IpAddr) (now : Z) : HandshakeLimiter * bool :=
  let operations := wrap64 (operations l + 1) in
  let cleanup_due :=
    match last_cleanup l with None => true | Some last => window l <=? duration_since now last end
    || (operations mod CLEANUP_INTERVAL =? 0) in
  let table :=
    if cleanup_due
    then filter (fun kv => duration_since now (started kv.2) < window l) (clients l)
    else clients l in
  let last_cleanup := if cleanup_due then Some now else last_cleanup l in
  let with_clients t :=
    mkHandshakeLimiter t (maximum_attempts l) (window l) (maximum_clients l) operations last_cleanup in
  if bool_decide (table !! address = None) && (maximum_clients l <=? Z.of_nat (size table))
  then (with_clients table, false)
  else
    let counter := default (mkCounter now 0) (table !! address) in
    let counter := if window l <=? duration_since now (started counter) then mkCounter now 0 else counter in
    if maximum_attempts l <=? attempts counter
    then (with_clients (<[address := counter]> table), false)
    else (with_clients (<[address := mkCounter (started counter) (attempts counter + 1)]> table), true).

(** ** Invariant *)

Record limiter_wf (l : HandshakeLimiter) : Prop := {
  wf_attempts : forall a c, clients l !! a = Some c -> 0 <= attempts c <= maximum_attempts l;
  wf_size : Z.of_nat (size (clients l)) <= maximum_clients l;
  wf_window : 0 < window l;
}.

(** The table behind the cleanup step, and the cell of the address afterwards. *)
Lemma allow_at_cases l address now :
  let '(l', ok) := allow_at l address now in
  exists table,
    (table = clients l \/ table = filter (fun kv => duration_since now (started kv.2) < window l) (clients l)) /\
    maximum_attempts l' = maximum_attempts l /\ window l' = window l /\ maximum_clients l' = maximum_clients l /\
    ((table !! address = None /\ maximum_clients l <= Z.of_nat (size table) /\
      clients l' = table /\ ok = false) \/
     ((table !! address <> None \/ Z.of_nat (size table) < maximum_clients l) /\
      exists c, clients l' = <[address := c]> table /\
      let c0 := default (mkCounter now 0) (table !! address) in
      let c1 := if window l <=? duration_since now (started c0) then mkCounter now 0 else c0 in
      ((ok = false /\ c = c1 /\ maximum_attempts l <= attempts c1) \/
       (ok = true /\ c = mkCounter (started c1) (attempts c1 + 1) /\ attempts c1 < maximum_attempts l)))).
Proof.
  unfold allow_at. set (due := (_ || _) : bool).
  set (table := if due then _ else clients l).
  assert (Ht : table = clients l \/
    table = filter (fun kv => duration_since now (started kv.2) < window l) (clients l)).
  { unfold table. destruct due; auto. }
  destruct (bool_decide (table !! address = None) && (maximum_clients l <=? Z.of_nat (size table))) eqn:Hfull.
  - boolify. exists table. do 4 (split; [done|]). left. done.
  - assert (Hroom : table !! address <> None \/ Z.of_nat (size table) < maximum_clients l).
    { apply andb_false_iff in Hfull as [?|?]; boolify; [by left|right; lia]. }
    set (c0 := default _ _). set (c1 := if _ <=? _ then _ else c0).
    destruct (Z.leb_spec (maximum_attempts l) (attempts c1)); exists table; do 4 (split; [done|]); right;
      (split; [done|]); eexists; (split; [reflexivity|]); [left|right]; done.
Qed.

Lemma filter_lookup_sub {P : IpAddr * Counter -> Prop} `{!forall x, Decision (P x)} (m : gmap IpAddr Counter) a c :
  filter P m !! a = Some c -> m !! a = Some c.
Proof. intros [? _]%map_lookup_filter_Some. done. Qed.

Lemma limiter_new_wf maximum window :
  0 <= maximum -> 0 < window -> limiter_wf (HandshakeLimiter_new maximum window).
Proof. split; simpl; [intros ? ?; by rewrite lookup_empty|done|done]. Qed.

Lemma allow_at_wf l address now :
  limiter_wf l -> 0 <= maximum_attempts l -> limiter_wf (allow_at l address now).1.
Proof.
  intros W Hm. pose proof (allow_at_cases l address now) as H.
  destruct (allow_at l address now) as [l' ok]. simpl.
  destruct H as (table & Ht & Ha & Hw & Hc & H).
  assert (Hsub : forall a c, table !! a = Some c -> 0 <= attempts c <= maximum_attempts l).
  { intros a c Hl. apply (wf_attempts l W a). destruct Ht as [->| ->]; [done|]. by apply filter_lookup_sub in Hl. }
  assert (Hsize : (size table <= size (clients l))%nat).
  { destruct Ht as [->| ->]; [done|]. apply map_subseteq_size, map_filter_subseteq. }
  pose proof (wf_size l W). split; [|destruct H as [(_ & _ & -> & _)|(Hroom & c & -> & _)]; rewrite Hc|].
  - intros a c. rewrite Ha. destruct H as [(_ & _ & -> & _)|(_ & c' & -> & H)]; [apply Hsub|].
    rewrite lookup_insert_Some. intros [[<- <-]|[_ Hl]]; [|by eapply Hsub].
    set (c0 := default _ _) in H.
    assert (Hc0 : 0 <= attempts c0 <= maximum_attempts l).
    { unfold c0. destruct (table !! address) eqn:Hl; simpl; [by eapply Hsub|lia]. }
    revert H. cbv zeta. case_if; intros H; destruct H as [(_ & -> & ?)|(_ & -> & ?)]; simpl in *; lia.
  - lia.
  - destruct (table !! address) eqn:Hl.
    + rewrite map_size_insert_Some by eauto. lia.
    + rewrite map_size_insert_None by done. destruct Hroom; [done|lia].
  - rewrite Hw. apply W.
Qed.

(** ** Admission bounds *)

(** A series of requests, with the answers for one address. *)
Fixpoint admitted (l : HandshakeLimiter) (address : IpAddr) (requests : list (IpAddr * Z)) : Z :=
  match requests with
  | [] => 0
  | (from, now) :: requests =>
      let '(l, ok) := allow_at l from now in
      (if bool_decide (from = address) && ok then 1 else 0) + admitted l address requests
  end.

(** Admissions still possible for [address] before [t0 + window]: the rest of the
    running window, and a full window after it when it started before [t0]. *)
Definition budget (l : HandshakeLimiter) (address : IpAddr) (t0 : Z) : Z :=
  match clients l !! address with
  | None => maximum_attempts l
  | Some c => maximum_attempts l - attempts c + (if t0 <=? started c then 0 else maximum_attempts l)
  end.

Lemma budget_nonneg l a t0 : limiter_wf l -> 0 <= maximum_attempts l -> 0 <= budget l a t0.
Proof.
  intros W Hm. unfold budget. destruct (clients l !! a) as [c|] eqn:Hc; [|done].
  pose proof (wf_attempts l W a c Hc). destruct (t0 <=? started c); lia.
Qed.

Lemma allow_at_other_cell l from now a :
  from <> a ->
  clients (allow_at l from now).1 !! a = clients l !! a \/
  (clients (allow_at l from now).1 !! a = None /\
   exists c, clients l !! a = Some c /\ window l <= duration_since now (started c)).
Proof.
  intros Hne. pose proof (allow_at_cases l from now) as H.
  destruct (allow_at l from now) as [l' ok]. simpl. destruct H as (table & Ht & _ & _ & _ & H).
  assert (Heq : clients l' !! a = table !! a).
  { destruct H as [(_ & _ & -> & _)|(_ & c & -> & _)]; [done|]. by rewrite lookup_insert_ne. }
  rewrite Heq. destruct Ht as [->| ->]; [by left|].
  destruct (clients l !! a) as [c|] eqn:Hc.
  - destruct (decide (duration_since now (started c) < window l)).
    + left. by apply map_lookup_filter_Some.
    + right. split; [|exists c; split; [done|lia]]. apply map_lookup_filter_None. right.
      intros c' Hc'. by simplify_eq.
  - left. apply map_lookup_filter_None. by left.
Qed.

Lemma budget_step l address from now t0 :
  limiter_wf l -> 0 <= maximum_attempts l -> t0 <= now < t0 + window l ->
  let '(l', ok) := allow_at l from now in
  budget l' address t0 + (if bool_decide (from = address) && ok then 1 else 0) <= budget l address t0.
Proof.
  intros W Hm Ht. pose proof (allow_at_cases l from now) as H.
  destruct (decide (from = address)) as [->|Hne].
  2: { pose proof (allow_at_other_cell l from now address Hne) as Hcell.
       destruct (allow_at l from now) as [l' ok]. simpl in Hcell.
       destruct H as (_ & _ & Ha & _). rewrite bool_decide_false by done. unfold budget. rewrite Ha.
       destruct Hcell as [->|(-> & c & Hc & Hold)]; simpl; [lia|]. rewrite Hc.
       pose proof (wf_attempts l W address c Hc). unfold duration_since, sat_sub in Hold.
       destruct (Z.leb_spec t0 (started c)); lia. }
  destruct (allow_at l address now) as [l' ok].
  destruct H as (table & Htab & Ha & Hw & _ & H). rewrite bool_decide_true by done. unfold budget.
  rewrite Ha. destruct H as [(Hnone & _ & -> & ->)|(_ & c & -> & H)].
  { rewrite Hnone. simpl. destruct (clients l !! address) as [c|] eqn:Hc; [|lia].
    destruct Htab as [->| ->]; [congruence|].
    apply map_lookup_filter_None in Hnone as [?|Hf]; [congruence|]. specialize (Hf c Hc). simpl in Hf.
    pose proof (wf_attempts l W address c Hc). unfold duration_since, sat_sub in Hf.
    destruct (Z.leb_spec t0 (started c)); lia. }
  rewrite lookup_insert_eq. destruct (table !! address) as [c0|] eqn:Hc0; cbn [default] in H.
  - assert (Hc : clients l !! address = Some c0).
    { destruct Htab as [->| ->]; [done|]. by apply filter_lookup_sub in Hc0. }
    rewrite Hc. pose proof (wf_attempts l W address c0 Hc). unfold duration_since, sat_sub in H. simpl in H.
    destruct (Z.leb_spec (window l) (Z.max 0 (now - started c0)));
      destruct H as [(-> & -> & ?)|(-> & -> & ?)]; simpl in *;
      repeat match goal with |- context [t0 <=? ?x] => destruct (Z.leb_spec t0 x) end; lia.
  - assert (Hold : maximum_attempts l <=
      match clients l !! address with
      | None => maximum_attempts l
      | Some c => maximum_attempts l - attempts c + (if t0 <=? started c then 0 else maximum_attempts l) end).
    { destruct (clients l !! address) as [c1|] eqn:Hc1; [|lia].
      destruct Htab as [->| ->]; [congruence|].
      apply map_lookup_filter_None in Hc0 as [?|Hf]; [congruence|]. specialize (Hf c1 Hc1). simpl in Hf.
      pose proof (wf_attempts l W address c1 Hc1). unfold duration_since, sat_sub in Hf.
      destruct (Z.leb_spec t0 (started c1)); lia. }
    simpl in H. pose proof (wf_window l W). unfold duration_since, sat_sub in H.
    destruct (Z.leb_spec (window l) (Z.max 0 (now - now))); [lia|].
    destruct H as [(-> & -> & ?)|(-> & -> & ?)]; simpl in *;
      destruct (Z.leb_spec t0 now); lia.
Qed.

Lemma allow_at_params l a now :
  maximum_attempts (allow_at l a now).1 = maximum_attempts l /\ window (allow_at l a now).1 = window l /\
  maximum_clients (allow_at l a now).1 = maximum_clients l.
Proof.
  pose proof (allow_at_cases l a now) as H. destruct (allow_at l a now) as [l' ok]. simpl.
  destruct H as (_ & _ & ? & ? & ? & _). done.
Qed.

Lemma admitted_within_budget l a t0 requests :
  limiter_wf l -> 0 <= maximum_attempts l ->
  Forall (fun r => t0 <= r.2 < t0 + window l) requests ->
  admitted l a requests <= budget l a t0.
Proof.
  intros W Hm Hr. remember (window l) as w eqn:Hwin. revert l W Hm Hwin.
  induction Hr as [|[from now] requests Hin Hr IH]; intros l W Hm Hwin; simpl.
  { by apply budget_nonneg. }
  pose proof (budget_step l a from now t0 W Hm) as Hstep. rewrite <- Hwin in Hstep. specialize (Hstep Hin).
  pose proof (allow_at_wf l from now W Hm) as W'. pose proof (allow_at_params l from now) as (Ha & Hw & _).
  destruct (allow_at l from now) as [l' ok]. simpl in *.
  specialize (IH l' W'). rewrite Ha, Hw in IH. specialize (IH Hm Hwin). lia.
Qed.

(** [C27] The limiter holds its rate: whatever the other sources do, and whatever
    cleanups happen, in any period shorter than the window one source is admitted at
    most twice the configured number of attempts (a full window on each side of a
    boundary), and at most once that number when the period opens without a counter
    for it. *)
Theorem limiter_bounds_admissions l address t0 requests :
  limiter_wf l -> 0 <= maximum_attempts l ->
  Forall (fun r => t0 <= r.2 < t0 + window l) requests ->
  admitted l address requests <= 2 * maximum_attempts l /\
  (clients l !! address = None -> admitted l address requests <= maximum_attempts l).
Proof.
  intros W Hm Hr. pose proof (admitted_within_budget l address t0 requests W Hm Hr) as H.
  unfold budget in H. destruct (clients l !! address) as [c|] eqn:Hc; [|split; [lia|done]].
  pose proof (wf_attempts l W address c Hc). split; [|done]. destruct (t0 <=? started c); lia.
Qed.

Definition toy_source : IpAddr := V4 3221225985.

Lemma limiter_bounds_admissions_witness :
  admitted (HandshakeLimiter_new 2 60) toy_source (replicate 5 (toy_source, 10)) = 2 /\
  admitted (HandshakeLimiter_new 2 60) toy_source (replicate 5 (toy_source, 10)) <= 2.
Proof.
  split; [vm_compute; reflexivity|].
  apply (limiter_bounds_admissions (HandshakeLimiter_new 2 60) toy_source 10).
  - apply limiter_new_wf; lia.
  - simpl; lia.
  - repeat constructor; simpl; lia.
  - reflexivity.
Defined.

(** A flood of spoofed sources can neither grow the table past its limit nor
    evict or reset the live counter of another source. *)
Theorem limiter_isolates_sources l address now other c :
  limiter_wf l -> 0 <= maximum_attempts l -> other <> address ->
  clients l !! other = Some c -> duration_since now (started c) < window l ->
  let l' := (allow_at l address now).1 in
  clients l' !! other = Some c /\ Z.of_nat (size (clients l')) <= maximum_clients l' /\ limiter_wf l'.
Proof.
  intros W Hm Hne Hc Hlive l'. pose proof (allow_at_wf l address now W Hm) as W'. fold l' in W'.
  split; [|split; [apply W'|done]].
  destruct (allow_at_other_cell l address now other) as [H|(_ & c' & Hc' & Hold)]; [done|by rewrite <- Hc|].
  simplify_eq. lia.
Qed.

Lemma limiter_isolates_sources_witness :
  let l := (allow_at (HandshakeLimiter_new 2 60) toy_source 10).1 in
  clients (allow_at l (V4 7) 20).1 !! toy_source = Some (mkCounter 10 1).
Proof.
  intros l. apply (limiter_isolates_sources l (V4 7) 20 toy_source (mkCounter 10 1)).
  - apply allow_at_wf; [apply limiter_new_wf; lia|simpl; lia].
  - vm_compute; congruence.
  - discriminate.
  - vm_compute. reflexivity.
  - vm_compute. reflexivity.
Defined.
