(* ===== verification/Users.v ===== *)
(** * Users, devices and sessions of crates/server (users.rs, sessions.rs, state.rs)

    [UserRegistry] authorises device keys, [SessionTable] holds the sessions under a
    global and a per-user limit, and [ServerState] composes them with key generation
    and revocation.  Hash maps are [gmap]s; [Instant::now] is the argument [now] and
    the bytes a key pair is generated from are [entropy].  A [&mut ActiveSession] is
    the session and the table after the access. *)

From S2P Require Import Prelude Replay Crypto ToyCrypto.

Module RegistryError.

Inductive t :=
| BlankUserName
| DuplicateKey
| DuplicateUserId (id : Z)
| UnknownUser (id : Z)
| ZeroSessionLimit.

#[global] Instance eq_dec : EqDecision t.
Proof. solve_decision. Defined.

End RegistryError.

Record User := mkUser { id : Z; name : str; max_sessions : Z }.

#[global] Instance User_eq_dec : EqDecision User.
Proof. solve_decision. Defined.

Module UserRegistry.

Record t := mk { users : gmap Z User; devices : gmap (list Z) Z }.

Definition new : t := mk ∅ ∅.

Definition add_user (r : t) (user : User) : t * res RegistryError.t unit :=
  if bool_decide (trim (name user) = []) then (r, Err RegistryError.BlankUserName)
  else if max_sessions user =? 0 then (r, Err RegistryError.ZeroSessionLimit)
  else if bool_decide (is_Some (users r !! id user)) then (r, Err (RegistryError.DuplicateUserId (id user)))
  else (mk (<[id user := user]> (users r)) (devices r), Ok tt).

(** [HashMap::insert] has replaced the owner when it reports the old one. *)
Definition add_device (r : t) (user_id : Z) (key : PublicKey) : t * res RegistryError.t unit :=
  if bool_decide (users r !! user_id = None) then (r, Err (RegistryError.UnknownUser user_id))
  else
    let previous := devices r !! key in
    let r := mk (users r) (<[key := user_id]> (devices r)) in
    match previous with
    | Some _ => (r, Err RegistryError.DuplicateKey)
    | None => (r, Ok tt)
    end.

Definition authorize (r : t) (key : PublicKey) : option User :=
  user_id ← devices r !! key; users r !! user_id.

Definition revoke_device (r : t) (key : PublicKey) : t * option Z :=
  (mk (users r) (delete key (devices r)), devices r !! key).

Definition revoke_user (r : t) (user_id : Z) : t * option User :=
  match users r !! user_id with
  | None => (r, None)
  | Some removed =>
      (mk (delete user_id (users r)) (filter (fun kv => kv.2 <> user_id) (devices r)), Some removed)
  end.

Definition user (r : t) (user_id : Z) : option User := users r !! user_id.

Definition device_count (r : t) : Z := Z.of_nat (size (devices r)).

End UserRegistry.

Module SessionInsertError.

Inductive t :=
| SessionIdInUse
| TableFull
| UserLimitReached (id : Z).

End SessionInsertError.

Module SessionAccessError.

Inductive t := UnknownSession | PeerMismatch.

End SessionAccessError.

Module StateError.

Inductive t :=
| Crypto (e : CryptoError.t)
| Registry (e : RegistryError.t)
| Session (e : SessionInsertError.t)
| UserIdExhausted.

End StateError.

Section Server.
Context `{N : Noise}.

Record ActiveSession := mkActiveSession {
  as_user_id : Z;
  as_peer : SocketAddr;
  as_crypto : SecureSession;
  as_last_seen : Z;
}.

Record SessionTable := mkSessionTable { sessions : gmap Z ActiveSession; maximum : Z }.

Definition SessionTable_new (maximum : Z) : SessionTable := mkSessionTable ∅ maximum.

(** [values().filter(|session| session.user_id == user).count()] *)
Definition user_sessions (m : gmap Z ActiveSession) (user_id : Z) : Z :=
  Z.of_nat (size (filter (fun kv => as_user_id kv.2 = user_id) m)).

Definition SessionTable_insert (t : SessionTable) (now session_id : Z) (user : User) (peer : SocketAddr)
    (crypto : SecureSession) : SessionTable * res SessionInsertError.t unit :=
  if bool_decide (is_Some (sessions t !! session_id)) then (t, Err SessionInsertError.SessionIdInUse)
  else if maximum t <=? Z.of_nat (size (sessions t)) then (t, Err SessionInsertError.TableFull)
  else if max_sessions user <=? user_sessions (sessions t) (id user)
  then (t, Err (SessionInsertError.UserLimitReached (id user)))
  else (mkSessionTable (<[session_id := mkActiveSession (id user) peer crypto now]> (sessions t)) (maximum t),
        Ok tt).

Definition SessionTable_get_mut (t : SessionTable) (now session_id : Z) (peer : SocketAddr)
    : SessionTable * res SessionAccessError.t ActiveSession :=
  match sessions t !! session_id with
  | None => (t, Err SessionAccessError.UnknownSession)
  | Some session =>
      if negb (bool_decide (as_peer session = peer)) then (t, Err SessionAccessError.PeerMismatch)
      else
        let session := mkActiveSession (as_user_id session) (as_peer session) (as_crypto session) now in
        (mkSessionTable (<[session_id := session]> (sessions t)) (maximum t), Ok session)
  end.

Definition retain (t : SessionTable) (keep : ActiveSession -> Prop) `{!forall s, Decision (keep s)}
    : SessionTable * Z :=
  let before := Z.of_nat (size (sessions t)) in
  let kept := filter (fun kv => keep kv.2) (sessions t) in
  (mkSessionTable kept (maximum t), before - Z.of_nat (size kept)).

Definition remove_expired (t : SessionTable) (now maximum_idle : Z) : SessionTable * Z :=
  retain t (fun s => duration_since now (as_last_seen s) <= maximum_idle).

Definition remove_user (t : SessionTable) (user_id : Z) : SessionTable * Z :=
  retain t (fun s => as_user_id s <> user_id).

Definition remove_device (t : SessionTable) (public_key : PublicKey) : SessionTable * Z :=
  retain t (fun s => ss_peer_static_key (as_crypto s) <> public_key).

Record ServerState := mkServerState {
  next_user_id : Z;
  registry : UserRegistry.t;
  table : SessionTable;
}.

Record RevokeResult := mkRevokeResult { revoked : bool; closed_sessions : Z }.

Definition ServerState_new (maximum_sessions : Z) : ServerState :=
  mkServerState 1 UserRegistry.new (SessionTable_new maximum_sessions).

Definition create_user (s : ServerState) (name : str) (max_sessions : Z)
    : ServerState * res StateError.t User :=
  let id := next_user_id s in
  match checked_add64 (next_user_id s) 1 with
  | None => (s, Err StateError.UserIdExhausted)
  | Some next =>
      let user := mkUser id name max_sessions in
      let '(r, out) := UserRegistry.add_user (registry s) user in
      (mkServerState next r (table s), _ ← map_err StateError.Registry out; Ok user)
  end.

Definition provision_device (s : ServerState) (entropy : bytes) (user_id : Z)
    : ServerState * res StateError.t (SecretKey * PublicKey) :=
  match KeyPair_generate entropy with
  | Err e => (s, Err (StateError.Crypto e))
  | Panic => (s, Panic)
  | Ok (secret, public) =>
      let '(r, out) := UserRegistry.add_device (registry s) user_id public in
      (mkServerState (next_user_id s) r (table s),
       _ ← map_err StateError.Registry out; Ok (secret, public))
  end.

Definition ServerState_revoke_device (s : ServerState) (public_key : PublicKey) : ServerState * RevokeResult :=
  let '(r, out) := UserRegistry.revoke_device (registry s) public_key in
  let revoked := bool_decide (is_Some out) in
  let '(t, closed) := if revoked then remove_device (table s) public_key else (table s, 0) in
  (mkServerState (next_user_id s) r t, mkRevokeResult revoked closed).

Definition ServerState_revoke_user (s : ServerState) (user_id : Z) : ServerState * RevokeResult :=
  let '(r, out) := UserRegistry.revoke_user (registry s) user_id in
  let revoked := bool_decide (is_Some out) in
  let '(t, closed) := if revoked then remove_user (table s) user_id else (table s, 0) in
  (mkServerState (next_user_id s) r t, mkRevokeResult revoked closed).

Definition ServerState_authorize (s : ServerState) (public_key : PublicKey) : option User :=
  UserRegistry.authorize (registry s) public_key.

Definition insert_session (s : ServerState) (now session_id : Z) (user : User) (peer : SocketAddr)
    (crypto : SecureSession) : ServerState * res StateError.t unit :=
  let '(t, out) := SessionTable_insert (table s) now session_id user peer crypto in
  (mkServerState (next_user_id s) (registry s) t, map_err StateError.Session out).

Definition session_mut (s : ServerState) (now session_id : Z) (peer : SocketAddr)
    : ServerState * res SessionAccessError.t ActiveSession :=
  let '(t, out) := SessionTable_get_mut (table s) now session_id peer in
  (mkServerState (next_user_id s) (registry s) t, out).

End Server.

(** ** Invariant *)

Section ServerTheorems.
Context `{N : Noise}.

Record server_inv (s : ServerState) : Prop := {
  inv_users : forall i u, UserRegistry.users (registry s) !! i = Some u ->
    id u = i /\ i < next_user_id s /\ max_sessions u <> 0 /\ trim (name u) <> [];
  inv_devices : forall k i, UserRegistry.devices (registry s) !! k = Some i ->
    is_Some (UserRegistry.users (registry s) !! i);
  inv_size : Z.of_nat (size (sessions (table s))) <= maximum (table s);
  inv_sessions : forall sid a, sessions (table s) !! sid = Some a ->
    exists u, UserRegistry.users (registry s) !! as_user_id a = Some u /\
              user_sessions (sessions (table s)) (as_user_id a) <= max_sessions u;
}.

(** Every way the state changes; a session is inserted for a user the state has just
    authorised by the key that the handshake authenticated. *)
Inductive server_step (s : ServerState) : ServerState -> Prop :=
| step_create name limit : server_step s (create_user s name limit).1
| step_provision entropy user_id : server_step s (provision_device s entropy user_id).1
| step_revoke_device key : server_step s (ServerState_revoke_device s key).1
| step_revoke_user user_id : server_step s (ServerState_revoke_user s user_id).1
| step_insert now sid key user peer crypto :
    ServerState_authorize s key = Some user ->
    server_step s (insert_session s now sid user peer crypto).1
| step_access now sid peer : server_step s (session_mut s now sid peer).1.

Inductive server_reachable (maximum_sessions : Z) : ServerState -> Prop :=
| reachable_new : server_reachable maximum_sessions (ServerState_new maximum_sessions)
| reachable_step s s' :
    server_reachable maximum_sessions s -> server_step s s' -> server_reachable maximum_sessions s'.

Lemma user_sessions_filter (m : gmap Z ActiveSession) P `{!forall x, Decision (P x)} u :
  user_sessions (filter P m) u <= user_sessions m u.
Proof.
  unfold user_sessions. apply Nat2Z.inj_le, map_subseteq_size.
  apply map_filter_subseteq_mono, map_filter_subseteq.
Qed.

(** Fewer sessions, and no session of a user that is gone. *)
Lemma inv_retain s r (keep : ActiveSession -> Prop) `{!forall x, Decision (keep x)} :
  server_inv s ->
  (forall i u, UserRegistry.users r !! i = Some u -> UserRegistry.users (registry s) !! i = Some u) ->
  (forall k i, UserRegistry.devices r !! k = Some i -> is_Some (UserRegistry.users r !! i)) ->
  (forall sid a, sessions (table s) !! sid = Some a -> keep a ->
     UserRegistry.users r !! as_user_id a = UserRegistry.users (registry s) !! as_user_id a) ->
  server_inv (mkServerState (next_user_id s) r (retain (table s) keep).1).
Proof.
  intros I Hsub Hdev Hkeep. split; simpl.
  - intros i u Hu. apply (inv_users s I). by apply Hsub.
  - done.
  - pose proof (inv_size s I). enough (size (filter (fun kv => keep kv.2) (sessions (table s))) <=
      size (sessions (table s)))%nat by lia. apply map_subseteq_size, map_filter_subseteq.
  - intros sid a [Ha Hk]%map_lookup_filter_Some. simpl in Hk.
    destruct (inv_sessions s I sid a Ha) as (u & Hu & Hle). exists u.
    rewrite (Hkeep sid a Ha Hk). split; [done|].
    etransitivity; [|exact Hle]. apply user_sessions_filter; apply _.
Qed.

Lemma inv_same_table s r n :
  server_inv s -> next_user_id s <= n ->
  (forall i u, UserRegistry.users r !! i = Some u ->
     id u = i /\ i < n /\ max_sessions u <> 0 /\ trim (name u) <> []) ->
  (forall k i, UserRegistry.devices r !! k = Some i -> is_Some (UserRegistry.users r !! i)) ->
  (forall i u, UserRegistry.users (registry s) !! i = Some u -> UserRegistry.users r !! i = Some u) ->
  server_inv (mkServerState n r (table s)).
Proof.
  intros I Hn Hu Hd Hsub. split; simpl; [done|done|apply I|].
  intros sid a Ha. destruct (inv_sessions s I sid a Ha) as (u & Hl & Hle). eauto.
Qed.

Lemma create_user_inv s name limit : server_inv s -> server_inv (create_user s name limit).1.
Proof.
  intros I. unfold create_user, checked_add64. case_if; [|done]. unfold UserRegistry.add_user. simpl.
  repeat case_if; simpl; boolify;
    try (apply inv_same_table; [done|lia|intros i u Hl; pose proof (inv_users s I i u Hl); intuition lia
      |apply I|done]).
  apply inv_same_table; simpl; [done|lia| | |].
  - intros i u. rewrite lookup_insert_Some. intros [[<- <-]|[_ Hl]]; simpl; [split_and!; try done; lia|].
    pose proof (inv_users s I i u Hl). intuition lia.
  - intros k i Hk. destruct (inv_devices s I k i Hk) as [u Hu].
    destruct (decide (i = next_user_id s)) as [->|]; [by rewrite lookup_insert_eq; eauto|].
    rewrite lookup_insert_ne by done. eauto.
  - intros i u Hl. rewrite lookup_insert_ne; [done|]. intros <-.
    pose proof (inv_users s I _ u Hl). lia.
Qed.

Lemma provision_device_inv s entropy user_id : server_inv s -> server_inv (provision_device s entropy user_id).1.
Proof.
  intros I. unfold provision_device. destruct (KeyPair_generate entropy) as [[secret public]| |]; [|done..].
  unfold UserRegistry.add_device. case_if; simpl; boolify; [by destruct s|].
  assert (Hd : forall k i, <[public:=user_id]> (UserRegistry.devices (registry s)) !! k = Some i ->
    is_Some (UserRegistry.users (registry s) !! i)).
  { intros k i. rewrite lookup_insert_Some. intros [[_ <-]|[_ Hk]]; [by apply not_eq_None_Some|].
    by apply (inv_devices s I k i). }
  destruct (UserRegistry.devices (registry s) !! public); simpl;
    (apply inv_same_table; [done|lia|apply I|exact Hd|done]).
Qed.

Lemma revoke_device_inv s key : server_inv s -> server_inv (ServerState_revoke_device s key).1.
Proof.
  intros I. unfold ServerState_revoke_device, UserRegistry.revoke_device. simpl.
  assert (Hd : forall k i, delete key (UserRegistry.devices (registry s)) !! k = Some i ->
    is_Some (UserRegistry.users (registry s) !! i)).
  { intros k i [_ Hk]%lookup_delete_Some. by apply (inv_devices s I k i). }
  case_if.
  - rewrite (surjective_pairing (remove_device (table s) key)). by apply inv_retain.
  - apply inv_same_table; [done|lia|apply I|exact Hd|done].
Qed.

Lemma revoke_user_inv s user_id : server_inv s -> server_inv (ServerState_revoke_user s user_id).1.
Proof.
  intros I. unfold ServerState_revoke_user, UserRegistry.revoke_user.
  destruct (UserRegistry.users (registry s) !! user_id) as [removed|] eqn:Hr; [|by destruct s].
  cbv beta iota zeta. rewrite bool_decide_true by eauto. rewrite (surjective_pairing (remove_user (table s) user_id)).
  apply inv_retain; simpl; [done| | |].
  - by intros i u [_ ?]%lookup_delete_Some.
  - intros k i [Hk Hne]%map_lookup_filter_Some. simpl in Hne.
    rewrite lookup_delete_ne by done. by apply (inv_devices s I k i).
  - intros sid a Ha Hne. by rewrite lookup_delete_ne.
Qed.

Lemma insert_session_inv s now sid key user peer crypto :
  server_inv s -> ServerState_authorize s key = Some user ->
  server_inv (insert_session s now sid user peer crypto).1.
Proof.
  intros I Hauth. unfold insert_session, SessionTable_insert.
  do 3 (case_if; [by destruct s|]). simpl. boolify.
  assert (Huser : UserRegistry.users (registry s) !! id user = Some user).
  { unfold ServerState_authorize, UserRegistry.authorize in Hauth.
    apply bind_Some in Hauth as (i & _ & Hu). by destruct (inv_users s I i user Hu) as [-> _]. }
  assert (Hnone : sessions (table s) !! sid = None) by (by apply eq_None_not_Some).
  set (a := mkActiveSession (id user) peer crypto now).
  assert (Hcount : forall u, user_sessions (<[sid := a]> (sessions (table s))) u =
    user_sessions (sessions (table s)) u + (if decide (id user = u) then 1 else 0)).
  { intros u. unfold user_sessions. rewrite map_filter_insert. simpl. case_decide.
    - rewrite map_size_insert_None by (apply map_lookup_filter_None; by left). lia.
    - rewrite delete_id by done. lia. }
  split; simpl.
  - apply I.
  - apply I.
  - rewrite map_size_insert_None by done. lia.
  - intros sid' a'. rewrite lookup_insert_Some. intros [[<- <-]|[_ Ha]]; rewrite Hcount.
    + exists user. simpl. rewrite decide_True by done. split; [done|lia].
    + destruct (inv_sessions s I sid' a' Ha) as (u & Hu & Hle). exists u. split; [done|].
      case_decide as Heq; [|lia]. rewrite <- Heq in *. simplify_eq. lia.
Qed.

Lemma session_mut_inv s now sid peer : server_inv s -> server_inv (session_mut s now sid peer).1.
Proof.
  intros I. unfold session_mut, SessionTable_get_mut.
  destruct (sessions (table s) !! sid) as [a|] eqn:Ha; [|by destruct s].
  case_if; [by destruct s|]. simpl. set (a' := mkActiveSession _ _ _ now).
  assert (Hcount : forall u, user_sessions (<[sid := a']> (sessions (table s))) u =
    user_sessions (sessions (table s)) u).
  { intros u. transitivity (user_sessions (<[sid := a]> (sessions (table s))) u); [|by rewrite insert_id].
    unfold user_sessions. rewrite !map_filter_insert. simpl. destruct (decide (as_user_id a = u)); [|done].
    by rewrite !map_size_insert_Some by (exists a; by apply map_lookup_filter_Some). }
  split; simpl; [apply I|apply I| |].
  - rewrite map_size_insert_Some by eauto. apply I.
  - intros sid' b. rewrite lookup_insert_Some. intros [[<- <-]|[_ Hb]]; rewrite Hcount; simpl.
    + by apply (inv_sessions s I sid a).
    + by apply (inv_sessions s I sid' b).
Qed.

Lemma server_step_inv s s' : server_inv s -> server_step s s' -> server_inv s'.
Proof.
  intros I []; eauto using create_user_inv, provision_device_inv, revoke_device_inv, revoke_user_inv,
    insert_session_inv, session_mut_inv.
Qed.

Lemma server_new_inv maximum_sessions : 0 <= maximum_sessions -> server_inv (ServerState_new maximum_sessions).
Proof. split; simpl; try done; intros ? ?; by rewrite lookup_empty. Qed.

(** Invariant of the server state over every sequence of operations: the
    sessions never exceed the global limit nor any user's own limit, every session
    belongs to a registered user, every authorised key to a registered user, and user
    ids are unique, below the counter, with a visible name and a positive limit. *)
Theorem server_reachable_inv maximum_sessions s :
  0 <= maximum_sessions -> server_reachable maximum_sessions s -> server_inv s.
Proof.
  intros Hm. induction 1 as [|s s' _ IH Hstep]; [by apply server_new_inv|by eapply server_step_inv].
Qed.

(** Revocation is complete and immediate.  Revoking a user that exists closes
    exactly its sessions, leaves every other session, and no key authorises it
    afterwards; revoking a registered device closes exactly the sessions
    authenticated by that key and the key no longer authorises anyone. *)
Theorem revocation_closes_sessions s :
  server_inv s ->
  (forall user_id, is_Some (UserRegistry.users (registry s) !! user_id) ->
   let '(s', out) := ServerState_revoke_user s user_id in
   revoked out = true /\ closed_sessions out = user_sessions (sessions (table s)) user_id /\
   (forall sid a, sessions (table s') !! sid = Some a <->
      sessions (table s) !! sid = Some a /\ as_user_id a <> user_id) /\
   (forall key u, ServerState_authorize s' key = Some u -> id u <> user_id)) /\
  (forall key, is_Some (UserRegistry.devices (registry s) !! key) ->
   let '(s', out) := ServerState_revoke_device s key in
   revoked out = true /\
   (forall sid a, sessions (table s') !! sid = Some a <->
      sessions (table s) !! sid = Some a /\ ss_peer_static_key (as_crypto a) <> key) /\
   ServerState_authorize s' key = None).
Proof.
  intros I. split.
  - intros user_id [u Hu]. unfold ServerState_revoke_user, UserRegistry.revoke_user. rewrite Hu. simpl.
    split; [done|]. split; [|split].
    + unfold user_sessions.
      pose proof (map_size_filter_compl (fun kv : Z * ActiveSession => as_user_id kv.2 = user_id) (sessions (table s))).
      lia.
    + intros sid a. apply map_lookup_filter_Some.
    + intros key v. unfold ServerState_authorize, UserRegistry.authorize. simpl.
      intros (i & _ & [Hne Hv]%lookup_delete_Some)%bind_Some.
      destruct (inv_users s I i v Hv) as [-> _]. done.
  - intros key [i Hi]. unfold ServerState_revoke_device, UserRegistry.revoke_device. simpl.
    rewrite bool_decide_true by eauto. simpl. split; [done|]. split.
    + intros sid a. apply map_lookup_filter_Some.
    + unfold ServerState_authorize, UserRegistry.authorize. simpl. by rewrite lookup_delete_eq.
Qed.

(** Registering a key that is already registered is reported as an error but has
    already moved the key to the new user: the error does not mean that nothing
    changed. *)
Theorem add_device_duplicate_reassigns r user_id owner key :
  is_Some (UserRegistry.users r !! user_id) -> UserRegistry.devices r !! key = Some owner ->
  let '(r', out) := UserRegistry.add_device r user_id key in
  out = Err RegistryError.DuplicateKey /\ UserRegistry.authorize r' key = UserRegistry.users r !! user_id.
Proof.
  intros [u Hu] Hk. unfold UserRegistry.add_device. rewrite bool_decide_false by (rewrite Hu; done).
  rewrite Hk. split; [done|]. unfold UserRegistry.authorize. simpl. by rewrite lookup_insert_eq.
Qed.

End ServerTheorems.

(** ** Witnesses *)

Import Toy.

(** One user with one device and one session. *)
Definition toy_server : ServerState :=
  let s := ServerState_new 4 in
  let s := (create_user s (ascii_bytes "alice") 2).1 in
  let s := (provision_device s (replicate 32 5) 1).1 in
  (insert_session s 0 77 (mkUser 1 (ascii_bytes "alice") 2) (mkSocketAddr (V4 9) 1000)
     (SecureSession_new (N := toy_noise) 7 (public_key (replicate 32 5)))).1.

Lemma toy_server_reachable : server_reachable 4 toy_server.
Proof.
  unfold toy_server. cbv zeta.
  eapply reachable_step; [|eapply (step_insert _ _ _ (public_key (replicate 32 5))); vm_compute; reflexivity].
  eapply reachable_step; [|apply step_provision].
  eapply reachable_step; [apply reachable_new|apply step_create].
Qed.

Lemma toy_server_inv : server_inv toy_server.
Proof.
  induction toy_server_reachable; [by apply server_new_inv|by eapply server_step_inv].
Qed.

Lemma server_reachable_inv_witness : server_inv toy_server /\ Z.of_nat (size (sessions (table toy_server))) = 1.
Proof.
  split; [|vm_compute; reflexivity].
  apply (server_reachable_inv 4); [lia|apply toy_server_reachable].
Defined.

Lemma revocation_closes_sessions_witness :
  revoked (ServerState_revoke_user toy_server 1).2 = true /\
  closed_sessions (ServerState_revoke_user toy_server 1).2 = 1.
Proof.
  destruct (revocation_closes_sessions toy_server toy_server_inv) as [Hu _].
  specialize (Hu 1 ltac:(eexists; vm_compute; reflexivity)).
  destruct (ServerState_revoke_user toy_server 1) as [s' out] eqn:Hs.
  destruct Hu as (Hr & Hc & _). cbn [snd]. split; [exact Hr|]. rewrite Hc. vm_compute. reflexivity.
Defined.

Lemma add_device_duplicate_reassigns_witness :
  let r := UserRegistry.mk (<[1 := mkUser 1 [65] 2]> (<[2 := mkUser 2 [66] 2]> ∅)) (<[[7] := 1]> ∅) in
  (UserRegistry.add_device r 2 [7]).2 = Err RegistryError.DuplicateKey.
Proof.
  intros r. pose proof (add_device_duplicate_reassigns r 2 1 [7]
    ltac:(eexists; vm_compute; reflexivity) ltac:(vm_compute; reflexivity)) as H.
  destruct (UserRegistry.add_device r 2 [7]) as [r' out]. apply H.
Defined.
