(* ===== verification/Config.v ===== *)
(** * Validated configuration of crates/config

    Key encodings (keys.rs), the client and server configurations and their
    validation (client.rs, server.rs) and the permission check of load.rs.  The
    base64 engine is a library: its two operations are the class [Base64], with
    [Base64Laws] stating that decoding inverts encoding. *)

From S2P Require Import Prelude Protocol Replay Crypto ToyCrypto DataPlane Morph.

Class Base64 := {
  b64_encode : bytes -> str;
  b64_decode : str -> option bytes;
}.

(** URL_SAFE_NO_PAD is strict: it rejects non-canonical input, so encoding inverts
    decoding as well. *)
Class Base64Laws `{Base64} := {
  b64_decode_encode : forall b, b64_decode (b64_encode b) = Some b;
  b64_encode_decode : forall s b, b64_decode s = Some b -> b64_encode b = s;
}.

(** The payloads of I/O and TOML errors and the path are dropped. *)
Module ConfigError.

Inductive t :=
| Io
| Toml
| InsecurePermissions (mode : Z)
| InvalidKeyEncoding
| InvalidKeyLength (actual : Z)
| DuplicateClientAddress
| DuplicateClientKey
| ClientAddressMatchesServer
| ClientOutsideTunnelSubnet
| ServerKeyPairMismatch
| InvalidPrefix (prefix : Z)
| InvalidMtu (mtu : Z)
| EmptyClients.

#[global] Instance eq_dec : EqDecision t.
Proof. solve_decision. Defined.

End ConfigError.

Definition DEFAULT_TUN_MTU : Z := 1420.
Definition MAX_SAFE_TUN_MTU : Z := 1435.

(** [mode & 0o777] must leave no access for group and others. *)
Definition ensure_private_permissions (st_mode : Z) : res ConfigError.t unit :=
  let mode := Z.land st_mode 0x1ff in
  if negb (Z.land mode 0x3f =? 0) then Err (ConfigError.InsecurePermissions mode) else Ok tt.

(** [u32::MAX << (32 - prefix_len)], 0 for a zero prefix. *)
Definition subnet_mask (prefix_len : Z) : Z :=
  if prefix_len =? 0 then 0 else Z.land (Z.shiftl u32_max (32 - prefix_len)) u32_max.

Definition same_subnet (left right : Ipv4Addr) (prefix_len : Z) : bool :=
  let mask := subnet_mask prefix_len in
  Z.land left mask =? Z.land right mask.

Inductive ClientProtocol := Legacy | MorphQuiet | MorphBalanced | MorphParanoid | SpeedyProtocol.

#[global] Instance ClientProtocol_eq_dec : EqDecision ClientProtocol.
Proof. solve_decision. Defined.

Definition morph_profile (p : ClientProtocol) : option Profile.t :=
  match p with
  | Legacy | SpeedyProtocol => None
  | MorphQuiet => Some Profile.Quiet
  | MorphBalanced => Some Profile.Balanced
  | MorphParanoid => Some Profile.Paranoid
  end.

Record ClientConfig := mkClientConfig {
  cc_server : SocketAddr;
  cc_server_public_key : str;
  cc_client_private_key : str;
  cc_tun_name : str;
  cc_protocol : ClientProtocol;
}.

Record ValidatedClientConfig := mkValidatedClientConfig {
  vc_server : SocketAddr;
  vc_server_public_key : PublicKey;
  vc_client_private_key : SecretKey;
  vc_context : bytes;
  vc_tun_name : str;
  vc_protocol : ClientProtocol;
}.

Record ServerTunConfig := mkServerTunConfig {
  tun_name : str;
  tun_address : Ipv4Addr;
  tun_prefix_len : Z;
  tun_mtu : Z;
  tun_dns : Ipv4Addr;
}.

Record AuthorizedClientConfig := mkAuthorizedClientConfig {
  ac_name : str;
  ac_public_key : str;
  ac_address : Ipv4Addr;
}.

Record ServerConfig := mkServerConfig {
  sv_listen : SocketAddr;
  sv_public_endpoint : option SocketAddr;
  sv_server_public_key : str;
  sv_server_private_key : str;
  sv_tun : ServerTunConfig;
  sv_clients : list AuthorizedClientConfig;
}.

Record ValidatedAuthorizedClient := mkValidatedAuthorizedClient {
  va_name : str;
  va_public_key : PublicKey;
  va_address : Ipv4Addr;
}.

Record ValidatedServerConfig := mkValidatedServerConfig {
  vs_listen : SocketAddr;
  vs_public_endpoint : option SocketAddr;
  vs_server_public_key : PublicKey;
  vs_server_private_key : SecretKey;
  vs_context : bytes;
  vs_tun : ServerTunConfig;
  vs_clients : list ValidatedAuthorizedClient;
}.

Section Config.
Context `{B : Base64, P : Primitives}.

Definition decode_public_key (encoded : str) : res ConfigError.t PublicKey :=
  bytes ← ok_or (b64_decode encoded) ConfigError.InvalidKeyEncoding;
  try_into_array KEY_LEN bytes (ConfigError.InvalidKeyLength (len bytes)).

Definition decode_secret_key (encoded : str) : res ConfigError.t SecretKey :=
  bytes ← ok_or (b64_decode encoded) ConfigError.InvalidKeyEncoding;
  try_into_array KEY_LEN bytes (ConfigError.InvalidKeyLength (len bytes)).

Definition encode_public_key (key : PublicKey) : str := b64_encode key.
Definition encode_secret_key (key : SecretKey) : str := b64_encode key.

Definition ClientConfig_validate (c : ClientConfig) : res ConfigError.t ValidatedClientConfig :=
  server_public_key ← decode_public_key (cc_server_public_key c);
  client_private_key ← decode_secret_key (cc_client_private_key c);
  let context :=
    match cc_protocol c with
    | SpeedyProtocol => context_for_speedy_server server_public_key
    | _ => context_for_server server_public_key
    end in
  Ok (mkValidatedClientConfig (cc_server c) server_public_key client_private_key context
        (cc_tun_name c) (cc_protocol c)).

(** The loop state: addresses and keys seen, and the clients accepted so far. *)
Record validation := mkValidation {
  seen_addresses : gset Z;
  seen_keys : gset (list Z);
  accepted : list ValidatedAuthorizedClient;
}.

Definition validate_client (tun : ServerTunConfig) (v : validation) (client : AuthorizedClientConfig)
    : res ConfigError.t validation :=
  if ac_address client =? tun_address tun then Err ConfigError.ClientAddressMatchesServer
  else if negb (same_subnet (ac_address client) (tun_address tun) (tun_prefix_len tun))
  then Err ConfigError.ClientOutsideTunnelSubnet
  else if bool_decide (ac_address client ∈ seen_addresses v) then Err ConfigError.DuplicateClientAddress
  else
    public_key ← decode_public_key (ac_public_key client);
    if bool_decide (public_key ∈ seen_keys v) then Err ConfigError.DuplicateClientKey
    else Ok (mkValidation ({[ ac_address client ]} ∪ seen_addresses v) ({[ public_key ]} ∪ seen_keys v)
               (accepted v ++ [mkValidatedAuthorizedClient (ac_name client) public_key (ac_address client)])).

Definition ServerConfig_validate (c : ServerConfig) : res ConfigError.t ValidatedServerConfig :=
  if bool_decide (sv_clients c = []) then Err ConfigError.EmptyClients
  else if 32 <? tun_prefix_len (sv_tun c) then Err (ConfigError.InvalidPrefix (tun_prefix_len (sv_tun c)))
  else if negb ((576 <=? tun_mtu (sv_tun c)) && (tun_mtu (sv_tun c) <=? 9000))
  then Err (ConfigError.InvalidMtu (tun_mtu (sv_tun c)))
  else
    server_public_key ← decode_public_key (sv_server_public_key c);
    server_private_key ← decode_secret_key (sv_server_private_key c);
    if negb (bool_decide (public_key server_private_key = server_public_key))
    then Err ConfigError.ServerKeyPairMismatch
    else
      v ← for_each (validate_client (sv_tun c)) (sv_clients c) (mkValidation ∅ ∅ []);
      Ok (mkValidatedServerConfig (sv_listen c) (sv_public_endpoint c) server_public_key server_private_key
            (context_for_server server_public_key) (sv_tun c) (accepted v)).

End Config.

(** ** Key encodings *)

Section ConfigTheorems.
Context `{B : Base64, BL : !Base64Laws, P : Primitives}.

Lemma decode_public_key_ok s k :
  decode_public_key s = Ok k <-> s = encode_public_key k /\ len k = KEY_LEN.
Proof.
  unfold decode_public_key, encode_public_key, try_into_array. split.
  - intros (b & Hb & H)%bind_ok. destruct (b64_decode s) as [b'|] eqn:Hd; [|done].
    injection Hb as ->. case_decide as Hl; [|done]. injection H as ->.
    by rewrite (b64_encode_decode s k Hd).
  - intros [-> Hl]. rewrite b64_decode_encode. simpl. by rewrite decide_True.
Qed.

(** ** The server configuration *)

(** One configured client and what it validates to. *)
Definition client_ok (tun : ServerTunConfig) (c : AuthorizedClientConfig) (v : ValidatedAuthorizedClient) : Prop :=
  ac_address c <> tun_address tun /\ same_subnet (ac_address c) (tun_address tun) (tun_prefix_len tun) = true /\
  ac_public_key c = encode_public_key (va_public_key v) /\ len (va_public_key v) = KEY_LEN /\
  va_name v = ac_name c /\ va_address v = ac_address c.

Definition clients_ok (tun : ServerTunConfig) (seen_a : gset Z) (seen_k : gset (list Z))
    (cs : list AuthorizedClientConfig) (vs : list ValidatedAuthorizedClient) : Prop :=
  Forall2 (client_ok tun) cs vs /\ NoDup (map va_address vs) /\ NoDup (map va_public_key vs) /\
  (forall v, v ∈ vs -> (va_address v ∉ seen_a) /\ (va_public_key v ∉ seen_k)).

Lemma validate_loop_sound tun cs v v' :
  for_each (validate_client tun) cs v = Ok v' ->
  exists vs, accepted v' = accepted v ++ vs /\ clients_ok tun (seen_addresses v) (seen_keys v) cs vs.
Proof.
  revert v. induction cs as [|c cs IH]; intros v; cbn [for_each].
  { intros [= <-]. exists []. rewrite app_nil_r. split; [done|].
    split_and!; [constructor|constructor|constructor|]. intros v' Hin. by apply not_elem_of_nil in Hin. }
  intros (v1 & H1 & H2)%bind_ok. revert H1. unfold validate_client.
  do 3 (case_if; [done|]). intros (k & Hk & H1)%bind_ok. revert H1. case_if; [done|]. intros [= <-]. boolify.
  apply decode_public_key_ok in Hk as [Henc Hlen].
  destruct (IH _ H2) as (vs & Hacc & Hall & Hna & Hnk & Hfresh). simpl in *.
  exists (mkValidatedAuthorizedClient (ac_name c) k (ac_address c) :: vs).
  split; [by rewrite Hacc, <- app_assoc|]. split_and!.
  - constructor; [|done]. by split_and!.
  - constructor; [|done]. simpl. intros Hin. apply list_elem_of_In, in_map_iff in Hin as (x & Hx & Hin).
    apply list_elem_of_In in Hin. destruct (Hfresh x Hin) as [Ha _]. rewrite Hx in Ha. set_solver.
  - constructor; [|done]. simpl. intros Hin. apply list_elem_of_In, in_map_iff in Hin as (x & Hx & Hin).
    apply list_elem_of_In in Hin. destruct (Hfresh x Hin) as [_ Ha]. rewrite Hx in Ha. set_solver.
  - intros x [->|Hin]%elem_of_cons; [done|]. destruct (Hfresh x Hin). set_solver.
Qed.

Lemma validate_loop_complete tun cs vs v :
  clients_ok tun (seen_addresses v) (seen_keys v) cs vs ->
  exists v', for_each (validate_client tun) cs v = Ok v' /\ accepted v' = accepted v ++ vs.
Proof.
  intros (Hall & Hna & Hnk & Hfresh). revert v Hna Hnk Hfresh.
  induction Hall as [|c x cs vs Hc Hall IH]; intros v Hna Hnk Hfresh; cbn [for_each].
  { exists v. by rewrite app_nil_r. }
  destruct Hc as (Hne & Hsub & Henc & Hlen & Hname & Haddr).
  inversion_clear Hna as [|? ? Hna1 Hna2]. inversion_clear Hnk as [|? ? Hnk1 Hnk2].
  destruct (Hfresh x ltac:(by left)) as [Hfa Hfk].
  unfold validate_client at 2. destruct (Z.eqb_spec (ac_address c) (tun_address tun)); [done|].
  rewrite Hsub. cbn [negb]. rewrite bool_decide_false by (by rewrite <- Haddr).
  rewrite (proj2 (decode_public_key_ok (ac_public_key c) (va_public_key x)) (conj Henc Hlen)). res_simpl.
  rewrite bool_decide_false by done.
  edestruct IH as (v' & Hv' & Hacc); [done|done| |exists v'; split; [exact Hv'|]].
  - simpl. intros y Hy. destruct (Hfresh y ltac:(by right)) as [Hya Hyk].
    assert (va_address y <> ac_address c).
    { intros Heq. apply Hna1. rewrite Haddr, <- Heq. apply list_elem_of_In, in_map, list_elem_of_In, Hy. }
    assert (va_public_key y <> va_public_key x).
    { intros Heq. apply Hnk1. rewrite <- Heq. apply list_elem_of_In, in_map, list_elem_of_In, Hy. }
    set_solver.
  - rewrite Hacc. simpl. rewrite <- app_assoc, <- Hname, <- Haddr. by destruct x.
Qed.

(** [ServerConfig::validate] accepts exactly the consistent configurations: at
    least one client, prefix and MTU in range, the private key of the public key, and
    clients with well-encoded distinct keys and distinct addresses inside the tunnel
    subnet other than the server's own; and the result is those clients in order with
    the deployment context of the server key. *)
Theorem server_config_validate_iff c vc :
  ServerConfig_validate c = Ok vc <->
  sv_clients c <> [] /\ tun_prefix_len (sv_tun c) <= 32 /\ 576 <= tun_mtu (sv_tun c) <= 9000 /\
  sv_server_public_key c = encode_public_key (vs_server_public_key vc) /\
  sv_server_private_key c = encode_secret_key (vs_server_private_key vc) /\
  len (vs_server_public_key vc) = KEY_LEN /\ len (vs_server_private_key vc) = KEY_LEN /\
  public_key (vs_server_private_key vc) = vs_server_public_key vc /\
  clients_ok (sv_tun c) ∅ ∅ (sv_clients c) (vs_clients vc) /\
  vs_listen vc = sv_listen c /\ vs_public_endpoint vc = sv_public_endpoint c /\ vs_tun vc = sv_tun c /\
  vs_context vc = context_for_server (vs_server_public_key vc).
Proof.
  unfold ServerConfig_validate. change decode_secret_key with decode_public_key.
  change encode_secret_key with encode_public_key. split.
  - do 3 (case_if; [done|]). boolify.
    intros (pk & [Hpk Hpkl]%decode_public_key_ok & (sk & [Hsk Hskl]%decode_public_key_ok & Hloop)%bind_ok)%bind_ok.
    revert Hloop. case_if; [done|]. boolify. intros (v & Hv & [= <-])%bind_ok.
    apply validate_loop_sound in Hv as (vs & Hacc & Hok). simpl in *. rewrite Hacc. by split_and!.
  - intros (Hne & Hpre & Hmtu & Hpk & Hsk & Hpkl & Hskl & Hpair & Hok & Hl & He & Ht & Hc).
    rewrite bool_decide_false by done.
    destruct (Z.ltb_spec 32 (tun_prefix_len (sv_tun c))); [lia|].
    destruct (Z.leb_spec 576 (tun_mtu (sv_tun c))); [|lia].
    destruct (Z.leb_spec (tun_mtu (sv_tun c)) 9000); [|lia]. cbn [andb negb].
    rewrite (proj2 (decode_public_key_ok _ _) (conj Hpk Hpkl)). res_simpl.
    rewrite (proj2 (decode_public_key_ok _ _) (conj Hsk Hskl)).
    rewrite bool_decide_true by done. cbn [negb].
    destruct (validate_loop_complete (sv_tun c) (sv_clients c) (vs_clients vc) (mkValidation ∅ ∅ []) Hok)
      as (v & -> & Hacc). rewrite Hacc. simpl. rewrite <- Hl, <- He, <- Ht, <- Hc. by destruct vc.
Qed.

End ConfigTheorems.

(** ** Witnesses *)

Module ToyConfig.

(** Text that is its own encoding. *)
#[export] Instance toy_base64 : Base64 := { b64_encode b := b; b64_decode s := Some s }.

#[export] Instance toy_base64_laws : Base64Laws.
Proof. split; [done|]. intros s b [= ->]. done. Qed.

Import Toy.

Definition toy_tun : ServerTunConfig :=
  mkServerTunConfig [] (ipv4_new 10 77 0 1) 24 1280 (ipv4_new 1 1 1 1).

Definition toy_server_key : bytes := replicate 32 5.
Definition toy_client_key (i : Z) : bytes := i :: replicate 31 2.

Definition toy_config : ServerConfig :=
  mkServerConfig (mkSocketAddr (V4 0) 51820) None (public_key toy_server_key) toy_server_key toy_tun
    [mkAuthorizedClientConfig [97] (public_key (toy_client_key 1)) (ipv4_new 10 77 0 2);
     mkAuthorizedClientConfig [98] (public_key (toy_client_key 2)) (ipv4_new 10 77 0 3)].

Definition toy_validated : ValidatedServerConfig :=
  mkValidatedServerConfig (mkSocketAddr (V4 0) 51820) None (public_key toy_server_key) toy_server_key
    (context_for_server (public_key toy_server_key)) toy_tun
    [mkValidatedAuthorizedClient [97] (public_key (toy_client_key 1)) (ipv4_new 10 77 0 2);
     mkValidatedAuthorizedClient [98] (public_key (toy_client_key 2)) (ipv4_new 10 77 0 3)].

Lemma server_config_validate_iff_witness :
  ServerConfig_validate toy_config = Ok toy_validated /\
  NoDup (map va_address (vs_clients toy_validated)).
Proof.
  assert (Hv : ServerConfig_validate toy_config = Ok toy_validated) by (vm_compute; reflexivity).
  split; [exact Hv|].
  apply (server_config_validate_iff toy_config toy_validated) in Hv.
  destruct Hv as (_ & _ & _ & _ & _ & _ & _ & _ & Hok & _). apply Hok.
Defined.

End ToyConfig.
