(* ===== verification/Registry.v ===== *)
(** * The device registry of crates/admin-api (registry.rs, registry_store.rs)

    The registry keeps the device records in memory and in a private TOML file, and a
    lease per key.  A [DeviceAuthorization] is an [Arc<AtomicBool>] that a lease shares
    with the sessions of the daemon: it is a pointer into the heap [flags], so that a
    revocation is seen by every holder.  The lock around the registry is not poisoned;
    the outcome of the file-system calls of one operation is the argument [io]. *)

From S2P Require Import Prelude Protocol Replay Crypto ToyCrypto DataPlane Morph Config.

Inductive DevicePlatform := Android | Linux.

#[global] Instance DevicePlatform_eq_dec : EqDecision DevicePlatform.
Proof. solve_decision. Defined.

Record DeviceRecord := mkDeviceRecord {
  dr_name : str;
  dr_platform : DevicePlatform;
  dr_public_key : str;
  dr_address : Ipv4Addr;
}.

#[global] Instance DeviceRecord_eq_dec : EqDecision DeviceRecord.
Proof. solve_decision. Defined.

(** [RegistryError] carries a message; the constructors are the messages. *)
Module RegistryError.

Inductive t :=
| InvalidKey (e : ConfigError.t)
| KeyGeneration (e : CryptoError.t)
| EmptyRegistry
| DuplicateDeviceKey
| OutsideSubnet
| DuplicateAddress
| InvalidName
| InvalidPrefix
| PoolExhausted
| LastDevice
| UnsupportedVersion
| InsecurePermissions (mode : Z)
| Io
| Toml.

End RegistryError.

Record DeviceLease := mkDeviceLease {
  lease_name : str;
  lease_address : Ipv4Addr;
  lease_public_key : PublicKey;
  lease_authorization : Z;
}.

Record SeedDevice := mkSeedDevice { seed_name : str; seed_public_key : PublicKey; seed_address : Ipv4Addr }.

Record DeviceRegistry := mkDeviceRegistry {
  tunnel_address : Ipv4Addr;
  prefix_len : Z;
  devices : list DeviceRecord;
  leases : gmap (list Z) DeviceLease;
}.

(** The file of the registry: its mode and text; [None] when it does not exist. *)
Record file := mkFile { st_mode : Z; contents : str }.

Definition REGISTRY_VERSION : Z := 1.
Definition MAX_DEVICE_NAME_LEN : Z := 80.

Record RegistryDocument := mkRegistryDocument { version : Z; document_devices : list DeviceRecord }.

(** The TOML library, and that it reads back what it wrote. *)
Class Toml := {
  to_string_pretty : RegistryDocument -> option str;
  from_str : str -> option RegistryDocument;
}.

Class TomlLaws `{Toml} := {
  toml_roundtrip : forall d text, to_string_pretty d = Some text -> from_str text = Some d;
}.

(** ** registry_store.rs *)

(** The UTF-8 length of a code point, for [str::len]. *)
Definition utf8_len (c : Z) : Z :=
  if c <? 0x80 then 1 else if c <? 0x800 then 2 else if c <? 0x10000 then 3 else 4.

Definition str_len (s : str) : Z := fold_right (fun c n => utf8_len c + n) 0 s.

(** [char::is_control]: general category Cc. *)
Definition is_control (c : Z) : bool :=
  ((0 <=? c) && (c <=? 0x1f)) || ((0x7f <=? c) && (c <=? 0x9f)).

Definition validate_name (name : str) : res RegistryError.t unit :=
  if bool_decide (name = []) || (MAX_DEVICE_NAME_LEN <? str_len name) || existsb is_control name
  then Err RegistryError.InvalidName else Ok tt.

Definition prefix_mask (prefix_len : Z) : res RegistryError.t Z :=
  if (prefix_len =? 0) || (30 <? prefix_len) then Err RegistryError.InvalidPrefix
  else Ok (Z.land (Z.shiftl u32_max (32 - prefix_len)) u32_max).

(** [(from..to).find(free)], at most [n] candidates. *)
Fixpoint find_from (free : Z -> bool) (from : Z) (n : nat) : option Z :=
  match n with
  | O => None
  | S n => if free from then Some from else find_from free (from + 1) n
  end.

Definition next_address (devices : list DeviceRecord) (tunnel_address : Ipv4Addr) (prefix_len : Z)
    : res RegistryError.t Ipv4Addr :=
  mask ← prefix_mask prefix_len;
  let network := Z.land tunnel_address mask in
  let broadcast := Z.lor network (Z.lxor mask u32_max) in
  let used : gset Z := list_to_set (map dr_address devices) in
  let upper := Z.min broadcast (Z.min (network + 65535) u32_max) in
  ok_or (find_from (fun candidate => negb (candidate =? tunnel_address) && bool_decide (candidate ∉ used))
           (network + 1) (Z.to_nat (upper - (network + 1)))) RegistryError.PoolExhausted.

Section Store.
Context `{T : Toml, B : Base64, P : Primitives, N : Noise}.

Definition load_devices (io : bool) (f : file) : res RegistryError.t (list DeviceRecord) :=
  let mode := Z.land (st_mode f) 0x1ff in
  if negb (Z.land mode 0x3f =? 0) then Err (RegistryError.InsecurePermissions mode)
  else if negb io then Err RegistryError.Io
  else
    document ← ok_or (from_str (contents f)) RegistryError.Toml;
    if negb (version document =? REGISTRY_VERSION) then Err RegistryError.UnsupportedVersion
    else Ok (document_devices document).

(** The temporary file replaces the registry atomically as the last step, so a failure
    leaves the old file; the new file has mode 0o600. *)
Definition persist_devices (io : bool) (disk : option file) (devices : list DeviceRecord)
    : option file * res RegistryError.t unit :=
  match to_string_pretty (mkRegistryDocument REGISTRY_VERSION devices) with
  | None => (disk, Err RegistryError.Toml)
  | Some encoded => if io then (Some (mkFile 0x180 encoded), Ok tt) else (disk, Err RegistryError.Io)
  end.

(** The loop of [validate_devices]: keys and addresses seen so far. *)
Definition validate_device (tunnel_address mask network : Z) (seen : gset (list Z) * gset Z)
    (device : DeviceRecord) : res RegistryError.t (gset (list Z) * gset Z) :=
  let '(keys, addresses) := seen in
  _ ← validate_name (dr_name device);
  key ← map_err RegistryError.InvalidKey (decode_public_key (dr_public_key device));
  if bool_decide (key ∈ keys) then Err RegistryError.DuplicateDeviceKey
  else if (dr_address device =? tunnel_address) || negb (Z.land (dr_address device) mask =? network)
  then Err RegistryError.OutsideSubnet
  else if bool_decide (dr_address device ∈ addresses) then Err RegistryError.DuplicateAddress
  else Ok ({[ key ]} ∪ keys, {[ dr_address device ]} ∪ addresses).

Definition validate_devices (devices : list DeviceRecord) (tunnel_address : Ipv4Addr) (prefix_len : Z)
    : res RegistryError.t unit :=
  if bool_decide (devices = []) then Err RegistryError.EmptyRegistry
  else
    mask ← prefix_mask prefix_len;
    let network := Z.land tunnel_address mask in
    _ ← for_each (validate_device tunnel_address mask network) devices (∅, ∅);
    Ok tt.

(** ** registry.rs *)

(** The heap of authorization flags: [DeviceAuthorization::active] allocates one. *)
Record flags := mkFlags { cells : gmap Z bool; next_cell : Z }.

Definition active (h : flags) : flags * Z :=
  (mkFlags (<[next_cell h := true]> (cells h)) (next_cell h + 1), next_cell h).

Definition is_active (h : flags) (authorization : Z) : bool := default false (cells h !! authorization).

Definition revoke_flag (h : flags) (authorization : Z) : flags :=
  mkFlags (<[authorization := false]> (cells h)) (next_cell h).

Definition build_lease (s : flags * gmap (list Z) DeviceLease) (device : DeviceRecord)
    : res RegistryError.t (flags * gmap (list Z) DeviceLease) :=
  let '(h, leases) := s in
  public_key ← map_err RegistryError.InvalidKey (decode_public_key (dr_public_key device));
  let '(h, authorization) := active h in
  Ok (h, <[public_key := mkDeviceLease (dr_name device) (dr_address device) public_key authorization]> leases).

Definition build_leases (h : flags) (devices : list DeviceRecord)
    : res RegistryError.t (flags * gmap (list Z) DeviceLease) :=
  for_each build_lease devices (h, ∅).

(** The registry, its file and the flags it shares with the sessions. *)
Record world := mkWorld { w_registry : DeviceRegistry; w_flags : flags; w_disk : option file }.

(** [SharedDeviceRegistry::open] *)
Definition open (read_io write_io : bool) (disk : option file) (h : flags) (seeds : list SeedDevice)
    (tunnel_address : Ipv4Addr) (prefix_len : Z) : option file * res RegistryError.t world :=
  let loaded :=
    match disk with
    | Some f => load_devices read_io f
    | None =>
        Ok (map (fun seed => mkDeviceRecord (seed_name seed) Linux (encode_public_key (seed_public_key seed))
                               (seed_address seed)) seeds)
    end in
  match (devices ← loaded;
         _ ← validate_devices devices tunnel_address prefix_len;
         '(h, leases) ← build_leases h devices;
         Ok (h, mkDeviceRegistry tunnel_address prefix_len devices leases)) with
  | Err e => (disk, Err e)
  | Panic => (disk, Panic)
  | Ok (h, registry) =>
      match disk with
      | Some _ => (disk, Ok (mkWorld registry h disk))
      | None =>
          let '(disk, out) := persist_devices write_io disk (devices registry) in
          (disk, _ ← out; Ok (mkWorld registry h disk))
      end
  end.

Definition list_devices (w : world) : list DeviceRecord := devices (w_registry w).

Definition authorize (w : world) (public_key : PublicKey) : option DeviceLease :=
  leases (w_registry w) !! public_key.

Definition provision (io : bool) (entropy : bytes) (w : world) (name : str) (platform : DevicePlatform)
    : world * res RegistryError.t (DeviceRecord * SecretKey) :=
  let name := trim name in
  let registry := w_registry w in
  match (_ ← validate_name name;
         keys ← map_err RegistryError.KeyGeneration (KeyPair_generate entropy);
         address ← next_address (devices registry) (tunnel_address registry) (prefix_len registry);
         Ok (keys, address)) with
  | Err e => (w, Err e)
  | Panic => (w, Panic)
  | Ok ((secret, public), address) =>
      let record := mkDeviceRecord name platform (encode_public_key public) address in
      let next := devices registry ++ [record] in
      let '(disk, out) := persist_devices io (w_disk w) next in
      match out with
      | Err e => (mkWorld registry (w_flags w) disk, Err e)
      | Panic => (mkWorld registry (w_flags w) disk, Panic)
      | Ok _ =>
          let '(h, authorization) := active (w_flags w) in
          let lease := mkDeviceLease (dr_name record) (dr_address record) public authorization in
          (mkWorld (mkDeviceRegistry (tunnel_address registry) (prefix_len registry) next
                      (<[public := lease]> (leases registry))) h disk,
           Ok (record, secret))
      end
  end.

Definition revoke (io : bool) (w : world) (public_key : str) : world * res RegistryError.t bool :=
  let registry := w_registry w in
  match decode_public_key public_key with
  | Err e => (w, Err (RegistryError.InvalidKey e))
  | Panic => (w, Panic)
  | Ok decoded =>
      let next := filter (fun device => dr_public_key device <> public_key) (devices registry) in
      if len next =? len (devices registry) then (w, Ok false)
      else if bool_decide (next = []) then (w, Err RegistryError.LastDevice)
      else
        let '(disk, out) := persist_devices io (w_disk w) next in
        match out with
        | Err e => (mkWorld registry (w_flags w) disk, Err e)
        | Panic => (mkWorld registry (w_flags w) disk, Panic)
        | Ok _ =>
            let removed := leases registry !! decoded in
            let registry :=
              mkDeviceRegistry (tunnel_address registry) (prefix_len registry) next
                (delete decoded (leases registry)) in
            let h := match removed with
                     | Some lease => revoke_flag (w_flags w) (lease_authorization lease)
                     | None => w_flags w
                     end in
            (mkWorld registry h disk, Ok true)
        end
  end.

End Store.

(** ** Subnet arithmetic *)

Lemma testbit_ones n i : 0 <= n -> 0 <= i -> Z.testbit (Z.ones n) i = (i <? n).
Proof.
  intros. destruct (Z.ltb_spec i n); [apply Z.ones_spec_low|apply Z.ones_spec_high]; lia.
Qed.

Lemma u32_max_ones : u32_max = Z.ones 32.
Proof. reflexivity. Qed.

Lemma mask_bits p i :
  1 <= p <= 30 -> 0 <= i ->
  Z.testbit (Z.land (Z.shiftl u32_max (32 - p)) u32_max) i = (32 - p <=? i) && (i <? 32).
Proof.
  intros Hp Hi. rewrite Z.land_spec, Z.shiftl_spec, u32_max_ones, (testbit_ones 32 i) by lia.
  destruct (Z.leb_spec (32 - p) i); simpl.
  - rewrite testbit_ones by lia. destruct (Z.ltb_spec (i - (32 - p)) 32), (Z.ltb_spec i 32); simpl; lia || done.
  - by rewrite Z.testbit_neg_r by lia.
Qed.

(** The network of an address, as a multiple of the block size. *)
Lemma network_eq t p :
  u32 t -> 1 <= p <= 30 ->
  Z.land t (Z.land (Z.shiftl u32_max (32 - p)) u32_max) = t / 2 ^ (32 - p) * 2 ^ (32 - p).
Proof.
  intros Ht Hp. rewrite <- Z.shiftr_div_pow2, <- Z.shiftl_mul_pow2, <- Z.ldiff_ones_r by lia.
  apply Z.bits_inj'. intros i Hi. rewrite Z.land_spec, mask_bits, Z.ldiff_spec, testbit_ones by lia.
  destruct (Z.testbit t i) eqn:Hb; [|done]. simpl.
  assert (i < 32).
  { destruct (Z.lt_ge_cases i 32); [done|]. unfold uint in Ht.
    rewrite (Z.bits_above_log2 t i) in Hb; [done|lia|].
    destruct (Z.eq_dec t 0) as [->|]; [simpl; lia|]. apply Z.log2_lt_pow2; [lia|].
    apply Z.lt_le_trans with (2 ^ 32); [lia|]. apply Z.pow_le_mono_r; lia. }
  destruct (Z.ltb_spec i 32), (Z.leb_spec (32 - p) i), (Z.ltb_spec i (32 - p)); simpl; lia || done.
Qed.

Lemma broadcast_eq t p :
  u32 t -> 1 <= p <= 30 ->
  let mask := Z.land (Z.shiftl u32_max (32 - p)) u32_max in
  Z.lor (Z.land t mask) (Z.lxor mask u32_max) = Z.land t mask + 2 ^ (32 - p) - 1.
Proof.
  intros Ht Hp mask.
  assert (Hnot : Z.lxor mask u32_max = Z.ones (32 - p)).
  { apply Z.bits_inj'. intros i Hi. unfold mask.
    rewrite Z.lxor_spec, mask_bits, u32_max_ones, !testbit_ones by lia.
    destruct (Z.leb_spec (32 - p) i), (Z.ltb_spec i 32), (Z.ltb_spec i (32 - p)); simpl; lia || done. }
  assert (Hdisj : Z.land (Z.land t mask) (Z.lxor mask u32_max) = 0).
  { rewrite Hnot. unfold mask. rewrite network_eq, Z.land_ones by (done || lia). apply Z.mod_mul. lia. }
  pose proof (Z.add_lor_land (Z.land t mask) (Z.lxor mask u32_max)) as Hadd.
  rewrite Hdisj in Hadd. rewrite Hnot in *. rewrite Z.ones_equiv in *. lia.
Qed.

(** ** Allocation of addresses *)

Lemma find_from_some free from n a :
  find_from free from n = Some a ->
  from <= a < from + Z.of_nat n /\ free a = true /\ forall b, from <= b < a -> free b = false.
Proof.
  revert from. induction n as [|n IH]; intros from; simpl; [done|].
  destruct (free from) eqn:Hf.
  - intros [= <-]. split; [lia|]. split; [done|lia].
  - intros (Ha & Hfree & Hmin)%IH. split; [lia|]. split; [done|].
    intros b Hb. destruct (Z.eq_dec b from) as [->|]; [done|]. apply Hmin. lia.
Qed.

Lemma find_from_none free from n :
  find_from free from n = None -> forall b, from <= b < from + Z.of_nat n -> free b = false.
Proof.
  revert from. induction n as [|n IH]; intros from; simpl; [lia|].
  destruct (free from) eqn:Hf; [done|]. intros Hn b Hb.
  destruct (Z.eq_dec b from) as [->|]; [done|]. apply (IH _ Hn). lia.
Qed.

(** Candidates: host addresses of the subnet, at most the first 65534. *)
Definition host_address (tunnel prefix_len a : Z) : Prop :=
  let block := 2 ^ (32 - prefix_len) in
  let network := tunnel / block * block in
  network < a < network + Z.min (block - 1) 65535.

Definition free_address (devices : list DeviceRecord) (tunnel prefix_len a : Z) : Prop :=
  host_address tunnel prefix_len a /\ a <> tunnel /\ a ∉ map dr_address devices.

Lemma next_address_spec ds tunnel p :
  u32 tunnel -> 1 <= p <= 30 ->
  match next_address ds tunnel p with
  | Ok a => free_address ds tunnel p a /\ (forall b, free_address ds tunnel p b -> a <= b) /\
            u32 a /\ Z.land a (subnet_mask p) = Z.land tunnel (subnet_mask p)
  | Err e => e = RegistryError.PoolExhausted /\ forall b, ~ free_address ds tunnel p b
  | Panic => False
  end.
Proof.
  intros Ht Hp. unfold next_address, prefix_mask.
  destruct (Z.eqb_spec p 0); [lia|]. destruct (Z.ltb_spec 30 p); [lia|]. cbn [orb mbind res_bind].
  rewrite broadcast_eq, network_eq by done. unfold free_address, host_address.
  set (block := 2 ^ (32 - p)). set (network := tunnel / block * block).
  assert (Hblock : 4 <= block <= 2 ^ 31).
  { unfold block. change 4 with (2 ^ 2). split; apply Z.pow_le_mono_r; lia. }
  assert (Hnet : 0 <= network <= tunnel /\ tunnel < network + block).
  { unfold uint, network in *. pose proof (Z.mod_pos_bound tunnel block ltac:(lia)).
    pose proof (Z_div_mod_eq_full tunnel block). pose proof (Z.div_pos tunnel block). lia. }
  assert (Htop : network + block <= 2 ^ 32).
  { unfold network, uint in *. assert (Hq : tunnel / block < 2 ^ p).
    { apply Z.div_lt_upper_bound; [lia|]. unfold block. rewrite <- Z.pow_add_r by lia.
      replace (32 - p + p) with 32 by lia. lia. }
    replace (2 ^ 32) with (2 ^ p * block) by (unfold block; rewrite <- Z.pow_add_r by lia; f_equal; lia). nia. }
  set (free := fun candidate => _). set (upper := Z.min (network + block - 1) _).
  assert (Hupper : upper = network + Z.min (block - 1) 65535).
  { unfold upper, u32_max. lia. }
  assert (Hfree : forall a, free a = true <-> a <> tunnel /\ a ∉ map dr_address ds).
  { intros a. unfold free. rewrite andb_true_iff, negb_true_iff, Z.eqb_neq, bool_decide_eq_true.
    by rewrite elem_of_list_to_set. }
  destruct (find_from free (network + 1) _) as [a|] eqn:Hf; simpl.
  - apply find_from_some in Hf as (Ha & Hfa & Hmin). rewrite Hupper in Ha.
    assert (Hrange : network < a < network + Z.min (block - 1) 65535) by lia.
    apply Hfree in Hfa as [Hne Hnin]. split; [done|]. split; [|split].
    + intros b (Hb & Hbt & Hbn). destruct (Z.le_gt_cases a b); [done|].
      specialize (Hmin b ltac:(lia)). assert (free b = true) by (apply Hfree; done). congruence.
    + unfold uint. lia.
    + unfold subnet_mask. destruct (Z.eqb_spec p 0); [lia|]. rewrite !network_eq by (unfold uint; done || lia).
      fold block network. f_equal. symmetry. unfold network.
      apply Z.div_unique with (a - network); [lia|unfold network; lia].
  - split; [done|]. intros b (Hb & Hbt & Hbn).
    pose proof (find_from_none _ _ _ Hf b) as Hn. rewrite Hupper in Hn. specialize (Hn ltac:(lia)).
    assert (free b = true) by (apply Hfree; done). congruence.
Qed.

(** ** Validity of a list of devices *)

Section RegistryTheorems.
Context `{T : Toml, TL : !TomlLaws, B : Base64, BL : !Base64Laws, P : Primitives, N : Noise}.

Definition device_ok (tunnel p : Z) (d : DeviceRecord) : Prop :=
  validate_name (dr_name d) = Ok tt /\ (exists k, decode_public_key (dr_public_key d) = Ok k) /\
  dr_address d <> tunnel /\
  Z.land (dr_address d) (Z.land (Z.shiftl u32_max (32 - p)) u32_max) =
  Z.land tunnel (Z.land (Z.shiftl u32_max (32 - p)) u32_max).

Definition devices_ok (tunnel p : Z) (ds : list DeviceRecord) : Prop :=
  Forall (device_ok tunnel p) ds /\ NoDup (map dr_public_key ds) /\ NoDup (map dr_address ds).

(** Keys already seen are decoded, the list holds their encodings. *)
Definition unseen (keys : gset (list Z)) (addresses : gset Z) (ds : list DeviceRecord) : Prop :=
  forall d, d ∈ ds -> (forall k, dr_public_key d = encode_public_key k -> k ∉ keys) /\ (dr_address d ∉ addresses).

Lemma validate_loop tunnel p ds keys addresses :
  let mask := Z.land (Z.shiftl u32_max (32 - p)) u32_max in
  (exists s, for_each (validate_device tunnel mask (Z.land tunnel mask)) ds (keys, addresses) = Ok s) <->
  devices_ok tunnel p ds /\ unseen keys addresses ds.
Proof.
  intros mask. revert keys addresses. induction ds as [|d ds IH]; intros keys addresses; cbn [for_each].
  { split; [|by eauto]. intros _. split; [split_and!; constructor|]. intros d Hin. by apply not_elem_of_nil in Hin. }
  unfold devices_ok. cbn [map]. rewrite Forall_cons_iff. split.
  - intros (s & ([k' a'] & Hd & Hrest)%bind_ok). revert Hd. unfold validate_device.
    intros (u & Hname & (k & Hk & H)%bind_ok)%bind_ok. destruct u. apply map_err_ok in Hk.
    revert H. do 3 (case_if; [done|]). intros [= <- <-]. boolify.
    destruct (proj1 (IH _ _) (ex_intro _ s Hrest)) as [(Hall & Hnk & Hna) Hun]. fold mask.
    apply decode_public_key_ok in Hk as [Henc Hlen].
    split; [split_and!|].
    + split_and!; try done; [|apply orb_false_iff in Hif0 as [? ?]; boolify; done..].
      exists k. by apply decode_public_key_ok.
    + done.
    + constructor; [|done]. intros Hin. apply list_elem_of_In, in_map_iff in Hin as (x & Hx & Hin).
      apply list_elem_of_In in Hin. destruct (Hun x Hin) as [Hf _].
      apply (Hf k); [congruence|]. set_solver.
    + constructor; [|done]. intros Hin. apply list_elem_of_In, in_map_iff in Hin as (x & Hx & Hin).
      apply list_elem_of_In in Hin. destruct (Hun x Hin) as [_ Hf]. rewrite Hx in Hf. set_solver.
    + intros x [->|Hin]%elem_of_cons.
      * split; [|done]. intros k0 Hk0. assert (k0 = k) as ->; [|done].
        rewrite Henc in Hk0. apply (f_equal b64_decode) in Hk0. unfold encode_public_key in Hk0.
        rewrite !b64_decode_encode in Hk0. congruence.
      * destruct (Hun x Hin) as [Hf1 Hf2]. split; [|set_solver]. intros k0 Hk0. specialize (Hf1 k0 Hk0). set_solver.
  - intros [((Hd & Hall) & Hnk & Hna) Hun]. inversion_clear Hnk as [|? ? Hnk1 Hnk2].
    inversion_clear Hna as [|? ? Hna1 Hna2]. destruct Hd as (Hname & (k & Hk) & Hne & Hsub). fold mask in Hsub.
    destruct (Hun d ltac:(by left)) as [Hfk Hfa]. pose proof Hk as [Henc Hlen]%decode_public_key_ok.
    unfold validate_device at 2. rewrite Hname. res_simpl. rewrite Hk. cbn [map_err].
    rewrite bool_decide_false by (by apply Hfk). rewrite Hsub, Z.eqb_refl.
    destruct (Z.eqb_spec (dr_address d) tunnel); [done|]. cbn [orb negb].
    rewrite bool_decide_false by done. apply IH. split; [done|]. intros x Hin.
    destruct (Hun x ltac:(by right)) as [Hx1 Hx2]. split.
    + intros k0 Hk0. specialize (Hx1 k0 Hk0). assert (k0 <> k); [|set_solver]. intros ->. apply Hnk1.
      rewrite Henc, <- Hk0. apply list_elem_of_In, in_map, list_elem_of_In, Hin.
    + assert (dr_address x <> dr_address d); [|set_solver]. intros Heq. apply Hna1. rewrite <- Heq.
      apply list_elem_of_In, in_map, list_elem_of_In, Hin.
Qed.

Lemma validate_devices_ok ds tunnel p :
  validate_devices ds tunnel p = Ok tt <-> ds <> [] /\ (p <> 0 /\ p <= 30) /\ devices_ok tunnel p ds.
Proof.
  unfold validate_devices, prefix_mask.
  destruct (bool_decide (ds = [])) eqn:He; boolify; [split; [done|intros [? _]; done]|].
  destruct (Z.eqb_spec p 0); [split; [done|lia]|]. destruct (Z.ltb_spec 30 p); [split; [done|lia]|].
  cbn [orb mbind res_bind]. pose proof (validate_loop tunnel p ds ∅ ∅) as Hloop. cbv zeta in Hloop.
  assert (Hun : unseen ∅ ∅ ds) by (intros d _; split; [intros k _|]; set_solver).
  destruct (for_each _ ds _) as [s|e|] eqn:Hf.
  - split; [|done]. intros _. split; [done|]. split; [lia|]. by apply Hloop; eauto.
  - split; [done|]. intros (_ & _ & Hok). destruct (proj2 Hloop (conj Hok Hun)). done.
  - split; [done|]. intros (_ & _ & Hok). destruct (proj2 Hloop (conj Hok Hun)). done.
Qed.

(** ** Invariant of the registry *)

Lemma encode_public_key_inj k k' : encode_public_key k = encode_public_key k' -> k = k'.
Proof.
  unfold encode_public_key. intros H%(f_equal b64_decode). rewrite !b64_decode_encode in H. congruence.
Qed.

(** The leases are those of the devices, with pairwise distinct live flags. *)
Record leases_ok (h : flags) (ds : list DeviceRecord) (ls : gmap (list Z) DeviceLease) : Prop := {
  lo_device : forall d, d ∈ ds -> exists k, dr_public_key d = encode_public_key k /\ is_Some (ls !! k);
  lo_lease : forall k l, ls !! k = Some l -> exists d, d ∈ ds /\ dr_public_key d = encode_public_key k /\
    lease_name l = dr_name d /\ lease_address l = dr_address d /\ lease_public_key l = k;
  lo_active : forall k l, ls !! k = Some l -> is_active h (lease_authorization l) = true;
  lo_distinct : forall k k' l l', ls !! k = Some l -> ls !! k' = Some l' ->
    lease_authorization l = lease_authorization l' -> k = k';
}.

Definition flags_ok (h : flags) : Prop := forall c, next_cell h <= c -> cells h !! c = None.

(** The file holds the devices in memory. *)
Definition disk_ok (disk : option file) (ds : list DeviceRecord) : Prop :=
  exists f, disk = Some f /\ load_devices true f = Ok ds.

Record registry_inv (w : world) : Prop := {
  ri_tunnel : u32 (tunnel_address (w_registry w));
  ri_prefix : 1 <= prefix_len (w_registry w) <= 30;
  ri_nonempty : devices (w_registry w) <> [];
  ri_devices : devices_ok (tunnel_address (w_registry w)) (prefix_len (w_registry w)) (devices (w_registry w));
  ri_leases : leases_ok (w_flags w) (devices (w_registry w)) (leases (w_registry w));
  ri_flags : flags_ok (w_flags w);
  ri_disk : disk_ok (w_disk w) (devices (w_registry w));
}.

Lemma active_cell_bound h c : flags_ok h -> is_active h c = true -> c < next_cell h.
Proof.
  intros Hf Ha. destruct (Z.lt_ge_cases c (next_cell h)) as [|Hge]; [done|].
  unfold is_active in Ha. by rewrite (Hf c Hge) in Ha.
Qed.

Lemma flags_ok_active h : flags_ok h -> flags_ok (active h).1.
Proof.
  intros Hf c. simpl. intros Hc. rewrite lookup_insert_ne by lia. apply Hf. lia.
Qed.

Lemma is_active_active h c : flags_ok h -> is_active h c = true -> is_active (active h).1 c = true.
Proof.
  intros Hf Hc. pose proof (active_cell_bound h c Hf Hc). unfold is_active in *. simpl.
  by rewrite lookup_insert_ne by lia.
Qed.

(** Adding one device with a fresh key and a new flag. *)
Lemma leases_ok_add h ds ls d k :
  flags_ok h -> leases_ok h ds ls -> dr_public_key d = encode_public_key k -> ls !! k = None ->
  leases_ok (active h).1 (ds ++ [d])
    (<[k := mkDeviceLease (dr_name d) (dr_address d) k (active h).2]> ls).
Proof.
  intros Hf L Hk Hnone. split.
  - intros x [Hx|Hx]%elem_of_app.
    + destruct (lo_device h ds ls L x Hx) as (k' & Hk' & l & Hl). exists k'. split; [done|].
      destruct (decide (k' = k)) as [->|]; [congruence|]. rewrite lookup_insert_ne by done. eauto.
    + apply list_elem_of_singleton in Hx as ->. exists k. rewrite lookup_insert_eq. eauto.
  - intros k' l. rewrite lookup_insert_Some. intros [[<- <-]|[_ Hl]].
    + exists d. split; [apply elem_of_app; right; by apply list_elem_of_singleton|done].
    + destruct (lo_lease h ds ls L k' l Hl) as (x & Hx & ?). exists x. split; [apply elem_of_app; by left|done].
  - intros k' l. rewrite lookup_insert_Some. intros [[<- <-]|[_ Hl]].
    + unfold is_active. simpl. by rewrite lookup_insert_eq.
    + apply is_active_active; [done|]. by eapply (lo_active h ds ls).
  - assert (Hnew : forall k' l, ls !! k' = Some l -> lease_authorization l <> next_cell h).
    { intros k' l Hl Heq. pose proof (active_cell_bound h _ Hf (lo_active h ds ls L k' l Hl)). lia. }
    intros k1 k2 l1 l2. rewrite !lookup_insert_Some.
    intros [[<- <-]|[_ H1]] [[<- <-]|[_ H2]] Heq; simpl in Heq; try done.
    + by destruct (Hnew k2 l2 H2).
    + by destruct (Hnew k1 l1 H1).
    + by apply (lo_distinct h ds ls L k1 k2 l1 l2).
Qed.

Lemma build_leases_spec ds : forall h ls done_,
  flags_ok h -> leases_ok h done_ ls -> NoDup (map dr_public_key (done_ ++ ds)) ->
  Forall (fun d => exists k, decode_public_key (dr_public_key d) = Ok k) ds ->
  exists h' ls', for_each build_lease ds (h, ls) = Ok (h', ls') /\ flags_ok h' /\ leases_ok h' (done_ ++ ds) ls'.
Proof.
  induction ds as [|d ds IH]; intros h ls done_ Hf L Hnd Hdec; cbn [for_each].
  { rewrite app_nil_r. by eauto. }
  apply Forall_cons_iff in Hdec as [(k & Hk) Hdec]. unfold build_lease at 2. rewrite Hk. cbn [map_err mbind res_bind].
  apply decode_public_key_ok in Hk as [Henc Hlen].
  replace (done_ ++ d :: ds) with ((done_ ++ [d]) ++ ds) in * by (by rewrite <- app_assoc).
  apply (IH (active h).1 _ (done_ ++ [d])); [by apply flags_ok_active| |done|done].
  apply leases_ok_add; [done|done|done|].
  destruct (ls !! k) as [l|] eqn:Hl; [|done]. exfalso.
  destruct (lo_lease h done_ ls L k l Hl) as (x & Hx & Hkx & _).
  rewrite map_app, map_app, <- app_assoc in Hnd.
  apply list.NoDup_app in Hnd as (_ & Hnd & _). apply (Hnd (dr_public_key x)).
  - apply list_elem_of_In, in_map, list_elem_of_In, Hx.
  - rewrite Hkx, <- Henc. by left.
Qed.

Lemma persist_ok io disk ds disk' :
  persist_devices io disk ds = (disk', Ok tt) -> disk_ok disk' ds.
Proof.
  unfold persist_devices. destruct (to_string_pretty _) as [text|] eqn:Ht; [|done].
  destruct io; [|done]. intros [= <-]. exists (mkFile 0x180 text). split; [done|].
  unfold load_devices. simpl. by rewrite (toml_roundtrip _ _ Ht).
Qed.

Lemma persist_err io disk ds disk' e : persist_devices io disk ds = (disk', Err e) -> disk' = disk.
Proof. unfold persist_devices. destruct (to_string_pretty _); [destruct io|]; congruence. Qed.

Lemma persist_no_panic io disk ds disk' : persist_devices io disk ds <> (disk', Panic).
Proof. unfold persist_devices. destruct (to_string_pretty _); [destruct io|]; congruence. Qed.

Lemma open_inv read_io write_io disk h seeds tunnel p disk' w :
  u32 tunnel -> 0 <= p -> flags_ok h ->
  open read_io write_io disk h seeds tunnel p = (disk', Ok w) -> registry_inv w /\ disk' = w_disk w.
Proof.
  intros Ht Hp Hf. unfold open. set (loaded := match disk with Some f => _ | None => _ end).
  destruct loaded as [ds|e|] eqn:Hload; [|done..]. res_simpl.
  destruct (validate_devices ds tunnel p) as [[]|e|] eqn:Hv; [|done..].
  apply validate_devices_ok in Hv as (Hne & Hpre & Hok).
  assert (L0 : leases_ok h [] ∅).
  { split; try (intros ? ?; by rewrite lookup_empty). intros d Hd. by apply not_elem_of_nil in Hd. }
  destruct (build_leases_spec ds h ∅ [] Hf L0) as (h' & ls & Hb & Hf' & L').
  { apply Hok. }
  { destruct Hok as [Hall _]. revert Hall. apply Forall_impl. intros d Hd. apply Hd. }
  unfold build_leases. rewrite Hb. simpl in L'.
  destruct disk as [f|] eqn:Hd.
  - intros [= <- <-]. split; [|done]. split; simpl; try done; [lia|].
    exists f. split; [done|]. subst loaded. simpl in Hload. unfold load_devices in *.
    revert Hload. case_if; [done|]. destruct read_io; done.
  - cbn [devices]. destruct (persist_devices write_io None ds) as [disk1 out] eqn:Hpd.
    destruct out as [[]|e|]; [|done..]. intros [= <- <-]. split; [|done].
    split; simpl; try done; [lia|]. by eapply persist_ok.
Qed.

(** The key a provisioning generates is not registered yet. *)
Definition fresh_key (w : world) (entropy : bytes) : Prop :=
  forall secret public, KeyPair_generate entropy = Ok (secret, public) -> leases (w_registry w) !! public = None.

Lemma KeyPair_generate_len entropy secret public :
  KeyPair_generate entropy = Ok (secret, public) -> len public = KEY_LEN.
Proof.
  unfold KeyPair_generate. intros ([priv pub] & _ & (s & _ & (p & Hp & [= _ <-])%bind_ok)%bind_ok)%bind_ok.
  unfold PublicKey_from_slice, try_into_array in Hp. case_decide; congruence.
Qed.

Lemma map_dr_in {A} (f : DeviceRecord -> A) ds x : x ∈ map f ds <-> exists d, d ∈ ds /\ f d = x.
Proof.
  rewrite list_elem_of_In, in_map_iff. setoid_rewrite list_elem_of_In. naive_solver.
Qed.

Lemma devices_ok_add tunnel p ds d :
  devices_ok tunnel p ds -> device_ok tunnel p d -> (dr_public_key d ∉ map dr_public_key ds) ->
  (dr_address d ∉ map dr_address ds) -> devices_ok tunnel p (ds ++ [d]).
Proof.
  intros (Hall & Hk & Ha) Hd Hnk Hna. unfold devices_ok. rewrite !map_app. split_and!.
  - apply Forall_app. split; [done|]. apply Forall_cons_2; [done|apply Forall_nil_2].
  - apply list.NoDup_app. split_and!; [done| |apply NoDup_singleton].
    intros x Hx ->%list_elem_of_singleton. done.
  - apply list.NoDup_app. split_and!; [done| |apply NoDup_singleton].
    intros x Hx ->%list_elem_of_singleton. done.
Qed.

Lemma provision_spec io entropy w name platform :
  registry_inv w -> fresh_key w entropy ->
  match provision io entropy w name platform with
  | (w', Ok (record, secret)) =>
      registry_inv w' /\ exists public authorization,
        KeyPair_generate entropy = Ok (secret, public) /\
        dr_public_key record = encode_public_key public /\ dr_name record = trim name /\
        free_address (devices (w_registry w)) (tunnel_address (w_registry w)) (prefix_len (w_registry w))
          (dr_address record) /\
        devices (w_registry w') = devices (w_registry w) ++ [record] /\
        authorize w' public = Some (mkDeviceLease (trim name) (dr_address record) public authorization) /\
        is_active (w_flags w') authorization = true /\
        (forall k, k <> public -> authorize w' k = authorize w k)
  | (w', Err _) => w' = w
  | (_, Panic) => False
  end.
Proof.
  intros I Hfresh. unfold provision.
  assert (Hname : no_panic (validate_name (trim name))) by (unfold validate_name; by case_if).
  destruct (validate_name (trim name)) as [[]|e|] eqn:Hn; [|done..]. res_simpl.
  assert (Hgen : no_panic (KeyPair_generate entropy)).
  { unfold KeyPair_generate, SecretKey_from_vec, PublicKey_from_slice, noise_err, ok_or, try_into_array.
    destruct (generate_keypair entropy) as [[? ?]|]; [|done]. res_simpl. by repeat case_decide. }
  destruct (KeyPair_generate entropy) as [[secret public]|e|] eqn:Hkp; cbn [map_err]; [|done..].
  pose proof (next_address_spec (devices (w_registry w)) _ _ (ri_tunnel w I) (ri_prefix w I)) as Haddr.
  destruct (next_address _ _ _) as [address|e|]; [|done..].
  destruct Haddr as (Hfree & _ & _ & Hsub).
  set (record := mkDeviceRecord (trim name) platform (encode_public_key public) address).
  destruct (persist_devices io (w_disk w) (devices (w_registry w) ++ [record])) as [disk out] eqn:Hpd.
  destruct out as [[]|e|]; [| |by apply persist_no_panic in Hpd].
  2: { apply persist_err in Hpd as ->. by destruct w. }
  pose proof (Hfresh _ _ Hkp) as Hnone. pose proof (KeyPair_generate_len _ _ _ Hkp) as Hlen.
  pose proof (leases_ok_add _ _ _ record public (ri_flags w I) (ri_leases w I) eq_refl Hnone) as L'.
  rewrite (surjective_pairing (active (w_flags w))). split.
  - split; simpl; try apply I.
    + intros Hnil. by destruct (app_cons_not_nil (devices (w_registry w)) [] record).
    + apply devices_ok_add; [apply I| | |apply Hfree].
      * split_and!; [done|exists public; by apply decode_public_key_ok|apply Hfree|].
        unfold subnet_mask in Hsub. destruct (Z.eqb_spec (prefix_len (w_registry w)) 0); [|done].
        pose proof (ri_prefix w I). lia.
      * intros (d & Hd & Hdk)%map_dr_in. destruct (lo_device _ _ _ (ri_leases w I) d Hd) as (k & Hk & Hs).
        simpl in Hdk. rewrite Hk in Hdk. apply encode_public_key_inj in Hdk as ->. rewrite Hnone in Hs. by destruct Hs.
    + exact L'.
    + apply (flags_ok_active (w_flags w)), I.
    + by eapply persist_ok.
  - exists public, (active (w_flags w)).2. unfold authorize. simpl. split_and!; try done; try apply Hfree.
    + by rewrite lookup_insert_eq.
    + unfold is_active. simpl. by rewrite lookup_insert_eq.
    + intros k Hk. by rewrite lookup_insert_ne.
Qed.

Lemma revoke_next_ok tunnel p ds key :
  devices_ok tunnel p ds -> devices_ok tunnel p (filter (fun d => dr_public_key d <> key) ds).
Proof.
  intros (Hall & Hk & Ha). split_and!.
  - rewrite Forall_forall in Hall |- *. intros d Hd. apply Hall. apply list_elem_of_In.
    apply list_elem_of_In, list_elem_of_filter in Hd. tauto.
  - apply (sublist_NoDup _ _ Hk), (fmap_sublist dr_public_key), sublist_filter.
  - apply (sublist_NoDup _ _ Ha), (fmap_sublist dr_address), sublist_filter.
Qed.

Lemma filter_len_lt (P0 : DeviceRecord -> Prop) `{!forall d, Decision (P0 d)} ds :
  len (filter P0 ds) = len ds <-> forall d, d ∈ ds -> P0 d.
Proof.
  unfold len. induction ds as [|d ds IH]; [split; [|done]; intros _ d Hd; by apply not_elem_of_nil in Hd|].
  rewrite filter_cons. pose proof (length_filter P0 ds). case_decide; simpl.
  - split.
    + intros Heq x [->|Hx]%elem_of_cons; [done|]. apply IH; [lia|done].
    + intros Hall. assert (Z.of_nat (length (filter P0 ds)) = Z.of_nat (length ds)); [|lia].
      apply IH. intros x Hx. apply Hall. by right.
  - split; [lia|]. intros Hall. exfalso. match goal with Hn : ~ P0 d |- _ => apply Hn end. apply Hall. by left.
Qed.

Lemma leases_ok_remove h ds ls k l :
  flags_ok h -> leases_ok h ds ls -> ls !! k = Some l ->
  leases_ok (revoke_flag h (lease_authorization l))
    (filter (fun d => dr_public_key d <> encode_public_key k) ds) (delete k ls).
Proof.
  intros Hf L Hl. split.
  - intros d [Hne Hd]%list_elem_of_filter. destruct (lo_device h ds ls L d Hd) as (k' & Hk' & Hs).
    exists k'. split; [done|]. rewrite lookup_delete_ne; [done|]. intros ->. by apply Hne.
  - intros k' l' [Hne Hl']%lookup_delete_Some.
    destruct (lo_lease h ds ls L k' l' Hl') as (d & Hd & Hk' & Hrest). exists d. split; [|done].
    apply list_elem_of_filter. split; [|done]. rewrite Hk'. intros Heq. by apply encode_public_key_inj in Heq.
  - intros k' l' [Hne Hl']%lookup_delete_Some. unfold is_active, revoke_flag. simpl.
    rewrite lookup_insert_ne; [by eapply (lo_active h ds ls)|].
    intros Heq. apply Hne. by apply (lo_distinct h ds ls L k k' l l').
  - intros k1 k2 l1 l2 [_ H1]%lookup_delete_Some [_ H2]%lookup_delete_Some.
    by apply (lo_distinct h ds ls L).
Qed.

Lemma revoke_spec io w key :
  registry_inv w ->
  match revoke io w key with
  | (w', Ok true) =>
      registry_inv w' /\ exists k lease,
        key = encode_public_key k /\ authorize w k = Some lease /\ authorize w' k = None /\
        is_active (w_flags w') (lease_authorization lease) = false /\
        (forall k', k' <> k -> authorize w' k' = authorize w k') /\
        (forall c, c <> lease_authorization lease -> is_active (w_flags w') c = is_active (w_flags w) c)
  | (w', Ok false) => w' = w /\ key ∉ map dr_public_key (devices (w_registry w))
  | (w', Err _) => w' = w
  | (_, Panic) => False
  end.
Proof.
  intros I. unfold revoke.
  assert (Hnp : no_panic (decode_public_key key)).
  { unfold decode_public_key, ok_or, try_into_array. destruct (b64_decode key); [|done]. res_simpl. by case_decide. }
  destruct (decode_public_key key) as [k|e|] eqn:Hk; [|done..].
  apply decode_public_key_ok in Hk as [-> Hlen]. set (next := filter _ _).
  destruct (Z.eqb_spec (len next) (len (devices (w_registry w)))) as [Heq|Hneq].
  { split; [done|]. intros (d & Hd & Hdk)%map_dr_in.
    by apply (proj1 (filter_len_lt _ _) Heq d Hd). }
  case_if; [done|]. boolify.
  destruct (persist_devices io (w_disk w) next) as [disk out] eqn:Hpd.
  destruct out as [[]|e|]; [| |by apply persist_no_panic in Hpd].
  2: { apply persist_err in Hpd as ->. by destruct w. }
  assert (Hin : exists d, d ∈ devices (w_registry w) /\ dr_public_key d = encode_public_key k).
  { destruct (decide (encode_public_key k ∈ map dr_public_key (devices (w_registry w)))) as [Hin|Hnin].
    { by apply map_dr_in. }
    exfalso. apply Hneq, filter_len_lt. intros d Hd Hdk. apply Hnin, map_dr_in. eauto. }
  destruct Hin as (d & Hd & Hdk).
  destruct (lo_device _ _ _ (ri_leases w I) d Hd) as (k' & Hk' & lease & Hlease).
  rewrite Hdk in Hk'. apply encode_public_key_inj in Hk' as <-. rewrite Hlease.
  pose proof (leases_ok_remove _ _ _ k lease (ri_flags w I) (ri_leases w I) Hlease) as L'.
  split.
  - split; simpl; try apply I; try done.
    + apply revoke_next_ok, I.
    + intros c Hc. simpl in Hc |- *. rewrite lookup_insert_ne; [by apply (ri_flags w I)|].
      pose proof (active_cell_bound _ _ (ri_flags w I) (lo_active _ _ _ (ri_leases w I) k lease Hlease)). lia.
    + by eapply persist_ok.
  - exists k, lease. unfold authorize, is_active. simpl. split_and!; try done.
    + by rewrite lookup_delete_eq.
    + by rewrite lookup_insert_eq.
    + intros k' Hne. by rewrite lookup_delete_ne.
    + intros c Hc. by rewrite lookup_insert_ne.
Qed.

(** Opening the registry and every later change of it. *)
Inductive registry_step (w : world) : world -> Prop :=
| registry_provision io entropy name platform :
    fresh_key w entropy -> registry_step w (provision io entropy w name platform).1
| registry_revoke io key : registry_step w (revoke io w key).1.

Inductive registry_reachable : world -> Prop :=
| registry_opened read_io write_io disk h seeds tunnel p disk' w :
    u32 tunnel -> u8 p -> flags_ok h ->
    open read_io write_io disk h seeds tunnel p = (disk', Ok w) -> registry_reachable w
| registry_stepped w w' : registry_reachable w -> registry_step w w' -> registry_reachable w'.

Lemma registry_step_inv w w' : registry_inv w -> registry_step w w' -> registry_inv w'.
Proof.
  intros I [io entropy name platform Hfresh|io key].
  - pose proof (provision_spec io entropy w name platform I Hfresh) as H.
    destruct (provision io entropy w name platform) as [w1 [[record secret]|e|]]; simpl in *;
      [apply H|by subst|done].
  - pose proof (revoke_spec io w key I) as H.
    destruct (revoke io w key) as [w1 [[]|e|]]; simpl in *; [apply H|by destruct H as [-> _]|by subst|done].
Qed.

(** [C15] Invariant of the device registry, from any successful [open] through any
    provisionings and revocations, whether their file writes succeed or fail: there is
    always a device; keys and addresses are distinct, names valid, every address inside
    the subnet and not the server's; each device has exactly one lease with its name,
    address and key, whose authorization flag is active and shared with no other lease;
    and the file holds exactly the devices in memory. *)
Theorem registry_reachable_inv w : registry_reachable w -> registry_inv w.
Proof.
  induction 1 as [read_io write_io disk h seeds tunnel p disk' w Ht Hp Hf Ho|w w' _ IH Hstep].
  - unfold uint in Hp. by eapply open_inv in Ho as [? _]; [| |lia|].
  - by eapply registry_step_inv.
Qed.

(** Provisioning, on every outcome: on success the new device gets the trimmed
    name, an address of the subnet that no device and not the server uses, a fresh
    active authorization, and every other authorization is unchanged; on any error,
    a failed file write included, registry, file and flags are as before. *)
Theorem provision_outcomes io entropy w name platform :
  registry_inv w -> fresh_key w entropy ->
  match provision io entropy w name platform with
  | (w', Ok (record, secret)) =>
      exists public authorization,
        KeyPair_generate entropy = Ok (secret, public) /\ dr_name record = trim name /\
        free_address (devices (w_registry w)) (tunnel_address (w_registry w)) (prefix_len (w_registry w))
          (dr_address record) /\
        devices (w_registry w') = devices (w_registry w) ++ [record] /\
        authorize w' public = Some (mkDeviceLease (trim name) (dr_address record) public authorization) /\
        is_active (w_flags w') authorization = true /\
        (forall k, k <> public -> authorize w' k = authorize w k)
  | (w', Err _) => w' = w
  | (_, Panic) => False
  end.
Proof.
  intros I Hfresh. pose proof (provision_spec io entropy w name platform I Hfresh) as H.
  destruct (provision io entropy w name platform) as [w' [[record secret]|e|]]; [|done..].
  destruct H as (_ & public & authorization & H). exists public, authorization. tauto.
Qed.

(** Revoking, on every outcome: on success the key is no longer authorised, the
    flag that its sessions hold is off, and no other lease or flag changes; an unknown
    key, the last device or a failed file write change nothing. *)
Theorem revoke_outcomes io w key :
  registry_inv w ->
  match revoke io w key with
  | (w', Ok true) =>
      exists k lease,
        key = encode_public_key k /\ authorize w k = Some lease /\ authorize w' k = None /\
        is_active (w_flags w') (lease_authorization lease) = false /\
        (forall k', k' <> k -> authorize w' k' = authorize w k') /\
        (forall c, c <> lease_authorization lease -> is_active (w_flags w') c = is_active (w_flags w) c) /\
        devices (w_registry w') <> []
  | (w', Ok false) => w' = w /\ (key ∉ map dr_public_key (devices (w_registry w)))
  | (w', Err _) => w' = w
  | (_, Panic) => False
  end.
Proof.
  intros I. pose proof (revoke_spec io w key I) as H.
  destruct (revoke io w key) as [w' [[]|e|]]; [|done..].
  destruct H as (I' & k & lease & H). exists k, lease. pose proof (ri_nonempty w' I'). tauto.
Qed.

End RegistryTheorems.

(** Address allocation returns the smallest free host address of the subnet,
    and fails only when the pool (capped at 65534 hosts) has none. *)
Theorem next_address_is_least_free ds tunnel p :
  u32 tunnel -> 1 <= p <= 30 ->
  match next_address ds tunnel p with
  | Ok a => free_address ds tunnel p a /\ (forall b, free_address ds tunnel p b -> a <= b) /\
            u32 a /\ Z.land a (subnet_mask p) = Z.land tunnel (subnet_mask p)
  | Err e => e = RegistryError.PoolExhausted /\ forall b, ~ free_address ds tunnel p b
  | Panic => False
  end.
Proof. apply next_address_spec. Qed.

(** ** Witnesses *)

Import Toy ToyConfig.

Module ToyRegistry.

#[export] Instance toy_platform_countable : Countable DevicePlatform.
Proof.
  refine (inj_countable' (fun p => match p with Android => true | Linux => false end)
    (fun b : bool => if b then Android else Linux) _). by intros [].
Defined.

#[export] Instance toy_record_countable : Countable DeviceRecord.
Proof.
  refine (inj_countable' (fun r => (dr_name r, dr_platform r, dr_public_key r, dr_address r))
    (fun '(n, p, k, a) => mkDeviceRecord n p k a) _). by intros [].
Defined.

(** A text of one code point: the number of the document. *)
#[export] Instance toy_toml : Toml := {
  to_string_pretty d := Some [Z.pos (encode (version d, document_devices d))];
  from_str s :=
    match s with
    | [Z.pos n] => '(v, ds) ← decode n; Some (mkRegistryDocument v ds)
    | _ => None
    end;
}.

#[export] Instance toy_toml_laws : TomlLaws.
Proof. split. intros [v ds] text [= <-]. cbn [from_str toy_toml]. rewrite decode_encode. done. Qed.

Definition toy_seeds : list SeedDevice :=
  [mkSeedDevice [97] (public_key (toy_client_key 1)) (ipv4_new 10 77 0 2);
   mkSeedDevice [98] (public_key (toy_client_key 2)) (ipv4_new 10 77 0 3)].

Definition toy_opened : world :=
  match (open true true None (mkFlags ∅ 0) toy_seeds (ipv4_new 10 77 0 1) 24).2 with
  | Ok w => w
  | _ => mkWorld (mkDeviceRegistry 0 0 [] ∅) (mkFlags ∅ 0) None
  end.

Lemma toy_opened_reachable : registry_reachable toy_opened.
Proof.
  eapply (registry_opened true true None (mkFlags ∅ 0) toy_seeds (ipv4_new 10 77 0 1) 24 (w_disk toy_opened)).
  - vm_compute. split; congruence.
  - vm_compute. split; congruence.
  - intros c _. apply lookup_empty.
  - vm_compute. reflexivity.
Qed.

Lemma toy_opened_inv : registry_inv toy_opened.
Proof.
  induction toy_opened_reachable as [read_io write_io disk h seeds tunnel p disk' w Ht Hp Hf Ho|w w' _ IH Hstep].
  - unfold uint in Hp. by eapply open_inv in Ho as [? _]; [| |lia|].
  - by eapply registry_step_inv.
Qed.

Lemma registry_reachable_inv_witness :
  registry_inv toy_opened /\ length (devices (w_registry toy_opened)) = 2%nat.
Proof.
  split; [apply registry_reachable_inv, toy_opened_reachable|vm_compute; reflexivity].
Defined.

Lemma toy_fresh_key : fresh_key toy_opened (replicate 32 9).
Proof. intros secret public Hk. vm_compute in Hk. injection Hk as <- <-. vm_compute. reflexivity. Qed.

Lemma provision_outcomes_witness :
  match provision true (replicate 32 9) toy_opened [32; 99] Android with
  | (w', Ok (record, secret)) => dr_name record = [99] /\ dr_address record = ipv4_new 10 77 0 4
  | _ => False
  end.
Proof.
  pose proof (provision_outcomes true (replicate 32 9) toy_opened [32; 99] Android toy_opened_inv toy_fresh_key) as H.
  assert (Hok : match (provision true (replicate 32 9) toy_opened [32; 99] Android).2 with
    | Ok (record, _) => dr_address record | _ => 0 end = ipv4_new 10 77 0 4) by (vm_compute; reflexivity).
  destruct (provision true (replicate 32 9) toy_opened [32; 99] Android) as [w' [[record secret]|e|]];
    [|vm_compute in Hok; discriminate..].
  destruct H as (public & authorization & _ & Hn & _). split; [rewrite Hn; reflexivity|exact Hok].
Defined.

Lemma revoke_outcomes_witness :
  match revoke true toy_opened (public_key (toy_client_key 1)) with
  | (w', Ok true) => devices (w_registry w') <> []
  | _ => False
  end.
Proof.
  pose proof (revoke_outcomes true toy_opened (public_key (toy_client_key 1)) toy_opened_inv) as H.
  assert (Hok : match (revoke true toy_opened (public_key (toy_client_key 1))).2 with Ok b => b | _ => false end
    = true) by (vm_compute; reflexivity).
  destruct (revoke true toy_opened (public_key (toy_client_key 1))) as [w' [[]|e|]]; [|discriminate Hok..].
  destruct H as (k & lease & H). apply H.
Defined.

Lemma next_address_is_least_free_witness :
  next_address (devices (w_registry toy_opened)) (ipv4_new 10 77 0 1) 24 = Ok (ipv4_new 10 77 0 4) /\
  free_address (devices (w_registry toy_opened)) (ipv4_new 10 77 0 1) 24 (ipv4_new 10 77 0 4).
Proof.
  assert (Hn : next_address (devices (w_registry toy_opened)) (ipv4_new 10 77 0 1) 24 = Ok (ipv4_new 10 77 0 4))
    by (vm_compute; reflexivity).
  split; [exact Hn|].
  pose proof (next_address_is_least_free (devices (w_registry toy_opened)) (ipv4_new 10 77 0 1) 24
    ltac:(vm_compute; split; congruence) ltac:(lia)) as H.
  rewrite Hn in H. apply H.
Defined.

End ToyRegistry.
