(* ===== verification/Traffic.v ===== *)
(** * Traffic accounting of crates/admin-api/src/traffic.rs

    Byte counters shared with the sessions (pointers into the heap [heap]), the
    flusher that moves them into the hourly table, and the report.  The table is the
    primary-keyed relation the SQL statements of the source act on; a transaction
    either commits or leaves it unchanged ([commit]).  The theorem on flushes assumes that
    the bytes of a device stay below 2^63, the range of an SQLite integer, and shows that
    every row then does.  The map of counters is iterated in the
    order of [map_to_list]; nothing depends on it. *)

From stdpp Require Import sorting.
From S2P Require Import Prelude.

Definition SECONDS_PER_HOUR : Z := 3600.
Definition RETENTION_HOURS : Z := 24 * 400.
Definition MAX_QUERY_HOURS : Z := 24 * 31.
Definition i64_max : Z := 2 ^ 63 - 1.

Definition to_sql_integer (value : Z) : Z := Z.min value i64_max.
Definition from_sql_integer (value : Z) : Z := if value <? 0 then 0 else value.

Record DeviceTrafficCounter := mkDeviceTrafficCounter { upload_bytes : Z; download_bytes : Z }.

Record RegisteredCounter := mkRegisteredCounter { rc_name : str; rc_counter : Z }.

Record row := mkRow { row_name : str; row_upload : Z; row_download : Z }.

Record TrafficStore := mkTrafficStore {
  database : gmap (Z * list Z) row;
  counters : gmap (list Z) RegisteredCounter;
  heap : gmap Z DeviceTrafficCounter;
  next_counter : Z;
}.

Record PendingTraffic := mkPendingTraffic {
  pt_public_key : str;
  pt_name : str;
  pt_upload : Z;
  pt_download : Z;
}.

Record TrafficBucket := mkTrafficBucket {
  tb_hour : Z;
  tb_public_key : str;
  tb_name : str;
  tb_upload : Z;
  tb_download : Z;
}.

(** [fetch_add] on an atomic wraps. *)
Definition add_counter (s : TrafficStore) (ptr up down : Z) : TrafficStore :=
  match heap s !! ptr with
  | None => s
  | Some c =>
      mkTrafficStore (database s) (counters s)
        (<[ptr := mkDeviceTrafficCounter (wrap64 (upload_bytes c + up)) (wrap64 (download_bytes c + down))]> (heap s))
        (next_counter s)
  end.

Definition add_upload (s : TrafficStore) (ptr bytes : Z) : TrafficStore := add_counter s ptr bytes 0.
Definition add_download (s : TrafficStore) (ptr bytes : Z) : TrafficStore := add_counter s ptr 0 bytes.

(** [TrafficStore::counter]: the registered counter with its name refreshed, or a new one. *)
Definition counter (s : TrafficStore) (public_key name : str) : TrafficStore * Z :=
  match counters s !! public_key with
  | Some registered =>
      (mkTrafficStore (database s) (<[public_key := mkRegisteredCounter name (rc_counter registered)]> (counters s))
         (heap s) (next_counter s), rc_counter registered)
  | None =>
      (mkTrafficStore (database s) (<[public_key := mkRegisteredCounter name (next_counter s)]> (counters s))
         (<[next_counter s := mkDeviceTrafficCounter 0 0]> (heap s)) (next_counter s + 1), next_counter s)
  end.

(** [pending_with]: what [read] returns for each counter, the zero ones left out. *)
Definition pending_item (s : TrafficStore) (entry : list Z * RegisteredCounter) : option PendingTraffic :=
  let '(public_key, registered) := entry in
  let c := default (mkDeviceTrafficCounter 0 0) (heap s !! rc_counter registered) in
  if (upload_bytes c =? 0) && (download_bytes c =? 0) then None
  else Some (mkPendingTraffic public_key (rc_name registered) (upload_bytes c) (download_bytes c)).

Definition pending_with (s : TrafficStore) : list PendingTraffic :=
  omap (pending_item s) (map_to_list (counters s)).

Definition peek_pending := pending_with.

(** [take_pending] swaps every registered counter with zero. *)
Definition take_pending (s : TrafficStore) : TrafficStore * list PendingTraffic :=
  let taken := fold_left (fun h '(_, registered) => <[rc_counter registered := mkDeviceTrafficCounter 0 0]> h)
                 (map_to_list (counters s)) (heap s) in
  (mkTrafficStore (database s) (counters s) taken (next_counter s), pending_with s).

(** INSERT ... ON CONFLICT(hour, public_key) DO UPDATE SET ...; a sum past 2^63 - 1 would
    become an SQLite REAL, which the table here does not distinguish: the theorems on it
    assume that sums stay within an SQLite integer. *)
Definition upsert (hour : Z) (db : gmap (Z * list Z) row) (item : PendingTraffic) : gmap (Z * list Z) row :=
  let key := (to_sql_integer hour, pt_public_key item) in
  let up := to_sql_integer (pt_upload item) in
  let down := to_sql_integer (pt_download item) in
  match db !! key with
  | None => <[key := mkRow (pt_name item) up down]> db
  | Some old => <[key := mkRow (pt_name item) (row_upload old + up) (row_download old + down)]> db
  end.

Definition persist_pending (commit : bool) (s : TrafficStore) (current_hour oldest : Z)
    (pending : list PendingTraffic) : TrafficStore * bool :=
  if commit
  then
    let db := fold_left (upsert current_hour) pending (database s) in
    let db := filter (fun kv => to_sql_integer oldest <= kv.1.1) db in
    (mkTrafficStore db (counters s) (heap s) (next_counter s), true)
  else (s, false).

Definition restore_pending (s : TrafficStore) (pending : list PendingTraffic) : TrafficStore :=
  fold_left (fun s item =>
    let '(s, ptr) := counter s (pt_public_key item) (pt_name item) in
    let s := add_upload s ptr (pt_upload item) in
    add_download s ptr (pt_download item)) pending s.

(** One packet counted by a session: the counter it holds and its bytes. *)
Record add_call := mkAdd { ad_ptr : Z; ad_up : Z; ad_down : Z }.

Definition apply_adds (s : TrafficStore) (adds : list add_call) : TrafficStore :=
  fold_left (fun s a => add_counter s (ad_ptr a) (ad_up a) (ad_down a)) adds s.

(** The sessions go on counting while a flush runs: [others] are the packets they count
    behind the swap of their counter (those before it are in [s]).  Adding to a counter
    commutes with the transaction and with restoring, so one place stands for all. *)
Definition flush_at (commit : bool) (others : list add_call) (s : TrafficStore) (now : Z) : TrafficStore * bool :=
  let '(s, pending) := take_pending s in
  let s := apply_adds s others in
  if bool_decide (length pending = 0%nat) then (s, true)
  else
    let current_hour := now / SECONDS_PER_HOUR in
    let oldest := sat_sub current_hour RETENTION_HOURS in
    let '(s, ok) := persist_pending commit s current_hour oldest pending in
    if ok then (s, true) else (restore_pending s pending, false).

Definition by_hour (a b : (Z * list Z) * row) : Prop := a.1.1 <= b.1.1.

#[global] Instance by_hour_dec : RelDecision by_hour.
Proof. intros a b. unfold by_hour. apply _. Defined.

(** SELECT ... WHERE hour BETWEEN start AND end ORDER BY hour *)
Definition load_buckets (s : TrafficStore) (start end_ : Z) : list TrafficBucket :=
  let rows := filter (fun '((hour, _), _) => to_sql_integer start <= hour <= to_sql_integer end_)
                (map_to_list (database s)) in
  map (fun '((hour, key), r) =>
         mkTrafficBucket (from_sql_integer hour) key (row_name r) (from_sql_integer (row_upload r))
           (from_sql_integer (row_download r)))
    (merge_sort by_hour rows).

(** One item of [merge_pending]: into the first bucket of that hour and key, or appended. *)
Fixpoint merge_item (hour : Z) (item : PendingTraffic) (buckets : list TrafficBucket) : list TrafficBucket :=
  match buckets with
  | [] => [mkTrafficBucket hour (pt_public_key item) (pt_name item) (pt_upload item) (pt_download item)]
  | b :: rest =>
      if (tb_hour b =? hour) && bool_decide (tb_public_key b = pt_public_key item)
      then mkTrafficBucket (tb_hour b) (tb_public_key b) (pt_name item)
             (sat_add64 (tb_upload b) (pt_upload item)) (sat_add64 (tb_download b) (pt_download item)) :: rest
      else b :: merge_item hour item rest
  end.

Definition merge_pending (buckets : list TrafficBucket) (hour : Z) (pending : list PendingTraffic)
    : list TrafficBucket :=
  fold_left (fun buckets item => merge_item hour item buckets) pending buckets.

(** ** Conservation of bytes *)

(** Uploads and downloads are symmetric: [up] selects one of them. *)
Definition sel (up : bool) (u d : Z) : Z := if up then u else d.
Definition counted (up : bool) (c : DeviceTrafficCounter) : Z := sel up (upload_bytes c) (download_bytes c).
Definition pended (up : bool) (p : PendingTraffic) : Z := sel up (pt_upload p) (pt_download p).
Definition stored_row (up : bool) (r : row) : Z := sel up (row_upload r) (row_download r).

(** Bytes of one key in its counter, in a pending list, and in the table. *)
Definition live (up : bool) (s : TrafficStore) (key : str) : Z :=
  match counters s !! key with
  | Some r => match heap s !! rc_counter r with Some c => counted up c | None => 0 end
  | None => 0
  end.

Definition inflight (up : bool) (pending : list PendingTraffic) (key : str) : Z :=
  fold_right (fun p n => (if decide (pt_public_key p = key) then pended up p else 0) + n) 0 pending.

Definition stored (up : bool) (db : gmap (Z * list Z) row) (key : str) : Z :=
  map_fold (fun k r n => (if decide (k.2 = key) then stored_row up r else 0) + n) 0 db.

(** Every registered counter exists, no two keys share one, and values are u64. *)
Record store_wf (s : TrafficStore) : Prop := {
  sw_counter : forall k r, counters s !! k = Some r ->
    exists c, heap s !! rc_counter r = Some c /\ u64 (upload_bytes c) /\ u64 (download_bytes c);
  sw_distinct : forall k k' r r', counters s !! k = Some r -> counters s !! k' = Some r' ->
    rc_counter r = rc_counter r' -> k = k';
  sw_next : forall p, next_counter s <= p -> heap s !! p = None;
}.

Definition added (up : bool) (s : TrafficStore) (adds : list add_call) (key : str) : Z :=
  match counters s !! key with
  | Some r => fold_right (fun a n => (if decide (ad_ptr a = rc_counter r) then sel up (ad_up a) (ad_down a) else 0) + n) 0 adds
  | None => 0
  end.

Lemma wrap64_small x : 0 <= x < 2 ^ 64 -> wrap64 x = x.
Proof. unfold wrap64. apply Z.mod_small. Qed.

Lemma add_counter_wf s p u d : store_wf s -> store_wf (add_counter s p u d).
Proof.
  intros W. unfold add_counter. destruct (heap s !! p) as [c|] eqn:Hp; [|done].
  split; simpl; [|apply W|].
  - intros k r Hr. destruct (sw_counter s W k r Hr) as (c' & Hc' & Hu).
    destruct (decide (p = rc_counter r)) as [->|].
    + rewrite lookup_insert_eq. eexists. split; [done|]. simpl. unfold wrap64, uint.
      split; apply Z.mod_pos_bound; lia.
    + rewrite lookup_insert_ne by done. eauto.
  - intros q Hq. rewrite lookup_insert_ne; [by apply W|]. intros ->.
    rewrite (sw_next s W q Hq) in Hp. done.
Qed.

Lemma add_counter_live up s k r u d :
  store_wf s -> counters s !! k = Some r -> 0 <= u -> 0 <= d ->
  live true s k + u < 2 ^ 64 -> live false s k + d < 2 ^ 64 ->
  live up (add_counter s (rc_counter r) u d) k = live up s k + sel up u d /\
  (forall k', k' <> k -> live up (add_counter s (rc_counter r) u d) k' = live up s k').
Proof.
  intros W Hr Hu Hd Hbu Hbd. destruct (sw_counter s W k r Hr) as (c & Hc & Hcu & Hcd).
  unfold add_counter. rewrite Hc. unfold live in *. simpl. rewrite Hr in *. rewrite Hc in *. simpl in *.
  rewrite lookup_insert_eq. unfold counted, sel, uint in *. split.
  - destruct up; simpl; rewrite wrap64_small; lia.
  - intros k' Hne. destruct (counters s !! k') as [r'|] eqn:Hr'; [|done].
    rewrite lookup_insert_ne; [done|]. intros Heq. apply Hne. symmetry. by apply (sw_distinct s W k k' r r').
Qed.

Lemma add_counter_counters s p u d : counters (add_counter s p u d) = counters s.
Proof. unfold add_counter. by destruct (heap s !! p). Qed.

Lemma add_counter_database s p u d : database (add_counter s p u d) = database s.
Proof. unfold add_counter. by destruct (heap s !! p). Qed.

(** Adding to a pointer that no key owns changes no key's count. *)
Lemma add_counter_foreign up s p u d k :
  (forall r, counters s !! k = Some r -> rc_counter r <> p) -> live up (add_counter s p u d) k = live up s k.
Proof.
  intros Hne. unfold live. rewrite add_counter_counters. destruct (counters s !! k) as [r|]; [|done].
  unfold add_counter. destruct (heap s !! p); [|done]. simpl. by rewrite lookup_insert_ne by (symmetry; eauto).
Qed.

(** ** Adding while a flush is under way *)

Lemma apply_adds_counters s adds : counters (apply_adds s adds) = counters s.
Proof.
  unfold apply_adds. revert s. induction adds as [|a adds IH]; intros s; simpl; [done|].
  by rewrite IH, add_counter_counters.
Qed.

Lemma apply_adds_database s adds : database (apply_adds s adds) = database s.
Proof.
  unfold apply_adds. revert s. induction adds as [|a adds IH]; intros s; simpl; [done|].
  by rewrite IH, add_counter_database.
Qed.

Lemma apply_adds_wf s adds : store_wf s -> store_wf (apply_adds s adds).
Proof.
  unfold apply_adds. revert s. induction adds as [|a adds IH]; intros s W; simpl; [done|].
  by apply IH, add_counter_wf.
Qed.

Definition adds_nonneg (adds : list add_call) : Prop :=
  Forall (fun a => 0 <= ad_up a /\ 0 <= ad_down a) adds.

Lemma added_nonneg up s adds k : adds_nonneg adds -> 0 <= added up s adds k.
Proof.
  intros Hn. unfold added. destruct (counters s !! k); [|done].
  induction Hn as [|a adds Ha _ IH]; cbn [fold_right]; [done|]. set (n := fold_right _ _ adds) in *.
  destruct (decide _); unfold sel; destruct up; lia.
Qed.

Lemma apply_adds_live up s adds k :
  store_wf s -> adds_nonneg adds ->
  live true s k + added true s adds k < 2 ^ 64 -> live false s k + added false s adds k < 2 ^ 64 ->
  live up (apply_adds s adds) k = live up s k + added up s adds k.
Proof.
  intros W Hn. unfold apply_adds. revert s W. induction Hn as [|a adds [Hu Hd] Hn IH]; intros s W Hbu Hbd; simpl.
  { unfold added. destruct (counters s !! k); simpl; lia. }
  assert (Hsame : forall b, added b (add_counter s (ad_ptr a) (ad_up a) (ad_down a)) adds k = added b s adds k).
  { intros b. unfold added. by rewrite add_counter_counters. }
  pose proof (added_nonneg true s adds k Hn). pose proof (added_nonneg false s adds k Hn).
  assert (Hstep : forall b, live b (add_counter s (ad_ptr a) (ad_up a) (ad_down a)) k + added b s adds k =
    live b s k + added b s (a :: adds) k).
  { intros b. clear IH Hsame. unfold added in *. destruct (counters s !! k) as [r|] eqn:Hr; simpl in *.
    - revert Hbu Hbd. destruct (decide (ad_ptr a = rc_counter r)) as [->|Hne]; intros Hbu Hbd; unfold sel in *.
      + destruct (add_counter_live b s k r (ad_up a) (ad_down a)) as [-> _]; try done; unfold sel in *; lia.
      + rewrite add_counter_foreign; [lia|]. intros r' Hr'. congruence.
    - rewrite add_counter_foreign; [lia|]. intros r' Hr'. congruence. }
  pose proof (Hstep true). pose proof (Hstep false).
  rewrite IH; rewrite ?Hsame; [rewrite Hstep; lia|by apply add_counter_wf|lia|lia].
Qed.

(** ** Taking the pending bytes *)

Lemma inflight_nonneg up pending k :
  Forall (fun p => 0 <= pt_upload p /\ 0 <= pt_download p) pending -> 0 <= inflight up pending k.
Proof.
  unfold inflight. induction 1 as [|p pending Hp _ IH]; cbn [fold_right]; [done|].
  set (n := fold_right _ _ pending) in *. destruct (decide _); unfold pended, sel; destruct up; lia.
Qed.

Lemma pending_item_value up s k1 r1 tail k :
  store_wf s -> counters s !! k1 = Some r1 ->
  inflight up (match pending_item s (k1, r1) with Some y => y :: tail | None => tail end) k =
  (if decide (k1 = k) then live up s k1 else 0) + inflight up tail k.
Proof.
  intros W Hc1. destruct (sw_counter s W k1 r1 Hc1) as (c & Hc & _).
  unfold live, pending_item. rewrite Hc1, Hc. cbn [default id]. unfold counted, sel.
  destruct ((upload_bytes c =? 0) && (download_bytes c =? 0)) eqn:Hz; [|done].
  boolify. destruct (decide (k1 = k)), up; lia.
Qed.

Lemma pending_value up s l k :
  store_wf s -> NoDup (map fst l) -> (forall x, x ∈ l -> counters s !! x.1 = Some x.2) ->
  inflight up (omap (pending_item s) l) k = if decide (k ∈ map fst l) then live up s k else 0.
Proof.
  intros W. induction l as [|[k1 r1] l IH]; intros Hnd Hin; [done|]. cbn [map fst] in *.
  apply list.NoDup_cons in Hnd as [Hk1 Hnd].
  change (omap (pending_item s) ((k1, r1) :: l)) with
    (match pending_item s (k1, r1) with Some y => y :: omap (pending_item s) l | None => omap (pending_item s) l end).
  rewrite pending_item_value by (done || apply (Hin (k1, r1)); by left).
  rewrite IH by (done || intros x Hx; apply Hin; by right).
  destruct (decide (k1 = k)) as [<-|Hne].
  - rewrite decide_False by done. rewrite decide_True by (by left). lia.
  - destruct (decide (k ∈ map fst l)) as [Hin'|Hnin'].
    + rewrite decide_True by (by right). lia.
    + rewrite decide_False; [lia|]. intros [->|?]%elem_of_cons; done.
Qed.

Lemma take_pending_inflight up s k :
  store_wf s -> inflight up (take_pending s).2 k = live up s k.
Proof.
  intros W. simpl. unfold pending_with. rewrite pending_value; [|done| |].
  - destruct (decide _) as [|Hnin]; [done|]. unfold live. destruct (counters s !! k) as [r|] eqn:Hr; [|done].
    exfalso. apply Hnin, list_elem_of_In, in_map_iff. exists (k, r). split; [done|].
    by apply list_elem_of_In, elem_of_map_to_list.
  - apply (NoDup_fst_map_to_list (counters s)).
  - intros [k' r] Hx. by apply elem_of_map_to_list in Hx.
Qed.

Definition zero_counter : DeviceTrafficCounter := mkDeviceTrafficCounter 0 0.

Definition swap_all (h : gmap Z DeviceTrafficCounter) (l : list (list Z * RegisteredCounter))
    : gmap Z DeviceTrafficCounter :=
  fold_left (fun h '(_, registered) => <[rc_counter registered := zero_counter]> h) l h.

(** Swapping with zero clears the listed counters and no other cell. *)
Lemma swap_all_lookup l h p :
  swap_all h l !! p = if decide (p ∈ map (fun x => rc_counter x.2) l) then Some zero_counter else h !! p.
Proof.
  unfold swap_all. revert h. induction l as [|[k r] l IH]; intros h; cbn [fold_left map snd].
  { rewrite decide_False; [done|]. apply not_elem_of_nil. }
  rewrite IH. destruct (decide (p ∈ map (fun x => rc_counter x.2) l)) as [Hin|Hnin].
  - by rewrite decide_True by (by right).
  - destruct (decide (rc_counter r = p)) as [<-|Hne].
    + rewrite lookup_insert_eq, decide_True by (by left). done.
    + rewrite lookup_insert_ne, decide_False; [done| |done]. intros [->|?]%elem_of_cons; done.
Qed.

Lemma registered_pointers s p :
  p ∈ map (fun x : list Z * RegisteredCounter => rc_counter x.2) (map_to_list (counters s)) <->
  exists k r, counters s !! k = Some r /\ rc_counter r = p.
Proof.
  rewrite list_elem_of_In, in_map_iff. split.
  - intros ([k r] & <- & Hin). apply list_elem_of_In, elem_of_map_to_list in Hin. eauto.
  - intros (k & r & Hr & <-). exists (k, r). split; [done|]. by apply list_elem_of_In, elem_of_map_to_list.
Qed.

Lemma take_pending_heap s p :
  heap (take_pending s).1 !! p =
  if decide (p ∈ map (fun x : list Z * RegisteredCounter => rc_counter x.2) (map_to_list (counters s)))
  then Some zero_counter else heap s !! p.
Proof. apply (swap_all_lookup (map_to_list (counters s)) (heap s) p). Qed.

Lemma take_pending_live up s k : store_wf s -> live up (take_pending s).1 k = 0.
Proof.
  intros W. unfold live. change (counters (take_pending s).1) with (counters s).
  destruct (counters s !! k) as [r|] eqn:Hr; [|done]. rewrite take_pending_heap, decide_True.
  - by destruct up.
  - apply registered_pointers. eauto.
Qed.

Lemma take_pending_wf s : store_wf s -> store_wf (take_pending s).1.
Proof.
  intros W. split; [|apply W|].
  - intros k r Hr. change (counters (take_pending s).1) with (counters s) in Hr.
    exists zero_counter. rewrite take_pending_heap, decide_True by (apply registered_pointers; eauto).
    split; [done|]. unfold uint; simpl; lia.
  - intros p Hp. change (next_counter (take_pending s).1) with (next_counter s) in Hp.
    rewrite take_pending_heap, decide_False; [by apply W|].
    intros (k & r & Hr & <-)%registered_pointers. destruct (sw_counter s W k r Hr) as (c & Hc & _).
    by rewrite (sw_next s W _ Hp) in Hc.
Qed.

Lemma pending_nonneg s :
  store_wf s -> Forall (fun p => 0 <= pt_upload p /\ 0 <= pt_download p) (take_pending s).2.
Proof.
  intros W. simpl. unfold pending_with. apply Forall_forall. intros p Hp.
  apply list_elem_of_In, list_elem_of_omap in Hp as ([k r] & Hin & Hp).
  apply elem_of_map_to_list in Hin. destruct (sw_counter s W k r Hin) as (c & Hc & Hu & Hd).
  unfold pending_item in Hp. rewrite Hc in Hp. cbn [default id] in Hp. revert Hp. case_if; [done|].
  intros [= <-]. unfold uint in *. simpl. lia.
Qed.

Lemma pending_registered s p :
  p ∈ (take_pending s).2 -> exists r, counters s !! pt_public_key p = Some r.
Proof.
  simpl. unfold pending_with. intros ([k r] & Hin & Hp)%list_elem_of_omap.
  apply elem_of_map_to_list in Hin. exists r. unfold pending_item in Hp. revert Hp. case_if; [done|].
  by intros [= <-].
Qed.

(** ** Restoring after a failed transaction *)

Lemma counter_registered s k name r :
  store_wf s -> counters s !! k = Some r ->
  let '(s', ptr) := counter s k name in
  ptr = rc_counter r /\ store_wf s' /\ database s' = database s /\
  (exists r', counters s' !! k = Some r' /\ rc_counter r' = ptr) /\
  (forall up k', live up s' k' = live up s k') /\
  (forall k', is_Some (counters s !! k') -> is_Some (counters s' !! k')).
Proof.
  intros W Hr. unfold counter. rewrite Hr. split_and!; try done.
  - split; simpl; [| |apply W].
    + intros k' r'. rewrite lookup_insert_Some. intros [[<- <-]|[_ Hr']]; simpl; by eapply (sw_counter s W).
    + intros k1 k2 r1 r2. rewrite !lookup_insert_Some.
      intros [[<- <-]|[_ H1]] [[<- <-]|[_ H2]]; simpl; intros Heq; try done;
        by eapply (sw_distinct s W).
  - eexists. simpl. rewrite lookup_insert_eq. done.
  - intros up k'. unfold live. simpl. destruct (decide (k = k')) as [<-|].
    + by rewrite lookup_insert_eq, Hr.
    + by rewrite lookup_insert_ne.
  - intros k' Hs. simpl. destruct (decide (k = k')) as [<-|]; [by rewrite lookup_insert_eq; eauto|].
    by rewrite lookup_insert_ne.
Qed.

Definition bounded (s : TrafficStore) (pending : list PendingTraffic) : Prop :=
  forall up k, live up s k + inflight up pending k < 2 ^ 64.

Lemma live_nonneg up s k : store_wf s -> 0 <= live up s k.
Proof.
  intros W. unfold live. destruct (counters s !! k) as [r|] eqn:Hr; [|done].
  destruct (sw_counter s W k r Hr) as (c & -> & Hu & Hd). unfold uint, counted, sel in *. destruct up; lia.
Qed.

Definition restore_item (s : TrafficStore) (item : PendingTraffic) : TrafficStore :=
  let '(s, ptr) := counter s (pt_public_key item) (pt_name item) in
  add_download (add_upload s ptr (pt_upload item)) ptr (pt_download item).

Lemma restore_item_spec s item :
  store_wf s -> 0 <= pt_upload item -> 0 <= pt_download item ->
  is_Some (counters s !! pt_public_key item) ->
  (forall up, live up s (pt_public_key item) + pended up item < 2 ^ 64) ->
  store_wf (restore_item s item) /\ database (restore_item s item) = database s /\
  (forall k, is_Some (counters s !! k) -> is_Some (counters (restore_item s item) !! k)) /\
  (forall up k, live up (restore_item s item) k =
     live up s k + (if decide (pt_public_key item = k) then pended up item else 0)).
Proof.
  intros W Hu Hd [r Hr] Hb. unfold restore_item. set (key := pt_public_key item) in *.
  pose proof (counter_registered s key (pt_name item) r W Hr) as Hc.
  destruct (counter s key (pt_name item)) as [s1 ptr].
  destruct Hc as (-> & W1 & Hdb & (r1 & Hr1 & Hptr) & Hlive & Hreg).
  pose proof (Hb true) as Hbu. pose proof (Hb false) as Hbd. unfold pended, sel in Hbu, Hbd.
  unfold add_upload, add_download. rewrite <- Hptr.
  set (s2 := add_counter s1 (rc_counter r1) (pt_upload item) 0).
  assert (W2 : store_wf s2) by (by apply add_counter_wf).
  assert (Hr2 : counters s2 !! key = Some r1) by (unfold s2; by rewrite add_counter_counters).
  assert (Hstep1 : forall up, live up s2 key = live up s key + sel up (pt_upload item) 0 /\
    forall k', k' <> key -> live up s2 k' = live up s k').
  { intros up.
    destruct (add_counter_live up s1 key r1 (pt_upload item) 0) as [H1 H2]; rewrite ?Hlive; try done; try lia.
    rewrite Hlive in H1.
    split; [exact H1|]. intros k' Hk'. rewrite <- (Hlive up k'). by apply H2. }
  assert (Hstep2 : forall up, live up (add_counter s2 (rc_counter r1) 0 (pt_download item)) key =
    live up s2 key + sel up 0 (pt_download item) /\
    forall k', k' <> key -> live up (add_counter s2 (rc_counter r1) 0 (pt_download item)) k' = live up s2 k').
  { intros up. apply add_counter_live; try done; try lia.
    - destruct (Hstep1 true) as [-> _]. unfold sel. lia.
    - destruct (Hstep1 false) as [-> _]. unfold sel. lia. }
  split_and!.
  - by apply add_counter_wf.
  - unfold s2. by rewrite !add_counter_database.
  - intros k Hk. rewrite add_counter_counters. unfold s2. rewrite add_counter_counters. by apply Hreg.
  - intros up k. destruct (decide (key = k)) as [<-|Hne].
    + destruct (Hstep2 up) as [-> _]. destruct (Hstep1 up) as [-> _]. unfold pended, sel. destruct up; lia.
    + destruct (Hstep2 up) as [_ ->]; [|done]. destruct (Hstep1 up) as [_ ->]; [lia|done].
Qed.

Lemma restore_pending_live s pending :
  store_wf s -> Forall (fun p => 0 <= pt_upload p /\ 0 <= pt_download p) pending ->
  Forall (fun p => is_Some (counters s !! pt_public_key p)) pending -> bounded s pending ->
  database (restore_pending s pending) = database s /\
  forall up k, live up (restore_pending s pending) k = live up s k + inflight up pending k.
Proof.
  intros W Hnn Hreg Hb. change (restore_pending s pending) with (fold_left restore_item pending s).
  revert s W Hreg Hb. induction Hnn as [|p pending [Hu Hd] Hnn IH]; intros s W Hreg Hb; cbn [fold_left].
  { split; [done|]. intros. unfold inflight. simpl. lia. }
  apply Forall_cons_iff in Hreg as [Hp Hreg].
  assert (Hin : forall up k, inflight up (p :: pending) k =
    (if decide (pt_public_key p = k) then pended up p else 0) + inflight up pending k) by done.
  destruct (restore_item_spec s p W Hu Hd Hp) as (W' & Hdb & Hreg' & Hlive).
  { intros up. specialize (Hb up (pt_public_key p)). rewrite Hin, decide_True in Hb by done.
    pose proof (inflight_nonneg up pending (pt_public_key p) Hnn). lia. }
  destruct (IH (restore_item s p)) as [Hdb' Hlive']; [done| | |].
  - revert Hreg. apply Forall_impl. intros q Hq. by apply Hreg'.
  - intros up k. rewrite Hlive. specialize (Hb up k). rewrite Hin in Hb. lia.
  - split; [by rewrite Hdb'|]. intros up k. rewrite Hlive', Hlive, Hin. lia.
Qed.

(** ** Committing to the table *)

Lemma stored_insert up db i r key :
  db !! i = None -> stored up (<[i := r]> db) key = (if decide (i.2 = key) then stored_row up r else 0) + stored up db key.
Proof.
  intros Hn. unfold stored. rewrite map_fold_insert_L; [done| |done].
  intros. destruct (decide _), (decide _); lia.
Qed.

Lemma stored_delete up db i r key :
  db !! i = Some r ->
  stored up db key = (if decide (i.2 = key) then stored_row up r else 0) + stored up (delete i db) key.
Proof.
  intros Hs. unfold stored. rewrite (map_fold_delete_L _ _ i r db); [done| |done].
  intros. destruct (decide _), (decide _); lia.
Qed.

Lemma stored_filter up db (Q : (Z * list Z) * row -> Prop) `{!forall x, Decision (Q x)} key :
  stored up (filter Q db) key + stored up (filter (fun x => ~ Q x) db) key = stored up db key.
Proof.
  induction db as [|i r db Hn IH] using map_ind.
  { rewrite !map_filter_empty. unfold stored. by rewrite !map_fold_empty. }
  rewrite (stored_insert up db) by done.
  assert (H1 : filter Q db !! i = None) by (apply map_lookup_filter_None; by left).
  assert (H2 : filter (fun x => ~ Q x) db !! i = None) by (apply map_lookup_filter_None; by left).
  destruct (decide (Q (i, r))) as [HQ|HQ].
  - rewrite map_filter_insert_True by done. rewrite map_filter_insert_not' by (by auto || congruence).
    rewrite stored_insert by done. lia.
  - rewrite (map_filter_insert_not' Q) by (by auto || congruence).
    rewrite map_filter_insert_True by done. rewrite stored_insert by done. lia.
Qed.

Lemma upsert_stored up hour db item key :
  pended true item <= i64_max -> pended false item <= i64_max ->
  stored up (upsert hour db item) key =
  stored up db key + (if decide (pt_public_key item = key) then pended up item else 0).
Proof.
  intros Hu Hd. unfold pended, sel, upsert, to_sql_integer in *.
  rewrite (Z.min_l (pt_upload item)), (Z.min_l (pt_download item)) by done.
  set (i := (Z.min hour i64_max, pt_public_key item)).
  destruct (db !! i) as [old|] eqn:Ho.
  - rewrite <- insert_delete_eq, stored_insert by apply lookup_delete_eq.
    rewrite (stored_delete up db i old key Ho). simpl.
    destruct (decide (pt_public_key item = key)); unfold stored_row, sel; destruct up; simpl; lia.
  - rewrite stored_insert by done. simpl.
    destruct (decide (pt_public_key item = key)); unfold stored_row, sel; destruct up; simpl; lia.
Qed.

Lemma upserts_stored up hour pending db key :
  Forall (fun p => pended true p <= i64_max /\ pended false p <= i64_max) pending ->
  stored up (fold_left (upsert hour) pending db) key = stored up db key + inflight up pending key.
Proof.
  intros Hp. revert db. induction Hp as [|p pending [Hu Hd] Hp IH]; intros db; cbn [fold_left].
  { unfold inflight; simpl; lia. }
  rewrite IH, upsert_stored by done. unfold inflight. cbn [fold_right]. lia.
Qed.

(** All bytes of a key: still counting and already in the table. *)
Definition total (up : bool) (s : TrafficStore) (key : str) : Z := live up s key + stored up (database s) key.

Lemma pended_le_inflight up p pending :
  Forall (fun p => 0 <= pt_upload p /\ 0 <= pt_download p) pending -> p ∈ pending ->
  pended up p <= inflight up pending (pt_public_key p).
Proof.
  intros Hn Hin. induction Hn as [|q pending Hq Hn IH]; [by apply not_elem_of_nil in Hin|].
  pose proof (inflight_nonneg up pending (pt_public_key p) Hn).
  unfold inflight. cbn [fold_right]. fold (inflight up pending (pt_public_key p)).
  apply elem_of_cons in Hin as [->|Hin].
  - rewrite decide_True by done. lia.
  - specialize (IH Hin). destruct (decide _); [|lia]. unfold pended, sel in *. destruct up; lia.
Qed.

(** Columns are not negative (the CHECKs of the schema). *)
Definition rows_nonneg (db : gmap (Z * list Z) row) : Prop := map_Forall (fun _ r => 0 <= row_upload r /\ 0 <= row_download r) db.

Lemma rows_nonneg_filter db (Q : (Z * list Z) * row -> Prop) `{!forall x, Decision (Q x)} : rows_nonneg db -> rows_nonneg (filter Q db).
Proof. intros Hn i r [Hi _]%map_lookup_filter_Some. exact (Hn i r Hi). Qed.

Lemma stored_nonneg up db key : rows_nonneg db -> 0 <= stored up db key.
Proof.
  induction db as [|i r db Hn IH] using map_ind; intros Hr; [by unfold stored; rewrite map_fold_empty|].
  rewrite stored_insert by done. unfold rows_nonneg in Hr. rewrite map_Forall_insert in Hr by done. destruct Hr as [Hr Hrest].
  specialize (IH Hrest). destruct (decide _); unfold stored_row, sel; destruct up; lia.
Qed.

Lemma row_le_stored up db i r : rows_nonneg db -> db !! i = Some r -> 0 <= stored_row up r <= stored up db i.2.
Proof.
  intros Hn Hi. rewrite (stored_delete up db i r) by done. rewrite decide_True by done.
  pose proof (stored_nonneg up (delete i db) i.2 (map_Forall_delete _ _ _ Hn)). destruct (Hn i r Hi). unfold stored_row, sel. destruct up; lia.
Qed.

Lemma upserts_nonneg hour pending db :
  Forall (fun p => 0 <= pt_upload p /\ 0 <= pt_download p) pending -> rows_nonneg db -> rows_nonneg (fold_left (upsert hour) pending db).
Proof.
  intros Hp. revert db. induction Hp as [|p pending [Hu Hd] Hp IH]; intros db Hn; cbn [fold_left]; [done|]. apply IH.
  unfold upsert, to_sql_integer, i64_max. case_match eqn:Ho; apply map_Forall_insert_2; cbn [row_upload row_download]; try done; [|lia].
  destruct (Hn _ _ Ho). lia.
Qed.

(** The rows that retention removes are those of old hours: never what a flush just added. *)
Lemma upserts_expired hour oldest pending db :
  oldest <= hour ->
  filter (fun kv : (Z * list Z) * row => ~ to_sql_integer oldest <= kv.1.1) (fold_left (upsert hour) pending db) =
  filter (fun kv : (Z * list Z) * row => ~ to_sql_integer oldest <= kv.1.1) db.
Proof.
  intros Ho. revert db. induction pending as [|p pending IH]; intros db; cbn [fold_left]; [done|]. rewrite IH.
  assert (Hq : to_sql_integer oldest <= to_sql_integer hour) by (unfold to_sql_integer; lia).
  unfold upsert. case_match; apply map_filter_insert_not'; cbn; intros; by auto.
Qed.

(** Bytes of a device in rows older than the retention of a flush at [now]. *)
Definition expired (up : bool) (s : TrafficStore) (now : Z) (key : str) : Z :=
  stored up (filter (fun kv : (Z * list Z) * row => ~ to_sql_integer (sat_sub (now / SECONDS_PER_HOUR) RETENTION_HOURS) <= kv.1.1) (database s)) key.

(** What a flush leaves behind when its transaction commits, and when it fails. *)
Lemma persisted_total up s pending now key :
  0 <= now -> Forall (fun p => pended true p <= i64_max /\ pended false p <= i64_max) pending ->
  let hour := now / SECONDS_PER_HOUR in
  total up (persist_pending true s hour (sat_sub hour RETENTION_HOURS) pending).1 key + expired up s now key =
  total up s key + inflight up pending key.
Proof.
  intros Hnow Hp hour. unfold total, expired. cbn [persist_pending fst database].
  change (live up (mkTrafficStore _ (counters s) (heap s) (next_counter s)) key) with (live up s key). fold hour.
  assert (Hh : 0 <= hour) by (apply Z.div_pos; [done|by vm_compute]).
  rewrite <- (upserts_expired hour _ pending) by (unfold sat_sub, RETENTION_HOURS; lia).
  pose proof (stored_filter up (fold_left (upsert hour) pending (database s))
    (fun kv : (Z * list Z) * row => to_sql_integer (sat_sub hour RETENTION_HOURS) <= kv.1.1) key) as Hf.
  rewrite upserts_stored in Hf by done. lia.
Qed.

(** The state of a flush behind the swap of the counters. *)
Lemma taken_and_counted s others :
  store_wf s -> adds_nonneg others -> (forall u k, live u s k + added u s others k <= i64_max) ->
  let s2 := apply_adds (take_pending s).1 others in
  store_wf s2 /\ database s2 = database s /\ counters s2 = counters s /\ forall u k, live u s2 k = added u s others k.
Proof.
  intros W Hn Hb s2. pose proof (take_pending_wf s W) as W1. pose proof (fun u k => take_pending_live u s k W) as Hz.
  unfold s2. rewrite apply_adds_database, apply_adds_counters. split_and!; [by apply apply_adds_wf|done|done|].
  assert (Hadded : forall u k, added u (take_pending s).1 others k = added u s others k) by done.
  assert (Hsmall : forall u k, added u s others k < 2 ^ 64).
  { intros u k. pose proof (Hb u k). pose proof (live_nonneg u s k W). unfold i64_max in *. lia. }
  intros u k. rewrite apply_adds_live, Hz, Hadded; [lia|done|done|..]; rewrite Hz, Hadded; apply Hsmall.
Qed.

(** [C16] No byte is lost or counted twice by a flush, whatever the sessions count while it
    runs, as long as the bytes of a device stay below 2^63.  If there is nothing to write or
    the transaction commits, the flush succeeds, otherwise it fails; in each case counters
    and table together hold, for every device and direction, what they held before and what
    was counted during the flush, less the rows older than the retention when a transaction
    committed; and every row of the table is an integer SQLite can hold. *)
Theorem flush_conserves_bytes commit others s now :
  store_wf s -> adds_nonneg others -> rows_nonneg (database s) -> u64 now ->
  (forall u k, total u s k + added u s others k <= i64_max) ->
  let '(s', ok) := flush_at commit others s now in
  let idle := bool_decide (length (pending_with s) = 0%nat) in
  ok = commit || idle /\
  (forall up key, total up s' key + (if commit && negb idle then expired up s now key else 0) =
     total up s key + added up s others key) /\
  (forall up i r, database s' !! i = Some r -> 0 <= stored_row up r <= i64_max).
Proof.
  intros W Hn Hrows Hnow Hb. unfold uint in Hnow.
  assert (Hlive : forall u k, live u s k + added u s others k <= i64_max).
  { intros u k. pose proof (Hb u k). pose proof (stored_nonneg u (database s) k Hrows). unfold total in *. lia. }
  destruct (taken_and_counted s others W Hn Hlive) as (W2 & Hd2 & Hc2 & Hl2).
  pose proof (fun u k => take_pending_inflight u s k W) as Hin. pose proof (pending_nonneg s W) as Hpn. pose proof (pending_registered s) as Hreg.
  assert (Hrow : forall s3, rows_nonneg (database s3) -> (forall u k, stored u (database s3) k <= i64_max) ->
    forall up i r, database s3 !! i = Some r -> 0 <= stored_row up r <= i64_max).
  { intros s3 H1 H2 up i r Hi. pose proof (row_le_stored up _ i r H1 Hi). pose proof (H2 up i.2). lia. }
  assert (Hst : forall u k, stored u (database s) k <= i64_max).
  { intros u k. pose proof (Hb u k). pose proof (live_nonneg u s k W). pose proof (added_nonneg u s others k Hn). unfold total in *. lia. }
  unfold flush_at. change (pending_with s) with (take_pending s).2. destruct (take_pending s) as [s1 pending]. cbn [fst snd] in *.
  set (s2 := apply_adds s1 others) in *. case_bool_decide as Hidle; cbn [negb]; rewrite ?andb_false_r, ?andb_true_r, ?orb_true_r, ?orb_false_r.
  { split; [done|]. split; [|rewrite Hd2 in *; by apply (Hrow s)]. intros up key. unfold total. rewrite Hd2, Hl2.
    destruct pending; [|done]. specialize (Hin up key). cbn in Hin. lia. }
  assert (Hpi : Forall (fun p => pended true p <= i64_max /\ pended false p <= i64_max) pending).
  { apply Forall_forall. intros p Hp%list_elem_of_In.
    split; (etransitivity; [by apply (pended_le_inflight _ p pending)|]); rewrite Hin; [specialize (Hlive true (pt_public_key p));
      pose proof (added_nonneg true s others (pt_public_key p) Hn)|specialize (Hlive false (pt_public_key p));
      pose proof (added_nonneg false s others (pt_public_key p) Hn)]; lia. }
  destruct commit; cbn [persist_pending].
  - pose proof (fun up key => persisted_total up s2 pending now key (proj1 Hnow) Hpi) as Ht. cbn [persist_pending fst] in Ht.
    set (s3 := mkTrafficStore (filter _ _) _ _ _) in *.
    assert (He : forall up key, expired up s2 now key = expired up s now key) by (intros; unfold expired; by rewrite Hd2).
    assert (Heq : forall up key, total up s3 key + expired up s now key = total up s key + added up s others key).
    { intros up key. rewrite <- He, Ht. unfold total. rewrite Hd2, Hl2, Hin. lia. }
    split; [done|]. split; [done|]. apply Hrow.
    + apply rows_nonneg_filter. rewrite Hd2. by apply upserts_nonneg.
    + intros u k. pose proof (Heq u k). pose proof (Hb u k).
      assert (0 <= expired u s now k) by (apply stored_nonneg; by apply rows_nonneg_filter).
      assert (0 <= live u s3 k) by (change (live u s3 k) with (live u s2 k); rewrite Hl2; by apply added_nonneg). unfold total in *. lia.
  - destruct (restore_pending_live s2 pending W2 Hpn) as [Hdb Hrest].
    + apply Forall_forall. intros p Hp%list_elem_of_In. rewrite Hc2. destruct (Hreg p Hp) as [r Hr]. eauto.
    + intros u k. rewrite Hl2, Hin. pose proof (Hlive u k). unfold i64_max in *. lia.
    + split; [done|]. split; [|rewrite Hdb, Hd2; by apply (Hrow s)].
      intros up key. unfold total. rewrite Hrest, Hdb, Hd2, Hl2, Hin. lia.
Qed.

(** A store with one counter of 100 bytes up, and 7 bytes more during the flush. *)
Definition toy_store : TrafficStore :=
  mkTrafficStore ∅ (<[[65] := mkRegisteredCounter [97] 0]> ∅) (<[0 := mkDeviceTrafficCounter 100 0]> ∅) 1.

Lemma toy_store_wf : store_wf toy_store.
Proof.
  split; unfold toy_store; simpl.
  - intros k r [[<- <-]|[_ H]]%lookup_insert_Some; [|by rewrite lookup_empty in H].
    exists (mkDeviceTrafficCounter 100 0). split; [done|]. unfold uint; simpl; lia.
  - intros k k' r r' [[<- <-]|[_ H]]%lookup_insert_Some [[<- <-]|[_ H']]%lookup_insert_Some;
      by try rewrite lookup_empty in *.
  - intros p Hp. rewrite lookup_insert_ne by lia. apply lookup_empty.
Qed.

Lemma flush_conserves_bytes_witness :
  (forall commit, total true (flush_at commit [mkAdd 0 7 0] toy_store 36000).1 [65] = 107) /\
  (flush_at false [mkAdd 0 7 0] toy_store 36000).2 = false.
Proof.
  assert (Hb : forall u k, total u toy_store k + added u toy_store [mkAdd 0 7 0] k <= i64_max).
  { intros u k. unfold total, live, added, toy_store. cbn [counters database]. unfold stored. rewrite map_fold_empty.
    destruct (decide ([65] = k)) as [<-|Hne].
    - rewrite lookup_insert_eq. cbn. destruct u; vm_compute; congruence.
    - rewrite lookup_insert_ne, lookup_empty by done. vm_compute. congruence. }
  assert (Hn : adds_nonneg [mkAdd 0 7 0]) by (repeat constructor; simpl; lia).
  assert (Hr : rows_nonneg (database toy_store)) by apply map_Forall_empty.
  split.
  - intros commit. pose proof (flush_conserves_bytes commit [mkAdd 0 7 0] toy_store 36000 toy_store_wf Hn Hr ltac:(unfold uint; lia) Hb) as H.
    destruct (flush_at commit [mkAdd 0 7 0] toy_store 36000) as [s' ok]. destruct H as (_ & H & _). specialize (H true [65]).
    assert (He : expired true toy_store 36000 [65] = 0) by (vm_compute; reflexivity). rewrite He in H.
    assert (Ht : total true toy_store [65] + added true toy_store [mkAdd 0 7 0] [65] = 107) by (vm_compute; reflexivity).
    cbn [fst]. destruct (commit && _); lia.
  - pose proof (flush_conserves_bytes false [mkAdd 0 7 0] toy_store 36000 toy_store_wf Hn Hr ltac:(unfold uint; lia) Hb) as H.
    destruct (flush_at false [mkAdd 0 7 0] toy_store 36000) as [s' ok]. destruct H as (H & _). rewrite H. vm_compute. reflexivity.
Defined.
