(* ===== verification/Wire.v ===== *)
(** * Wire modes and routing of the server (crates/server/src/daemon.rs)

    [WireMode] is the representation a session uses, [MorphRouter] maps the clear
    routing tag of a masked frame to the device that may have sent it, and
    [decode_wire_into] unwraps a received UDP payload.  Clones of a Speedy codec share
    their tag cache in the source; results do not depend on it
    (Speedy.speedy_cache_is_transparent), so each holder carries its own here.  The
    clock is read once per received datagram; a set of devices is visited in the order
    of [elements]. *)

From S2P Require Import Prelude Protocol Replay Crypto ToyCrypto DataPlane Morph Speedy Config ClientWire Registry.

Module WireMode.

Inductive t :=
| Legacy
| Speedy (client_public_key : PublicKey) (codec : Speedy.SpeedyCodec)
| Morph (client_public_key : PublicKey) (codec : MorphCodec).

Section Wire.
Context `{P : Primitives}.

Definition encode_server (clock : option Z) (random : option bytes) (w : t) (inner : bytes) : res unit bytes :=
  match w with
  | Legacy => Ok ([] ++ inner)
  | Morph _ codec =>
      map_err (fun _ => tt) (MorphCodec_encode_payload clock random codec inner Direction.ServerToClient)
  | Speedy _ codec =>
      let '(_, output, r) := Speedy.encode clock codec inner Speedy.Direction.ServerToClient in
      _ ← map_err (fun _ => tt) r; Ok output
  end.

Definition allows_client (w : t) (public_key : PublicKey) : bool :=
  match w with
  | Legacy => true
  | Morph client_public_key _ | Speedy client_public_key _ => bool_decide (client_public_key = public_key)
  end.

Definition matches (expected incoming : t) : bool :=
  match expected, incoming with
  | Legacy, Legacy => true
  | Speedy expected _, Speedy actual _ => bool_decide (expected = actual)
  | Morph expected expected_codec, Morph actual actual_codec =>
      bool_decide (expected = actual) && bool_decide (mc_profile expected_codec = mc_profile actual_codec)
  | _, _ => false
  end.

Definition session_mtu (w : t) (configured : Z) : Z :=
  match w with
  | Legacy => configured
  | Speedy _ _ => Z.min configured Speedy.SAFE_TUN_MTU
  | Morph _ _ => Z.min configured SAFE_TUN_MTU
  end.

End Wire.
End WireMode.

Record MorphRoute := mkMorphRoute {
  mr_public_key : PublicKey;
  mr_key : bytes;
  mr_profile : Profile.t;
}.

Record MorphRouter := mkMorphRouter {
  mo_epoch : option Z;
  mo_keys : gmap (list Z) (list Z);
  mo_speedy_codecs : gmap (list Z) Speedy.SpeedyCodec;
  mo_speedy_routes : gmap (list Z) (PublicKey * Speedy.SpeedyCodec);
  mo_routes : gmap (list Z) MorphRoute;
  mo_ambiguous : gset (list Z);
}.

Definition MorphRouter_default : MorphRouter := mkMorphRouter None ∅ ∅ ∅ ∅ ∅.

(** One tag of a MouseMorph route: the body of the innermost loop of [refresh]. *)
Definition add_morph_tag (r : MorphRouter) (tag : bytes) (route : MorphRoute) : MorphRouter :=
  if bool_decide (tag ∈ mo_ambiguous r) then r
  else
    match mo_speedy_routes r !! tag with
    | Some _ =>
        mkMorphRouter (mo_epoch r) (mo_keys r) (mo_speedy_codecs r) (delete tag (mo_speedy_routes r))
          (mo_routes r) ({[ tag ]} ∪ mo_ambiguous r)
    | None =>
        match mo_routes r !! tag with
        | None =>
            mkMorphRouter (mo_epoch r) (mo_keys r) (mo_speedy_codecs r) (mo_speedy_routes r)
              (<[tag := route]> (mo_routes r)) (mo_ambiguous r)
        | Some _ =>
            mkMorphRouter (mo_epoch r) (mo_keys r) (mo_speedy_codecs r) (mo_speedy_routes r)
              (delete tag (mo_routes r)) ({[ tag ]} ∪ mo_ambiguous r)
        end
    end.

(** One tag of a Speedy route: the loop body of [add_speedy_routes]. *)
Definition add_speedy_tag (r : MorphRouter) (tag : bytes) (target : PublicKey * Speedy.SpeedyCodec) : MorphRouter :=
  if bool_decide (tag ∈ mo_ambiguous r) then r
  else
    match mo_routes r !! tag with
    | Some _ =>
        mkMorphRouter (mo_epoch r) (mo_keys r) (mo_speedy_codecs r) (mo_speedy_routes r)
          (delete tag (mo_routes r)) ({[ tag ]} ∪ mo_ambiguous r)
    | None =>
        match mo_speedy_routes r !! tag with
        | Some _ =>
            mkMorphRouter (mo_epoch r) (mo_keys r) (mo_speedy_codecs r) (delete tag (mo_speedy_routes r))
              (mo_routes r) ({[ tag ]} ∪ mo_ambiguous r)
        | None =>
            mkMorphRouter (mo_epoch r) (mo_keys r) (mo_speedy_codecs r)
              (<[tag := target]> (mo_speedy_routes r)) (mo_routes r) (mo_ambiguous r)
        end
    end.

Section Router.
Context `{P : Primitives, B : Base64}.

(** The router is returned on failure as well, with the changes made so far. *)
Definition add_speedy_routes (clock : option Z) (config : ValidatedServerConfig) (r : MorphRouter)
    (public_key : PublicKey) : MorphRouter * res unit unit :=
  let codec :=
    match mo_speedy_codecs r !! public_key with
    | Some codec => Ok codec
    | None =>
        key ← map_err (fun _ => tt)
          (derive_speedy_key (vs_server_private_key config) public_key (vs_server_public_key config) public_key);
        map_err (fun _ => tt) (Speedy.SpeedyCodec_new key)
    end in
  match codec with
  | Err e => (r, Err e)
  | Panic => (r, Panic)
  | Ok codec =>
      let r := mkMorphRouter (mo_epoch r) (mo_keys r) (<[public_key := codec]> (mo_speedy_codecs r))
                 (mo_speedy_routes r) (mo_routes r) (mo_ambiguous r) in
      match Speedy.current_epoch clock with
      | Err _ => (r, Err tt)
      | Panic => (r, Panic)
      | Ok epoch =>
          (fold_left (fun r epoch =>
             add_speedy_tag r (Speedy.routing_tag_at codec Speedy.Direction.ClientToServer epoch) (public_key, codec))
             (Speedy.accepted_epochs epoch) r, Ok tt)
      end
  end.

(** The MouseMorph tags of one device, over all profiles. *)
Definition add_morph_routes (clock : option Z) (r : MorphRouter) (public_key : PublicKey) (key : bytes) : MorphRouter :=
  fold_left (fun r profile =>
    match current_epoch clock profile with
    | Ok profile_epoch =>
        let route := mkMorphRoute public_key key profile in
        fold_left (fun r accepted =>
          add_morph_tag r (routing_tag_at key profile Direction.ClientToServer accepted) route)
          (accepted_epochs profile_epoch) r
    | _ => r
    end) [Profile.Quiet; Profile.Balanced; Profile.Paranoid] r.

(** The body of the device loop; a device without a shared secret is skipped. *)
Definition refresh_device (clock : option Z) (config : ValidatedServerConfig) (r : MorphRouter)
    (public_key : PublicKey) : MorphRouter * res unit unit :=
  let found :=
    match mo_keys r !! public_key with
    | Some key => Some (r, key)
    | None =>
        match derive_morph_key (vs_server_private_key config) public_key (vs_server_public_key config) public_key with
        | Ok key =>
            Some (mkMorphRouter (mo_epoch r) (<[public_key := key]> (mo_keys r)) (mo_speedy_codecs r)
                    (mo_speedy_routes r) (mo_routes r) (mo_ambiguous r), key)
        | _ => None
        end
    end in
  match found with
  | None => (r, Ok tt)
  | Some (r, key) => add_speedy_routes clock config (add_morph_routes clock r public_key key) public_key
  end.

Fixpoint refresh_devices (clock : option Z) (config : ValidatedServerConfig) (r : MorphRouter)
    (devices : list PublicKey) : MorphRouter * res unit unit :=
  match devices with
  | [] => (r, Ok tt)
  | public_key :: devices =>
      match refresh_device clock config r public_key with
      | (r, Ok _) => refresh_devices clock config r devices
      | (r, failed) => (r, failed)
      end
  end.

Definition device_keys (w : world) : gset (list Z) :=
  list_to_set (omap (fun device => res_ok (decode_public_key (dr_public_key device))) (list_devices w)).

Definition refresh (clock : option Z) (epoch : Z) (config : ValidatedServerConfig) (w : world) (r : MorphRouter)
    : MorphRouter * res unit unit :=
  let devices := device_keys w in
  let r := mkMorphRouter (mo_epoch r)
             (filter (fun kv => kv.1 ∈ devices) (mo_keys r))
             (filter (fun kv => kv.1 ∈ devices) (mo_speedy_codecs r)) ∅ ∅ ∅ in
  match refresh_devices clock config r (elements devices) with
  | (r, Ok _) =>
      (mkMorphRouter (Some epoch) (mo_keys r) (mo_speedy_codecs r) (mo_speedy_routes r) (mo_routes r)
         (mo_ambiguous r), Ok tt)
  | (r, failed) => (r, failed)
  end.

(** [None] is [Err tt]. *)
Definition resolve (clock : option Z) (config : ValidatedServerConfig) (w : world) (r : MorphRouter) (input : bytes)
    : MorphRouter * res unit MorphRoute :=
  match get_range input 0 8 with
  | None => (r, Err tt)
  | Some tag =>
      match current_epoch clock Profile.Paranoid with
      | Panic => (r, Panic)
      | Err _ => (r, Err tt)
      | Ok epoch =>
          let '(r, out) := if negb (bool_decide (mo_epoch r = Some epoch)) then refresh clock epoch config w r
                           else (r, Ok tt) in
          (r, _ ← out; ok_or (mo_routes r !! tag) tt)
      end
  end.

(** The wire mode and the datagram inside; [None] is [Err tt]. *)
Definition decode_wire_into (clock : option Z) (config : ValidatedServerConfig) (w : world) (r : MorphRouter)
    (input : bytes) : MorphRouter * res unit (WireMode.t * bytes) :=
  let '(r, route) := resolve clock config w r input in
  match route with
  | Panic => (r, Panic)
  | Err _ =>
      let legacy := (r, Ok (WireMode.Legacy, [] ++ input)) in
      match get_range input 0 8 with
      | Some tag =>
          if bool_decide (tag ∈ mo_ambiguous r) then (r, Err tt)
          else
            match mo_speedy_routes r !! tag with
            | Some (public_key, codec) =>
                let '(codec, output, out) := Speedy.decode clock codec input Speedy.Direction.ClientToServer in
                (r, _ ← map_err (fun _ => tt) out; Ok (WireMode.Speedy public_key codec, output))
            | None => legacy
            end
      | None => legacy
      end
  | Ok route =>
      let codec := mkMorphCodec (mr_key route) (mr_profile route) in
      (r,
       '(frame, output) ← map_err (fun _ => tt) (MorphCodec_decode clock codec input Direction.ClientToServer);
       match frame with
       | DecodedFrame.Payload profile =>
           Ok (WireMode.Morph (mr_public_key route) (mkMorphCodec (mr_key route) profile), output)
       | DecodedFrame.Cover _ => Err tt
       end)
  end.

End Router.

(** ** Classification of routing tags *)

(** What a tag may lead to. *)
Definition target : Type := MorphRoute + (list Z * Speedy.SpeedyCodec).
Definition candidate : Type := (list Z * target).

Definition add_tag (r : MorphRouter) (c : candidate) : MorphRouter :=
  match c.2 with inl route => add_morph_tag r c.1 route | inr t => add_speedy_tag r c.1 t end.

(** The candidates that carry a tag. *)
Definition bearers (tag : list Z) (cs : list candidate) : list target :=
  map snd (filter (fun c => c.1 = tag) cs).

(** A router holds exactly the tags with a single bearer, and marks the others. *)
Definition classified (r : MorphRouter) (cs : list candidate) : Prop :=
  forall tag,
    match bearers tag cs with
    | [] => mo_routes r !! tag = None /\ mo_speedy_routes r !! tag = None /\ tag ∉ mo_ambiguous r
    | [inl route] => mo_routes r !! tag = Some route /\ mo_speedy_routes r !! tag = None /\ tag ∉ mo_ambiguous r
    | [inr t] => mo_routes r !! tag = None /\ mo_speedy_routes r !! tag = Some t /\ tag ∉ mo_ambiguous r
    | _ => mo_routes r !! tag = None /\ mo_speedy_routes r !! tag = None /\ tag ∈ mo_ambiguous r
    end.

Lemma bearers_app tag cs cs' : bearers tag (cs ++ cs') = bearers tag cs ++ bearers tag cs'.
Proof. unfold bearers. by rewrite list.filter_app, map_app. Qed.

(** Cells of other tags are not touched. *)
Lemma add_tag_other r c tag :
  c.1 <> tag ->
  mo_routes (add_tag r c) !! tag = mo_routes r !! tag /\
  mo_speedy_routes (add_tag r c) !! tag = mo_speedy_routes r !! tag /\
  (tag ∈ mo_ambiguous (add_tag r c) <-> tag ∈ mo_ambiguous r).
Proof.
  intros Hne. unfold add_tag, add_morph_tag, add_speedy_tag.
  destruct c.2; repeat case_match; simpl; rewrite ?lookup_insert_ne, ?lookup_delete_ne by done; set_solver.
Qed.

Lemma add_tag_classified r cs c : classified r cs -> classified (add_tag r c) (cs ++ [c]).
Proof.
  intros H tag. rewrite bearers_app. specialize (H tag).
  destruct (decide (c.1 = tag)) as [Heq|Hne].
  2: { assert (Hb : bearers tag [c] = []) by (unfold bearers; by rewrite filter_cons_False).
       rewrite Hb, app_nil_r. destruct (add_tag_other r c tag Hne) as (-> & -> & Ha).
       repeat case_match; rewrite ?Ha; done. }
  assert (Hb : bearers tag [c] = [c.2]) by (unfold bearers; by rewrite filter_cons_True).
  rewrite Hb. unfold add_tag. rewrite Heq.
  destruct (bearers tag cs) as [|x [|y l]]; simpl in H |- *.
  - destruct H as (Hr & Hs & Ha). destruct c.2; unfold add_morph_tag, add_speedy_tag;
      rewrite (bool_decide_false _ Ha), ?Hr, ?Hs; simpl; rewrite ?Hr, ?Hs, ?lookup_insert_eq; done.
  - destruct x as [route|t]; destruct H as (Hr & Hs & Ha).
    + assert (Hgoal : forall r', r' = mkMorphRouter (mo_epoch r) (mo_keys r) (mo_speedy_codecs r)
        (mo_speedy_routes r) (delete tag (mo_routes r)) ({[tag]} ∪ mo_ambiguous r) ->
        mo_routes r' !! tag = None /\ mo_speedy_routes r' !! tag = None /\ tag ∈ mo_ambiguous r').
      { intros r' ->. simpl. rewrite lookup_delete_eq. split_and!; [done|done|set_solver]. }
      destruct c.2; apply Hgoal; unfold add_morph_tag, add_speedy_tag;
        by rewrite (bool_decide_false _ Ha), ?Hr, ?Hs, ?Hr.
    + assert (Hgoal : forall r', r' = mkMorphRouter (mo_epoch r) (mo_keys r) (mo_speedy_codecs r)
        (delete tag (mo_speedy_routes r)) (mo_routes r) ({[tag]} ∪ mo_ambiguous r) ->
        mo_routes r' !! tag = None /\ mo_speedy_routes r' !! tag = None /\ tag ∈ mo_ambiguous r').
      { intros r' ->. simpl. rewrite lookup_delete_eq. split_and!; [done|done|set_solver]. }
      destruct c.2; apply Hgoal; unfold add_morph_tag, add_speedy_tag;
        by rewrite (bool_decide_false _ Ha), ?Hr, ?Hs, ?Hr.
  - assert (H' : mo_routes r !! tag = None /\ mo_speedy_routes r !! tag = None /\ tag ∈ mo_ambiguous r)
      by (by destruct x).
    destruct H' as (Hr & Hs & Ha).
    assert (Hsame : match c.2 with inl route => add_morph_tag r tag route | inr t => add_speedy_tag r tag t end = r).
    { destruct c.2; unfold add_morph_tag, add_speedy_tag; by rewrite (bool_decide_true _ Ha). }
    rewrite Hsame. by destruct x.
Qed.

Lemma add_tags_classified r cs new :
  classified r cs -> classified (fold_left add_tag new r) (cs ++ new).
Proof.
  revert r cs. induction new as [|c new IH]; intros r cs H; simpl; [by rewrite app_nil_r|].
  replace (cs ++ c :: new) with ((cs ++ [c]) ++ new) by (by rewrite <- app_assoc).
  by apply IH, add_tag_classified.
Qed.

(** [add_tag] leaves keys and codecs alone. *)
Lemma add_tags_keys r new :
  mo_keys (fold_left add_tag new r) = mo_keys r /\ mo_speedy_codecs (fold_left add_tag new r) = mo_speedy_codecs r /\
  mo_epoch (fold_left add_tag new r) = mo_epoch r.
Proof.
  revert r. induction new as [|c new IH]; intros r; simpl; [done|].
  destruct (IH (add_tag r c)) as (-> & -> & ->).
  unfold add_tag, add_morph_tag, add_speedy_tag. destruct c.2; by repeat case_match.
Qed.

(** ** Refreshing the router *)

Section RouterTheorems.
Context `{P : Primitives, PL : !PrimitiveLaws, B : Base64, BL : !Base64Laws}.

(** The keys the server shares with a device. *)
Definition morph_key_of (config : ValidatedServerConfig) (k : PublicKey) : res CryptoError.t bytes :=
  derive_morph_key (vs_server_private_key config) k (vs_server_public_key config) k.

Definition speedy_codec_of (config : ValidatedServerConfig) (k : PublicKey) : res unit Speedy.SpeedyCodec :=
  key ← map_err (fun _ => tt)
    (derive_speedy_key (vs_server_private_key config) k (vs_server_public_key config) k);
  map_err (fun _ => tt) (Speedy.SpeedyCodec_new key).

(** Tags of one device at one time: three epochs of each profile, and of Speedy. *)
Definition morph_candidates (t : Z) (k : PublicKey) (key : bytes) : list candidate :=
  flat_map (fun p => map (fun e =>
      (routing_tag_at key p Direction.ClientToServer e, inl (mkMorphRoute k key p)))
      (accepted_epochs (t / Profile.epoch_seconds p)))
    [Profile.Quiet; Profile.Balanced; Profile.Paranoid].

Definition speedy_candidates (t : Z) (k : PublicKey) (codec : Speedy.SpeedyCodec) : list candidate :=
  map (fun e => (Speedy.routing_tag_at codec Speedy.Direction.ClientToServer e, inr (k, codec)))
    (Speedy.accepted_epochs (t / Speedy.EPOCH_SECONDS)).

Definition device_candidates (t : Z) (config : ValidatedServerConfig) (k : PublicKey) : list candidate :=
  match morph_key_of config k, speedy_codec_of config k with
  | Ok key, Ok codec => morph_candidates t k key ++ speedy_candidates t k codec
  | _, _ => []
  end.

(** The memoised keys are the derived ones. *)
Definition caches_ok (config : ValidatedServerConfig) (r : MorphRouter) : Prop :=
  (forall k key, mo_keys r !! k = Some key -> morph_key_of config k = Ok key) /\
  (forall k codec, mo_speedy_codecs r !! k = Some codec -> speedy_codec_of config k = Ok codec).

Lemma derive_wire_key_len l p s c label key : derive_wire_key l p s c label = Ok key -> len key = 32.
Proof.
  unfold derive_wire_key. case_decide; [done|].
  edestruct (hkdf_len label (x25519 l p)) as (out & Hout & Hl); [|rewrite Hout; intros [= <-]; exact Hl].
  unfold KEY_LEN. lia.
Qed.

Lemma speedy_new_total key : len key = 32 -> exists codec, Speedy.SpeedyCodec_new key = Ok codec /\ Speedy.sc_routes codec = None.
Proof.
  intros Hk. unfold Speedy.SpeedyCodec_new, Speedy.derive_keys, Speedy.derive.
  repeat match goal with
  | |- context [hkdf_expand key ?info 32] =>
      let out := fresh "out" in let H := fresh "H" in
      destruct (hkdf_expand_len key info 32 Hk ltac:(lia)) as (out & H & _); rewrite H; res_simpl
  end. eauto.
Qed.

(** A device has both keys or neither: the only failure is a zero shared secret. *)
Lemma keys_together config k :
  (exists key codec, morph_key_of config k = Ok key /\ speedy_codec_of config k = Ok codec /\
     Speedy.sc_routes codec = None) \/
  (exists e, morph_key_of config k = Err e /\ speedy_codec_of config k = Err tt).
Proof.
  unfold speedy_codec_of, morph_key_of, derive_morph_key, derive_speedy_key, derive_wire_key.
  case_decide as Hz; [right; simpl; eauto|]. left.
  edestruct (hkdf_len MORPH_KEY_LABEL) as (key & -> & Hl); [unfold KEY_LEN; lia|].
  edestruct (hkdf_len (ascii_bytes "MouseVPN Speedy v1 key")) as (key' & -> & Hl'); [unfold KEY_LEN; lia|].
  res_simpl. cbn [ok_or map_err]. destruct (speedy_new_total key' Hl') as (codec & Hc & Hr). rewrite Hc. eauto.
Qed.

Lemma fold_left_flat {A C} (f : MorphRouter -> C -> MorphRouter) (g : A -> list C) l r :
  fold_left (fun r a => fold_left f (g a) r) l r = fold_left f (flat_map g l) r.
Proof. revert r. induction l as [|a l IH]; intros r; simpl; [done|]. by rewrite IH, fold_left_app. Qed.

Lemma fold_left_map {A C} (f : MorphRouter -> C -> MorphRouter) (g : A -> C) l r :
  fold_left f (map g l) r = fold_left (fun r a => f r (g a)) l r.
Proof. revert r. induction l as [|a l IH]; intros r; simpl; done. Qed.

Lemma fold_left_ext {A} (f g : MorphRouter -> A -> MorphRouter) l r :
  (forall r a, f r a = g r a) -> fold_left f l r = fold_left g l r.
Proof. intros H. revert r. induction l as [|a l IH]; intros r; simpl; [done|]. by rewrite H, IH. Qed.

Lemma current_epoch_some t p : current_epoch (Some t) p = Ok (t / Profile.epoch_seconds p).
Proof. done. Qed.

Lemma add_morph_routes_eq t r k key :
  add_morph_routes (Some t) r k key = fold_left add_tag (morph_candidates t k key) r.
Proof.
  unfold add_morph_routes, morph_candidates. rewrite <- fold_left_flat. apply fold_left_ext.
  intros r' p. rewrite current_epoch_some, fold_left_map. by apply fold_left_ext.
Qed.

(** The router once a codec is memoised. *)
Definition with_codec (r : MorphRouter) (k : PublicKey) (codec : Speedy.SpeedyCodec) : MorphRouter :=
  mkMorphRouter (mo_epoch r) (mo_keys r) (<[k := codec]> (mo_speedy_codecs r)) (mo_speedy_routes r) (mo_routes r)
    (mo_ambiguous r).

(** The router once a key is memoised. *)
Definition with_key (r : MorphRouter) (k : PublicKey) (key : bytes) : MorphRouter :=
  mkMorphRouter (mo_epoch r) (<[k := key]> (mo_keys r)) (mo_speedy_codecs r) (mo_speedy_routes r) (mo_routes r)
    (mo_ambiguous r).

Lemma with_key_classified r cs k key : classified r cs -> classified (with_key r k key) cs.
Proof. intros H tag. exact (H tag). Qed.

Lemma with_codec_classified r cs k codec : classified r cs -> classified (with_codec r k codec) cs.
Proof. intros H tag. exact (H tag). Qed.

Lemma with_key_caches config r k key :
  morph_key_of config k = Ok key -> caches_ok config r -> caches_ok config (with_key r k key).
Proof.
  intros Hm [Hk Hc]. split; [|done]. unfold with_key; cbn [mo_keys]. intros k' key'. rewrite lookup_insert_Some.
  intros [[<- <-]|[_ ?]]; [done|by apply Hk].
Qed.

Lemma with_codec_caches config r k codec :
  speedy_codec_of config k = Ok codec -> caches_ok config r -> caches_ok config (with_codec r k codec).
Proof.
  intros Hm [Hk Hc]. split; [done|]. unfold with_codec; cbn [mo_speedy_codecs]. intros k' c'.
  rewrite lookup_insert_Some. intros [[<- <-]|[_ ?]]; [done|by apply Hc].
Qed.

Lemma add_tags_caches config r new : caches_ok config r -> caches_ok config (fold_left add_tag new r).
Proof. intros H. unfold caches_ok. destruct (add_tags_keys r new) as (-> & -> & _). exact H. Qed.

Lemma add_speedy_routes_eq t config r k codec :
  caches_ok config r -> speedy_codec_of config k = Ok codec ->
  add_speedy_routes (Some t) config r k = (fold_left add_tag (speedy_candidates t k codec) (with_codec r k codec), Ok tt).
Proof.
  intros [_ Hc] Hs. unfold add_speedy_routes. fold (speedy_codec_of config k).
  assert (Hcodec : match mo_speedy_codecs r !! k with Some codec => Ok codec | None => speedy_codec_of config k end = Ok codec).
  { destruct (mo_speedy_codecs r !! k) as [c0|] eqn:Hc0; [|done]. rewrite <- Hs. symmetry. by apply Hc. }
  rewrite Hcodec. change (Speedy.current_epoch (Some t)) with (Ok (E := Speedy.SpeedyError.t) (t / Speedy.EPOCH_SECONDS)).
  fold (with_codec r k codec). unfold speedy_candidates. rewrite fold_left_map. reflexivity.
Qed.

Lemma found_key_eq config r k key :
  caches_ok config r -> morph_key_of config k = Ok key ->
  match mo_keys r !! k with
  | Some key => Some (r, key)
  | None => match morph_key_of config k with Ok key => Some (with_key r k key, key) | _ => None end
  end = Some (with_key r k key, key).
Proof.
  intros [Hk _] Hm. destruct (mo_keys r !! k) as [key0|] eqn:Hk0; [|by rewrite Hm].
  pose proof (Hk k key0 Hk0) as H. assert (key0 = key) as -> by congruence.
  unfold with_key. rewrite insert_id by done. by destruct r.
Qed.

Lemma refresh_device_spec t config r cs k :
  caches_ok config r -> classified r cs ->
  exists r', refresh_device (Some t) config r k = (r', Ok tt) /\ caches_ok config r' /\
    classified r' (cs ++ device_candidates t config k).
Proof.
  intros Hok Hcs. unfold refresh_device. fold (morph_key_of config k).
  destruct (keys_together config k) as [(key & codec & Hm & Hs & _)|(e & Hm & Hs)].
  - pose proof (found_key_eq config r k key Hok Hm) as Hf. unfold with_key in Hf at 1. rewrite Hf.
    rewrite add_morph_routes_eq, (add_speedy_routes_eq t config _ k codec); [|by apply add_tags_caches, with_key_caches|done].
    eexists. split; [reflexivity|]. split.
    + by apply add_tags_caches, with_codec_caches, add_tags_caches, with_key_caches.
    + unfold device_candidates. rewrite Hm, Hs, app_assoc.
      by apply add_tags_classified, with_codec_classified, add_tags_classified, with_key_classified.
  - destruct (mo_keys r !! k) as [key|] eqn:Hk; [apply Hok in Hk; congruence|].
    rewrite Hm. exists r. unfold device_candidates. rewrite Hm, app_nil_r. done.
Qed.

Lemma refresh_devices_spec t config ks : forall r cs,
  caches_ok config r -> classified r cs ->
  exists r', refresh_devices (Some t) config r ks = (r', Ok tt) /\ caches_ok config r' /\
    classified r' (cs ++ flat_map (device_candidates t config) ks).
Proof.
  induction ks as [|k ks IH]; intros r cs Hc Hcs; cbn [refresh_devices flat_map].
  { rewrite app_nil_r. eauto. }
  destruct (refresh_device_spec t config r cs k Hc Hcs) as (r1 & -> & Hc1 & Hcs1).
  rewrite app_assoc. by apply IH.
Qed.

(** All tags the server expects at time [t]. *)
Definition expected_candidates (t : Z) (config : ValidatedServerConfig) (w : world) : list candidate :=
  flat_map (device_candidates t config) (elements (device_keys w)).

Lemma refresh_spec t epoch config w r :
  caches_ok config r ->
  exists r', refresh (Some t) epoch config w r = (r', Ok tt) /\ caches_ok config r' /\
    classified r' (expected_candidates t config w) /\ mo_epoch r' = Some epoch.
Proof.
  intros [Hk Hc]. unfold refresh. set (r0 := mkMorphRouter _ _ _ _ _ _).
  assert (H0 : caches_ok config r0).
  { split; simpl; intros k x [Hx _]%map_lookup_filter_Some; eauto. }
  assert (Hcs0 : classified r0 []) by (intros tag; simpl; rewrite !lookup_empty; set_solver).
  destruct (refresh_devices_spec t config (elements (device_keys w)) r0 [] H0 Hcs0) as (r' & -> & Hc' & Hcs').
  eexists. split; [reflexivity|]. by split_and!.
Qed.

(** The router of a running server: its keys are the derived ones and its routes those
    of the second it was refreshed in. *)
Definition router_ok (config : ValidatedServerConfig) (w : world) (r : MorphRouter) : Prop :=
  caches_ok config r /\ (forall t, mo_epoch r = Some t -> classified r (expected_candidates t config w)).

Lemma router_default_ok config w : router_ok config w MorphRouter_default.
Proof. split; [split; intros k x; cbn; by rewrite lookup_empty|done]. Qed.

(** What routing at second [t] needs of a router. *)
Definition router_ready (t : Z) (config : ValidatedServerConfig) (w : world) (r : MorphRouter) : Prop :=
  caches_ok config r /\ (mo_epoch r = Some t -> classified r (expected_candidates t config w)).

Lemma router_ok_ready t config w r : router_ok config w r -> router_ready t config w r.
Proof. intros [Hc He]. split; auto. Qed.

Lemma resolve_spec t config w r input tag :
  router_ready t config w r -> get_range input 0 8 = Some tag ->
  exists r', resolve (Some t) config w r input = (r', ok_or (mo_routes r' !! tag) tt) /\
    router_ok config w r' /\ classified r' (expected_candidates t config w).
Proof.
  intros [Hc He] Htag. unfold resolve. rewrite Htag, current_epoch_some.
  change (Profile.epoch_seconds Profile.Paranoid) with 1. rewrite Z.div_1_r.
  case_bool_decide as Hfresh; cbn [negb].
  - exists r. split_and!; [done| |by apply He]. split; [done|]. intros t'. rewrite Hfresh. intros [= <-]. by apply He.
  - destruct (refresh_spec t t config w r Hc) as (r' & -> & Hc' & Hcs & Ht). exists r'.
    split_and!; [done| |done]. split; [done|]. intros t'. rewrite Ht. by intros [= <-].
Qed.

(** What every router of a running server satisfies, whatever the registry holds by now. *)
Definition routes_ok (config : ValidatedServerConfig) (r : MorphRouter) : Prop :=
  caches_ok config r /\
  (forall tag k codec, mo_speedy_routes r !! tag = Some (k, codec) -> Speedy.cache_ok codec).

Definition wire_ok (wire : WireMode.t) : Prop :=
  match wire with WireMode.Speedy _ codec => Speedy.cache_ok codec | _ => True end.

Lemma speedy_codec_cold config k codec : speedy_codec_of config k = Ok codec -> Speedy.cache_ok codec.
Proof.
  intros H. destruct (keys_together config k) as [(? & codec' & _ & H' & Hr)|(? & _ & ?)]; [|congruence].
  assert (codec' = codec) as -> by congruence. unfold Speedy.cache_ok. by rewrite Hr.
Qed.

Lemma classified_speedy t config w r tag k codec :
  classified r (expected_candidates t config w) -> mo_speedy_routes r !! tag = Some (k, codec) ->
  speedy_codec_of config k = Ok codec.
Proof.
  intros Hcs Hr. specialize (Hcs tag).
  assert (Hb : bearers tag (expected_candidates t config w) = [inr (k, codec)]).
  { destruct (bearers tag _) as [|[route|target] [|]]; destruct Hcs as (_ & Hs & _);
      rewrite Hs in Hr; first [discriminate|by injection Hr as ->]. }
  assert (Hin : In (inr (k, codec)) (bearers tag (expected_candidates t config w))) by (rewrite Hb; by left).
  unfold bearers in Hin. apply in_map_iff in Hin as ([tag' x] & Hx & Hin). simpl in Hx. subst x.
  apply list_elem_of_In, list_elem_of_filter in Hin as [_ Hin]. apply list_elem_of_In in Hin.
  unfold expected_candidates in Hin. apply in_flat_map in Hin as (k' & _ & Hin). unfold device_candidates in Hin.
  destruct (morph_key_of config k') as [key|e|]; [|done..].
  destruct (speedy_codec_of config k') as [codec'|e|] eqn:Hc; [|done..].
  apply in_app_iff in Hin as [Hin|Hin].
  - unfold morph_candidates in Hin. apply in_flat_map in Hin as (p & _ & Hin).
    apply in_map_iff in Hin as (e & He & _). done.
  - unfold speedy_candidates in Hin. apply in_map_iff in Hin as (e & He & _). by injection He as _ -> ->.
Qed.

Lemma resolve_safe clock config w r input :
  routes_ok config r ->
  let '(r', out) := resolve clock config w r input in routes_ok config r' /\ no_panic out.
Proof.
  intros [Hc Hr]. unfold resolve. destruct (get_range input 0 8) as [tag|]; [|done].
  destruct clock as [t|]; [|done]. rewrite current_epoch_some. case_bool_decide; cbn [negb].
  - split; [done|]. res_simpl. by destruct (mo_routes r !! tag).
  - destruct (refresh_spec t (t / Profile.epoch_seconds Profile.Paranoid) config w r Hc) as (r' & -> & Hc' & Hcs & _).
    split; [|res_simpl; by destruct (mo_routes r' !! tag)]. split; [done|]. intros tag' k codec Hl.
    by eapply speedy_codec_cold, classified_speedy.
Qed.

Lemma decode_wire_safe clock config w r input :
  routes_ok config r -> is_bytes input ->
  let '(r', out) := decode_wire_into clock config w r input in
  routes_ok config r' /\
  match out with Ok (wire, payload) => wire_ok wire /\ is_bytes payload | Err _ => True | Panic => False end.
Proof.
  intros Hr Hb. unfold decode_wire_into. pose proof (resolve_safe clock config w r input Hr) as Hres.
  destruct (resolve clock config w r input) as [r' [route|e|]]; destruct Hres as [Hr' ?]; [| |done].
  - split; [done|]. unfold MorphCodec_decode. cbn [mc_key mc_profile].
    pose proof (decode_frame_no_panic clock (mr_key route) (mr_profile route) input Direction.ClientToServer Hb) as Hnp.
    pose proof (decode_frame_bytes clock (mr_key route) (mr_profile route) input Direction.ClientToServer) as Hby.
    destruct (decode_frame _ _ _ _ _) as [[[p|p] out]|e|]; simpl; try done. split; [done|]. by eapply Hby.
  - destruct (get_range input 0 8) as [tag|]; [|done]. case_bool_decide; [done|].
    destruct (mo_speedy_routes r' !! tag) as [[k codec]|] eqn:Hs; [|done].
    apply (proj2 Hr') in Hs.
    pose proof (Speedy.decode_no_panic codec input Speedy.Direction.ClientToServer clock Hs) as Hnp.
    pose proof (Speedy.decode_bytes codec input Speedy.Direction.ClientToServer clock Hs Hb) as Hby.
    pose proof (Speedy.decode_cache codec input Speedy.Direction.ClientToServer clock Hs) as Hcache.
    destruct (Speedy.decode _ _ _ _) as [[codec' out] [[]|err|]]; simpl in *; done.
Qed.

Lemma encode_server_no_panic clock random wire inner :
  match random with Some r => len r = FRAME_RANDOM_LEN | None => True end ->
  wire_ok wire -> no_panic (WireMode.encode_server clock random wire inner).
Proof.
  intros Hr Hw. destruct wire as [|k codec|k codec]; cbn [WireMode.encode_server]; [done| |].
  - pose proof (Speedy.encode_no_panic codec inner Speedy.Direction.ServerToClient clock Hw) as Hnp.
    by destruct (Speedy.encode _ _ _ _) as [[codec' out] [[]|e|]].
  - apply no_panic_map_err. unfold MorphCodec_encode_payload. apply encode_frame_no_panic. exact Hr.
Qed.

(** Routing is exact and fails closed: whatever second the router was last
    refreshed in, a received datagram whose first eight bytes are expected from a
    single (device, profile) pair resolves to exactly that pair, a tag expected from
    nobody resolves to nothing, and a tag two bearers share is marked ambiguous and
    resolves to neither of them, Speedy routes included. *)
Theorem router_routes_only_unambiguous_tags t config w r input tag :
  router_ok config w r -> get_range input 0 8 = Some tag ->
  exists r',
    resolve (Some t) config w r input =
      (r', match bearers tag (expected_candidates t config w) with [inl route] => Ok route | _ => Err tt end) /\
    router_ok config w r' /\
    mo_speedy_routes r' !! tag =
      match bearers tag (expected_candidates t config w) with [inr target] => Some target | _ => None end /\
    (tag ∈ mo_ambiguous r' <-> (2 <= length (bearers tag (expected_candidates t config w)))%nat).
Proof.
  intros Hr Htag. destruct (resolve_spec t config w r input tag (router_ok_ready _ _ _ _ Hr) Htag) as (r' & -> & Hr' & Hcs).
  exists r'. specialize (Hcs tag).
  destruct (bearers tag _) as [|[route|target] [|y l]]; simpl in *; destruct Hcs as (-> & -> & Ha);
    split_and!; try done; split; intros; first [done|lia].
Qed.

(** Tags of the keys a device shares with the server are candidates. *)
Lemma morph_candidate_expected t t' config w k key p :
  u64 t -> u64 t' -> Z.abs (t - t') <= 1 -> k ∈ device_keys w -> morph_key_of config k = Ok key ->
  (routing_tag_at key p Direction.ClientToServer (t / Profile.epoch_seconds p), inl (mkMorphRoute k key p))
    ∈ expected_candidates t' config w.
Proof.
  intros Ht Ht' Hs Hk Hm. unfold expected_candidates. rewrite list_elem_of_In, in_flat_map.
  exists k. split; [by apply list_elem_of_In, elem_of_elements|]. unfold device_candidates.
  destruct (keys_together config k) as [(? & codec & Hm' & -> & _)|(? & ? & _)]; [|congruence].
  rewrite Hm. apply in_app_iff. left. unfold morph_candidates. apply in_flat_map.
  exists p. split; [destruct p; simpl; auto|]. apply in_map_iff. eexists. split; [reflexivity|].
  apply list_elem_of_In. pose proof (epoch_seconds_pos p).
  apply neighbour_epoch_accepted; [by apply epoch_u64..|by apply near_epochs].
Qed.

Lemma speedy_candidate_expected t t' config w k codec :
  u64 t -> u64 t' -> Z.abs (t - t') <= 1 -> k ∈ device_keys w -> speedy_codec_of config k = Ok codec ->
  (Speedy.routing_tag_at codec Speedy.Direction.ClientToServer (t / Speedy.EPOCH_SECONDS), inr (k, codec))
    ∈ expected_candidates t' config w.
Proof.
  intros Ht Ht' Hs Hk Hm. unfold expected_candidates. rewrite list_elem_of_In, in_flat_map.
  exists k. split; [by apply list_elem_of_In, elem_of_elements|]. unfold device_candidates.
  destruct (keys_together config k) as [(key & ? & -> & Hm' & _)|(? & _ & ?)]; [|congruence].
  rewrite Hm. apply in_app_iff. right. unfold speedy_candidates. apply in_map_iff. eexists.
  split; [reflexivity|]. apply list_elem_of_In. unfold Speedy.EPOCH_SECONDS.
  apply Speedy.neighbour_accepted; [apply epoch_u64..|apply near_epochs]; done.
Qed.

Lemma sole_bearer tag x cs : (tag, x) ∈ cs -> (length (bearers tag cs) <= 1)%nat -> bearers tag cs = [x].
Proof.
  intros Hin Hl. assert (Hx : x ∈ bearers tag cs).
  { unfold bearers. rewrite list_elem_of_In, in_map_iff. exists (tag, x). split; [done|].
    rewrite <- list_elem_of_In, list_elem_of_filter. done. }
  destruct (bearers tag cs) as [|y [|]]; simpl in *; [set_solver|set_solver|lia].
Qed.

(** A client configured for this server, and the wire modes its traffic arrives as. *)
Definition configured_for (c : ValidatedClientConfig) (config : ValidatedServerConfig) : Prop :=
  vs_server_public_key config = public_key (vs_server_private_key config) /\
  vc_server_public_key c = vs_server_public_key config.

Definition arrives_as (wire : ClientWire.t) (k : PublicKey) (mode : WireMode.t) : Prop :=
  match wire, mode with
  | ClientWire.Legacy, WireMode.Legacy => True
  | ClientWire.Morph codec, WireMode.Morph k' codec' => k' = k /\ codec' = codec
  | ClientWire.Speedy codec, WireMode.Speedy k' codec' =>
      k' = k /\ Speedy.sc_secrets codec' = Speedy.sc_secrets codec /\ Speedy.cache_ok codec'
  | _, _ => False
  end.

(** No other sender is expected to use the tag of the frame. *)
Definition tag_is_own (wire : ClientWire.t) (frame : bytes) (cs : list candidate) : Prop :=
  forall tag, get_range frame 0 8 = Some tag ->
    (length (bearers tag cs) <= match wire with ClientWire.Legacy => 0 | _ => 1 end)%nat.

Lemma from_config_morph c config codec :
  configured_for c config -> ClientWire.from_config c = Ok (ClientWire.Morph codec) ->
  morph_key_of config (public_key (vc_client_private_key c)) = Ok (mc_key codec) /\ len (mc_key codec) = 32.
Proof.
  intros [Hs Hc]. unfold ClientWire.from_config. case_bool_decide.
  { intros (key & _ & (codec' & _ & Hx)%bind_ok)%bind_ok. done. }
  case_match; [|done]. intros (key & Hk & Hx)%bind_ok. injection Hx as <-. cbn [mc_key].
  apply map_err_ok in Hk. unfold derive_morph_key in Hk. split; [|by eapply derive_wire_key_len].
  unfold morph_key_of, derive_morph_key. by rewrite Hs, <- derive_wire_key_agree, <- Hs, <- Hc.
Qed.

Lemma from_config_speedy c config codec :
  configured_for c config -> ClientWire.from_config c = Ok (ClientWire.Speedy codec) ->
  speedy_codec_of config (public_key (vc_client_private_key c)) = Ok codec.
Proof.
  intros [Hs Hc]. unfold ClientWire.from_config. case_bool_decide.
  2: { case_match; [|done]. intros (key & _ & Hx)%bind_ok. done. }
  intros (key & Hk & (codec' & Hn & Hx)%bind_ok)%bind_ok. injection Hx as ->.
  apply map_err_ok in Hk, Hn. unfold derive_speedy_key in Hk.
  unfold speedy_codec_of, derive_speedy_key. rewrite Hs, <- derive_wire_key_agree, <- Hs, <- Hc, Hk.
  res_simpl. cbn [map_err]. by rewrite Hn.
Qed.

Lemma decode_wire_morph t config w r frame tag route inner :
  router_ready t config w r -> get_range frame 0 8 = Some tag ->
  bearers tag (expected_candidates t config w) = [inl route] ->
  decode_frame (Some t) (mr_key route) (mr_profile route) frame Direction.ClientToServer =
    Ok (DecodedFrame.Payload (mr_profile route), inner) ->
  exists r', decode_wire_into (Some t) config w r frame =
    (r', Ok (WireMode.Morph (mr_public_key route) (mkMorphCodec (mr_key route) (mr_profile route)), inner)).
Proof.
  intros Hr Htag Hb Hd. destruct (resolve_spec t config w r frame tag Hr Htag) as (r' & Hres & Hr' & Hcs).
  specialize (Hcs tag). rewrite Hb in Hcs. destruct Hcs as (Hroute & _).
  exists r'. unfold decode_wire_into. rewrite Hres, Hroute.
  cbn [ok_or]. unfold MorphCodec_decode. cbn [mc_key mc_profile]. by rewrite Hd.
Qed.

Lemma decode_wire_speedy t config w r frame tag k codec codec' inner :
  router_ready t config w r -> get_range frame 0 8 = Some tag ->
  bearers tag (expected_candidates t config w) = [inr (k, codec)] ->
  Speedy.decode (Some t) codec frame Speedy.Direction.ClientToServer = (codec', inner, Ok tt) ->
  exists r', decode_wire_into (Some t) config w r frame =
    (r', Ok (WireMode.Speedy k codec', inner)).
Proof.
  intros Hr Htag Hb Hd. destruct (resolve_spec t config w r frame tag Hr Htag) as (r' & Hres & Hr' & Hcs).
  specialize (Hcs tag). rewrite Hb in Hcs. destruct Hcs as (Hroute & Hsp & Ha).
  exists r'. unfold decode_wire_into.
  rewrite Hres, Hroute. cbn [ok_or]. by rewrite Htag, (bool_decide_false _ Ha), Hsp, Hd.
Qed.

Lemma decode_wire_legacy t config w r frame :
  router_ready t config w r ->
  (forall tag, get_range frame 0 8 = Some tag -> bearers tag (expected_candidates t config w) = []) ->
  exists r', decode_wire_into (Some t) config w r frame = (r', Ok (WireMode.Legacy, frame)).
Proof.
  intros Hr Hb. destruct (get_range frame 0 8) as [tag|] eqn:Htag.
  - destruct (resolve_spec t config w r frame tag Hr Htag) as (r' & Hres & Hr' & Hcs).
    specialize (Hcs tag). rewrite (Hb tag eq_refl) in Hcs. destruct Hcs as (Hroute & Hsp & Ha).
    exists r'. unfold decode_wire_into.
    rewrite Hres, Hroute. cbn [ok_or]. by rewrite Htag, (bool_decide_false _ Ha), Hsp.
  - exists r. unfold decode_wire_into, resolve. by rewrite Htag.
Qed.

Lemma speedy_encode_ok t codec inner wire' frame :
  Speedy.cache_ok codec ->
  ClientWire.encode (Some t) None (ClientWire.Speedy codec) inner = (wire', Ok frame) ->
  Speedy.validate_inner inner Speedy.Direction.ClientToServer = Ok tt /\
  (Speedy.encode_at codec inner Speedy.Direction.ClientToServer (t / Speedy.EPOCH_SECONDS)).1.2 = frame.
Proof.
  intros Hc. cbn [ClientWire.encode Speedy.encode Speedy.current_epoch ok_or mbind res_bind].
  pose proof (Speedy.encode_at_ref codec inner Speedy.Direction.ClientToServer (t / Speedy.EPOCH_SECONDS) Hc) as Href.
  destruct (Speedy.encode_at _ _ _ _) as [[c' out] res]. destruct Href as (_ & _ & Href).
  intros [= _ H]. destruct res as [[]|e|]; cbn in H; [|done..]. injection H as ->. split; [|done].
  unfold Speedy.encode_ref in Href. by destruct (Speedy.validate_inner _ _) as [[]|e|].
Qed.

(** What an adapter can wrap. *)
Definition fits (wire : ClientWire.t) (inner : bytes) (d : Speedy.Direction.t) : Prop :=
  match wire with
  | ClientWire.Legacy => True
  | ClientWire.Morph _ => MIN_FRAME_LEN + len inner <= MAX_DATAGRAM_LEN
  | ClientWire.Speedy _ => Speedy.validate_inner inner d = Ok tt
  end.

Lemma encode_fits t random wire0 wire wire' inner frame :
  ClientWire.same_keys wire0 wire ->
  ClientWire.encode (Some t) (Some random) wire inner = (wire', Ok frame) -> fits wire inner Speedy.Direction.ClientToServer.
Proof.
  destruct wire as [|codec|codec]; cbn [ClientWire.encode fits]; [done| |].
  - intros _ [= _ He]. apply map_err_ok in He. by eapply encode_frame_fits.
  - intros Hk He. destruct wire0; try done. destruct Hk as [_ Hc]. by apply (speedy_encode_ok t codec inner wire' frame).
Qed.

(** The same against any registry the router is ready for: the client's adapter is in any
    state it can be in, and what fits is wrapped and understood. *)
Lemma datagram_routed t t' config w r c wire0 wire random inner :
  router_ready t' config w r -> configured_for c config ->
  ClientWire.from_config c = Ok wire0 -> ClientWire.same_keys wire0 wire ->
  u64 t -> u64 t' -> Z.abs (t - t') <= 1 -> len random = FRAME_RANDOM_LEN -> fits wire inner Speedy.Direction.ClientToServer ->
  exists wire' frame, ClientWire.encode (Some t) (Some random) wire inner = (wire', Ok frame) /\
  (public_key (vc_client_private_key c) ∈ device_keys w -> tag_is_own wire frame (expected_candidates t' config w) ->
  exists r' mode,
    decode_wire_into (Some t') config w r frame = (r', Ok (mode, inner)) /\
    arrives_as wire (public_key (vc_client_private_key c)) mode /\
    WireMode.allows_client mode (public_key (vc_client_private_key c)) = true).
Proof.
  intros Hr Hconf Hw Hsame Ht Ht' Hskew Hrand Hfits. set (k := public_key _) in *.
  destruct wire0 as [|codec0|codec0], wire as [|codec|codec]; try done; cbn [ClientWire.encode fits] in *.
  - eexists _, _. split; [done|]. intros Hk Hown. destruct (decode_wire_legacy t' config w r inner Hr) as (r' & Hd).
    { intros tag Htag. apply nil_length_inv. specialize (Hown tag Htag). simpl in Hown. lia. }
    by exists r', WireMode.Legacy.
  - cbn [ClientWire.same_keys] in Hsame. subst codec0.
    destruct (from_config_morph c config codec Hconf Hw) as [Hmk Hlen]. unfold MorphCodec_encode_payload.
    destruct (wrapped_frame_roundtrip t t' random (mc_key codec) (mc_profile codec) FrameKind.Payload inner
      Direction.ClientToServer) as (frame & He & Htag & _ & Hd);
      [done|done|apply near_epochs; [apply epoch_seconds_pos|done]|done|done|done|done|].
    exists (ClientWire.Morph codec), frame. rewrite He. split; [done|]. intros Hk Hown.
    pose proof (morph_candidate_expected t t' config w k _ (mc_profile codec) Ht Ht' Hskew Hk Hmk) as Hin.
    destruct (decode_wire_morph t' config w r frame _ _ inner Hr Htag (sole_bearer _ _ _ Hin (Hown _ Htag)) Hd)
      as (r' & Hdec).
    exists r', (WireMode.Morph k codec). destruct codec. split_and!; try done. simpl. by rewrite bool_decide_true.
  - destruct Hsame as [Hsec Hc]. pose proof (from_config_speedy c config codec0 Hconf Hw) as Hsc. fold k in Hsc.
    pose proof (speedy_codec_cold config k codec0 Hsc) as Hcold.
    destruct (Speedy.masked_frame_roundtrip codec codec0 inner Speedy.Direction.ClientToServer
      (t / Speedy.EPOCH_SECONDS) (t' / Speedy.EPOCH_SECONDS))
      as (frame & He & Hok & Htag & _ & _ & Ho & Hok'); [done|done|done|by apply epoch_u64|by apply epoch_u64|by apply near_epochs|done|].
    cbn [Speedy.encode Speedy.current_epoch ok_or mbind res_bind].
    destruct (Speedy.encode_at codec inner _ _) as [[codec1 out1] res1]. cbn [fst snd] in He, Hok. subst out1 res1.
    exists (ClientWire.Speedy codec1), frame. split; [done|]. intros Hk Hown.
    rewrite (Speedy.routing_tag_at_secrets codec codec0 _ _ Hsec) in Htag.
    pose proof (speedy_candidate_expected t t' config w k codec0 Ht Ht' Hskew Hk Hsc) as Hin.
    pose proof (Speedy.decode_at_ref codec0 frame Speedy.Direction.ClientToServer (t' / Speedy.EPOCH_SECONDS) Hcold) as Href.
    destruct (Speedy.decode_at codec0 frame _ _) as [[codec' out] res] eqn:Hdec. cbn [fst snd] in Ho, Hok'. subst out res.
    destruct (decode_wire_speedy t' config w r frame _ k codec0 codec' inner Hr Htag
      (sole_bearer _ _ _ Hin (Hown _ Htag)) Hdec) as (r' & Hd). destruct Href as (Href & Hc' & _).
    exists r', (WireMode.Speedy k codec'). split_and!; [done| |simpl; by rewrite bool_decide_true].
    cbn [arrives_as]. by rewrite Href, Hsec.
Qed.

(** The way back: what the server wraps in a wire mode, the client that uses it unwraps. *)
Lemma server_datagram_reaches_client t t' config c k wire0 wire mode random inner :
  configured_for c config -> ClientWire.from_config c = Ok wire0 -> ClientWire.same_keys wire0 wire -> arrives_as wire0 k mode ->
  u64 t -> u64 t' -> Z.abs (t - t') <= 1 -> len random = FRAME_RANDOM_LEN -> fits wire inner Speedy.Direction.ServerToClient ->
  exists frame, WireMode.encode_server (Some t) (Some random) mode inner = Ok frame /\
  exists wire', ClientWire.decode (Some t') wire frame = (wire', Ok (true, inner)).
Proof.
  intros Hconf Hw Hsame Harr Ht Ht' Hskew Hrand Hfits.
  destruct wire0 as [|codec0|codec0], wire as [|codec|codec]; try done; destruct mode as [|k' codec'|k' codec']; try done;
    cbn [WireMode.encode_server ClientWire.decode fits] in *.
  - eexists. split; [done|]. by eexists.
  - cbn [ClientWire.same_keys] in Hsame. subst codec0. destruct Harr as [_ ->].
    destruct (from_config_morph c config codec Hconf Hw) as [_ Hlen]. unfold MorphCodec_encode_payload, MorphCodec_decode.
    destruct (wrapped_frame_roundtrip t t' random (mc_key codec) (mc_profile codec) FrameKind.Payload inner
      Direction.ServerToClient) as (frame & He & _ & _ & Hd);
      [done|done|apply near_epochs; [apply epoch_seconds_pos|done]|done|done|done|done|].
    exists frame. rewrite He, Hd. split; [done|]. by eexists.
  - destruct Hsame as [Hsec Hc]. destruct Harr as (_ & Hsec' & Hc').
    destruct (Speedy.masked_frame_roundtrip codec' codec inner Speedy.Direction.ServerToClient
      (t / Speedy.EPOCH_SECONDS) (t' / Speedy.EPOCH_SECONDS))
      as (frame & He & Hok & _ & _ & _ & Ho & Hok');
      [done|done|by rewrite Hsec|by apply epoch_u64|by apply epoch_u64|by apply near_epochs|done|].
    unfold Speedy.encode, Speedy.decode. cbn [Speedy.current_epoch ok_or mbind res_bind].
    destruct (Speedy.encode_at codec' inner _ _) as [[codec1 out1] res1]. cbn [fst snd] in He, Hok. subst out1 res1.
    exists frame. split; [done|].
    destruct (Speedy.decode_at codec frame _ _) as [[codec2 out] res]. cbn [fst snd] in Ho, Hok'. subst out res. by eexists.
Qed.

(** The routers of a running server, each with the registry it was last refreshed under:
    the registry may change between any two datagrams, and the first datagram of a second
    refreshes the router. *)
Inductive router_run (config : ValidatedServerConfig) : MorphRouter -> world -> Prop :=
| run_started w : router_run config MorphRouter_default w
| run_received r w0 clock w input : router_run config r w0 ->
    router_run config (decode_wire_into clock config w r input).1
      (if bool_decide (mo_epoch (decode_wire_into clock config w r input).1 = mo_epoch r) then w0 else w).

Lemma decode_wire_router clock config w r input : (decode_wire_into clock config w r input).1 = (resolve clock config w r input).1.
Proof.
  unfold decode_wire_into. destruct (resolve clock config w r input) as [r' [route|e|]]; [done| |done].
  destruct (get_range input 0 8) as [tag|]; [|done]. case_bool_decide; [done|].
  destruct (mo_speedy_routes r' !! tag) as [[k codec]|]; [|done]. by destruct (Speedy.decode _ _ _ _) as [[c out] res].
Qed.

Lemma router_run_ok config r w0 : router_run config r w0 -> router_ok config w0 r.
Proof.
  induction 1 as [w|r w0 clock w input Hr IH]; [apply router_default_ok|]. rewrite decode_wire_router. unfold resolve.
  destruct (get_range input 0 8) as [tag|]; [|by rewrite bool_decide_true].
  destruct clock as [t|]; [|by rewrite bool_decide_true].
  rewrite current_epoch_some. change (Profile.epoch_seconds Profile.Paranoid) with 1. rewrite Z.div_1_r.
  destruct (decide (mo_epoch r = Some t)) as [Hfresh|Hfresh];
    [rewrite (bool_decide_true (mo_epoch r = Some t)) by done; cbn [negb fst]; by rewrite bool_decide_true|].
  rewrite (bool_decide_false (mo_epoch r = Some t)) by done. cbn [negb].
  destruct IH as [Hc He]. destruct (refresh_spec t t config w r Hc) as (r' & -> & Hc' & Hcs & Ht). cbn [fst].
  rewrite bool_decide_false by (rewrite Ht; intros E; by apply Hfresh). split; [done|]. intros t'. rewrite Ht. by intros [= <-].
Qed.

(** The registry a datagram of second [t] is compared with. *)
Definition seen_registry (t : Z) (r : MorphRouter) (w0 w : world) : world := if bool_decide (mo_epoch r = Some t) then w0 else w.

Lemma decode_wire_seen t config w w0 r input :
  router_ok config w0 r ->
  router_ready t config (seen_registry t r w0 w) r /\
  decode_wire_into (Some t) config w r input = decode_wire_into (Some t) config (seen_registry t r w0 w) r input.
Proof.
  intros [Hc He]. unfold seen_registry. split; [split; [done|]; intros Ht; rewrite bool_decide_true by done; by apply He|].
  unfold decode_wire_into. replace (resolve (Some t) config w r input) with (resolve (Some t) config (seen_registry t r w0 w) r input); [done|].
  unfold resolve, seen_registry. rewrite current_epoch_some. change (Profile.epoch_seconds Profile.Paranoid) with 1. rewrite Z.div_1_r. by case_bool_decide.
Qed.

(** A frame by which the server can tell its sender [k]: the device is in the registry the
    datagram is compared with (that of the last refresh when the router was already
    refreshed in this second, the present one otherwise), and no other expected sender has
    the same tag. *)
Definition recognised (t : Z) (config : ValidatedServerConfig) (r : MorphRouter) (w0 w : world) (k : PublicKey)
    (wire : ClientWire.t) (frame : bytes) : Prop :=
  let seen := seen_registry t r w0 w in k ∈ device_keys seen /\ tag_is_own wire frame (expected_candidates t config seen).

Lemma datagram_received t t' config w w0 r c wire0 wire random inner :
  router_run config r w0 -> configured_for c config ->
  ClientWire.from_config c = Ok wire0 -> ClientWire.same_keys wire0 wire ->
  u64 t -> u64 t' -> Z.abs (t - t') <= 1 -> len random = FRAME_RANDOM_LEN -> fits wire inner Speedy.Direction.ClientToServer ->
  exists wire' frame, ClientWire.encode (Some t) (Some random) wire inner = (wire', Ok frame) /\
  (recognised t' config r w0 w (public_key (vc_client_private_key c)) wire frame ->
  exists r' mode,
    decode_wire_into (Some t') config w r frame = (r', Ok (mode, inner)) /\
    arrives_as wire (public_key (vc_client_private_key c)) mode /\
    WireMode.allows_client mode (public_key (vc_client_private_key c)) = true).
Proof.
  intros Hrun Hconf Hw Hsame Ht Ht' Hskew Hrand Hfits.
  destruct (decode_wire_seen t' config w w0 r [] (router_run_ok _ _ _ Hrun)) as [Hready _].
  destruct (datagram_routed t t' config _ r c wire0 wire random inner Hready Hconf Hw Hsame Ht Ht' Hskew Hrand Hfits)
    as (wire' & frame & He & Hd).
  exists wire', frame. split; [done|]. intros [Hk Hown]. destruct (decode_wire_seen t' config w w0 r frame (router_run_ok _ _ _ Hrun)) as [_ ->].
  by apply Hd.
Qed.

(** [C14] What a provisioned client sends, its server understands.  The router is any a
    running server can have, and the device is in the registry the datagram is compared
    with: that of the last refresh when the router was already refreshed in this second,
    the present one otherwise (so a device provisioned within a second is routed from the
    next on).  For every protocol a client can be configured with, a datagram that wraps
    under the keys the client derives from its own configuration, whatever its adapter has
    cached, with 45 random octets and by a clock at most a second away, is routed to that
    client's key alone, unwrapped byte for byte, and attributed to the wire mode the client
    uses, provided no other expected sender has the same eight-byte tag. *)
Theorem client_datagram_reaches_server t t' config w w0 r c wire0 wire wire' random inner frame :
  router_run config r w0 -> configured_for c config ->
  ClientWire.from_config c = Ok wire0 -> ClientWire.same_keys wire0 wire ->
  u64 t -> u64 t' -> Z.abs (t - t') <= 1 -> len random = FRAME_RANDOM_LEN ->
  ClientWire.encode (Some t) (Some random) wire inner = (wire', Ok frame) ->
  recognised t' config r w0 w (public_key (vc_client_private_key c)) wire frame ->
  exists r' mode,
    decode_wire_into (Some t') config w r frame = (r', Ok (mode, inner)) /\
    arrives_as wire (public_key (vc_client_private_key c)) mode /\
    WireMode.allows_client mode (public_key (vc_client_private_key c)) = true.
Proof.
  intros Hrun Hconf Hw Hsame Ht Ht' Hskew Hrand Henc Hrec.
  pose proof (encode_fits _ _ _ _ _ _ _ Hsame Henc) as Hfits.
  destruct (datagram_received t t' config w w0 r c wire0 wire random inner Hrun Hconf Hw Hsame Ht Ht' Hskew Hrand Hfits)
    as (wire2 & frame2 & He & Hd).
  rewrite Henc in He. injection He as <- <-. by apply Hd.
Qed.

End RouterTheorems.

(** ** Witnesses *)

Module ToyWire.
Import Toy ToyConfig ToyRegistry.

Definition toy_client : ValidatedClientConfig :=
  mkValidatedClientConfig (mkSocketAddr (V4 0) 51820) (public_key toy_server_key) (toy_client_key 1)
    (context_for_server (public_key toy_server_key)) [] MorphBalanced.

Definition toy_wire : ClientWire.t :=
  match ClientWire.from_config toy_client with Ok wire => wire | _ => ClientWire.Legacy end.

Definition toy_frame : bytes :=
  match (ClientWire.encode (Some 1000) (Some (replicate 45 7)) toy_wire [1; 2; 3]).2 with Ok frame => frame | _ => [] end.

Definition toy_tag : bytes := sub_list toy_frame 0 8.

Lemma router_routes_only_unambiguous_tags_witness :
  exists r' route,
    resolve (Some 1001) toy_validated toy_opened MorphRouter_default toy_frame = (r', Ok route) /\
    mr_public_key route = public_key (toy_client_key 1).
Proof.
  destruct (router_routes_only_unambiguous_tags 1001 toy_validated toy_opened MorphRouter_default toy_frame toy_tag
    (router_default_ok _ _)) as (r' & Hr & _); [vm_compute; reflexivity|].
  assert (Hb : exists route, bearers toy_tag (expected_candidates 1001 toy_validated toy_opened) = [inl route] /\
    mr_public_key route = public_key (toy_client_key 1)).
  { eexists. split; vm_compute; reflexivity. }
  destruct Hb as (route & Hb & Hk). rewrite Hb in Hr. exists r', route. split; [exact Hr|exact Hk].
Defined.

Lemma client_datagram_reaches_server_witness :
  exists r' mode,
    decode_wire_into (Some 1001) toy_validated toy_opened MorphRouter_default toy_frame = (r', Ok (mode, [1; 2; 3])) /\
    arrives_as toy_wire (public_key (toy_client_key 1)) mode.
Proof.
  destruct (client_datagram_reaches_server 1000 1001 toy_validated toy_opened toy_opened MorphRouter_default toy_client toy_wire toy_wire
    toy_wire (replicate 45 7) [1; 2; 3] toy_frame) as (r' & mode & Hd & Ha & _).
  - apply run_started.
  - split; reflexivity.
  - vm_compute. reflexivity.
  - reflexivity.
  - unfold uint. lia.
  - unfold uint. lia.
  - lia.
  - reflexivity.
  - vm_compute. reflexivity.
  - split.
    + apply elem_of_list_to_set, list_elem_of_In. vm_compute. auto.
    + intros tag Htag. assert (Ht : Some toy_tag = Some tag) by (rewrite <- Htag; vm_compute; reflexivity).
      injection Ht as <-. vm_compute. lia.
  - exists r', mode. split; [exact Hd|exact Ha].
Defined.

End ToyWire.
