(* ===== verification/Daemon.v ===== *)
(** * The server daemon of crates/server/src/daemon.rs

    The receive loop and the TUN worker over their shared state: the session table with
    its two indexes, the registry, the traffic store, the handshake cache, the limiter
    and the tag router.  [Arc<RuntimeSession>] is a pointer into a heap, so that the two
    indexes and the worker share one session and [Arc::ptr_eq] compares pointers.  What
    the operating system decides is an argument: the clocks, the random bytes, whether
    the TUN accepts a packet and how many datagrams of a batch [sendmmsg] took.  A step
    is one received datagram or one packet of the worker's batch, and is atomic here: the
    receive loop and the TUN worker interleave between steps, not within one, where the
    source holds the lock of the session or of a table for each access.  Log lines are not modelled, their rate limits are.

    The theorems: the two indexes stay inverse to each other and a session lives exactly
    as long as the registration it was made for; only authenticated packets of
    registered devices reach the TUN, move a session's endpoint, or get an answer; a
    packet for a device leaves only under that device's keys; a repeated handshake
    changes nothing; and no datagram stops the loop. *)

From S2P Require Import Prelude Protocol Replay Crypto ToyCrypto DataPlane Morph Speedy RateLimit Config ClientWire Registry Traffic Wire.

(** Instants are counted in milliseconds. *)
Definition PEER_LOG_INTERVAL : Z := 10000.
Definition UDP_DROP_LOG_INTERVAL : Z := 30000.
Definition UDP_BATCH_SIZE : Z := 32.

(** What the daemon does to the world; [Crashed] is a panic of its thread. *)
Inductive output :=
| SendTo (datagram : bytes) (peer : SocketAddr)
| TunSend (packet : bytes)
| Crashed.

(** What the system provides during a step. *)
Record env := mkEnv {
  now : Z;
  clock : option Z;
  random : option bytes;
  entropy : bytes;
  tun_ok : bool;
}.

Section State.
Context `{N : Noise}.

Record RuntimeSession := mkRuntimeSession {
  rs_client_address : Ipv4Addr;
  rs_authorization : Z;
  rs_traffic : Z;
  rs_peer : SocketAddr;
  rs_inbound : TunnelReceiver;
  rs_outbound : TunnelSender;
  rs_wire : WireMode.t;
  rs_last_peer_log : option Z;
}.

Definition with_inbound (s : RuntimeSession) (inbound : TunnelReceiver) : RuntimeSession :=
  mkRuntimeSession (rs_client_address s) (rs_authorization s) (rs_traffic s) (rs_peer s) inbound (rs_outbound s)
    (rs_wire s) (rs_last_peer_log s).

Definition with_outbound (s : RuntimeSession) (outbound : TunnelSender) : RuntimeSession :=
  mkRuntimeSession (rs_client_address s) (rs_authorization s) (rs_traffic s) (rs_peer s) (rs_inbound s) outbound
    (rs_wire s) (rs_last_peer_log s).

Definition adopt_peer (now : Z) (s : RuntimeSession) (peer : SocketAddr) : RuntimeSession :=
  if bool_decide (rs_peer s = peer) then s
  else
    let recent :=
      match rs_last_peer_log s with Some last => duration_since now last <? PEER_LOG_INTERVAL | None => false end in
    mkRuntimeSession (rs_client_address s) (rs_authorization s) (rs_traffic s) peer (rs_inbound s) (rs_outbound s)
      (rs_wire s) (if recent then rs_last_peer_log s else Some now).

(** Both indexes hold pointers to the same sessions. *)
Record Sessions := mkSessions { by_id : gmap Z Z; by_address : gmap Z Z }.

Record CachedHandshake := mkCachedHandshake { request : bytes; response : bytes }.

(** A datagram of the worker's batch: the wire bytes, the endpoint, the counter and
    the payload length. *)
Record BatchItem := mkBatchItem {
  bi_datagram : bytes;
  bi_peer : SocketAddr;
  bi_traffic : Z;
  bi_length : Z;
}.

Record daemon := mkDaemon {
  d_world : world;
  d_traffic : TrafficStore;
  d_heap : gmap Z RuntimeSession;
  d_next : Z;
  d_sessions : Sessions;
  d_router : MorphRouter;
  d_limiter : HandshakeLimiter;
  d_cache : gmap (list Z) CachedHandshake;
  d_rx_overflow : Z;
  d_batch : list BatchItem;
  d_dropped : Z;
  d_last_drop_report : option Z;
}.

Definition set_heap (d : daemon) (heap : gmap Z RuntimeSession) : daemon :=
  mkDaemon (d_world d) (d_traffic d) heap (d_next d) (d_sessions d) (d_router d) (d_limiter d) (d_cache d)
    (d_rx_overflow d) (d_batch d) (d_dropped d) (d_last_drop_report d).

Definition set_session (d : daemon) (p : Z) (s : RuntimeSession) : daemon := set_heap d (<[p := s]> (d_heap d)).

Definition set_traffic (d : daemon) (t : TrafficStore) : daemon :=
  mkDaemon (d_world d) t (d_heap d) (d_next d) (d_sessions d) (d_router d) (d_limiter d) (d_cache d)
    (d_rx_overflow d) (d_batch d) (d_dropped d) (d_last_drop_report d).

Definition set_router (d : daemon) (r : MorphRouter) : daemon :=
  mkDaemon (d_world d) (d_traffic d) (d_heap d) (d_next d) (d_sessions d) r (d_limiter d) (d_cache d)
    (d_rx_overflow d) (d_batch d) (d_dropped d) (d_last_drop_report d).

Definition set_limiter (d : daemon) (l : HandshakeLimiter) : daemon :=
  mkDaemon (d_world d) (d_traffic d) (d_heap d) (d_next d) (d_sessions d) (d_router d) l (d_cache d)
    (d_rx_overflow d) (d_batch d) (d_dropped d) (d_last_drop_report d).

Definition set_cache (d : daemon) (c : gmap (list Z) CachedHandshake) : daemon :=
  mkDaemon (d_world d) (d_traffic d) (d_heap d) (d_next d) (d_sessions d) (d_router d) (d_limiter d) c
    (d_rx_overflow d) (d_batch d) (d_dropped d) (d_last_drop_report d).

Definition set_world (d : daemon) (w : world) : daemon :=
  mkDaemon w (d_traffic d) (d_heap d) (d_next d) (d_sessions d) (d_router d) (d_limiter d) (d_cache d)
    (d_rx_overflow d) (d_batch d) (d_dropped d) (d_last_drop_report d).

Definition set_overflow (d : daemon) (n : Z) : daemon :=
  mkDaemon (d_world d) (d_traffic d) (d_heap d) (d_next d) (d_sessions d) (d_router d) (d_limiter d) (d_cache d)
    n (d_batch d) (d_dropped d) (d_last_drop_report d).

Definition set_batch (d : daemon) (b : list BatchItem) : daemon :=
  mkDaemon (d_world d) (d_traffic d) (d_heap d) (d_next d) (d_sessions d) (d_router d) (d_limiter d) (d_cache d)
    (d_rx_overflow d) b (d_dropped d) (d_last_drop_report d).

Definition set_drops (d : daemon) (n : Z) (last : option Z) : daemon :=
  mkDaemon (d_world d) (d_traffic d) (d_heap d) (d_next d) (d_sessions d) (d_router d) (d_limiter d) (d_cache d)
    (d_rx_overflow d) (d_batch d) n last.

(** [Arc::new]: a fresh pointer. *)
Definition alloc (d : daemon) (s : RuntimeSession) : daemon * Z :=
  (mkDaemon (d_world d) (d_traffic d) (<[d_next d := s]> (d_heap d)) (d_next d + 1) (d_sessions d) (d_router d)
     (d_limiter d) (d_cache d) (d_rx_overflow d) (d_batch d) (d_dropped d) (d_last_drop_report d), d_next d).

Definition set_sessions (d : daemon) (s : Sessions) : daemon :=
  mkDaemon (d_world d) (d_traffic d) (d_heap d) (d_next d) s (d_router d) (d_limiter d) (d_cache d)
    (d_rx_overflow d) (d_batch d) (d_dropped d) (d_last_drop_report d).

Definition find_session_by_id (d : daemon) (session_id : Z) : option (Z * RuntimeSession) :=
  p ← by_id (d_sessions d) !! session_id; s ← d_heap d !! p; Some (p, s).

Definition find_session_by_address (d : daemon) (address : Ipv4Addr) : option (Z * RuntimeSession) :=
  p ← by_address (d_sessions d) !! address; s ← d_heap d !! p; Some (p, s).

(** [Sessions::replace_client], with the heap its pointers point into. *)
Definition replace_client (heap : gmap Z RuntimeSession) (t : Sessions) (session_id p : Z) (session : RuntimeSession)
    : Sessions * bool :=
  let address := rs_client_address session in
  let collides :=
    match by_id t !! session_id with
    | Some existing =>
        match heap !! existing with
        | Some existing => negb (bool_decide (rs_client_address existing = address))
        | None => false
        end
    | None => false
    end in
  if collides then (t, false)
  else
    let ids :=
      match by_address t !! address with
      | Some previous => filter (fun kv => kv.2 <> previous) (by_id t)
      | None => by_id t
      end in
    (mkSessions (<[session_id := p]> ids) (<[address := p]> (by_address t)), true).

Definition record_rx_overflow (observed : option Z) (previous : Z) : Z :=
  match observed with
  | Some observed => if previous <? observed then observed else previous
  | None => previous
  end.

End State.

(** A result the handler uses; an error makes it return, a panic ends the thread. *)
Definition proceed `{N : Noise} {E A} (d : daemon) (m : res E A) (k : A -> daemon * list output)
    : daemon * list output :=
  match m with Ok a => k a | Err _ => (d, []) | Panic => (d, [Crashed]) end.

Section Handlers.
Context `{N : Noise, P : Primitives, B : Base64}.

Definition handle_keepalive (e : env) (d : daemon) (peer : SocketAddr) (datagram : Datagram.t) (wire : WireMode.t)
    : daemon * list output :=
  match find_session_by_id d (Header.session_id (Datagram.header datagram)) with
  | None => (d, [])
  | Some (p, session) =>
      if negb (is_active (w_flags (d_world d)) (rs_authorization session)) then (d, [])
      else if negb (WireMode.matches (rs_wire session) wire) then (d, [])
      else
        let '(inbound, decoded) := TunnelReceiver_decode_into (rs_inbound session) datagram in
        let session := with_inbound session inbound in
        let d := set_session d p session in
        proceed d decoded (fun decoded =>
          match decoded with
          | Ip _ => (d, [])
          | Keepalive =>
              let session := adopt_peer (now e) session peer in
              let '(outbound, response) := TunnelSender_encode_keepalive_into (rs_outbound session) [] in
              let session := with_outbound session outbound in
              let d := set_session d p session in
              proceed d response (fun response =>
                proceed d (WireMode.encode_server (clock e) (random e) (rs_wire session) response)
                  (fun wire_response => (d, [SendTo wire_response peer])))
          end)
  end.

Definition handle_client_data (e : env) (d : daemon) (peer : SocketAddr) (datagram : Datagram.t) (wire : WireMode.t)
    : daemon * list output :=
  match find_session_by_id d (Header.session_id (Datagram.header datagram)) with
  | None => (d, [])
  | Some (p, session) =>
      if negb (is_active (w_flags (d_world d)) (rs_authorization session)) then (d, [])
      else if negb (WireMode.matches (rs_wire session) wire) then (d, [])
      else
        let '(inbound, decoded) := TunnelReceiver_decode_into (rs_inbound session) datagram in
        let session := with_inbound session inbound in
        let d := set_session d p session in
        proceed d decoded (fun decoded =>
          match decoded with
          | Keepalive => (d, [])
          | Ip packet =>
              proceed d (Ipv4Packet.parse packet) (fun ip =>
                if negb (bool_decide (Ipv4Packet.source ip = rs_client_address session)) then (d, [])
                else
                  (if tun_ok e
                   then set_session (set_traffic d (add_upload (d_traffic d) (rs_traffic session) (len packet))) p
                          (adopt_peer (now e) session peer)
                   else d, [TunSend packet]))
          end)
  end.

(** The handshake up to the authenticated static key. *)
Definition read_handshake (config : ValidatedServerConfig) (wire : WireMode.t) (payload : bytes)
    : res CryptoError.t (HandshakeState * option PublicKey) :=
  let context :=
    match wire with
    | WireMode.Speedy _ _ => context_for_speedy_server (vs_server_public_key config)
    | _ => vs_context config
    end in
  handshake ← ServerHandshake_new (vs_server_private_key config) context;
  '(handshake, _) ← ServerHandshake_read_initial handshake payload;
  Ok (handshake, ServerHandshake_peer_static_key handshake).

(** The session a completed handshake creates; the traffic counter is looked up or made. *)
Definition new_session (e : env) (config : ValidatedServerConfig) (d : daemon) (peer : SocketAddr)
    (session_id session_mtu : Z) (crypto : SecureSession) (client : DeviceLease) (wire : WireMode.t)
    : daemon * RuntimeSession :=
  let '(sender, receiver) := TunnelDataPlane_split (TunnelDataPlane_new session_id session_mtu crypto) in
  let '(traffic, counter) := counter (d_traffic d) (encode_public_key (lease_public_key client)) (lease_name client) in
  (set_traffic d traffic,
   mkRuntimeSession (lease_address client) (lease_authorization client) counter peer receiver sender wire None).

(** The end of [handle_handshake]: both indexes, the answer and the cache. *)
Definition install_session (e : env) (d : daemon) (peer : SocketAddr) (datagram : Datagram.t) (wire : WireMode.t)
    (public_key : PublicKey) (session : RuntimeSession) (response : bytes) : daemon * list output :=
  let session_id := Header.session_id (Datagram.header datagram) in
  let '(d, p) := alloc d session in
  let '(sessions, installed) := replace_client (d_heap d) (d_sessions d) session_id p session in
  if negb installed then (d, [])
  else
    let d := set_sessions d sessions in
    let header := Header.mk PacketKind.HandshakeResponse 0 session_id 0 in
    let encoded := Datagram.encode (Datagram.mk header response) in
    proceed d (WireMode.encode_server (clock e) (random e) wire encoded) (fun wire_encoded =>
      (set_cache d (<[public_key := mkCachedHandshake (Datagram.payload datagram) encoded]> (d_cache d)),
       [SendTo wire_encoded peer])).

Definition handle_handshake (e : env) (config : ValidatedServerConfig) (d : daemon) (peer : SocketAddr)
    (datagram : Datagram.t) (wire : WireMode.t) : daemon * list output :=
  let session_id := Header.session_id (Datagram.header datagram) in
  proceed d (read_handshake config wire (Datagram.payload datagram)) (fun '(handshake, key) =>
    match key with
    | None => (d, [])
    | Some public_key =>
        if negb (WireMode.allows_client wire public_key) then (d, [])
        else
          match authorize (d_world d) public_key with
          | None => (d, [])
          | Some client =>
              let repeated :=
                match d_cache d !! public_key with
                | Some cached => if bool_decide (request cached = Datagram.payload datagram) then Some (response cached) else None
                | None => None
                end in
              match repeated with
              | Some cached =>
                  proceed d (WireMode.encode_server (clock e) (random e) wire cached)
                    (fun wire_response => (d, [SendTo wire_response peer]))
              | None =>
                  let session_mtu := WireMode.session_mtu wire (tun_mtu (vs_tun config)) in
                  let parameters :=
                    SessionParameters.mk (lease_address client) (tun_prefix_len (vs_tun config)) session_mtu
                      (tun_dns (vs_tun config)) in
                  proceed d (ServerHandshake_finish handshake (entropy e) (SessionParameters.encode parameters))
                    (fun '(crypto, response) =>
                       let '(d, session) := new_session e config d peer session_id session_mtu crypto client wire in
                       install_session e d peer datagram wire public_key session response)
              end
          end
    end).

(** The body of the receive loop for one datagram. *)
Definition receive_datagram (e : env) (config : ValidatedServerConfig) (d : daemon) (buffer : bytes)
    (peer : SocketAddr) (rx_overflow : option Z) : daemon * list output :=
  let d := set_overflow d (record_rx_overflow rx_overflow (d_rx_overflow d)) in
  let '(router, decoded) := decode_wire_into (clock e) config (d_world d) (d_router d) buffer in
  let d := set_router d router in
  proceed d decoded (fun '(wire, payload) =>
    if negb (looks_like_protocol_datagram payload) then (d, [])
    else
      proceed d (Datagram.decode payload) (fun datagram =>
        match Header.kind (Datagram.header datagram) with
        | PacketKind.HandshakeInit =>
            let '(limiter, allowed) := allow_at (d_limiter d) (ip peer) (now e) in
            let d := set_limiter d limiter in
            if allowed then handle_handshake e config d peer datagram wire else (d, [])
        | PacketKind.Data => handle_client_data e d peer datagram wire
        | PacketKind.Keepalive => handle_keepalive e d peer datagram wire
        | _ => (d, [])
        end)).

(** ** The TUN worker *)

(** One packet read from the TUN. *)
Definition worker_packet (e : env) (d : daemon) (packet : bytes) : daemon * list output :=
  proceed d (Ipv4Packet.parse packet) (fun ip =>
    match find_session_by_address d (Ipv4Packet.destination ip) with
    | None => (d, [])
    | Some (p, session) =>
        if negb (is_active (w_flags (d_world d)) (rs_authorization session)) then (d, [])
        else
          let peer := rs_peer session in
          let '(outbound, datagram) :=
            TunnelSender_encode_ip_into (rs_outbound session) (Ipv4Packet.as_bytes ip) [] in
          let session := with_outbound session outbound in
          let d := set_session d p session in
          proceed d datagram (fun datagram =>
            proceed d (WireMode.encode_server (clock e) (random e) (rs_wire session) datagram)
              (fun wire_datagram =>
                 (set_batch d (d_batch d ++
                    [mkBatchItem wire_datagram peer (rs_traffic session) (len (Ipv4Packet.as_bytes ip))]), [])))
    end).

(** [record_downloads]: indexing past the batch panics. *)
Definition record_downloads (t : TrafficStore) (sent : nat) (batch : list BatchItem) : res unit TrafficStore :=
  if (sent <=? length batch)%nat
  then Ok (fold_left (fun t item => add_download t (bi_traffic item) (bi_length item)) (take sent batch) t)
  else Panic.

Definition note_server_drops (now total : Z) (last_report : option Z) (dropped : Z) : Z * option Z :=
  if dropped =? 0 then (total, last_report)
  else
    (sat_add64 total dropped,
     if match last_report with None => true | Some last => UDP_DROP_LOG_INTERVAL <=? duration_since now last end
     then Some now else last_report).

(** The end of a round: [sendmmsg] takes [sent] datagrams ([Err] is a fatal error of the
    socket, which ends the worker; a recoverable one counts as none sent). *)
Definition worker_send (e : env) (d : daemon) (sent : res unit nat) : daemon * list output :=
  let batch := d_batch d in
  if bool_decide (length batch = 0%nat) then (d, [])
  else
    match sent with
    | Ok sent =>
        proceed d (record_downloads (d_traffic d) sent batch) (fun traffic =>
          let '(dropped, last) :=
            note_server_drops (now e) (d_dropped d) (d_last_drop_report d) (sat_sub (len batch) (Z.of_nat sent)) in
          (set_drops (set_batch (set_traffic d traffic) []) dropped last,
           map (fun item => SendTo (bi_datagram item) (bi_peer item)) (take sent batch)))
    | _ => (d, [])
    end.

End Handlers.

(** ** Start-up and the steps of the daemon *)

(** [open_device_registry]: the configured clients are the seeds. *)
Definition seeds_of (config : ValidatedServerConfig) : list SeedDevice :=
  map (fun client => mkSeedDevice (va_name client) (va_public_key client) (va_address client)) (vs_clients config).

Definition open_device_registry `{T : Toml, B : Base64} (read_io write_io : bool) (disk : option file) (h : flags)
    (config : ValidatedServerConfig) : option file * res RegistryError.t world :=
  open read_io write_io disk h (seeds_of config) (tun_address (vs_tun config)) (tun_prefix_len (vs_tun config)).

(** The state [run] enters its loop with. *)
Definition start `{N : Noise} (w : world) (t : TrafficStore) : daemon :=
  mkDaemon w t ∅ 0 (mkSessions ∅ ∅) MorphRouter_default (HandshakeLimiter_new 50 60000) ∅ 0 [] 0 None.

(** The system hands out randomness in the size it is asked for. *)
Definition env_ok (e : env) : Prop :=
  match random e with Some r => len r = FRAME_RANDOM_LEN | None => True end.

Section Invariant.
Context `{N : Noise, NL : !NoiseLaws, P : Primitives, PL : !PrimitiveLaws, B : Base64, BL : !Base64Laws,
  T : Toml, TL : !TomlLaws}.

(** What happens to a running daemon: datagrams, TUN packets, sends, flushes of the
    traffic counters, and changes of the registry through the admin interface. *)
Inductive daemon_step (config : ValidatedServerConfig) (d : daemon) : daemon -> list output -> Prop :=
| step_datagram e buffer peer overflow :
    env_ok e -> is_bytes buffer ->
    daemon_step config d (receive_datagram e config d buffer peer overflow).1
      (receive_datagram e config d buffer peer overflow).2
| step_packet e packet :
    env_ok e -> len (d_batch d) < UDP_BATCH_SIZE -> daemon_step config d (worker_packet e d packet).1 (worker_packet e d packet).2
| step_send e sent :
    match sent with Ok n => (n <= length (d_batch d))%nat | _ => True end ->
    daemon_step config d (worker_send e d sent).1 (worker_send e d sent).2
| step_flush commit t : daemon_step config d (set_traffic d (flush_at commit [] (d_traffic d) t).1) []
| step_registry w : registry_step (d_world d) w -> daemon_step config d (set_world d w) [].

Inductive daemon_reachable (config : ValidatedServerConfig) : daemon -> Prop :=
| daemon_started read_io write_io disk h disk' w t :
    u32 (tun_address (vs_tun config)) -> u8 (tun_prefix_len (vs_tun config)) -> flags_ok h ->
    open_device_registry read_io write_io disk h config = (disk', Ok w) ->
    daemon_reachable config (start w t)
| daemon_stepped d d' out :
    daemon_reachable config d -> daemon_step config d d' out -> daemon_reachable config d'.

(** The device a session belongs to: the static key authenticated in its handshake. *)
Definition session_key (s : RuntimeSession) : PublicKey := recv_peer_static_key (tr_crypto (rs_inbound s)).
Definition session_transport (s : RuntimeSession) : transport := recv_transport (tr_crypto (rs_inbound s)).

(** A session whose flag is still set belongs to a device registered with that key and address. *)
Definition registered (w : world) (s : RuntimeSession) : Prop :=
  exists lease, authorize w (session_key s) = Some lease /\
    lease_authorization lease = rs_authorization s /\ lease_address lease = rs_client_address s.

Record session_ok (w : world) (s : RuntimeSession) : Prop := {
  so_window : exists a, represents (recv_window (tr_crypto (rs_inbound s))) a;
  so_ids : ts_session_id (rs_outbound s) = tr_session_id (rs_inbound s);
  so_keys : send_transport (ts_crypto (rs_outbound s)) = session_transport s /\
            send_peer_static_key (ts_crypto (rs_outbound s)) = session_key s;
  so_cell : rs_authorization s < next_cell (w_flags w);
  so_registered : is_active (w_flags w) (rs_authorization s) = true -> registered w s;
  so_wire : wire_ok (rs_wire s);
}.

(** The two indexes are inverse to each other. *)
Record indexes_ok (heap : gmap Z RuntimeSession) (t : Sessions) : Prop := {
  io_by_id : forall id p, by_id t !! id = Some p ->
    exists s, heap !! p = Some s /\ tr_session_id (rs_inbound s) = id /\
      by_address t !! rs_client_address s = Some p;
  io_by_address : forall a p, by_address t !! a = Some p ->
    exists s, heap !! p = Some s /\ rs_client_address s = a /\
      by_id t !! tr_session_id (rs_inbound s) = Some p;
}.

Record daemon_inv (config : ValidatedServerConfig) (d : daemon) : Prop := {
  di_registry : registry_inv (d_world d);
  di_next : forall p s, d_heap d !! p = Some s -> p < d_next d;
  di_indexes : indexes_ok (d_heap d) (d_sessions d);
  di_sessions : forall p s, d_heap d !! p = Some s -> session_ok (d_world d) s;
  di_router : routes_ok config (d_router d);
}.

(** A session that went on: same device, keys and indexes; window still well-formed. *)
Record evolves (s s' : RuntimeSession) : Prop := {
  ev_address : rs_client_address s' = rs_client_address s;
  ev_authorization : rs_authorization s' = rs_authorization s;
  ev_id : tr_session_id (rs_inbound s') = tr_session_id (rs_inbound s);
  ev_out_id : ts_session_id (rs_outbound s') = ts_session_id (rs_outbound s);
  ev_key : session_key s' = session_key s;
  ev_transport : session_transport s' = session_transport s;
  ev_crypto : ts_crypto (rs_outbound s') = ts_crypto (rs_outbound s);
  ev_wire : rs_wire s' = rs_wire s;
  ev_window : (exists a, represents (recv_window (tr_crypto (rs_inbound s))) a) ->
    exists a, represents (recv_window (tr_crypto (rs_inbound s'))) a;
}.

Lemma evolves_refl s : evolves s s.
Proof. by split. Qed.

Lemma evolves_trans s1 s2 s3 : evolves s1 s2 -> evolves s2 s3 -> evolves s1 s3.
Proof. intros [] []. split; try congruence. auto. Qed.

Lemma adopt_peer_evolves t s peer : evolves s (adopt_peer t s peer).
Proof. unfold adopt_peer. case_bool_decide; [apply evolves_refl|]. by split. Qed.

Lemma evolves_session_ok w s s' : evolves s s' -> session_ok w s -> session_ok w s'.
Proof.
  intros [] []. split; try congruence.
  - by apply ev_window0.
  - intros Ha. rewrite ev_authorization0 in Ha. destruct (so_registered0 Ha) as (lease & H1 & H2 & H3).
    exists lease. by rewrite ev_key0, ev_authorization0, ev_address0.
Qed.

Lemma evolves_indexes heap t p s s' :
  heap !! p = Some s -> evolves s s' -> indexes_ok heap t -> indexes_ok (<[p := s']> heap) t.
Proof.
  intros Hp [] [H1 H2]. split.
  - intros id q Hq. destruct (H1 id q Hq) as (x & Hx & Hid & Ha). destruct (decide (q = p)) as [->|Hne].
    + assert (x = s) as -> by congruence. exists s'. rewrite lookup_insert_eq. split; [done|]. split; congruence.
    + exists x. by rewrite lookup_insert_ne.
  - intros a q Hq. destruct (H2 a q Hq) as (x & Hx & Ha & Hid). destruct (decide (q = p)) as [->|Hne].
    + assert (x = s) as -> by congruence. exists s'. rewrite lookup_insert_eq. split; [done|]. split; congruence.
    + exists x. by rewrite lookup_insert_ne.
Qed.

Lemma set_session_inv config d p s s' :
  d_heap d !! p = Some s -> evolves s s' -> daemon_inv config d -> daemon_inv config (set_session d p s').
Proof.
  intros Hp Hev [Hr Hn Hi Hs Hrt]. split; simpl; [done| | | |done].
  - intros q x. rewrite lookup_insert_Some. intros [[<- _]|[_ Hq]]; [exact (Hn p s Hp)|exact (Hn q x Hq)].
  - by eapply evolves_indexes.
  - intros q x [[<- <-]|[_ Hq]]%lookup_insert_Some; [|exact (Hs q x Hq)].
    exact (evolves_session_ok _ _ _ Hev (Hs p s Hp)).
Qed.

(** ** Packets of established sessions *)

(** The datagram belongs to this session, whose device is registered, came over the
    session's wire mode, is fresh, and decrypts to [plaintext]. *)
Definition accepts (d : daemon) (q : Z) (s : RuntimeSession) (dg : Datagram.t) (wire : WireMode.t) (plaintext : bytes)
    : Prop :=
  let sequence := Header.sequence (Datagram.header dg) in
  find_session_by_id d (Header.session_id (Datagram.header dg)) = Some (q, s) /\
  is_active (w_flags (d_world d)) (rs_authorization s) = true /\ registered (d_world d) s /\
  WireMode.matches (rs_wire s) wire = true /\
  (exists a, represents (recv_window (tr_crypto (rs_inbound s))) a /\ ReplaySpec.verdict a sequence = Ok tt) /\
  read_message (session_transport s) sequence (Datagram.payload dg) (len (Datagram.payload dg)) = Some plaintext.

(** What handling a datagram of a session may emit. *)
Definition permitted (d : daemon) (peer : SocketAddr) (dg : Datagram.t) (wire : WireMode.t) (o : output) : Prop :=
  match o with
  | TunSend packet =>
      exists q s padding ip, accepts d q s dg wire (1 :: packet ++ padding) /\
        Ipv4Packet.parse packet = Ok ip /\ Ipv4Packet.as_bytes ip = packet /\
        Ipv4Packet.source ip = rs_client_address s /\ len packet <= tr_mtu (rs_inbound s)
  | SendTo _ to => to = peer /\ exists q s, accepts d q s dg wire [2]
  | Crashed => False
  end.

(** What handling a datagram of a session may do. *)
Record handled (config : ValidatedServerConfig) (d : daemon) (peer : SocketAddr) (dg : Datagram.t) (wire : WireMode.t)
    (d' : daemon) (out : list output) : Prop := {
  ha_inv : daemon_inv config d';
  ha_world : d_world d' = d_world d;
  ha_sessions : d_sessions d' = d_sessions d;
  ha_peers : forall q s, d_heap d !! q = Some s ->
    exists s', d_heap d' !! q = Some s' /\ evolves s s' /\
      (rs_peer s' = rs_peer s \/ (rs_peer s' = peer /\ exists plaintext, accepts d q s dg wire plaintext));
  ha_out : forall o, o ∈ out -> permitted d peer dg wire o;
}.

Lemma handled_nothing config d peer dg wire : daemon_inv config d -> handled config d peer dg wire d [].
Proof.
  intros I. split; try done.
  - intros q s Hq. exists s. split; [done|]. split; [apply evolves_refl|by left].
  - intros o Ho. by apply not_elem_of_nil in Ho.
Qed.

(** One session replaced by a continuation of itself. *)
Lemma handled_update config d peer dg wire q s s' out :
  daemon_inv config d -> d_heap d !! q = Some s -> evolves s s' ->
  (rs_peer s' = rs_peer s \/ (rs_peer s' = peer /\ exists plaintext, accepts d q s dg wire plaintext)) ->
  (forall o, o ∈ out -> permitted d peer dg wire o) ->
  handled config d peer dg wire (set_session d q s') out.
Proof.
  intros I Hq Hev Hpeer Hout. split; [by eapply set_session_inv|done|done| |done].
  intros r x Hr. simpl. destruct (decide (r = q)) as [->|Hne].
  - assert (x = s) as -> by congruence. exists s'. by rewrite lookup_insert_eq.
  - exists x. rewrite lookup_insert_ne by done. split; [done|]. split; [apply evolves_refl|by left].
Qed.

Lemma receiver_decode_same r dg :
  let r' := (TunnelReceiver_decode_into r dg).1 in
  tr_session_id r' = tr_session_id r /\ tr_mtu r' = tr_mtu r /\
  recv_transport (tr_crypto r') = recv_transport (tr_crypto r) /\
  recv_peer_static_key (tr_crypto r') = recv_peer_static_key (tr_crypto r).
Proof.
  unfold TunnelReceiver_decode_into. case_if; [done|]. case_if; [done|].
  unfold ReceiveHalf_decrypt_into. by destruct (decrypt_into _ _ _ _ _).
Qed.

(** Decoding with a session: it evolves, never panics, and success means acceptance. *)
Lemma session_decode d q s dg wire :
  session_ok (d_world d) s -> 0 <= Header.sequence (Datagram.header dg) ->
  find_session_by_id d (Header.session_id (Datagram.header dg)) = Some (q, s) ->
  is_active (w_flags (d_world d)) (rs_authorization s) = true ->
  WireMode.matches (rs_wire s) wire = true ->
  let '(inbound, decoded) := TunnelReceiver_decode_into (rs_inbound s) dg in
  evolves s (with_inbound s inbound) /\
  match decoded with
  | Ok (Ip packet) => (exists padding, accepts d q s dg wire (1 :: packet ++ padding)) /\
      ipv4_valid packet /\ ipv4_total_len packet = len packet /\ len packet <= tr_mtu (rs_inbound s)
  | Ok Keepalive => accepts d q s dg wire [2]
  | Err _ => True
  | Panic => False
  end.
Proof.
  intros Hok Hseq Hfind Ha Hm. destruct (so_window _ _ Hok) as [a Ra].
  pose proof (receiver_decode_spec (rs_inbound s) a dg Ra Hseq) as Hspec.
  pose proof (receiver_decode_same (rs_inbound s) dg) as Hsame.
  destruct (TunnelReceiver_decode_into (rs_inbound s) dg) as [inbound decoded]. cbv zeta in Hspec.
  destruct Hspec as (_ & _ & _ & Hspec). destruct Hsame as (Hid & _ & Ht & Hk).
  assert (Hwin : exists a', represents (recv_window (tr_crypto inbound)) a').
  { destruct decoded as [x|e|]; [|destruct Hspec as [->|(_ & _ & ?)]; eauto|done].
    destruct Hspec as (_ & _ & ? & _). eauto. }
  split; [by split|]. destruct decoded as [x|e|]; [|done|done].
  destruct Hspec as (_ & Hv & _ & Hx).
  assert (Hacc : forall plaintext, read_message (session_transport s) (Header.sequence (Datagram.header dg))
    (Datagram.payload dg) (len (Datagram.payload dg)) = Some plaintext -> accepts d q s dg wire plaintext).
  { intros plaintext Hread. split_and!; try done; [by apply (so_registered _ _ Hok)|eauto]. }
  destruct x as [packet|].
  - destruct Hx as (_ & (padding & Hread) & Hval & Htl & Hmtu). split; [exists padding; by apply Hacc|done].
  - destruct Hx as (_ & Hread). by apply Hacc.
Qed.

Lemma find_session_heap d id q s : find_session_by_id d id = Some (q, s) -> d_heap d !! q = Some s.
Proof.
  unfold find_session_by_id. intros (p & _ & (x & Hx & [= <- <-])%bind_Some)%bind_Some. done.
Qed.

Lemma set_session_twice d q s s' : set_session (set_session d q s) q s' = set_session d q s'.
Proof. unfold set_session, set_heap. simpl. by rewrite insert_insert_eq. Qed.

Lemma set_session_traffic d q s s' t :
  set_session (set_traffic (set_session d q s) t) q s' = set_traffic (set_session d q s') t.
Proof. unfold set_session, set_heap, set_traffic. simpl. by rewrite insert_insert_eq. Qed.

Lemma daemon_inv_traffic config d t : daemon_inv config d -> daemon_inv config (set_traffic d t).
Proof. intros []. by split. Qed.

Lemma handled_traffic config d peer dg wire d' t out :
  handled config d peer dg wire d' out -> handled config d peer dg wire (set_traffic d' t) out.
Proof. intros []. split; try done. by apply daemon_inv_traffic. Qed.

Lemma handle_client_data_spec e config d peer dg wire :
  daemon_inv config d -> 0 <= Header.sequence (Datagram.header dg) ->
  handled config d peer dg wire (handle_client_data e d peer dg wire).1 (handle_client_data e d peer dg wire).2.
Proof.
  intros I Hseq. unfold handle_client_data.
  destruct (find_session_by_id d _) as [[q s]|] eqn:Hfind; [|by apply handled_nothing].
  pose proof (find_session_heap _ _ _ _ Hfind) as Hq.
  destruct (is_active _ _) eqn:Ha; [|by apply handled_nothing]. cbn [negb].
  destruct (WireMode.matches _ _) eqn:Hm; [|by apply handled_nothing]. cbn [negb].
  pose proof (session_decode d q s dg wire (di_sessions _ _ I q s Hq) Hseq Hfind Ha Hm) as Hdec.
  destruct (TunnelReceiver_decode_into (rs_inbound s) dg) as [inbound decoded]. destruct Hdec as [Hev Hdec].
  assert (Hquiet : handled config d peer dg wire (set_session d q (with_inbound s inbound)) []).
  { apply (handled_update _ _ _ _ _ _ s); [done|done|done|by left|]. intros o Ho. by apply not_elem_of_nil in Ho. }
  destruct decoded as [[packet|]|err|]; cbn [proceed]; try done.
  destruct Hdec as ((padding & Hacc) & Hval & Htl & Hmtu).
  assert (Hparse : Ipv4Packet.parse packet = Ok (ipv4_view packet)) by (by apply parse_ok).
  rewrite Hparse. cbn [proceed]. destruct (decide (Ipv4Packet.source (ipv4_view packet) = rs_client_address s)) as [Hsrc|Hsrc].
  2: { rewrite bool_decide_false by done. done. }
  rewrite bool_decide_true by done. cbn [negb fst snd].
  assert (Hout : forall o, o ∈ [TunSend packet] -> permitted d peer dg wire o).
  { intros o ->%list_elem_of_singleton. exists q, s, padding, (ipv4_view packet). split_and!; try done.
    simpl. rewrite Htl. unfold len. by rewrite Nat2Z.id, firstn_all. }
  destruct (tun_ok e).
  - rewrite set_session_traffic. apply handled_traffic, (handled_update _ _ _ _ _ _ s); [done|done| | |done].
    + eapply evolves_trans; [exact Hev|apply adopt_peer_evolves].
    + unfold adopt_peer. case_bool_decide as Hp; [left; done|right; eauto].
  - apply (handled_update _ _ _ _ _ _ s); [done|done|done|by left|done].
Qed.

Lemma sender_encode_same s kind ik payload output :
  let s' := (TunnelSender_encode_into s kind ik payload output).1 in
  ts_session_id s' = ts_session_id s /\ ts_crypto s' = ts_crypto s /\ ts_mtu s' = ts_mtu s /\
  no_panic (TunnelSender_encode_into s kind ik payload output).2.
Proof.
  rewrite sender_encode_eq. destruct (checked_add64 _ _); [|done].
  pose proof (encrypt_into_no_panic (send_transport (ts_crypto s)) (ts_next_sequence s)
    (InnerPacket.encode (InnerPacket.mk ik payload)) (len (InnerPacket.encode (InnerPacket.mk ik payload)) + AUTH_TAG_LEN)).
  by destruct (encrypt_into _ _ _ _).
Qed.

Lemma with_outbound_evolves s s' outbound :
  evolves s s' -> ts_session_id outbound = ts_session_id (rs_outbound s) ->
  ts_crypto outbound = ts_crypto (rs_outbound s) -> evolves s (with_outbound s' outbound).
Proof. intros [] Hid Hc. by split. Qed.

Lemma handle_keepalive_spec e config d peer dg wire :
  daemon_inv config d -> env_ok e -> 0 <= Header.sequence (Datagram.header dg) ->
  handled config d peer dg wire (handle_keepalive e d peer dg wire).1 (handle_keepalive e d peer dg wire).2.
Proof.
  intros I He Hseq. unfold handle_keepalive.
  destruct (find_session_by_id d _) as [[q s]|] eqn:Hfind; [|by apply handled_nothing].
  pose proof (find_session_heap _ _ _ _ Hfind) as Hq. pose proof (di_sessions _ _ I q s Hq) as Hok.
  destruct (is_active _ _) eqn:Ha; [|by apply handled_nothing]. cbn [negb].
  destruct (WireMode.matches _ _) eqn:Hm; [|by apply handled_nothing]. cbn [negb].
  pose proof (session_decode d q s dg wire Hok Hseq Hfind Ha Hm) as Hdec.
  destruct (TunnelReceiver_decode_into (rs_inbound s) dg) as [inbound decoded]. destruct Hdec as [Hev Hdec].
  assert (Hnone : forall o, o ∈ (@nil output) -> permitted d peer dg wire o) by (intros o Ho; by apply not_elem_of_nil in Ho).
  assert (Hquiet : handled config d peer dg wire (set_session d q (with_inbound s inbound)) []).
  { by apply (handled_update _ _ _ _ _ _ s); [| | |left|]. }
  destruct decoded as [[packet|]|err|]; cbn [proceed]; try done.
  set (s1 := adopt_peer (now e) (with_inbound s inbound) peer).
  assert (Hev1 : evolves s s1) by (eapply evolves_trans; [exact Hev|apply adopt_peer_evolves]).
  assert (Hpeer : rs_peer s1 = peer) by (unfold s1, adopt_peer; by case_bool_decide).
  unfold TunnelSender_encode_keepalive_into.
  pose proof (sender_encode_same (rs_outbound s1) PacketKind.Keepalive InnerPacketKind.Keepalive [] []) as Hsame.
  destruct (TunnelSender_encode_into _ _ _ _ _) as [outbound response]. destruct Hsame as (Hid & Hc & _ & Hnp).
  assert (Hout1 : rs_outbound s1 = rs_outbound s) by (unfold s1, adopt_peer; by case_bool_decide).
  assert (Hev2 : evolves s (with_outbound s1 outbound)).
  { apply with_outbound_evolves; [done|by rewrite <- Hout1..]. }
  rewrite set_session_twice.
  assert (Hup : forall out, (forall o, o ∈ out -> permitted d peer dg wire o) ->
    handled config d peer dg wire (set_session d q (with_outbound s1 outbound)) out).
  { intros out Hout. apply (handled_update _ _ _ _ _ _ s); [done|done|done|right; split; [done|by eauto]|done]. }
  destruct response as [response|err|]; cbn [proceed]; [|by apply Hup|done].
  assert (Hw : wire_ok (rs_wire (with_outbound s1 outbound))) by (rewrite (ev_wire _ _ Hev2); apply Hok).
  pose proof (encode_server_no_panic (clock e) (random e) _ response He Hw) as Hnp2.
  destruct (WireMode.encode_server _ _ _ _) as [b|err|]; cbn [proceed fst snd]; [|by apply Hup|done].
  apply Hup. intros o ->%list_elem_of_singleton. split; [done|]. by exists q, s.
Qed.

(** ** Handshakes *)

(** Sessions of other devices stay in both indexes. *)
Definition others_kept (heap : gmap Z RuntimeSession) (t t' : Sessions) (address : Ipv4Addr) : Prop :=
  forall id q x, by_id t !! id = Some q -> heap !! q = Some x -> rs_client_address x <> address ->
    by_id t' !! id = Some q /\ by_address t' !! rs_client_address x = by_address t !! rs_client_address x.

Lemma indexes_fresh heap t p s : heap !! p = None -> indexes_ok heap t -> indexes_ok (<[p := s]> heap) t.
Proof.
  intros Hp [H1 H2]. split.
  - intros id q Hq. destruct (H1 id q Hq) as (x & Hx & ?). exists x. rewrite lookup_insert_ne by congruence. done.
  - intros a q Hq. destruct (H2 a q Hq) as (x & Hx & ?). exists x. rewrite lookup_insert_ne by congruence. done.
Qed.

(** What is left after the previous session of the address is dropped from [by_id]. *)
Lemma drop_previous heap t address id q :
  indexes_ok heap t ->
  match by_address t !! address with
  | Some previous => filter (fun kv => kv.2 <> previous) (by_id t)
  | None => by_id t
  end !! id = Some q <->
  by_id t !! id = Some q /\ forall x, heap !! q = Some x -> rs_client_address x <> address.
Proof.
  intros [H1 H2]. split.
  - intros Hl. assert (Hid : by_id t !! id = Some q).
    { destruct (by_address t !! address); [by apply map_lookup_filter_Some in Hl as [? _]|done]. }
    split; [done|]. intros x Hx Heq. destruct (H1 id q Hid) as (x' & Hx' & _ & Ha).
    assert (x' = x) as -> by congruence. rewrite Heq in Ha. rewrite Ha in Hl.
    apply map_lookup_filter_Some in Hl as [_ Hne]. done.
  - intros [Hid Hne]. destruct (by_address t !! address) as [previous|] eqn:Ha; [|done].
    apply map_lookup_filter_Some. split; [done|]. simpl. intros ->.
    destruct (H2 address previous Ha) as (x & Hx & Heq & _). by destruct (Hne x Hx).
Qed.

Lemma replace_client_spec heap t id p s :
  indexes_ok heap t -> heap !! p = None -> tr_session_id (rs_inbound s) = id ->
  match replace_client (<[p := s]> heap) t id p s with
  | (t', true) =>
      indexes_ok (<[p := s]> heap) t' /\ by_id t' !! id = Some p /\ by_address t' !! rs_client_address s = Some p /\
      others_kept heap t t' (rs_client_address s)
  | (t', false) =>
      t' = t /\ exists q x, by_id t !! id = Some q /\ heap !! q = Some x /\ rs_client_address x <> rs_client_address s
  end.
Proof.
  intros Hix Hp Hid. pose proof Hix as [H1 H2]. unfold replace_client.
  set (collides := match by_id t !! id with Some _ => _ | None => false end).
  destruct collides eqn:Hc.
  { split; [done|]. unfold collides in Hc. destruct (by_id t !! id) as [q|] eqn:Hq; [|done].
    destruct (H1 id q Hq) as (x & Hx & _). rewrite lookup_insert_ne, Hx in Hc by congruence.
    apply negb_true_iff, bool_decide_eq_false in Hc. eauto. }
  set (ids := match by_address t !! _ with Some _ => _ | None => _ end).
  assert (Hids : forall id' q, ids !! id' = Some q <-> by_id t !! id' = Some q /\
    forall x, heap !! q = Some x -> rs_client_address x <> rs_client_address s).
  { intros id' q. by apply drop_previous. }
  assert (Hother : forall id' q x, by_id t !! id' = Some q -> heap !! q = Some x ->
    rs_client_address x <> rs_client_address s -> id' <> id).
  { intros id' q x Hq Hx Hne ->. unfold collides in Hc. rewrite Hq, lookup_insert_ne, Hx in Hc by congruence.
    apply negb_false_iff, bool_decide_eq_true in Hc. done. }
  split_and!; cbn [by_id by_address]; [|by rewrite lookup_insert_eq..|].
  - split; cbn [by_id by_address].
    + intros id' q [[<- <-]|[Hne Hq]]%lookup_insert_Some.
      { exists s. by rewrite !lookup_insert_eq. }
      apply Hids in Hq as [Hq Ha]. destruct (H1 id' q Hq) as (x & Hx & Hx1 & Hx2). exists x.
      rewrite lookup_insert_ne by congruence. split; [done|]. split; [done|].
      rewrite lookup_insert_ne; [done|]. intros Heq. by destruct (Ha x Hx).
    + intros a q [[<- <-]|[Hne Hq]]%lookup_insert_Some.
      { exists s. rewrite !lookup_insert_eq, Hid, lookup_insert_eq. done. }
      destruct (H2 a q Hq) as (x & Hx & <- & Hx2). exists x. rewrite lookup_insert_ne by congruence.
      split; [done|]. split; [done|]. rewrite lookup_insert_ne by (intros Heq; by eapply (Hother _ q x)).
      apply Hids. split; [done|]. intros y Hy. assert (y = x) as -> by congruence. done.
  - intros id' q x Hq Hx Hne. cbn [by_id by_address].
    rewrite !lookup_insert_ne by (first [done|intros Heq; by eapply (Hother id' q x)]).
    split; [|done]. apply Hids. split; [done|]. intros y Hy. by assert (y = x) as -> by congruence.
Qed.

(** A session made by a completed handshake of a registered device. *)
Definition established (config : ValidatedServerConfig) (d : daemon) (peer : SocketAddr) (dg : Datagram.t)
    (wire : WireMode.t) (k : PublicKey) (s : RuntimeSession) : Prop :=
  exists handshake lease,
    read_handshake config wire (Datagram.payload dg) = Ok (handshake, Some k) /\
    authorize (d_world d) k = Some lease /\ WireMode.allows_client wire k = true /\
    session_key s = k /\ rs_client_address s = lease_address lease /\
    rs_authorization s = lease_authorization lease /\ rs_peer s = peer /\ rs_wire s = wire /\
    tr_session_id (rs_inbound s) = Header.session_id (Datagram.header dg).

(** What a handshake message may do. *)
Record handshaken (config : ValidatedServerConfig) (d : daemon) (peer : SocketAddr) (dg : Datagram.t)
    (wire : WireMode.t) (d' : daemon) (out : list output) : Prop := {
  hk_inv : daemon_inv config d';
  hk_world : d_world d' = d_world d;
  hk_heap : forall q s, d_heap d !! q = Some s -> d_heap d' !! q = Some s;
  hk_out : forall o, o ∈ out -> exists b k handshake lease, o = SendTo b peer /\
    read_handshake config wire (Datagram.payload dg) = Ok (handshake, Some k) /\ authorize (d_world d) k = Some lease;
  hk_sessions : d_sessions d' = d_sessions d \/
    exists k s, established config d peer dg wire k s /\ d_heap d' !! d_next d = Some s /\
      by_id (d_sessions d') !! Header.session_id (Datagram.header dg) = Some (d_next d) /\
      by_address (d_sessions d') !! rs_client_address s = Some (d_next d) /\
      others_kept (d_heap d) (d_sessions d) (d_sessions d') (rs_client_address s);
}.

Lemma handshaken_quiet config d peer dg wire t : daemon_inv config d -> handshaken config d peer dg wire (set_traffic d t) [].
Proof.
  intros I. split; try done; [by apply daemon_inv_traffic| |by left].
  intros o Ho. by apply not_elem_of_nil in Ho.
Qed.

Lemma handshaken_nothing config d peer dg wire : daemon_inv config d -> handshaken config d peer dg wire d [].
Proof. intros I. by destruct (handshaken_quiet config d peer dg wire (d_traffic d) I); split. Qed.

Lemma noise_err_no_panic {A} (o : option A) : no_panic (noise_err o).
Proof. by destruct o. Qed.

Lemma read_handshake_no_panic config wire payload : no_panic (read_handshake config wire payload).
Proof.
  unfold read_handshake. apply no_panic_bind; [apply noise_err_no_panic|]. intros hs _.
  apply no_panic_bind; [|by intros []]. unfold ServerHandshake_read_initial, read_handshake_message.
  case_if; [done|apply noise_err_no_panic].
Qed.

(** [finish] does not abort and yields a session with the key that was authenticated. *)
Lemma finish_spec handshake k ent payload :
  ServerHandshake_peer_static_key handshake = Some k ->
  match ServerHandshake_finish handshake ent payload with
  | Ok (crypto, _) => ss_peer_static_key crypto = k /\ ss_receive_window crypto = ReplayWindow.default
  | Err _ => True
  | Panic => False
  end.
Proof.
  unfold ServerHandshake_peer_static_key, ServerHandshake_finish, peer_static_key.
  intros (key & Hkey & Hk)%bind_Some. rewrite Hkey. res_simpl. cbn [ok_or].
  destruct (PublicKey_from_slice key) as [k'|e|]; simpl in Hk; [|done..]. injection Hk as ->.
  unfold write_handshake_message. destruct (hs_write_message _ _ _ _) as [[hs' resp]|]; simpl; [|done].
  destruct (into_stateless_transport_mode hs'); simpl; done.
Qed.

Lemma read_handshake_key config wire payload handshake key :
  read_handshake config wire payload = Ok (handshake, key) -> key = ServerHandshake_peer_static_key handshake.
Proof.
  unfold read_handshake. intros (hs & _ & ([hs' x] & _ & H)%bind_ok)%bind_ok. by injection H as <- <-.
Qed.

Lemma new_session_ok e config d peer id mtu crypto k lease wire :
  daemon_inv config d -> authorize (d_world d) k = Some lease -> wire_ok wire ->
  ss_peer_static_key crypto = k -> ss_receive_window crypto = ReplayWindow.default ->
  let '(d', s) := new_session e config d peer id mtu crypto lease wire in
  (exists t, d' = set_traffic d t) /\ session_ok (d_world d) s /\ session_key s = k /\
  rs_client_address s = lease_address lease /\ rs_authorization s = lease_authorization lease /\
  rs_peer s = peer /\ rs_wire s = wire /\ tr_session_id (rs_inbound s) = id.
Proof.
  intros I Hl Hw Hk Hwin. unfold new_session, TunnelDataPlane_split, TunnelDataPlane_new, SecureSession_split.
  cbn [tp_crypto tp_session_id tp_mtu tp_next_sequence]. destruct (counter _ _ _) as [t c].
  split; [by eexists|]. split_and!; try done.
  pose proof (lo_active _ _ _ (ri_leases _ (di_registry _ _ I)) k lease Hl) as Hact. split; simpl; try done.
  - exists ReplaySpec.empty. rewrite Hwin. apply represents_default.
  - eapply active_cell_bound; [apply (ri_flags _ (di_registry _ _ I))|done].
  - intros _. exists lease. unfold session_key. simpl. by rewrite Hk.
Qed.

(** Installing a fresh session. *)
Lemma install_inv config d s t' :
  daemon_inv config d -> session_ok (d_world d) s -> indexes_ok (<[d_next d := s]> (d_heap d)) t' ->
  daemon_inv config (set_sessions (alloc d s).1 t').
Proof.
  intros [Hr Hn Hi Hs Hrt] Hok Hix. split; simpl; try done.
  - intros p x [[<- <-]|[_ Hp]]%lookup_insert_Some; [lia|]. specialize (Hn p x Hp). lia.
  - intros p x [[<- <-]|[_ Hp]]%lookup_insert_Some; [done|by eapply Hs].
Qed.

Lemma next_fresh config d : daemon_inv config d -> d_heap d !! d_next d = None.
Proof.
  intros I. destruct (d_heap d !! d_next d) as [s|] eqn:Hs; [|done]. pose proof (di_next _ _ I _ _ Hs). lia.
Qed.

Lemma install_session_spec e config d peer dg wire k s response :
  daemon_inv config d -> env_ok e -> wire_ok wire -> session_ok (d_world d) s ->
  established config d peer dg wire k s ->
  handshaken config d peer dg wire (install_session e d peer dg wire k s response).1
    (install_session e d peer dg wire k s response).2.
Proof.
  intros I He Hw Hok Hest. pose proof Hest as (handshake & lease & Hread & Hauth & _ & _ & _ & _ & _ & _ & Hid).
  pose proof (next_fresh config d I) as Hfresh. unfold install_session, alloc. cbn [d_heap d_sessions].
  assert (Hold : forall q x, d_heap d !! q = Some x -> <[d_next d := s]> (d_heap d) !! q = Some x).
  { intros q x Hq. rewrite lookup_insert_ne; [done|]. intros <-. by rewrite Hfresh in Hq. }
  pose proof (replace_client_spec (d_heap d) (d_sessions d) (Header.session_id (Datagram.header dg)) (d_next d) s
    (di_indexes _ _ I) Hfresh Hid) as Hrep.
  destruct (replace_client _ _ _ _ _) as [t' installed]. destruct installed; cbn [negb].
  - destruct Hrep as (Hix & Hbi & Hba & Hkeep).
    pose proof (install_inv config d s t' I Hok Hix) as I2.
    assert (Hnone : forall out, (forall o, o ∈ out -> exists b, o = SendTo b peer) ->
      handshaken config d peer dg wire (set_sessions (alloc d s).1 t') out).
    { intros out Hout. split; try done.
      - intros o Ho. destruct (Hout o Ho) as [b ->]. by exists b, k, handshake, lease.
      - right. exists k, s. split; [done|]. split; [by apply lookup_insert_eq|done]. }
    set (encoded := Datagram.encode _).
    pose proof (encode_server_no_panic (clock e) (random e) wire encoded He Hw) as Hnp.
    destruct (WireMode.encode_server _ _ _ _) as [b|err|]; cbn [proceed fst snd]; [| |done].
    + destruct (Hnone [SendTo b peer]) as [? ? ? ? ?]; [intros o ->%list_elem_of_singleton; by exists b|].
      split; try done. by destruct I2; split.
    + apply Hnone. intros o Ho. by apply not_elem_of_nil in Ho.
  - assert (Hix : indexes_ok (<[d_next d := s]> (d_heap d)) (d_sessions d)) by (apply indexes_fresh; [done|apply I]).
    split; try done; [by destruct (install_inv config d s (d_sessions d) I Hok Hix); split| |by left].
    intros o Ho. by apply not_elem_of_nil in Ho.
Qed.

(** Effects relative to a state that differs in the traffic store only. *)
Lemma handshaken_traffic config d t peer dg wire d' out :
  handshaken config (set_traffic d t) peer dg wire d' out -> handshaken config d peer dg wire d' out.
Proof. intros []. by split. Qed.

Lemma handle_handshake_spec e config d peer dg wire :
  daemon_inv config d -> env_ok e -> wire_ok wire ->
  handshaken config d peer dg wire (handle_handshake e config d peer dg wire).1
    (handle_handshake e config d peer dg wire).2.
Proof.
  intros I He Hw. unfold handle_handshake.
  pose proof (read_handshake_no_panic config wire (Datagram.payload dg)) as Hnp.
  destruct (read_handshake _ _ _) as [[handshake key]|err|] eqn:Hread; cbn [proceed]; [|by apply handshaken_nothing|done].
  destruct key as [k|]; [|by apply handshaken_nothing].
  destruct (WireMode.allows_client wire k) eqn:Hallow; cbn [negb]; [|by apply handshaken_nothing].
  destruct (authorize (d_world d) k) as [lease|] eqn:Hauth; [|by apply handshaken_nothing].
  set (repeated := match d_cache d !! k with Some _ => _ | None => None end). destruct repeated as [cached|].
  { pose proof (encode_server_no_panic (clock e) (random e) wire cached He Hw) as Hnp2.
    destruct (WireMode.encode_server _ _ _ _) as [b|err|]; cbn [proceed fst snd]; [|by apply handshaken_nothing|done].
    destruct (handshaken_nothing config d peer dg wire I). split; try done.
    intros o ->%list_elem_of_singleton. by exists b, k, handshake, lease. }
  pose proof (read_handshake_key _ _ _ _ _ Hread) as Hkey. symmetry in Hkey.
  set (mtu := WireMode.session_mtu _ _). set (payload := SessionParameters.encode _).
  pose proof (finish_spec handshake k (entropy e) payload Hkey) as Hfin.
  destruct (ServerHandshake_finish _ _ _) as [[crypto response]|err|]; cbn [proceed]; [|by apply handshaken_nothing|done].
  destruct Hfin as [Hpeer Hwin].
  pose proof (new_session_ok e config d peer (Header.session_id (Datagram.header dg)) mtu crypto k lease wire
    I Hauth Hw Hpeer Hwin) as Hnew.
  destruct (new_session _ _ _ _ _ _ _ _ _) as [d1 s]. destruct Hnew as ((t & ->) & Hok & Hs).
  apply (handshaken_traffic config d t). apply install_session_spec; [by apply daemon_inv_traffic|done..|].
  exists handshake, lease. destruct Hs as (? & ? & ? & ? & ? & ?). by split_and!.
Qed.

(** ** Registry changes under running sessions *)

Lemma provision_flags io ent w name platform :
  flags_ok (w_flags w) ->
  let w' := (provision io ent w name platform).1 in
  next_cell (w_flags w) <= next_cell (w_flags w') /\
  (forall c, c < next_cell (w_flags w) -> is_active (w_flags w') c = is_active (w_flags w) c).
Proof.
  intros Hf. unfold provision. destruct (mbind _ _) as [[[secret public] address]|e|]; simpl; [|split; [lia|done]..].
  destruct (persist_devices _ _ _) as [disk [x|e|]]; simpl; [|split; [lia|done]..].
  split; [lia|]. intros c Hc. unfold is_active. simpl. by rewrite lookup_insert_ne by lia.
Qed.

Lemma revoke_cells io w key : next_cell (w_flags (revoke io w key).1) = next_cell (w_flags w).
Proof.
  unfold revoke. destruct (decode_public_key key); simpl; [|done..]. case_if; [done|]. case_if; [done|].
  destruct (persist_devices _ _ _) as [disk [x|e|]]; simpl; [|done..]. by destruct (leases _ !! _).
Qed.

Lemma session_ok_registry w w' s :
  registry_inv w -> registry_step w w' -> session_ok w s -> session_ok w' s.
Proof.
  intros I Hstep Hok. destruct Hok as [Hwin Hid Hkeys Hcell Hreg Hwire].
  destruct Hstep as [io ent name platform Hfresh|io key].
  - pose proof (provision_spec io ent w name platform I Hfresh) as Hspec.
    pose proof (provision_flags io ent w name platform (ri_flags _ I)) as [Hnext Hsame]. cbv zeta in Hsame.
    destruct (provision io ent w name platform) as [w' [[record secret]|e|]]; cbn [fst] in *; [|by subst|done].
    split; [done|done|done|lia| |done]. rewrite Hsame by done. intros Ha.
    destruct (Hreg Ha) as (lease & Hl & ?). exists lease. split; [|done].
    destruct Hspec as (_ & public & authorization & Hgen & _ & _ & _ & _ & _ & _ & Hkeep).
    rewrite Hkeep; [done|]. intros Heq. specialize (Hfresh secret public Hgen). rewrite Heq in Hl. unfold authorize in *. congruence.
  - pose proof (revoke_spec io w key I) as Hspec. pose proof (revoke_cells io w key) as Hnext.
    destruct (revoke io w key) as [w' [[]|e|]]; cbn [fst] in *; [|by destruct Hspec as [-> _]|by subst|done].
    destruct Hspec as (_ & k & lease & _ & Hauth & Hgone & Hoff & Hkeep & Hcells).
    split; [done|done|done|lia| |done]. intros Ha.
    destruct (decide (rs_authorization s = lease_authorization lease)) as [Heq|Hne]; [congruence|].
    rewrite Hcells in Ha by done. destruct (Hreg Ha) as (lease' & Hl & Haut & ?). exists lease'. split; [|done].
    rewrite Hkeep; [done|]. intros Heq. rewrite Heq in Hl. congruence.
Qed.

Lemma set_world_inv config d w : daemon_inv config d -> registry_step (d_world d) w -> daemon_inv config (set_world d w).
Proof.
  intros [Hr Hn Hi Hs Hrt] Hstep. split; simpl; try done; [by eapply registry_step_inv|].
  intros p s Hp. eapply session_ok_registry; [done|done|by eapply Hs].
Qed.

(** ** The receive loop *)

(** What a received payload carries. *)
Definition unwraps (e : env) (config : ValidatedServerConfig) (d : daemon) (buffer : bytes) (wire : WireMode.t)
    (dg : Datagram.t) : Prop :=
  exists payload, (decode_wire_into (clock e) config (d_world d) (d_router d) buffer).2 = Ok (wire, payload) /\
    Datagram.decode payload = Ok dg.

Lemma datagram_decode_wf payload dg :
  is_bytes payload -> Datagram.decode payload = Ok dg -> Header.wf (Datagram.header dg).
Proof.
  intros Hb. rewrite datagram_decode_eq. intros (h & Hh & [= <-])%bind_ok.
  by apply header_decode_canonical in Hh as [? _].
Qed.

(** Three outcomes: nothing but bookkeeping, a packet of a session, a handshake. *)
Lemma receive_datagram_spec e config d buffer peer overflow :
  daemon_inv config d -> env_ok e -> is_bytes buffer ->
  let '(d', out) := receive_datagram e config d buffer peer overflow in
  (daemon_inv config d' /\ d_world d' = d_world d /\ d_heap d' = d_heap d /\ d_sessions d' = d_sessions d /\ out = []) \/
  (exists wire dg, unwraps e config d buffer wire dg /\
    (handled config d peer dg wire d' out \/ handshaken config d peer dg wire d' out)).
Proof.
  intros I He Hb. unfold receive_datagram. set (d0 := set_overflow d _).
  pose proof (decode_wire_safe (clock e) config (d_world d) (d_router d) buffer (di_router _ _ I) Hb) as Hsafe.
  change (d_world d0) with (d_world d). change (d_router d0) with (d_router d).
  unfold unwraps. destruct (decode_wire_into (clock e) config (d_world d) (d_router d) buffer) as [router decoded].
  destruct Hsafe as [Hrouter Hsafe]. set (d1 := set_router d0 router).
  assert (I1 : daemon_inv config d1) by (by destruct I; split).
  assert (Hd1 : forall d', d' = d1 -> daemon_inv config d' /\ d_world d' = d_world d /\ d_heap d' = d_heap d /\
    d_sessions d' = d_sessions d /\ @nil output = []) by (by intros d' ->).
  destruct decoded as [[wire payload]|err|]; cbn [proceed]; [|by left; apply Hd1|done].
  destruct Hsafe as [Hwire Hpb]. destruct (looks_like_protocol_datagram payload); cbn [negb]; [|by left; apply Hd1].
  pose proof (datagram_decode_no_panic payload) as Hnp.
  destruct (Datagram.decode payload) as [dg|err|] eqn:Hdec; cbn [proceed]; [|by left; apply Hd1|done].
  destruct (datagram_decode_wf payload dg Hpb Hdec) as (_ & _ & Hseq). unfold uint in Hseq.
  destruct (Header.kind (Datagram.header dg)); try (by left; apply Hd1).
  - destruct (allow_at _ _ _) as [limiter allowed]. set (d2 := set_limiter d1 limiter).
    assert (I2 : daemon_inv config d2) by (by destruct I1; split).
    destruct allowed; [|left; by destruct I2].
    pose proof (handle_handshake_spec e config d2 peer dg wire I2 He Hwire) as Hspec.
    destruct (handle_handshake e config d2 peer dg wire) as [d' out]. cbn [fst snd] in Hspec.
    right. exists wire, dg. split; [by exists payload|]. right. by destruct Hspec; split.
  - pose proof (handle_client_data_spec e config d1 peer dg wire I1 (proj1 Hseq)) as Hspec.
    destruct (handle_client_data e d1 peer dg wire) as [d' out]. cbn [fst snd] in Hspec.
    right. exists wire, dg. split; [by exists payload|]. left. by destruct Hspec; split.
  - pose proof (handle_keepalive_spec e config d1 peer dg wire I1 He (proj1 Hseq)) as Hspec.
    destruct (handle_keepalive e d1 peer dg wire) as [d' out]. cbn [fst snd] in Hspec.
    right. exists wire, dg. split; [by exists payload|]. left. by destruct Hspec; split.
Qed.

(** ** The worker *)

(** The item a packet for a device becomes. *)
Definition downlink (e : env) (d : daemon) (packet : bytes) (q : Z) (s : RuntimeSession) (item : BatchItem) : Prop :=
  exists ip ciphertext,
    Ipv4Packet.parse packet = Ok ip /\
    find_session_by_address d (Ipv4Packet.destination ip) = Some (q, s) /\
    rs_client_address s = Ipv4Packet.destination ip /\
    is_active (w_flags (d_world d)) (rs_authorization s) = true /\ registered (d_world d) s /\
    bi_peer item = rs_peer s /\ bi_traffic item = rs_traffic s /\
    bi_length item = len (Ipv4Packet.as_bytes ip) /\ bi_length item <= ts_mtu (rs_outbound s) /\
    encrypt_into (session_transport s) (ts_next_sequence (rs_outbound s)) (1 :: Ipv4Packet.as_bytes ip)
      (len (1 :: Ipv4Packet.as_bytes ip) + AUTH_TAG_LEN) = Ok ciphertext /\
    WireMode.encode_server (clock e) (random e) (rs_wire s)
      (framed (tr_session_id (rs_inbound s)) PacketKind.Data (ts_next_sequence (rs_outbound s)) ciphertext) =
      Ok (bi_datagram item).

Lemma encode_ip_spec s packet ip :
  Ipv4Packet.parse packet = Ok ip ->
  let r := TunnelSender_encode_ip_into s (Ipv4Packet.as_bytes ip) [] in
  ts_session_id r.1 = ts_session_id s /\ ts_crypto r.1 = ts_crypto s /\
  match r.2 with
  | Ok datagram => exists ciphertext,
      encrypt_into (send_transport (ts_crypto s)) (ts_next_sequence s) (1 :: Ipv4Packet.as_bytes ip)
        (len (1 :: Ipv4Packet.as_bytes ip) + AUTH_TAG_LEN) = Ok ciphertext /\
      datagram = framed (ts_session_id s) PacketKind.Data (ts_next_sequence s) ciphertext /\
      len (Ipv4Packet.as_bytes ip) <= ts_mtu s /\ ts_next_sequence r.1 = ts_next_sequence s + 1
  | Err _ => ts_next_sequence r.1 = ts_next_sequence s
  | Panic => False
  end.
Proof.
  intros Hp. unfold TunnelSender_encode_ip_into. rewrite (parse_as_bytes _ _ Hp). cbv zeta.
  destruct (Z.ltb_spec (ts_mtu s) (len (Ipv4Packet.as_bytes ip))); [done|].
  rewrite sender_encode_eq. destruct (checked_add64 _ _) as [next|] eqn:Hn; [|done].
  assert (next = ts_next_sequence s + 1) as ->.
  { unfold checked_add64 in Hn. destruct (_ <=? _); [by injection Hn|done]. }
  change (InnerPacket.encode (InnerPacket.mk InnerPacketKind.Data (Ipv4Packet.as_bytes ip)))
    with (1 :: Ipv4Packet.as_bytes ip).
  pose proof (encrypt_into_no_panic (send_transport (ts_crypto s)) (ts_next_sequence s) (1 :: Ipv4Packet.as_bytes ip)
    (len (1 :: Ipv4Packet.as_bytes ip) + AUTH_TAG_LEN)).
  destruct (encrypt_into _ _ _ _) as [c|err|] eqn:Henc; simpl; [|done|done]. split_and!; try done. eauto.
Qed.

Lemma find_address_heap d a q s :
  find_session_by_address d a = Some (q, s) -> by_address (d_sessions d) !! a = Some q /\ d_heap d !! q = Some s.
Proof. unfold find_session_by_address. intros (p & ? & (x & Hx & [= <- <-])%bind_Some)%bind_Some. done. Qed.

Lemma find_address_world d w a : find_session_by_address (set_world d w) a = find_session_by_address d a.
Proof. reflexivity. Qed.

Lemma worker_packet_spec e config d packet :
  daemon_inv config d -> env_ok e ->
  let '(d', out) := worker_packet e d packet in
  out = [] /\ daemon_inv config d' /\
  (d_batch d' = d_batch d \/ exists q s item, downlink e d packet q s item /\ d_batch d' = d_batch d ++ [item] /\
     exists s', d_heap d' !! q = Some s' /\ ts_next_sequence (rs_outbound s') = ts_next_sequence (rs_outbound s) + 1).
Proof.
  intros I He. unfold worker_packet. pose proof (parse_no_panic packet) as Hnp.
  destruct (Ipv4Packet.parse packet) as [ip|err|] eqn:Hp; cbn [proceed]; [|by auto|done].
  destruct (find_session_by_address d _) as [[q s]|] eqn:Hfind; [|by auto].
  destruct (find_address_heap _ _ _ _ Hfind) as [Hba Hq]. pose proof (di_sessions _ _ I q s Hq) as Hok.
  destruct (is_active _ _) eqn:Ha; cbn [negb]; [|by auto].
  pose proof (encode_ip_spec (rs_outbound s) packet ip Hp) as Henc. cbv zeta in Henc.
  destruct (TunnelSender_encode_ip_into _ _ _) as [outbound datagram]. cbn [fst snd] in Henc.
  destruct Henc as (Hid & Hc & Henc).
  assert (Hev : evolves s (with_outbound s outbound)) by (apply with_outbound_evolves; [apply evolves_refl|done..]).
  pose proof (set_session_inv config d q s _ Hq Hev I) as I1.
  destruct datagram as [datagram|err|]; cbn [proceed]; [|by auto|done].
  destruct Henc as (c & Hcipher & -> & Hmtu & Hnext).
  set (wire := rs_wire _). assert (Hw : wire_ok wire) by apply Hok.
  pose proof (encode_server_no_panic (clock e) (random e) wire
    (framed (ts_session_id (rs_outbound s)) PacketKind.Data (ts_next_sequence (rs_outbound s)) c) He Hw) as Hnp2.
  destruct (WireMode.encode_server _ _ _ _) as [b|err|] eqn:Hwire; cbn [proceed]; [|by auto|done].
  split; [done|]. split; [by destruct I1; split|]. right. eexists q, s, _. split; [|split; [reflexivity|]].
  - exists ip, c. split_and!; [done|done| |done| |done|done|done|done| |].
    + destruct (io_by_address _ _ (di_indexes _ _ I) _ _ Hba) as (x & Hx & <- & _). congruence.
    + by apply (so_registered _ _ Hok).
    + by rewrite <- (proj1 (so_keys _ _ Hok)).
    + by rewrite <- (so_ids _ _ Hok).
  - exists (with_outbound s outbound). simpl. by rewrite lookup_insert_eq.
Qed.

Lemma worker_send_inv config e d sent : daemon_inv config d -> daemon_inv config (worker_send e d sent).1.
Proof.
  intros I. unfold worker_send. case_bool_decide; [done|]. destruct sent as [n|err|]; [|done..].
  destruct (record_downloads _ _ _); cbn [proceed]; [|done..].
  destruct (note_server_drops _ _ _ _). by destruct I; split.
Qed.

Lemma daemon_step_inv config d d' out : daemon_inv config d -> daemon_step config d d' out -> daemon_inv config d'.
Proof.
  intros I [e buffer peer overflow He Hb|e packet He _|e sent _|commit t|w Hw].
  - pose proof (receive_datagram_spec e config d buffer peer overflow I He Hb) as H.
    destruct (receive_datagram _ _ _ _ _ _) as [d1 o]. cbn [fst].
    destruct H as [[? _]|(wire & dg & _ & [[]|[]])]; done.
  - pose proof (worker_packet_spec e config d packet I He) as H.
    destruct (worker_packet _ _ _) as [d1 o]. apply H.
  - by apply worker_send_inv.
  - by apply daemon_inv_traffic.
  - by apply set_world_inv.
Qed.

Lemma start_inv config read_io write_io disk h disk' w t :
  u32 (tun_address (vs_tun config)) -> u8 (tun_prefix_len (vs_tun config)) -> flags_ok h ->
  open_device_registry read_io write_io disk h config = (disk', Ok w) -> daemon_inv config (start w t).
Proof.
  intros Ht Hp Hf Ho. unfold open_device_registry in Ho. unfold uint in Hp.
  eapply open_inv in Ho as [Hr _]; [|done|lia|done]. by split.
Qed.

Lemma reachable_inv config d : daemon_reachable config d -> daemon_inv config d.
Proof. induction 1; [by eapply start_inv|by eapply daemon_step_inv]. Qed.

(** ** Theorems *)

(** [C4] Invariant of the running server, over any interleaving of received datagrams,
    TUN packets, sends, counter flushes and registry changes: the two session indexes
    are inverse to each other (one session per tunnel address, found under its own
    identifier), both halves of a session share keys and identifier, every replay
    window is well-formed, and a session whose authorization flag is set belongs to a
    device that is registered now, with the key authenticated in its handshake and the
    address of the session. *)
Theorem daemon_reachable_inv config d : daemon_reachable config d -> daemon_inv config d.
Proof. induction 1 as [? ? ? ? ? ? ? Ht Hp Hf Ho|? ? ? _ IH Hstep]; [by eapply start_inv|by eapply daemon_step_inv]. Qed.

(** [C5] Only authenticated traffic enters the tunnel network: whenever the server
    writes a packet to the TUN, the datagram it just received was fresh and decrypted
    under the keys of a session whose device is registered at that moment, arrived over
    that session's wire mode, and carries a complete IPv4 packet within the session's
    MTU whose source is the address registered for that device. *)
Theorem tun_writes_are_authenticated e config d buffer peer overflow packet :
  daemon_reachable config d -> env_ok e -> is_bytes buffer ->
  TunSend packet ∈ (receive_datagram e config d buffer peer overflow).2 ->
  exists wire dg q s padding ip,
    unwraps e config d buffer wire dg /\ accepts d q s dg wire (1 :: packet ++ padding) /\
    Ipv4Packet.parse packet = Ok ip /\ Ipv4Packet.as_bytes ip = packet /\
    Ipv4Packet.source ip = rs_client_address s /\ len packet <= tr_mtu (rs_inbound s).
Proof.
  intros Hd He Hb. pose proof (receive_datagram_spec e config d buffer peer overflow (reachable_inv _ _ Hd) He Hb) as H.
  destruct (receive_datagram _ _ _ _ _ _) as [d' out]. cbn [snd]. intros Hin.
  destruct H as [(_ & _ & _ & _ & ->)|(wire & dg & Hu & [H|H])]; [by apply not_elem_of_nil in Hin| |].
  - destruct (ha_out _ _ _ _ _ _ _ H _ Hin) as (q & s & padding & ip & ?). by exists wire, dg, q, s, padding, ip.
  - by destruct (hk_out _ _ _ _ _ _ _ H _ Hin) as (? & ? & ? & ? & ? & _).
Qed.

(** [C6] A datagram changes nothing of a session but what authentication allows: every
    session survives with its device, keys, addresses and identifier, and its endpoint
    moves, to the sender of the datagram and nowhere else, only if that datagram is a
    fresh authenticated packet of that very session. *)
Theorem endpoint_moves_only_authenticated e config d buffer peer overflow q s :
  daemon_reachable config d -> env_ok e -> is_bytes buffer -> d_heap d !! q = Some s ->
  exists s', d_heap (receive_datagram e config d buffer peer overflow).1 !! q = Some s' /\ evolves s s' /\
    (rs_peer s' = rs_peer s \/
     (rs_peer s' = peer /\ exists wire dg plaintext,
        unwraps e config d buffer wire dg /\ accepts d q s dg wire plaintext)).
Proof.
  intros Hd He Hb Hq. pose proof (receive_datagram_spec e config d buffer peer overflow (reachable_inv _ _ Hd) He Hb) as H.
  destruct (receive_datagram _ _ _ _ _ _) as [d' out]. cbn [fst].
  destruct H as [(_ & _ & -> & _)|(wire & dg & Hu & [H|H])].
  - exists s. split; [done|]. split; [apply evolves_refl|by left].
  - destruct (ha_peers _ _ _ _ _ _ _ H q s Hq) as (s' & Hs' & Hev & Hp). exists s'. split; [done|]. split; [done|].
    destruct Hp as [?|[? [plaintext ?]]]; [by left|right]. split; [done|]. by exists wire, dg, plaintext.
  - exists s. split; [by apply (hk_heap _ _ _ _ _ _ _ H)|]. split; [apply evolves_refl|by left].
Qed.

(** [C7] The session table changes only through a handshake that authenticates a
    registered device allowed on that wire mode, and then exactly by installing a session
    for that device's key and registered address under the identifier it chose; the
    sessions of all other addresses keep both their entries, so that no device can
    displace or capture the session of another. *)
Theorem handshake_installs_only_registered e config d buffer peer overflow :
  daemon_reachable config d -> env_ok e -> is_bytes buffer ->
  let d' := (receive_datagram e config d buffer peer overflow).1 in
  d_sessions d' = d_sessions d \/
  exists wire dg k s,
    unwraps e config d buffer wire dg /\ established config d peer dg wire k s /\
    d_heap d' !! d_next d = Some s /\
    by_id (d_sessions d') !! Header.session_id (Datagram.header dg) = Some (d_next d) /\
    by_address (d_sessions d') !! rs_client_address s = Some (d_next d) /\
    others_kept (d_heap d) (d_sessions d) (d_sessions d') (rs_client_address s).
Proof.
  intros Hd He Hb. pose proof (receive_datagram_spec e config d buffer peer overflow (reachable_inv _ _ Hd) He Hb) as H.
  destruct (receive_datagram _ _ _ _ _ _) as [d' out]. cbn [fst].
  destruct H as [(_ & _ & _ & ? & _)|(wire & dg & Hu & [H|H])]; [by left|left; apply (ha_sessions _ _ _ _ _ _ _ H)|].
  destruct (hk_sessions _ _ _ _ _ _ _ H) as [?|(k & s & ?)]; [by left|right]. by exists wire, dg, k, s.
Qed.

(** *** Repeated handshakes *)

Lemma decoded_looks_like payload dg : Datagram.decode payload = Ok dg -> looks_like_protocol_datagram payload = true.
Proof.
  unfold Datagram.decode, Header.decode, looks_like_protocol_datagram, index. intros (h & Hh & _)%bind_ok. revert Hh.
  destruct (Z.ltb_spec (len payload) Header.HEADER_LEN) as [|Hl]; [done|]. intros (v & Hv & Hh)%bind_ok. revert Hh.
  destruct payload as [|x payload]; [by vm_compute in Hl|]. assert (v = x) as -> by (revert Hv; by case_match; intros [= <-]).
  cbn [nth]. destruct (x =? VERSION); cbn [negb]; [|done]. intros _. by rewrite (proj2 (Z.leb_le _ _)).
Qed.

(** The state after the bookkeeping that every datagram causes. *)
Definition noted (e : env) (config : ValidatedServerConfig) (d : daemon) (buffer : bytes) (overflow : option Z) : daemon :=
  set_router (set_overflow d (record_rx_overflow overflow (d_rx_overflow d)))
    (decode_wire_into (clock e) config (d_world d) (d_router d) buffer).1.

Lemma receive_unwrapped e config d buffer peer overflow wire dg :
  unwraps e config d buffer wire dg ->
  receive_datagram e config d buffer peer overflow =
  let d := noted e config d buffer overflow in
  match Header.kind (Datagram.header dg) with
  | PacketKind.HandshakeInit =>
      let '(limiter, allowed) := allow_at (d_limiter d) (ip peer) (now e) in
      if allowed then handle_handshake e config (set_limiter d limiter) peer dg wire else (set_limiter d limiter, [])
  | PacketKind.Data => handle_client_data e d peer dg wire
  | PacketKind.Keepalive => handle_keepalive e d peer dg wire
  | _ => (d, [])
  end.
Proof.
  intros (payload & Hd & Hdg). unfold receive_datagram, noted. cbn [d_world d_router set_overflow].
  destruct (decode_wire_into _ _ _ _ _) as [router decoded]. cbn [snd] in Hd. subst decoded. cbn [proceed fst].
  rewrite (decoded_looks_like payload dg Hdg). cbn [negb]. rewrite Hdg. cbn [proceed].
  destruct (Header.kind (Datagram.header dg)); try done.
Qed.

(** A datagram that is nothing the server knows. *)
Lemma receive_unknown e config d buffer peer overflow :
  (forall wire dg, ~ unwraps e config d buffer wire dg) ->
  d_cache (receive_datagram e config d buffer peer overflow).1 = d_cache d.
Proof.
  intros Hn. unfold receive_datagram. cbn [d_world d_router set_overflow].
  destruct (decode_wire_into (clock e) config (d_world d) (d_router d) buffer) as [router decoded] eqn:E.
  destruct decoded as [[wire payload]|err|]; [|done..]. cbn [proceed]. case_match; [done|].
  destruct (Datagram.decode payload) as [dg|err|] eqn:Hdg; [|done..]. exfalso. apply (Hn wire dg). exists payload. by rewrite E.
Qed.

Lemma session_packet_cache e d peer dg wire :
  d_cache (handle_client_data e d peer dg wire).1 = d_cache d /\ d_cache (handle_keepalive e d peer dg wire).1 = d_cache d.
Proof.
  unfold handle_client_data, handle_keepalive. destruct (find_session_by_id _ _) as [[q s]|]; [|done].
  destruct (negb (is_active _ _)); [done|]. destruct (negb (WireMode.matches _ _)); [done|].
  destruct (TunnelReceiver_decode_into _ _) as [inbound [[packet|]|err|]]; cbn [proceed]; try done.
  - split; [|done]. destruct (Ipv4Packet.parse packet) as [ip|err|]; cbn [proceed]; try done. by repeat case_match.
  - split; [done|]. destruct (TunnelSender_encode_keepalive_into _ _) as [outbound [response|err|]]; cbn [proceed]; try done.
    by destruct (WireMode.encode_server _ _ _ _).
Qed.

(** *** The router of a running server *)

Lemma handlers_router e config d peer dg wire :
  d_router (handle_client_data e d peer dg wire).1 = d_router d /\ d_router (handle_keepalive e d peer dg wire).1 = d_router d /\
  d_router (handle_handshake e config d peer dg wire).1 = d_router d.
Proof.
  split_and!.
  - unfold handle_client_data. destruct (find_session_by_id _ _) as [[q s]|]; [|done].
    destruct (negb (is_active _ _)); [done|]. destruct (negb (WireMode.matches _ _)); [done|].
    destruct (TunnelReceiver_decode_into _ _) as [inbound [[packet|]|err|]]; cbn [proceed]; try done.
    destruct (Ipv4Packet.parse packet) as [ip|err|]; cbn [proceed]; try done. by repeat case_match.
  - unfold handle_keepalive. destruct (find_session_by_id _ _) as [[q s]|]; [|done].
    destruct (negb (is_active _ _)); [done|]. destruct (negb (WireMode.matches _ _)); [done|].
    destruct (TunnelReceiver_decode_into _ _) as [inbound [[packet|]|err|]]; cbn [proceed]; try done.
    destruct (TunnelSender_encode_keepalive_into _ _) as [outbound [response|err|]]; cbn [proceed]; try done.
    by destruct (WireMode.encode_server _ _ _ _).
  - unfold handle_handshake. destruct (read_handshake config wire (Datagram.payload dg)) as [[handshake [k'|]]|err|]; cbn [proceed]; try done.
    destruct (negb _); [done|]. destruct (authorize (d_world d) k') as [lease|]; [|done].
    destruct (match d_cache d !! k' with Some _ => _ | None => None end) as [cached|]; [by destruct (WireMode.encode_server _ _ _ _)|].
    destruct (ServerHandshake_finish _ _ _) as [[crypto response]|err|]; cbn [proceed]; try done.
    unfold new_session. destruct (TunnelDataPlane_split _) as [sender receiver]. destruct (counter _ _ _) as [t c].
    unfold install_session, alloc. destruct (replace_client _ _ _ _ _) as [t' []]; cbn [negb fst]; [|done].
    by destruct (WireMode.encode_server _ _ _ _).
Qed.

Lemma receive_router e config d buffer peer overflow :
  d_router (receive_datagram e config d buffer peer overflow).1 = (decode_wire_into (clock e) config (d_world d) (d_router d) buffer).1.
Proof.
  unfold receive_datagram. cbn [d_world d_router set_overflow].
  destruct (decode_wire_into (clock e) config (d_world d) (d_router d) buffer) as [router decoded].
  destruct decoded as [[wire payload]|err|]; [|done..]. cbn [proceed fst]. case_match; [done|].
  destruct (Datagram.decode payload) as [dg|err|] eqn:Hdg; [|done..]. cbn [proceed]. destruct (Header.kind (Datagram.header dg)); try done.
  - destruct (allow_at _ _ _) as [limiter []]; [|done]. exact (proj2 (proj2 (handlers_router _ _ (set_limiter _ _) _ _ _))).
  - exact (proj1 (handlers_router e config _ _ _ _)).
  - exact (proj1 (proj2 (handlers_router e config _ _ _ _))).
Qed.

(** The router is one the server's datagrams have led to, refreshed last under some
    registry. *)
Lemma reachable_router config d : daemon_reachable config d -> exists w0, router_run config (d_router d) w0.
Proof.
  induction 1 as [read_io write_io disk h disk' w t _ _ _ _|d d' out Hd [w0 IH] Hs]; [exists w; apply run_started|].
  destruct Hs as [e buffer peer overflow _ _|e packet _ _|e sent _|commit t|w _]; try by exists w0.
  - rewrite receive_router. eexists. by apply (run_received _ _ w0).
  - exists w0. unfold worker_packet. destruct (Ipv4Packet.parse packet) as [ip|err|]; cbn [proceed]; try done.
    destruct (find_session_by_address _ _) as [[q s]|]; [|done]. destruct (negb _); [done|].
    destruct (TunnelSender_encode_ip_into _ _ _) as [outbound [datagram|err|]]; cbn [proceed]; try done. by destruct (WireMode.encode_server _ _ _ _).
  - exists w0. unfold worker_send. case_match; [done|]. destruct sent as [n|err|]; try done. destruct (record_downloads _ _ _); try done. cbn [proceed].
    by destruct (note_server_drops _ _ _ _).
Qed.

(** A handshake of [k] that the server would read, other than [payload]. *)
Definition other_handshake (config : ValidatedServerConfig) (k : PublicKey) (payload : bytes) (wire : WireMode.t) (dg : Datagram.t) : Prop :=
  Header.kind (Datagram.header dg) = PacketKind.HandshakeInit /\ Datagram.payload dg <> payload /\
  exists handshake, read_handshake config wire (Datagram.payload dg) = Ok (handshake, Some k).

Lemma handle_handshake_cache e config d peer dg wire k payload answer :
  Header.kind (Datagram.header dg) = PacketKind.HandshakeInit -> ~ other_handshake config k payload wire dg ->
  d_cache d !! k = Some (mkCachedHandshake payload answer) ->
  d_cache (handle_handshake e config d peer dg wire).1 !! k = Some (mkCachedHandshake payload answer).
Proof.
  intros Hkind Hother Hc. unfold handle_handshake.
  destruct (read_handshake config wire (Datagram.payload dg)) as [[handshake [k'|]]|err|] eqn:Hread; cbn [proceed]; try done.
  destruct (negb _); [done|]. destruct (authorize (d_world d) k') as [lease|]; [|done].
  destruct (decide (k' = k)) as [->|Hne].
  - assert (Hp : Datagram.payload dg = payload).
    { destruct (decide (Datagram.payload dg = payload)); [done|]. exfalso. apply Hother. by split_and!; [..|exists handshake]. }
    rewrite Hc. cbn [request response]. rewrite bool_decide_true by done. by destruct (WireMode.encode_server _ _ _ _).
  - destruct (match d_cache d !! k' with Some _ => _ | None => None end) as [cached|]; [by destruct (WireMode.encode_server _ _ _ _)|].
    destruct (ServerHandshake_finish _ _ _) as [[crypto response]|err|]; cbn [proceed]; try done.
    unfold new_session. destruct (TunnelDataPlane_split _) as [sender receiver]. destruct (counter _ _ _) as [t c].
    unfold install_session, alloc. destruct (replace_client _ _ _ _ _) as [t' []]; cbn [negb fst]; [|done].
    destruct (WireMode.encode_server _ _ _ _); cbn [proceed fst]; try done.
    cbn [d_cache set_cache]. by rewrite lookup_insert_ne.
Qed.

(** What may happen to the server between a handshake of [k] and its repetition: anything
    but another handshake of the same device. *)
Inductive meanwhile (config : ValidatedServerConfig) (k : PublicKey) (payload : bytes) (d : daemon) : daemon -> Prop :=
| mw_nothing : meanwhile config k payload d d
| mw_datagram d' e buffer peer overflow :
    meanwhile config k payload d d' -> env_ok e -> is_bytes buffer ->
    (forall wire dg, unwraps e config d' buffer wire dg -> ~ other_handshake config k payload wire dg) ->
    meanwhile config k payload d (receive_datagram e config d' buffer peer overflow).1
| mw_packet d' e packet : meanwhile config k payload d d' -> meanwhile config k payload d (worker_packet e d' packet).1
| mw_send d' e sent : meanwhile config k payload d d' -> meanwhile config k payload d (worker_send e d' sent).1
| mw_flush d' commit t : meanwhile config k payload d d' -> meanwhile config k payload d (set_traffic d' (flush_at commit [] (d_traffic d') t).1)
| mw_registry d' w : meanwhile config k payload d d' -> registry_step (d_world d') w -> meanwhile config k payload d (set_world d' w).

Lemma meanwhile_cache config k payload answer d d' :
  meanwhile config k payload d d' -> d_cache d !! k = Some (mkCachedHandshake payload answer) ->
  d_cache d' !! k = Some (mkCachedHandshake payload answer).
Proof.
  intros Hm Hc. induction Hm as [|d' e buffer peer overflow Hm IH _ _ Hno|d' e packet Hm IH|d' e sent Hm IH|d' commit t Hm IH|d' w Hm IH _]; try done.
  - destruct ((decode_wire_into (clock e) config (d_world d') (d_router d') buffer).2) as [[wire payload']|err|] eqn:E;
      [destruct (Datagram.decode payload') as [dg|err|] eqn:Hdg|..].
    2-5: rewrite receive_unknown; [done|]; intros wire0 dg0 (p & Hp & Hd); congruence.
    assert (Hu : unwraps e config d' buffer wire dg) by (by exists payload'). rewrite (receive_unwrapped _ _ _ _ _ _ _ _ Hu). cbv zeta.
    destruct (Header.kind (Datagram.header dg)) eqn:Hk; try done.
    + destruct (allow_at _ _ _) as [limiter []]; [|done]. apply handle_handshake_cache; [done|by apply Hno|done].
    + by rewrite (proj1 (session_packet_cache _ _ _ _ _)).
    + by rewrite (proj2 (session_packet_cache _ _ _ _ _)).
  - unfold worker_packet. destruct (Ipv4Packet.parse packet) as [ip|err|]; cbn [proceed]; try done.
    destruct (find_session_by_address _ _) as [[q s]|]; [|done]. destruct (negb _); [done|].
    destruct (TunnelSender_encode_ip_into _ _ _) as [outbound [datagram|err|]]; cbn [proceed]; try done. by destruct (WireMode.encode_server _ _ _ _).
  - unfold worker_send. case_match; [done|]. destruct sent as [n|err|]; try done. destruct (record_downloads _ _ _); try done. cbn [proceed].
    by destruct (note_server_drops _ _ _ _).
Qed.

(** An answered handshake is remembered under the key it authenticates. *)
Lemma answered_is_cached e config d peer dg wire d1 b :
  handle_handshake e config d peer dg wire = (d1, [SendTo b peer]) ->
  exists k handshake answer, read_handshake config wire (Datagram.payload dg) = Ok (handshake, Some k) /\
    d_cache d1 !! k = Some (mkCachedHandshake (Datagram.payload dg) answer) /\
    WireMode.encode_server (clock e) (random e) wire answer = Ok b.
Proof.
  unfold handle_handshake. destruct (read_handshake _ _ _) as [[handshake [k|]]|err|]; cbn [proceed]; [|done..].
  destruct (WireMode.allows_client wire k); cbn [negb]; [|done].
  destruct (authorize (d_world d) k) as [lease|]; [|done].
  set (repeated := match d_cache d !! k with Some _ => _ | None => None end). destruct repeated as [cached|] eqn:Hrep.
  - destruct (WireMode.encode_server _ _ _ cached) as [b'|err|] eqn:Hb; cbn [proceed]; [|done..]. intros [= <- ->].
    exists k, handshake, cached. split_and!; [done| |done]. unfold repeated in Hrep.
    destruct (d_cache d !! k) as [[req answer]|]; [|done]. cbn [request response] in Hrep. by case_bool_decide; simplify_eq.
  - destruct (ServerHandshake_finish _ _ _) as [[crypto response]|err|]; cbn [proceed]; [|done..].
    unfold new_session. destruct (TunnelDataPlane_split _) as [sender receiver]. destruct (counter _ _ _) as [t c].
    unfold install_session, alloc. destruct (replace_client _ _ _ _ _) as [t' []]; cbn [negb]; [|done].
    set (encoded := Datagram.encode _). destruct (WireMode.encode_server _ _ _ encoded) as [b'|err|] eqn:Hb; cbn [proceed]; [|done..].
    intros [= <- ->]. exists k, handshake, encoded. cbn [d_cache set_cache]. by rewrite lookup_insert_eq.
Qed.

(** [C11] A repeated handshake is harmless until a newer one replaces it.  The server
    answered a handshake message; then anything happened to it but the arrival of another
    handshake of the same device (of which the server remembers the last only).  When a
    datagram that carries the same message arrives again, from any endpoint, neither the
    sessions, nor what was answered, nor the traffic counters, nor the devices change; and
    if the limiter admits the sender and the device is still registered, it is answered by
    the response of the first time, wrapped afresh, otherwise not at all. *)
Theorem repeated_handshake_is_idempotent e config d buffer peer overflow wire dg d1 b :
  unwraps e config d buffer wire dg -> Header.kind (Datagram.header dg) = PacketKind.HandshakeInit ->
  receive_datagram e config d buffer peer overflow = (d1, [SendTo b peer]) ->
  exists k handshake answer, read_handshake config wire (Datagram.payload dg) = Ok (handshake, Some k) /\
  WireMode.encode_server (clock e) (random e) wire answer = Ok b /\
  forall d2, meanwhile config k (Datagram.payload dg) d1 d2 ->
  forall e' buffer' peer' overflow' wire' dg', unwraps e' config d2 buffer' wire' dg' ->
    Header.kind (Datagram.header dg') = PacketKind.HandshakeInit -> Datagram.payload dg' = Datagram.payload dg ->
    (exists handshake', read_handshake config wire' (Datagram.payload dg) = Ok (handshake', Some k)) ->
    let '(d3, out) := receive_datagram e' config d2 buffer' peer' overflow' in
    d_sessions d3 = d_sessions d2 /\ d_heap d3 = d_heap d2 /\ d_cache d3 = d_cache d2 /\
    d_traffic d3 = d_traffic d2 /\ d_world d3 = d_world d2 /\
    out = (if (allow_at (d_limiter d2) (ip peer') (now e')).2 && WireMode.allows_client wire' k &&
              bool_decide (is_Some (authorize (d_world d2) k))
           then match WireMode.encode_server (clock e') (random e') wire' answer with
                | Ok b' => [SendTo b' peer']
                | Err _ => []
                | Panic => [Crashed]
                end
           else []).
Proof.
  intros Hu Hk Hr. rewrite (receive_unwrapped _ _ _ _ _ _ _ _ Hu), Hk in Hr. cbv zeta in Hr.
  destruct (allow_at _ _ _) as [limiter []]; [|done]. destruct (answered_is_cached _ _ _ _ _ _ _ _ Hr) as (k & handshake & answer & Hread & Hc & Hb).
  exists k, handshake, answer. split; [done|]. split; [done|]. intros d2 Hm e' buffer' peer' overflow' wire' dg' Hu' Hk' Hp [handshake' Hread'].
  pose proof (meanwhile_cache _ _ _ _ _ _ Hm Hc) as Hc2. rewrite (receive_unwrapped _ _ _ _ _ _ _ _ Hu'), Hk'. cbv zeta.
  change (d_limiter (noted e' config d2 buffer' overflow')) with (d_limiter d2).
  destruct (allow_at (d_limiter d2) (ip peer') (now e')) as [limiter' []]; cbn [snd andb]; [|done].
  unfold handle_handshake. rewrite Hp, Hread'. cbn [proceed].
  destruct (WireMode.allows_client wire' k); cbn [negb andb]; [|done].
  change (d_world (set_limiter _ limiter')) with (d_world d2). change (d_cache (set_limiter _ limiter')) with (d_cache d2).
  destruct (authorize (d_world d2) k) as [lease|]; [rewrite bool_decide_true by done|by rewrite bool_decide_false by (by intros [])].
  rewrite Hc2. cbn [request response]. rewrite bool_decide_true by done. by destruct (WireMode.encode_server _ _ wire' answer).
Qed.

(** [C8] A packet for a device leaves the server only under that device's keys: the
    worker queues a packet read from the TUN only for the session whose address is the
    packet's destination and whose device is registered, encrypted with that session's
    transport and next sequence number, wrapped for its wire mode and addressed to its
    current endpoint; and the sequence number is used up. *)
Theorem downlink_reaches_only_the_owner e config d packet :
  daemon_reachable config d -> env_ok e ->
  let d' := (worker_packet e d packet).1 in
  d_batch d' = d_batch d \/
  exists q s item s', downlink e d packet q s item /\ d_batch d' = d_batch d ++ [item] /\
    d_heap d' !! q = Some s' /\ ts_next_sequence (rs_outbound s') = ts_next_sequence (rs_outbound s) + 1.
Proof.
  intros Hd He. pose proof (worker_packet_spec e config d packet (reachable_inv _ _ Hd) He) as H.
  destruct (worker_packet _ _ _) as [d' out]. cbn [fst]. destruct H as (_ & _ & [?|(q & s & item & ? & ? & s' & ? & ?)]);
    [by left|right]. by exists q, s, item, s'.
Qed.

(** [C10] Nothing that arrives stops the server: no step of the daemon, whatever bytes
    are received or read from the TUN, panics. *)
Theorem daemon_never_panics config d d' out :
  daemon_reachable config d -> daemon_step config d d' out -> Crashed ∉ out.
Proof.
  intros Hd%reachable_inv [e buffer peer overflow He Hb|e packet He _|e sent Hsent|commit t|w Hw] Hin.
  - pose proof (receive_datagram_spec e config d buffer peer overflow Hd He Hb) as H.
    destruct (receive_datagram _ _ _ _ _ _) as [d1 o]. cbn [snd] in Hin.
    destruct H as [(_ & _ & _ & _ & ->)|(wire & dg & _ & [H|H])]; [by apply not_elem_of_nil in Hin| |].
    + exact (ha_out _ _ _ _ _ _ _ H _ Hin).
    + by destruct (hk_out _ _ _ _ _ _ _ H _ Hin) as (? & ? & ? & ? & ? & _).
  - pose proof (worker_packet_spec e config d packet Hd He) as H. destruct (worker_packet _ _ _) as [d1 o].
    cbn [snd] in Hin. destruct H as (-> & _). by apply not_elem_of_nil in Hin.
  - unfold worker_send in Hin. case_bool_decide; [by apply not_elem_of_nil in Hin|].
    destruct sent as [n|err|]; [|by apply not_elem_of_nil in Hin..].
    unfold record_downloads in Hin. apply Nat.leb_le in Hsent. rewrite Hsent in Hin. cbn [proceed] in Hin.
    destruct (note_server_drops _ _ _ _). cbn [snd] in Hin.
    apply list_elem_of_In, in_map_iff in Hin as (? & ? & _). done.
  - by apply not_elem_of_nil in Hin.
  - by apply not_elem_of_nil in Hin.
Qed.

(** A session of a device without a lease is inactive. *)
Lemma unregistered_inactive config d q s :
  daemon_inv config d -> d_heap d !! q = Some s -> authorize (d_world d) (session_key s) = None ->
  is_active (w_flags (d_world d)) (rs_authorization s) = false.
Proof.
  intros I Hq Hnone. destruct (is_active _ _) eqn:Ha; [|done].
  destruct (so_registered _ _ (di_sessions _ _ I q s Hq) Ha) as (lease & Hl & _). congruence.
Qed.

(** [C9] Revocation takes effect at once on live sessions: from the moment the registry
    revoked a device, every datagram for one of its sessions, every packet for its
    address and every handshake with its key is dropped without any effect, although
    the session is still in the table. *)
Theorem revocation_silences_device config d io k w' :
  daemon_reachable config d -> revoke io (d_world d) (encode_public_key k) = (w', Ok true) ->
  let d' := set_world d w' in
  (forall q s, d_heap d !! q = Some s -> session_key s = k ->
    (forall e peer dg wire, find_session_by_id d' (Header.session_id (Datagram.header dg)) = Some (q, s) ->
       handle_client_data e d' peer dg wire = (d', []) /\ handle_keepalive e d' peer dg wire = (d', [])) /\
    (forall e packet ip, Ipv4Packet.parse packet = Ok ip ->
       find_session_by_address d' (Ipv4Packet.destination ip) = Some (q, s) -> worker_packet e d' packet = (d', []))) /\
  (forall e peer dg wire handshake, read_handshake config wire (Datagram.payload dg) = Ok (handshake, Some k) ->
     handle_handshake e config d' peer dg wire = (d', [])).
Proof.
  intros Hd%reachable_inv Hrev d'.
  assert (Hstep : registry_step (d_world d) w').
  { replace w' with (revoke io (d_world d) (encode_public_key k)).1 by (by rewrite Hrev). apply registry_revoke. }
  pose proof (set_world_inv config d w' Hd Hstep) as I'.
  assert (Hnone : authorize w' k = None).
  { pose proof (revoke_spec io (d_world d) (encode_public_key k) (di_registry _ _ Hd)) as Hspec. rewrite Hrev in Hspec.
    destruct Hspec as (_ & k' & lease & Hk & _ & Hgone & _). by rewrite (encode_public_key_inj k k' Hk). }
  split.
  - intros q s Hq Hk. assert (Ha : is_active (w_flags (d_world d')) (rs_authorization s) = false).
    { apply (unregistered_inactive config d' q s I' Hq). by rewrite Hk. }
    split.
    + intros e peer dg wire Hfind. unfold handle_client_data, handle_keepalive. by rewrite Hfind, Ha.
    + intros e packet ip Hp Hfind. unfold worker_packet. rewrite Hp. cbn [proceed]. by rewrite Hfind, Ha.
  - intros e peer dg wire handshake Hread. unfold handle_handshake. rewrite Hread. cbn [proceed].
    change (d_world d') with w'. rewrite Hnone. by case_if.
Qed.

End Invariant.

(** ** Witnesses *)

Module ToyDaemon.
Import Toy ToyConfig ToyRegistry.

Definition toy_env : env := mkEnv 5000 (Some 1000) (Some (replicate 45 7)) [] true.
Definition toy_traffic : TrafficStore := mkTrafficStore ∅ ∅ ∅ 0.
Definition toy_peer : SocketAddr := mkSocketAddr (V4 99) 4000.
Definition toy_roamed : SocketAddr := mkSocketAddr (V4 100) 4001.

(** A handshake of the first device, a packet from it and a packet for it. *)
Definition toy_hello : bytes :=
  Datagram.encode (Datagram.mk (Header.mk PacketKind.HandshakeInit 0 42 0) (public_key (toy_client_key 1))).
Definition toy_ip : bytes := [69; 0; 0; 20; 0; 0; 0; 0; 64; 17; 0; 0; 10; 77; 0; 2; 10; 77; 0; 3].
Definition toy_up : bytes :=
  Datagram.encode (Datagram.mk (Header.mk PacketKind.Data 0 42 0) ((1 :: toy_ip) ++ toy_tag 7 0 (1 :: toy_ip))).
Definition toy_down : bytes := [69; 0; 0; 20; 0; 0; 0; 0; 64; 17; 0; 0; 10; 77; 0; 3; 10; 77; 0; 2].

Definition toy_start : daemon := start toy_opened toy_traffic.
Definition toy_live : daemon := (receive_datagram toy_env toy_validated toy_start toy_hello toy_peer None).1.

Lemma toy_env_ok : env_ok toy_env.
Proof. reflexivity. Qed.

Lemma toy_hello_bytes : is_bytes toy_hello.
Proof. apply is_bytes_check. vm_compute. reflexivity. Qed.

Lemma toy_up_bytes : is_bytes toy_up.
Proof. apply is_bytes_check. vm_compute. reflexivity. Qed.

Lemma toy_start_reachable : daemon_reachable toy_validated toy_start.
Proof.
  apply (daemon_started toy_validated true true None (mkFlags ∅ 0) (w_disk toy_opened)).
  - vm_compute. split; congruence.
  - vm_compute. split; congruence.
  - intros c _. apply lookup_empty.
  - vm_compute. reflexivity.
Qed.

Lemma toy_live_reachable : daemon_reachable toy_validated toy_live.
Proof.
  eapply daemon_stepped; [apply toy_start_reachable|].
  apply step_datagram; [apply toy_env_ok|apply toy_hello_bytes].
Qed.

Lemma daemon_reachable_inv_witness : daemon_inv toy_validated toy_live /\ by_id (d_sessions toy_live) !! 42 = Some 0.
Proof. split; [apply daemon_reachable_inv, toy_live_reachable|vm_compute; reflexivity]. Defined.

Lemma tun_writes_are_authenticated_witness :
  exists q s, find_session_by_id toy_live 42 = Some (q, s) /\ rs_client_address s = ipv4_new 10 77 0 2.
Proof.
  destruct (tun_writes_are_authenticated toy_env toy_validated toy_live toy_up toy_peer None toy_ip toy_live_reachable
    toy_env_ok toy_up_bytes) as (wire & dg & q & s & padding & ip & (payload & Hu & Hdg) & Hacc & Hp & _ & Hsrc & _).
  - assert (H : (receive_datagram toy_env toy_validated toy_live toy_up toy_peer None).2 = [TunSend toy_ip])
      by (vm_compute; reflexivity). rewrite H. left.
  - exists q, s. destruct Hacc as (Hfind & _).
    assert (Hin : (decode_wire_into (clock toy_env) toy_validated (d_world toy_live) (d_router toy_live) toy_up).2 =
      Ok (WireMode.Legacy, toy_up)) by (vm_compute; reflexivity).
    rewrite Hin in Hu. injection Hu as <- <-.
    assert (Hid : (match Datagram.decode toy_up with Ok dg => Header.session_id (Datagram.header dg) | _ => 0 end) = 42)
      by (vm_compute; reflexivity).
    rewrite Hdg in Hid. rewrite Hid in Hfind. split; [exact Hfind|].
    rewrite <- Hsrc. assert (Hs : match Ipv4Packet.parse toy_ip with Ok ip => Ipv4Packet.source ip | _ => 0 end =
      ipv4_new 10 77 0 2) by (vm_compute; reflexivity). rewrite Hp in Hs. exact Hs.
Defined.

Lemma endpoint_moves_only_authenticated_witness :
  exists s', d_heap (receive_datagram toy_env toy_validated toy_live toy_up toy_roamed None).1 !! 0 = Some s' /\
    rs_peer s' = toy_roamed.
Proof.
  destruct (d_heap toy_live !! 0) as [s|] eqn:Hs.
  - destruct (endpoint_moves_only_authenticated toy_env toy_validated toy_live toy_up toy_roamed None 0 s
      toy_live_reachable toy_env_ok toy_up_bytes Hs) as (s' & Hs' & _).
    exists s'. split; [exact Hs'|].
    assert (H : match d_heap (receive_datagram toy_env toy_validated toy_live toy_up toy_roamed None).1 !! 0 with
      | Some s => rs_peer s | None => toy_peer end = toy_roamed) by (vm_compute; reflexivity).
    rewrite Hs' in H. exact H.
  - exfalso. assert (H : match d_heap toy_live !! 0 with Some _ => true | None => false end = true)
      by (vm_compute; reflexivity). rewrite Hs in H. discriminate H.
Defined.

Lemma handshake_installs_only_registered_witness :
  exists k s, d_heap toy_live !! 0 = Some s /\ session_key s = k /\
    by_address (d_sessions toy_live) !! rs_client_address s = Some 0.
Proof.
  destruct (handshake_installs_only_registered toy_env toy_validated toy_start toy_hello toy_peer None
    toy_start_reachable toy_env_ok toy_hello_bytes) as [H|(wire & dg & k & s & _ & Hest & Hs & _ & Ha & _)].
  - exfalso. apply (f_equal (fun t => by_id t !! 42)) in H. vm_compute in H. discriminate H.
  - exists k, s. destruct Hest as (hs & lease & _ & _ & _ & Hk & _).
    split; [exact Hs|]. split; [exact Hk|exact Ha].
Defined.

Definition toy_init : Datagram.t :=
  Datagram.mk (Header.mk PacketKind.HandshakeInit 0 42 0) (public_key (toy_client_key 1)).

Definition toy_answer : bytes :=
  match (handle_handshake toy_env toy_validated toy_start toy_peer toy_init WireMode.Legacy).2 with
  | [SendTo b _] => b
  | _ => []
  end.

Lemma toy_hello_unwraps e d : clock e = Some 1000 -> d_router d = MorphRouter_default \/ d_router d = d_router toy_live ->
  d_world d = toy_opened -> unwraps e toy_validated d toy_hello WireMode.Legacy toy_init.
Proof. intros He Hr Hw. exists toy_hello. rewrite He, Hw. by destruct Hr as [-> | ->]; split; vm_compute. Qed.

Definition toy_busy : daemon := (receive_datagram toy_env toy_validated toy_live toy_up toy_peer None).1.

Lemma toy_meanwhile : meanwhile toy_validated (public_key (toy_client_key 1)) (Datagram.payload toy_init) toy_live toy_busy.
Proof.
  apply mw_datagram; [apply mw_nothing|apply toy_env_ok|apply toy_up_bytes|].
  intros wire dg (payload & Hp & Hd) (Hk & _). vm_compute in Hp. injection Hp as <- <-. vm_compute in Hd. injection Hd as <-. discriminate Hk.
Qed.

(** The client sends a packet, moves, and repeats its handshake. *)
Lemma repeated_handshake_is_idempotent_witness :
  exists d3 out, receive_datagram toy_env toy_validated toy_busy toy_hello toy_roamed None = (d3, out) /\
    d_sessions d3 = d_sessions toy_busy /\ out = [SendTo toy_answer toy_roamed].
Proof.
  assert (Hout : (receive_datagram toy_env toy_validated toy_start toy_hello toy_peer None).2 = [SendTo toy_answer toy_peer]) by (vm_compute; reflexivity).
  assert (H1 : receive_datagram toy_env toy_validated toy_start toy_hello toy_peer None = (toy_live, [SendTo toy_answer toy_peer])).
  { rewrite <- Hout. apply surjective_pairing. }
  destruct (repeated_handshake_is_idempotent toy_env toy_validated toy_start toy_hello toy_peer None WireMode.Legacy toy_init toy_live toy_answer)
    as (k & handshake & answer & Hread & Henc & Hrep).
  - apply toy_hello_unwraps; [reflexivity|left; reflexivity|reflexivity].
  - reflexivity.
  - exact H1.
  - assert (Hk : k = public_key (toy_client_key 1)) by (vm_compute in Hread; injection Hread as _ <-; reflexivity).
    specialize (Hrep toy_busy ltac:(rewrite Hk; apply toy_meanwhile) toy_env toy_hello toy_roamed None WireMode.Legacy toy_init).
    destruct (receive_datagram toy_env toy_validated toy_busy toy_hello toy_roamed None) as [d3 out] eqn:E.
    destruct Hrep as (Hs & _ & _ & _ & _ & Ho).
    + exists toy_hello. split; vm_compute; reflexivity.
    + reflexivity.
    + reflexivity.
    + exists handshake. exact Hread.
    + exists d3, out. split; [reflexivity|]. split; [exact Hs|].
      assert (Ho' : (receive_datagram toy_env toy_validated toy_busy toy_hello toy_roamed None).2 = [SendTo toy_answer toy_roamed]) by (vm_compute; reflexivity).
      rewrite E in Ho'. exact Ho'.
Defined.

(** The server remembers the last handshake of a device only: when the client has made a
    newer one, the repetition of the old one is a handshake of its own, which takes the
    place of the client's session. *)
Example old_handshake_replaces_session :
  let newer := Datagram.encode (Datagram.mk (Header.mk PacketKind.HandshakeInit 0 43 0) (public_key (toy_client_key 1) ++ [1])) in
  let d := (receive_datagram toy_env toy_validated toy_live newer toy_peer None).1 in
  let d' := (receive_datagram toy_env toy_validated d toy_hello toy_roamed None).1 in
  by_id (d_sessions d) !! 43 <> None /\ by_id (d_sessions d') !! 43 = None /\ by_id (d_sessions d') !! 42 <> None.
Proof. vm_compute. done. Qed.

Lemma downlink_reaches_only_the_owner_witness :
  exists q s item, downlink toy_env toy_live toy_down q s item /\ d_batch (worker_packet toy_env toy_live toy_down).1 = [item].
Proof.
  assert (Hb : length (d_batch (worker_packet toy_env toy_live toy_down).1) = 1%nat) by (vm_compute; reflexivity).
  destruct (downlink_reaches_only_the_owner toy_env toy_validated toy_live toy_down toy_live_reachable toy_env_ok)
    as [H|(q & s & item & s' & Hd & Hbatch & _)].
  - exfalso. rewrite H in Hb. vm_compute in Hb. discriminate Hb.
  - exists q, s, item. split; [exact Hd|exact Hbatch].
Defined.

Lemma daemon_never_panics_witness :
  Crashed ∉ (receive_datagram toy_env toy_validated toy_live toy_up toy_peer None).2 /\
  (receive_datagram toy_env toy_validated toy_live toy_up toy_peer None).2 = [TunSend toy_ip].
Proof.
  split; [|vm_compute; reflexivity].
  apply (daemon_never_panics toy_validated toy_live
    (receive_datagram toy_env toy_validated toy_live toy_up toy_peer None).1 _ toy_live_reachable).
  apply step_datagram; [apply toy_env_ok|apply toy_up_bytes].
Defined.

Lemma revocation_silences_device_witness :
  exists w', revoke true (d_world toy_live) (public_key (toy_client_key 1)) = (w', Ok true) /\
    worker_packet toy_env (set_world toy_live w') toy_down = (set_world toy_live w', []).
Proof.
  destruct (revoke true (d_world toy_live) (public_key (toy_client_key 1))) as [w' out] eqn:Hrev.
  assert (Hout : match (revoke true (d_world toy_live) (public_key (toy_client_key 1))).2 with Ok b => b | _ => false end
    = true) by (vm_compute; reflexivity).
  rewrite Hrev in Hout. destruct out as [[]|e|]; try discriminate Hout.
  exists w'. split; [reflexivity|].
  destruct (revocation_silences_device toy_validated toy_live true (public_key (toy_client_key 1)) w'
    toy_live_reachable Hrev) as [Hsess _].
  destruct (find_session_by_address toy_live (ipv4_new 10 77 0 2)) as [[q s]|] eqn:Hf.
  - destruct (find_address_heap _ _ _ _ Hf) as [_ Hq].
    destruct (Hsess q s Hq) as [_ Hdown].
    { assert (Hk : match find_session_by_address toy_live (ipv4_new 10 77 0 2) with Some (_, s) => session_key s | None => [] end
        = public_key (toy_client_key 1)) by (vm_compute; reflexivity). rewrite Hf in Hk. exact Hk. }
    assert (Hdest : Ipv4Packet.destination (ipv4_view toy_down) = ipv4_new 10 77 0 2) by (vm_compute; reflexivity).
    assert (Hp : Ipv4Packet.parse toy_down = Ok (ipv4_view toy_down)) by (vm_compute; reflexivity).
    refine (Hdown toy_env toy_down (ipv4_view toy_down) Hp _). rewrite Hdest, find_address_world. exact Hf.
  - exfalso. assert (H : match find_session_by_address toy_live (ipv4_new 10 77 0 2) with Some _ => true | None => false end
      = true) by (vm_compute; reflexivity). rewrite Hf in H. discriminate H.
Defined.

End ToyDaemon.
