(* ===== verification/Liveness.v ===== *)
(** * Session liveness of the Linux and Windows clients

    crates/linux-client/src/liveness.rs and crates/windows-client/src/liveness.rs: when
    to send a keepalive and when to reconnect.  The two clients share the record and
    most operations and differ in their intervals and in what a received packet resets;
    [Section Policy] holds the common code, [Module Linux] and [Module Windows] the
    rest.  Instants and durations are milliseconds, an instant counted from the earliest
    one the platform can represent.

    The theorem: during silence reconnect attempts are paced by the doubling backoff,
    whatever loss notifications arrive and whenever the route to the server is missing, and
    they never stop. *)

From S2P Require Import Prelude.

Module Action.

Inductive t := None | Keepalive | Reconnect.

#[global] Instance eq_dec : EqDecision t.
Proof. solve_decision. Defined.

End Action.

Definition MIN_RECONNECT_BACKOFF : Z := 1000.
Definition MAX_RECONNECT_BACKOFF : Z := 16000.

Record Liveness := mkLiveness {
  peer_activity : Z;
  heartbeat : Z;
  retry : option Z;
  backoff : Z;
  lost : bool;
}.

(** [Instant::checked_sub] *)
Definition checked_sub (now d : Z) : option Z := if d <=? now then Some (now - d) else None.

(** [Option::is_none_or(|last| now.duration_since(last) >= d)] *)
Definition none_or_elapsed (now : Z) (last : option Z) (d : Z) : bool :=
  match last with None => true | Some last => d <=? duration_since now last end.

Section Policy.
Context (KEEPALIVE_INTERVAL SESSION_TIMEOUT : Z).

Definition new (now : Z) : Liveness := mkLiveness now now None MIN_RECONNECT_BACKOFF false.

Definition action (s : Liveness) (now : Z) : Action.t :=
  if (SESSION_TIMEOUT <=? duration_since now (peer_activity s)) && none_or_elapsed now (retry s) (backoff s)
  then Action.Reconnect
  else if KEEPALIVE_INTERVAL <=? duration_since now (heartbeat s) then Action.Keepalive
  else Action.None.

Definition keepalive_sent (s : Liveness) (now : Z) : Liveness :=
  mkLiveness (peer_activity s) now (retry s) (backoff s) (lost s).

Definition reconnect_attempted (s : Liveness) (now : Z) : Liveness :=
  mkLiveness (peer_activity s) (heartbeat s) (Some now) (Z.min (backoff s * 2) MAX_RECONNECT_BACKOFF) (lost s).

(** The state and whether the loss is news. *)
Definition connection_lost (s : Liveness) (now : Z) : Liveness * bool :=
  if lost s then (s, false)
  else
    (mkLiveness (default now (checked_sub now SESSION_TIMEOUT)) (heartbeat s) None (backoff s) true, true).

Definition reconnected (s : Liveness) (now : Z) : Liveness := mkLiveness now now None MIN_RECONNECT_BACKOFF false.

End Policy.

Module Linux.

Definition KEEPALIVE_INTERVAL : Z := 10000.
Definition SESSION_TIMEOUT : Z := 20000.

Definition new : Z -> Liveness := new.
Definition action : Liveness -> Z -> Action.t := action KEEPALIVE_INTERVAL SESSION_TIMEOUT.
Definition connection_lost : Liveness -> Z -> Liveness * bool := connection_lost SESSION_TIMEOUT.

Definition packet_received (s : Liveness) (now : Z) : Liveness :=
  mkLiveness now (heartbeat s) None MIN_RECONNECT_BACKOFF false.

Definition network_unavailable (s : Liveness) (now : Z) : Liveness :=
  mkLiveness (peer_activity s) (heartbeat s) (Some now) MIN_RECONNECT_BACKOFF (lost s).

End Linux.

Module Windows.

Definition KEEPALIVE_INTERVAL : Z := 3000.
Definition SESSION_TIMEOUT : Z := 9000.

Definition action : Liveness -> Z -> Action.t := action KEEPALIVE_INTERVAL SESSION_TIMEOUT.

(** The backoff and the last attempt survive a packet here. *)
Definition packet_received (s : Liveness) (now : Z) : Liveness :=
  mkLiveness now (heartbeat s) (retry s) (backoff s) false.

Definition connection_lost (s : Liveness) (now : Z) : Liveness := (connection_lost SESSION_TIMEOUT s now).1.

End Windows.

(** ** Reconnecting during silence *)

(** What the loop does while the peer is silent and no attempt succeeds: it polls, and it
    may be told of the loss again.  When a poll of the Linux client is due to reconnect, the
    route to the server may be missing ([routed] is false): then nothing is attempted and
    the loop calls [network_unavailable].  The Windows client has no such case. *)
Inductive silent_event := Poll (t : Z) (routed : bool) | Loss (t : Z).

Definition event_time (e : silent_event) : Z := match e with Poll t _ | Loss t => t end.

Section Silence.
Context (KEEPALIVE_INTERVAL SESSION_TIMEOUT : Z).

(** The state, and a reconnect that was due: when, and whether it was attempted. *)
Definition silent_step (s : Liveness) (e : silent_event) : Liveness * list (Z * bool) :=
  match e with
  | Poll t routed =>
      match action KEEPALIVE_INTERVAL SESSION_TIMEOUT s t with
      | Action.Reconnect => (if routed then reconnect_attempted s t else Linux.network_unavailable s t, [(t, routed)])
      | Action.Keepalive => (keepalive_sent s t, [])
      | Action.None => (s, [])
      end
  | Loss t => ((connection_lost SESSION_TIMEOUT s t).1, [])
  end.

(** The reconnects that were due. *)
Fixpoint attempts (s : Liveness) (es : list silent_event) : list (Z * bool) :=
  match es with
  | [] => []
  | e :: es => let '(s, a) := silent_step s e in a ++ attempts s es
  end.

(** A reconnect waits at least [b] after the one before; behind an attempt the wait doubles
    up to its limit, behind a missing route it is the shortest. *)
Fixpoint paced (last : option Z) (b : Z) (due : list (Z * bool)) : Prop :=
  match due with
  | [] => True
  | (t, routed) :: due =>
      match last with Some l => b <= t - l | None => True end /\
      paced (Some t) (if routed then Z.min (2 * b) MAX_RECONNECT_BACKOFF else MIN_RECONNECT_BACKOFF) due
  end.

(** Events in order, starting at [t]. *)
Fixpoint ordered (t : Z) (es : list silent_event) : Prop :=
  match es with [] => True | e :: es => t <= event_time e /\ ordered (event_time e) es end.

Definition silent_since (s : Liveness) (t : Z) : Prop :=
  lost s = true /\ SESSION_TIMEOUT <= t - peer_activity s /\
  match retry s with Some l => l <= t | None => True end /\
  MIN_RECONNECT_BACKOFF <= backoff s <= MAX_RECONNECT_BACKOFF.

Lemma silent_later s t u : silent_since s t -> t <= u -> silent_since s u.
Proof. intros (Hl & Hs & Hr & Hb) Hu. repeat split; [done|lia|by destruct (retry s); [lia|]|apply Hb|apply Hb]. Qed.

(** A loss that is already known changes nothing. *)
Lemma silent_loss s t u : silent_since s t -> silent_step s (Loss u) = (s, []).
Proof. intros [Hl _]. unfold silent_step, connection_lost. by rewrite Hl. Qed.

Lemma silent_poll s t u (routed : bool) :
  silent_since s t -> t <= u ->
  let s1 := if routed then reconnect_attempted s u else Linux.network_unavailable s u in
  (none_or_elapsed u (retry s) (backoff s) = true /\ silent_step s (Poll u routed) = (s1, [(u, routed)]) /\ silent_since s1 u) \/
  (none_or_elapsed u (retry s) (backoff s) = false /\ exists s', silent_step s (Poll u routed) = (s', []) /\
   retry s' = retry s /\ backoff s' = backoff s /\ silent_since s' u).
Proof.
  intros (Hl & Hs & Hr & Hb) Hu. unfold silent_step, action.
  assert (Hdue : (SESSION_TIMEOUT <=? duration_since u (peer_activity s)) = true).
  { apply Z.leb_le. unfold duration_since, sat_sub. lia. }
  rewrite Hdue. unfold MIN_RECONNECT_BACKOFF, MAX_RECONNECT_BACKOFF in *.
  destruct (none_or_elapsed u (retry s) (backoff s)) eqn:He; cbn [andb].
  - left. split; [done|]. split; [done|].
    destruct routed; unfold silent_since, reconnect_attempted, Linux.network_unavailable, MIN_RECONNECT_BACKOFF, MAX_RECONNECT_BACKOFF;
      simpl; split_and!; try done; lia.
  - right. split; [done|].
    destruct (KEEPALIVE_INTERVAL <=? _); (eexists; split; [reflexivity|]; split; [done|split; [done|]];
      unfold silent_since, keepalive_sent; cbn [lost peer_activity retry backoff];
      split_and!; [done|lia|by destruct (retry s); [lia|]|apply Hb|apply Hb]).
Qed.

Lemma attempts_paced es : forall s t, silent_since s t -> ordered t es -> paced (retry s) (backoff s) (attempts s es).
Proof.
  induction es as [|[u routed|u] es IH]; intros s t Hs Ho; [done| |]; destruct Ho as [Hu Ho].
  - cbn [attempts event_time] in *. destruct (silent_poll s t u routed Hs Hu) as [(He & -> & Hs')|(_ & s' & -> & Hr & Hb & Hs')].
    + cbn [app]. split.
      * unfold none_or_elapsed, duration_since, sat_sub in He. destruct (retry s) as [l|] eqn:Hl; [|done].
        destruct Hs as (_ & _ & Hlast & Hback). rewrite Hl in Hlast. boolify. unfold MIN_RECONNECT_BACKOFF in *. lia.
      * specialize (IH _ u Hs' Ho). destruct routed; cbn [reconnect_attempted Linux.network_unavailable retry backoff] in IH; [by rewrite Z.mul_comm|exact IH].
    + cbn [app]. rewrite <- Hr, <- Hb. by apply (IH s' u).
  - cbn [attempts event_time] in *. rewrite (silent_loss s t u Hs). cbn [app]. apply (IH s u); [|done]. by eapply silent_later.
Qed.

(** At every poll a reconnect was due less than the longest backoff ago. *)
Lemma attempts_recent es : forall s t u routed, silent_since s t -> ordered t es -> Poll u routed ∈ es ->
  exists a, ((exists b, (a, b) ∈ attempts s es) \/ retry s = Some a) /\ a <= u < a + MAX_RECONNECT_BACKOFF.
Proof.
  induction es as [|e es IH]; intros s t u routed Hs Ho Hin; [by apply not_elem_of_nil in Hin|]. destruct Ho as [Hu Ho].
  cbn [attempts]. destruct e as [v b|v]; cbn [event_time] in *.
  - destruct (silent_poll s t v b Hs Hu) as [(He & -> & Hs')|(He & s' & -> & Hr & Hb & Hs')]; cbn [app].
    + apply elem_of_cons in Hin as [[= -> ->]|Hin].
      * exists v. split; [left; exists b; by left|]. unfold MAX_RECONNECT_BACKOFF. lia.
      * destruct (IH _ v u routed Hs' Ho Hin) as (a & [[b' Ha]|Ha] & Hau); exists a; (split; [|done]); left.
        -- exists b'. by right.
        -- exists b. assert (a = v) as -> by (destruct b; simpl in Ha; by injection Ha). left.
    + apply elem_of_cons in Hin as [[= -> ->]|Hin].
      * unfold none_or_elapsed, duration_since, sat_sub in He. destruct (retry s) as [l|] eqn:Hl; [|done]. boolify.
        exists l. split; [by right|]. destruct Hs as (_ & _ & Hlast & Hback). rewrite Hl in Hlast. lia.
      * rewrite <- Hr. by apply (IH s' v u routed).
  - rewrite (silent_loss s t v Hs). apply elem_of_cons in Hin as [?|Hin]; [done|]. cbn [app].
    apply (IH s v u routed); [by eapply silent_later|done|done].
Qed.

(** [C26] Reconnecting to a silent peer, for the Linux and the Windows intervals alike.  A
    loss that was not known yet is reported at [t] (the clock has run for at least a session
    timeout, and the backoff is within its limits of 1 and 16 seconds, 1 second in a fresh
    session); then the loop polls, is told of the loss again any number of times, and no
    attempt succeeds.  The first poll is due to reconnect at once.  Of the reconnects that
    are due, one that follows an attempt waits at least the backoff, doubled by each attempt
    up to 16 seconds; on Linux a missing route to the server makes the loop skip the attempt,
    and the next is due only a second later, with the backoff starting over.  And they never
    stop: at every poll one was due less than 16 seconds ago. *)
Theorem reconnects_are_paced_and_never_stop s t es :
  lost s = false -> MIN_RECONNECT_BACKOFF <= backoff s <= MAX_RECONNECT_BACKOFF -> SESSION_TIMEOUT <= t -> ordered t es ->
  let s' := (connection_lost SESSION_TIMEOUT s t).1 in
  let due := attempts s' es in
  paced None (backoff s) due /\
  (forall u routed, Poll u routed ∈ es -> exists a b, (a, b) ∈ due /\ a <= u < a + MAX_RECONNECT_BACKOFF) /\
  (forall u routed es', es = Poll u routed :: es' -> exists rest, due = (u, routed) :: rest).
Proof.
  intros Hl Hb Ht Ho s' due.
  assert (Hs : silent_since s' t).
  { unfold s', connection_lost, checked_sub. rewrite Hl. apply Z.leb_le in Ht. rewrite Ht. simpl.
    unfold silent_since, MIN_RECONNECT_BACKOFF, MAX_RECONNECT_BACKOFF in *. simpl. split_and!; try done; lia. }
  assert (Hr : retry s' = None /\ backoff s' = backoff s) by (unfold s', connection_lost; by rewrite Hl).
  destruct Hr as [Hr Hback]. split_and!.
  - rewrite <- Hr at 1. rewrite <- Hback. by eapply attempts_paced.
  - intros u routed Hu. destruct (attempts_recent es s' t u routed Hs Ho Hu) as (a & [[b Ha]|Ha] & Hau); [by exists a, b|congruence].
  - intros u routed es' ->. destruct Ho as [Hu Ho]. unfold due. cbn [attempts].
    destruct (silent_poll s' t u routed Hs Hu) as [(_ & -> & _)|(He & _)]; [by eexists|].
    rewrite Hr in He. discriminate He.
Qed.

End Silence.

(** Three attempts, a missing route, and the backoff from the start. *)
Definition toy_silence : list silent_event :=
  [Poll 30000 true; Poll 31000 true; Loss 31500; Poll 32000 true; Poll 35000 true; Poll 36000 true; Poll 44000 false; Poll 44900 true;
   Poll 45000 true; Poll 46000 true; Poll 47000 true].

Lemma reconnects_are_paced_and_never_stop_witness :
  attempts Linux.KEEPALIVE_INTERVAL Linux.SESSION_TIMEOUT (connection_lost Linux.SESSION_TIMEOUT (new 0) 30000).1 toy_silence =
    [(30000, true); (32000, true); (36000, true); (44000, false); (45000, true); (47000, true)] /\
  exists a, a <= 35000 < a + MAX_RECONNECT_BACKOFF.
Proof.
  split; [vm_compute; reflexivity|].
  destruct (reconnects_are_paced_and_never_stop Linux.KEEPALIVE_INTERVAL Linux.SESSION_TIMEOUT
    (new 0) 30000 toy_silence) as (_ & H & _).
  - reflexivity.
  - by vm_compute.
  - by vm_compute.
  - repeat split; by vm_compute.
  - destruct (H 35000 true) as (a & b & _ & Ha); [set_solver|]. exists a. exact Ha.
Defined.
