(* ===== verification/Packet.v ===== *)
(** * In-place editing of captured IP packets (Windows split tunnel)

    crates/windows-client/src/windivert/packet.rs: parsing of the IP header of a packet
    the capture driver hands over, reading its addresses and ports, rewriting an address
    and clamping the maximum segment size in a TCP handshake.  The borrowed buffer is a
    field of the packet, so an edit returns the packet with its new bytes; every index
    and slice of the code is checked, and out of range is [Panic].

    [None] of the code is [Err tt].  The theorem characterises the clamp against an
    inductive description of the option walk. *)

From S2P Require Import Prelude.

Module v4.
Definition PROTOCOL : Z := 9.
Definition SOURCE : Z := 12.
Definition DESTINATION : Z := 16.
Definition FRAGMENT : Z := 6.
Definition MIN_HEADER : Z := 20.
End v4.

Module v6.
Definition NEXT_HEADER : Z := 6.
Definition SOURCE : Z := 8.
Definition DESTINATION : Z := 24.
Definition HEADER : Z := 40.
End v6.

Definition PROTOCOL_TCP : Z := 6.
Definition PROTOCOL_UDP : Z := 17.
Definition FRAGMENT_OFFSET_MASK : Z := 0x1fff.

Module Version.

Inductive t := V4 | V6.

#[global] Instance eq_dec : EqDecision t.
Proof. solve_decision. Defined.

End Version.

Record Packet := mkPacket { data : bytes; header_length : Z; version : Version.t }.

Definition is_transport (protocol : Z) : bool := (protocol =? PROTOCOL_TCP) || (protocol =? PROTOCOL_UDP).

Definition parse (b : bytes) : res unit Packet :=
  first ← ok_or (get_opt b 0) tt;
  ver ← (if Z.shiftr first 4 =? 4 then Ok Version.V4
         else if Z.shiftr first 4 =? 6 then Ok Version.V6
         else Err tt);
  hl ← match ver with
       | Version.V4 =>
           first ← index b 0;
           let length := Z.land first 0x0f * 4 in
           if length <? v4.MIN_HEADER then Err tt else Ok length
       | Version.V6 =>
           next ← ok_or (get_opt b v6.NEXT_HEADER) tt;
           if is_transport next then Ok v6.HEADER else Err tt
       end;
  if hl <=? len b then Ok (mkPacket b hl ver) else Err tt.

Definition protocol {E} (p : Packet) : res E Z :=
  match version p with
  | Version.V4 => index (data p) v4.PROTOCOL
  | Version.V6 => index (data p) v6.NEXT_HEADER
  end.

Definition source_offset (p : Packet) : Z :=
  match version p with Version.V4 => v4.SOURCE | Version.V6 => v6.SOURCE end.

Definition destination_offset (p : Packet) : Z :=
  match version p with Version.V4 => v4.DESTINATION | Version.V6 => v6.DESTINATION end.

Definition address {E} (p : Packet) (offset : Z) : res E IpAddr :=
  match version p with
  | Version.V4 => octets ← slice (data p) offset (offset + 4); Ok (V4 (be_value octets))
  | Version.V6 => octets ← slice (data p) offset (offset + 16); Ok (V6 (be_value octets))
  end.

Definition source {E} (p : Packet) : res E IpAddr := address p (source_offset p).
Definition destination {E} (p : Packet) : res E IpAddr := address p (destination_offset p).

(** [bytes[offset..offset + src.len()].copy_from_slice(src)] *)
Definition write_at {E} (p : Packet) (offset : Z) (src : bytes) : res E Packet :=
  if decide (0 <= offset /\ offset + len src <= len (data p))
  then Ok (mkPacket (copy_at (data p) offset src) (header_length p) (version p))
  else Panic.

Definition set_address {E} (p : Packet) (offset : Z) (a : IpAddr) : res E (Packet * bool) :=
  match version p, a with
  | Version.V4, V4 a => p' ← write_at p offset (be_bytes 4 a); Ok (p', true)
  | Version.V6, V6 a => p' ← write_at p offset (be_bytes 16 a); Ok (p', true)
  | _, _ => Ok (p, false)
  end.

Definition set_source {E} (p : Packet) (a : IpAddr) : res E (Packet * bool) := set_address p (source_offset p) a.
Definition set_destination {E} (p : Packet) (a : IpAddr) : res E (Packet * bool) :=
  set_address p (destination_offset p) a.

Definition is_first_fragment {E} (p : Packet) : res E bool :=
  match version p with
  | Version.V4 =>
      hi ← index (data p) v4.FRAGMENT;
      lo ← index (data p) (v4.FRAGMENT + 1);
      Ok (Z.land (be_value [hi; lo]) FRAGMENT_OFFSET_MASK =? 0)
  | Version.V6 => Ok true
  end.

Definition ports (p : Packet) : res unit (Z * Z) :=
  proto ← protocol p;
  if negb (is_transport proto) then Err tt
  else
    first ← is_first_fragment p;
    if negb first then Err tt
    else
      transport ← ok_or (get_range (data p) (header_length p) (len (data p))) tt;
      a ← ok_or (get_opt transport 0) tt;
      b ← ok_or (get_opt transport 1) tt;
      c ← ok_or (get_opt transport 2) tt;
      d ← ok_or (get_opt transport 3) tt;
      Ok (be_value [a; b], be_value [c; d]).

Definition SYN : Z := 0x02.
Definition END_OF_OPTIONS : Z := 0.
Definition NO_OPERATION : Z := 1.
Definition MAXIMUM_SEGMENT_SIZE : Z := 2.
Definition MSS_LENGTH : Z := 4.

(** The [while index < end] loop of [clamp_mss]; [None] when the fuel is spent. *)
Fixpoint clamp_walk {E} (fuel : nat) (p : Packet) (limit idx stop : Z) : option (res E (Packet * bool)) :=
  match fuel with
  | O => None
  | S fuel =>
      if idx <? stop then
        match index (data p) idx with
        | Ok kind =>
            if kind =? END_OF_OPTIONS then Some (Ok (p, false))
            else if kind =? NO_OPERATION then clamp_walk fuel p limit (idx + 1) stop
            else
              match get_opt (data p) (idx + 1) with
              | None => Some (Ok (p, false))
              | Some length =>
                  if (length <? 2) || (stop <? idx + length) then Some (Ok (p, false))
                  else if (kind =? MAXIMUM_SEGMENT_SIZE) && (length =? MSS_LENGTH) then
                    Some
                      (hi ← index (data p) (idx + 2);
                       lo ← index (data p) (idx + 3);
                       if be_value [hi; lo] <=? limit then Ok (p, false)
                       else p' ← write_at p (idx + 2) (be_bytes 2 limit); Ok (p', true))
                  else clamp_walk fuel p limit (idx + length) stop
              end
        | Err e => Some (Err e)
        | Panic => Some Panic
        end
      else Some (Ok (p, false))
  end.

(** Every iteration moves past at least one byte of the packet, so its length is fuel
    enough. *)
Definition clamp_mss {E} (p : Packet) (limit : Z) : res E (Packet * bool) :=
  proto ← protocol p;
  if negb (proto =? PROTOCOL_TCP) then Ok (p, false)
  else
    first ← is_first_fragment p;
    if negb first then Ok (p, false)
    else
      match get_range (data p) (header_length p) (len (data p)) with
      | None => Ok (p, false)
      | Some transport =>
          if len transport <? 20 then Ok (p, false)
          else
            flags ← index transport 13;
            if Z.land flags SYN =? 0 then Ok (p, false)
            else
              word ← index transport 12;
              let data_offset := Z.shiftr word 4 * 4 in
              if (data_offset <=? 20) || (len transport <? data_offset) then Ok (p, false)
              else
                default Panic
                  (clamp_walk (S (length (data p))) p limit (header_length p + 20) (header_length p + data_offset))
      end.

(** ** Well-formed packets *)

(** The byte at an offset. *)
Definition at_ (b : bytes) (i : Z) : Z := nth (Z.to_nat i) b 0.

Definition wf (p : Packet) : Prop :=
  is_bytes (data p) /\ header_length p <= len (data p) /\
  match version p with Version.V4 => v4.MIN_HEADER <= header_length p | Version.V6 => header_length p = v6.HEADER end.

Lemma wf_header p : wf p -> 20 <= header_length p <= len (data p).
Proof. intros (_ & H & Hv). unfold v4.MIN_HEADER, v6.HEADER in Hv. destruct (version p); lia. Qed.

Lemma parse_cases b :
  is_bytes b -> parse b = Err tt \/ exists p, parse b = Ok p /\ data p = b /\ wf p.
Proof.
  intros Hb. unfold parse, get_opt, index. res_simpl. pose proof (len_nonneg b).
  destruct (decide (0 <= 0 < len b)) as [H0|]; [simpl ok_or; cbv iota beta|by left].
  destruct (Z.shiftr _ 4 =? 4).
  - case_if; [by left|]. case_if; [right|by left]. boolify. eexists. split; [done|]. split; [done|].
    repeat split; simpl; [done|lia|lia].
  - destruct (Z.shiftr _ 4 =? 6); [|by left]. unfold v6.NEXT_HEADER.
    destruct (decide (0 <= 6 < len b)); [simpl ok_or; cbv iota beta|by left].
    destruct (is_transport _); [|by left]. case_if; [right|by left]. boolify.
    eexists. split; [done|]. split; [done|]. repeat split; simpl; [done|lia].
Qed.

Lemma packet_parse_ok b p : is_bytes b -> parse b = Ok p -> data p = b /\ wf p.
Proof. intros Hb Hp. destruct (parse_cases b Hb) as [H|(q & H & Hd & Hw)]; rewrite Hp in H; [done|]. by injection H as ->. Qed.

(** Total readings of the fields of a well-formed packet. *)
Definition proto_of (p : Packet) : Z := match version p with Version.V4 => at_ (data p) 9 | Version.V6 => at_ (data p) 6 end.

Definition first_of (p : Packet) : bool :=
  match version p with
  | Version.V4 => Z.land (be_value [at_ (data p) 6; at_ (data p) 7]) FRAGMENT_OFFSET_MASK =? 0
  | Version.V6 => true
  end.

Definition addr_of (p : Packet) (offset : Z) : IpAddr :=
  match version p with
  | Version.V4 => V4 (be_value (sub_list (data p) offset (offset + 4)))
  | Version.V6 => V6 (be_value (sub_list (data p) offset (offset + 16)))
  end.

Lemma protocol_ok {E} p : wf p -> protocol (E := E) p = Ok (proto_of p).
Proof.
  intros Hw. pose proof (wf_header p Hw). unfold protocol, proto_of, at_, v4.PROTOCOL, v6.NEXT_HEADER.
  destruct (version p); by rewrite index_ok by lia.
Qed.

Lemma is_first_fragment_ok {E} p : wf p -> is_first_fragment (E := E) p = Ok (first_of p).
Proof.
  intros Hw. pose proof (wf_header p Hw). unfold is_first_fragment, first_of, at_, v4.FRAGMENT.
  destruct (version p); [|done]. by rewrite !index_ok by lia.
Qed.

Lemma address_ok {E} p off :
  wf p -> off = source_offset p \/ off = destination_offset p -> address (E := E) p off = Ok (addr_of p off).
Proof.
  intros (_ & Hl & Hv) Ho. unfold address, addr_of, source_offset, destination_offset in *.
  unfold v4.MIN_HEADER, v6.HEADER, v4.SOURCE, v4.DESTINATION, v6.SOURCE, v6.DESTINATION in *.
  destruct (version p); rewrite slice_ok by lia; done.
Qed.

Lemma source_ok {E} p : wf p -> source (E := E) p = Ok (addr_of p (source_offset p)).
Proof. intros. apply address_ok; auto. Qed.

Lemma destination_ok {E} p : wf p -> destination (E := E) p = Ok (addr_of p (destination_offset p)).
Proof. intros. apply address_ok; auto. Qed.

(** The ports of a well-formed packet, when it carries them. *)
Lemma ports_ok p :
  wf p ->
  ports p = if is_transport (proto_of p) && first_of p && (header_length p + 4 <=? len (data p))
            then Ok (be_value [at_ (data p) (header_length p); at_ (data p) (header_length p + 1)],
                     be_value [at_ (data p) (header_length p + 2); at_ (data p) (header_length p + 3)])
            else Err tt.
Proof.
  intros Hw. pose proof (wf_header p Hw) as Hh. unfold ports. rewrite (protocol_ok p Hw). res_simpl.
  destruct (is_transport (proto_of p)); [simpl negb; cbv iota|done].
  rewrite (is_first_fragment_ok p Hw). destruct (first_of p); [simpl negb; cbv iota|done].
  unfold get_range. rewrite decide_True by lia. simpl ok_or. cbv iota beta.
  assert (Hget : forall i, 0 <= i -> get_opt (sub_list (data p) (header_length p) (len (data p))) i =
    if header_length p + i <? len (data p) then Some (at_ (data p) (header_length p + i)) else None).
  { intros i Hi. unfold get_opt. rewrite len_sub_list by lia. unfold at_, sub_list.
    destruct (header_length p + i <? len (data p)) eqn:Hlt; boolify.
    - rewrite decide_True by lia. f_equal. rewrite !nth_lookup, lookup_take_lt, lookup_drop by lia.
      f_equal. f_equal. lia.
    - rewrite decide_False by lia. done. }
  rewrite !Hget by lia. rewrite Z.add_0_r. cbn [andb].
  destruct (header_length p + 4 <=? len (data p)) eqn:H4; boolify.
  - repeat (rewrite (proj2 (Z.ltb_lt _ _)) by lia; cbn [ok_or]; cbv iota beta). done.
  - repeat (case_if; cbn [ok_or]; cbv iota beta; [|done]). boolify. lia.
Qed.

Lemma write_at_ok {E} p off src :
  0 <= off -> off + len src <= len (data p) ->
  write_at (E := E) p off src = Ok (mkPacket (copy_at (data p) off src) (header_length p) (version p)).
Proof. intros. unfold write_at. by rewrite decide_True. Qed.

(** Same family, as [set_address] requires. *)
Definition same_family (p : Packet) (a : IpAddr) : bool :=
  match version p, a with Version.V4, V4 _ | Version.V6, V6 _ => true | _, _ => false end.

Definition octets_of (a : IpAddr) : bytes := match a with V4 a => be_bytes 4 a | V6 a => be_bytes 16 a end.

Lemma set_address_ok {E} p off a :
  wf p -> off = source_offset p \/ off = destination_offset p ->
  set_address (E := E) p off a =
    Ok (if same_family p a
        then (mkPacket (copy_at (data p) off (octets_of a)) (header_length p) (version p), true)
        else (p, false)).
Proof.
  intros (_ & Hl & Hv) Ho. unfold set_address, same_family, octets_of, source_offset, destination_offset in *.
  unfold v4.MIN_HEADER, v6.HEADER, v4.SOURCE, v4.DESTINATION, v6.SOURCE, v6.DESTINATION in *.
  destruct (version p) eqn:Hver, a; try done; rewrite write_at_ok, Hver by (rewrite ?len_be_bytes; lia); done.
Qed.

(** Bytes of a buffer after a write. *)
Lemma at_copy_lt b off src i : 0 <= i < off -> off <= len b -> at_ (copy_at b off src) i = at_ b i.
Proof.
  intros Hi Hoff. unfold at_, copy_at. rewrite !nth_lookup, lookup_app_l, lookup_take_lt; [done|lia|].
  rewrite length_take. unfold len in *. lia.
Qed.

Lemma at_copy_in b off src i :
  0 <= off <= i -> i < off + len src -> off <= len b -> at_ (copy_at b off src) i = at_ src (i - off).
Proof.
  intros Hi Hs Hoff. unfold at_, copy_at, len in *. rewrite !nth_lookup, lookup_app_r by (rewrite length_take; lia).
  rewrite length_take, lookup_app_l by lia. do 2 f_equal. lia.
Qed.

Lemma at_copy_ge b off src i :
  0 <= off -> off + len src <= i -> off + len src <= len b -> at_ (copy_at b off src) i = at_ b i.
Proof.
  intros Hi Hs Hoff. unfold at_, copy_at, len in *. rewrite !nth_lookup, lookup_app_r by (rewrite length_take; lia).
  rewrite length_take, lookup_app_r, lookup_drop by lia. do 2 f_equal. lia.
Qed.

Lemma is_bytes_copy_at b off src : is_bytes b -> is_bytes src -> is_bytes (copy_at b off src).
Proof. intros Hb Hs. unfold copy_at. rewrite !is_bytes_app. split_and!; [by apply Forall_take|done|by apply Forall_drop]. Qed.

Lemma at_u8 b i : is_bytes b -> u8 (at_ b i).
Proof. apply is_bytes_nth. Qed.

(** ** The option walk *)

(** From the option at [i] the walk reaches the one at [j] over options it skips. *)
Inductive walks (b : bytes) (stop : Z) : Z -> Z -> Prop :=
| walks_here i : walks b stop i i
| walks_nop i j : i < stop -> at_ b i = NO_OPERATION -> walks b stop (i + 1) j -> walks b stop i j
| walks_skip i j :
    i < stop -> at_ b i <> END_OF_OPTIONS -> at_ b i <> NO_OPERATION ->
    2 <= at_ b (i + 1) -> i + at_ b (i + 1) <= stop ->
    ~ (at_ b i = MAXIMUM_SEGMENT_SIZE /\ at_ b (i + 1) = MSS_LENGTH) ->
    walks b stop (i + at_ b (i + 1)) j -> walks b stop i j.

(** The option at [j] offers the segment size [v]. *)
Definition offers (b : bytes) (stop j v : Z) : Prop :=
  j + MSS_LENGTH <= stop /\ at_ b j = MAXIMUM_SEGMENT_SIZE /\ at_ b (j + 1) = MSS_LENGTH /\
  v = be_value [at_ b (j + 2); at_ b (j + 3)].

Lemma walks_le b stop i j : walks b stop i j -> i <= j.
Proof. induction 1; lia. Qed.

Lemma at_index {E} b i : 0 <= i < len b -> index (E := E) b i = Ok (at_ b i).
Proof. intros. by apply index_ok. Qed.

Lemma at_get b i : 0 <= i < len b -> get_opt b i = Some (at_ b i).
Proof. intros. unfold get_opt. by rewrite decide_True. Qed.

(** What the walk may return from [idx]: the packet as it was, when no offer it can reach
    exceeds the limit, or the packet with the first offer lowered to the limit. *)
Definition clamped (p : Packet) (limit stop idx : Z) (r : Packet * bool) : Prop :=
  (r = (p, false) /\ forall j v, walks (data p) stop idx j -> offers (data p) stop j v -> v <= limit) \/
  (exists j v, walks (data p) stop idx j /\ offers (data p) stop j v /\ limit < v /\
   r = (mkPacket (copy_at (data p) (j + 2) (be_bytes 2 limit)) (header_length p) (version p), true)).

Ltac option_consts := unfold END_OF_OPTIONS, NO_OPERATION, MAXIMUM_SEGMENT_SIZE, MSS_LENGTH in *.

Lemma clamped_stop p limit stop i :
  (stop <= i \/ at_ (data p) i = END_OF_OPTIONS \/
   (at_ (data p) i <> NO_OPERATION /\ (at_ (data p) (i + 1) < 2 \/ stop < i + at_ (data p) (i + 1))) \/
   (at_ (data p) i = MAXIMUM_SEGMENT_SIZE /\ at_ (data p) (i + 1) = MSS_LENGTH /\
    be_value [at_ (data p) (i + 2); at_ (data p) (i + 3)] <= limit)) ->
  clamped p limit stop i (p, false).
Proof.
  intros H. left. split; [done|]. intros j v Hw Ho. destruct Ho as (Hj & Hk & Hl & ->).
  inversion Hw; subst; option_consts; lia.
Qed.

Lemma clamped_step p limit stop i i' r :
  (forall j v, offers (data p) stop j v -> (walks (data p) stop i j <-> walks (data p) stop i' j)) ->
  clamped p limit stop i' r -> clamped p limit stop i r.
Proof.
  intros Hiff [[-> H]|(j & v & Hw & Ho & Hv & ->)].
  - left. split; [done|]. intros j v Hw Ho. eapply H; [|done]. by eapply Hiff.
  - right. exists j, v. split_and!; try done. by eapply Hiff.
Qed.

Lemma clamp_walk_spec {E} fuel p limit stop : stop <= len (data p) ->
  forall idx, 0 <= idx -> Z.max 0 (stop - idx) < Z.of_nat fuel ->
  exists r, clamp_walk (E := E) fuel p limit idx stop = Some (Ok r) /\ clamped p limit stop idx r.
Proof.
  intros Hstop. induction fuel as [|fuel IH]; intros idx Hi Hf; [lia|].
  cbn [clamp_walk]. destruct (idx <? stop) eqn:Hlt; boolify.
  2:{ eexists; split; [done|]. apply clamped_stop. lia. }
  rewrite at_index by lia. destruct (_ =? END_OF_OPTIONS) eqn:Hend; boolify.
  { eexists; split; [done|]. apply clamped_stop. auto. }
  destruct (_ =? NO_OPERATION) eqn:Hnop; boolify.
  { destruct (IH (idx + 1)) as (r & -> & Hr); [lia|lia|]. exists r. split; [done|].
    revert Hr. apply clamped_step. intros j v (_ & Hk & _). split; [|by apply walks_nop].
    inversion 1; subst; [option_consts; lia|done|done]. }
  destruct (decide (idx + 1 < len (data p))) as [H1|H1].
  2:{ unfold get_opt. rewrite decide_False by lia. eexists; split; [done|]. left. split; [done|].
      intros j v Hw (? & _). inversion Hw; subst; option_consts; lia. }
  rewrite at_get by lia. destruct ((_ <? 2) || _) eqn:Hbad; boolify.
  { eexists; split; [done|]. apply clamped_stop. right; right; left. split; [done|].
    apply orb_true_iff in Hbad as [?%Z.ltb_lt|?%Z.ltb_lt]; lia. }
  destruct ((_ =? MAXIMUM_SEGMENT_SIZE) && _) eqn:Hmss; boolify.
  - option_consts. rewrite !at_index by lia. res_simpl. destruct (_ <=? limit) eqn:Hv; boolify.
    + eexists; split; [done|]. apply clamped_stop. option_consts. lia.
    + rewrite write_at_ok by (rewrite ?len_be_bytes; lia). eexists; split; [done|]. right.
      eexists _, _. split; [apply walks_here|]. split; [|split; [exact Hv|done]].
      unfold offers; option_consts. lia.
  - assert (Hno : ~ (at_ (data p) idx = MAXIMUM_SEGMENT_SIZE /\ at_ (data p) (idx + 1) = MSS_LENGTH)).
    { intros [A B]. rewrite A, B in Hmss. discriminate Hmss. }
    destruct (IH (idx + at_ (data p) (idx + 1))) as (r & -> & Hr); [lia|lia|]. exists r. split; [done|].
    revert Hr. apply clamped_step. intros j v (_ & Hk & Hl & _). split; [|by apply walks_skip].
    inversion 1; subst; [by destruct Hno|done|done].
Qed.

(** The walk meets the same first offer after that offer was rewritten. *)
Lemma walks_first b b' stop i j :
  walks b stop i j -> 0 <= i -> at_ b j = MAXIMUM_SEGMENT_SIZE -> at_ b (j + 1) = MSS_LENGTH ->
  (forall k, 0 <= k < j + 2 -> at_ b' k = at_ b k) ->
  forall j' v, walks b' stop i j' -> offers b' stop j' v -> j' = j.
Proof.
  induction 1 as [i|i j Hlt Hk Hw IH|i j Hlt Hk0 Hk1 Hl Hs Hno Hw IH]; intros Hi Hj Hj1 Heq j' v Hw' Ho.
  - pose proof (Heq i) as E0. pose proof (Heq (i + 1)) as E1.
    inversion Hw'; subst; [done| |]; option_consts; lia.
  - pose proof (walks_le _ _ _ _ Hw). rewrite <- (Heq i) in Hk by lia.
    inversion Hw'; subst; [destruct Ho as (_ & Hk' & _); option_consts; lia| |done].
    eapply IH; eauto with lia.
  - pose proof (walks_le _ _ _ _ Hw). assert (E0 : at_ b' i = at_ b i) by (apply Heq; lia).
    assert (E1 : at_ b' (i + 1) = at_ b (i + 1)) by (apply Heq; lia). destruct Ho as (Ho1 & Ho2 & Ho3 & Ho4).
    inversion Hw' as [|? ? ? ? Hrest|? ? ? ? ? ? ? ? Hrest]; subst; [option_consts; lia|option_consts; lia|].
    rewrite E1 in Hrest. eapply IH; eauto with lia. by repeat split.
Qed.

(** The packet opens a TCP connection and carries options in [start, stop). *)
Definition handshake_options (p : Packet) (start stop : Z) : Prop :=
  proto_of p = PROTOCOL_TCP /\ first_of p = true /\ header_length p + 20 <= len (data p) /\
  Z.land (at_ (data p) (header_length p + 13)) SYN <> 0 /\
  start = header_length p + 20 /\ stop = header_length p + 4 * (at_ (data p) (header_length p + 12) / 16) /\
  start < stop <= len (data p).

Lemma at_sub_list b a i : 0 <= a -> 0 <= i -> a + i < len b -> at_ (sub_list b a (len b)) i = at_ b (a + i).
Proof.
  intros. unfold at_, sub_list. rewrite !nth_lookup, lookup_take_lt, lookup_drop by lia. do 2 f_equal. lia.
Qed.

Lemma clamp_mss_cases {E} p limit :
  wf p -> exists r, clamp_mss (E := E) p limit = Ok r /\
  ((exists start stop, handshake_options p start stop /\ clamped p limit stop start r) \/
   (r = (p, false) /\ forall start stop, ~ handshake_options p start stop)).
Proof.
  intros Hw. pose proof (wf_header p Hw) as Hh. unfold clamp_mss, handshake_options.
  rewrite (protocol_ok p Hw), (is_first_fragment_ok p Hw). res_simpl.
  destruct (proto_of p =? PROTOCOL_TCP) eqn:Hp; boolify; cbn [negb]; [|eexists; split; [done|]; right; naive_solver].
  destruct (first_of p); cbn [negb]; [|eexists; split; [done|]; right; naive_solver].
  unfold get_range. rewrite decide_True, len_sub_list by lia.
  destruct (_ <? 20) eqn:H20; boolify; [eexists; split; [done|]; right; split; [done|]; intros ? ?; lia|].
  rewrite !at_index, !at_sub_list by (rewrite ?len_sub_list; lia).
  destruct (Z.land _ SYN =? 0) eqn:Hsyn; boolify; [eexists; split; [done|]; right; naive_solver|].
  rewrite Z.shiftr_div_pow2 by lia. change (2 ^ 4) with 16.
  destruct (_ || _) eqn:Hoff.
  - eexists; split; [done|]. right. split; [done|]. intros ? ?. apply orb_true_iff in Hoff as [?%Z.leb_le|?%Z.ltb_lt]; lia.
  - boolify. destruct (clamp_walk_spec (E := E) (S (length (data p))) p limit
      (header_length p + at_ (data p) (header_length p + 12) / 16 * 4) ltac:(lia) (header_length p + 20))
      as (r & -> & Hr); [lia|unfold len in *; lia|]. simpl default. exists r. split; [done|]. left.
    eexists _, _. split; [|exact Hr]. split_and!; try done; lia.
Qed.

(** Clamping changes nothing before the options. *)
Lemma clamp_mss_edit {E} p limit :
  wf p -> exists p' c, clamp_mss (E := E) p limit = Ok (p', c) /\ header_length p' = header_length p /\
  version p' = version p /\ len (data p') = len (data p) /\ is_bytes (data p') /\
  forall i, 0 <= i < header_length p + 20 -> at_ (data p') i = at_ (data p) i.
Proof.
  intros Hw. pose proof (wf_header p Hw). destruct Hw as (Hb & Hl & Hv).
  destruct (clamp_mss_cases (E := E) p limit (conj Hb (conj Hl Hv))) as ([p' c] & -> & Hr). exists p', c. split; [done|].
  destruct Hr as [(start & stop & Hh & [[[= -> ->] _]|(j & v & Hwalk & Ho & _ & Heq)])|[[= -> ->] _]]; [done| |done].
  inversion Heq; subst p' c; clear Heq. pose proof (walks_le _ _ _ _ Hwalk).
  assert (header_length p + 20 <= j /\ j + 4 <= len (data p)) as [Hj1 Hj2].
  { destruct Ho as (? & _). unfold MSS_LENGTH, handshake_options in *. lia. }
  cbn [data header_length version]. split_and!; try done.
  - apply len_copy_at; len_lia.
  - apply is_bytes_copy_at; [done|apply (be_bytes_is_bytes 2 limit)].
  - intros i Hi. apply at_copy_lt; lia.
Qed.

(** Writing past the fixed TCP header leaves what the walk depends on. *)
Lemma handshake_options_copy p off src start stop :
  wf p -> header_length p + 20 <= off -> off + len src <= len (data p) ->
  handshake_options (mkPacket (copy_at (data p) off src) (header_length p) (version p)) start stop ->
  handshake_options p start stop.
Proof.
  intros Hw Hoff Hl. pose proof (wf_header p Hw) as Hh. unfold handshake_options, proto_of, first_of.
  cbn [data header_length version]. rewrite !len_copy_at, !at_copy_lt by len_lia. done.
Qed.

(** Lowering the segment size of a TCP handshake, for every well-formed packet: the
    walk over the options always ends and never leaves the packet; afterwards the first
    size the handshake offers is at most the limit; when nothing was rewritten the packet
    is as it was, and when something was, it is exactly the two bytes of an offer that
    exceeded the limit, which now hold the limit. *)
Theorem clamp_mss_caps_handshake p limit :
  wf p -> u16 limit ->
  exists p' changed, clamp_mss (E := unit) p limit = Ok (p', changed) /\
  (forall start stop j v, handshake_options p' start stop -> walks (data p') stop start j ->
   offers (data p') stop j v -> v <= limit) /\
  (changed = false -> p' = p) /\
  (changed = true -> exists start stop j v, handshake_options p start stop /\
   walks (data p) stop start j /\ offers (data p) stop j v /\ limit < v /\
   p' = mkPacket (copy_at (data p) (j + 2) (be_bytes 2 limit)) (header_length p) (version p)).
Proof.
  intros Hw Hu. destruct (clamp_mss_cases (E := unit) p limit Hw) as ([p' c] & -> & Hr). exists p', c. split; [done|].
  destruct Hr as [(start & stop & Hh & [[[= -> ->] H]|(j & v & Hwalk & Ho & Hv & [= -> ->])])|[[= -> ->] H]].
  - split_and!; [|done|done]. intros s e j v Hs. 
    destruct Hh as (_ & _ & _ & _ & -> & -> & _), Hs as (_ & _ & _ & _ & -> & -> & _). apply H.
  - split_and!; [|done|by exists start, stop, j, v].
    pose proof (wf_header p Hw). pose proof (walks_le _ _ _ _ Hwalk).
    destruct Ho as (Hj & Hk & Hl & _). unfold MSS_LENGTH in Hj.
    assert (Hb : header_length p + 20 <= j /\ stop <= len (data p)) by (unfold handshake_options in Hh; lia).
    intros s e j' v' Hs Hw' Ho'. apply (handshake_options_copy p (j + 2) (be_bytes 2 limit)) in Hs; [|done|lia|len_lia].
    destruct Hh as (_ & _ & _ & _ & -> & -> & _), Hs as (_ & _ & _ & _ & -> & -> & _).
    cbn [data] in *. assert (j' = j) as ->.
    { eapply (walks_first (data p)); [exact Hwalk|lia|done|done| |exact Hw'|exact Ho'].
      intros k Hk'. apply at_copy_lt; lia. }
    destruct Ho' as (_ & _ & _ & ->). rewrite !at_copy_in by len_lia.
    replace (j + 2 - (j + 2)) with 0 by lia. replace (j + 3 - (j + 2)) with 1 by lia.
    change (be_value (be_bytes 2 limit) <= limit). rewrite be_value_bytes, Z.mod_small; [lia|]. exact Hu.
  - split_and!; [|done|done]. intros s e j v Hs. by destruct (H s e).
Qed.

Module ToyPacket.

(** An IPv4 SYN with a window scale option, padding and a segment size. *)
Definition syn_with_mss (mss : Z) : bytes :=
  [0x45; 0; 0; 48; 0; 0; 0; 0; 64; 6; 0; 0; 192; 168; 0; 189; 1; 1; 1; 1] ++
  [199; 56; 1; 187; 0; 0; 0; 0; 0; 0; 0; 0; 0x70; 0x02; 0; 0; 0; 0; 0; 0] ++
  [3; 3; 7; 1; 2; 4] ++ be_bytes 2 mss.

Definition syn : Packet := mkPacket (syn_with_mss 1460) 20 Version.V4.

Lemma syn_wf : wf syn.
Proof. split; [apply is_bytes_check; reflexivity|]. by vm_compute. Qed.

Lemma clamp_mss_caps_handshake_witness :
  parse (syn_with_mss 1460) = Ok syn /\
  exists p', clamp_mss (E := unit) syn 1240 = Ok (p', true) /\ data p' = syn_with_mss 1240 /\
  forall start stop j v, handshake_options p' start stop -> walks (data p') stop start j ->
    offers (data p') stop j v -> v <= 1240.
Proof.
  split; [vm_compute; reflexivity|].
  destruct (clamp_mss_caps_handshake syn 1240 syn_wf ltac:(by vm_compute)) as (p' & c & Hc & H & _).
  assert (Hr : clamp_mss (E := unit) syn 1240 = Ok (mkPacket (syn_with_mss 1240) 20 Version.V4, true))
    by (vm_compute; reflexivity).
  rewrite Hr in Hc. injection Hc as <- <-. eexists. split; [exact Hr|]. split; [reflexivity|exact H].
Defined.

End ToyPacket.
