(* ===== verification/Flow.v ===== *)
(** * Which process owns a flow (Windows split tunnel)

    crates/windows-client/src/windivert/flow.rs with the event structure of
    windivert/mod.rs and the path and policy helpers of lib.rs: the driver reports
    connects, established flows and their end; each is decoded to a five-tuple and
    classified by the executable of its process, and the answer is kept in a table the
    packet path reads.

    The driver fills the event ([Address]), and Windows answers the process queries
    ([OS]): both are inputs of the definitions.  The two watchers (socket and flow layer)
    share the table, the classifier and a count, so a run is an interleaving of their
    events.  The theorems: a classification is about the process that owns the flow even
    though process ids are reused and answers are cached; and a decision made for a flow
    stays until the flow ends or is decided again. *)

From S2P Require Import Prelude.

(** ** Paths (lib.rs) *)

Definition to_lower (c : Z) : Z := if (65 <=? c) && (c <=? 90) then c + 32 else c.

(** [str::eq_ignore_ascii_case] *)
Definition paths_equal (a b : str) : bool := bool_decide (map to_lower a = map to_lower b).

(** [str::strip_prefix] *)
Fixpoint strip_prefix (prefix s : str) : option str :=
  match prefix, s with
  | [], s => Some s
  | a :: prefix, b :: s => if a =? b then strip_prefix prefix s else None
  | _ :: _, [] => None
  end.

Lemma strip_prefix_app prefix s : strip_prefix prefix (prefix ++ s) = Some s.
Proof. induction prefix as [|c prefix IH]; [done|]. cbn. by rewrite Z.eqb_refl. Qed.

Lemma strip_prefix_some prefix s rest : strip_prefix prefix s = Some rest -> s = prefix ++ rest.
Proof.
  revert s. induction prefix as [|c prefix IH]; intros [|d s]; cbn; try done; [by intros [= ->]..|].
  destruct (Z.eqb_spec c d) as [->|]; [|done]. by intros ->%IH.
Qed.

Definition normalize_windows_path (path : str) : str :=
  let value := map (fun c => if c =? 47 then 92 else c) path in
  match strip_prefix (ascii_bytes "\\?\UNC\") value with
  | Some value => ascii_bytes "\\" ++ value
  | None =>
      match strip_prefix (ascii_bytes "\\?\") value with
      | Some value => value
      | None => value
      end
  end.

Module AppRoutingMode.

Inductive t := Exclude | Include.

#[global] Instance eq_dec : EqDecision t.
Proof. solve_decision. Defined.

End AppRoutingMode.

Record AppRoutingPolicy := mkPolicy { mode : AppRoutingMode.t; apps : list str; package_sids : list str }.

Definition is_per_application (p : AppRoutingPolicy) : bool :=
  bool_decide (mode p = AppRoutingMode.Include) || negb (bool_decide (apps p = [])) ||
  negb (bool_decide (package_sids p = [])).

(** ** Events of the driver (windivert/mod.rs) *)

Definition LAYER_NETWORK : Z := 0.
Definition LAYER_FLOW : Z := 2.
Definition LAYER_SOCKET : Z := 3.
Definition EVENT_FLOW_ESTABLISHED : Z := 1.
Definition EVENT_FLOW_DELETED : Z := 2.
Definition EVENT_SOCKET_CONNECT : Z := 4.
Definition EVENT_SOCKET_CLOSE : Z := 7.

Record Address := mkAddress { timestamp : Z; bitfield : Z; reserved : Z; payload : bytes }.

Definition words := (Z * Z * Z * Z)%type.

Record FlowData := mkFlowData {
  endpoint_id : Z;
  parent_endpoint_id : Z;
  process_id : Z;
  local_addr : words;
  remote_addr : words;
  local_port : Z;
  remote_port : Z;
  protocol : Z;
}.

Definition zeroed : Address := mkAddress 0 0 0 (zeros 64).

(** The integer of [n] bytes at [off], in the little-endian order of the target. *)
Definition read_le (p : bytes) (off n : Z) : Z := be_value (rev (sub_list p off (off + n))).

Definition read_words (p : bytes) (off : Z) : words :=
  (read_le p off 4, read_le p (off + 4) 4, read_le p (off + 8) 4, read_le p (off + 12) 4).

Definition for_inbound (interface_index sub_interface_index : Z) : Address :=
  mkAddress 0 LAYER_NETWORK 0
    (copy_at (zeros 64) 0 (rev (be_bytes 4 interface_index) ++ rev (be_bytes 4 sub_interface_index))).

Definition layer (a : Address) : Z := Z.land (bitfield a) 0xFF.
Definition event (a : Address) : Z := Z.land (Z.shiftr (bitfield a) 8) 0xFF.
Definition ipv6 (a : Address) : bool := Z.land (Z.shiftr (bitfield a) 20) 1 =? 1.

(** The union read as its C layout lays it out. *)
Definition flow (a : Address) : option FlowData :=
  if (layer a =? LAYER_FLOW) || (layer a =? LAYER_SOCKET) then
    let p := payload a in
    Some (mkFlowData (read_le p 0 8) (read_le p 8 8) (read_le p 16 4) (read_words p 20) (read_words p 36)
            (read_le p 52 2) (read_le p 54 2) (read_le p 56 1))
  else None.

(** ** Flow keys and the table *)

Record FlowKey := mkFlowKey {
  key_protocol : Z;
  local : IpAddr;
  key_local_port : Z;
  remote : IpAddr;
  key_remote_port : Z;
}.

#[global] Instance FlowKey_eq_dec : EqDecision FlowKey.
Proof. solve_decision. Defined.
#[global] Instance FlowKey_countable : Countable FlowKey.
Proof.
  refine (inj_countable' (fun k => (key_protocol k, local k, key_local_port k, remote k, key_remote_port k))
    (fun '(a, b, c, d, e) => mkFlowKey a b c d e) _). by intros [].
Defined.

Module Disposition.

Inductive t := Tunnel | Direct.

#[global] Instance eq_dec : EqDecision t.
Proof. solve_decision. Defined.

End Disposition.

Definition FlowTable := gmap FlowKey Disposition.t.

Definition lookup_flow (t : FlowTable) (k : FlowKey) : option Disposition.t := t !! k.
Definition insert_flow (t : FlowTable) (k : FlowKey) (d : Disposition.t) : FlowTable := <[k := d]> t.
Definition insert_unattributed (t : FlowTable) (k : FlowKey) (d : Disposition.t) : FlowTable :=
  match t !! k with Some _ => t | None => insert_flow t k d end.
Definition remove_flow (t : FlowTable) (k : FlowKey) : FlowTable := delete k t.
Definition clear_flows (t : FlowTable) : FlowTable := ∅.

Lemma lookup_insert_flow t k d k' : insert_flow t k d !! k' = if decide (k = k') then Some d else t !! k'.
Proof. unfold insert_flow, FlowTable in *. apply lookup_insert. Qed.

Lemma lookup_remove_flow t k k' : remove_flow t k !! k' = if decide (k = k') then None else t !! k'.
Proof. unfold remove_flow, FlowTable in *. apply lookup_delete. Qed.

(** Host order keeps the least significant word first. *)
Definition decode_address (w : words) (v6 : bool) : option IpAddr :=
  let '(w0, w1, w2, w3) := w in
  if v6 then Some (V6 (be_value (be_bytes 4 w3 ++ be_bytes 4 w2 ++ be_bytes 4 w1 ++ be_bytes 4 w0)))
  else if (w1 =? 0xffff) && (w2 =? 0) && (w3 =? 0) then Some (V4 w0) else None.

Definition flow_key (f : FlowData) (v6 : bool) : option FlowKey :=
  l ← decode_address (local_addr f) v6;
  r ← decode_address (remote_addr f) v6;
  Some (mkFlowKey (protocol f) l (local_port f) r (remote_port f)).

(** ** Processes *)

(** What Windows answers for an open process: its creation time, and its image name for
    a buffer of the given capacity, or an error code. *)
Record Process := mkProcess { created : option Z; query_image : Z -> res Z str }.

(** [OpenProcess] at one moment. *)
Definition OS := Z -> option Process.

Definition ERROR_INSUFFICIENT_BUFFER : Z := 122.
Definition MAX_PATH_CAPACITY : Z := 32768.

(** The growth loop of [image_path]; the outer [None] when the fuel is spent. *)
Fixpoint query_path (fuel : nat) (p : Process) (capacity : Z) : option (option str) :=
  match fuel with
  | O => None
  | S fuel =>
      match query_image p capacity with
      | Ok path => Some (Some (normalize_windows_path path))
      | Err code =>
          if negb (code =? ERROR_INSUFFICIENT_BUFFER) || (MAX_PATH_CAPACITY <=? capacity) then Some None
          else query_path fuel p (Z.min (capacity * 2) MAX_PATH_CAPACITY)
      | Panic => Some None
      end
  end.

(** The capacity doubles from 512, so it is at its maximum at the seventh query. *)
Definition image_path (p : Process) : option str := default None (query_path 7 p 512).

Definition CLASSIFICATION_CAPACITY : Z := 4096.

Record Classifier := mkClassifier {
  cl_mode : AppRoutingMode.t;
  cl_apps : list str;
  cache : gmap (Z * Z) bool;
}.

Definition new_classifier (p : AppRoutingPolicy) : Classifier :=
  mkClassifier (mode p) (map normalize_windows_path (apps p)) ∅.

Definition matches (c : Classifier) (path : str) : bool := existsb (fun candidate => paths_equal candidate path) (cl_apps c).

(** The classifier, whether the process is listed, and whether a process backs that. *)
Definition is_listed (c : Classifier) (os : OS) (pid : Z) : Classifier * (bool * bool) :=
  match os pid with
  | None => (c, (false, false))
  | Some process =>
      match created process with
      | None =>
          (c, match image_path process with None => (false, false) | Some path => (matches c path, true) end)
      | Some t =>
          match cache c !! (pid, t) with
          | Some listed => (c, (listed, true))
          | None =>
              match image_path process with
              | None => (c, (false, false))
              | Some path =>
                  let listed := matches c path in
                  let kept := if CLASSIFICATION_CAPACITY <=? Z.of_nat (size (cache c)) then ∅ else cache c in
                  (mkClassifier (cl_mode c) (cl_apps c) (<[(pid, t) := listed]> kept), (listed, true))
              end
          end
      end
  end.

Definition route (m : AppRoutingMode.t) (listed : bool) : Disposition.t :=
  match m, listed with
  | AppRoutingMode.Exclude, true | AppRoutingMode.Include, false => Disposition.Direct
  | AppRoutingMode.Exclude, false | AppRoutingMode.Include, true => Disposition.Tunnel
  end.

Definition classify (c : Classifier) (os : OS) (pid : Z) : Classifier * (Disposition.t * bool) :=
  let '(c, (listed, attributed)) := is_listed c os pid in (c, (route (cl_mode c) listed, attributed)).

(** ** The watchers *)

Record WatchState := mkWatch {
  table : FlowTable;
  classifier : Classifier;
  watching : Z;
  alarmed : bool;
}.

(** What a watcher's [recv] returned, with the processes as they are at that moment. *)
Inductive received := Event (a : Address) (os : OS) | Shutdown | Failed.

Definition is_open_event (e : Z) : bool := (e =? EVENT_SOCKET_CONNECT) || (e =? EVENT_FLOW_ESTABLISHED).
Definition is_close_event (e : Z) : bool := (e =? EVENT_SOCKET_CLOSE) || (e =? EVENT_FLOW_DELETED).

Definition watch_event (s : WatchState) (a : Address) (os : OS) : WatchState :=
  match flow a with
  | None => s
  | Some f =>
      match flow_key f (ipv6 a) with
      | None => s
      | Some key =>
          if is_open_event (event a) then
            let '(c, (d, attributed)) := classify (classifier s) os (process_id f) in
            mkWatch (if attributed then insert_flow (table s) key d else insert_unattributed (table s) key d)
              c (watching s) (alarmed s)
          else if is_close_event (event a) then
            mkWatch (remove_flow (table s) key) (classifier s) (watching s) (alarmed s)
          else s
      end
  end.

(** One turn of a watcher; a failed receive ends it, and the last one to end alarms. *)
Definition watch_step (s : WatchState) (r : received) : WatchState :=
  match r with
  | Event a os => watch_event s a os
  | Shutdown => s
  | Failed => mkWatch (table s) (classifier s) (wrap64 (watching s - 1)) (alarmed s || (watching s =? 1))
  end.

Definition start_watch (p : AppRoutingPolicy) : WatchState := mkWatch ∅ (new_classifier p) 2 false.

Definition watch (s : WatchState) (rs : list received) : WatchState := fold_left watch_step rs s.

(** ** The classification *)

(** The growth loop ends within its fuel, whatever Windows answers. *)
Lemma query_path_total p : exists r, query_path 7 p 512 = Some r.
Proof.
  assert (Hstep : forall fuel c, (exists r, query_path fuel p (Z.min (c * 2) MAX_PATH_CAPACITY) = Some r) \/
    MAX_PATH_CAPACITY <= c -> exists r, query_path (S fuel) p c = Some r).
  { intros fuel c H. cbn [query_path]. destruct (query_image p c) as [path|code|]; [by eexists| |by eexists].
    destruct (negb _); [by eexists|]. destruct (MAX_PATH_CAPACITY <=? c) eqn:Hc; [by eexists|]. simpl.
    boolify. destruct H; [done|lia]. }
  do 6 (apply Hstep; left). apply Hstep. right. done.
Qed.

(** An image query that returns a name returns it within the loop. *)
Lemma image_path_ok p path : query_image p 512 = Ok path -> image_path p = Some (normalize_windows_path path).
Proof. intros H. unfold image_path. cbn [query_path]. by rewrite H. Qed.

(** Windows never gives two processes the same id and creation time: the pair names the
    process, hence its executable. *)
Definition owned (owner : Z * Z -> str) (os : OS) : Prop :=
  forall pid p t path, os pid = Some p -> created p = Some t -> image_path p = Some path -> path = owner (pid, t).

Definition cache_ok (owner : Z * Z -> str) (c : Classifier) : Prop :=
  map_Forall (fun k listed => listed = matches c (owner k)) (cache c) /\
  Z.of_nat (size (cache c)) <= CLASSIFICATION_CAPACITY.

(** The path a process is judged by. *)
Definition judged_by (owner : Z * Z -> str) (os : OS) (pid : Z) (path : str) : Prop :=
  exists p, os pid = Some p /\
  match created p with Some t => path = owner (pid, t) | None => image_path p = Some path end.

Lemma is_listed_spec owner c os pid :
  owned owner os -> cache_ok owner c ->
  let '(c', (listed, attributed)) := is_listed c os pid in
  cache_ok owner c' /\ cl_mode c' = cl_mode c /\ cl_apps c' = cl_apps c /\
  (if attributed then exists path, judged_by owner os pid path /\ listed = matches c path else listed = false).
Proof.
  intros Ho Hc. unfold is_listed. destruct (os pid) as [p|] eqn:Hp; [|done].
  destruct (created p) as [t|] eqn:Ht.
  - destruct (cache c !! (pid, t)) as [l|] eqn:Hl.
    + split_and!; try done; try apply Hc. exists (owner (pid, t)). split; [exists p; by rewrite Ht|].
      apply (proj1 Hc _ _ Hl).
    + destruct (image_path p) as [path|] eqn:Hpath; [|done].
      assert (Hown : path = owner (pid, t)) by (eapply Ho; eauto).
      split_and!; try done; [|exists path; split; [exists p; by rewrite Ht|done]].
      destruct Hc as [Hm Hs]. split.
      * simpl. apply map_Forall_insert_2; [by subst|]. case_if; [apply map_Forall_empty|exact Hm].
      * simpl. case_if; [by rewrite insert_empty, map_size_singleton|].
        rewrite map_size_insert_None by done. boolify. lia.
  - destruct (image_path p) as [path|] eqn:Hpath; split_and!; try done; try apply Hc.
    exists path. split; [exists p; by rewrite Ht|done].
Qed.

Lemma classify_spec owner c os pid :
  owned owner os -> cache_ok owner c ->
  let '(c', (d, attributed)) := classify c os pid in
  cache_ok owner c' /\ cl_mode c' = cl_mode c /\ cl_apps c' = cl_apps c /\
  (if attributed then exists path, judged_by owner os pid path /\ d = route (cl_mode c) (matches c path)
   else d = route (cl_mode c) false).
Proof.
  intros Ho Hc. unfold classify. pose proof (is_listed_spec owner c os pid Ho Hc) as H.
  destruct (is_listed c os pid) as [c' [l a]]. destruct H as (H1 & H2 & H3 & H4). split_and!; try done.
  rewrite H2. destruct a; [|by subst]. destruct H4 as (path & Hj & ->). by exists path.
Qed.

(** A process that cannot be opened is never attributed. *)
Lemma classify_unopenable c os pid : os pid = None -> classify c os pid = (c, (route (cl_mode c) false, false)).
Proof. intros H. unfold classify, is_listed. by rewrite H. Qed.

(** ** The watchers *)

Definition event_owned (owner : Z * Z -> str) (r : received) : Prop :=
  match r with Event _ os => owned owner os | _ => True end.

Definition watch_ok (owner : Z * Z -> str) (p : AppRoutingPolicy) (s : WatchState) : Prop :=
  cache_ok owner (classifier s) /\ cl_mode (classifier s) = mode p /\
  cl_apps (classifier s) = map normalize_windows_path (apps p).

Lemma watch_step_ok owner p s r : event_owned owner r -> watch_ok owner p s -> watch_ok owner p (watch_step s r).
Proof.
  intros Ho Hs. destruct r as [a os| |]; simpl; [|done|done]. unfold watch_event.
  destruct (flow a) as [f|]; [|done]. destruct (flow_key f (ipv6 a)) as [key|]; [|done].
  destruct (is_open_event (event a)); [|by destruct (is_close_event (event a))].
  destruct Hs as (Hc & Hm & Ha). pose proof (classify_spec owner _ os (process_id f) Ho Hc) as H.
  destruct (classify _ _ _) as [c' [d b]]. destruct H as (H1 & H2 & H3 & _).
  split; [exact H1|]. simpl. split; congruence.
Qed.

Lemma watch_ok_all owner p rs : forall s, Forall (event_owned owner) rs -> watch_ok owner p s -> watch_ok owner p (watch s rs).
Proof.
  induction rs as [|r rs IH]; intros s Ho Hs; [done|]. inversion Ho; subst.
  apply IH; [done|]. by apply watch_step_ok.
Qed.

Lemma start_watch_ok owner p : watch_ok owner p (start_watch p).
Proof. split; [|done]. split; [apply map_Forall_empty|]. simpl. by rewrite map_size_empty. Qed.

(** The event opens the flow [k] for the process [pid]. *)
Definition opens (a : Address) (k : FlowKey) (pid : Z) : Prop :=
  exists f, flow a = Some f /\ flow_key f (ipv6 a) = Some k /\ process_id f = pid /\ is_open_event (event a) = true.

Lemma watch_event_opens s a os k pid :
  opens a k pid ->
  watch_event s a os =
    let '(c, (d, attributed)) := classify (classifier s) os pid in
    mkWatch (if attributed then insert_flow (table s) k d else insert_unattributed (table s) k d)
      c (watching s) (alarmed s).
Proof. intros (f & Hf & Hk & <- & He). unfold watch_event. by rewrite Hf, Hk, He. Qed.

(** The event neither ends the flow [k] nor reopens it for a process that can be opened. *)
Definition leaves (k : FlowKey) (r : received) : Prop :=
  match r with
  | Event a os =>
      forall f, flow a = Some f -> flow_key f (ipv6 a) = Some k ->
      is_close_event (event a) = false /\ (is_open_event (event a) = true -> os (process_id f) = None)
  | _ => True
  end.

Lemma leaves_step s r k d :
  leaves k r -> table s !! k = Some d -> table (watch_step s r) !! k = Some d.
Proof.
  intros Hl Hd. destruct r as [a os| |]; simpl; [|done|done]. unfold watch_event.
  destruct (flow a) as [f|] eqn:Hf; [|done]. destruct (flow_key f (ipv6 a)) as [key|] eqn:Hk; [|done].
  destruct (is_open_event (event a)) eqn:Ho; [|destruct (is_close_event (event a)) eqn:Hc; [|done]].
  - destruct (decide (key = k)) as [->|Hne].
    + destruct (Hl f Hf Hk) as [_ Hn]. rewrite (classify_unopenable _ _ _ (Hn Ho)). simpl.
      unfold insert_unattributed. by rewrite Hd.
    + destruct (classify _ _ _) as [c' [d' []]]; simpl.
      * by rewrite lookup_insert_flow, decide_False.
      * unfold insert_unattributed. destruct (table s !! key); [done|].
        by rewrite lookup_insert_flow, decide_False.
  - simpl. rewrite lookup_remove_flow. case_decide as Heq; [|done]. subst key.
    destruct (Hl f Hf Hk) as [Hcf _]. congruence.
Qed.

Lemma leaves_all k d rs : forall s, Forall (leaves k) rs -> table s !! k = Some d -> table (watch s rs) !! k = Some d.
Proof.
  induction rs as [|r rs IH]; intros s Hl Hd; [done|]. inversion Hl; subst.
  apply IH; [done|]. by apply leaves_step.
Qed.

(** The path an openable process is judged by is its image path. *)
Lemma judged_path owner os pid proc path path' :
  owned owner os -> os pid = Some proc -> image_path proc = Some path -> judged_by owner os pid path' -> path' = path.
Proof.
  intros Ho Hp Hi (q & Hq & Hj). rewrite Hp in Hq. injection Hq as <-.
  destruct (created proc) as [t|] eqn:Ht; [|congruence]. subst. symmetry. by eapply Ho.
Qed.

(** A process whose image is known is always attributed. *)
Lemma is_listed_attributed c os pid proc path :
  os pid = Some proc -> image_path proc = Some path -> exists c' l, is_listed c os pid = (c', (l, true)).
Proof.
  intros Hp Hi. unfold is_listed. rewrite Hp, Hi.
  destruct (created proc); [destruct (cache c !! _)|]; eauto.
Qed.

Lemma classify_openable owner p s os pid proc path :
  watch_ok owner p s -> owned owner os -> os pid = Some proc -> image_path proc = Some path ->
  exists c, classify (classifier s) os pid = (c, (route (mode p) (matches (new_classifier p) path), true)) /\
  cache_ok owner c.
Proof.
  intros (Hc & Hm & Ha) Ho Hp Hi. pose proof (classify_spec owner _ os pid Ho Hc) as H.
  destruct (is_listed_attributed (classifier s) os pid proc path Hp Hi) as (c' & l & Hl).
  unfold classify in *. rewrite Hl in *. destruct H as (Hc' & Hm' & _ & path' & Hj & Hd).
  exists c'. split; [|done]. rewrite Hd, (judged_path owner os pid proc path path') by done.
  unfold matches. by rewrite Hm, Ha.
Qed.

(** After the event that opens it, the flow is routed by the policy's verdict. *)
Lemma opened_flow_decided owner p before a os pid k proc path after :
  Forall (event_owned owner) (before ++ Event a os :: after) ->
  opens a k pid -> os pid = Some proc -> image_path proc = Some path -> Forall (leaves k) after ->
  table (watch (start_watch p) (before ++ Event a os :: after)) !! k =
  Some (route (mode p) (matches (new_classifier p) path)).
Proof.
  intros Hall Hopen Hp Hi Hl. apply Forall_app in Hall as [Hb Hrest]. inversion Hrest as [|? ? Ho Hafter]; subst.
  pose proof (watch_ok_all owner p before _ Hb (start_watch_ok owner p)) as Hok.
  unfold watch. rewrite fold_left_app. apply (leaves_all k); [done|].
  change (fold_left watch_step before (start_watch p)) with (watch (start_watch p) before).
  cbn [watch_step]. rewrite (watch_event_opens _ a os k pid Hopen).
  destruct (classify_openable owner p _ os pid proc path Hok Ho Hp Hi) as (c & -> & _).
  simpl. by rewrite lookup_insert_flow, decide_True.
Qed.

(** Per-application routing follows the process.  Whatever the watchers saw before
    (processes ended and their ids were reused, answers were cached and the cache was
    emptied), when a flow is opened by a process whose executable can be read, the table
    routes the flow by the policy's verdict on exactly that executable; the decision
    stays until the flow ends or is opened again for a process that can be read, so the
    duplicate event of an unreadable process cannot overrule it; and no more than 4096
    answers are ever cached. *)
Theorem flow_routed_by_its_executable owner p before a os pid k proc path after :
  Forall (event_owned owner) (before ++ Event a os :: after) ->
  opens a k pid -> os pid = Some proc -> image_path proc = Some path -> Forall (leaves k) after ->
  let s := watch (start_watch p) (before ++ Event a os :: after) in
  lookup_flow (table s) k = Some (route (mode p) (matches (new_classifier p) path)) /\
  Z.of_nat (size (cache (classifier s))) <= CLASSIFICATION_CAPACITY.
Proof.
  intros Hall Hopen Hp Hi Hl s. split; [by eapply opened_flow_decided|].
  apply (watch_ok_all owner p _ _ Hall (start_watch_ok owner p)).
Qed.

Module ToyFlow.

(** A browser with process id 7, and the System process, which cannot be opened. *)
Definition browser : str := ascii_bytes "C:\Apps\Browser.exe".
Definition proc : Process := mkProcess (Some 1000) (fun _ => Ok browser).
Definition os : OS := fun pid => if pid =? 7 then Some proc else None.
Definition owner (k : Z * Z) : str := browser.

Lemma os_owned : owned owner os.
Proof.
  intros pid p t path. unfold os. destruct (pid =? 7); [|done]. intros [= <-] _ H. injection H as <-. reflexivity.
Qed.

(** The two events of a TCP flow 10.0.0.2:51000 to 93.184.216.34:443. *)
Definition flow_payload (pid : Z) : bytes :=
  zeros 16 ++ rev (be_bytes 4 pid) ++
  rev (be_bytes 4 0x0A000002) ++ [255; 255; 0; 0] ++ zeros 8 ++
  rev (be_bytes 4 0x5DB8D822) ++ [255; 255; 0; 0] ++ zeros 8 ++
  rev (be_bytes 2 51000) ++ rev (be_bytes 2 443) ++ [6] ++ zeros 7.

Definition connect_event (pid : Z) : Address :=
  mkAddress 0 (LAYER_SOCKET + 256 * EVENT_SOCKET_CONNECT) 0 (flow_payload pid).

Definition key : FlowKey := mkFlowKey 6 (V4 0x0A000002) 51000 (V4 0x5DB8D822) 443.

Definition policy : AppRoutingPolicy := mkPolicy AppRoutingMode.Include [ascii_bytes "\\?\c:/apps/BROWSER.exe"] [].

Lemma connect_opens pid : u32 pid -> pid = 7 \/ pid = 4 -> opens (connect_event pid) key pid.
Proof. intros _ [->| ->]; (eexists; split; [vm_compute; reflexivity|]; split_and!; vm_compute; reflexivity). Qed.

Lemma system_leaves : leaves key (Event (connect_event 4) os).
Proof. intros f [= <-] _. split; [vm_compute; reflexivity|]. intros _. vm_compute. reflexivity. Qed.

Lemma flow_routed_by_its_executable_witness :
  lookup_flow (table (watch (start_watch policy)
    ([Event (connect_event 4) os] ++ Event (connect_event 7) os :: [Event (connect_event 4) os]))) key =
  Some Disposition.Tunnel.
Proof.
  destruct (flow_routed_by_its_executable owner policy [Event (connect_event 4) os] (connect_event 7) os 7 key proc
    browser [Event (connect_event 4) os]) as [H _].
  - repeat constructor; exact os_owned.
  - apply connect_opens; [done|by left].
  - reflexivity.
  - vm_compute. reflexivity.
  - apply Forall_singleton. exact system_leaves.
  - rewrite H. vm_compute. reflexivity.
Defined.

End ToyFlow.
