(* ===== verification/Divert.v ===== *)
(** * Moving packets between the stack and the tunnel (Windows split tunnel)

    crates/windows-client/src/windivert/divert.rs, with the batch helpers of
    windivert/mod.rs: the capture filter, the translation of addresses in both
    directions, the staging of packets that stay on the physical link, and the capture
    loop, which reads a batch, decides about each packet, hands back what stays and only
    then feeds the tunnel.

    The driver is outside the sources: how it splits a batch ([parse_packet]), its
    checksum helper ([calc_checksums]) and whether it accepts an injection (an oracle on
    the history of the handle) are parameters.  The buffer the ranges of the loop point
    into is explicit state.  The theorems: what is decided about a packet and which bytes
    change, how a batch is distributed, that a routed application never leaves on the
    physical link, that a reply finds its way back to the socket it belongs to, and what
    the filter captures. *)

From S2P Require Import Prelude Packet Flow.

Definition DNS_PORT : Z := 53.
Definition CAPTURE_BUFFER : Z := 512 * 1024.
Definition BATCH_MAX : Z := 0xFF.
Definition MTU_MAX : Z := 40 + 0xFFFF.

Module Outcome.

Inductive t := Tunnel | PassThrough | Discard.

#[global] Instance eq_dec : EqDecision t.
Proof. solve_decision. Defined.

End Outcome.

Record Translation := mkTranslation {
  physical : IpAddr;
  tunnel : IpAddr;
  resolver : IpAddr;
  max_segment_size : Z;
}.

Definition HEADERS : Z := 40.

Definition Translation_new (physical tunnel resolver : IpAddr) (tunnel_mtu : Z) : Translation :=
  mkTranslation physical tunnel resolver (sat_sub tunnel_mtu HEADERS).

(** The buffer afterwards and the decision. *)
Definition prepare_outbound (b : bytes) (table : FlowTable) (tr : Translation) : res unit (bytes * Outcome.t) :=
  match parse b with
  | Panic => Panic
  | Err _ => Ok (b, Outcome.PassThrough)
  | Ok p =>
      proto ← Packet.protocol p;
      if negb (is_transport proto) then Ok (b, Outcome.PassThrough)
      else
        match ports p with
        | Panic => Panic
        | Err _ => Ok (b, Outcome.PassThrough)
        | Ok (source_port, destination_port) =>
            src ← source p;
            dst ← destination p;
            let key := mkFlowKey proto src source_port dst destination_port in
            let resolving := bool_decide (dst = resolver tr) && (destination_port =? DNS_PORT) in
            if negb resolving && negb (bool_decide (lookup_flow table key = Some Disposition.Tunnel))
            then Ok (b, Outcome.PassThrough)
            else
              '(p, written) ← set_source p (tunnel tr);
              if negb written then Ok (data p, Outcome.Discard)
              else
                '(p, _) ← clamp_mss p (max_segment_size tr);
                Ok (data p, Outcome.Tunnel)
        end
  end.

Definition prepare_inbound (b : bytes) (tr : Translation) : res unit (bytes * bool) :=
  match parse b with
  | Panic => Panic
  | Err _ => Ok (b, false)
  | Ok p =>
      dst ← destination p;
      if negb (bool_decide (dst = tunnel tr)) then Ok (b, false)
      else
        '(p, written) ← set_destination p (physical tr);
        if negb written then Ok (data p, false)
        else
          '(p, _) ← clamp_mss p (max_segment_size tr);
          Ok (data p, true)
  end.

(** ** The capture filter

    The text handed to the driver, as its syntax tree: every test and connective it uses. *)
Inductive filter_expr :=
| Outbound
| NotLoopback
| Family (v6 : bool)
| Tcp
| Udp
| DstAddrNe (v6 : bool) (a : IpAddr)
| UdpDstPortNe (p : Z)
| And (l r : filter_expr)
| Or (l r : filter_expr).

Definition is_ipv4 (a : IpAddr) : bool := match a with V4 _ => true | V6 _ => false end.

Definition filter (server : SocketAddr) : filter_expr :=
  let family := negb (is_ipv4 (ip server)) in
  And (And (And Outbound NotLoopback) (Family family))
    (Or Tcp (And Udp (Or (DstAddrNe family (ip server)) (UdpDstPortNe (port server))))).

(** What the tests look at, and the driver's documented reading of them: a test of a
    field the packet does not have fails. *)
Record seen := mkSeen {
  seen_outbound : bool;
  seen_loopback : bool;
  seen_protocol : Z;
  seen_dst : SocketAddr;
}.

Fixpoint captures (f : filter_expr) (s : seen) : bool :=
  let is_v6 := negb (is_ipv4 (ip (seen_dst s))) in
  match f with
  | Outbound => seen_outbound s
  | NotLoopback => negb (seen_loopback s)
  | Family v6 => Bool.eqb is_v6 v6
  | Tcp => seen_protocol s =? PROTOCOL_TCP
  | Udp => seen_protocol s =? PROTOCOL_UDP
  | DstAddrNe v6 a => Bool.eqb is_v6 v6 && negb (bool_decide (ip (seen_dst s) = a))
  | UdpDstPortNe p => (seen_protocol s =? PROTOCOL_UDP) && negb (port (seen_dst s) =? p)
  | And l r => captures l s && captures r s
  | Or l r => captures l s || captures r s
  end.

(** ** The handle *)

(** What the loop does to the outside: injections, with the driver's answer, and packets
    handed to the tunnel. *)
Inductive io :=
| SendBatch (packets : bytes) (addresses : list Address) (ok : bool)
| Send (packet : bytes) (address : Address) (ok : bool)
| Sink (packet : bytes).

Section Driver.
(** [WinDivertHelperParsePacket]: failure, or the length of what follows the packet. *)
Context (parse_packet : bytes -> option (option Z)).
(** The checksum helper: the packet and the address it leaves, and whether it worked. *)
Context (calc_checksums : bytes -> Address -> bytes * Address * bool).
Context (accepts_batch : list io -> bytes -> list Address -> bool).
Context (accepts : list io -> bytes -> Address -> bool).

Definition first_packet_len (b : bytes) : option Z :=
  if u32_max <? len b then None
  else
    match parse_packet b with
    | None => None
    | Some next =>
        let remainder := match next with None => 0 | Some next_len => next_len mod 2 ^ 32 end in
        if (remainder <=? len b) && (0 <? len b - remainder) then Some (len b - remainder) else None
    end.

Definition SIZE_OF_ADDRESS : Z := 80.

(** [Handle::send_batch] and [Handle::send]: the history and whether it succeeded. *)
Definition send_batch (t : list io) (packets : bytes) (addresses : list Address) : list io * bool :=
  if bool_decide (addresses = []) || bool_decide (packets = []) then (t, true)
  else if (u32_max <? len packets) || (u32_max <? SIZE_OF_ADDRESS * len addresses) then (t, false)
  else let ok := accepts_batch t packets addresses in (t ++ [SendBatch packets addresses ok], ok).

Definition send (t : list io) (packet : bytes) (address : Address) : list io * bool :=
  if u32_max <? len packet then (t, false)
  else let ok := accepts t packet address in (t ++ [Send packet address ok], ok).

(** ** Staging *)

Record Reinject := mkReinject { packets : bytes; addresses : list Address; lengths : list Z }.

Definition Reinject_new : Reinject := mkReinject [] [] [].

Definition is_full (r : Reinject) (length : Z) : bool :=
  (BATCH_MAX <=? len (addresses r)) || (CAPTURE_BUFFER <? len (packets r) + length).

Definition push (r : Reinject) (packet : bytes) (a : Address) : Reinject :=
  mkReinject (packets r ++ packet) (addresses r ++ [a]) (lengths r ++ [len packet]).

(** The loop over [lengths] zipped with [addresses]. *)
Fixpoint flush_each (t : list io) (staged : bytes) (offset : Z) (items : list (Z * Address)) : res unit (list io) :=
  match items with
  | [] => Ok t
  | (length, a) :: items =>
      let stop := Z.min (offset + length) (len staged) in
      packet ← slice staged offset stop;
      flush_each (send t packet a).1 staged stop items
  end.

Definition flush_individually (r : Reinject) (t : list io) : res unit (list io) :=
  flush_each t (packets r) 0 (combine (lengths r) (addresses r)).

Definition flush (r : Reinject) (t : list io) : res unit (Reinject * list io) :=
  if bool_decide (addresses r = []) then Ok (r, t)
  else
    let '(t, ok) := send_batch t (packets r) (addresses r) in
    t ← (if ok then Ok t else flush_individually r t);
    Ok (Reinject_new, t).

(** ** The capture loop *)

Record Stats := mkStats { tunnelled_n : Z; passed : Z; discarded : Z; batches : Z; unsplittable : Z }.

Record Run := mkRun {
  buffer : bytes;
  reinject : Reinject;
  tunnelled : list (Z * Z);
  stats : Stats;
  trace : list io;
}.

Definition count_passed (s : Stats) : Stats :=
  mkStats (tunnelled_n s) (sat_add64 (passed s) 1) (discarded s) (batches s) (unsplittable s).
Definition count_discarded (s : Stats) : Stats :=
  mkStats (tunnelled_n s) (passed s) (sat_add64 (discarded s) 1) (batches s) (unsplittable s).
Definition count_tunnelled (s : Stats) : Stats :=
  mkStats (sat_add64 (tunnelled_n s) 1) (passed s) (discarded s) (batches s) (unsplittable s).
Definition count_batch (s : Stats) : Stats :=
  mkStats (tunnelled_n s) (passed s) (discarded s) (sat_add64 (batches s) 1) (unsplittable s).
Definition count_unsplittable (s : Stats) : Stats :=
  mkStats (tunnelled_n s) (passed s) (discarded s) (batches s) (sat_add64 (unsplittable s) 1).

(** One packet of the batch, at [start, stop) of the buffer. *)
Definition capture_packet (r : Run) (table : FlowTable) (tr : Translation) (a : Address) (start stop : Z) : res unit Run :=
  packet ← slice (buffer r) start stop;
  '(packet, outcome) ← prepare_outbound packet table tr;
  let buffer := copy_at (buffer r) start packet in
  match outcome with
  | Outcome.PassThrough =>
      '(staged, t) ← (if is_full (reinject r) (len packet) then flush (reinject r) (trace r) else Ok (reinject r, trace r));
      Ok (mkRun buffer (push staged packet a) (tunnelled r) (count_passed (stats r)) t)
  | Outcome.Discard => Ok (mkRun buffer (reinject r) (tunnelled r) (count_discarded (stats r)) (trace r))
  | Outcome.Tunnel =>
      let '(packet, _, ok) := calc_checksums packet a in
      let buffer := copy_at buffer start packet in
      Ok (mkRun buffer (reinject r) (if ok then tunnelled r ++ [(start, stop)] else tunnelled r)
            (count_tunnelled (stats r)) (trace r))
  end.

(** The loop over the addresses of the batch; [received] bytes of the buffer are filled. *)
Fixpoint capture_batch (r : Run) (table : FlowTable) (tr : Translation) (received offset : Z) (addrs : list Address)
    : res unit Run :=
  match addrs with
  | [] => Ok r
  | a :: addrs =>
      if received <=? offset then Ok r
      else
        rest ← slice (buffer r) offset received;
        match first_packet_len rest with
        | None => Ok (mkRun (buffer r) (reinject r) (tunnelled r) (count_unsplittable (stats r)) (trace r))
        | Some length =>
            let stop := Z.min (offset + length) received in
            r ← capture_packet r table tr a offset stop;
            capture_batch r table tr received stop addrs
        end
  end.

(** [tunnelled.drain(..)] into the sink. *)
Fixpoint drain (buffer : bytes) (ranges : list (Z * Z)) (t : list io) : res unit (list io) :=
  match ranges with
  | [] => Ok t
  | (start, stop) :: ranges =>
      packet ← slice buffer start stop;
      drain buffer ranges (t ++ [Sink packet])
  end.

(** One turn of [Diverter::run] on a received batch. *)
Definition run_batch (r : Run) (table : FlowTable) (tr : Translation) (received : Z) (addrs : list Address) : res unit Run :=
  let r := mkRun (buffer r) (reinject r) (tunnelled r) (count_batch (stats r)) (trace r) in
  r ← capture_batch r table tr received 0 addrs;
  '(staged, t) ← flush (reinject r) (trace r);
  t ← drain (buffer r) (tunnelled r) t;
  Ok (mkRun (buffer r) staged [] (stats r) t).

(** [Diverter::inject_inbound] *)
Definition inject_inbound (t : list io) (packet : bytes) (a : Address) : list io :=
  let '(packet, a, ok) := calc_checksums packet a in
  if ok then (send t packet a).1 else t.

End Driver.

(** ** Edits of a packet *)

Definition is_addr (a : IpAddr) : Prop := match a with V4 a => u32 a | V6 a => uint 128 a end.

(** The width of an address in a packet. *)
Definition addr_len (p : Packet) : Z := match version p with Version.V4 => 4 | Version.V6 => 16 end.

(** The bytes before the transport options, except the field at [off], are those of [p]. *)
Definition edited (p : Packet) (off : Z) (b : bytes) : Prop :=
  len b = len (data p) /\
  forall i, 0 <= i < header_length p + 20 -> i < off \/ off + addr_len p <= i -> at_ b i = at_ (data p) i.

Lemma sub_list_ext (b b' : bytes) x y :
  0 <= x <= y -> y <= len b -> y <= len b' -> (forall i, x <= i < y -> at_ b i = at_ b' i) ->
  sub_list b x y = sub_list b' x y.
Proof.
  intros Hx Hb Hb' H. unfold sub_list. apply list_eq. intros i.
  destruct (decide (Z.of_nat i < y - x)); [|rewrite !lookup_take_ge by lia; done].
  rewrite !lookup_take_lt, !lookup_drop by lia. specialize (H (x + Z.of_nat i) ltac:(lia)). unfold at_ in H.
  replace (Z.to_nat (x + Z.of_nat i)) with (Z.to_nat x + i)%nat in H by lia. unfold len in *.
  destruct (lookup_lt_is_Some_2 b (Z.to_nat x + i)) as [u Hu]; [lia|].
  destruct (lookup_lt_is_Some_2 b' (Z.to_nat x + i)) as [u' Hu']; [lia|].
  rewrite Hu, Hu'. rewrite !nth_lookup, Hu, Hu' in H. simpl in H. by subst.
Qed.

Lemma sub_list_copy_at b off src : 0 <= off -> off + len src <= len b -> sub_list (copy_at b off src) off (off + len src) = src.
Proof.
  intros Ho Hl. assert (Ht : len (take (Z.to_nat off) b) = off) by len_lia.
  unfold copy_at. rewrite sub_list_app_r by lia. rewrite Ht, Z.sub_diag.
  replace (off + len src - off) with (len src) by lia. apply sub_list_app_eq. done.
Qed.

(** [parse] looks at the first eight bytes and the length. *)
Lemma parse_ext b b' p :
  parse b = Ok p -> len b' = len b -> (forall i, 0 <= i < 8 -> at_ b' i = at_ b i) ->
  parse b' = Ok (mkPacket b' (header_length p) (version p)).
Proof.
  intros Hp Hl Hat. unfold parse, get_opt, index, at_ in *. rewrite Hl. unfold v6.NEXT_HEADER in *.
  rewrite (Hat 0), (Hat 6) by lia. revert Hp. res_simpl.
  destruct (decide (0 <= 0 < len b)); simpl ok_or; cbv iota beta; [|done].
  destruct (_ =? 4); [|destruct (_ =? 6); [|done]].
  - case_if; [done|]. case_if; [|done]. by intros [= <-].
  - destruct (decide (0 <= 6 < len b)); simpl ok_or; cbv iota beta; [|done].
    case_if; [|done]. case_if; [|done]. by intros [= <-].
Qed.

Lemma addr_len_octets p a : same_family p a = true -> len (octets_of a) = addr_len p.
Proof. unfold same_family, addr_len, octets_of. destruct (version p), a; try done. Qed.

(** Writing an address of the packet's family, then clamping. *)
Lemma edited_clamp p off a limit :
  wf p -> off = source_offset p \/ off = destination_offset p -> same_family p a = true ->
  let p1 := mkPacket (copy_at (data p) off (octets_of a)) (header_length p) (version p) in
  wf p1 /\ exists p2 c, clamp_mss (E := unit) p1 limit = Ok (p2, c) /\
  header_length p2 = header_length p /\ version p2 = version p /\ edited p off (data p2) /\ is_bytes (data p2) /\
  sub_list (data p2) off (off + addr_len p) = octets_of a.
Proof.
  intros Hw Hoff Hf p1. pose proof (wf_header p Hw) as Hh. destruct Hw as (Hb & Hl & Hv).
  pose proof (addr_len_octets p a Hf) as Ha.
  assert (Hr : 0 <= off /\ off + addr_len p <= header_length p).
  { unfold source_offset, destination_offset, addr_len, v4.MIN_HEADER, v6.HEADER in *.
    unfold v4.SOURCE, v4.DESTINATION, v6.SOURCE, v6.DESTINATION in *. destruct (version p); lia. }
  assert (Hpos : 0 <= addr_len p) by (unfold addr_len; destruct (version p); lia).
  assert (Hlen : len (data p1) = len (data p)) by (apply len_copy_at; lia).
  assert (Hw1 : wf p1).
  { split; [|split; [rewrite Hlen; exact Hl|exact Hv]]. apply is_bytes_copy_at; [done|].
    unfold octets_of. destruct a; apply be_bytes_is_bytes. }
  split; [done|]. destruct (clamp_mss_edit (E := unit) p1 limit Hw1) as (p2 & c & Hc & H1 & H2 & H3 & H4 & H5).
  exists p2, c. split_and!; try done.
  - split; [congruence|]. intros i Hi Ho. rewrite (H5 i) by exact Hi. cbn [p1 data].
    destruct (decide (i < off)); [apply at_copy_lt; lia|apply at_copy_ge; lia].
  - rewrite (sub_list_ext _ (data p1)); [|lia|lia|lia|].
    + rewrite <- Ha. apply sub_list_copy_at; lia.
    + intros i Hi. apply H5. cbn [p1 header_length]. lia.
Qed.

(** The five-tuple of a packet, as the flow table names it. *)
Definition tuple_of (p : Packet) : option FlowKey :=
  if is_transport (proto_of p) && first_of p && (header_length p + 4 <=? len (data p))
  then Some (mkFlowKey (proto_of p) (addr_of p (source_offset p))
         (be_value [at_ (data p) (header_length p); at_ (data p) (header_length p + 1)])
         (addr_of p (destination_offset p))
         (be_value [at_ (data p) (header_length p + 2); at_ (data p) (header_length p + 3)]))
  else None.

Definition packet_flow (b : bytes) : option FlowKey := match parse b with Ok p => tuple_of p | _ => None end.

Lemma addr_of_octets p off b a :
  is_addr a -> same_family p a = true -> sub_list b off (off + addr_len p) = octets_of a ->
  addr_of (mkPacket b (header_length p) (version p)) off = a.
Proof.
  unfold is_addr, same_family, addr_len, octets_of, addr_of. cbn [data version].
  destruct (version p), a as [x|x]; try done; intros Hu _ ->; rewrite be_value_bytes, Z.mod_small; try done.
Qed.

Lemma addr_of_edited p off off' b :
  wf p -> edited p off b -> (off = source_offset p /\ off' = destination_offset p) \/ (off = destination_offset p /\ off' = source_offset p) ->
  addr_of (mkPacket b (header_length p) (version p)) off' = addr_of p off'.
Proof.
  intros (_ & Hl & Hv) [Hlen Hat] Ho. unfold addr_of, source_offset, destination_offset, addr_len in *. cbn [data version].
  unfold v4.MIN_HEADER, v6.HEADER, v4.SOURCE, v4.DESTINATION, v6.SOURCE, v6.DESTINATION in *.
  destruct (version p); do 2 f_equal; (apply sub_list_ext; [lia..|]; intros i Hi; apply Hat; lia).
Qed.

(** After an edit the packet still parses, with the same protocol, ports and other address. *)
Lemma edited_fields b p off b' :
  is_bytes b -> parse b = Ok p -> edited p off b' -> off = source_offset p \/ off = destination_offset p ->
  let p' := mkPacket b' (header_length p) (version p) in
  parse b' = Ok p' /\ proto_of p' = proto_of p /\ first_of p' = first_of p /\ len b' = len b /\
  forall i, header_length p <= i < header_length p + 4 -> at_ b' i = at_ b i.
Proof.
  intros Hb Hp He Ho p'. destruct (packet_parse_ok b p Hb Hp) as [Hd Hw]. pose proof (wf_header p Hw).
  destruct He as [Hl Hat]. rewrite Hd in *. destruct Hw as (_ & Hlen & Hv).
  assert (Hr : 8 <= off /\ off + addr_len p <= header_length p /\ (version p = Version.V4 -> 12 <= off)).
  { unfold source_offset, destination_offset, addr_len, v4.MIN_HEADER, v6.HEADER in *.
    unfold v4.SOURCE, v4.DESTINATION, v6.SOURCE, v6.DESTINATION in *. destruct (version p); split_and!; try done; lia. }
  destruct Hr as (Hr1 & Hr2 & Hr3). split_and!; try done.
  - eapply parse_ext; [done|done|]. intros i Hi. apply Hat; lia.
  - unfold proto_of, p'. cbn [data version]. rewrite Hd. destruct (version p); [|apply Hat; lia].
    specialize (Hr3 eq_refl). apply Hat; lia.
  - unfold first_of, p'. cbn [data version]. rewrite Hd. destruct (version p); [|done]. by rewrite !Hat by lia.
  - intros i Hi. apply Hat; lia.
Qed.

(** ** Outbound decisions *)

(** The flow belongs in the tunnel: it is routed there, or it is a query to the session's
    resolver. *)
Definition wants_tunnel (table : FlowTable) (tr : Translation) (k : FlowKey) : bool :=
  (bool_decide (remote k = resolver tr) && (key_remote_port k =? DNS_PORT)) ||
  bool_decide (lookup_flow table k = Some Disposition.Tunnel).

Definition same_kind (a b : IpAddr) : bool := Bool.eqb (is_ipv4 a) (is_ipv4 b).

Lemma same_family_addr p off a : same_family p a = same_kind (addr_of p off) a.
Proof. unfold same_family, same_kind, addr_of. destruct (version p), a; done. Qed.

Lemma tuple_ports p :
  wf p -> ports p = match tuple_of p with Some k => Ok (key_local_port k, key_remote_port k) | None => Err tt end.
Proof. intros Hw. rewrite ports_ok by done. unfold tuple_of. by case_if. Qed.

Lemma tuple_transport p k : tuple_of p = Some k -> is_transport (proto_of p) = true.
Proof. unfold tuple_of. by destruct (is_transport (proto_of p)). Qed.

Lemma prepare_outbound_cases b table tr :
  is_bytes b ->
  match packet_flow b with
  | Some k =>
      if wants_tunnel table tr k then
        if same_kind (local k) (tunnel tr) then
          exists p b', parse b = Ok p /\ tuple_of p = Some k /\ same_family p (tunnel tr) = true /\
          prepare_outbound b table tr = Ok (b', Outcome.Tunnel) /\ is_bytes b' /\ edited p (source_offset p) b' /\
          sub_list b' (source_offset p) (source_offset p + addr_len p) = octets_of (tunnel tr)
        else prepare_outbound b table tr = Ok (b, Outcome.Discard)
      else prepare_outbound b table tr = Ok (b, Outcome.PassThrough)
  | None => prepare_outbound b table tr = Ok (b, Outcome.PassThrough)
  end.
Proof.
  intros Hb. unfold packet_flow, prepare_outbound.
  destruct (parse_cases b Hb) as [->|(p & -> & Hd & Hw)]; [done|].
  rewrite (protocol_ok p Hw), (tuple_ports p Hw), (source_ok p Hw), (destination_ok p Hw). res_simpl.
  destruct (tuple_of p) as [k|] eqn:Hk; [|by destruct (is_transport _)].
  rewrite (tuple_transport p k Hk). cbn [negb].
  assert (Hkey : k = mkFlowKey (proto_of p) (addr_of p (source_offset p)) (key_local_port k)
                       (addr_of p (destination_offset p)) (key_remote_port k)).
  { revert Hk. unfold tuple_of. case_if; [|done]. by intros [= <-]. }
  rewrite <- Hkey. assert (Hr : addr_of p (destination_offset p) = remote k) by (rewrite Hkey; done).
  assert (Hl : addr_of p (source_offset p) = local k) by (rewrite Hkey; done).
  rewrite Hr. unfold wants_tunnel. destruct (bool_decide (remote k = _) && _), (bool_decide (lookup_flow _ _ = _));
    cbn [negb andb orb]; try done.
  all: rewrite <- Hl, <- (same_family_addr p); unfold set_source; rewrite (set_address_ok p _ _ Hw (or_introl eq_refl));
    destruct (same_family p (tunnel tr)) eqn:Hf; cbn [negb]; [|by rewrite Hd];
    destruct (edited_clamp p (source_offset p) (tunnel tr) (max_segment_size tr) Hw (or_introl eq_refl) Hf)
      as (_ & p2 & c & Hc & _ & _ & He & Hb2 & Hs); rewrite Hc; exists p, (data p2); done.
Qed.

(** What is decided about an outbound packet, for every sequence of bytes.  A packet
    without a readable five-tuple, or whose flow is neither routed nor a query to the
    session's resolver, is passed through untouched; a routed flow of the other address
    family is discarded; every other routed packet goes to the tunnel, with the length and
    the five-tuple it had except that the source is the tunnel address, and with no byte
    changed outside the source field and the transport options.  Nothing panics. *)
Theorem prepare_outbound_decides b table tr :
  is_bytes b -> is_addr (tunnel tr) ->
  match packet_flow b with
  | Some k =>
      if wants_tunnel table tr k then
        if same_kind (local k) (tunnel tr) then
          exists p b', parse b = Ok p /\ prepare_outbound b table tr = Ok (b', Outcome.Tunnel) /\ edited p (source_offset p) b' /\
          packet_flow b' = Some (mkFlowKey (key_protocol k) (tunnel tr) (key_local_port k) (remote k) (key_remote_port k))
        else prepare_outbound b table tr = Ok (b, Outcome.Discard)
      else prepare_outbound b table tr = Ok (b, Outcome.PassThrough)
  | None => prepare_outbound b table tr = Ok (b, Outcome.PassThrough)
  end.
Proof.
  intros Hb Ht. pose proof (prepare_outbound_cases b table tr Hb) as H.
  destruct (packet_flow b) as [k|]; [|done]. destruct (wants_tunnel table tr k); [|done].
  destruct (same_kind _ _); [|done]. destruct H as (p & b' & Hp & Hk & Hf & Ho & Hb' & He & Hs).
  exists p, b'. split_and!; try done. unfold packet_flow.
  destruct (packet_parse_ok b p Hb Hp) as [Hd Hw].
  destruct (edited_fields b p _ b' Hb Hp He (or_introl eq_refl)) as (-> & H1 & H2 & H3 & H4).
  pose proof (addr_of_octets p _ b' _ Ht Hf Hs) as Hsrc.
  pose proof (addr_of_edited p _ _ b' Hw He (or_introl (conj eq_refl eq_refl))) as Hdst.
  unfold tuple_of in *. rewrite H1, H2. cbn [data header_length]. rewrite H3, !H4 by lia.
  change (source_offset (mkPacket b' (header_length p) (version p))) with (source_offset p).
  change (destination_offset (mkPacket b' (header_length p) (version p))) with (destination_offset p).
  rewrite Hsrc, Hdst. rewrite Hd in Hk. revert Hk. case_if; [|done]. by intros [= <-].
Qed.

(** A later fragment carries no ports and is passed through whatever the table says. *)
Theorem trailing_fragment_passes_through b p table tr :
  is_bytes b -> parse b = Ok p -> first_of p = false -> prepare_outbound b table tr = Ok (b, Outcome.PassThrough).
Proof.
  intros Hb Hp Hf. pose proof (prepare_outbound_cases b table tr Hb) as H. unfold packet_flow in H. rewrite Hp in H.
  unfold tuple_of in H. by rewrite Hf, andb_false_r in H.
Qed.

(** ** Inbound packets *)

Lemma prepare_inbound_cases b tr :
  is_bytes b ->
  (exists p b', parse b = Ok p /\ addr_of p (destination_offset p) = tunnel tr /\ same_family p (physical tr) = true /\
   prepare_inbound b tr = Ok (b', true) /\ is_bytes b' /\ edited p (destination_offset p) b' /\
   sub_list b' (destination_offset p) (destination_offset p + addr_len p) = octets_of (physical tr)) \/
  (prepare_inbound b tr = Ok (b, false) /\
   forall p, parse b = Ok p -> addr_of p (destination_offset p) = tunnel tr -> same_family p (physical tr) = false).
Proof.
  intros Hb. unfold prepare_inbound.
  destruct (parse_cases b Hb) as [->|(p & -> & Hd & Hw)]; [by right|].
  rewrite (destination_ok p Hw). res_simpl. destruct (bool_decide _) eqn:Ht; boolify; cbn [negb].
  - unfold set_destination. rewrite (set_address_ok p _ _ Hw (or_intror eq_refl)).
    destruct (same_family p (physical tr)) eqn:Hf; cbn [negb].
    + left. destruct (edited_clamp p (destination_offset p) (physical tr) (max_segment_size tr) Hw (or_intror eq_refl) Hf)
        as (_ & p2 & c & Hc & _ & _ & He & Hb2 & Hs). rewrite Hc. by exists p, (data p2).
    + right. rewrite Hd. split; [done|]. by intros q [= <-].
  - right. split; [done|]. intros q [= <-] Hq. done.
Qed.

(** The same flow seen from the other end. *)
Definition reverse (k : FlowKey) : FlowKey :=
  mkFlowKey (key_protocol k) (remote k) (key_remote_port k) (local k) (key_local_port k).

Lemma reverse_involutive k : reverse (reverse k) = k.
Proof. by destruct k. Qed.

(** [C18] Translation is transparent to applications.  A packet that answers a translated
    flow (its five-tuple is the reverse of the flow with the tunnel address as its local
    end) is delivered with the reverse of the flow as the application sees it, the
    physical address being its local end; and a packet that is not addressed to the tunnel
    address is never delivered and never changed. *)
Theorem reply_returns_to_its_socket b tr k :
  is_bytes b -> is_addr (physical tr) -> same_kind (tunnel tr) (physical tr) = true -> local k = physical tr ->
  (packet_flow b = Some (reverse (mkFlowKey (key_protocol k) (tunnel tr) (key_local_port k) (remote k) (key_remote_port k))) ->
   exists b', prepare_inbound b tr = Ok (b', true) /\ packet_flow b' = Some (reverse k)) /\
  (forall p, parse b = Ok p -> addr_of p (destination_offset p) <> tunnel tr -> prepare_inbound b tr = Ok (b, false)).
Proof.
  intros Hb Ha Hk Hl. destruct (prepare_inbound_cases b tr Hb) as [(p & b' & Hp & Hdst & Hf & Ho & Hb' & He & Hs)|[Ho Hno]].
  - split; [|intros q Hq Hne; rewrite Hp in Hq; injection Hq as <-; done]. intros Hflow. exists b'. split; [done|].
    destruct (packet_parse_ok b p Hb Hp) as [Hd Hw]. unfold packet_flow in *. rewrite Hp in Hflow.
    destruct (edited_fields b p _ b' Hb Hp He (or_intror eq_refl)) as (-> & H1 & H2 & H3 & H4).
    pose proof (addr_of_octets p _ b' _ Ha Hf Hs) as Hnew.
    pose proof (addr_of_edited p _ _ b' Hw He (or_intror (conj eq_refl eq_refl))) as Hsrc.
    unfold tuple_of in *. rewrite H1, H2. cbn [data header_length]. rewrite H3, !H4 by lia.
    change (source_offset (mkPacket b' (header_length p) (version p))) with (source_offset p).
    change (destination_offset (mkPacket b' (header_length p) (version p))) with (destination_offset p).
    rewrite Hsrc, Hnew. rewrite Hd in Hflow. revert Hflow. case_if; [|done]. unfold reverse. intros H. inversion H. subst.
    destruct k; simpl in *; subst; done.
  - split; [|done]. intros Hflow. exfalso. unfold packet_flow in Hflow.
    destruct (parse b) as [p| |] eqn:Hp; [|done|done]. unfold tuple_of in Hflow.
    revert Hflow. case_if; [|done]. unfold reverse. intros H. inversion H as [[E1 E2 E3 E4 E5]].
    pose proof (Hno p eq_refl E4) as Hnf. rewrite (same_family_addr p (destination_offset p)), E4 in Hnf. congruence.
Qed.

(** ** The filter *)

(** What the filter captures: never a datagram of the tunnel itself, so the client
    cannot feed on its own traffic; every other outbound TCP or UDP packet of the server's
    address family that is not loopback; and no packet of the other family. *)
Theorem filter_captures_all_but_own server s :
  captures (filter server) s = true <->
  seen_outbound s = true /\ seen_loopback s = false /\ same_kind (ip (seen_dst s)) (ip server) = true /\
  (seen_protocol s = PROTOCOL_TCP \/ (seen_protocol s = PROTOCOL_UDP /\ seen_dst s <> server)).
Proof.
  assert (Hext : seen_dst s = server <-> ip (seen_dst s) = ip server /\ port (seen_dst s) = port server).
  { destruct (seen_dst s), server. simpl. split; [by intros [= -> ->]|by intros [-> ->]]. }
  unfold filter, same_kind. cbn [captures]. rewrite Hext.
  destruct (seen_outbound s), (seen_loopback s); cbn [andb negb]; try (split; [done|naive_solver]).
  destruct (Z.eqb_spec (seen_protocol s) PROTOCOL_TCP) as [Et|Et], (Z.eqb_spec (seen_protocol s) PROTOCOL_UDP) as [Eu|Eu],
    (Z.eqb_spec (port (seen_dst s)) (port server)) as [Ep|Ep], (bool_decide_reflect (ip (seen_dst s) = ip server)) as [Ei|Ei],
    (is_ipv4 (ip (seen_dst s))), (is_ipv4 (ip server)); cbn [andb orb negb Bool.eqb]; naive_solver.
Qed.

(** ** A captured batch *)

Definition staged (r : Reinject) (ps : list (bytes * Address)) : Prop :=
  packets r = concat (map fst ps) /\ addresses r = map snd ps /\ lengths r = map (fun pa => len pa.1) ps.

(** What one injection may carry. *)
Definition fits (ps : list (bytes * Address)) : Prop :=
  len ps <= BATCH_MAX /\ len (concat (map fst ps)) <= CAPTURE_BUFFER /\ Forall (fun pa => pa.1 <> []) ps.

(** The packets [g] went back to the stack, together or, refused, one by one. *)
Definition handed_back (g : list (bytes * Address)) (es : list io) : Prop :=
  es = [SendBatch (concat (map fst g)) (map snd g) true] \/
  exists sends, es = SendBatch (concat (map fst g)) (map snd g) false :: sends /\
  Forall2 (fun pa e => exists ok, e = Send pa.1 pa.2 ok) g sends.

Section Batch.
Context (parse_packet : bytes -> option (option Z)).
Context (calc_checksums : bytes -> Address -> bytes * Address * bool).
Context (accepts_batch : list io -> bytes -> list Address -> bool).
Context (accepts : list io -> bytes -> Address -> bool).

Lemma flush_each_sends ps : forall t pre,
  Forall (fun pa => len pa.1 <= u32_max) ps ->
  exists sends,
    flush_each accepts t (pre ++ concat (map fst ps)) (len pre) (combine (map (fun pa => len pa.1) ps) (map snd ps)) = Ok (t ++ sends) /\
    Forall2 (fun pa e => exists ok, e = Send pa.1 pa.2 ok) ps sends.
Proof.
  induction ps as [|[b a] ps IH]; intros t pre Hs.
  - exists []. simpl. by rewrite app_nil_r.
  - inversion Hs as [|? ? Hb Hs']; subst. cbn [map combine flush_each concat fst snd].
    rewrite Z.min_l by (pose proof (len_nonneg (concat (map fst ps))); rewrite !len_app; lia).
    rewrite slice_app by done. res_simpl. unfold send. simpl in Hb.
    replace (u32_max <? len b) with false by (symmetry; apply Z.ltb_ge; lia). cbn [fst].
    destruct (IH (t ++ [Send b a (accepts t b a)]) (pre ++ b) Hs') as (sends & He & Hf).
    rewrite len_app, <- app_assoc in He. rewrite He. exists (Send b a (accepts t b a) :: sends).
    rewrite <- app_assoc. split; [done|]. constructor; [by eexists|done].
Qed.

Lemma fits_small ps : fits ps -> Forall (fun pa : bytes * Address => len pa.1 <= u32_max) ps.
Proof.
  intros (_ & Hc & _). apply Forall_forall. intros pa Hin.
  apply in_split in Hin as (l1 & l2 & ->). rewrite map_app, concat_app in Hc. cbn [map concat] in Hc.
  rewrite !len_app in Hc. unfold CAPTURE_BUFFER, u32_max in *.
  pose proof (len_nonneg (concat (map fst l1))). pose proof (len_nonneg (concat (map fst l2))). lia.
Qed.

Lemma flush_hands_back r t ps :
  staged r ps -> fits ps -> ps <> [] ->
  exists es, flush accepts_batch accepts r t = Ok (Reinject_new, t ++ es) /\ handed_back ps es.
Proof.
  intros (Hp & Ha & Hl) Hf Hne. pose proof (fits_small ps Hf) as Hsmall. destruct Hf as (Hn & Hc & Hb).
  unfold flush, send_batch. rewrite Ha, Hp.
  rewrite bool_decide_false by (destruct ps; [done|discriminate]).
  rewrite bool_decide_false.
  2:{ destruct ps as [|[b a] ps]; [done|]. inversion Hb; subst. simpl in *. intros [-> _]%app_eq_nil. done. }
  unfold BATCH_MAX, CAPTURE_BUFFER, SIZE_OF_ADDRESS in *. cbn [orb].
  replace (u32_max <? len (concat (map fst ps))) with false by (symmetry; apply Z.ltb_ge; unfold u32_max; lia).
  replace (u32_max <? 80 * len (map snd ps)) with false by (symmetry; apply Z.ltb_ge; rewrite len_map; unfold u32_max; lia).
  cbn [orb]. destruct (accepts_batch _ _ _); cbv iota beta; res_simpl.
  - eexists. split; [done|]. by left.
  - unfold flush_individually. rewrite Hp, Hl, Ha.
    destruct (flush_each_sends ps (t ++ [SendBatch (concat (map fst ps)) (map snd ps) false]) [] Hsmall) as (sends & He & Hs).
    rewrite len_nil, app_nil_l in He. rewrite He. res_simpl. rewrite <- app_assoc. eexists. split; [done|].
    right. by exists sends.
Qed.

Lemma staged_nil : staged Reinject_new [].
Proof. done. Qed.

Lemma staged_push r ps b a : staged r ps -> staged (push r b a) (ps ++ [(b, a)]).
Proof.
  intros (Hp & Ha & Hl). unfold staged, push. cbn [packets addresses lengths].
  rewrite !map_app, concat_app. cbn [map concat fst snd]. rewrite app_nil_r, Hp, Ha, Hl. done.
Qed.

(** Staging one more packet, flushing first when the batch is full. *)
Lemma stage_packet r t ps b a :
  staged r ps -> fits ps -> b <> [] -> len b <= CAPTURE_BUFFER ->
  exists r' t' groups segs ps',
    (if is_full r (len b) then flush accepts_batch accepts r t else Ok (r, t)) = Ok (r', t') /\
    t' = t ++ concat segs /\ Forall2 handed_back groups segs /\ Forall fits groups /\
    staged (push r' b a) ps' /\ fits ps' /\ concat groups ++ ps' = ps ++ [(b, a)].
Proof.
  intros Hs Hf Hb Hl. pose proof Hs as (Hp & Ha & _). unfold is_full. rewrite Hp, Ha, len_map.
  assert (Hone : fits [(b, a)]).
  { unfold fits. cbn [map concat fst]. rewrite app_nil_r. split_and!; [done|done|by repeat constructor]. }
  destruct ((BATCH_MAX <=? _) || _) eqn:Hfull.
  - destruct ps as [|pa ps].
    { exfalso. simpl in Hfull. apply Z.ltb_lt in Hfull. rewrite len_nil in Hfull. lia. }
    destruct (flush_hands_back r t (pa :: ps) Hs Hf ltac:(done)) as (es & He & Hh).
    exists Reinject_new, (t ++ es), [pa :: ps], [es], [(b, a)]. 
    cbn [concat]. rewrite !app_nil_r. split_and!; [exact He|done|by apply Forall2_cons|by apply Forall_singleton| |done|done].
    apply (staged_push Reinject_new [] b a staged_nil).
  - boolify. exists r, t, [], [], (ps ++ [(b, a)]). simpl. rewrite app_nil_r. split_and!; try done; [by apply staged_push|].
    destruct Hf as (Hf1 & Hf2 & Hf3). unfold fits. rewrite map_app, concat_app. cbn [map concat fst]. rewrite app_nil_r, !len_app.
    split_and!; [len_lia|lia|]. apply Forall_app. split; [done|by repeat constructor].
Qed.

(** A batch split into its packets, each with its address. *)
Fixpoint split_packets (b : bytes) (addrs : list Address) : list (bytes * Address) :=
  match addrs with
  | [] => []
  | a :: addrs =>
      if len b <=? 0 then []
      else
        match first_packet_len parse_packet b with
        | None => []
        | Some n => (sub_list b 0 n, a) :: split_packets (sub_list b n (len b)) addrs
        end
  end.

Context (table : FlowTable) (tr : Translation).

Definition passed_of (ps : list (bytes * Address)) : list (bytes * Address) :=
  flat_map (fun pa => match prepare_outbound pa.1 table tr with Ok (_, Outcome.PassThrough) => [pa] | _ => [] end) ps.

Definition sunk_of (ps : list (bytes * Address)) : list bytes :=
  flat_map (fun pa =>
    match prepare_outbound pa.1 table tr with
    | Ok (b, Outcome.Tunnel) => let '(c, _, ok) := calc_checksums b pa.2 in if ok then [c] else []
    | _ => []
    end) ps.

Context (calc_in_place : forall b a, is_bytes b ->
  len (calc_checksums b a).1.1 = len b /\ is_bytes (calc_checksums b a).1.1).

Lemma prepare_outbound_ok b :
  is_bytes b -> exists b' o, prepare_outbound b table tr = Ok (b', o) /\ len b' = len b /\ is_bytes b' /\
  (o <> Outcome.Tunnel -> b' = b).
Proof.
  intros Hb. pose proof (prepare_outbound_cases b table tr Hb) as H.
  destruct (packet_flow b) as [k|]; [|by eexists _, _]. destruct (wants_tunnel table tr k); [|by eexists _, _].
  destruct (same_kind _ _); [|by eexists _, _]. destruct H as (p & b' & Hp & _ & _ & Ho & Hb' & [Hl _] & _).
  destruct (packet_parse_ok b p Hb Hp) as [Hd _]. exists b', Outcome.Tunnel. split_and!; [done|congruence|done|done].
Qed.

Lemma sub_list_copy_other b off src x y :
  0 <= off -> off + len src <= len b -> 0 <= x <= y -> y <= len b -> y <= off \/ off + len src <= x ->
  sub_list (copy_at b off src) x y = sub_list b x y.
Proof.
  intros Ho Hl Hx Hy Hd. pose proof (len_nonneg src). apply sub_list_ext; [lia|rewrite len_copy_at; lia|lia|].
  intros i Hi. destruct Hd; [apply at_copy_lt; lia|apply at_copy_ge; lia].
Qed.

Lemma copy_at_twice d off x y :
  0 <= off -> off + len x <= len d -> len x = len y -> copy_at (copy_at d off x) off y = copy_at d off y.
Proof.
  intros Ho Hl He. unfold copy_at, len in *. rewrite take_app_le by (rewrite length_take; lia).
  rewrite take_take, Nat.min_id. do 2 f_equal. rewrite app_assoc, drop_app_ge by (rewrite length_app, length_take; lia).
  rewrite length_app, length_take, drop_drop. f_equal. lia.
Qed.

(** The state of the loop after the packets [ps], with [offset] bytes of the batch read. *)
Record captured (r0 r : Run) (received offset : Z) (ps : list (bytes * Address)) : Prop := {
  cap_buffer : len (buffer r) = CAPTURE_BUFFER /\ is_bytes (buffer r);
  cap_rest : sub_list (buffer r) offset received = sub_list (buffer r0) offset received;
  cap_ranges : Forall (fun se => 0 <= se.1 <= se.2 /\ se.2 <= offset) (tunnelled r);
  cap_sunk : map (fun se => sub_list (buffer r) se.1 se.2) (tunnelled r) = sunk_of ps;
  cap_back : exists groups segs st, trace r = trace r0 ++ concat segs /\ Forall2 handed_back groups segs /\
    Forall fits groups /\ staged (reinject r) st /\ fits st /\ concat groups ++ st = passed_of ps;
}.

(** Writing the packet at [start, stop) back keeps what the loop relies on. *)
Lemma captured_write r0 r received start stop ps src :
  captured r0 r received start ps -> 0 <= start < stop -> stop <= received -> received <= CAPTURE_BUFFER ->
  len src = stop - start -> is_bytes src ->
  let b := copy_at (buffer r) start src in
  (len b = CAPTURE_BUFFER /\ is_bytes b) /\ sub_list b stop received = sub_list (buffer r0) stop received /\
  Forall (fun se => 0 <= se.1 <= se.2 /\ se.2 <= stop) (tunnelled r) /\
  map (fun se => sub_list b se.1 se.2) (tunnelled r) = sunk_of ps /\ sub_list b start stop = src.
Proof.
  intros [[Hlen Hb] Hrest Hr Hsunk _] Hs Hstop Hrec Hl Hbytes b. subst b. split_and!.
  - rewrite len_copy_at; lia.
  - by apply is_bytes_copy_at.
  - rewrite sub_list_copy_other by lia. apply (f_equal (fun l => drop (Z.to_nat (stop - start)) l)) in Hrest.
    unfold sub_list in *. rewrite !skipn_firstn_comm, !drop_drop in Hrest.
    replace (Z.to_nat start + Z.to_nat (stop - start))%nat with (Z.to_nat stop) in Hrest by lia.
    replace (Z.to_nat (received - start) - Z.to_nat (stop - start))%nat with (Z.to_nat (received - stop)) in Hrest by lia.
    exact Hrest.
  - revert Hr. apply Forall_impl. intros se ?. lia.
  - rewrite <- Hsunk. apply map_ext_in. intros se Hin. rewrite Forall_forall in Hr. specialize (Hr se Hin).
    apply sub_list_copy_other; lia.
  - replace stop with (start + len src) by lia. apply sub_list_copy_at; lia.
Qed.

Lemma passed_of_snoc ps b a b' o :
  prepare_outbound b table tr = Ok (b', o) ->
  passed_of (ps ++ [(b, a)]) = passed_of ps ++ if decide (o = Outcome.PassThrough) then [(b, a)] else [].
Proof.
  intros H. unfold passed_of. rewrite flat_map_app. cbn [flat_map fst]. rewrite H. by destruct o; rewrite ?app_nil_r.
Qed.

Lemma sunk_of_snoc ps b a b' o :
  prepare_outbound b table tr = Ok (b', o) ->
  sunk_of (ps ++ [(b, a)]) = sunk_of ps ++
    if decide (o = Outcome.Tunnel) then let '(c, _, ok) := calc_checksums b' a in if ok then [c] else [] else [].
Proof.
  intros H. unfold sunk_of. rewrite flat_map_app. cbn [flat_map fst snd]. rewrite H. f_equal.
  destruct o; [|done|done]. destruct (calc_checksums b' a) as [[c a'] []]; done.
Qed.

(** One packet: it is staged, tunnelled or dropped by the decision about it. *)
Lemma capture_packet_ok r0 r received start stop ps a :
  captured r0 r received start ps -> 0 <= start < stop -> stop <= received -> received <= CAPTURE_BUFFER ->
  exists r', capture_packet calc_checksums accepts_batch accepts r table tr a start stop = Ok r' /\
  captured r0 r' received stop (ps ++ [(sub_list (buffer r) start stop, a)]).
Proof.
  intros Hc Hs Hstop Hrec. pose proof (cap_buffer _ _ _ _ _ Hc) as [Hlen Hb].
  destruct (cap_back _ _ _ _ _ Hc) as (groups & segs & st & Ht & Hback & Hfits & Hst & Hfst & Hcat).
  set (packet := sub_list (buffer r) start stop).
  assert (Hplen : len packet = stop - start) by (apply len_sub_list; lia).
  assert (Hpb : is_bytes packet) by by apply is_bytes_sub_list.
  assert (Hne : packet <> []) by (intros E; rewrite E, len_nil in Hplen; lia).
  destruct (prepare_outbound_ok packet Hpb) as (b' & o & Ho & Hl' & Hb' & Hsame).
  unfold capture_packet. rewrite slice_ok by lia. fold packet. res_simpl. rewrite Ho. cbv iota beta.
  destruct (captured_write r0 r received start stop ps b' Hc Hs Hstop Hrec ltac:(lia) Hb') as (W1 & W2 & W3 & W4 & W5).
  pose proof (passed_of_snoc ps packet a b' o Ho) as Hpass. pose proof (sunk_of_snoc ps packet a b' o Ho) as Hsunk.
  destruct o; cbn [decide] in *.
  - destruct (calc_in_place b' a Hb') as [Hcl Hcb]. destruct (calc_checksums b' a) as [[c a'] ok] eqn:Hcalc. simpl in Hcl, Hcb.
    destruct (captured_write r0 r received start stop ps c Hc Hs Hstop Hrec ltac:(lia) Hcb) as (V1 & V2 & V3 & V4 & V5).
    eexists. split; [done|]. rewrite copy_at_twice by lia. constructor; cbn [buffer trace tunnelled reinject]; try done.
    + destruct ok; [|done]. apply Forall_app. split; [done|]. apply Forall_singleton. simpl. lia.
    + rewrite Hsunk. destruct ok; [|by rewrite app_nil_r]. rewrite map_app. cbn [map fst snd]. by rewrite V4, V5.
    + exists groups, segs, st. by rewrite Hpass, app_nil_r.
  - rewrite (Hsame ltac:(done)) in *.
    destruct (stage_packet (reinject r) (trace r) st packet a Hst Hfst Hne ltac:(lia)) as
      (r1 & t1 & g1 & s1 & st1 & He & -> & Hb1 & Hf1 & Hst1 & Hfit1 & Hcat1).
    rewrite He. eexists. split; [done|]. constructor; cbn [buffer trace tunnelled reinject]; try done.
    { by rewrite Hsunk, app_nil_r. }
    exists (groups ++ g1), (segs ++ s1), st1. rewrite Ht, !concat_app, <- !app_assoc, Hcat1. split_and!; try done.
    + by apply Forall2_app.
    + apply Forall_app. done.
    + by rewrite Hpass, <- Hcat, <- app_assoc.
  - eexists. split; [done|]. constructor; cbn [buffer trace tunnelled reinject]; try done.
    + by rewrite Hsunk, app_nil_r.
    + exists groups, segs, st. by rewrite Hpass, app_nil_r.
Qed.

Lemma first_packet_len_bounds b n : first_packet_len parse_packet b = Some n -> 0 < n <= len b.
Proof.
  unfold first_packet_len. case_if; [done|]. destruct (parse_packet b) as [[next|]|]; [| |done].
  - pose proof (Z.mod_pos_bound next (2 ^ 32) ltac:(lia)). case_if; [|done]. intros [= <-]. boolify. lia.
  - case_if; [|done]. intros [= <-]. boolify. lia.
Qed.

Lemma sub_list_sub (b : bytes) x y u v :
  0 <= x -> 0 <= u <= v -> v <= y - x -> sub_list (sub_list b x y) u v = sub_list b (x + u) (x + v).
Proof.
  intros Hx Hu Hv. unfold sub_list. rewrite skipn_firstn_comm, drop_drop, take_take. f_equal; [lia|f_equal; lia].
Qed.

Lemma captured_stats r0 r received offset ps s :
  captured r0 r received offset ps -> captured r0 (mkRun (buffer r) (reinject r) (tunnelled r) s (trace r)) received offset ps.
Proof. intros [H1 H2 H3 H4 H5]. by constructor. Qed.

Lemma capture_batch_ok r0 received addrs : received <= CAPTURE_BUFFER -> forall r offset ps,
  captured r0 r received offset ps -> 0 <= offset <= received -> len (buffer r0) = CAPTURE_BUFFER ->
  exists r' offset', offset' <= received /\
  capture_batch parse_packet calc_checksums accepts_batch accepts r table tr received offset addrs = Ok r' /\
  captured r0 r' received offset' (ps ++ split_packets (sub_list (buffer r0) offset received) addrs).
Proof.
  intros Hrec. induction addrs as [|a addrs IH]; intros r offset ps Hc Ho Hlen0.
  { exists r, offset. simpl. rewrite app_nil_r. split_and!; [lia|done|done]. }
  pose proof (cap_buffer _ _ _ _ _ Hc) as [Hlen _]. pose proof (cap_rest _ _ _ _ _ Hc) as Hrest.
  cbn [capture_batch split_packets]. rewrite (len_sub_list (buffer r0)) by lia.
  destruct (received <=? offset) eqn:Hend; boolify.
  { rewrite (proj2 (Z.leb_le _ _)) by lia. rewrite app_nil_r. exists r, offset. split_and!; [lia|done|done]. }
  rewrite (proj2 (Z.leb_gt _ _)) by lia. rewrite slice_ok by lia. res_simpl. rewrite Hrest.
  destruct (first_packet_len parse_packet _) as [n|] eqn:Hn.
  2:{ eexists _, offset. split_and!; [lia|done|]. rewrite app_nil_r. by apply captured_stats. }
  apply first_packet_len_bounds in Hn. rewrite len_sub_list in Hn by lia. rewrite Z.min_l by lia.
  destruct (capture_packet_ok r0 r received offset (offset + n) ps a Hc ltac:(lia) ltac:(lia) Hrec) as (r1 & -> & Hc1).
  assert (Hpk : sub_list (buffer r) offset (offset + n) = sub_list (sub_list (buffer r0) offset received) 0 n).
  { rewrite <- Hrest, sub_list_sub by lia. f_equal; lia. }
  destruct (IH r1 (offset + n) _ Hc1 ltac:(lia) Hlen0) as (r' & off' & Hoff & He & Hc').
  exists r', off'. split_and!; [done|done|]. rewrite <- app_assoc, Hpk in Hc'. cbn [app] in Hc'.
  rewrite (sub_list_sub _ _ _ n) by lia. replace (offset + (received - offset)) with received by lia. exact Hc'.
Qed.

Lemma drain_sinks b ranges : forall t,
  Forall (fun se => 0 <= se.1 <= se.2 /\ se.2 <= len b) ranges ->
  drain b ranges t = Ok (t ++ map Sink (map (fun se => sub_list b se.1 se.2) ranges)).
Proof.
  induction ranges as [|[s e] ranges IH]; intros t H; [by rewrite app_nil_r|].
  inversion H as [|? ? Hse Hrest]; subst. simpl in Hse. cbn [drain]. rewrite slice_ok by lia. res_simpl.
  rewrite IH by done. by rewrite <- app_assoc.
Qed.

(** A captured batch is distributed completely and in order.  For every content of the
    buffer and however the driver answers, the turn ends without a panic and with nothing
    left staged; the packets that stay on the physical link are handed back byte for byte,
    each with its own address, in groups of at most 255 packets and 512 KiB, and when the
    driver refuses a group each of its packets is resent on its own; after the last of
    them, and not before, the packets of routed flows go to the tunnel, in order, exactly
    as translated and checksummed, although they wait in the shared buffer meanwhile. *)
Theorem batch_is_distributed r received addrs :
  len (buffer r) = CAPTURE_BUFFER -> is_bytes (buffer r) -> reinject r = Reinject_new -> tunnelled r = [] ->
  0 <= received <= CAPTURE_BUFFER ->
  let ps := split_packets (sub_list (buffer r) 0 received) addrs in
  exists r' groups segs,
    run_batch parse_packet calc_checksums accepts_batch accepts r table tr received addrs = Ok r' /\
    trace r' = trace r ++ concat segs ++ map Sink (sunk_of ps) /\
    Forall2 handed_back groups segs /\ Forall fits groups /\ concat groups = passed_of ps /\
    reinject r' = Reinject_new /\ tunnelled r' = [] /\ len (buffer r') = CAPTURE_BUFFER /\ is_bytes (buffer r').
Proof.
  intros Hlen Hb Hre Htu Hrec ps. unfold run_batch.
  set (r1 := mkRun (buffer r) (reinject r) (tunnelled r) (count_batch (stats r)) (trace r)).
  assert (Hc0 : captured r1 r1 received 0 []).
  { constructor; cbn [r1 buffer tunnelled trace reinject]; try done; [by rewrite Htu|by rewrite Htu|].
    exists [], [], []. rewrite Hre, app_nil_r. split_and!; try done. }
  destruct (capture_batch_ok r1 received addrs ltac:(lia) r1 0 [] Hc0 ltac:(lia) Hlen) as (r2 & off & Hoff & -> & Hc).
  cbn [app] in Hc. change (split_packets (sub_list (buffer r1) 0 received) addrs) with ps in Hc.
  destruct Hc as [[Hl2 Hb2] _ Hr2 Hs2 (groups & segs & st & Ht2 & Hback & Hfits & Hst & Hfst & Hcat)]. res_simpl.
  assert (Hflush : exists groups' segs', flush accepts_batch accepts (reinject r2) (trace r2) = Ok (Reinject_new, trace r ++ concat segs') /\
    Forall2 handed_back groups' segs' /\ Forall fits groups' /\ concat groups' = passed_of ps).
  { destruct st as [|pa st].
    - exists groups, segs. destruct Hst as (Hp & Ha & Hl). destruct (reinject r2). simpl in *. subst. unfold flush. simpl.
      rewrite app_nil_r in Hcat. by rewrite Ht2.
    - destruct (flush_hands_back _ (trace r2) _ Hst Hfst ltac:(done)) as (es & -> & Hh).
      exists (groups ++ [pa :: st]), (segs ++ [es]). rewrite !concat_app. cbn [concat]. rewrite !app_nil_r, Ht2, app_assoc.
      split_and!; [done|by apply Forall2_app; [|by apply Forall2_cons]|apply Forall_app; split; [done|by apply Forall_singleton]|done]. }
  destruct Hflush as (groups' & segs' & -> & Hback' & Hfits' & Hcat'). cbv iota beta.
  rewrite drain_sinks; [|revert Hr2; apply Forall_impl; intros se ?; unfold CAPTURE_BUFFER in *; lia].
  eexists _, groups', segs'. split; [done|]. cbn [trace reinject tunnelled buffer]. by rewrite Hs2, <- app_assoc.
Qed.

End Batch.

(** ** No leak *)

(** A packet of a flow the table routes is never passed through. *)
Lemma routed_not_passed table tr b k b' :
  is_bytes b -> packet_flow b = Some k -> lookup_flow table k = Some Disposition.Tunnel ->
  prepare_outbound b table tr <> Ok (b', Outcome.PassThrough).
Proof.
  intros Hb Hk Ht H. pose proof (prepare_outbound_cases b table tr Hb) as Hc. rewrite Hk in Hc.
  unfold wants_tunnel in Hc. rewrite (bool_decide_true _ Ht), orb_true_r in Hc.
  destruct (same_kind _ _); [|congruence]. destruct Hc as (? & ? & _ & _ & _ & Ho & _). congruence.
Qed.

(** *** The watchers and the session together *)

(** What [establish] of split_tunnel.rs keeps of the table when it replaces the
    translation: nothing once the physical address differs. *)
Definition kept_flows (current replacement : Translation) (t : FlowTable) : FlowTable :=
  if bool_decide (physical current = physical replacement) then t else clear_flows t.

(** What changes the table: a turn of a watcher, or a session that was established again. *)
Inductive tunnel_event := Watched (r : received) | Reestablished (replacement : Translation).

Definition tunnel_step (s : WatchState * Translation) (e : tunnel_event) : WatchState * Translation :=
  let '(w, tr) := s in
  match e with
  | Watched r => (watch_step w r, tr)
  | Reestablished replacement =>
      (mkWatch (kept_flows tr replacement (table w)) (classifier w) (watching w) (alarmed w), replacement)
  end.

Definition tunnel_run (s : WatchState * Translation) (es : list tunnel_event) : WatchState * Translation := fold_left tunnel_step es s.

Definition tunnel_owned (owner : Z * Z -> str) (e : tunnel_event) : Prop :=
  match e with Watched r => event_owned owner r | Reestablished _ => True end.

(** The event neither ends the flow [k], nor reopens it for a process that can be opened,
    nor brings another physical address than [address]. *)
Definition spares (k : FlowKey) (address : IpAddr) (e : tunnel_event) : Prop :=
  match e with Watched r => leaves k r | Reestablished replacement => physical replacement = address end.

Lemma tunnel_run_ok owner p es : forall s,
  Forall (tunnel_owned owner) es -> watch_ok owner p s.1 -> watch_ok owner p (tunnel_run s es).1.
Proof.
  induction es as [|e es IH]; intros [w tr] Ho Hs; [done|]. inversion Ho as [|? ? He Hes]; subst.
  apply IH; [done|]. destruct e as [r|replacement]; cbn [tunnel_step fst]; [by apply watch_step_ok|done].
Qed.

Lemma spares_all k d address es : forall s,
  Forall (spares k address) es -> physical s.2 = address -> table s.1 !! k = Some d -> table (tunnel_run s es).1 !! k = Some d.
Proof.
  induction es as [|e es IH]; intros [w tr] Hs Ha Hd; [done|]. inversion Hs as [|? ? He Hes]; subst.
  cbn [fst snd] in *. apply IH; [done|by destruct e|]. destruct e as [r|replacement]; cbn [tunnel_step fst table].
  - by apply leaves_step.
  - unfold kept_flows. by rewrite bool_decide_true.
Qed.

(** [C17] A selected application does not leak while the physical address stays.  The
    watchers see flows open and close, and the session is established again any number of
    times.  Once they have seen the connection opened by a process whose executable the
    policy sends through the tunnel, then as long as the flow has not ended or been reopened
    and no session was established under another physical address (which empties the table,
    and the flow is unknown until it is opened again), whatever else happens and whatever the
    translation is by then, no packet that carries the five-tuple of the flow is handed back
    to the physical link: every one is tunnelled or discarded. *)
Theorem routed_application_never_leaks owner p tr0 before a os pid k proc path after :
  let opened := Watched (Event a os) in
  Forall (tunnel_owned owner) (before ++ opened :: after) ->
  opens a k pid -> os pid = Some proc -> image_path proc = Some path ->
  Forall (spares k (physical (tunnel_run (start_watch p, tr0) before).2)) after ->
  route (mode p) (matches (new_classifier p) path) = Disposition.Tunnel ->
  forall tr ps packet a', Forall (fun pa => is_bytes pa.1) ps -> packet_flow packet = Some k ->
  (packet, a') ∉ passed_of (table (tunnel_run (start_watch p, tr0) (before ++ opened :: after)).1) tr ps.
Proof.
  intros opened Hall Hopen Hp Hi Hl Hroute tr ps packet a' Hps Hk Hin.
  assert (Ht : lookup_flow (table (tunnel_run (start_watch p, tr0) (before ++ opened :: after)).1) k = Some Disposition.Tunnel).
  { apply Forall_app in Hall as [Hb Hrest]. inversion Hrest as [|? ? Ho Hafter]; subst.
    pose proof (tunnel_run_ok owner p before (start_watch p, tr0) Hb (start_watch_ok owner p)) as Hok.
    unfold lookup_flow, tunnel_run. rewrite fold_left_app. cbn [fold_left].
    change (fold_left tunnel_step before (start_watch p, tr0)) with (tunnel_run (start_watch p, tr0) before).
    destruct (tunnel_run (start_watch p, tr0) before) as [w trb]. cbn [fst snd] in *. eapply spares_all; [exact Hl|done|].
    cbn [opened tunnel_step fst watch_step]. rewrite (watch_event_opens _ a os k pid Hopen).
    destruct (classify_openable owner p _ os pid proc path Hok Ho Hp Hi) as (c & -> & _).
    rewrite <- Hroute. simpl. by rewrite lookup_insert_flow, decide_True. }
  apply list_elem_of_In, in_flat_map in Hin as (pa & Hpa & Hx).
  rewrite Forall_forall in Hps. specialize (Hps pa Hpa).
  destruct (prepare_outbound pa.1 _ tr) as [[b' []]| |] eqn:Ho; try done.
  destruct Hx as [->|[]]. by eapply (routed_not_passed _ tr packet k b').
Qed.

Module ToyDivert.

Definition translation : Translation := Translation_new (V4 0xC0A800BD) (V4 0x0A4D0016) (V4 0x0A4D0001) 1280.

(** A UDP packet between two sockets. *)
Definition udp (src sport dst dport : Z) : bytes :=
  [0x45; 0; 0; 28; 0; 0; 0; 0; 64; 17; 0; 0] ++ be_bytes 4 src ++ be_bytes 4 dst ++
  be_bytes 2 sport ++ be_bytes 2 dport ++ [0; 8; 0; 0].


Definition udp_key : FlowKey := mkFlowKey 17 (V4 0xC0A800BD) 51000 (V4 0x01010101) 53.
Definition routed : FlowTable := {[ udp_key := Disposition.Tunnel ]}.
Definition query : bytes := udp 0xC0A800BD 51000 0x01010101 53.

Lemma udp_bytes : is_bytes query.
Proof. apply is_bytes_check. reflexivity. Qed.

Lemma prepare_outbound_decides_witness :
  exists b', prepare_outbound query routed translation = Ok (b', Outcome.Tunnel) /\
  packet_flow b' = Some (mkFlowKey 17 (V4 0x0A4D0016) 51000 (V4 0x01010101) 53).
Proof.
  pose proof (prepare_outbound_decides query routed translation udp_bytes ltac:(by vm_compute)) as H.
  assert (Hk : packet_flow query = Some udp_key) by (vm_compute; reflexivity).
  assert (Hw : wants_tunnel routed translation udp_key = true) by (vm_compute; reflexivity).
  rewrite Hk, Hw in H. destruct H as (p & b' & _ & Ho & _ & Hf). by exists b'.
Defined.

Definition reply : bytes := udp 0x01010101 53 0x0A4D0016 51000.

Lemma reply_returns_to_its_socket_witness :
  exists b', prepare_inbound reply translation = Ok (b', true) /\ packet_flow b' = Some (reverse udp_key).
Proof.
  destruct (reply_returns_to_its_socket reply translation udp_key) as [H _].
  - apply is_bytes_check. reflexivity.
  - by vm_compute.
  - reflexivity.
  - reflexivity.
  - apply H. vm_compute. reflexivity.
Defined.

(** A driver that splits by the IPv4 length field and refuses every batch. *)
Definition parse_packet (b : bytes) : option (option Z) :=
  let n := be_value (sub_list b 2 4) in if len b <? n then None else Some (Some (len b - n)).
Definition calc (b : bytes) (a : Address) : bytes * Address * bool := (b, a, true).

Definition pass : bytes := udp 0xC0A800BD 40000 0x08080808 123.
Definition batch : bytes := pass ++ query ++ pass.
Lemma filled_buffer :
  exists buf, len buf = CAPTURE_BUFFER /\ is_bytes buf /\ sub_list buf 0 (len batch) = batch.
Proof.
  assert (Hl : 0 + len batch <= len (zeros CAPTURE_BUFFER)) by (rewrite len_zeros; by vm_compute).
  exists (copy_at (zeros CAPTURE_BUFFER) 0 batch). split_and!.
  - rewrite len_copy_at; [by rewrite len_zeros|lia|exact Hl].
  - apply is_bytes_copy_at; [|apply is_bytes_check; vm_compute; reflexivity].
    unfold zeros, is_bytes. apply Forall_replicate. unfold uint. lia.
  - exact (sub_list_copy_at _ 0 batch ltac:(lia) Hl).
Qed.

Lemma batch_is_distributed_witness :
  exists buf r' groups segs,
    run_batch parse_packet calc (fun _ _ _ => false) (fun _ _ _ => true)
      (mkRun buf Reinject_new [] (mkStats 0 0 0 0 0) []) routed translation (len batch)
      [zeroed; zeroed; zeroed] = Ok r' /\
    trace r' = concat segs ++
      map Sink (sunk_of calc routed translation (split_packets parse_packet batch [zeroed; zeroed; zeroed])) /\
    concat groups = [(pass, zeroed); (pass, zeroed)].
Proof.
  destruct filled_buffer as (buf & Hl & Hb & Hs). exists buf.
  destruct (batch_is_distributed parse_packet calc (fun _ _ _ => false) (fun _ _ _ => true) routed translation
    ltac:(intros b a Hb'; exact (conj eq_refl Hb')) (mkRun buf Reinject_new [] (mkStats 0 0 0 0 0) []) (len batch)
    [zeroed; zeroed; zeroed] Hl Hb eq_refl eq_refl ltac:(by vm_compute)) as (r' & groups & segs & H1 & H2 & _ & _ & H3 & _).
  cbn [buffer trace] in *. rewrite Hs in *. exists r', groups, segs. split; [exact H1|]. split; [exact H2|].
  rewrite H3. vm_compute. reflexivity.
Defined.

Definition tcp_packet : bytes :=
  [0x45; 0; 0; 40; 0; 0; 0; 0; 64; 6; 0; 0] ++ be_bytes 4 0x0A000002 ++ be_bytes 4 0x5DB8D822 ++
  be_bytes 2 51000 ++ be_bytes 2 443 ++ zeros 16.

(** The browser's connection, a duplicate event of an unreadable process, and a new session
    at the same physical address. *)
Definition toy_events : list tunnel_event :=
  [Watched (Event (ToyFlow.connect_event 4) ToyFlow.os); Reestablished (Translation_new (V4 0xC0A800BD) (V4 0x0A4D0017) (V4 0x0A4D0001) 1280)].

Lemma routed_application_never_leaks_witness :
  (tcp_packet, zeroed) ∉ passed_of (table (tunnel_run (start_watch ToyFlow.policy, translation)
    ([] ++ Watched (Event (ToyFlow.connect_event 7) ToyFlow.os) :: toy_events)).1)
    translation [(tcp_packet, zeroed)].
Proof.
  apply (routed_application_never_leaks ToyFlow.owner ToyFlow.policy translation [] (ToyFlow.connect_event 7) ToyFlow.os 7 ToyFlow.key
    ToyFlow.proc ToyFlow.browser toy_events).
  - repeat constructor; exact ToyFlow.os_owned.
  - apply ToyFlow.connect_opens; [done|by left].
  - reflexivity.
  - vm_compute. reflexivity.
  - constructor; [exact ToyFlow.system_leaves|]. constructor; [reflexivity|constructor].
  - vm_compute. reflexivity.
  - apply Forall_singleton. apply is_bytes_check. vm_compute. reflexivity.
  - vm_compute. reflexivity.
Defined.

(** When a session is established under another physical address, a connection that is
    still open is forgotten and its packets are left to the physical link. *)
Definition moved : Translation := Translation_new (V4 0xC0A800BE) (V4 0x0A4D0017) (V4 0x0A4D0001) 1280.

Example open_flow_is_forgotten_on_another_address :
  passed_of (table (tunnel_run (start_watch ToyFlow.policy, translation)
    [Watched (Event (ToyFlow.connect_event 7) ToyFlow.os); Reestablished moved]).1) moved [(tcp_packet, zeroed)] = [(tcp_packet, zeroed)].
Proof. vm_compute. reflexivity. Qed.

End ToyDivert.
