(* ===== verification/Handshake.v ===== *)
(** * Connecting: transports, I/O errors and the client handshake

    crates/transport/src/udp.rs (one datagram at a time and in batches),
    crates/client-core/src/session.rs, crates/linux-client/src/error.rs and
    handshake.rs, crates/windows-client/src/handshake.rs: the request is retransmitted
    until a response authenticates or the deadline passes; on Linux a response that does
    not authenticate starts a fresh attempt within the same deadline.

    What the operating system answers is a tape: every interaction (a reading of the
    clock, random bytes, a send, a receive) consumes one moment of it.  A computation
    threads the position on the tape, what was sent and the wire adapter; it yields
    nothing when its fuel is spent, so that a theorem about its result shows that it
    ends.  The theorems: connecting ends, and with what; the number of requests. *)

From S2P Require Import Prelude Protocol Replay Crypto ToyCrypto DataPlane Morph Speedy Config ClientWire.

(** ** I/O errors *)

Module ErrorKind.

(** The kinds the code distinguishes. *)
Inductive t :=
| ConnectionRefused | ConnectionReset | ConnectionAborted | NotConnected | HostUnreachable
| NetworkUnreachable | NetworkDown | BrokenPipe | Interrupted | WouldBlock | TimedOut
| WriteZero | InvalidInput | InvalidData | UnexpectedEof | Unsupported | PermissionDenied | NotFound | AlreadyExists | AddrNotAvailable | Other.

#[global] Instance eq_dec : EqDecision t.
Proof. solve_decision. Defined.

End ErrorKind.

Record IoError := mkIoError { kind : ErrorKind.t; raw_os_error : option Z }.

Definition ENOMEM : Z := 12.
Definition ENOBUFS : Z := 105.

Definition is_peer_unavailable (e : IoError) : bool :=
  bool_decide (kind e ∈ [ErrorKind.ConnectionRefused; ErrorKind.ConnectionReset; ErrorKind.ConnectionAborted;
    ErrorKind.NotConnected; ErrorKind.HostUnreachable; ErrorKind.NetworkUnreachable; ErrorKind.NetworkDown;
    ErrorKind.BrokenPipe]).

Definition is_retryable_network (e : IoError) : bool :=
  bool_decide (kind e ∈ [ErrorKind.Interrupted; ErrorKind.WouldBlock; ErrorKind.TimedOut]) ||
  bool_decide (raw_os_error e = Some ENOBUFS \/ raw_os_error e = Some ENOMEM) ||
  is_peer_unavailable e.

(** The Windows handshake's own list. *)
Definition is_retryable (e : IoError) : bool :=
  bool_decide (kind e ∈ [ErrorKind.TimedOut; ErrorKind.WouldBlock; ErrorKind.Interrupted;
    ErrorKind.ConnectionRefused; ErrorKind.ConnectionReset; ErrorKind.NotConnected]).

(** ** The UDP transport

    The shutdown flag is shared with the clones of a transport; a call reads it when the
    kernel has answered as well. *)

Definition shut_down : IoError := mkIoError ErrorKind.Interrupted None.

(** [DatagramTransport::send]; [kernel] is the outcome of [UdpSocket::send]. *)
Definition transport_send (shutdown : bool) (kernel : res IoError Z) (packet : bytes) : res IoError unit :=
  if shutdown then Err shut_down
  else
    written ← kernel;
    if written =? len packet then Ok tt else Err (mkIoError ErrorKind.WriteZero None).

(** [DatagramTransport::receive], with the flag before and after the blocking call. *)
Definition transport_receive (before after : bool) (kernel : res IoError bytes) : res IoError bytes :=
  if before then Err shut_down
  else
    received ← kernel;
    if after then Err shut_down else Ok received.

(** [send_batch_with] and [receive_batch_with]; [kernel] is the outcome of [sendmmsg] and
    [recvmmsg], in datagrams. *)
Definition send_batch_with (kernel : res IoError Z) (packets : list bytes) : res IoError Z :=
  if bool_decide (packets = []) then Ok 0
  else if 32 <? len packets then Err (mkIoError ErrorKind.InvalidInput None)
  else kernel.

Definition receive_batch_with (buffers : Z) (kernel : res IoError (list bytes)) : res IoError (list bytes) :=
  if (buffers =? 0) || (32 <? buffers) then Err (mkIoError ErrorKind.InvalidInput None)
  else kernel.

(** ** The session of client-core *)

Inductive SessionState := Disconnected | Handshaking | Established | Closing.

Record ClientSession := mkClientSession { cs_state : SessionState; cs_session_id : Z; cs_next_sequence : Z }.

Definition ClientSession_new (session_id : Z) : ClientSession := mkClientSession Disconnected session_id 0.

Definition next_header (s : ClientSession) (k : PacketKind.t) : ClientSession * Header.t :=
  (mkClientSession (cs_state s) (cs_session_id s) (sat_add64 (cs_next_sequence s) 1),
   Header.mk k 0 (cs_session_id s) (cs_next_sequence s)).

Definition begin_handshake (s : ClientSession) : ClientSession * Header.t :=
  next_header (mkClientSession Handshaking (cs_session_id s) (cs_next_sequence s)) PacketKind.HandshakeInit.

(** ** Client errors *)

Module ClientError.

Inductive t :=
| Io (e : IoError)
| Crypto (e : CryptoError.t)
| Outer (e : DecodeError.t)
| Parameters (e : SessionParametersError.t)
| DataPlane (e : DataPlaneError.t)
| Wire (e : ClientWireError.t)
| HandshakeTimeout
| InvalidHandshakeResponse
| SessionParametersChanged
| Random
| WorkerStopped
| Platform.

End ClientError.

(** ** The tape *)

Record moment := mkMoment {
  m_now : Z;
  m_wall : option Z;
  m_random : option bytes;
  m_entropy : bytes;
  m_sent : res IoError Z;
  m_arrival : res IoError bytes;
  m_batch : res IoError (list bytes);
  m_socket : res IoError unit;
}.

Record world := mkWorld { pos : nat; sent : list bytes; wire : ClientWire.t }.

Section Client.
Context `{N : Noise, P : Primitives} (tape : nat -> moment).

(** A computation of the client; [None] when the fuel is spent. *)
Definition M (A : Type) : Type := world -> world * option (res ClientError.t A).

Definition ret {A} (a : A) : M A := fun w => (w, Some (Ok a)).
Definition throw {A} (e : ClientError.t) : M A := fun w => (w, Some (Err e)).
Definition lift {A} (r : res ClientError.t A) : M A := fun w => (w, Some r).
Definition bind {A B} (m : M A) (k : A -> M B) : M B := fun w =>
  match m w with
  | (w, Some (Ok a)) => k a w
  | (w, Some (Err e)) => (w, Some (Err e))
  | (w, Some Panic) => (w, Some Panic)
  | (w, None) => (w, None)
  end.

(** One moment of the tape. *)
Definition moment_at : M moment := fun w => (mkWorld (S (pos w)) (sent w) (wire w), Some (Ok (tape (pos w)))).

Definition read_clock : M Z := bind moment_at (fun m => ret (m_now m)).

(** The [?] on the outcome of a send is left to the caller. *)
Definition send_datagram (d : bytes) : M (res IoError unit) :=
  bind moment_at (fun m w =>
    let r := transport_send false (m_sent m) d in
    (mkWorld (pos w) (match r with Ok _ => sent w ++ [d] | _ => sent w end) (wire w), Some (Ok r))).

Definition receive_datagram : M (res IoError bytes) :=
  bind moment_at (fun m => ret (transport_receive false false (m_arrival m))).

(** Creating a socket or setting an option of it. *)
Definition socket_call : M unit := bind moment_at (fun m => lift (map_err ClientError.Io (m_socket m))).

(** The wire adapter, with the clock and randomness of a moment. *)
Definition wire_encode (inner : bytes) : M bytes :=
  bind moment_at (fun m w =>
    let '(wire, r) := ClientWire.encode (m_wall m) (m_random m) (wire w) inner in
    (mkWorld (pos w) (sent w) wire, Some (map_err ClientError.Wire r))).

Definition wire_decode (outer : bytes) : M (res ClientWireError.t (bool * bytes)) :=
  bind moment_at (fun m w =>
    let '(wire, r) := ClientWire.decode (m_wall m) (wire w) outer in
    (mkWorld (pos w) (sent w) wire, Some (Ok r))).

(** ** The handshake *)

Definition HANDSHAKE_TIMEOUT : Z := 10000.
Definition HANDSHAKE_RETRANSMIT : Z := 700.

Section Negotiate.
(** The errors that do not end an attempt, and what a failed [finish] becomes. *)
Context (retryable : IoError -> bool) (rejected : ClientError.t) (random_error : ClientError.t).

Definition random_session_id : M Z :=
  bind moment_at (fun m =>
    match m_random m with
    | None => throw random_error
    | Some b => ret (be_value (resize b 8))
    end).

Definition send_request (request : bytes) : M unit :=
  bind (wire_encode request) (fun encoded =>
  bind (send_datagram encoded) (fun r =>
    match r with
    | Ok _ => ret tt
    | Err e => if retryable e then ret tt else throw (ClientError.Io e)
    | Panic => lift Panic
    end)).

(** The cover datagrams; a jitter that is not zero sleeps, which is one more moment. *)
Fixpoint send_covers (n : nat) : M unit :=
  match n with
  | O => ret tt
  | S n =>
      bind moment_at (fun m => bind (fun w => (w, Some (map_err ClientError.Wire
        (ClientWire.encode_cover (m_wall m) (m_random m) (wire w))))) (fun cover =>
      bind (send_datagram cover) (fun r =>
        match r with
        | Ok _ =>
            bind moment_at (fun m => bind (fun w => (w, Some (map_err ClientError.Wire
              (ClientWire.handshake_jitter_ms (wire w) (m_random m))))) (fun jitter =>
            bind (if jitter =? 0 then ret tt else bind moment_at (fun _ => ret tt)) (fun _ =>
            send_covers n)))
        | Err e => throw (ClientError.Io e)
        | Panic => lift Panic
        end)))
  end.

Definition send_prelude : M unit :=
  bind moment_at (fun m => bind (fun w => (w, Some (map_err ClientError.Wire
    (ClientWire.cover_count (wire w) (m_random m))))) (fun n => send_covers (Z.to_nat n))).

(** What a received datagram is to the attempt: nothing, or a response to it. *)
Definition response_of (session_id : Z) (r : res ClientWireError.t (bool * bytes)) : option bytes :=
  match r with
  | Ok (true, decoded) =>
      match Datagram.decode decoded with
      | Ok response =>
          if bool_decide (Header.kind (Datagram.header response) = PacketKind.HandshakeResponse) &&
             (Header.session_id (Datagram.header response) =? session_id)
          then Some (Datagram.payload response)
          else None
      | _ => None
      end
  | _ => None
  end.

(** The plane and parameters an authenticated response yields. *)
Definition accept (session_id : Z) (handshake : HandshakeState) (payload : bytes)
    : res ClientError.t (TunnelDataPlane * SessionParameters.t) :=
  '(crypto, payload) ← map_err (fun _ => rejected) (ClientHandshake_finish handshake payload);
  parameters ← map_err ClientError.Parameters (SessionParameters.decode payload);
  Ok (TunnelDataPlane_new session_id (SessionParameters.mtu parameters) crypto, parameters).

(** The receive loop of an attempt. *)
Fixpoint await (fuel : nat) (session_id : Z) (handshake : HandshakeState) (request : bytes)
    (deadline next_retransmit : Z) : M (TunnelDataPlane * SessionParameters.t) :=
  match fuel with
  | O => fun w => (w, None)
  | S fuel =>
      bind read_clock (fun now =>
      if deadline <=? now then throw ClientError.HandshakeTimeout
      else
        bind (if next_retransmit <=? now
              then bind (send_request request) (fun _ => ret (now + HANDSHAKE_RETRANSMIT))
              else ret next_retransmit) (fun next_retransmit =>
        bind socket_call (fun _ =>
        bind receive_datagram (fun r =>
          match r with
          | Err e =>
              if retryable e then await fuel session_id handshake request deadline next_retransmit
              else throw (ClientError.Io e)
          | Panic => lift Panic
          | Ok datagram =>
              bind (wire_decode datagram) (fun r =>
                match response_of session_id r with
                | None => await fuel session_id handshake request deadline next_retransmit
                | Some payload => lift (accept session_id handshake payload)
                end)
          end))))
  end.

(** Building the request; the same Noise bytes are sent every time. *)
Definition prepare_request (config : ValidatedClientConfig) : M (Z * HandshakeState * bytes) :=
  bind random_session_id (fun session_id =>
  bind (lift (map_err ClientError.Crypto (ClientHandshake_new (vc_client_private_key config)
    (vc_server_public_key config) (vc_context config)))) (fun handshake =>
  bind moment_at (fun m =>
  bind (lift (map_err ClientError.Crypto (ClientHandshake_write_initial handshake (m_entropy m) []))) (fun '(handshake, initial) =>
  ret (session_id, handshake,
    Datagram.encode (Datagram.mk (Header.mk PacketKind.HandshakeInit 0 session_id 0) initial)))))).

Definition run_attempt (fuel : nat) (session_id : Z) (handshake : HandshakeState) (request : bytes) (started deadline : Z)
    : M (TunnelDataPlane * SessionParameters.t) :=
  bind send_prelude (fun _ =>
  bind (send_request request) (fun _ =>
  await fuel session_id handshake request deadline (started + HANDSHAKE_RETRANSMIT))).

End Negotiate.

(** *** Linux *)

Definition linux_negotiate_attempt (fuel : nat) (config : ValidatedClientConfig) (deadline : Z)
    : M (TunnelDataPlane * SessionParameters.t) :=
  bind (prepare_request ClientError.Random config) (fun '(session_id, handshake, request) =>
  bind read_clock (fun started =>
  if deadline <=? started then throw ClientError.HandshakeTimeout
  else run_attempt is_retryable_network ClientError.InvalidHandshakeResponse fuel session_id handshake request started deadline)).

(** The outer loop: a response that did not authenticate is tried again before the
    deadline. *)
Fixpoint linux_attempts (fuel inner : nat) (config : ValidatedClientConfig) (deadline : Z)
    : M (TunnelDataPlane * SessionParameters.t) :=
  match fuel with
  | O => fun w => (w, None)
  | S fuel => fun w =>
      match linux_negotiate_attempt inner config deadline w with
      | (w, Some (Err ClientError.InvalidHandshakeResponse)) =>
          bind read_clock (fun now =>
            if now <? deadline then linux_attempts fuel inner config deadline
            else throw ClientError.InvalidHandshakeResponse) w
      | result => result
      end
  end.

Definition linux_negotiate (fuel : nat) (config : ValidatedClientConfig) : M (TunnelDataPlane * SessionParameters.t) :=
  bind read_clock (fun now => linux_attempts fuel fuel config (now + HANDSHAKE_TIMEOUT)).

(** [connect]: a fresh socket, then the negotiation. *)
Definition linux_connect (fuel : nat) (config : ValidatedClientConfig) : M (TunnelDataPlane * SessionParameters.t) :=
  bind socket_call (fun _ => linux_negotiate fuel config).

(** *** Windows *)

Definition windows_negotiate (fuel : nat) (config : ValidatedClientConfig) : M (TunnelDataPlane * SessionParameters.t) :=
  bind (prepare_request ClientError.Platform config) (fun '(session_id, handshake, request) =>
  bind read_clock (fun started =>
  run_attempt is_retryable ClientError.HandshakeTimeout fuel session_id handshake request started
    (started + HANDSHAKE_TIMEOUT))).

Definition windows_connect (fuel : nat) (config : ValidatedClientConfig) : M (TunnelDataPlane * SessionParameters.t) :=
  bind socket_call (fun _ => windows_negotiate fuel config).


(** ** Reasoning about computations *)

(** The computation ends, with a world and a result that satisfy [Q]. *)
Definition ends {A} (m : M A) (Q : world -> res ClientError.t A -> Prop) (w : world) : Prop :=
  exists w' r, m w = (w', Some r) /\ Q w' r.

Lemma ends_mono {A} (m : M A) (Q Q' : world -> res ClientError.t A -> Prop) w :
  ends m Q w -> (forall w' r, Q w' r -> Q' w' r) -> ends m Q' w.
Proof. intros (w' & r & Hm & HQ) H. exists w', r. auto. Qed.

Lemma ends_lift {A} (r : res ClientError.t A) (Q : world -> res ClientError.t A -> Prop) w : Q w r -> ends (lift r) Q w.
Proof. intros H. by exists w, r. Qed.

Lemma ends_ret {A} (a : A) (Q : world -> res ClientError.t A -> Prop) w : Q w (Ok a) -> ends (ret a) Q w.
Proof. intros H. by exists w, (Ok a). Qed.

Lemma ends_throw {A} e (Q : world -> res ClientError.t A -> Prop) w : Q w (Err e) -> ends (throw e) Q w.
Proof. intros H. by exists w, (Err e). Qed.

Lemma ends_bind {A B} (m : M A) (k : A -> M B) (Q : world -> res ClientError.t B -> Prop) w :
  ends m (fun w' r => match r with Ok a => ends (k a) Q w' | Err e => Q w' (Err e) | Panic => Q w' Panic end) w ->
  ends (bind m k) Q w.
Proof.
  intros (w' & r & Hm & H). unfold ends, bind. rewrite Hm. destruct r as [a|e|]; [exact H|by eexists _, _|by eexists _, _].
Qed.

Lemma ends_moment (Q : world -> res ClientError.t moment -> Prop) w :
  Q (mkWorld (S (pos w)) (sent w) (wire w)) (Ok (tape (pos w))) -> ends moment_at Q w.
Proof. intros H. by eexists _, _. Qed.

(** The errors that the negotiation itself decides about. *)
Definition calm {A} (r : res ClientError.t A) : Prop :=
  r <> Err ClientError.HandshakeTimeout /\ r <> Err ClientError.InvalidHandshakeResponse.

(** A step that always ends, moves on the tape, decides neither error and keeps the adapter's
    keys. *)
Definition step {A} (m : M A) : Prop := forall w,
  ends m (fun w' r => ((pos w <= pos w')%nat /\ ClientWire.later (wire w) (wire w')) /\ calm r) w.

Lemma step_bind {A B} (m : M A) (k : A -> M B) : step m -> (forall a, step (k a)) -> step (bind m k).
Proof.
  intros Hm Hk w. apply ends_bind. eapply ends_mono; [apply Hm|]. intros w' [a|e|] [[Hp Hl] Hc].
  - eapply ends_mono; [apply Hk|]. intros w2 r [[Hp2 Hl2] Hc2]. split; [|done]. split; [lia|by etrans].
  - split; [done|]. destruct Hc. split; congruence.
  - done.
Qed.

Lemma step_moment : step moment_at.
Proof. intros w. apply ends_moment. simpl. split; [split; [lia|done]|done]. Qed.

Lemma step_ret {A} (a : A) : step (ret a).
Proof. intros w. by apply ends_ret. Qed.

Lemma step_throw {A} e : e <> ClientError.HandshakeTimeout -> e <> ClientError.InvalidHandshakeResponse -> step (throw (A := A) e).
Proof. intros H1 H2 w. apply ends_throw. split; [by split; [lia|]|]. split; congruence. Qed.

Lemma step_panic {A} : step (lift (A := A) Panic).
Proof. intros w. apply ends_lift. by split; [split; [lia|]|]. Qed.

(** A pure reading of the world. *)
Lemma step_pure {A} (f : world -> res ClientError.t A) : (forall w, calm (f w)) -> step (fun w => (w, Some (f w))).
Proof. intros H w. eexists _, _. split; [done|]. by split; [split; [lia|]|]. Qed.

Lemma calm_map_err {E A} (f : E -> ClientError.t) (r : res E A) :
  (forall e, f e <> ClientError.HandshakeTimeout /\ f e <> ClientError.InvalidHandshakeResponse) -> calm (map_err f r).
Proof. intros H. destruct r as [a|e|]; try done. destruct (H e). split; simpl; congruence. Qed.

Create HintDb handshake.
#[local] Hint Resolve step_bind step_moment step_ret : handshake.

Lemma step_send_datagram d : step (send_datagram d).
Proof.
  apply step_bind; [apply step_moment|]. intros m w. eexists _, _. split; [done|]. simpl. by split; [split; [lia|]|].
Qed.

Lemma step_receive : step receive_datagram.
Proof. apply step_bind; auto with handshake. Qed.

Lemma step_socket_call : step socket_call.
Proof. apply step_bind; [apply step_moment|]. intros m. apply (step_pure (fun _ => _)). intros _. by apply calm_map_err. Qed.

Lemma step_wire_encode b : step (wire_encode b).
Proof.
  apply step_bind; [apply step_moment|]. intros m w. destruct (ClientWire.encode (m_wall m) (m_random m) (wire w) b) as [wi r] eqn:He.
  eexists _, _. split; [by rewrite He|]. simpl. split; [|by apply calm_map_err]. split; [lia|].
  pose proof (ClientWire.encode_later (wire w) (m_wall m) (m_random m) b) as H. by rewrite He in H.
Qed.

Lemma step_wire_decode b : step (wire_decode b).
Proof.
  apply step_bind; [apply step_moment|]. intros m w. destruct (ClientWire.decode (m_wall m) (wire w) b) as [wi r] eqn:He.
  eexists _, _. split; [by rewrite He|]. simpl. split; [|done]. split; [lia|].
  pose proof (ClientWire.decode_later (wire w) (m_wall m) b) as H. by rewrite He in H.
Qed.

Lemma step_send_request retryable b : step (send_request retryable b).
Proof.
  apply step_bind; [apply step_wire_encode|]. intros d. apply step_bind; [apply step_send_datagram|].
  intros [u|e|]; [apply step_ret| |apply step_panic].
  destruct (retryable e); [apply step_ret|by apply step_throw].
Qed.

Lemma step_send_covers n : step (send_covers n).
Proof.
  induction n as [|n IH]; [apply step_ret|]. cbn [send_covers].
  apply step_bind; [apply step_moment|]. intros m. apply step_bind; [by apply step_pure; intros; apply calm_map_err|].
  intros cover. apply step_bind; [apply step_send_datagram|].
  intros [u|e|]; [|by apply step_throw|apply step_panic].
  apply step_bind; [apply step_moment|]. intros m'. apply step_bind; [by apply step_pure; intros; apply calm_map_err|].
  intros j. apply step_bind; [|done]. destruct (j =? 0); auto with handshake.
Qed.

Lemma step_send_prelude : step send_prelude.
Proof.
  apply step_bind; [apply step_moment|]. intros m. apply step_bind; [by apply step_pure; intros; apply calm_map_err|].
  intros n. apply step_send_covers.
Qed.

(** ** What an attempt returns *)

Section Attempts.

(** The adapter before the negotiation. *)
Context (start : ClientWire.t).

(** A datagram that arrived between two positions of the tape, read with a later state of the
    adapter and the clock of a position between them, answers the request of this session and
    authenticates under the handshake. *)
Definition answered (rejected : ClientError.t) (session_id : Z) (handshake : HandshakeState) (lo hi : nat)
    (result : TunnelDataPlane * SessionParameters.t) : Prop :=
  exists i j wi datagram payload, (lo <= i < j)%nat /\ (j < hi)%nat /\ m_arrival (tape i) = Ok datagram /\ ClientWire.later start wi /\
  response_of session_id (ClientWire.decode (m_wall (tape j)) wi datagram).2 = Some payload /\
  accept rejected session_id handshake payload = Ok result.

(** The clock was read at or after the deadline between two positions. *)
Definition late (deadline : Z) (lo hi : nat) : Prop := exists i, (lo <= i < hi)%nat /\ deadline <= m_now (tape i).

Definition outcome (rejected : ClientError.t) (session_id : Z) (handshake : HandshakeState) (deadline : Z) (lo hi : nat)
    (r : res ClientError.t (TunnelDataPlane * SessionParameters.t)) : Prop :=
  match r with
  | Ok result => answered rejected session_id handshake lo hi result
  | Err ClientError.HandshakeTimeout => rejected = ClientError.HandshakeTimeout \/ late deadline lo hi
  | Err ClientError.InvalidHandshakeResponse => rejected = ClientError.InvalidHandshakeResponse
  | _ => True
  end.

Lemma outcome_mono rejected sid hs deadline lo hi lo' hi' r :
  (lo' <= lo)%nat -> (hi <= hi')%nat -> outcome rejected sid hs deadline lo hi r -> outcome rejected sid hs deadline lo' hi' r.
Proof.
  intros Hlo Hhi. destruct r as [pp|[]|]; try done; simpl.
  - intros (i & j & wi & d & pl & Hi & Hj & H). exists i, j, wi, d, pl. split; [lia|]. split; [lia|done].
  - intros [?|(i & Hi & ?)]; [by left|right]. exists i. split; [lia|done].
Qed.

Lemma outcome_calm rejected sid hs deadline lo hi {A} (r : res ClientError.t A) :
  calm r -> match r with Ok _ => True | Err e => outcome rejected sid hs deadline lo hi (Err e)
            | Panic => outcome rejected sid hs deadline lo hi Panic end.
Proof. intros [H1 H2]. destruct r as [|[]|]; done. Qed.

(** A step in front of a computation with an outcome. *)
Lemma ends_step {A} rejected sid hs deadline (m : M A) (k : A -> M (TunnelDataPlane * SessionParameters.t)) lo w :
  step m -> (lo < pos w)%nat -> ClientWire.later start (wire w) ->
  (forall a w', (pos w <= pos w')%nat -> ClientWire.later start (wire w') ->
   ends (k a) (fun w2 r => ((lo < pos w2)%nat /\ ClientWire.later start (wire w2)) /\ outcome rejected sid hs deadline lo (pos w2) r) w') ->
  ends (bind m k) (fun w2 r => ((lo < pos w2)%nat /\ ClientWire.later start (wire w2)) /\ outcome rejected sid hs deadline lo (pos w2) r) w.
Proof.
  intros Hm Hlo Hl Hk. apply ends_bind. eapply ends_mono; [apply Hm|]. intros w' r [[Hp Hl'] Hc].
  pose proof (outcome_calm rejected sid hs deadline lo (pos w') r Hc) as Ho.
  destruct r as [a|e|]; [apply Hk; [done|by etrans]|split; [split; [lia|by etrans]|done]|split; [split; [lia|by etrans]|done]].
Qed.

Lemma accept_outcome rejected sid hs deadline lo hi i j wi d payload :
  (rejected = ClientError.HandshakeTimeout \/ rejected = ClientError.InvalidHandshakeResponse) ->
  (lo <= i < j)%nat -> (j < hi)%nat -> m_arrival (tape i) = Ok d -> ClientWire.later start wi ->
  response_of sid (ClientWire.decode (m_wall (tape j)) wi d).2 = Some payload ->
  outcome rejected sid hs deadline lo hi (accept rejected sid hs payload).
Proof.
  intros Hrej Hi Hj Ha Hl Hr. destruct (accept rejected sid hs payload) as [pp|e|] eqn:Hacc; [| |done].
  - by exists i, j, wi, d, payload.
  - unfold accept in Hacc. res_simpl in Hacc. destruct (ClientHandshake_finish hs payload) as [[c pl]|e'|]; simpl in Hacc; [| |done].
    + destruct (SessionParameters.decode pl); simpl in Hacc; [done|injection Hacc as <-; done|done].
    + injection Hacc as <-. destruct Hrej as [-> | ->]; simpl; auto.
Qed.

Lemma await_spec retryable rejected sid hs req deadline n :
  (rejected = ClientError.HandshakeTimeout \/ rejected = ClientError.InvalidHandshakeResponse) ->
  (forall i, (n <= i)%nat -> deadline <= m_now (tape i)) ->
  forall fuel next w lo, (n < pos w + fuel)%nat -> (1 <= fuel)%nat -> (lo <= pos w)%nat -> ClientWire.later start (wire w) ->
  ends (await retryable rejected fuel sid hs req deadline next)
    (fun w' r => ((lo < pos w')%nat /\ ClientWire.later start (wire w')) /\ outcome rejected sid hs deadline lo (pos w') r) w.
Proof.
  intros Hrej Hclock. induction fuel as [|fuel IH]; intros next w lo Hn Hf Hlo Hl; [lia|]. cbn [await].
  apply ends_bind, ends_bind, ends_moment, ends_ret. cbv beta iota. cbn [pos sent wire].
  set (w1 := mkWorld (S (pos w)) (sent w) (wire w)). destruct (deadline <=? m_now (tape (pos w))) eqn:Hd; boolify.
  { apply ends_throw. cbn [w1 pos]. split; [split; [lia|done]|]. right. exists (pos w). split; [lia|done]. }
  assert (Hsmall : (pos w < n)%nat). { destruct (decide (n <= pos w)%nat) as [Hge|]; [|lia]. specialize (Hclock _ Hge). lia. }
  apply ends_step; [|cbn [w1 pos]; lia|done|].
  { destruct (next <=? _); [|apply step_ret]. apply step_bind; [apply step_send_request|]. intros; apply step_ret. }
  intros next' w2 Hw2 Hl2. cbn [w1 pos] in Hw2. apply ends_step; [apply step_socket_call|lia|done|]. intros _ w3 Hw3 Hl3.
  apply ends_bind, ends_bind, ends_moment, ends_ret. cbv beta iota. cbn [pos sent wire].
  destruct (m_arrival (tape (pos w3))) as [d|e|] eqn:Ha; cbn [transport_receive mbind res_bind].
  - apply ends_bind. unfold wire_decode. apply ends_bind, ends_moment. cbv beta iota. cbn [pos sent wire].
    set (m := tape (S (pos w3))). destruct (ClientWire.decode (m_wall m) (wire w3) d) as [wi r] eqn:Hdec.
    assert (Hl4 : ClientWire.later (wire w3) wi) by (pose proof (ClientWire.decode_later (wire w3) (m_wall m) d) as H; by rewrite Hdec in H).
    eexists _, _. split; [cbn [wire]; by rewrite Hdec|]. cbv beta iota. cbn [pos sent wire]. destruct (response_of sid r) as [payload|] eqn:Hresp.
    + apply ends_lift. cbn [pos wire]. split; [split; [lia|etrans; [exact Hl3|exact Hl4]]|]. eapply (accept_outcome _ _ _ _ _ _ (pos w3) (S (pos w3)) (wire w3) d); try done; [lia|lia|].
      fold m. by rewrite Hdec.
    + apply IH; cbn [pos wire]; [lia..|]. etrans; [exact Hl3|exact Hl4].
  - destruct (retryable e); [apply IH; cbn [pos wire]; [lia..|done]|]. apply ends_throw. cbn [pos]. split; [split; [lia|done]|done].
  - apply ends_lift. cbn [pos]. split; [split; [lia|done]|done].
Qed.

(** ** The negotiation *)

(** The session id, handshake state and request of an attempt under this configuration. *)
Definition own_request (config : ValidatedClientConfig) (session_id : Z) (handshake : HandshakeState) (request : bytes) : Prop :=
  exists fresh entropy initial,
  ClientHandshake_new (vc_client_private_key config) (vc_server_public_key config) (vc_context config) = Ok fresh /\
  ClientHandshake_write_initial fresh entropy [] = Ok (handshake, initial) /\
  request = Datagram.encode (Datagram.mk (Header.mk PacketKind.HandshakeInit 0 session_id 0) initial).

Lemma prepare_spec e config w :
  e <> ClientError.HandshakeTimeout -> e <> ClientError.InvalidHandshakeResponse ->
  ends (prepare_request e config) (fun w' r => (pos w < pos w')%nat /\ calm r /\
    ClientWire.later (wire w) (wire w') /\ forall sid hs req, r = Ok (sid, hs, req) -> own_request config sid hs req) w.
Proof.
  intros He1 He2. unfold prepare_request, random_session_id.
  apply ends_bind, ends_bind, ends_moment. cbv beta iota. cbn [pos].
  destruct (m_random _) as [b|]; [apply ends_ret|apply ends_throw; cbn [pos]; split_and!; [lia|split; congruence|done|done]].
  apply ends_bind, ends_lift. cbn [pos].
  destruct (ClientHandshake_new _ _ _) as [fresh|e0|] eqn:Hnew; cbn [map_err];
    [|split_and!; [lia|split; congruence|done|done]|split_and!; [lia|split; congruence|done|done]].
  apply ends_bind, ends_moment. cbv beta iota. cbn [pos sent wire]. apply ends_bind, ends_lift.
  destruct (ClientHandshake_write_initial fresh _ []) as [[hs initial]|e0|] eqn:Hw; cbn [map_err pos];
    [|split_and!; [lia|split; congruence|done|done]|split_and!; [lia|split; congruence|done|done]].
  apply ends_ret. cbn [pos]. split_and!; [lia|split; congruence|done|]. intros sid hs' req H.
  inversion H; subst. by eexists fresh, _, initial.
Qed.

Lemma run_attempt_spec retryable rejected sid hs req started deadline n w lo :
  (rejected = ClientError.HandshakeTimeout \/ rejected = ClientError.InvalidHandshakeResponse) ->
  (forall i, (n <= i)%nat -> deadline <= m_now (tape i)) -> (lo < pos w)%nat -> ClientWire.later start (wire w) ->
  ends (run_attempt retryable rejected (S n) sid hs req started deadline)
    (fun w' r => ((lo < pos w')%nat /\ ClientWire.later start (wire w')) /\ outcome rejected sid hs deadline lo (pos w') r) w.
Proof.
  intros Hrej Hclock Hlo Hl. unfold run_attempt. apply ends_step; [apply step_send_prelude|done|done|]. intros _ w1 Hw1 Hl1.
  apply ends_step; [apply step_send_request|lia|done|]. intros _ w2 Hw2 Hl2. eapply await_spec; try done; lia.
Qed.

Definition connected (rejected : ClientError.t) (config : ValidatedClientConfig) (lo hi : nat) (result : TunnelDataPlane * SessionParameters.t) : Prop :=
  exists sid hs req, own_request config sid hs req /\ answered rejected sid hs lo hi result.

(** What the Linux negotiation may return. *)
Definition negotiated (config : ValidatedClientConfig) (deadline : Z) (lo hi : nat) (final : bool)
    (r : res ClientError.t (TunnelDataPlane * SessionParameters.t)) : Prop :=
  match r with
  | Ok result => connected ClientError.InvalidHandshakeResponse config lo hi result
  | Err ClientError.HandshakeTimeout => late deadline lo hi
  | Err ClientError.InvalidHandshakeResponse => if final then late deadline lo hi else True
  | _ => True
  end.

Lemma negotiated_mono config deadline lo hi lo' hi' r b :
  (lo' <= lo)%nat -> (hi <= hi')%nat -> negotiated config deadline lo hi b r -> negotiated config deadline lo' hi' b r.
Proof.
  intros Hlo Hhi. assert (Hlate : late deadline lo hi -> late deadline lo' hi').
  { intros (i & Hi & ?). exists i. split; [lia|done]. }
  destruct r as [pp|[]|]; simpl; try done; [|by destruct b; auto].
  intros (sid & hs & req & Ho & Ha). exists sid, hs, req. split; [done|].
  exact (outcome_mono ClientError.InvalidHandshakeResponse sid hs deadline lo hi lo' hi' (Ok pp) Hlo Hhi Ha).
Qed.

Lemma negotiate_attempt_spec config deadline n w :
  (forall i, (n <= i)%nat -> deadline <= m_now (tape i)) ->
  ClientWire.later start (wire w) ->
  ends (linux_negotiate_attempt (S n) config deadline)
    (fun w' r => ((pos w < pos w')%nat /\ ClientWire.later start (wire w')) /\ negotiated config deadline (pos w) (pos w') false r) w.
Proof.
  intros Hclock Hl0. unfold linux_negotiate_attempt. apply ends_bind.
  eapply ends_mono; [by apply prepare_spec|]. intros w1 [[[sid hs] req]|e|] (Hp & [Hc1 Hc2] & Hl & Hown);
    assert (Hl1 : ClientWire.later start (wire w1)) by (etrans; [exact Hl0|exact Hl]).
  2:{ split; [done|]. by destruct e. }
  2:{ done. }
  specialize (Hown _ _ _ eq_refl). apply ends_bind, ends_bind, ends_moment, ends_ret. cbv beta iota. cbn [pos sent wire].
  destruct (deadline <=? _) eqn:Hd; boolify.
  { apply ends_throw. cbn [pos]. split; [split; [lia|done]|]. exists (pos w1). split; [lia|done]. }
  eapply ends_mono; [eapply (run_attempt_spec _ _ _ _ _ _ _ n _ (pos w)); [by right|done|cbn [pos]; lia|done]|].
  intros w2 r [Hp2 Ho]. split; [done|]. destruct r as [pp|[]|]; try done.
  - by exists sid, hs, req.
  - destruct Ho; done.
Qed.

Lemma attempts_spec config deadline n inner : (n < inner)%nat ->
  (forall i, (n <= i)%nat -> deadline <= m_now (tape i)) ->
  forall fuel w lo, (n < pos w + fuel)%nat -> (1 <= fuel)%nat -> (lo <= pos w)%nat -> ClientWire.later start (wire w) ->
  ends (linux_attempts fuel inner config deadline)
    (fun w' r => negotiated config deadline lo (pos w') true r) w.
Proof.
  intros Hinner Hclock. destruct inner as [|k]; [lia|].
  assert (Hk : forall i, (k <= i)%nat -> deadline <= m_now (tape i)) by (intros; apply Hclock; lia).
  induction fuel as [|fuel IH]; intros w lo Hn Hf Hlo Hl; [lia|]. cbn [linux_attempts].
  destruct (negotiate_attempt_spec config deadline k w Hk Hl) as (w1 & r & Hr & [Hp Hl1] & Ho). unfold ends. rewrite Hr.
  destruct r as [pp|e|]; [by eexists _, _; split; [done|]; eapply negotiated_mono; [| |exact Ho]|
    |by eexists _, _; split; [done|]; eapply negotiated_mono; [| |exact Ho]].
  destruct e; try by eexists _, _; split; [done|]; eapply negotiated_mono; [| |exact Ho].
  apply (ends_bind read_clock), ends_bind, ends_moment, ends_ret. cbv beta iota. cbn [pos sent wire].
  destruct (_ <? deadline) eqn:Hd; boolify.
  - assert (pos w1 < n)%nat. { destruct (decide (n <= pos w1)%nat) as [Hge|]; [|lia]. specialize (Hclock _ Hge). lia. }
    eapply ends_mono; [apply (IH _ lo); cbn [pos]; [lia..|done]|]. done.
  - apply ends_throw. exists (pos w1). cbn [pos]. split; [lia|done].
Qed.

End Attempts.

(** [C21] Connecting ends, and ends for a reason.  If the clock passes the deadline, ten
    seconds after the negotiation began, by the n-th interaction with the operating
    system, then the negotiation returns within n turns of its loops, whatever datagrams
    arrive.  A session is only ever built from a datagram that arrived meanwhile, was unwrapped
    by a state of the client's own adapter, names the session of a request this client wrote
    under its own keys, and authenticates under that request's handshake state; a timeout,
    or a rejected response, is only reported once the deadline has passed. *)
Theorem negotiation_ends config w n :
  (forall i, (n <= i)%nat -> m_now (tape (pos w)) + HANDSHAKE_TIMEOUT <= m_now (tape i)) ->
  exists w' r, linux_negotiate (S n) config w = (w', Some r) /\
  negotiated (wire w) config (m_now (tape (pos w)) + HANDSHAKE_TIMEOUT) (pos w) (pos w') true r.
Proof.
  intros Hclock. apply (ends_bind read_clock), ends_bind, ends_moment, ends_ret. cbv beta iota. cbn [pos sent wire].
  apply (attempts_spec (wire w) config _ n); cbn [pos]; try done; lia.
Qed.

End Client.

(** ** Witnesses *)

Module ToyHandshake.
Import Toy.

Definition config : ValidatedClientConfig :=
  mkValidatedClientConfig (mkSocketAddr (V4 1) 51820) (replicate 32 5) (replicate 32 6) [] [] Legacy.

(** The server's answer to session 0x0707070707070707: address 10.77.0.2/24, MTU 1280. *)
Definition answer : bytes :=
  Datagram.encode (Datagram.mk (Header.mk PacketKind.HandshakeResponse 0 0x0707070707070707 0)
    (replicate 48 0 ++ SessionParameters.encode (SessionParameters.mk (ipv4_new 10 77 0 2) 24 1280 (ipv4_new 10 77 0 1)))).

(** Half a second passes at every interaction; the answer is there when the client looks,
    unless the server is silent. *)
Definition tape (silent : bool) (i : nat) : moment :=
  mkMoment (500 * Z.of_nat i) (Some 0) (Some (replicate 45 7)) [] (Ok 52)
    (if silent then Err (mkIoError ErrorKind.TimedOut None) else Ok answer) (Ok []) (Ok tt).

Definition before : world := mkWorld 0 [] ClientWire.Legacy.

Lemma clock_passes silent :
  forall i, (20 <= i)%nat -> m_now (tape silent (pos before)) + HANDSHAKE_TIMEOUT <= m_now (tape silent i).
Proof. intros i Hi. unfold HANDSHAKE_TIMEOUT. cbn [tape m_now before pos]. lia. Qed.

Lemma negotiation_ends_witness :
  (exists w plane parameters, linux_negotiate (tape false) 21 config before = (w, Some (Ok (plane, parameters))) /\
   SessionParameters.mtu parameters = 1280 /\
   connected (tape false) (wire before) ClientError.InvalidHandshakeResponse config (pos before) (pos w) (plane, parameters)) /\
  exists w, linux_negotiate (tape true) 21 config before = (w, Some (Err ClientError.HandshakeTimeout)) /\ len (sent w) = 4.
Proof.
  split.
  - destruct (negotiation_ends (tape false) config before 20 (clock_passes false)) as (w & r & Hr & Hn).
    assert (Hok : match (linux_negotiate (tape false) 21 config before).2 with
      | Some (Ok (_, p)) => SessionParameters.mtu p = 1280 | _ => False end) by (vm_compute; reflexivity).
    rewrite Hr in Hok. destruct r as [[plane parameters]|e|]; [|destruct Hok|destruct Hok].
    exists w, plane, parameters. split; [exact Hr|]. split; [exact Hok|exact Hn].
  - destruct (negotiation_ends (tape true) config before 20 (clock_passes true)) as (w & r & Hr & _).
    assert (Hok : match linux_negotiate (tape true) 21 config before with
      | (w, Some (Err ClientError.HandshakeTimeout)) => len (sent w) = 4 | _ => False end) by (vm_compute; reflexivity).
    rewrite Hr in Hok. exists w. destruct r as [[plane parameters]|[]|]; try contradiction.
    split; [exact Hr|exact Hok].
Defined.

End ToyHandshake.
