(* ===== verification/EndToEnd.v ===== *)
(** * A client and the server, end to end

    The client of Handshake.v and the daemon of Daemon.v meet here: the request a client
    writes is handled by the server, the server's answer is accepted by the client, and
    what the client's sender makes of an IP packet comes out of the server's tunnel
    device.  The two ends only share keys and what the Noise library promises about its
    IK handshake ([HandshakeLaws]). *)

From S2P Require Import Prelude Protocol Replay Crypto ToyCrypto DataPlane Morph Speedy RateLimit Config ClientWire Registry Traffic Wire Daemon Handshake.

(** Noise IK as snow documents it: the responder reads the initiator's first message,
    learns its static key and answers; the initiator reads the answer, and both reach
    transport states of which each reads what the other writes.  The answer is 48 bytes
    longer than its payload (an ephemeral key and a tag); static public keys are 32 bytes. *)
Class HandshakeLaws `{N : Noise, P : Primitives} := {
  ik_completes : forall client server context e1 i0 i1 m1,
    build_initiator client (public_key server) context = Some i0 ->
    hs_write_message i0 e1 [] MAX_NOISE_MESSAGE_LEN = Some (i1, m1) ->
    len m1 <= MAX_NOISE_MESSAGE_LEN /\
    exists r0 r1, build_responder server context = Some r0 /\ hs_read_message r0 m1 (len m1) = Some (r1, []) /\
    get_remote_static r1 = Some (public_key client) /\
    forall e2 p2, len p2 <= 1024 ->
    exists r2 m2 i2 ti tr, hs_write_message r1 e2 p2 MAX_NOISE_MESSAGE_LEN = Some (r2, m2) /\
      len m2 = len p2 + 48 /\ hs_read_message i1 m2 (len m2) = Some (i2, p2) /\
      get_remote_static i2 = Some (public_key server) /\
      into_stateless_transport_mode i2 = Some ti /\ into_stateless_transport_mode r2 = Some tr /\
      paired ti tr /\ paired tr ti;
  public_key_len : forall k, len (public_key k) = KEY_LEN;
}.

Section Meeting.
Context `{N : Noise, NL : !NoiseLaws, P : Primitives, PL : !PrimitiveLaws, HL : !HandshakeLaws, B : Base64, BL : !Base64Laws, T : Toml, TL : !TomlLaws}.

Lemma public_key_slice k : PublicKey_from_slice (public_key k) = Ok (public_key k).
Proof. unfold PublicKey_from_slice, try_into_array. by rewrite decide_True by apply public_key_len. Qed.

(** A client with the server's public key and the context of its protocol. *)
Definition provisioned_for (cc : ValidatedClientConfig) (sc : ValidatedServerConfig) : Prop :=
  configured_for cc sc /\
  vc_context cc =
    match vc_protocol cc with
    | SpeedyProtocol => context_for_speedy_server (vs_server_public_key sc)
    | _ => vs_context sc
    end.

(** Which context the server uses follows from the wire mode of the datagram. *)
Lemma context_of_mode cc sc wire0 wire k mode :
  provisioned_for cc sc -> ClientWire.from_config cc = Ok wire0 -> ClientWire.same_keys wire0 wire -> arrives_as wire k mode ->
  match mode with
  | WireMode.Speedy _ _ => context_for_speedy_server (vs_server_public_key sc)
  | _ => vs_context sc
  end = vc_context cc.
Proof.
  intros [_ Hctx] Hw Hsame Harr. rewrite Hctx. unfold ClientWire.from_config in Hw. case_bool_decide as Hp.
  - apply bind_ok in Hw as (key & _ & (codec & _ & Hw)%bind_ok). injection Hw as <-. rewrite Hp. by destruct wire, mode.
  - assert (Hn : forall codec, wire0 <> ClientWire.Speedy codec).
    { intros codec ->. destruct (morph_profile _); [|done]. by apply bind_ok in Hw as (key & _ & Hw). }
    destruct wire0 as [|c0|c0], wire as [|c1|c1], mode as [|k' c2|k' c2]; try done; try (by destruct (Hn c0)); by destruct (vc_protocol cc).
Qed.

(** The server's half of the handshake against a client's request. *)
Lemma server_reads (sc : ValidatedServerConfig) client context mode e1 i0 i1 m1 :
  match mode with
  | WireMode.Speedy _ _ => context_for_speedy_server (vs_server_public_key sc)
  | _ => vs_context sc
  end = context ->
  build_initiator client (public_key (vs_server_private_key sc)) context = Some i0 ->
  hs_write_message i0 e1 [] MAX_NOISE_MESSAGE_LEN = Some (i1, m1) ->
  exists r1, read_handshake sc mode m1 = Ok (r1, Some (public_key client)) /\
  forall rejected e2 sid parameters, SessionParameters.wf parameters -> parameters_valid parameters ->
  exists crypto response peer ti tr,
    ServerHandshake_finish r1 e2 (SessionParameters.encode parameters) = Ok (crypto, response) /\
    ss_transport crypto = tr /\ ss_receive_window crypto = ReplayWindow.default /\
    ss_peer_static_key crypto = public_key client /\ len response = len (SessionParameters.encode parameters) + 48 /\
    accept rejected sid i1 response =
      Ok (TunnelDataPlane_new sid (SessionParameters.mtu parameters) (SecureSession_new ti peer), parameters) /\
    paired ti tr /\ paired tr ti.
Proof.
  intros Hctx Hi Hw. destruct (ik_completes _ _ _ _ _ _ _ Hi Hw) as (Hl & r0 & r1 & Hr & Hread & Hstatic & Hnext).
  exists r1. split.
  - unfold read_handshake, ServerHandshake_new, ServerHandshake_read_initial, read_handshake_message.
    rewrite Hctx, Hr. res_simpl. cbn [noise_err ok_or]. rewrite (proj2 (Z.ltb_ge _ _)) by lia. rewrite Hread. cbn [noise_err ok_or].
    unfold ServerHandshake_peer_static_key. rewrite Hstatic. cbn [mbind option_bind]. by rewrite public_key_slice.
  - intros rejected e2 sid parameters Hwf Hv.
    destruct (Hnext e2 (SessionParameters.encode parameters)) as (r2 & m2 & i2 & ti & tr & Hw2 & Hl2 & Hread2 & Hs2 & Hti & Htr & Hp1 & Hp2).
    { by vm_compute. }
    exists (SecureSession_new tr (public_key client)), m2, (public_key (vs_server_private_key sc)), ti, tr. split_and!; try done.
    + unfold ServerHandshake_finish, peer_static_key, write_handshake_message. rewrite Hstatic. cbn [ok_or]. res_simpl.
      rewrite public_key_slice, Hw2. cbn [noise_err ok_or]. by rewrite Htr.
    + unfold accept, ClientHandshake_finish, read_handshake_message, peer_static_key.
      rewrite (proj2 (Z.ltb_ge _ _)) by (rewrite Hl2; by vm_compute). rewrite Hread2. cbn [noise_err ok_or]. res_simpl.
      rewrite Hs2. cbn [ok_or]. rewrite public_key_slice, Hti. cbn [noise_err ok_or map_err].
      by rewrite parameters_decode_encode.
Qed.

(** The answer of the server, before it is wrapped. *)
Definition response_datagram (sid : Z) (response : bytes) : bytes :=
  Datagram.encode (Datagram.mk (Header.mk PacketKind.HandshakeResponse 0 sid 0) response).

(** Installing a session under an unused identifier. *)
Lemma install_fresh e d peer dg mode k s response answer :
  by_id (d_sessions d) !! Header.session_id (Datagram.header dg) = None ->
  WireMode.encode_server (clock e) (random e) mode (response_datagram (Header.session_id (Datagram.header dg)) response) = Ok answer ->
  exists d', install_session e d peer dg mode k s response = (d', [SendTo answer peer]) /\
  find_session_by_id d' (Header.session_id (Datagram.header dg)) = Some (d_next d, s) /\ d_world d' = d_world d.
Proof.
  intros Hnone Ha. unfold install_session, alloc, replace_client. cbn [d_heap d_sessions]. rewrite Hnone. cbn [negb].
  unfold response_datagram in Ha. rewrite Ha. cbn [proceed]. eexists. split; [done|]. split; [|done].
  unfold find_session_by_id. cbn [set_cache set_sessions d_sessions d_heap by_id]. rewrite lookup_insert_eq.
  cbn [mbind option_bind]. by rewrite lookup_insert_eq.
Qed.

(** The parameters the server assigns to a device on a wire. *)
Definition assigned (sc : ValidatedServerConfig) (lease : DeviceLease) (mode : WireMode.t) : SessionParameters.t :=
  SessionParameters.mk (lease_address lease) (tun_prefix_len (vs_tun sc)) (WireMode.session_mtu mode (tun_mtu (vs_tun sc)))
    (tun_dns (vs_tun sc)).

(** A request that is not in the cache, of a registered device. *)
Lemma handshake_of_registered e sc d peer dg mode k r1 lease crypto response :
  read_handshake sc mode (Datagram.payload dg) = Ok (r1, Some k) -> WireMode.allows_client mode k = true ->
  authorize (d_world d) k = Some lease ->
  (forall c, d_cache d !! k = Some c -> request c <> Datagram.payload dg) ->
  ServerHandshake_finish r1 (entropy e) (SessionParameters.encode (assigned sc lease mode)) = Ok (crypto, response) ->
  handle_handshake e sc d peer dg mode =
    let '(d, s) := new_session e sc d peer (Header.session_id (Datagram.header dg)) (SessionParameters.mtu (assigned sc lease mode))
      crypto lease mode in
    install_session e d peer dg mode k s response.
Proof.
  intros Hread Hallow Hauth Hcache Hf. unfold handle_handshake. rewrite Hread. cbn [proceed]. rewrite Hallow, Hauth. cbn [negb].
  replace (match d_cache d !! k with Some _ => _ | None => None end) with (@None bytes).
  2:{ destruct (d_cache d !! _) as [c|]; [|done]. rewrite bool_decide_false; [done|]. by apply Hcache. }
  change (SessionParameters.mk _ _ _ _) with (assigned sc lease mode). by rewrite Hf.
Qed.

(** The first packet of a sender. *)
Lemma first_packet (sender : TunnelSender) packet :
  ts_next_sequence sender = 0 -> ts_mtu sender + 1 <= MAX_PLAINTEXT_LEN -> carries (ts_mtu sender) packet ->
  exists sender' c, TunnelSender_encode_ip_into sender packet [] = (sender', Ok (framed (ts_session_id sender) PacketKind.Data 0 c)) /\
    len c = len packet + 17 /\ carried sender 0 packet (framed (ts_session_id sender) PacketKind.Data 0 c).
Proof.
  intros Hseq Hm Hc. destruct (sender_encode_total sender packet [] Hc Hm) as (c & Hw & Henc); [rewrite Hseq; done|rewrite Hseq; done|].
  rewrite Hseq in Hw, Henc. eexists _, c. split; [exact Henc|]. split; [|by exists c].
  rewrite (write_message_len _ _ _ _ _ Hw). unfold len. cbn [length]. lia.
Qed.

(** What a paired session does with the first packet of its client. *)
Lemma uplink_first e d peer q s (sender : TunnelSender) packet ip datagram mode :
  find_session_by_id d (ts_session_id sender) = Some (q, s) ->
  is_active (w_flags (d_world d)) (rs_authorization s) = true -> WireMode.matches (rs_wire s) mode = true ->
  recv_window (tr_crypto (rs_inbound s)) = ReplayWindow.default ->
  paired (send_transport (ts_crypto sender)) (recv_transport (tr_crypto (rs_inbound s))) ->
  tr_session_id (rs_inbound s) = ts_session_id sender -> tr_mtu (rs_inbound s) = ts_mtu sender ->
  u64 (ts_session_id sender) -> ts_mtu sender + 1 <= MAX_PLAINTEXT_LEN ->
  carries (ts_mtu sender) packet -> Ipv4Packet.parse packet = Ok ip -> Ipv4Packet.source ip = rs_client_address s ->
  carried sender 0 packet datagram ->
  exists dg d', Datagram.decode datagram = Ok dg /\ handle_client_data e d peer dg mode = (d', [TunSend packet]).
Proof.
  intros Hf Ha Hwire Hwin Hpair Hid Hmtu Hu Hm Hc Hip Hsrc Hcar.
  destruct (receive_carried sender (rs_inbound s) ReplaySpec.empty 0 packet datagram) as (dg & r' & Hdec & Hout & _); try done.
  { rewrite Hwin. apply represents_default. }
  { by rewrite Hmtu. }
  { by rewrite Hmtu. }
  change (ReplaySpec.verdict ReplaySpec.empty 0) with (Ok (E := ReplayError.t) tt) in Hout. destruct Hout as [Hout _].
  assert (Hsid : Header.session_id (Datagram.header dg) = ts_session_id sender).
  { rewrite <- Hid. revert Hout. unfold TunnelReceiver_decode_into.
    destruct (Z.eqb_spec (Header.session_id (Datagram.header dg)) (tr_session_id (rs_inbound s))); [done|]. done. }
  eexists dg, _. split; [exact Hdec|].
  unfold handle_client_data. rewrite Hsid, Hf, Ha, Hwire. cbn [negb]. rewrite Hout. cbn [proceed].
  rewrite Hip. cbn [proceed]. cbn [rs_client_address with_inbound]. rewrite bool_decide_true by exact Hsrc. cbn [negb].
  reflexivity.
Qed.

(** *** Sizes and wire modes *)

Lemma arrives_first wire0 wire k mode :
  ClientWire.same_keys wire0 wire -> arrives_as wire k mode -> arrives_as wire0 k mode.
Proof.
  destruct wire0 as [|c0|c0], wire as [|c1|c1], mode as [|k' c2|k' c2]; try done; cbn [ClientWire.same_keys arrives_as].
  - by intros ->.
  - intros [Hs _] (-> & Hs' & Hc). by rewrite Hs', Hs.
Qed.

Lemma arrives_match wire0 wire wire' k mode mode' :
  ClientWire.same_keys wire0 wire -> ClientWire.same_keys wire0 wire' -> arrives_as wire k mode -> arrives_as wire' k mode' ->
  WireMode.matches mode mode' = true.
Proof.
  intros Hs Hs' Ha Ha'. apply (arrives_first wire0) in Ha, Ha'; [|done..].
  destruct wire0 as [|c0|c0], mode as [|k1 c1|k1 c1], mode' as [|k2 c2|k2 c2]; try done; cbn [arrives_as WireMode.matches] in *.
  - destruct Ha as [-> ->], Ha' as [-> ->]. by rewrite !bool_decide_true.
  - destruct Ha as [-> _], Ha' as [-> _]. by rewrite bool_decide_true.
Qed.

Lemma arrives_wire_ok wire k mode : arrives_as wire k mode -> wire_ok mode.
Proof. destruct wire, mode; try done. by intros (_ & _ & Hc). Qed.

(** The datagrams of a session fit every adapter. *)
Lemma datagram_fits wire k mode configured kind sid payload d :
  arrives_as wire k mode -> u64 sid -> 16 <= len payload <= WireMode.session_mtu mode configured + 17 ->
  kind = PacketKind.Data \/ kind = PacketKind.HandshakeResponse /\ d = Speedy.Direction.ServerToClient ->
  fits wire (Datagram.encode (Datagram.mk (Header.mk kind 0 sid 0) payload)) d.
Proof.
  intros Ha Hu Hl Hk. set (dg := Datagram.mk _ _).
  assert (Hdec : Datagram.decode (Datagram.encode dg) = Ok dg) by (apply datagram_decode_encode; repeat split; simpl; try done; apply Hu).
  assert (Hlen : len (Datagram.encode dg) = 20 + len payload) by (unfold Datagram.encode; by rewrite len_app).
  destruct wire as [|codec|codec], mode as [|k' codec'|k' codec']; try done; cbn [fits WireMode.session_mtu] in *.
  - rewrite Hlen. unfold SAFE_TUN_MTU in Hl. change MIN_FRAME_LEN with 42. change MAX_DATAGRAM_LEN with 1472. lia.
  - unfold Speedy.validate_inner. rewrite Hlen. unfold Speedy.SAFE_TUN_MTU in Hl.
    change (Header.HEADER_LEN + Speedy.SAMPLE_LEN) with 36. change Speedy.MAX_INNER_DATAGRAM_LEN with 1428.
    rewrite (proj2 (Z.leb_le 36 _)), (proj2 (Z.leb_le _ 1428)) by lia. cbn [andb negb]. rewrite Hdec. res_simpl. cbn.
    by destruct Hk as [->|[-> ->]].
Qed.

(** A session the server made for a client's request, as the client's first packet meets it. *)
Record expecting (sc : ValidatedServerConfig) (d1 : daemon) (sid : Z) (mode : WireMode.t) (lease : DeviceLease) (q : Z)
    (s : RuntimeSession) (tr : transport) : Prop := {
  ex_found : find_session_by_id d1 sid = Some (q, s);
  ex_active : is_active (w_flags (d_world d1)) (rs_authorization s) = true;
  ex_mode : rs_wire s = mode;
  ex_address : rs_client_address s = lease_address lease;
  ex_id : tr_session_id (rs_inbound s) = sid;
  ex_mtu : tr_mtu (rs_inbound s) = SessionParameters.mtu (assigned sc lease mode);
  ex_window : recv_window (tr_crypto (rs_inbound s)) = ReplayWindow.default;
  ex_transport : recv_transport (tr_crypto (rs_inbound s)) = tr;
}.

Lemma server_answers e sc d peer sid mode k lease r1 m1 crypto response answer :
  daemon_inv sc d -> wire_ok mode -> authorize (d_world d) k = Some lease ->
  read_handshake sc mode m1 = Ok (r1, Some k) -> WireMode.allows_client mode k = true ->
  by_id (d_sessions d) !! sid = None -> (forall c, d_cache d !! k = Some c -> request c <> m1) ->
  ServerHandshake_finish r1 (entropy e) (SessionParameters.encode (assigned sc lease mode)) = Ok (crypto, response) ->
  ss_peer_static_key crypto = k -> ss_receive_window crypto = ReplayWindow.default ->
  WireMode.encode_server (clock e) (random e) mode (response_datagram sid response) = Ok answer ->
  exists d1 q s, handle_handshake e sc d peer (Datagram.mk (Header.mk PacketKind.HandshakeInit 0 sid 0) m1) mode = (d1, [SendTo answer peer]) /\
    d_world d1 = d_world d /\ expecting sc d1 sid mode lease q s (ss_transport crypto).
Proof.
  intros I Hw Hauth Hread Hallow Hnone Hcache Hf Hkey Hwin Ha. set (dg := Datagram.mk _ m1).
  pose proof (new_session_ok e sc d peer sid (SessionParameters.mtu (assigned sc lease mode)) crypto k lease mode I Hauth Hw Hkey Hwin) as Hns.
  destruct (new_session e sc d peer sid _ crypto lease mode) as [d0 s] eqn:Hsess.
  destruct Hns as ((t & ->) & Hok & _ & Haddr & Hflag & _ & Hwire & Hid).
  destruct (install_fresh e (set_traffic d t) peer dg mode k s response answer Hnone Ha) as (d1 & Hinst & Hfind & Hworld).
  assert (Hin : rs_inbound s = (TunnelDataPlane_split (TunnelDataPlane_new sid (SessionParameters.mtu (assigned sc lease mode)) crypto)).2).
  { revert Hsess. unfold new_session, TunnelDataPlane_split. destruct (SecureSession_split _). destruct (counter _ _ _). by intros [= _ <-]. }
  exists d1, (d_next (set_traffic d t)), s. split_and!; [|done|].
  - rewrite (handshake_of_registered e sc d peer dg mode k r1 lease crypto response Hread Hallow Hauth Hcache Hf).
    cbn [dg Datagram.header Header.session_id]. rewrite Hsess. exact Hinst.
  - split; try done; try (by rewrite Hin).
    rewrite Hworld, Hflag. exact (lo_active _ _ _ (ri_leases _ (di_registry _ _ I)) _ lease Hauth).
Qed.

(** The limits hold for every wire mode when they hold for the configured MTU. *)
Lemma assigned_valid sc lease mode :
  SessionParameters.wf (assigned sc lease WireMode.Legacy) /\ parameters_valid (assigned sc lease WireMode.Legacy) ->
  SessionParameters.wf (assigned sc lease mode) /\ parameters_valid (assigned sc lease mode).
Proof.
  intros [(Ha & Hp & Hm & Hd) [Hp32 Hmtu]]. unfold SessionParameters.wf, parameters_valid, assigned in *.
  cbn [SessionParameters.client_address SessionParameters.prefix_len SessionParameters.mtu SessionParameters.dns] in *.
  destruct mode; cbn [WireMode.session_mtu] in *; unfold Speedy.SAFE_TUN_MTU, SAFE_TUN_MTU, uint in *; split_and!; try done; lia.
Qed.

(** The first packet of the client, wrapped by the client and received by the server. *)
Lemma first_packet_arrives e' sc cc d1 w1 sid mode lease q s tr wire0 wire4 plane ti pk packet ip t3 t3' random' :
  let k := public_key (vc_client_private_key cc) in
  expecting sc d1 sid mode lease q s tr -> paired ti tr -> u64 sid -> parameters_valid (assigned sc lease mode) ->
  plane = TunnelDataPlane_new sid (SessionParameters.mtu (assigned sc lease mode)) (SecureSession_new ti pk) ->
  carries (SessionParameters.mtu (assigned sc lease mode)) packet -> Ipv4Packet.parse packet = Ok ip ->
  Ipv4Packet.source ip = lease_address lease ->
  forall datagram, carried (TunnelDataPlane_split plane).1 0 packet datagram -> fits wire4 datagram Speedy.Direction.ClientToServer ->
  router_run sc (d_router d1) w1 -> configured_for cc sc -> ClientWire.from_config cc = Ok wire0 ->
  ClientWire.same_keys wire0 wire4 -> arrives_as wire0 k mode ->
  u64 t3 -> u64 t3' -> Z.abs (t3 - t3') <= 1 -> clock e' = Some t3' -> len random' = FRAME_RANDOM_LEN ->
  exists wire5 frame', ClientWire.encode (Some t3) (Some random') wire4 datagram = (wire5, Ok frame') /\
    (recognised t3' sc (d_router d1) w1 (d_world d1) k wire4 frame' ->
     forall peer' overflow', exists d2, Daemon.receive_datagram e' sc d1 frame' peer' overflow' = (d2, [TunSend packet])).
Proof.
  intros k X Hp Hu Hv -> Hc Hip Hsrc datagram Hcar Hfits Hrun Hconf Hw Hsame Harr Ht Ht' Hskew Hclock Hrand.
  destruct (datagram_received t3 t3' sc (d_world d1) w1 (d_router d1) cc wire0 wire4 random' datagram Hrun Hconf Hw Hsame Ht Ht' Hskew Hrand Hfits)
    as (wire5 & frame' & He & Hd).
  exists wire5, frame'. split; [done|]. intros Hrec peer' overflow'. destruct (Hd Hrec) as (r' & mode' & Hdec & Harr' & _).
  assert (Hrefl : ClientWire.same_keys wire0 wire0) by (by eapply ClientWire.from_config_keys).
  pose proof (arrives_match wire0 wire0 wire4 k mode mode' Hrefl Hsame Harr Harr') as Hmatch.
  set (d0 := noted e' sc d1 frame' overflow').
  destruct (uplink_first e' d0 peer' q s (TunnelDataPlane_split (TunnelDataPlane_new sid (SessionParameters.mtu (assigned sc lease mode))
      (SecureSession_new ti pk))).1 packet ip datagram mode') as (dg & d2 & Hdg & Hdata); try done.
  - exact (ex_found _ _ _ _ _ _ _ _ X).
  - exact (ex_active _ _ _ _ _ _ _ _ X).
  - by rewrite (ex_mode _ _ _ _ _ _ _ _ X).
  - exact (ex_window _ _ _ _ _ _ _ _ X).
  - rewrite (ex_transport _ _ _ _ _ _ _ _ X). exact Hp.
  - exact (ex_id _ _ _ _ _ _ _ _ X).
  - exact (ex_mtu _ _ _ _ _ _ _ _ X).
  - destruct Hv as [_ Hmtu]. cbn -[SessionParameters.mtu]. unfold MAX_PLAINTEXT_LEN, MAX_NOISE_MESSAGE_LEN, AUTH_TAG_LEN. lia.
  - by rewrite (ex_address _ _ _ _ _ _ _ _ X).
  - exists d2. rewrite (receive_unwrapped e' sc d1 frame' peer' overflow' mode' dg).
    2:{ exists datagram. by rewrite Hclock, Hdec. }
    cbv zeta. destruct Hcar as (c & -> & _). unfold framed in Hdg.
    rewrite datagram_decode_encode in Hdg by (repeat split; simpl; try done; apply Hu). injection Hdg as <-.
    exact Hdata.
Qed.

(** What a client's request is made of. *)
Lemma own_request_parts cc sc sid hs req :
  provisioned_for cc sc -> own_request cc sid hs req ->
  exists i0 e1 m1, build_initiator (vc_client_private_key cc) (public_key (vs_server_private_key sc)) (vc_context cc) = Some i0 /\
    hs_write_message i0 e1 [] MAX_NOISE_MESSAGE_LEN = Some (hs, m1) /\
    req = Datagram.encode (Datagram.mk (Header.mk PacketKind.HandshakeInit 0 sid 0) m1).
Proof.
  intros [[Hspk Hpk] _] (i0 & e1 & m1 & Hnew & Hinit & ->). unfold ClientHandshake_new in Hnew. rewrite Hpk, Hspk in Hnew.
  destruct (build_initiator _ _ _) as [i0'|] eqn:Hi; [|done]. injection Hnew as ->.
  unfold ClientHandshake_write_initial, write_handshake_message in Hinit.
  destruct (hs_write_message i0 e1 [] _) as [[i1 m1']|] eqn:Hwm; [|done]. injection Hinit as -> ->. by exists i0, e1, m1.
Qed.

Lemma handshake_datagram_decode kind sid payload :
  u64 sid -> Datagram.decode (Datagram.encode (Datagram.mk (Header.mk kind 0 sid 0) payload)) = Ok (Datagram.mk (Header.mk kind 0 sid 0) payload).
Proof. intros Hu. apply datagram_decode_encode. repeat split; simpl; try done; apply Hu. Qed.

(** [C12] A registered client and the server meet, on every wire.  The server is in a state
    it can reach, with a router last refreshed under the registry [w0]; the client was
    provisioned for it and its key is registered.  Its request is made under an unused
    session identifier, is not the one the server answered last for this device, wraps in
    the client's adapter and is recognised as in C14; the limiter admits the sender; the
    clocks of the two ends are at most a second apart, and the assigned parameters are
    within the limits of the protocol.  Then the server, receiving the datagram, answers;
    whatever its adapter has cached, the client unwraps and accepts the answer and obtains
    the address, prefix, MTU of the wire mode and resolver the server assigned; and any
    IPv4 packet from that address within the MTU, sent first in the new session, wraps, and
    when the server receives and recognises it as the next datagram, from any endpoint, it
    is written byte for byte to the server's tunnel device. *)
Theorem client_and_server_meet e sc cc d w0 peer overflow lease sid hs req wire0 wire wire1 t t' random random_server frame :
  let k := public_key (vc_client_private_key cc) in
  daemon_reachable sc d -> router_run sc (d_router d) w0 -> provisioned_for cc sc -> authorize (d_world d) k = Some lease ->
  own_request cc sid hs req -> u64 sid -> by_id (d_sessions d) !! sid = None ->
  (forall c dg, d_cache d !! k = Some c -> Datagram.decode req = Ok dg -> request c <> Datagram.payload dg) ->
  ClientWire.from_config cc = Ok wire0 -> ClientWire.same_keys wire0 wire ->
  ClientWire.encode (Some t) (Some random) wire req = (wire1, Ok frame) ->
  recognised t' sc (d_router d) w0 (d_world d) k wire frame ->
  (allow_at (d_limiter d) (ip peer) (now e)).2 = true ->
  clock e = Some t' -> Daemon.random e = Some random_server -> u64 t -> u64 t' -> Z.abs (t - t') <= 1 ->
  len random = FRAME_RANDOM_LEN -> len random_server = FRAME_RANDOM_LEN ->
  SessionParameters.wf (assigned sc lease WireMode.Legacy) /\ parameters_valid (assigned sc lease WireMode.Legacy) ->
  exists d1 answer mode,
    Daemon.receive_datagram e sc d frame peer overflow = (d1, [SendTo answer peer]) /\ arrives_as wire0 k mode /\
    let parameters := assigned sc lease mode in
    forall wire2 t2, ClientWire.same_keys wire0 wire2 -> u64 t2 -> Z.abs (t' - t2) <= 1 ->
    exists wire3 inner payload plane,
      ClientWire.decode (Some t2) wire2 answer = (wire3, Ok (true, inner)) /\
      response_of sid (Ok (true, inner)) = Some payload /\
      accept ClientError.InvalidHandshakeResponse sid hs payload = Ok (plane, parameters) /\
      forall packet ip, carries (SessionParameters.mtu parameters) packet -> Ipv4Packet.parse packet = Ok ip ->
        Ipv4Packet.source ip = lease_address lease ->
        exists sender datagram, TunnelSender_encode_ip_into (TunnelDataPlane_split plane).1 packet [] = (sender, Ok datagram) /\
        forall e' w1 wire4 t3 t3' random', router_run sc (d_router d1) w1 -> ClientWire.same_keys wire0 wire4 ->
          u64 t3 -> u64 t3' -> Z.abs (t3 - t3') <= 1 -> clock e' = Some t3' -> len random' = FRAME_RANDOM_LEN ->
          exists wire5 frame', ClientWire.encode (Some t3) (Some random') wire4 datagram = (wire5, Ok frame') /\
            (recognised t3' sc (d_router d1) w1 (d_world d1) k wire4 frame' ->
             forall peer' overflow', exists d2, Daemon.receive_datagram e' sc d1 frame' peer' overflow' = (d2, [TunSend packet])).
Proof.
  intros k Hreach Hrun Hprov Hauth Hown Hu Hnone Hcache Hw Hsame Henc Hrec Hlim Hclock Hsr Ht Ht' Hskew Hrand Hrand' Hpar.
  pose proof (reachable_inv sc d Hreach) as I. destruct (own_request_parts cc sc sid hs req Hprov Hown) as (i0 & e1 & m1 & Hi & Hwm & ->).
  pose proof (fun kind p => handshake_datagram_decode kind sid p Hu) as Hreqdec.
  pose proof (encode_fits _ _ _ _ _ _ _ Hsame Henc) as Hfits.
  destruct (datagram_received t t' sc (d_world d) w0 (d_router d) cc wire0 wire random _ Hrun (proj1 Hprov) Hw Hsame Ht Ht' Hskew Hrand Hfits)
    as (wire' & frame' & He & Hd). rewrite Henc in He. injection He as <- <-.
  destruct (Hd Hrec) as (r' & mode & Hdec & Harr & Hallow). fold k in Harr, Hallow.
  destruct (server_reads sc _ _ mode _ _ _ _ (context_of_mode cc sc wire0 wire k mode Hprov Hw Hsame Harr) Hi Hwm) as (r1 & Hread & Hfin).
  destruct (assigned_valid sc lease mode Hpar) as [Hwf Hv].
  destruct (Hfin ClientError.InvalidHandshakeResponse (entropy e) sid (assigned sc lease mode) Hwf Hv)
    as (crypto & response & pk & ti & tr & Hf & Htr & Hwin & Hkey & Hl & Hacc & Hp1 & Hp2).
  assert (Harr0 : arrives_as wire0 k mode) by (by eapply arrives_first).
  assert (Hfit : forall w, ClientWire.same_keys wire0 w -> fits w (response_datagram sid response) Speedy.Direction.ServerToClient).
  { intros w Hsw. assert (Hf0 : fits wire0 (response_datagram sid response) Speedy.Direction.ServerToClient).
    { apply (datagram_fits wire0 k mode (tun_mtu (vs_tun sc))); try done; [|by right]. rewrite Hl.
      change (len (SessionParameters.encode (assigned sc lease mode))) with 11. destruct Hv as [_ Hm]. cbn [assigned SessionParameters.mtu] in Hm. lia. }
    by destruct wire0, w. }
  assert (Hrefl : ClientWire.same_keys wire0 wire0) by (by eapply ClientWire.from_config_keys).
  destruct (server_datagram_reaches_client t' t' sc cc k wire0 wire0 mode random_server (response_datagram sid response))
    as (answer & Hans & _); try done; [apply Hprov|lia|by apply Hfit|].
  assert (Hun : unwraps e sc d frame mode (Datagram.mk (Header.mk PacketKind.HandshakeInit 0 sid 0) m1)).
  { eexists. rewrite Hclock, Hdec. split; [done|]. apply Hreqdec. }
  destruct (allow_at (d_limiter d) (ip peer) (now e)) as [limiter ok] eqn:Hallowed. cbn [snd] in Hlim. subst ok.
  set (d0 := set_limiter (noted e sc d frame overflow) limiter).
  assert (I0 : daemon_inv sc d0).
  { split; try apply I. change (routes_ok sc (decode_wire_into (clock e) sc (d_world d) (d_router d) frame).1).
    rewrite decode_wire_router. pose proof (resolve_safe (clock e) sc (d_world d) (d_router d) frame (di_router _ _ I)) as Hsafe.
    destruct (resolve (clock e) sc (d_world d) (d_router d) frame) as [r2 out]. exact (proj1 Hsafe). }
  destruct (server_answers e sc d0 peer sid mode k lease r1 m1 crypto response answer) as (d1 & q & s & Hhs & Hworld & X); try done.
  { by eapply arrives_wire_ok. }
  { intros c Hc. exact (Hcache c _ Hc (Hreqdec _ _)). }
  { by rewrite Hclock, Hsr. }
  exists d1, answer, mode. split; [|split; [done|]].
  { rewrite (receive_unwrapped e sc d frame peer overflow mode _ Hun). cbv zeta. cbn [Datagram.header Header.kind].
    change (d_limiter (noted e sc d frame overflow)) with (d_limiter d). rewrite Hallowed. exact Hhs. }
  intros parameters wire2 t2 Hsame2 Ht2 Hskew2.
  destruct (server_datagram_reaches_client t' t2 sc cc k wire0 wire2 mode random_server (response_datagram sid response))
    as (answer' & Hans' & wire3 & Hdec3); try done; [apply Hprov|by apply Hfit|].
  rewrite Hans in Hans'. injection Hans' as <-.
  eexists wire3, (response_datagram sid response), response, _. split; [exact Hdec3|]. split; [|split; [exact Hacc|]].
  { unfold response_of, response_datagram. rewrite Hreqdec. cbn [Datagram.header Datagram.payload Header.kind Header.session_id]. by rewrite Z.eqb_refl. }
  intros packet ip Hc Hip Hsrc. rewrite <- Htr in Hp1. set (plane := TunnelDataPlane_new _ _ _).
  destruct (first_packet (TunnelDataPlane_split plane).1 packet) as (sender & c & Hsend & Hcl & Hcar); [done| |done|].
  { destruct Hv as [_ Hmtu]. cbn -[SessionParameters.mtu]. unfold MAX_PLAINTEXT_LEN, MAX_NOISE_MESSAGE_LEN, AUTH_TAG_LEN. lia. }
  eexists sender, _. split; [exact Hsend|]. intros e' w1 wire4 t3 t3' random' Hrun' Hsame4 Ht3 Ht3' Hskew3 Hclock' Hrand3.
  eapply (first_packet_arrives e' sc cc d1 w1 sid mode lease q s _ wire0 wire4 plane ti pk packet ip t3 t3' random'); try done; [|apply Hprov].
  assert (Hf0 : fits wire0 (framed sid PacketKind.Data 0 c) Speedy.Direction.ClientToServer).
  { apply (datagram_fits wire0 k mode (tun_mtu (vs_tun sc))); try done; [|by left]. rewrite Hcl.
    destruct Hc as (_ & _ & Hc). cbn [parameters assigned SessionParameters.mtu] in Hc. pose proof (len_nonneg packet). lia. }
  by destruct wire0, wire4.
Qed.

End Meeting.

(** ** Witnesses *)

Module ToyMeeting.
Import Toy ToyConfig ToyRegistry ToyDaemon.

#[export] Instance toy_handshake_laws : HandshakeLaws.
Proof.
  split.
  - intros client server context e1 i0 i1 m1 Hi Hw.
    assert (Hi0 : Some (ToyInitiator client (public_key server)) = Some i0) by exact Hi. apply (inj Some) in Hi0 as <-.
    assert (Hm : Some (ToyInitiator client (public_key server), public_key client ++ []) = Some (i1, m1)) by exact Hw.
    apply (inj Some) in Hm. pose proof (f_equal fst Hm) as Hi1. pose proof (f_equal snd Hm) as Hm1. cbn [fst snd] in Hi1, Hm1.
    rewrite app_nil_r in Hm1. subst i1 m1. clear Hm. split; [by vm_compute|].
    eexists _, _. split; [reflexivity|]. split; [|split].
    + cbn [hs_read_message toy_noise]. change (len (public_key client) <? 32) with false. cbv iota.
      rewrite take_ge, drop_ge by reflexivity. reflexivity.
    + reflexivity.
    + intros e2 p2 Hp. eexists _, (replicate 48 0 ++ p2), _, 7, 7. split; [reflexivity|]. split.
      { rewrite len_app. change (len (replicate 48 0)) with 48. lia. }
      split.
      { cbn [hs_read_message toy_noise]. rewrite (proj2 (Z.ltb_ge _ _)) by (rewrite len_app; pose proof (len_nonneg p2);
          change (len (replicate 48 0)) with 48; lia). reflexivity. }
      split; [reflexivity|]. split; [reflexivity|]. split; [reflexivity|].
      split; apply toy_paired.
  - intros k. reflexivity.
Qed.

(** The client of Wire.v (MouseMorph, balanced profile) and its request. *)
Definition toy_state : HandshakeState := ToyInitiator (toy_client_key 1) (public_key toy_server_key).
Definition toy_random : bytes := replicate 45 7.

Lemma toy_own_request : own_request ToyWire.toy_client 42 toy_state toy_hello.
Proof. exists toy_state, [], (public_key (toy_client_key 1)). split_and!; reflexivity. Qed.

Definition toy_request : bytes :=
  match (ClientWire.encode (Some 1001) (Some toy_random) ToyWire.toy_wire toy_hello).2 with Ok frame => frame | _ => [] end.
Definition toy_met : daemon := (Daemon.receive_datagram toy_env toy_validated toy_start toy_request toy_peer None).1.
Definition toy_reply : bytes :=
  match (Daemon.receive_datagram toy_env toy_validated toy_start toy_request toy_peer None).2 with [SendTo b _] => b | _ => [] end.
Definition toy_plane : option (TunnelDataPlane * SessionParameters.t) :=
  match response_of 42 (ClientWire.decode (Some 999) ToyWire.toy_wire toy_reply).2 with
  | Some payload => res_ok (accept ClientError.InvalidHandshakeResponse 42 toy_state payload)
  | None => None
  end.
Definition toy_sent : bytes :=
  match toy_plane with
  | Some (plane, _) => match (TunnelSender_encode_ip_into (TunnelDataPlane_split plane).1 toy_ip []).2 with Ok b => b | _ => [] end
  | None => []
  end.
Definition toy_wrapped : bytes :=
  match (ClientWire.encode (Some 1000) (Some toy_random) ToyWire.toy_wire toy_sent).2 with Ok frame => frame | _ => [] end.

Lemma toy_recognised r w1 w frame :
  seen_registry 1000 r w1 w = toy_opened ->
  (length (bearers (sub_list frame 0 8) (expected_candidates 1000 toy_validated toy_opened)) <= 1)%nat ->
  recognised 1000 toy_validated r w1 w (public_key (toy_client_key 1)) ToyWire.toy_wire frame.
Proof.
  intros Hs Hl. unfold recognised. rewrite Hs. split; [apply elem_of_list_to_set, list_elem_of_In; vm_compute; auto|].
  intros tag Htag. assert (Ht : tag = sub_list frame 0 8) by (revert Htag; unfold get_range; by case_match; intros [= <-]). by rewrite Ht.
Qed.

Lemma client_and_server_meet_witness :
  Daemon.receive_datagram toy_env toy_validated toy_start toy_request toy_peer None = (toy_met, [SendTo toy_reply toy_peer]) /\
  exists d2, Daemon.receive_datagram toy_env toy_validated toy_met toy_wrapped toy_roamed None = (d2, [TunSend toy_ip]).
Proof.
  destruct (authorize (d_world toy_start) (public_key (toy_client_key 1))) as [lease|] eqn:Hl.
  2:{ exfalso. assert (H : match authorize (d_world toy_start) (public_key (toy_client_key 1)) with Some _ => true | None => false end
        = true) by (vm_compute; reflexivity). rewrite Hl in H. discriminate H. }
  assert (Ha : lease_address lease = ipv4_new 10 77 0 2).
  { assert (H : match authorize (d_world toy_start) (public_key (toy_client_key 1)) with Some l => lease_address l | None => 0 end
      = ipv4_new 10 77 0 2) by (vm_compute; reflexivity). rewrite Hl in H. exact H. }
  destruct (client_and_server_meet toy_env toy_validated ToyWire.toy_client toy_start toy_opened toy_peer None lease 42 toy_state toy_hello
    ToyWire.toy_wire ToyWire.toy_wire ToyWire.toy_wire 1001 1000 toy_random toy_random toy_request toy_start_reachable)
    as (d1 & answer & mode & H1 & Harr & H2).
  - apply run_started.
  - split; [split; reflexivity|vm_compute; reflexivity].
  - exact Hl.
  - exact toy_own_request.
  - by vm_compute.
  - vm_compute. reflexivity.
  - intros c dg Hc _. assert (Hn : bool_decide (d_cache toy_start !! public_key (toy_client_key 1) = None) = true) by (vm_compute; reflexivity).
    apply bool_decide_eq_true in Hn. cbn [vc_client_private_key ToyWire.toy_client] in Hc. rewrite Hn in Hc. discriminate Hc.
  - vm_compute. reflexivity.
  - reflexivity.
  - vm_compute. reflexivity.
  - apply toy_recognised; [reflexivity|vm_compute; lia].
  - vm_compute. reflexivity.
  - reflexivity.
  - reflexivity.
  - unfold uint. lia.
  - unfold uint. lia.
  - lia.
  - reflexivity.
  - reflexivity.
  - unfold SessionParameters.wf, parameters_valid, assigned.
    cbn [SessionParameters.client_address SessionParameters.prefix_len SessionParameters.mtu SessionParameters.dns].
    rewrite Ha. repeat split; by vm_compute.
  - assert (E1 : d1 = toy_met) by exact (eq_sym (f_equal fst H1)).
    assert (E2 : answer = toy_reply).
    { unfold toy_reply. rewrite H1. reflexivity. }
    subst d1 answer. split; [exact H1|].
    destruct (H2 ToyWire.toy_wire 999) as (wire3 & inner & payload & plane & D1 & D2 & D3 & D4); [reflexivity|unfold uint; lia|lia|].
    assert (E3 : toy_plane = Some (plane, assigned toy_validated lease mode)).
    { unfold toy_plane. rewrite D1. cbn [snd]. rewrite D2, D3. reflexivity. }
    destruct (D4 toy_ip (ipv4_view toy_ip)) as (sender & datagram & S1 & S2).
    + assert (Hm : match toy_plane with Some (_, p) => SessionParameters.mtu p = 1280 | None => False end) by (vm_compute; reflexivity).
      rewrite E3 in Hm. rewrite Hm. repeat split; by vm_compute.
    + vm_compute. reflexivity.
    + rewrite Ha. vm_compute. reflexivity.
    + assert (E4 : datagram = toy_sent) by (unfold toy_sent; rewrite E3, S1; reflexivity). subst datagram.
      destruct (S2 toy_env toy_opened ToyWire.toy_wire 1000 1000 toy_random) as (wire5 & frame' & F1 & F2).
      * unfold toy_met. rewrite receive_router.
        pose proof (run_received toy_validated (d_router toy_start) toy_opened (clock toy_env) (d_world toy_start) toy_request (run_started _ _)) as Hrun.
        replace (if bool_decide _ then toy_opened else d_world toy_start) with toy_opened in Hrun by (by case_bool_decide). exact Hrun.
      * reflexivity.
      * unfold uint. lia.
      * unfold uint. lia.
      * lia.
      * reflexivity.
      * reflexivity.
      * assert (E5 : frame' = toy_wrapped) by (unfold toy_wrapped; rewrite F1; reflexivity). subst frame'.
        apply F2. apply toy_recognised; [|vm_compute; lia].
        unfold seen_registry. assert (He : bool_decide (mo_epoch (d_router toy_met) = Some 1000) = true) by (vm_compute; reflexivity). by rewrite He.
Defined.

End ToyMeeting.
