(* ===== verification/Effects.v ===== *)
(** * Stateful computations of the clients

    The packet loops thread a state of their own next to the world of Handshake.v, so that
    an operation that fails half-way leaves the state it leaves.  This file has the monad
    for a state of any type, the interactions that do not touch the state, and the
    preservation of invariants, with its automation. *)

From S2P Require Import Prelude Protocol Replay Crypto DataPlane Morph Speedy Config ClientWire Handshake.

Section Effects.
Context `{N : Noise, P : Primitives} {St : Type}.

Definition L (A : Type) : Type := St -> world -> St * world * option (res ClientError.t A).

Definition lret {A} (a : A) : L A := fun l w => (l, w, Some (Ok a)).
Definition lthrow {A} (e : ClientError.t) : L A := fun l w => (l, w, Some (Err e)).
Definition lres {A} (r : res ClientError.t A) : L A := fun l w => (l, w, Some r).
Definition lbind {A B} (m : L A) (k : A -> L B) : L B := fun l w =>
  match m l w with
  | (l, w, Some (Ok a)) => k a l w
  | (l, w, Some (Err e)) => (l, w, Some (Err e))
  | (l, w, Some Panic) => (l, w, Some Panic)
  | (l, w, None) => (l, w, None)
  end.
Definition modify (f : St -> St) : L unit := fun l w => (f l, w, Some (Ok tt)).
Definition gets {A} (f : St -> A) : L A := fun l w => (l, w, Some (Ok (f l))).
Definition run_m {A} (m : M A) : L A := fun l w => let '(w, r) := m w in (l, w, r).

(** The error as a value, for the code that matches on it. *)
Definition catch {A} (m : L A) : L (res ClientError.t A) := fun l w =>
  match m l w with
  | (l, w, Some (Ok a)) => (l, w, Some (Ok (Ok a)))
  | (l, w, Some (Err e)) => (l, w, Some (Ok (Err e)))
  | (l, w, Some Panic) => (l, w, Some Panic)
  | (l, w, None) => (l, w, None)
  end.

Context (tape : nat -> moment).

Definition clock : L Z := run_m (read_clock tape).

(** A call to the platform, and its outcome. *)
Definition platform : L (res IoError unit) := lbind (run_m (moment_at tape)) (fun m => lret (m_socket m)).

Definition socket : L unit := run_m (socket_call tape).

(** What [Datagram::decode] after the wire adapter makes of a received datagram. *)
Definition unwrap (datagram : bytes) : L (option Datagram.t) :=
  lbind (run_m (wire_decode tape datagram)) (fun r =>
    match r with
    | Ok (true, payload) =>
        match Datagram.decode payload with
        | Ok parsed => lret (Some parsed)
        | Err _ => lret None
        | Panic => lres Panic
        end
    | Ok (false, _) | Err _ => lret None
    | Panic => lres Panic
    end).

(** ** Invariants of computations *)

Definition keeps {A} (I : St -> Prop) (m : L A) : Prop := forall l w, I l -> I (m l w).1.1.

Lemma keeps_bind {A B} I (m : L A) (k : A -> L B) : keeps I m -> (forall a, keeps I (k a)) -> keeps I (lbind m k).
Proof.
  intros Hm Hk l w Hl. unfold lbind. specialize (Hm l w Hl).
  destruct (m l w) as [[l' w'] [[a|e|]|]]; cbn [fst] in *; [by apply Hk|done..].
Qed.

Lemma keeps_catch {A} I (m : L A) : keeps I m -> keeps I (catch m).
Proof.
  intros Hm l w Hl. unfold catch. specialize (Hm l w Hl).
  by destruct (m l w) as [[l' w'] [[a|e|]|]]; cbn [fst] in *.
Qed.

Lemma keeps_modify I f : (forall l, I l -> I (f l)) -> keeps I (modify f).
Proof. intros Hf l w. apply Hf. Qed.

Lemma keeps_gets {A} I (f : St -> A) : keeps I (gets f).
Proof. by intros l w. Qed.

Lemma keeps_ret {A} I (a : A) : keeps I (lret a).
Proof. by intros l w. Qed.

Lemma keeps_throw {A} I e : keeps I (lthrow (A := A) e).
Proof. by intros l w. Qed.

Lemma keeps_res {A} I (r : res ClientError.t A) : keeps I (lres r).
Proof. by intros l w. Qed.

Lemma keeps_run {A} I (m : M A) : keeps I (run_m m).
Proof. intros l w Hl. unfold run_m. by destruct (m w). Qed.

Lemma keeps_platform I : keeps I platform.
Proof. unfold platform. apply keeps_bind; [apply keeps_run|intros; apply keeps_ret]. Qed.

Lemma keeps_unwrap I datagram : keeps I (unwrap datagram).
Proof.
  unfold unwrap. apply keeps_bind; [apply keeps_run|]. intros [[[] payload]|e|]; try (apply keeps_ret || apply keeps_res).
  destruct (Datagram.decode payload); apply keeps_ret || apply keeps_res.
Qed.

Lemma lbind_inv {A B} (m : L A) (k : A -> L B) l w l' w' b :
  lbind m k l w = (l', w', Some (Ok b)) ->
  exists l1 w1 a, m l w = (l1, w1, Some (Ok a)) /\ k a l1 w1 = (l', w', Some (Ok b)).
Proof.
  unfold lbind. destruct (m l w) as [[l1 w1] [[a|e|]|]]; intros H; try discriminate.
  by exists l1, w1, a.
Qed.

Lemma run_m_inv {A} (m : M A) l w l' w' a : run_m m l w = (l', w', Some (Ok a)) -> l' = l.
Proof. unfold run_m. destruct (m w). by intros [= -> _ _]. Qed.

End Effects.

Arguments L St A : clear implicits.


Create HintDb keeps.
#[export] Hint Resolve keeps_bind keeps_catch keeps_gets keeps_ret keeps_throw keeps_res keeps_run keeps_platform keeps_unwrap : keeps.

(** Decompose a computation into its calls. *)
Ltac keeps_step :=
  match goal with
  | |- keeps _ (lbind _ _) => apply keeps_bind; [|intros ?]
  | |- keeps _ (catch _) => apply keeps_catch
  | |- keeps _ (match ?x with _ => _ end) => destruct x
  | |- keeps _ _ => solve [auto with keeps nocore]
  end.

(** ** Triples

    From a state of [I], [m] ends in a state of [Q a] when it returns [a], and of [F] when it
    fails, panics or is cut short. *)

Definition triple {St A} (I : St -> Prop) (m : L St A) (Q : A -> St -> Prop) (F : St -> Prop) : Prop := forall l w, I l ->
  let '(l', _, r) := m l w in match r with Some (Ok a) => Q a l' | _ => F l' end.

Section Triples.
Context {St : Type}.

Lemma triple_bind {A B} I (m : L St A) (k : A -> L St B) Q R F :
  triple I m Q F -> (forall a, triple (Q a) (k a) R F) -> triple I (lbind m k) R F.
Proof.
  intros Hm Hk l w Hl. specialize (Hm l w Hl). unfold lbind. destruct (m l w) as [[l1 w1] [[a|e|]|]]; [|done..].
  by apply (Hk a).
Qed.

Lemma triple_weaken {A} (I I' : St -> Prop) (m : L St A) (Q Q' : A -> St -> Prop) (F F' : St -> Prop) :
  triple I' m Q' F' -> (forall l, I l -> I' l) -> (forall a l, Q' a l -> Q a l) -> (forall l, F' l -> F l) -> triple I m Q F.
Proof.
  intros Hm HI HQ HF l w Hl. specialize (Hm l w (HI l Hl)). destruct (m l w) as [[l1 w1] [[a|e|]|]]; auto.
Qed.

Lemma triple_catch {A} I (m : L St A) Q F : triple I m Q F ->
  triple I (catch m) (fun r l => match r with Ok a => Q a l | _ => F l end) F.
Proof. intros Hm l w Hl. specialize (Hm l w Hl). unfold catch. by destruct (m l w) as [[l1 w1] [[a|e|]|]]. Qed.

Lemma triple_ret {A} (I : St -> Prop) (a : A) (Q : A -> St -> Prop) F : (forall l, I l -> Q a l) -> triple I (lret a) Q F.
Proof. intros H l w Hl. by apply H. Qed.

Lemma triple_throw {A} (I : St -> Prop) e (Q : A -> St -> Prop) (F : St -> Prop) : (forall l, I l -> F l) -> triple I (lthrow e) Q F.
Proof. intros H l w Hl. by apply H. Qed.

Lemma triple_res {A} (I : St -> Prop) (r : res ClientError.t A) (Q : A -> St -> Prop) (F : St -> Prop) :
  (forall l a, I l -> r = Ok a -> Q a l) -> (forall l, I l -> F l) -> triple I (lres r) Q F.
Proof. intros HQ HF l w Hl. cbn. destruct r; auto. Qed.

Lemma triple_modify (I : St -> Prop) f (Q : unit -> St -> Prop) F : (forall l, I l -> Q tt (f l)) -> triple I (modify f) Q F.
Proof. intros H l w Hl. by apply H. Qed.

Lemma triple_gets {A} (I : St -> Prop) (f : St -> A) F : triple I (gets f) (fun a l => I l /\ a = f l) F.
Proof. by intros l w Hl. Qed.

Lemma triple_pre {A} (I : St -> Prop) (m : L St A) Q F : (forall l, I l -> triple (fun l' => l' = l) m Q F) -> triple I m Q F.
Proof. intros H l w Hl. by apply (H l Hl). Qed.

Lemma triple_fact {A} (I : St -> Prop) (P : Prop) (m : L St A) Q F : (P -> triple I m Q F) -> triple (fun l => I l /\ P) m Q F.
Proof. intros H l w [Hl HP]. by apply (H HP). Qed.

End Triples.
