(* ===== verification/ClientLoop.v ===== *)
(** * The packet loop of the Linux client

    crates/linux-client/src/packet_loop.rs, outgoing.rs and metrics.rs: the receive loop
    owns liveness, keepalives, reconnects and migration; the send thread reports an
    unreachable peer through a shared request that carries the session generation.

    The loop runs on the tape of Handshake.v.  What the loop owns is [Link]; a
    computation threads it next to the world, so that an operation that fails half-way
    leaves the state it leaves.  Calls to the platform (TUN, DNS, routes) succeed or fail
    as the tape says, and [l_tun] and [l_resolver] record what they configured.

    The theorems: every keepalive of the loop is accounted for, whatever arrives and fails; a change
    of the session's parameters is applied whole or not at all; every packet of the send
    thread is counted; which reconnect requests the loop honours, under any interleaving
    of the two threads. *)

From Stdlib Require Import Sorted.
From S2P Require Import Prelude Protocol Replay Crypto ToyCrypto DataPlane Morph Speedy Config ClientWire Liveness Handshake Effects.

(** ** Metrics *)

Record RuntimeMetrics := mkMetrics {
  outgoing_packets : Z;
  incoming_packets : Z;
  outgoing_drops : Z;
  keepalives_sent : Z;
  keepalive_responses : Z;
  keepalive_timeouts : Z;
  reconnects : Z;
  reconnect_failures : Z;
  peer_unreachable : Z;
  migrations : Z;
  keepalive_rtt_total_ms : Z;
  keepalive_rtt_samples : Z;
  last_keepalive_rtt_ms : Z;
  max_keepalive_rtt_ms : Z;
}.

Definition metrics_default : RuntimeMetrics := mkMetrics 0 0 0 0 0 0 0 0 0 0 0 0 0 0.

(** [AtomicU64::fetch_add] *)
Definition fetch_add (c n : Z) : Z := wrap64 (c + n).

Definition record_outgoing_packets (m : RuntimeMetrics) (n : Z) : RuntimeMetrics :=
  let 'mkMetrics a b c d e f g h i j k l o p := m in mkMetrics (fetch_add a n) b c d e f g h i j k l o p.
Definition record_incoming_packet (m : RuntimeMetrics) : RuntimeMetrics :=
  let 'mkMetrics a b c d e f g h i j k l o p := m in mkMetrics a (fetch_add b 1) c d e f g h i j k l o p.
Definition record_outgoing_drops (m : RuntimeMetrics) (n : Z) : RuntimeMetrics :=
  let 'mkMetrics a b c d e f g h i j k l o p := m in mkMetrics a b (fetch_add c n) d e f g h i j k l o p.
Definition record_keepalive_sent (m : RuntimeMetrics) : RuntimeMetrics :=
  let 'mkMetrics a b c d e f g h i j k l o p := m in mkMetrics a b c (fetch_add d 1) e f g h i j k l o p.
Definition record_keepalive_response (m : RuntimeMetrics) (elapsed : Z) : RuntimeMetrics :=
  let 'mkMetrics a b c d e f g h i j k l o p := m in
  let milliseconds := Z.min elapsed u64_max in
  mkMetrics a b c d (fetch_add e 1) f g h i j (fetch_add k milliseconds) (fetch_add l 1) milliseconds (Z.max p milliseconds).
Definition record_keepalive_timeouts (m : RuntimeMetrics) (n : Z) : RuntimeMetrics :=
  let 'mkMetrics a b c d e f g h i j k l o p := m in mkMetrics a b c d e (fetch_add f n) g h i j k l o p.
Definition record_reconnect (m : RuntimeMetrics) : RuntimeMetrics :=
  let 'mkMetrics a b c d e f g h i j k l o p := m in mkMetrics a b c d e f (fetch_add g 1) h i j k l o p.
Definition record_reconnect_failure (m : RuntimeMetrics) : RuntimeMetrics :=
  let 'mkMetrics a b c d e f g h i j k l o p := m in mkMetrics a b c d e f g (fetch_add h 1) i j k l o p.
Definition record_peer_unreachable (m : RuntimeMetrics) : RuntimeMetrics :=
  let 'mkMetrics a b c d e f g h i j k l o p := m in mkMetrics a b c d e f g h (fetch_add i 1) j k l o p.
Definition record_migration (m : RuntimeMetrics) : RuntimeMetrics :=
  let 'mkMetrics a b c d e f g h i j k l o p := m in mkMetrics a b c d e f g h i (fetch_add j 1) k l o p.

(** ** Small decisions *)

Definition KEEPALIVE_RESPONSE_TIMEOUT : Z := 20000.
Definition BATCH_SIZE : Z := 32.
Definition MIGRATION_ATTEMPTS : nat := 3.
Definition ROUTE_REFRESH_INTERVAL : Z := 30000.

Definition is_timeout (e : IoError) : bool := bool_decide (kind e = ErrorKind.WouldBlock \/ kind e = ErrorKind.TimedOut).
Definition is_recoverable (e : IoError) : bool := is_timeout e || bool_decide (kind e = ErrorKind.Interrupted).

(** The probes that are too old leave the front of the queue; how many. *)
Fixpoint expire (pending : list Z) (now : Z) : list Z * Z :=
  match pending with
  | [] => ([], 0)
  | first :: rest =>
      if KEEPALIVE_RESPONSE_TIMEOUT <=? duration_since now first
      then let '(rest, n) := expire rest now in (rest, n + 1)
      else (pending, 0)
  end.

Definition expire_keepalives (m : RuntimeMetrics) (pending : list Z) (now : Z) : RuntimeMetrics * list Z :=
  let '(pending, expired) := expire pending now in (record_keepalive_timeouts m expired, pending).

(** The request afterwards and whether it was for this generation. *)
Definition take_reconnect_request (requested generation : Z) : Z * bool :=
  (0, negb (requested =? 0) && (requested =? generation)).

(** [mpsc::Receiver::try_recv] of the send thread's result. *)
Inductive worker_state := WorkerRunning | WorkerFailed (e : ClientError.t) | WorkerFinished | WorkerGone.

Definition check_worker (w : worker_state) (stopping : bool) : res ClientError.t unit :=
  match w with
  | WorkerFailed e => Err e
  | WorkerFinished | WorkerGone => if stopping then Ok tt else Err ClientError.WorkerStopped
  | WorkerRunning => Ok tt
  end.

Definition is_ipv6 (packet : bytes) : bool := match packet with b :: _ => Z.shiftr b 4 =? 6 | [] => false end.

(** ** The TUN device

    What the kernel has, and the copy the process keeps. *)

Record LinuxTunConfig := mkTunConfig { address : Ipv4Addr; prefix_len : Z; mtu : Z }.

#[global] Instance tun_config_eq_dec : EqDecision LinuxTunConfig.
Proof. solve_decision. Defined.

Record LinuxTun := mkLinuxTun { dev_network : Ipv4Addr * Z; dev_mtu : Z; current : LinuxTunConfig }.

Definition tun_of (p : SessionParameters.t) : LinuxTunConfig :=
  mkTunConfig (SessionParameters.client_address p) (SessionParameters.prefix_len p) (SessionParameters.mtu p).

(** The device has the configuration the process believes it has. *)
Definition tun_applied (t : LinuxTun) : Prop :=
  dev_network t = (address (current t), prefix_len (current t)) /\ dev_mtu t = mtu (current t).

(** ** The state of the loop *)

Section Loop.
Context `{N : Noise, P : Primitives}.

Record Link := mkLink {
  l_parameters : SessionParameters.t;
  l_receiver : TunnelReceiver;
  l_sender : TunnelSender;
  l_paused : bool;
  l_requested : Z;
  l_generation : Z;
  l_metrics : RuntimeMetrics;
  l_liveness : Liveness;
  l_pending : list Z;
  (** the full tunnel manages routes and DNS, the proxy mode does not *)
  l_full : bool;
  l_tun : LinuxTun;
  (** [DnsGuard::server] *)
  l_resolver : Ipv4Addr;
  (** packets written to the TUN device *)
  l_delivered : list bytes;
  (** keepalives the socket took, and how many of them were probes of a migration (the
      program keeps neither number) *)
  l_ledger : Z * Z;
}.

Definition set_metrics (l : Link) (m : RuntimeMetrics) : Link :=
  mkLink (l_parameters l) (l_receiver l) (l_sender l) (l_paused l) (l_requested l) (l_generation l) m (l_liveness l)
    (l_pending l) (l_full l) (l_tun l) (l_resolver l) (l_delivered l) (l_ledger l).
Definition set_liveness (l : Link) (s : Liveness) : Link :=
  mkLink (l_parameters l) (l_receiver l) (l_sender l) (l_paused l) (l_requested l) (l_generation l) (l_metrics l) s
    (l_pending l) (l_full l) (l_tun l) (l_resolver l) (l_delivered l) (l_ledger l).
Definition set_pending (l : Link) (p : list Z) : Link :=
  mkLink (l_parameters l) (l_receiver l) (l_sender l) (l_paused l) (l_requested l) (l_generation l) (l_metrics l) (l_liveness l)
    p (l_full l) (l_tun l) (l_resolver l) (l_delivered l) (l_ledger l).
Definition set_receiver (l : Link) (r : TunnelReceiver) : Link :=
  mkLink (l_parameters l) r (l_sender l) (l_paused l) (l_requested l) (l_generation l) (l_metrics l) (l_liveness l)
    (l_pending l) (l_full l) (l_tun l) (l_resolver l) (l_delivered l) (l_ledger l).
Definition set_sender (l : Link) (s : TunnelSender) : Link :=
  mkLink (l_parameters l) (l_receiver l) s (l_paused l) (l_requested l) (l_generation l) (l_metrics l) (l_liveness l)
    (l_pending l) (l_full l) (l_tun l) (l_resolver l) (l_delivered l) (l_ledger l).
Definition set_paused (l : Link) (b : bool) : Link :=
  mkLink (l_parameters l) (l_receiver l) (l_sender l) b (l_requested l) (l_generation l) (l_metrics l) (l_liveness l)
    (l_pending l) (l_full l) (l_tun l) (l_resolver l) (l_delivered l) (l_ledger l).
Definition set_requested (l : Link) (r : Z) : Link :=
  mkLink (l_parameters l) (l_receiver l) (l_sender l) (l_paused l) r (l_generation l) (l_metrics l) (l_liveness l)
    (l_pending l) (l_full l) (l_tun l) (l_resolver l) (l_delivered l) (l_ledger l).
Definition set_generation (l : Link) (g : Z) : Link :=
  mkLink (l_parameters l) (l_receiver l) (l_sender l) (l_paused l) (l_requested l) g (l_metrics l) (l_liveness l)
    (l_pending l) (l_full l) (l_tun l) (l_resolver l) (l_delivered l) (l_ledger l).
Definition set_parameters (l : Link) (p : SessionParameters.t) : Link :=
  mkLink p (l_receiver l) (l_sender l) (l_paused l) (l_requested l) (l_generation l) (l_metrics l) (l_liveness l)
    (l_pending l) (l_full l) (l_tun l) (l_resolver l) (l_delivered l) (l_ledger l).
Definition set_tun (l : Link) (t : LinuxTun) : Link :=
  mkLink (l_parameters l) (l_receiver l) (l_sender l) (l_paused l) (l_requested l) (l_generation l) (l_metrics l) (l_liveness l)
    (l_pending l) (l_full l) t (l_resolver l) (l_delivered l) (l_ledger l).
Definition set_resolver (l : Link) (a : Ipv4Addr) : Link :=
  mkLink (l_parameters l) (l_receiver l) (l_sender l) (l_paused l) (l_requested l) (l_generation l) (l_metrics l) (l_liveness l)
    (l_pending l) (l_full l) (l_tun l) a (l_delivered l) (l_ledger l).
Definition deliver (l : Link) (packet : bytes) : Link :=
  mkLink (l_parameters l) (l_receiver l) (l_sender l) (l_paused l) (l_requested l) (l_generation l) (l_metrics l) (l_liveness l)
    (l_pending l) (l_full l) (l_tun l) (l_resolver l) (l_delivered l ++ [packet]) (l_ledger l).
Definition note_keepalive (l : Link) (sent probes : Z) : Link :=
  mkLink (l_parameters l) (l_receiver l) (l_sender l) (l_paused l) (l_requested l) (l_generation l) (l_metrics l) (l_liveness l)
    (l_pending l) (l_full l) (l_tun l) (l_resolver l) (l_delivered l) ((l_ledger l).1 + sent, (l_ledger l).2 + probes).

(** ** Computations of the loop *)

Context (tape : nat -> moment) (config : ValidatedClientConfig).

Abbreviation L := (Effects.L Link) (only parsing).

Notation "x <- m ; k" := (lbind m (fun x => k)) (at level 100, m at next level, right associativity).

Abbreviation clock := (clock tape) (only parsing).
Abbreviation platform := (platform tape) (only parsing).
Abbreviation socket := (socket tape) (only parsing).

(** ** Receiving *)

Definition tun_send (packet : bytes) : L unit :=
  r <- platform;
  match r with
  | Ok _ => modify (fun l => deliver l packet)
  | Err e => if is_recoverable e then lret tt else lthrow (ClientError.Io e)
  | Panic => lres Panic
  end.

(** [Receiver::decode_into] on the loop's receiver. *)
Definition decode_into (parsed : Datagram.t) : L (res DataPlaneError.t Decoded) := fun l w =>
  let '(receiver, r) := TunnelReceiver_decode_into (l_receiver l) parsed in
  (set_receiver l receiver, w, Some (Ok r)).

Definition packet_arrived (now : Z) : L unit := modify (fun l => set_liveness l (Linux.packet_received (l_liveness l) now)).

(** The newest probe is matched. *)
Definition match_keepalive (now : Z) : L unit :=
  modify (fun l =>
    match rev (l_pending l) with
    | [] => l
    | sent :: older =>
        set_metrics (set_pending l (rev older)) (record_keepalive_response (l_metrics l) (duration_since now sent))
    end).

Definition process_datagram (datagram : bytes) : L unit :=
  parsed <- unwrap tape datagram;
  match parsed with
  | None => lret tt
  | Some parsed =>
      r <- decode_into parsed;
      match r with
      | Ok (Ip packet) =>
          now <- clock;
          _ <- packet_arrived now;
          _ <- modify (fun l => set_metrics l (record_incoming_packet (l_metrics l)));
          tun_send packet
      | Ok Keepalive =>
          now <- clock;
          _ <- packet_arrived now;
          match_keepalive now
      | Err _ => lret tt
      | Panic => lres Panic
      end
  end.

Fixpoint process_datagrams (datagrams : list bytes) : L unit :=
  match datagrams with
  | [] => lret tt
  | d :: datagrams => _ <- process_datagram d; process_datagrams datagrams
  end.

(** [liveness.connection_lost], counted when it is news. *)
Definition report_lost (now : Z) : L unit :=
  modify (fun l =>
    let '(s, news) := Linux.connection_lost (l_liveness l) now in
    let l := set_liveness l s in
    if news then set_metrics l (record_peer_unreachable (l_metrics l)) else l).

Inductive ReceiveEvent := Packets (datagrams : list bytes) | Idle | PeerUnavailable.

Definition receive (worker : worker_state) (stopping : bool) : L ReceiveEvent :=
  m <- run_m (moment_at tape);
  match receive_batch_with BATCH_SIZE (m_batch m) with
  | Ok datagrams => lret (Packets datagrams)
  | Err e =>
      if bool_decide (kind e = ErrorKind.Interrupted) && stopping then lret Idle
      else if is_timeout e then _ <- lres (check_worker worker stopping); lret Idle
      else if is_peer_unavailable e then lret PeerUnavailable
      else if bool_decide (kind e = ErrorKind.Interrupted) then lret Idle
      else lthrow (ClientError.Io e)
  | Panic => lres Panic
  end.

(** ** Keepalives *)

(** [encode_keepalive_into] on the shared sender. *)
Definition encode_keepalive : L bytes := fun l w =>
  let '(sender, r) := TunnelSender_encode_keepalive_into (l_sender l) [] in
  (set_sender l sender, w, Some (map_err ClientError.DataPlane r)).

Definition send_keepalive : L unit :=
  keepalive <- encode_keepalive;
  wired <- run_m (wire_encode tape keepalive);
  r <- run_m (send_datagram tape wired);
  _ <- lres (map_err ClientError.Io r);
  modify (fun l => note_keepalive l 1 0).

(** ** Reconnecting *)

(** The last steps of a replacement: the send thread gets its socket, unless it has hung
    up, the generation advances, and requests of the old session are dropped. *)
Definition new_generation : L unit :=
  r <- platform;
  match r with
  | Ok _ => modify (fun l => set_requested (set_generation l (fetch_add (l_generation l) 1)) 0)
  | Err _ => lthrow ClientError.WorkerStopped
  | Panic => lres Panic
  end.

Definition invalid_migration : IoError := mkIoError ErrorKind.Other None.
(** [io::Error::other] of the message that tells of both errors. *)
Definition rollback_failed : IoError := mkIoError ErrorKind.Other None.
Definition migration_timed_out : IoError := mkIoError ErrorKind.TimedOut None.

Fixpoint migrate_attempts (n : nat) : L unit :=
  match n with
  | O => lthrow (ClientError.Io migration_timed_out)
  | S n =>
      _ <- send_keepalive;
      _ <- modify (fun l => note_keepalive l 0 1);
      r <- run_m (receive_datagram tape);
      match r with
      | Ok datagram =>
          r <- run_m (wire_decode tape datagram);
          match r with
          | Err e => lthrow (ClientError.Wire e)
          | Panic => lres Panic
          | Ok (false, _) => migrate_attempts n
          | Ok (true, payload) =>
              parsed <- lres (map_err (fun _ => ClientError.Io invalid_migration) (Datagram.decode payload));
              r <- decode_into parsed;
              _ <- match r with
                   | Ok Keepalive => lret tt
                   | Ok (Ip packet) => tun_send packet
                   | Err e => lthrow (ClientError.DataPlane e)
                   | Panic => lres Panic
                   end;
              _ <- socket;
              _ <- socket;
              _ <- new_generation;
              modify (fun l => set_metrics l (record_migration (l_metrics l)))
          end
      | Err e =>
          if is_timeout e || is_peer_unavailable e || bool_decide (kind e = ErrorKind.Interrupted)
          then migrate_attempts n
          else lthrow (ClientError.Io e)
      | Panic => lres Panic
      end
  end.

Definition try_migrate : L unit :=
  _ <- socket;
  _ <- socket;
  migrate_attempts MIGRATION_ATTEMPTS.

(** The ioctls of the device: what succeeds takes effect. *)
Definition device (f : LinuxTun -> LinuxTun) : L (res IoError unit) :=
  r <- platform;
  _ <- modify (fun l => match r with Ok _ => set_tun l (f (l_tun l)) | _ => l end);
  lret r.

Definition set_mtu (n : Z) : L (res IoError unit) :=
  device (fun t => mkLinuxTun (dev_network t) n (current t)).

Definition set_network_address (a : Ipv4Addr) (prefix : Z) : L (res IoError unit) :=
  device (fun t => mkLinuxTun (a, prefix) (dev_mtu t) (current t)).

Definition set_current (c : LinuxTunConfig) : L unit :=
  modify (fun l => set_tun l (mkLinuxTun (dev_network (l_tun l)) (dev_mtu (l_tun l)) c)).

(** [Result::and] of two calls that have been made. *)
Definition res_and (a b : res IoError unit) : res IoError unit := match a with Ok _ => b | _ => a end.

(** [LinuxTun::reconfigure] *)
Definition reconfigure (c : LinuxTunConfig) : L (res IoError unit) :=
  previous <- gets (fun l => current (l_tun l));
  if bool_decide (previous = c) then lret (Ok tt)
  else
    r <- set_mtu (mtu c);
    match r with
    | Err e => lret (Err e)
    | Panic => lret Panic
    | Ok _ =>
        r <- set_network_address (address c) (prefix_len c);
        match r with
        | Err e =>
            address_rollback <- set_network_address (address previous) (prefix_len previous);
            mtu_rollback <- set_mtu (mtu previous);
            match res_and address_rollback mtu_rollback with
            | Err _ => lret (Err rollback_failed)
            | Panic => lret Panic
            | Ok _ => lret (Err e)
            end
        | Panic => lret Panic
        | Ok _ => _ <- set_current c; lret (Ok tt)
        end
    end.

(** [DnsGuard::update] *)
Definition update_resolver (a : Ipv4Addr) : L (res IoError unit) :=
  server <- gets l_resolver;
  if bool_decide (server = a) then lret (Ok tt)
  else
    r <- platform;
    _ <- modify (fun l => match r with Ok _ => set_resolver l a | _ => l end);
    lret r.

Definition apply_session_parameters (p : SessionParameters.t) : L unit :=
  previous <- gets l_parameters;
  full <- gets l_full;
  if bool_decide (p = previous) then lret tt
  else if negb full then lthrow ClientError.SessionParametersChanged
  else
    r <- reconfigure (tun_of p);
    _ <- lres (map_err ClientError.Io r);
    r <- update_resolver (SessionParameters.dns p);
    match r with
    | Err e =>
        rollback <- reconfigure (tun_of previous);
        match rollback with
        | Ok _ => lthrow (ClientError.Io e)
        | Err _ => lthrow (ClientError.Io rollback_failed)
        | Panic => lres Panic
        end
    | Panic => lres Panic
    | Ok _ => modify (fun l => set_parameters l p)
    end.

Definition establish_replacement (fuel : nat) : L unit :=
  replacement <- run_m (linux_connect tape fuel config);
  let '(plane, parameters) := replacement in
  _ <- socket;
  _ <- socket;
  _ <- apply_session_parameters parameters;
  _ <- modify (fun l => let '(sender, receiver) := TunnelDataPlane_split plane in set_sender (set_receiver l receiver) sender);
  new_generation.

Definition reconnect (fuel : nat) (now : Z) : L unit :=
  _ <- modify (fun l =>
         set_paused (set_pending (set_metrics l
           (record_keepalive_timeouts (record_reconnect (l_metrics l)) (len (l_pending l)))) []) true);
  full <- gets l_full;
  routes <- (if full then platform else lret (Ok tt));
  match routes with
  | Err _ =>
      modify (fun l => set_paused (set_metrics (set_liveness l (Linux.network_unavailable (l_liveness l) now))
        (record_reconnect_failure (l_metrics l))) false)
  | Panic => lres Panic
  | Ok _ =>
      _ <- modify (fun l => set_liveness l (reconnect_attempted (l_liveness l) now));
      migrated <- catch (try_migrate);
      result <- match migrated with Ok _ => lret (Ok tt) | _ => catch (establish_replacement fuel) end;
      _ <- match result with
           | Ok _ => now <- clock; modify (fun l => set_liveness l (reconnected (l_liveness l) now))
           | _ => modify (fun l => set_metrics l (record_reconnect_failure (l_metrics l)))
           end;
      modify (fun l => set_paused l false)
  end.

Definition maintain_liveness (fuel : nat) : L unit :=
  now <- clock;
  live <- gets l_liveness;
  match Linux.action live now with
  | Action.None => lret tt
  | Action.Keepalive =>
      r <- catch send_keepalive;
      match r with
      | Ok _ =>
          modify (fun l => set_metrics (set_pending (set_liveness l (keepalive_sent (l_liveness l) now))
            (l_pending l ++ [now])) (record_keepalive_sent (l_metrics l)))
      | Err (ClientError.Io e) => if is_peer_unavailable e then report_lost now else lthrow (ClientError.Io e)
      | Err e => lthrow e
      | Panic => lres Panic
      end
  | Action.Reconnect => reconnect fuel now
  end.

(** ** A turn of the loop *)

(** One iteration; [stopping], [stopping'] and [stopping''] are the flag as [check_worker],
    [receive] and the test after it read it.  The time of the next route refresh is
    returned. *)
Definition turn (fuel : nat) (worker : worker_state) (stopping stopping' stopping'' : bool) (next_route_refresh : Z) : L Z :=
  _ <- lres (check_worker worker stopping);
  event <- receive worker stopping';
  _ <- match event with
       | Packets datagrams => process_datagrams datagrams
       | Idle => lret tt
       | PeerUnavailable => now <- clock; report_lost now
       end;
  if stopping'' then lret next_route_refresh
  else
    requested <- gets l_requested;
    generation <- gets l_generation;
    let '(requested, mine) := take_reconnect_request requested generation in
    _ <- modify (fun l => set_requested l requested);
    _ <- (if mine then now <- clock; report_lost now else lret tt);
    now <- clock;
    _ <- modify (fun l => let '(m, pending) := expire_keepalives (l_metrics l) (l_pending l) now in
                          set_pending (set_metrics l m) pending);
    full <- gets l_full;
    next <- (if next_route_refresh <=? now
             then _ <- (if full then _ <- platform; lret tt else lret tt);
                  now <- clock;
                  lret (now + ROUTE_REFRESH_INTERVAL)
             else lret next_route_refresh);
    _ <- maintain_liveness fuel;
    lret next.

(** ** The send thread *)

(** [tun.receive] until the queue is empty or the batch is full. *)
Fixpoint read_packets (n : nat) : L (list bytes) :=
  match n with
  | O => lret []
  | S n =>
      m <- run_m (moment_at tape);
      match m_arrival m with
      | Ok packet => packets <- read_packets n; lret (packet :: packets)
      | Err e =>
          if bool_decide (kind e = ErrorKind.WouldBlock) || is_retryable_network e then lret []
          else lthrow (ClientError.Io e)
      | Panic => lres Panic
      end
  end.

Definition encode_ip (packet : bytes) : L (res DataPlaneError.t bytes) := fun l w =>
  let '(sender, r) := TunnelSender_encode_ip_into (l_sender l) packet [] in
  (set_sender l sender, w, Some (Ok r)).

(** [Drops::record], less its line in the journal. *)
Definition record_drops (count : Z) : L unit :=
  modify (fun l => set_metrics l (record_outgoing_drops (l_metrics l) count)).

Fixpoint encode_packets (packets : list bytes) : L (list bytes) :=
  match packets with
  | [] => lret []
  | packet :: packets =>
      if is_ipv6 packet then encode_packets packets
      else
        r <- encode_ip packet;
        match r with
        | Ok datagram => datagrams <- encode_packets packets; lret (datagram :: datagrams)
        | Err _ => _ <- record_drops 1; encode_packets packets
        | Panic => lres Panic
        end
  end.

Fixpoint wire_encode_all (datagrams : list bytes) : L (list bytes) :=
  match datagrams with
  | [] => lret []
  | d :: datagrams =>
      wired <- run_m (wire_encode tape d);
      rest <- wire_encode_all datagrams;
      lret (wired :: rest)
  end.

(** A batch of packets read from the device: encoded under the sender's lock, then sent.
    An unreachable peer is reported with the generation of the moment. *)
Definition send_packets (packets : list bytes) : L unit :=
  datagrams <- encode_packets packets;
  if bool_decide (datagrams = []) then lret tt
  else
    let encoded := len datagrams in
    wired <- wire_encode_all datagrams;
    m <- run_m (moment_at tape);
    match send_batch_with (m_sent m) wired with
    | Ok sent =>
        _ <- modify (fun l => set_metrics l (record_outgoing_packets (l_metrics l) sent));
        if sent =? encoded then lret tt
        else if encoded <? sent then lres Panic
        else record_drops (encoded - sent)
    | Err e =>
        if is_peer_unavailable e
        then _ <- record_drops encoded; modify (fun l => set_requested l (l_generation l))
        else if is_retryable_network e then record_drops encoded
        else lthrow (ClientError.Io e)
    | Panic => lres Panic
    end.

(** One iteration of [outgoing::run]; the poll fails with [TimedOut] when it reports no
    descriptor.  [paused'] is the flag as it is read the second time. *)
Definition outgoing_turn (paused' : bool) : L unit :=
  paused <- gets l_paused;
  if paused then lret tt
  else
    r <- platform;
    match r with
    | Err e =>
        if bool_decide (kind e = ErrorKind.TimedOut \/ kind e = ErrorKind.Interrupted) then lret tt
        else lthrow (ClientError.Io e)
    | Panic => lres Panic
    | Ok _ =>
        if paused' then lret tt
        else
          packets <- read_packets (Z.to_nat BATCH_SIZE);
          if bool_decide (packets = []) then lret tt else send_packets packets
    end.

End Loop.

(** ** The accounting of keepalives *)

Section Accounting.
Context `{N : Noise, P : Primitives} (tape : nat -> moment) (config : ValidatedClientConfig).

(** [n] keepalives the socket took, other than the probes of migrations, are not in the
    counters; the others were matched with an answer, have been counted as lost or are
    still pending.  The counters are 64 bits wide. *)
Definition accounted_but (n : Z) (l : Link) : Prop :=
  let m := l_metrics l in
  wrap64 ((l_ledger l).1 - (l_ledger l).2) = wrap64 (keepalives_sent m + n) /\
  wrap64 (keepalives_sent m) = wrap64 (keepalive_responses m + keepalive_timeouts m + len (l_pending l)).

Definition accounted : Link -> Prop := accounted_but 0.

(** An update that leaves the counters and the queue alone. *)
Ltac frame :=
  apply keeps_modify; intros [? ? ? ? ? ? m ? ? ? ? ? ? ?] Hl; destruct m; unfold accounted, accounted_but in *; cbn in *;
  repeat case_match; cbn; exact Hl.

Ltac keeps := repeat (keeps_step || frame).

Lemma expire_length pending now : len (expire pending now).1 + (expire pending now).2 = len pending.
Proof.
  induction pending as [|p pending IH]; [done|]. cbn [expire].
  destruct (KEEPALIVE_RESPONSE_TIMEOUT <=? _); [|cbn [fst snd]; lia].
  destruct (expire pending now) as [rest n]. cbn [fst snd] in *. revert IH. rewrite !len_cons. lia.
Qed.

Lemma wrap64_add a b : wrap64 (wrap64 a + b) = wrap64 (a + b).
Proof. unfold wrap64. by rewrite Zplus_mod_idemp_l. Qed.

Lemma wrap64_idem a : wrap64 (wrap64 a) = wrap64 a.
Proof. unfold wrap64. apply Zmod_mod. Qed.

Lemma wrap64_middle a b c : wrap64 (a + wrap64 b + c) = wrap64 (a + b + c).
Proof. replace (a + wrap64 b + c) with (wrap64 b + (a + c)) by lia. rewrite wrap64_add. f_equal. lia. Qed.

Lemma accounted_tun_send packet : keeps accounted (tun_send tape packet).
Proof. unfold tun_send. keeps. Qed.
#[local] Hint Resolve accounted_tun_send : keeps.

Lemma accounted_decode_into parsed : keeps accounted (decode_into parsed).
Proof.
  intros l w Hl. unfold decode_into. destruct (TunnelReceiver_decode_into _ _). exact Hl.
Qed.
#[local] Hint Resolve accounted_decode_into : keeps.

Lemma accounted_match_keepalive now : keeps accounted (match_keepalive now).
Proof.
  apply keeps_modify. intros l Hl. destruct (rev (l_pending l)) as [|sent older] eqn:E; [done|].
  assert (l_pending l = rev older ++ [sent]) as Ep by (rewrite <- (rev_involutive (l_pending l)), E; done).
  unfold accounted, accounted_but in *. rewrite Ep in Hl. destruct l as [? ? ? ? ? ? m ? ? ? ? ? ? ?]; destruct m. cbn in *.
  destruct Hl as [Hs Hl]. split; [exact Hs|].
  rewrite Hl. unfold fetch_add. rewrite len_app. change (len [sent]) with 1.
  rewrite <- (Z.add_assoc (wrap64 _)), wrap64_add. f_equal. lia.
Qed.
#[local] Hint Resolve accounted_match_keepalive : keeps.

Lemma accounted_process_datagrams datagrams : keeps accounted (process_datagrams tape datagrams).
Proof.
  induction datagrams as [|d datagrams IH]; cbn [process_datagrams]; [keeps|].
  apply keeps_bind; [|intros; exact IH].
  unfold process_datagram, packet_arrived, clock. keeps.
Qed.
#[local] Hint Resolve accounted_process_datagrams : keeps.

Lemma accounted_report_lost now : keeps accounted (report_lost now).
Proof. unfold report_lost. frame. Qed.
#[local] Hint Resolve accounted_report_lost : keeps.

Lemma accounted_receive worker stopping : keeps accounted (receive tape worker stopping).
Proof. unfold receive. keeps. Qed.
#[local] Hint Resolve accounted_receive : keeps.

(** A keepalive that was sent is in no counter yet; one that was not changes nothing. *)
Lemma send_keepalive_spec l w :
  accounted l -> match send_keepalive tape l w with
                 | (l', _, Some (Ok _)) => accounted_but 1 l'
                 | (l', _, _) => accounted l'
                 end.
Proof.
  intros [Hs Hl]. unfold send_keepalive, encode_keepalive, lbind, run_m, lres, modify.
  destruct (TunnelSender_encode_keepalive_into _ _) as [sender [keepalive|e|]]; cbn [map_err]; [|by split..].
  destruct (wire_encode tape keepalive w) as [w1 [[wired|e|]|]]; [|by split..].
  destruct (send_datagram tape wired w1) as [w2 [[[[]|e|]|e|]|]]; cbn [map_err]; try by split.
  split; [|exact Hl]. cbn. replace ((l_ledger l).1 + 1 - ((l_ledger l).2 + 0)) with ((l_ledger l).1 - (l_ledger l).2 + 1) by lia.
  rewrite <- wrap64_add, Hs, wrap64_add. f_equal. lia.
Qed.

(** A probe of a migration. *)
Lemma accounted_probe {A} (k : L Link A) :
  keeps accounted k -> keeps accounted (lbind (send_keepalive tape) (fun _ => lbind (modify (fun l => note_keepalive l 0 1)) (fun _ => k))).
Proof.
  intros Hk l w Hl. pose proof (send_keepalive_spec l w Hl) as H. unfold lbind at 1.
  destruct (send_keepalive tape l w) as [[l' w'] [[[]|e|]|]]; [|exact H..]. unfold lbind, modify. apply Hk.
  destruct H as [Hs H]. split; [|exact H]. cbn. replace ((l_ledger l').1 + 0 - ((l_ledger l').2 + 1)) with ((l_ledger l').1 - (l_ledger l').2 + -1) by lia.
  rewrite <- wrap64_add, Hs, wrap64_add. f_equal. lia.
Qed.

Lemma accounted_new_generation : keeps accounted (new_generation tape).
Proof. unfold new_generation. keeps. Qed.
#[local] Hint Resolve accounted_new_generation : keeps.

Lemma accounted_migrate n : keeps accounted (migrate_attempts tape n).
Proof. induction n as [|n IH]; cbn [migrate_attempts]; unfold socket; [keeps|]. apply accounted_probe. keeps; exact IH. Qed.
#[local] Hint Resolve accounted_migrate : keeps.

Lemma accounted_reconfigure c : keeps accounted (reconfigure tape c).
Proof. unfold reconfigure, set_mtu, set_network_address, set_current, device. keeps. Qed.
#[local] Hint Resolve accounted_reconfigure : keeps.

Lemma accounted_apply p : keeps accounted (apply_session_parameters tape p).
Proof. unfold apply_session_parameters, update_resolver. keeps. Qed.
#[local] Hint Resolve accounted_apply : keeps.

Lemma accounted_reconnect fuel now : keeps accounted (reconnect tape config fuel now).
Proof.
  unfold reconnect. apply keeps_bind.
  - apply keeps_modify. intros [? ? ? ? ? ? m ? ? ? ? ? ? ?] Hl. destruct m. unfold accounted, accounted_but in *. cbn in *.
    destruct Hl as [Hs Hl]. split; [exact Hs|].
    rewrite Hl. unfold fetch_add. rewrite wrap64_middle. f_equal. change (len []) with 0. lia.
  - intros _. unfold try_migrate, establish_replacement, socket, clock. keeps.
Qed.
#[local] Hint Resolve accounted_reconnect : keeps.

Lemma accounted_maintain fuel : keeps accounted (maintain_liveness tape config fuel).
Proof.
  unfold maintain_liveness, clock. apply keeps_bind; [keeps|]. intros now. apply keeps_bind; [keeps|]. intros live.
  destruct (Linux.action live now); [keeps| |keeps].
  intros l w Hl. pose proof (send_keepalive_spec l w Hl) as H. unfold lbind, catch.
  destruct (send_keepalive tape l w) as [[l' w'] [[[]|e|]|]]; [|destruct e; try exact H; (case_match; [by apply accounted_report_lost|exact H])|exact H..].
  destruct H as [Hs H]. unfold modify, accounted, accounted_but.
  destruct l' as [? ? ? ? ? ? m ? ? ? ? ? ? ?]. destruct m. cbn in *. unfold fetch_add. rewrite wrap64_idem. split.
  - rewrite Hs, wrap64_add. f_equal. lia.
  - rewrite len_app, Z.add_assoc, <- (wrap64_add (_ + len l_pending0)), <- H. by rewrite wrap64_add.
Qed.
#[local] Hint Resolve accounted_maintain : keeps.

Lemma accounted_expire now :
  keeps accounted (modify (fun l => let '(m, pending) := expire_keepalives (l_metrics l) (l_pending l) now in
                                    set_pending (set_metrics l m) pending)).
Proof.
  apply keeps_modify. intros l Hl. unfold expire_keepalives. pose proof (expire_length (l_pending l) now) as He.
  destruct (expire (l_pending l) now) as [pending n]. cbn [fst snd] in He.
  destruct l as [? ? ? ? ? ? m ? ? ? ? ? ? ?]. destruct m. unfold accounted, accounted_but in *. cbn in *.
  destruct Hl as [Hs Hl]. split; [exact Hs|]. rewrite Hl, <- He. unfold fetch_add. rewrite wrap64_middle. f_equal. lia.
Qed.
#[local] Hint Resolve accounted_expire : keeps.

Lemma accounted_turn fuel worker s s' s'' refresh : keeps accounted (turn tape config fuel worker s s' s'' refresh).
Proof. unfold turn, clock. keeps. Qed.

Lemma accounted_encode_packets packets : keeps accounted (encode_packets packets).
Proof.
  induction packets as [|p packets IH]; cbn [encode_packets]; [keeps|].
  destruct (is_ipv6 p); [exact IH|]. apply keeps_bind.
  - intros l w Hl. unfold encode_ip. destruct (TunnelSender_encode_ip_into _ _ _). exact Hl.
  - intros r. unfold record_drops. keeps; exact IH.
Qed.
#[local] Hint Resolve accounted_encode_packets : keeps.

Lemma accounted_wire_encode_all datagrams : keeps accounted (wire_encode_all tape datagrams).
Proof. induction datagrams as [|d datagrams IH]; cbn [wire_encode_all]; keeps; exact IH. Qed.
#[local] Hint Resolve accounted_wire_encode_all : keeps.

Lemma accounted_read_packets n : keeps accounted (read_packets tape n).
Proof. induction n as [|n IH]; cbn [read_packets]; keeps; exact IH. Qed.
#[local] Hint Resolve accounted_read_packets : keeps.

Lemma accounted_outgoing paused' : keeps accounted (outgoing_turn tape paused').
Proof. unfold outgoing_turn, send_packets, record_drops. keeps. Qed.

(** What the two threads do, an iteration at a time. *)
Inductive activity :=
| Loop (fuel : nat) (worker : worker_state) (stopping stopping' stopping'' : bool) (refresh : Z)
| Outgoing (paused' : bool).

Definition act (e : activity) (s : Link * world) : Link * world :=
  match e with
  | Loop fuel worker a b c refresh => (turn tape config fuel worker a b c refresh s.1 s.2).1
  | Outgoing paused' => (outgoing_turn tape paused' s.1 s.2).1
  end.

Definition run_loop (es : list activity) (s : Link * world) : Link * world := fold_left (fun s e => act e s) es s.

(** [C22] Keepalive accounting.  Whatever the network and the platform answer, however
    the two threads alternate, and whether or not the iterations end in errors: the
    keepalives the socket took, less the probes that migrations sent (up to three at each
    reconnect, which the program does not count), are as many as the counter says, and each
    of those counted is exactly one of: matched with a keepalive that arrived, counted as
    timed out, or still in the queue of pending probes.  The counters are compared at their
    width of 64 bits. *)
Theorem keepalives_accounted es l w :
  accounted l -> accounted (run_loop es (l, w)).1.
Proof.
  intros Hl. change l with ((l, w).1) in Hl. revert Hl. generalize (l, w). clear l w.
  induction es as [|e es IH]; intros [l w] Hl; [exact Hl|].
  apply IH. destruct e; cbn [act fst snd] in *; [by apply accounted_turn|by apply accounted_outgoing].
Qed.

(** ** A packet of the send thread is sent or counted as dropped *)

Definition carried (packets : list bytes) : list bytes := filter (fun p => is_ipv6 p = false) packets.

(** What an operation of the send thread changes of the counters. *)
Definition counted (l l' : Link) (sent dropped : Z) : Prop :=
  wrap64 (outgoing_packets (l_metrics l')) = wrap64 (outgoing_packets (l_metrics l) + sent) /\
  wrap64 (outgoing_drops (l_metrics l')) = wrap64 (outgoing_drops (l_metrics l) + dropped).

Lemma counted_refl l : counted l l 0 0.
Proof. split; f_equal; lia. Qed.

Lemma counted_trans l1 l2 l3 a b c d :
  counted l1 l2 a b -> counted l2 l3 c d -> counted l1 l3 (a + c) (b + d).
Proof.
  intros [H1 H2] [H3 H4]. split.
  - by rewrite H3, <- wrap64_add, H1, wrap64_add, Z.add_assoc.
  - by rewrite H4, <- wrap64_add, H2, wrap64_add, Z.add_assoc.
Qed.

Lemma counted_drop l n : counted l (set_metrics l (record_outgoing_drops (l_metrics l) n)) 0 n.
Proof.
  destruct l as [? ? ? ? ? ? m ? ? ? ? ? ? ?]. destruct m. unfold counted, fetch_add. cbn. unfold fetch_add.
  split; [f_equal; lia|apply wrap64_idem].
Qed.

Lemma counted_sent l n : counted l (set_metrics l (record_outgoing_packets (l_metrics l) n)) n 0.
Proof.
  destruct l as [? ? ? ? ? ? m ? ? ? ? ? ? ?]. destruct m. unfold counted, fetch_add. cbn. unfold fetch_add.
  split; [apply wrap64_idem|f_equal; lia].
Qed.

(** Fields the encoding of packets leaves alone. *)
Definition same_control (l l' : Link) : Prop := l_requested l' = l_requested l /\ l_generation l' = l_generation l.

Lemma encode_packets_counted packets l w l' w' ds :
  encode_packets packets l w = (l', w', Some (Ok ds)) ->
  same_control l l' /\ counted l l' 0 (len (carried packets) - len ds) /\ len ds <= len (carried packets).
Proof.
  revert l w l' w' ds. induction packets as [|p packets IH]; intros l w l' w' ds; cbn [encode_packets].
  - intros [= <- _ <-]. split; [done|]. split; [apply counted_refl|done].
  - unfold carried. rewrite filter_cons. destruct (is_ipv6 p) eqn:E6.
    { rewrite decide_False by done. apply IH. }
    rewrite decide_True by done. fold (carried packets).
    intros (l1 & w1 & r & H1 & H2)%lbind_inv. unfold encode_ip in H1.
    destruct (TunnelSender_encode_ip_into _ _ _) as [sender r']. inversion H1; subst; clear H1.
    destruct r as [d|e|]; [|  |discriminate].
    + apply lbind_inv in H2 as (l2 & w2 & ds' & H2 & [= <- _ <-]).
      apply IH in H2 as ([Hr Hg] & Hc & Hl). rewrite !len_cons. split; [done|]. split; [|lia].
      replace (1 + _ - (1 + len ds')) with (len (carried packets) - len ds') by lia. exact Hc.
    + apply lbind_inv in H2 as (l2 & w2 & [] & H1 & H2). unfold record_drops, modify in H1. inversion H1; subst; clear H1.
      apply IH in H2 as ([Hr Hg] & Hc & Hl). rewrite len_cons. split; [done|]. split; [|lia].
      replace (1 + _ - len ds) with (1 + (len (carried packets) - len ds)) by lia.
      exact (counted_trans _ _ _ 0 1 0 _ (counted_drop (set_sender l sender) 1) Hc).
Qed.

Lemma wire_encode_all_inv ds l w l' w' ds' :
  wire_encode_all tape ds l w = (l', w', Some (Ok ds')) -> l' = l.
Proof.
  revert l w l' w' ds'. induction ds as [|d ds IH]; intros l w l' w' ds'; cbn [wire_encode_all].
  - by intros [= -> _ _].
  - intros (l1 & w1 & d' & H1 & (l2 & w2 & rest & H2 & [= <- _ _])%lbind_inv)%lbind_inv.
    apply run_m_inv in H1 as ->. by apply IH in H2.
Qed.

(** The send thread.  When an iteration over a batch of packets ends without a
    fatal error, every packet that is not IPv6 was either handed to the kernel or
    counted as dropped, and none twice; a reconnect is requested only when nothing of
    the batch was sent, and then for the current generation, and otherwise the pending
    request is left alone. *)
Theorem packets_are_sent_or_dropped packets l w l' w' :
  send_packets tape packets l w = (l', w', Some (Ok tt)) ->
  exists sent, counted l l' sent (len (carried packets) - sent) /\ sent <= len (carried packets) /\
    (l_requested l' = l_requested l \/ sent = 0 /\ l_requested l' = l_generation l).
Proof.
  unfold send_packets. intros (l1 & w1 & ds & (Hc1 & Hc & Hle)%encode_packets_counted & H)%lbind_inv.
  case_bool_decide as Hd.
  { inversion H; subst. exists 0. rewrite Z.sub_0_r in Hc. rewrite Z.sub_0_r. split; [exact Hc|].
    split; [len_lia|]. left. apply Hc1. }
  apply lbind_inv in H as (l2 & w2 & wired & ->%wire_encode_all_inv & H).
  apply lbind_inv in H as (l3 & w3 & m & ->%run_m_inv & H).
  destruct (send_batch_with _ _) as [n|e|]; [| |discriminate].
  - apply lbind_inv in H as (l4 & w4 & [] & H4 & H). inversion H4; subst; clear H4.
    pose proof (counted_trans _ _ _ _ _ _ _ Hc (counted_sent l1 n)) as Hs. rewrite Z.add_0_r in Hs.
    exists n. destruct (Z.eqb_spec n (len ds)) as [->|Hn].
    + inversion H; subst. split; [exact Hs|]. split; [lia|]. left. apply Hc1.
    + destruct (Z.ltb_spec (len ds) n); [discriminate|]. inversion H; subst.
      pose proof (counted_trans _ _ _ _ _ _ _ Hs (counted_drop _ (len ds - n))) as Ht. split; [|split; [lia|left; apply Hc1]].
      replace (len (carried packets) - n) with (len (carried packets) - len ds + (len ds - n)) by lia.
      by rewrite Z.add_0_r in Ht.
  - exists 0. pose proof (counted_trans _ _ _ _ _ _ _ Hc (counted_drop l1 (len ds))) as Hs.
    replace (len (carried packets) - len ds + len ds) with (len (carried packets) - 0) in Hs by lia.
    destruct (is_peer_unavailable e); [|destruct (is_retryable_network e); [|discriminate]].
    + apply lbind_inv in H as (l4 & w4 & [] & H4 & H). inversion H4; subst; clear H4. inversion H; subst.
      split; [exact Hs|]. split; [len_lia|]. right. split; [done|]. apply Hc1.
    + inversion H; subst. split; [exact Hs|]. split; [len_lia|]. left. apply Hc1.
Qed.

End Accounting.

(** ** Changing the parameters of the session *)

Section Parameters.
Context `{N : Noise, P : Primitives} (tape : nat -> moment).

(** The interface and the resolver have the parameters of the session. *)
Definition synced (l : Link) : Prop :=
  current (l_tun l) = tun_of (l_parameters l) /\ tun_applied (l_tun l) /\
  l_resolver l = SessionParameters.dns (l_parameters l).

(** The platform refused the call at position [i]. *)
Definition refused (i : nat) : Prop := exists e, m_socket (tape i) = Err e.

(** Two of the calls between [lo] and [hi] were refused. *)
Definition refused_twice (lo hi : nat) : Prop := exists i j, (lo <= i < j)%nat /\ (j < hi)%nat /\ refused i /\ refused j.

(** What [reconfigure] leaves: the device has the new configuration on success, the old
    one on an error, unless undoing failed as well; nothing else changes. *)
Lemma reconfigure_spec c l w :
  tun_applied (l_tun l) ->
  exists t w' r, reconfigure tape c l w = (set_tun l t, w', Some (Ok r)) /\ (pos w <= pos w')%nat /\
    match r with
    | Ok _ => current t = c /\ tun_applied t
    | Err e => current t = current (l_tun l) /\ (exists i, (pos w <= i < pos w')%nat /\ refused i) /\
        (t = l_tun l \/ e = rollback_failed /\ refused_twice (pos w) (pos w'))
    | Panic => True
    end.
Proof.
  intros Ht. unfold reconfigure, lbind, gets. case_bool_decide as Hc.
  { exists (l_tun l), w, (Ok tt). cbn. split; [by destruct l|by subst]. }
  unfold set_mtu, set_network_address, device, platform, set_current, run_m, moment_at, modify, lbind, lret. cbn.
  destruct (m_socket (tape (pos w))) as [[]|e|] eqn:E1; cbn.
  2:{ eexists (l_tun l), _, _. split; [by destruct l|]. cbn. split; [lia|]. split; [done|]. split; [|by left]. exists (pos w). split; [lia|by exists e]. }
  2:{ eexists (l_tun l), _, _. split; [by destruct l|]. cbn. split; [lia|done]. }
  destruct (m_socket (tape (S (pos w)))) as [[]|e|] eqn:E2; cbn.
  - eexists _, _, _. split; [reflexivity|]. cbn. split; [lia|done].
  - destruct (m_socket (tape (S (S (pos w))))) as [[]|e2|] eqn:E3, (m_socket (tape (S (S (S (pos w)))))) as [[]|e3|] eqn:E4; cbn;
      (eexists _, _, _; split; [reflexivity|]); cbn; (split; [lia|]); try done;
      (split; [done|]); (split; [exists (S (pos w)); split; [lia|by exists e]|]);
      try (right; split; [done|]; exists (S (pos w)), (S (S (pos w))); split; [lia|]; split; [lia|]; split; by eexists);
      try (right; split; [done|]; exists (S (pos w)), (S (S (S (pos w)))); split; [lia|]; split; [lia|]; split; by eexists).
    left. destruct Ht as [Hn Hm]. destruct (l_tun l). cbn in *. by subst.
  - eexists _, _, _. split; [reflexivity|]. cbn. split; [lia|done].
Qed.

Lemma update_resolver_spec a l w :
  exists w' r, update_resolver tape a l w = (match r with Ok _ => set_resolver l a | _ => l end, w', Some (Ok r)) /\ (pos w <= pos w')%nat /\
  match r with Err _ => exists i, (pos w <= i < pos w')%nat /\ refused i | _ => True end.
Proof.
  unfold update_resolver, lbind, gets. case_bool_decide as Ha.
  { eexists w, (Ok tt). subst. by destruct l. }
  unfold platform, run_m, moment_at, modify, lbind, lret. cbn.
  destruct (m_socket _) as [[]|e|] eqn:E.
  - eexists _, (Ok tt). split; [done|]. cbn. split; [lia|done].
  - eexists _, (Err e). split; [done|]. cbn. split; [lia|]. exists (pos w). split; [lia|by exists e].
  - eexists _, Panic. split; [done|]. cbn. split; [lia|done].
Qed.

(** [C23] New session parameters are applied whole or not at all.  From a state in which
    the interface and the resolver have the session's parameters: on success they have
    the new ones; on an error the session keeps its parameters, and so do the interface
    and the resolver, unless two calls of the platform were refused, one that applies the
    parameters and a later one that undoes what was applied, and then the error is the one
    that tells of both.  So a single refused call is always undone.  The proxy mode, which
    manages no resolver, refuses a change outright. *)
Theorem parameters_applied_whole_or_not p l w l' w' r :
  synced l -> apply_session_parameters tape p l w = (l', w', Some r) -> r <> Panic ->
  (l_full l = false -> l' = l) /\
  match r with
  | Ok _ => l_parameters l' = p /\ synced l'
  | Err e => l_parameters l' = l_parameters l /\
      (synced l' \/ e = ClientError.Io rollback_failed /\ refused_twice (pos w) (pos w'))
  | Panic => False
  end.
Proof.
  intros (Hc & Ht & Hd). unfold apply_session_parameters, lbind, gets. case_bool_decide as Hp.
  { intros [= <- _ <-] _. by subst. }
  destruct (l_full l) eqn:Hf; [cbn [negb]|by intros [= <- _ <-] _; repeat split; auto; left].
  destruct (reconfigure_spec (tun_of p) l w Ht) as (t & w1 & r1 & -> & Hw1 & H1). unfold lres.
  destruct r1 as [[]|e|]; cbn [map_err].
  2:{ intros [= <- <- <-] _. split; [done|]. split; [done|]. destruct H1 as (Ec & _ & [Et|[-> Htwice]]); [left|by right].
      subst t. repeat split; [exact Hc|apply Ht|apply Ht|exact Hd]. }
  2: by intros [= _ _ <-].
  destruct (update_resolver_spec (SessionParameters.dns p) (set_tun l t) w1) as (w2 & r2 & -> & Hw2 & H2).
  destruct r2 as [[]|e|]; [| |by intros [= _ _ <-]].
  { intros [= <- _ <-] _. split; [done|]. split; [done|]. destruct H1 as [Ec Et]. by split. }
  destruct (reconfigure_spec (tun_of (l_parameters l)) (set_tun l t) w2) as (t' & w3 & r3 & -> & Hw3 & H3); [apply H1|].
  destruct r3 as [[]|e'|]; [| |by intros [= _ _ <-]]; intros [= <- <- <-] _; (split; [done|]); (split; [done|]).
  - left. destruct H3 as [Ec Et]. by split.
  - right. split; [done|]. destruct H2 as (i & Hi & Hri), H3 as (_ & (j & Hj & Hrj) & _). exists i, j. split; [lia|]. split; [lia|done].
Qed.

End Parameters.

(** ** Expiry *)

Lemma filter_all {A} (Q : A -> Prop) `{forall x, Decision (Q x)} (l : list A) : Forall Q l -> filter Q l = l.
Proof. induction 1; [done|]. rewrite filter_cons_True by done. by f_equal. Qed.

(** On a queue in the order of sending, the probes that go are exactly the old ones. *)
Lemma expire_filter pending now :
  StronglySorted Z.le pending ->
  (expire pending now).1 = filter (fun sent => duration_since now sent < KEEPALIVE_RESPONSE_TIMEOUT) pending.
Proof.
  induction 1 as [|p pending Hs IH Hle]; [done|]. cbn [expire]. rewrite filter_cons.
  destruct (Z.leb_spec KEEPALIVE_RESPONSE_TIMEOUT (duration_since now p)) as [H|H].
  - rewrite decide_False by lia. destruct (expire pending now). exact IH.
  - rewrite decide_True by done. cbn [fst]. f_equal. symmetry. apply filter_all.
    revert Hle. apply Forall_impl. intros q Hq. unfold duration_since, sat_sub in *. lia.
Qed.

(** ** Reconnect requests under interleaving

    The two threads share [session_generation] and [reconnect_requested].  Each step is
    one atomic access; the send thread reads the generation only after its send has
    failed (outgoing.rs, the arm of [is_peer_unavailable]). *)

Inductive send_thread :=
| Resting
| Sending (session : Z)              (* a send on the sockets of [session] is in the kernel *)
| SendFailed (session : Z)           (* it returned an error of the peer *)
| Loaded (session loaded_in value : Z). (* the generation has been read *)

Record Shared := mkShared {
  generation : Z;
  requested : Z;
  (** the session whose send failed, and the generation in which the request was raised *)
  origin : Z * Z;
  clearing : bool;
  sender_at : send_thread;
}.

Definition shared_start : Shared := mkShared 1 0 (0, 0) false Resting.

Inductive atomic_step := SendStarts | SendReturns | SendFails | LoadGeneration | StoreRequest | Advance | Clear | Take.

(** The shared state afterwards and, when a request is honoured, its origin. *)
Definition atomic (s : Shared) (e : atomic_step) : option (Shared * option (Z * Z)) :=
  let '(mkShared g r o c t) := s in
  match e, t, c with
  | SendStarts, Resting, _ => Some (mkShared g r o c (Sending g), None)
  | SendReturns, Sending _, _ => Some (mkShared g r o c Resting, None)
  | SendFails, Sending session, _ => Some (mkShared g r o c (SendFailed session), None)
  | LoadGeneration, SendFailed session, _ => Some (mkShared g r o c (Loaded session g g), None)
  | StoreRequest, Loaded session loaded_in value, _ => Some (mkShared g value (session, loaded_in) c Resting, None)
  | Advance, _, false => Some (mkShared (fetch_add g 1) r o true t, None)
  | Clear, _, true => Some (mkShared g 0 o false t, None)
  | Take, _, false =>
      let '(r', mine) := take_reconnect_request r g in
      Some (mkShared g r' o c t, if mine then Some o else None)
  | _, _, _ => None
  end.

Fixpoint atomics (s : Shared) (es : list atomic_step) : option (Shared * list (Z * (Z * Z))) :=
  match es with
  | [] => Some (s, [])
  | e :: es =>
      match atomic s e with
      | None => None
      | Some (s', honoured) =>
          match atomics s' es with
          | None => None
          | Some (s'', log) =>
              Some (s'', match honoured with Some o => (generation s', o) :: log | None => log end)
          end
      end
  end.

(** What was read lies in the past, and a request carries the generation it was raised in. *)
Definition requests_ok (s : Shared) : Prop :=
  1 <= generation s /\
  (requested s <> 0 -> requested s = (origin s).2 /\ (origin s).1 <= (origin s).2 <= generation s) /\
  match sender_at s with
  | Resting => True
  | Sending session | SendFailed session => session <= generation s
  | Loaded session loaded_in value => value = loaded_in /\ session <= loaded_in <= generation s
  end.

Lemma requests_step s e s' honoured :
  requests_ok s -> generation s < u64_max -> atomic s e = Some (s', honoured) ->
  requests_ok s' /\ generation s' <= generation s + 1 /\
  match honoured with Some (from, raised) => raised = generation s' /\ from <= raised | None => True end.
Proof.
  destruct s as [g r [from raised] c t]. unfold requests_ok. cbn [generation requested origin sender_at fst snd].
  intros (Hg & Hr & Ht) Hmax. unfold atomic, take_reconnect_request.
  assert (Hf : fetch_add g 1 = g + 1).
  { unfold fetch_add, wrap64. apply Z.mod_small. unfold u64_max in Hmax. lia. }
  destruct e, t, c; intros H; try discriminate H; inversion H; subst; clear H;
    cbn [generation requested origin sender_at fst snd]; rewrite ?Hf;
    try (split_and!; solve [done|lia|intros; lia]).
  all: destruct (Z.eqb_spec r 0), (Z.eqb_spec r g); cbn [negb andb]; split_and!; solve [done|lia|intros; lia].
Qed.

Lemma requests_run es s s' log :
  requests_ok s -> generation s + len es < u64_max -> atomics s es = Some (s', log) ->
  Forall (fun '(g, (from, raised)) => raised = g /\ from <= g) log.
Proof.
  revert s log. induction es as [|e es IH]; intros s log Hs Hmax H; cbn [atomics] in H.
  { by inversion H. }
  rewrite len_cons in Hmax. destruct (atomic s e) as [[s1 h]|] eqn:E; [|done].
  destruct (requests_step s e s1 h Hs ltac:(len_lia) E) as (Hs1 & Hg & Hh).
  destruct (atomics s1 es) as [[s2 log']|] eqn:E2; [|done]. inversion H; subst; clear H.
  specialize (IH s1 log' Hs1 ltac:(lia) E2). destruct h as [[from raised]|]; [|done].
  constructor; [|exact IH]. destruct Hh as [-> Hle]. by split.
Qed.

(** Reconnect requests.  However the accesses of the two threads interleave, for as
    long as the 64-bit generation does not wrap, a request the receive loop honours was
    raised while the current session was the current one; a request raised before the
    last replacement is ignored.  This is as far as it goes: because the send thread
    reads the generation after its send has failed, a send that began on the sockets of
    an earlier session and fails after the replacement is honoured against the new
    session. *)
Theorem honoured_requests_are_of_this_generation :
  (forall es s log, len es < u64_max - 1 -> atomics shared_start es = Some (s, log) ->
    Forall (fun '(g, (from, raised)) => raised = g /\ from <= g) log) /\
  exists es s, atomics shared_start es = Some (s, [(2, (1, 2))]).
Proof.
  split.
  - intros es s log Hl. apply requests_run; [|cbn; lia]. repeat split; cbn; lia.
  - exists [SendStarts; Advance; Clear; SendFails; LoadGeneration; StoreRequest; Take].
    eexists. vm_compute. reflexivity.
Qed.

(** ** Witnesses *)

Module ToyLoop.
Import Toy ToyHandshake.

Definition toy_parameters : SessionParameters.t :=
  SessionParameters.mk (ipv4_new 10 77 0 2) 24 1280 (ipv4_new 10 77 0 1).

Definition toy_link : Link :=
  mkLink toy_parameters (mkTunnelReceiver 42 1280 toy_receiver)
    (mkTunnelSender 42 0 1280 (mkSendHalf 7 (zeros 32)) []) false 0 1 metrics_default (Linux.new 0) [] true
    (mkLinuxTun (ipv4_new 10 77 0 2, 24) 1280 (tun_of toy_parameters)) (ipv4_new 10 77 0 1) [] (0, 0).

(** The server's keepalive number [n]. *)
Definition toy_keepalive (n : Z) : bytes :=
  Datagram.encode (Datagram.mk (Header.mk PacketKind.Keepalive 0 42 n) ([2] ++ toy_tag 7 n [2])).

(** An IPv4 packet of the client and one that is IPv6. *)
Definition toy_packets : list bytes :=
  [[69; 0; 0; 20; 0; 0; 0; 0; 64; 17; 0; 0; 10; 77; 0; 2; 10; 77; 0; 3]; [96; 0; 0]].

(** Half a second per interaction; the server repeats one keepalive for ever, so that the
    first probe is answered and the session then times out. *)
Definition toy_tape (i : nat) : moment :=
  mkMoment (500 * Z.of_nat i) (Some 0) (Some (replicate 45 7)) [] (Ok (len (toy_keepalive 0)))
    (Err (mkIoError ErrorKind.WouldBlock None))
    (if (23 <=? i)%nat then Ok [toy_keepalive 0] else Err (mkIoError ErrorKind.WouldBlock None)) (Ok tt).

Definition toy_run : list activity :=
  Outgoing false :: replicate 24 (Loop 60 WorkerRunning false false false 1000000).

Definition toy_final : Link := (run_loop toy_tape config toy_run (toy_link, before)).1.

Lemma keepalives_accounted_witness :
  accounted toy_link /\ accounted toy_final /\
  keepalives_sent (l_metrics toy_final) = 4 /\ keepalive_responses (l_metrics toy_final) = 1 /\
  keepalive_timeouts (l_metrics toy_final) = 2 /\ reconnects (l_metrics toy_final) = 5 /\ l_ledger toy_final = (19, 15).
Proof.
  assert (H : accounted toy_link) by (split; reflexivity). split; [exact H|]. split.
  - unfold toy_final. exact (keepalives_accounted toy_tape config toy_run toy_link before H).
  - vm_compute. repeat split.
Defined.

(** The kernel takes the one datagram of the batch. *)
Definition batch_tape (i : nat) : moment :=
  mkMoment 0 (Some 0) (Some (replicate 45 7)) [] (Ok 1) (Ok []) (Ok []) (Ok tt).

Lemma packets_are_sent_or_dropped_witness :
  exists l w, send_packets batch_tape toy_packets toy_link before = (l, w, Some (Ok tt)) /\
  outgoing_packets (l_metrics l) = 1 /\ exists sent, counted toy_link l sent (len (carried toy_packets) - sent) /\ sent <= len (carried toy_packets).
Proof.
  destruct (send_packets batch_tape toy_packets toy_link before) as [[l w] r] eqn:E. exists l, w.
  assert (Hr : (send_packets batch_tape toy_packets toy_link before).2 = Some (Ok tt)) by (vm_compute; reflexivity).
  rewrite E in Hr. cbn [snd] in Hr. subst r. split; [done|].
  assert (Ho : outgoing_packets (l_metrics (send_packets batch_tape toy_packets toy_link before).1.1) = 1)
    by (vm_compute; reflexivity).
  rewrite E in Ho. split; [exact Ho|].
  destruct (packets_are_sent_or_dropped batch_tape toy_packets toy_link before l w E) as (sent & H1 & H2 & _).
  exists sent. by split.
Defined.

Definition toy_new_parameters : SessionParameters.t :=
  SessionParameters.mk (ipv4_new 10 77 0 9) 24 1400 (ipv4_new 10 77 0 53).

(** The address cannot be set, the rollback succeeds. *)
Definition failing_tape (i : nat) : moment :=
  mkMoment 0 None None [] (Ok 0) (Ok []) (Ok [])
    (if (i =? 1)%nat then Err (mkIoError ErrorKind.InvalidInput None) else Ok tt).

Lemma toy_synced : synced toy_link.
Proof. repeat split. Qed.

Lemma parameters_applied_whole_or_not_witness :
  (let '(l, _, r) := apply_session_parameters toy_tape toy_new_parameters toy_link before in
   r = Some (Ok tt) /\ l_parameters l = toy_new_parameters /\ synced l) /\
  (let '(l, _, r) := apply_session_parameters failing_tape toy_new_parameters toy_link before in
   r = Some (Err (ClientError.Io (mkIoError ErrorKind.InvalidInput None))) /\ l_parameters l = toy_parameters /\ synced l).
Proof.
  split.
  - destruct (apply_session_parameters toy_tape toy_new_parameters toy_link before) as [[l w] r] eqn:E.
    assert (Hr : (apply_session_parameters toy_tape toy_new_parameters toy_link before).2 = Some (Ok tt))
      by (vm_compute; reflexivity).
    rewrite E in Hr. cbn [snd] in Hr. subst r. split; [done|].
    by apply (parameters_applied_whole_or_not toy_tape toy_new_parameters toy_link before l w (Ok tt) toy_synced E).
  - destruct (apply_session_parameters failing_tape toy_new_parameters toy_link before) as [[l w] r] eqn:E.
    assert (Hr : (apply_session_parameters failing_tape toy_new_parameters toy_link before).2 =
      Some (Err (ClientError.Io (mkIoError ErrorKind.InvalidInput None)))) by (vm_compute; reflexivity).
    rewrite E in Hr. cbn [snd] in Hr. subst r. split; [done|].
    destruct (parameters_applied_whole_or_not failing_tape toy_new_parameters toy_link before l w _ toy_synced E)
      as (_ & Hp & [Hs|[Hs _]]); [done|by split|discriminate].
Defined.

End ToyLoop.
