(* ===== verification/Socks.v ===== *)
(** * The SOCKS5 proxy of the Linux client

    crates/linux-client/src/socks: protocol.rs (the request of a local client), dns.rs
    (a query to the session's resolver), connect.rs and mod.rs ([serve_client]).

    A TCP stream is what the client has yet to be read, what was written to it, and what
    follows when it says or takes nothing more (nothing in the source limits how long it is
    waited for); a string is its UTF-8 bytes.  The resolver and the kernel are arguments.  Following
    names through a DNS message has fuel, and spent fuel is a panic, so that a theorem
    that the parser does not panic shows that it ends.

    The theorems: which requests are accepted, and that what follows a request is left
    for the relay; the one reply a client gets; queries are well-formed and the first
    IPv4 address of any well-formed answer is found. *)

From S2P Require Import Prelude Protocol Handshake.

(** ** Text *)

Definition in_range (lo hi b : Z) : bool := (lo <=? b) && (b <=? hi).
Definition continuation (b : Z) : bool := in_range 0x80 0xBF b.

(** [str::from_utf8] *)
Fixpoint utf8 (b : bytes) : bool :=
  match b with
  | [] => true
  | b0 :: b1 =>
      if b0 <? 0x80 then utf8 b1
      else
        match b1 with
        | [] => false
        | c1 :: b2 =>
            if in_range 0xC2 0xDF b0 && continuation c1 then utf8 b2
            else
              match b2 with
              | [] => false
              | c2 :: b3 =>
                  if ((b0 =? 0xE0) && in_range 0xA0 0xBF c1 ||
                      in_range 0xE1 0xEC b0 && continuation c1 ||
                      (b0 =? 0xED) && in_range 0x80 0x9F c1 ||
                      in_range 0xEE 0xEF b0 && continuation c1) && continuation c2
                  then utf8 b3
                  else
                    match b3 with
                    | [] => false
                    | c3 :: b4 =>
                        ((b0 =? 0xF0) && in_range 0x90 0xBF c1 ||
                         in_range 0xF1 0xF3 b0 && continuation c1 ||
                         (b0 =? 0xF4) && in_range 0x80 0x8F c1) &&
                        continuation c2 && continuation c3 && utf8 b4
                    end
              end
        end
  end.

Definition DOT : Z := 46.

(** [str::trim_end_matches('.')] *)
Fixpoint trim_dots_start (s : bytes) : bytes :=
  match s with c :: s' => if c =? DOT then trim_dots_start s' else s | [] => [] end.
Definition trim_end_dots (s : bytes) : bytes := rev (trim_dots_start (rev s)).

(** [str::split('.')] *)
Fixpoint split_dots (s : bytes) : list bytes :=
  match s with
  | [] => [[]]
  | c :: s =>
      if c =? DOT then [] :: split_dots s
      else match split_dots s with label :: labels => (c :: label) :: labels | [] => [[c]] end
  end.

Definition is_ascii (s : bytes) : bool := forallb (fun c => c <? 128) s.

(** ** Reading a request *)

Inductive Target := Ipv4 (address : Ipv4Addr) (port : Z) | Domain (name : bytes) (port : Z).

Record RequestError := mkRequestError { source : IoError; reply_code : Z }.

Definition request_error (k : ErrorKind.t) (code : Z) : RequestError := mkRequestError (mkIoError k None) code.
Definition io_error (e : IoError) : RequestError := mkRequestError e 0x01.

(** What a read finds when the bytes of the client are used up: nothing yet, the end of the
    stream, or an error. *)
Inductive Ending := Open | Closed | Lost (e : IoError).

(** [takes] is what the client takes of what is written to it: everything, or so many bytes
    and then a write fails with an error or waits for ever. *)
Record Peer := mkPeer { ended : Ending; takes : option (Z * option IoError) }.

(** The client's side of the connection. *)
Record TcpStream := mkTcpStream { unread : bytes; written : bytes; peer : Peer }.

(** [None] is a computation that waits for the client. *)
Definition T (A : Type) : Type := TcpStream -> TcpStream * option (res RequestError A).
Definition tret {A} (a : A) : T A := fun s => (s, Some (Ok a)).
Definition tfail {A} (e : RequestError) : T A := fun s => (s, Some (Err e)).
Definition tbind {A B} (m : T A) (k : A -> T B) : T B := fun s =>
  match m s with
  | (s, Some (Ok a)) => k a s
  | (s, Some (Err e)) => (s, Some (Err e))
  | (s, Some Panic) => (s, Some Panic)
  | (s, None) => (s, None)
  end.
Definition tres {A} (r : res RequestError A) : T A := fun s => (s, Some r).

Notation "x <- m ; k" := (tbind m (fun x => k)) (at level 100, m at next level, right associativity).

Definition read_exact (n : Z) : T bytes := fun s =>
  if n <=? len (unread s)
  then (mkTcpStream (drop (Z.to_nat n) (unread s)) (written s) (peer s), Some (Ok (take (Z.to_nat n) (unread s))))
  else
    (mkTcpStream [] (written s) (peer s),
     match ended (peer s) with
     | Open => None
     | Closed => Some (Err (io_error (mkIoError ErrorKind.UnexpectedEof None)))
     | Lost e => Some (Err (io_error e))
     end).

Definition write_all (b : bytes) : T unit := fun s =>
  match takes (peer s) with
  | None => (mkTcpStream (unread s) (written s ++ b) (peer s), Some (Ok tt))
  | Some (n, after) =>
      if len b <=? n
      then (mkTcpStream (unread s) (written s ++ b) (mkPeer (ended (peer s)) (Some (n - len b, after))), Some (Ok tt))
      else
        (mkTcpStream (unread s) (written s ++ take (Z.to_nat n) b) (mkPeer (ended (peer s)) (Some (0, after))),
         match after with Some e => Some (Err (io_error e)) | None => None end)
  end.

Definition negotiate_auth : T unit :=
  greeting <- read_exact 2;
  version <- tres (index greeting 0);
  count <- tres (index greeting 1);
  if negb (version =? 5) || (count =? 0) then tfail (request_error ErrorKind.InvalidData 0x01)
  else
    methods <- read_exact count;
    if negb (bool_decide (0 ∈ methods))
    then _ <- write_all [5; 0xff]; tfail (request_error ErrorKind.PermissionDenied 0x01)
    else write_all [5; 0].

Definition read_ipv4 : T Target :=
  value <- read_exact 6;
  address <- tres (slice value 0 4);
  port <- tres (slice value 4 6);
  tret (Ipv4 (be_value address) (be_value port)).

Definition read_domain : T Target :=
  first <- read_exact 1;
  length <- tres (index first 0);
  if length =? 0 then tfail (request_error ErrorKind.InvalidData 0x04)
  else
    value <- read_exact (length + 2);
    name <- tres (slice value 0 length);
    if negb (utf8 name) then tfail (request_error ErrorKind.InvalidData 0x04)
    else
      port <- tres (slice value length (length + 2));
      tret (Domain name (be_value port)).

Definition read_request : T Target :=
  _ <- negotiate_auth;
  header <- read_exact 4;
  version <- tres (index header 0);
  command <- tres (index header 1);
  reserved <- tres (index header 2);
  kind <- tres (index header 3);
  if negb (version =? 5) || negb (reserved =? 0) then tfail (request_error ErrorKind.InvalidData 0x01)
  else if negb (command =? 1) then tfail (request_error ErrorKind.Unsupported 0x07)
  else if kind =? 1 then read_ipv4
  else if kind =? 3 then read_domain
  else tfail (request_error ErrorKind.Unsupported 0x08).

Definition write_success (bound : SocketAddr) : T unit :=
  let address := match ip bound with V4 a => octets a | V6 _ => [0; 0; 0; 0] end in
  write_all ([5; 0; 0; 1] ++ address ++ be_bytes 2 (port bound)).

Definition write_failure (code : Z) : T unit := write_all [5; code; 0; 1; 0; 0; 0; 0; 0; 0].

(** ** DNS *)

Definition io (k : ErrorKind.t) : IoError := mkIoError k None.
Definition invalid_response : IoError := io ErrorKind.InvalidData.

Definition push_label (query label : bytes) : res IoError bytes :=
  if bool_decide (label = []) || (63 <? len label) || negb (is_ascii label)
  then Err (io ErrorKind.InvalidInput)
  else Ok (query ++ [len label] ++ label).

Definition build_query (name identifier : bytes) : res IoError bytes :=
  let name := trim_end_dots name in
  if bool_decide (name = []) || (253 <? len name) then Err (io ErrorKind.InvalidInput)
  else
    let query := identifier ++ [0x01; 0x00; 0x00; 0x01; 0; 0; 0; 0; 0; 0] in
    query ← for_each push_label (split_dots name) query;
    Ok (query ++ [0; 0; 1; 0; 1]).

Definition read_u16 (packet : bytes) (offset : Z) : res IoError Z :=
  b ← ok_or (get_range packet offset (offset + 2)) invalid_response; Ok (be_value b).

(** [offset.checked_add(n).filter(|end| *end <= packet.len())] *)
Definition advance (packet : bytes) (offset n : Z) : res IoError Z :=
  if offset + n <=? len packet then Ok (offset + n) else Err invalid_response.

Fixpoint skip_loop (fuel : nat) (packet : bytes) (offset : Z) : res IoError Z :=
  match fuel with
  | O => Panic
  | S fuel =>
      length ← ok_or (get_opt packet offset) invalid_response;
      let offset := offset + 1 in
      if length =? 0 then Ok offset
      else if Z.land length 0xc0 =? 0xc0
      then if bool_decide (get_opt packet offset = None) then Err invalid_response else Ok (offset + 1)
      else if negb (Z.land length 0xc0 =? 0) then Err invalid_response
      else
        offset ← advance packet offset length;
        skip_loop fuel packet offset
  end.

Definition skip_name (packet : bytes) (offset : Z) : res IoError Z := skip_loop (S (length packet)) packet offset.

Fixpoint skip_questions (n : nat) (packet : bytes) (offset : Z) : res IoError Z :=
  match n with
  | O => Ok offset
  | S n =>
      offset ← skip_name packet offset;
      offset ← advance packet offset 4;
      skip_questions n packet offset
  end.

Fixpoint find_address (n : nat) (packet : bytes) (offset : Z) : res IoError Ipv4Addr :=
  match n with
  | O => Err (io ErrorKind.NotFound)
  | S n =>
      offset ← skip_name packet offset;
      if len packet <? offset + 10 then Err invalid_response
      else
        record_type ← read_u16 packet offset;
        class ← read_u16 packet (offset + 2);
        length ← read_u16 packet (offset + 8);
        let offset := offset + 10 in
        end_ ← advance packet offset length;
        if (record_type =? 1) && (class =? 1) && (length =? 4)
        then
          a ← index packet offset;
          b ← index packet (offset + 1);
          c ← index packet (offset + 2);
          d ← index packet (offset + 3);
          Ok (ipv4_new a b c d)
        else find_address n packet end_
  end.

Definition parse_response (packet identifier : bytes) : res IoError Ipv4Addr :=
  if len packet <? 12 then Err invalid_response
  else
    id ← slice packet 0 2;
    if negb (bool_decide (id = identifier)) then Err invalid_response
    else
      b2 ← index packet 2;
      if Z.land b2 0x80 =? 0 then Err invalid_response
      else
        b3 ← index packet 3;
        if negb (Z.land b3 0x0f =? 0) then Err (io ErrorKind.NotFound)
        else
          questions ← read_u16 packet 4;
          answers ← read_u16 packet 6;
          offset ← skip_questions (Z.to_nat questions) packet 12;
          find_address (Z.to_nat answers) packet offset.

(** ** Serving a client *)

(** What the system calls of one connection answer. *)
Record Calls := mkCalls {
  k_random : option bytes;
  k_dns_socket : res IoError unit;
  k_dns_exchange : bytes -> res IoError bytes;
  k_socket : res IoError unit;
  k_connect : Ipv4Addr -> Z -> res IoError unit;
  k_stream : res IoError unit;
  k_take_error : res IoError (option IoError);
  k_local_addr : res IoError SocketAddr;
}.

Definition resolve_ipv4 (k : Calls) (name : bytes) : res IoError Ipv4Addr :=
  identifier ← ok_or (k_random k) (io ErrorKind.Other);
  query ← build_query name identifier;
  _ ← k_dns_socket k;
  response ← k_dns_exchange k query;
  parse_response (take 4096 response) identifier.

Definition EINPROGRESS : Z := 115.

Definition connect_marked (k : Calls) (address : Ipv4Addr) (port : Z) : res IoError unit :=
  _ ← k_socket k;
  _ ← match k_connect k address port with
      | Err e =>
          if bool_decide (kind e = ErrorKind.WouldBlock) || bool_decide (raw_os_error e = Some EINPROGRESS)
          then Ok tt else Err e
      | r => r
      end;
  _ ← k_stream k;
  error ← k_take_error k;
  match error with Some e => Err e | None => Ok tt end.

Definition connect_reply_code (e : IoError) : Z :=
  match kind e with
  | ErrorKind.ConnectionRefused => 0x05
  | ErrorKind.TimedOut => 0x06
  | ErrorKind.NetworkUnreachable => 0x03
  | ErrorKind.HostUnreachable => 0x04
  | _ => 0x01
  end.

(** The stream afterwards and the remote end its remaining bytes are relayed to. *)
Definition serve_client (k : Calls) (client : TcpStream) : TcpStream * option (res IoError (Ipv4Addr * Z)) :=
  let fail client code e :=
    match write_failure code client with
    | (client, None) => (client, None)
    | (client, Some _) => (client, Some (Err e))
    end in
  match read_request client with
  | (client, None) => (client, None)
  | (client, Some Panic) => (client, Some Panic)
  | (client, Some (Err e)) => fail client (reply_code e) (source e)
  | (client, Some (Ok target)) =>
      let resolved :=
        match target with
        | Ipv4 address port => Ok (address, port)
        | Domain name port => address ← resolve_ipv4 k name; Ok (address, port)
        end in
      match resolved with
      | Panic => (client, Some Panic)
      | Err e => fail client 0x04 e
      | Ok (address, port) =>
          match connect_marked k address port with
          | Panic => (client, Some Panic)
          | Err e => fail client (connect_reply_code e) e
          | Ok _ =>
              match k_local_addr k with
              | Panic => (client, Some Panic)
              | Err e => (client, Some (Err e))
              | Ok bound =>
                  match write_success bound client with
                  | (client, None) => (client, None)
                  | (client, Some (Ok _)) => (client, Some (Ok (address, port)))
                  | (client, Some (Err e)) => (client, Some (Err (source e)))
                  | (client, Some Panic) => (client, Some Panic)
                  end
              end
          end
      end
  end.

(** ** DNS messages

    The format of RFC 1035 as far as the parser reads it: a name is labels that end at
    the root or in a pointer. *)

Inductive name_end := Root | Pointer (hi lo : Z).
Record dns_name := mkName { labels : list bytes; name_ends : name_end }.
Record dns_record := mkRecord { r_name : dns_name; r_type : Z; r_class : Z; r_ttl : Z; r_data : bytes }.

Definition encode_label (l : bytes) : bytes := len l :: l.
Definition encode_end (e : name_end) : bytes := match e with Root => [0] | Pointer hi lo => [hi; lo] end.
Definition encode_name (n : dns_name) : bytes := concat (map encode_label (labels n)) ++ encode_end (name_ends n).
Definition encode_question (q : dns_name * Z * Z) : bytes :=
  let '(n, t, c) := q in encode_name n ++ be_bytes 2 t ++ be_bytes 2 c.
Definition encode_record (r : dns_record) : bytes :=
  encode_name (r_name r) ++ be_bytes 2 (r_type r) ++ be_bytes 2 (r_class r) ++ be_bytes 4 (r_ttl r) ++
  be_bytes 2 (len (r_data r)) ++ r_data r.

(** [rest] is the authority and additional counts, [tail] those sections. *)
Definition message (id : bytes) (f1 f2 : Z) (qs : list (dns_name * Z * Z)) (rs : list dns_record) (rest tail : bytes) : bytes :=
  id ++ [f1; f2] ++ be_bytes 2 (len qs) ++ be_bytes 2 (len rs) ++ rest ++
  concat (map encode_question qs) ++ concat (map encode_record rs) ++ tail.

Definition label_ok (l : bytes) : Prop := 1 <= len l <= 63.
Definition name_ok (n : dns_name) : Prop :=
  Forall label_ok (labels n) /\ match name_ends n with Root => True | Pointer hi _ => 0xc0 <= hi < 256 end.
Definition record_ok (r : dns_record) : Prop :=
  name_ok (r_name r) /\ u16 (r_type r) /\ u16 (r_class r) /\ u16 (len (r_data r)) /\ is_bytes (r_data r).

(** The address of the first IPv4 record. *)
Fixpoint first_address (rs : list dns_record) : option Ipv4Addr :=
  match rs with
  | [] => None
  | r :: rs =>
      if (r_type r =? 1) && (r_class r =? 1) && (len (r_data r) =? 4) then Some (be_value (r_data r)) else first_address rs
  end.

Lemma get_opt_here pre b post : get_opt (pre ++ b :: post) (len pre) = Some b.
Proof.
  unfold get_opt. rewrite decide_True by len_lia. unfold len. rewrite Nat2Z.id.
  by rewrite app_nth2, Nat.sub_diag by lia.
Qed.

Lemma get_range_here pre x post n : n = len x -> get_range (pre ++ x ++ post) (len pre) (len pre + n) = Some x.
Proof.
  intros ->. unfold get_range. rewrite decide_True by len_lia. f_equal. unfold sub_list.
  replace (Z.to_nat (len pre)) with (length pre) by (unfold len; lia).
  rewrite drop_app_length. replace (Z.to_nat _) with (length x) by (unfold len; lia). apply take_app_length.
Qed.

Lemma index_here {E} pre b post : index (E := E) (pre ++ b :: post) (len pre) = Ok b.
Proof.
  rewrite index_ok by len_lia. f_equal. unfold len. rewrite Nat2Z.id.
  by rewrite app_nth2, Nat.sub_diag by lia.
Qed.

Lemma index_at {E} pre mid b post n :
  n = len pre + len mid -> index (E := E) (pre ++ mid ++ b :: post) n = Ok b.
Proof. intros ->. rewrite app_assoc, <- len_app. apply index_here. Qed.

Lemma index_four pre x0 x1 x2 x3 post :
  let packet := pre ++ x0 :: x1 :: x2 :: x3 :: post in
  index (E := IoError) packet (len pre) = Ok x0 /\ index (E := IoError) packet (len pre + 1) = Ok x1 /\
  index (E := IoError) packet (len pre + 2) = Ok x2 /\ index (E := IoError) packet (len pre + 3) = Ok x3.
Proof.
  split_and!; [apply index_here|by apply (index_at pre [x0])|by apply (index_at pre [x0; x1])|
    by apply (index_at pre [x0; x1; x2])].
Qed.

Lemma read_u16_here pre x post n : u16 x -> n = len pre -> read_u16 (pre ++ be_bytes 2 x ++ post) n = Ok x.
Proof.
  intros Hx ->. unfold read_u16. rewrite (get_range_here _ _ _ 2) by done. cbn [ok_or mbind res_bind].
  f_equal. rewrite be_value_bytes. apply Z.mod_small. exact Hx.
Qed.

Lemma advance_here pre x post n : n = len x -> advance (pre ++ x ++ post) (len pre) n = Ok (len pre + n).
Proof. intros ->. unfold advance. by rewrite (proj2 (Z.leb_le _ _)) by len_lia. Qed.

(** The two top bits of a label's length are clear, those of a pointer are set. *)
Lemma label_bits n : 0 <= n <= 63 -> Z.land n 0xc0 = 0.
Proof.
  intros Hn. assert (forallb (fun n => Z.land n 0xc0 =? 0) (seqZ 0 64) = true) as H by reflexivity.
  rewrite forallb_forall in H. apply Z.eqb_eq, H, list_elem_of_In, elem_of_seqZ. lia.
Qed.

Lemma pointer_bits n : 0xc0 <= n < 256 -> Z.land n 0xc0 = 0xc0.
Proof.
  intros Hn. assert (forallb (fun n => Z.land n 0xc0 =? 0xc0) (seqZ 0xc0 64) = true) as H by reflexivity.
  rewrite forallb_forall in H. apply Z.eqb_eq, H, list_elem_of_In, elem_of_seqZ. lia.
Qed.

Lemma skip_loop_name fuel ls e pre post :
  name_ok (mkName ls e) -> (length ls < fuel)%nat ->
  skip_loop fuel (pre ++ encode_name (mkName ls e) ++ post) (len pre) = Ok (len pre + len (encode_name (mkName ls e))).
Proof.
  unfold encode_name. cbn [labels name_ends]. revert pre fuel.
  induction ls as [|l ls IH]; intros pre [|fuel] [Hl He] Hf; cbn [length] in Hf; try lia; cbn [skip_loop map concat name_ends labels] in *.
  - destruct e as [|hi lo]; cbn [encode_end app].
    + by rewrite get_opt_here.
    + rewrite get_opt_here. cbn [ok_or mbind res_bind]. rewrite (proj2 (Z.eqb_neq hi 0)) by lia.
      rewrite pointer_bits by done. cbn [Z.eqb Pos.eqb].
      assert (get_opt (pre ++ hi :: lo :: post) (len pre + 1) = Some lo) as ->.
      { pose proof (get_opt_here (pre ++ [hi]) lo post) as H. rewrite len_app, <- app_assoc in H. exact H. }
      rewrite bool_decide_false by done. f_equal. change (len [hi; lo]) with 2. lia.
  - inversion Hl as [|? ? Hl0 Hls]; subst; clear Hl; rename Hl0 into Hl. unfold label_ok in Hl.
    set (tail := concat (map encode_label ls) ++ encode_end e) in *.
    replace ((encode_label l ++ concat (map encode_label ls)) ++ encode_end e) with (len l :: l ++ tail)
      by (unfold tail, encode_label; cbn [app]; by rewrite <- app_assoc).
    change ((len l :: l ++ tail) ++ post) with (len l :: (l ++ tail) ++ post).
    rewrite get_opt_here. cbn [ok_or mbind res_bind].
    rewrite (proj2 (Z.eqb_neq (len l) 0)), label_bits by lia. cbn [Z.eqb negb].
    unfold advance. rewrite (proj2 (Z.leb_le _ _)) by len_lia. cbn [mbind res_bind].
    replace (pre ++ len l :: (l ++ tail) ++ post) with ((pre ++ len l :: l) ++ tail ++ post)
      by (by rewrite <- !app_assoc).
    replace (len pre + 1 + len l) with (len (pre ++ len l :: l)) by len_lia.
    rewrite IH by (done || lia). f_equal. len_lia.
Qed.

Lemma name_length n : (length (labels n) <= length (encode_name n))%nat.
Proof.
  destruct n as [ls e]. unfold encode_name. cbn [labels name_ends]. rewrite length_app.
  assert (length ls <= length (concat (map encode_label ls)))%nat; [|lia].
  induction ls as [|l ls IH]; cbn [map concat]; [done|]. rewrite length_app. cbn [length encode_label]. lia.
Qed.

Lemma skip_name_here n pre post :
  name_ok n -> skip_name (pre ++ encode_name n ++ post) (len pre) = Ok (len pre + len (encode_name n)).
Proof.
  intros Hn. unfold skip_name. destruct n as [ls e]. apply skip_loop_name; [done|].
  pose proof (name_length (mkName ls e)). cbn [labels] in *. rewrite !length_app. lia.
Qed.

Lemma skip_questions_here qs pre post :
  Forall (fun q => name_ok q.1.1) qs ->
  skip_questions (length qs) (pre ++ concat (map encode_question qs) ++ post) (len pre) =
  Ok (len pre + len (concat (map encode_question qs))).
Proof.
  revert pre. induction qs as [|[[n t] c] qs IH]; intros pre Hqs; cbn [map concat length skip_questions].
  - change (len []) with 0. by rewrite Z.add_0_r.
  - inversion Hqs as [|? ? Hn Hrest]; subst. cbn [fst] in Hn. set (tail := concat (map encode_question qs)) in *.
    cbn [encode_question]. set (four := be_bytes 2 t ++ be_bytes 2 c).
    assert (H4 : len four = 4) by (unfold four; len_lia).
    replace (pre ++ ((encode_name n ++ four) ++ tail) ++ post)
      with (pre ++ encode_name n ++ four ++ tail ++ post) by (by rewrite <- !app_assoc).
    rewrite skip_name_here by done. cbn [mbind res_bind].
    rewrite app_assoc, <- len_app, advance_here by done. cbn [mbind res_bind].
    rewrite app_assoc. replace (len (pre ++ encode_name n) + 4) with (len ((pre ++ encode_name n) ++ four)) by len_lia.
    rewrite IH by done. f_equal. len_lia.
Qed.

(** The fields of a record that follows its name. *)
Lemma record_fields head ty cl tm data rest :
  u16 ty -> u16 cl -> u16 (len data) ->
  let packet := head ++ be_bytes 2 ty ++ be_bytes 2 cl ++ be_bytes 4 tm ++ be_bytes 2 (len data) ++ data ++ rest in
  read_u16 packet (len head) = Ok ty /\ read_u16 packet (len head + 2) = Ok cl /\
  read_u16 packet (len head + 8) = Ok (len data) /\
  exists before, packet = before ++ data ++ rest /\ len before = len head + 10.
Proof.
  intros Ht Hc Hl packet. unfold packet. split_and!.
  - by apply read_u16_here.
  - rewrite app_assoc. apply read_u16_here; [done|len_lia].
  - rewrite (app_assoc (be_bytes 2 cl)), (app_assoc (be_bytes 2 ty)), (app_assoc head).
    apply read_u16_here; [done|len_lia].
  - exists (head ++ be_bytes 2 ty ++ be_bytes 2 cl ++ be_bytes 4 tm ++ be_bytes 2 (len data)).
    split; [by rewrite <- !app_assoc|len_lia].
Qed.

Lemma find_address_here rs pre post :
  Forall record_ok rs ->
  find_address (length rs) (pre ++ concat (map encode_record rs) ++ post) (len pre) =
  ok_or (first_address rs) (io ErrorKind.NotFound).
Proof.
  revert pre. induction rs as [|r rs IH]; intros pre Hrs; cbn [map concat length find_address first_address]; [done|].
  inversion Hrs as [|? ? (Hn & Ht & Hc & Hl & Hb) Hrest]; subst. destruct r as [n ty cl tm data].
  cbn [r_name r_type r_class r_data] in *. set (tail := concat (map encode_record rs)) in *.
  unfold encode_record. cbn [r_name r_type r_class r_ttl r_data].
  destruct (record_fields (pre ++ encode_name n) ty cl tm data (tail ++ post) Ht Hc Hl) as (R1 & R2 & R3 & before & Ep & Hb4).
  rewrite <- !app_assoc in *. rewrite skip_name_here by done. cbn [mbind res_bind]. rewrite <- len_app.
  set (packet := pre ++ _) in *. assert (Hlen : len packet = len (before ++ data ++ tail ++ post)) by by rewrite Ep.
  rewrite (proj2 (Z.ltb_ge _ _)) by len_lia. rewrite R1, R2, R3. cbn [mbind res_bind].
  rewrite Ep, <- Hb4, advance_here by done. cbn [mbind res_bind].
  destruct ((ty =? 1) && (cl =? 1) && (len data =? 4)) eqn:E.
  - apply andb_prop in E as [_ E]. apply Z.eqb_eq in E.
    destruct data as [|x0 [|x1 [|x2 [|x3 [|]]]]]; try (exfalso; len_lia).
    destruct (index_four before x0 x1 x2 x3 (tail ++ post)) as (I0 & I1 & I2 & I3).
    cbn [app]. by rewrite I0, I1, I2, I3.
  - rewrite app_assoc, <- len_app. by apply IH.
Qed.

(** A message in answer to [identifier] yields its first IPv4 address. *)
Lemma parse_message id f1 f2 qs rs rest tail :
  len id = 2 -> len rest = 4 -> u16 (len qs) -> u16 (len rs) ->
  Forall (fun q => name_ok q.1.1) qs -> Forall record_ok rs -> Z.land f1 0x80 <> 0 -> Z.land f2 0x0f = 0 ->
  parse_response (message id f1 f2 qs rs rest tail) id = ok_or (first_address rs) (io ErrorKind.NotFound).
Proof.
  intros Hid Hrest Hq Hr Hqs Hrs H1 H2. unfold parse_response.
  set (packet := message id f1 f2 qs rs rest tail).
  assert (Hlen : 12 <= len packet).
  { unfold packet, message. pose proof (len_nonneg (concat (map encode_question qs))).
    pose proof (len_nonneg (concat (map encode_record rs))). len_lia. }
  rewrite (proj2 (Z.ltb_ge _ _)) by lia. 
  assert (slice (E := IoError) packet 0 2 = Ok id) as -> by (unfold packet, message; by apply slice_app_l).
  cbn [mbind res_bind].
  rewrite bool_decide_true by done. cbn [negb].
  assert (index (E := IoError) packet 2 = Ok f1) as -> by (rewrite <- Hid; apply index_here). cbn [mbind res_bind].
  rewrite (proj2 (Z.eqb_neq _ _)) by done.
  assert (index (E := IoError) packet 3 = Ok f2) as -> by (apply (index_at id [f1]); by rewrite Hid). cbn [mbind res_bind].
  rewrite H2. cbn [Z.eqb negb].
  assert (read_u16 packet 4 = Ok (len qs)) as ->.
  { unfold packet, message. rewrite (app_assoc id [f1; f2]). apply read_u16_here; [done|len_lia]. }
  assert (read_u16 packet 6 = Ok (len rs)) as ->.
  { unfold packet, message. rewrite (app_assoc id [f1; f2]), (app_assoc (id ++ [f1; f2])).
    apply read_u16_here; [done|len_lia]. }
  cbn [mbind res_bind]. unfold len at 1 2. rewrite !Nat2Z.id.
  set (pre := id ++ [f1; f2] ++ be_bytes 2 (len qs) ++ be_bytes 2 (len rs) ++ rest).
  assert (Hpre : 12 = len pre) by (unfold pre; len_lia). rewrite Hpre.
  assert (packet = pre ++ concat (map encode_question qs) ++ concat (map encode_record rs) ++ tail) as ->
    by (unfold packet, message, pre; by rewrite <- !app_assoc).
  rewrite skip_questions_here by done. cbn [mbind res_bind].
  rewrite app_assoc, <- len_app. by apply find_address_here.
Qed.

(** ** Queries *)

Fixpoint join_dots (ls : list bytes) : bytes :=
  match ls with [] => [] | [l] => l | l :: ls => l ++ DOT :: join_dots ls end.

Lemma split_dots_spec s :
  split_dots s <> [] /\ join_dots (split_dots s) = s /\ Forall (fun l => DOT ∉ l) (split_dots s).
Proof.
  induction s as [|c s (Hne & Hj & Hf)]; cbn [split_dots].
  - split; [done|]. split; [done|]. constructor; [set_solver|done].
  - destruct (split_dots s) as [|l ls]; [done|]. destruct (Z.eqb_spec c DOT) as [->|Hc].
    + split; [done|]. split; [cbn [join_dots app]; by f_equal|]. constructor; [set_solver|done].
    + inversion Hf as [|? ? Hl Hls]; subst. split; [done|]. split; [|constructor; [set_solver|done]].
      by destruct ls.
Qed.

Definition query_label (l : bytes) : Prop := label_ok l /\ is_ascii l = true /\ DOT ∉ l.

Lemma push_labels_spec ls query :
  Forall (fun l => DOT ∉ l) ls ->
  match for_each push_label ls query with
  | Ok q => Forall query_label ls /\ q = query ++ concat (map encode_label ls)
  | Err e => e = io ErrorKind.InvalidInput /\ ~ Forall query_label ls
  | Panic => False
  end.
Proof.
  revert query. induction ls as [|l ls IH]; intros query Hd; cbn [for_each map concat].
  { split; [done|]. by rewrite app_nil_r. }
  inversion Hd as [|? ? Hl Hls]; subst.
  assert (Hp : push_label query l = if bool_decide (l = []) || (63 <? len l) || negb (is_ascii l)
    then Err (io ErrorKind.InvalidInput) else Ok (query ++ [len l] ++ l)) by done. rewrite Hp. clear Hp.
  assert (Hdec : query_label l <-> bool_decide (l = []) || (63 <? len l) || negb (is_ascii l) = false).
  { unfold query_label, label_ok. rewrite !orb_false_iff, bool_decide_eq_false, Z.ltb_ge, negb_false_iff.
    assert (l <> [] <-> 1 <= len l) as Hn by (destruct l; rewrite ?len_nil, ?len_cons; [split; [done|intros; lia]|pose proof (len_nonneg l); split; [lia|done]]). rewrite Hn.
    naive_solver. }
  destruct (_ || _ || _) eqn:E; cbn [mbind res_bind].
  - split; [done|]. intros H. inversion H as [|? ? Hq]; subst. apply Hdec in Hq. discriminate.
  - specialize (IH (query ++ [len l] ++ l) Hls). destruct (for_each _ _ _) as [q|e|]; [|destruct IH as [-> IH]|done].
    + destruct IH as [Hf ->]. split; [constructor; [by apply Hdec|done]|]. rewrite <- !app_assoc. done.
    + split; [done|]. intros H. by inversion H.
Qed.

Lemma build_query_total name id : no_panic (build_query name id).
Proof.
  unfold build_query. destruct (_ || _); [done|]. destruct (split_dots_spec (trim_end_dots name)) as (_ & _ & Hd).
  pose proof (push_labels_spec _ (id ++ [1; 0; 0; 1; 0; 0; 0; 0; 0; 0]) Hd) as H.
  by destruct (for_each _ _ _).
Qed.

Definition query_name (name : bytes) : dns_name := mkName (split_dots (trim_end_dots name)) Root.

(** Resolving a name.  A name is refused exactly when it is empty, longer than 253
    bytes or has a label that is empty, longer than 63 bytes or not ASCII, trailing dots
    aside; otherwise the query is the DNS message with that name as its one question, of
    type A and class IN.  Every well-formed message with that identifier, whatever its
    questions, compressed names, other records and trailing sections, is answered by the
    address of its first IPv4 record, or by [NotFound] when it has none. *)
Theorem dns_lookup name id :
  len id = 2 ->
  let n := query_name name in
  match build_query name id with
  | Ok q =>
      join_dots (labels n) = trim_end_dots name /\ len (trim_end_dots name) <= 253 /\ Forall query_label (labels n) /\
      q = message id 1 0 [(n, 1, 1)] [] [0; 0; 0; 0] [] /\
      forall f1 f2 qs rs rest tail,
        len rest = 4 -> u16 (len qs) -> u16 (len rs) -> Forall (fun q => name_ok q.1.1) qs -> Forall record_ok rs ->
        Z.land f1 0x80 <> 0 -> Z.land f2 0x0f = 0 ->
        parse_response (message id f1 f2 qs rs rest tail) id = ok_or (first_address rs) (io ErrorKind.NotFound)
  | Err e =>
      e = io ErrorKind.InvalidInput /\
      (trim_end_dots name = [] \/ 253 < len (trim_end_dots name) \/ ~ Forall query_label (labels n))
  | Panic => False
  end.
Proof.
  intros Hid n. unfold build_query. destruct (split_dots_spec (trim_end_dots name)) as (_ & Hj & Hd).
  destruct (bool_decide _ || _) eqn:E.
  { split; [done|]. apply orb_true_iff in E as [E|E]; [left; by apply bool_decide_eq_true in E|right; left; lia]. }
  apply orb_false_iff in E as [_ E]. pose proof (push_labels_spec _ (id ++ [1; 0; 0; 1; 0; 0; 0; 0; 0; 0]) Hd) as H.
  destruct (for_each _ _ _) as [q|e|]; cbn [mbind res_bind]; [| |done].
  - destruct H as [Hf ->]. split; [done|]. split; [lia|]. split; [done|]. split.
    + unfold message, n, query_name. cbn [map concat encode_question encode_name labels name_ends encode_end].
      unfold encode_name. cbn [labels name_ends encode_end]. rewrite <- !app_assoc. done.
    + intros. by apply parse_message.
  - destruct H as [-> H]. split; [done|]. by right; right.
Qed.

(** ** The parser ends *)

Lemma get_opt_bound packet offset b : get_opt packet offset = Some b -> 0 <= offset < len packet.
Proof. unfold get_opt. by case_decide. Qed.

Lemma skip_loop_total fuel packet offset :
  is_bytes packet -> 0 <= offset -> (0 < fuel)%nat -> len packet < offset + Z.of_nat fuel ->
  match skip_loop fuel packet offset with Ok o => offset < o <= len packet | Err _ => True | Panic => False end.
Proof.
  intros Hb. revert offset. induction fuel as [|fuel IH]; intros offset H0 Hp Hf; [lia|]. cbn [skip_loop].
  destruct (get_opt packet offset) as [b|] eqn:E; cbn [ok_or mbind res_bind]; [|done].
  assert (u8 b) as Hu8 by (unfold get_opt in E; case_decide; inversion E; by apply is_bytes_nth).
  apply get_opt_bound in E. destruct (Z.eqb_spec b 0); [lia|]. destruct (_ =? 192).
  { case_bool_decide as Hn; [done|]. destruct (get_opt packet (offset + 1)) eqn:E2; [|done].
    apply get_opt_bound in E2. lia. }
  destruct (negb _); [done|]. unfold advance. destruct (Z.leb_spec (offset + 1 + b) (len packet)); cbn [mbind res_bind]; [|done].
  unfold uint in Hu8. specialize (IH (offset + 1 + b) ltac:(lia) ltac:(lia) ltac:(lia)).
  destruct (skip_loop _ _ _); [lia|done|done].
Qed.

Lemma skip_name_total packet offset :
  is_bytes packet -> 0 <= offset ->
  match skip_name packet offset with Ok o => offset < o <= len packet | Err _ => True | Panic => False end.
Proof. intros. apply skip_loop_total; try done; unfold len; lia. Qed.

Lemma skip_questions_total n packet offset :
  is_bytes packet -> 0 <= offset <= len packet ->
  match skip_questions n packet offset with Ok o => 0 <= o <= len packet | Err _ => True | Panic => False end.
Proof.
  intros Hb. revert offset. induction n as [|n IH]; intros offset Ho; cbn [skip_questions]; [done|].
  pose proof (skip_name_total packet offset Hb ltac:(lia)) as H.
  destruct (skip_name packet offset) as [o|e|]; cbn [mbind res_bind]; [|done|done].
  unfold advance. destruct (Z.leb_spec (o + 4) (len packet)); cbn [mbind res_bind]; [|done]. apply IH. lia.
Qed.

Lemma read_u16_total packet offset :
  is_bytes packet -> 0 <= offset -> match read_u16 packet offset with Ok x => u16 x | Err _ => True | Panic => False end.
Proof.
  intros Hb Ho. unfold read_u16, get_range. case_decide; cbn [ok_or mbind res_bind]; [|done].
  apply be_value_uint; [by rewrite len_sub_list by lia; lia|by apply is_bytes_sub_list].
Qed.

Lemma find_address_total n packet offset :
  is_bytes packet -> 0 <= offset -> no_panic (find_address n packet offset).
Proof.
  intros Hb. revert offset. induction n as [|n IH]; intros offset Ho; cbn [find_address]; [done|].
  pose proof (skip_name_total packet offset Hb Ho) as H.
  destruct (skip_name packet offset) as [o|e|]; cbn [mbind res_bind]; [|done|done].
  destruct (_ <? _); [done|].
  pose proof (read_u16_total packet o Hb ltac:(lia)). pose proof (read_u16_total packet (o + 2) Hb ltac:(lia)).
  pose proof (read_u16_total packet (o + 8) Hb ltac:(lia)).
  destruct (read_u16 packet o); cbn [mbind res_bind]; [|done|done].
  destruct (read_u16 packet (o + 2)); cbn [mbind res_bind]; [|done|done].
  destruct (read_u16 packet (o + 8)) as [l|e|]; cbn [mbind res_bind]; [|done|done].
  unfold uint in *. unfold advance. destruct (Z.leb_spec (o + 10 + l) (len packet)); cbn [mbind res_bind]; [|done].
  destruct (_ && _) eqn:E; [|apply IH; lia]. apply andb_prop in E as [_ ->%Z.eqb_eq].
  by rewrite !index_ok by lia.
Qed.

(** No length, compression pointer or count in a response leads the parser out of the
    packet or into a loop. *)
Lemma dns_parser_total packet identifier :
  is_bytes packet -> no_panic (parse_response packet identifier).
Proof.
  intros Hb. unfold parse_response. destruct (Z.ltb_spec (len packet) 12); [done|].
  rewrite slice_ok by lia. cbn [mbind res_bind]. destruct (negb _); [done|].
  rewrite (index_ok packet 2) by lia. cbn [mbind res_bind]. destruct (Z.land _ 128 =? 0); [done|].
  rewrite (index_ok packet 3) by lia. cbn [mbind res_bind]. destruct (negb (Z.land _ 15 =? 0)); [done|].
  pose proof (read_u16_total packet 4 Hb ltac:(lia)). pose proof (read_u16_total packet 6 Hb ltac:(lia)).
  destruct (read_u16 packet 4) as [q|e|]; cbn [mbind res_bind]; [|done|done].
  destruct (read_u16 packet 6) as [a|e|]; cbn [mbind res_bind]; [|done|done].
  pose proof (skip_questions_total (Z.to_nat q) packet 12 Hb ltac:(lia)) as Hs.
  destruct (skip_questions _ _ _) as [o|e|]; cbn [mbind res_bind]; [|done|done].
  apply find_address_total; [done|lia].
Qed.

(** ** Requests *)

Definition encode_target (t : Target) : bytes :=
  match t with
  | Ipv4 address port => 1 :: be_bytes 4 address ++ be_bytes 2 port
  | Domain name port => 3 :: len name :: name ++ be_bytes 2 port
  end.

Definition target_ok (t : Target) : Prop :=
  match t with
  | Ipv4 address port => u32 address /\ u16 port
  | Domain name port => 1 <= len name <= 255 /\ utf8 name = true /\ is_bytes name /\ u16 port
  end.

(** What a client that offers [methods] and asks for [t] sends. *)
Definition socks_request (methods : bytes) (t : Target) : bytes :=
  [5; len methods] ++ methods ++ [5; 1; 0] ++ encode_target t.

Definition methods_ok (methods : bytes) : Prop := 1 <= len methods <= 255 /\ 0 ∈ methods /\ is_bytes methods.

Lemma read_exact_ok b rest w k n :
  n = len b -> read_exact n (mkTcpStream (b ++ rest) w k) = (mkTcpStream rest w k, Some (Ok b)).
Proof.
  intros ->. unfold read_exact. cbn [unread written peer]. rewrite (proj2 (Z.leb_le _ _)) by len_lia.
  replace (Z.to_nat (len b)) with (length b) by (unfold len; lia). by rewrite drop_app_length, take_app_length.
Qed.

(** What a computation that writes nothing leaves: on success [Q] of what it read, the
    result and what is left; on an error its reply code; it waits only for a client that
    says nothing more and stays. *)
Definition reads {A} (w : bytes) (k : Peer) (out : TcpStream * option (res RequestError A)) (Q : A -> bytes -> Prop) : Prop :=
  written out.1 = w /\ peer out.1 = k /\
  match out.2 with
  | Some (Ok a) => Q a (unread out.1)
  | Some (Err e) => 1 <= reply_code e <= 8
  | Some Panic => False
  | None => ended k = Open /\ unread out.1 = []
  end.

Lemma read_exact_spec n u w k :
  0 <= n -> reads w k (read_exact n (mkTcpStream u w k)) (fun b v => u = b ++ v /\ len b = n).
Proof.
  intros Hn. unfold read_exact, reads. cbn [unread written peer].
  destruct (Z.leb_spec n (len u)); cbn [fst snd unread written peer]; (split; [done|]); (split; [done|]).
  - rewrite take_drop. split; [done|len_lia].
  - destruct (ended k); [done|cbn; lia|cbn; lia].
Qed.

Lemma reads_bind {A B} w k (m : T A) (f : A -> T B) s Q R :
  reads w k (m s) Q -> (forall a v, Q a v -> reads w k (f a (mkTcpStream v w k)) R) -> reads w k (tbind m f s) R.
Proof.
  unfold reads at 1. unfold tbind. destruct (m s) as [[v w' k'] [[a|e|]|]]; cbn [fst snd unread written peer].
  - intros (-> & -> & HQ) Hf. by apply Hf.
  - by intros (-> & -> & He) _.
  - by intros (_ & _ & []).
  - by intros (-> & -> & He) _.
Qed.

Lemma reads_res {A B} w k (r : res RequestError A) (a : A) (f : A -> T B) v R :
  r = Ok a -> reads w k (f a (mkTcpStream v w k)) R -> reads w k (tbind (tres r) f (mkTcpStream v w k)) R.
Proof. by intros -> H. Qed.

Lemma reads_fail {A} w k e v (R : A -> bytes -> Prop) : 1 <= reply_code e <= 8 -> reads w k (tfail e (mkTcpStream v w k)) R.
Proof. by intros. Qed.

(** Writing: whole, or cut short at a client that takes no more. *)
Definition cut_short (p : Peer) (after : option IoError) : Prop := exists n, takes p = Some (n, after).

Definition same_peer (p p' : Peer) : Prop :=
  ended p' = ended p /\ (takes p = None <-> takes p' = None) /\ forall after, cut_short p after <-> cut_short p' after.

Lemma same_peer_refl p : same_peer p p.
Proof. by split. Qed.

Lemma same_peer_takes p n n' after : takes p = Some (n, after) -> same_peer p (mkPeer (ended p) (Some (n', after))).
Proof.
  intros Hp. split; [done|]. split; [by rewrite Hp|]. intros a. unfold cut_short. rewrite Hp. cbn.
  split; intros [m [= <- <-]]; by eexists.
Qed.

Lemma write_all_spec b u w p :
  match write_all b (mkTcpStream u w p) with
  | (s, Some (Ok _)) => s = mkTcpStream u (w ++ b) (peer s) /\ same_peer p (peer s)
  | (s, Some (Err e)) =>
      exists n, s = mkTcpStream u (w ++ take n b) (mkPeer (ended p) (Some (0, Some (source e)))) /\ cut_short p (Some (source e)) /\ reply_code e = 1
  | (_, Some Panic) => False
  | (s, None) => exists n, s = mkTcpStream u (w ++ take n b) (peer s) /\ cut_short p None
  end.
Proof.
  unfold write_all. cbn [unread written peer]. destruct (takes p) as [[n after]|] eqn:Hp; [|by split; [|apply same_peer_refl]].
  destruct (len b <=? n); [split; [done|by apply (same_peer_takes p n)]|].
  destruct after as [e|]; exists (Z.to_nat n); (split; [done|]); [split; [by exists n|done]|by exists n].
Qed.

Lemma u16_value l : is_bytes l -> len l = 2 -> u16 (be_value l) /\ be_bytes 2 (be_value l) = l.
Proof.
  intros Hb Hl. split; [by apply be_value_uint; [lia|]|].
  replace 2%nat with (length l) by (unfold len in Hl; lia). by apply be_bytes_value.
Qed.

Lemma read_ipv4_spec u w k :
  is_bytes u ->
  reads w k (read_ipv4 (mkTcpStream u w k)) (fun t v => target_ok t /\ 1 :: u = encode_target t ++ v).
Proof.
  intros Hu. eapply reads_bind; [by apply read_exact_spec|]. intros value v [-> Hl]. cbn beta.
  apply is_bytes_app in Hu as [Hb _]. destruct value as [|x0 [|x1 [|x2 [|x3 value]]]]; try (exfalso; len_lia).
  assert (Hv : len value = 2) by len_lia.
  apply (is_bytes_app [x0; x1; x2; x3]) in Hb as [Ha Hb]. destruct (u16_value value Hb Hv) as [Hp Ep].
  eapply reads_res; [apply (slice_app_l [x0; x1; x2; x3] value); done|].
  eapply reads_res; [apply (slice_app_r [x0; x1; x2; x3] value); [done|len_lia]|].
  unfold reads. cbn [fst snd unread written peer tret target_ok encode_target].
  do 2 (split; [done|]). split; [split; [by apply be_value_uint|done]|].
  rewrite Ep. cbn [app]. rewrite <- app_assoc. f_equal.
  replace (be_bytes 4 _) with [x0; x1; x2; x3]; [done|]. symmetry. by apply (be_bytes_value [x0; x1; x2; x3]).
Qed.

Lemma read_domain_spec u w k :
  is_bytes u ->
  reads w k (read_domain (mkTcpStream u w k)) (fun t v => target_ok t /\ 3 :: u = encode_target t ++ v).
Proof.
  intros Hu. eapply reads_bind; [by apply read_exact_spec|]. intros first v [-> Hl]. cbn beta.
  destruct first as [|n [|]]; try (exfalso; len_lia). apply is_bytes_app in Hu as [Hn Hu].
  inversion Hn as [|? ? Hn8 _]; subst. unfold uint in Hn8. apply (reads_res _ _ _ n); [reflexivity|].
  destruct (Z.eqb_spec n 0) as [|Hn0]; [by apply reads_fail; cbn; lia|].
  eapply reads_bind; [apply read_exact_spec; lia|]. intros value rest [-> Hl2]. cbn beta.
  apply is_bytes_app in Hu as [Hv _].
  assert (exists name p, value = name ++ p /\ len name = n /\ len p = 2) as (name & p & -> & Hname & Hp).
  { exists (take (Z.to_nat n) value), (drop (Z.to_nat n) value). rewrite take_drop. split; [done|len_lia]. }
  apply is_bytes_app in Hv as [Hb1 Hb2]. destruct (u16_value p Hb2 Hp) as [Hp16 Ep].
  eapply reads_res; [by apply slice_app_l|]. destruct (utf8 name) eqn:Hutf; cbn [negb]; [|by apply reads_fail; cbn; lia].
  eapply reads_res; [apply slice_app_r; [done|len_lia]|].
  unfold reads. cbn [fst snd unread written peer tret target_ok encode_target].
  do 2 (split; [done|]). split; [split_and!; try done; lia|]. rewrite Ep, Hname. cbn [app]. by rewrite <- app_assoc.
Qed.

Lemma read_target_spec u w k :
  is_bytes u ->
  reads w k ((header <- read_exact 4;
    version <- tres (index header 0);
    command <- tres (index header 1);
    reserved <- tres (index header 2);
    kind <- tres (index header 3);
    if negb (version =? 5) || negb (reserved =? 0) then tfail (request_error ErrorKind.InvalidData 0x01)
    else if negb (command =? 1) then tfail (request_error ErrorKind.Unsupported 0x07)
    else if kind =? 1 then read_ipv4
    else if kind =? 3 then read_domain
    else tfail (request_error ErrorKind.Unsupported 0x08)) (mkTcpStream u w k))
    (fun t v => target_ok t /\ u = [5; 1; 0] ++ encode_target t ++ v).
Proof.
  intros Hu. eapply reads_bind; [by apply read_exact_spec|]. intros header v [-> Hl]. cbn beta.
  apply is_bytes_app in Hu as [_ Hu]. destruct header as [|x0 [|x1 [|x2 [|x3 [|]]]]]; try (exfalso; len_lia).
  apply (reads_res _ _ _ x0); [reflexivity|]. apply (reads_res _ _ _ x1); [reflexivity|].
  apply (reads_res _ _ _ x2); [reflexivity|]. apply (reads_res _ _ _ x3); [reflexivity|].
  destruct (Z.eqb_spec x0 5) as [->|], (Z.eqb_spec x2 0) as [->|]; cbn [negb orb]; try (by apply reads_fail; cbn; lia).
  destruct (Z.eqb_spec x1 1) as [->|]; cbn [negb]; [|by apply reads_fail; cbn; lia].
  destruct (Z.eqb_spec x3 1) as [->|]; [|destruct (Z.eqb_spec x3 3) as [->|]; [|by apply reads_fail; cbn; lia]].
  - pose proof (read_ipv4_spec v w k Hu) as (H1 & H2 & H3). split; [done|]. split; [done|].
    destruct (read_ipv4 _).2 as [[]|]; try done. destruct H3 as [? <-]. by cbn [app].
  - pose proof (read_domain_spec v w k Hu) as (H1 & H2 & H3). split; [done|]. split; [done|].
    destruct (read_domain _).2 as [[]|]; try done. destruct H3 as [? <-]. by cbn [app].
Qed.

(** What was written of a reply: all of it, or less to a client that takes no more. *)
Definition delivered (p : Peer) (w reply : bytes) (s : TcpStream) : Prop :=
  written s = w ++ reply \/ (exists after, cut_short p after) /\ exists n, written s = w ++ take n reply.

(** The proxy waits: for the rest of a request, or for room to write a reply. *)
Definition waits (p : Peer) (s : TcpStream) : Prop :=
  ended p = Open /\ unread s = [] \/ cut_short p None.

(** An error after [auth] was answered: nothing more was written, and when [auth] itself was
    cut short nothing more will be. *)
Definition refused (p : Peer) (w auth : bytes) (s : TcpStream) : Prop :=
  written s = w ++ auth /\ same_peer p (peer s) \/
  exists n e, written s = w ++ take n auth /\ takes (peer s) = Some (0, Some e) /\ cut_short p (Some e).

(** What the negotiation of the method writes: nothing, a refusal, or the choice. *)
Lemma negotiate_auth_spec u w p :
  is_bytes u ->
  match negotiate_auth (mkTcpStream u w p) with
  | (s, Some (Ok _)) =>
      same_peer p (peer s) /\ written s = w ++ [5; 0] /\ is_bytes (unread s) /\
      exists methods, methods_ok methods /\ u = [5; len methods] ++ methods ++ unread s
  | (s, Some (Err e)) => 1 <= reply_code e <= 8 /\ exists auth, auth ∈ [[]; [5; 0xff]; [5; 0]] /\ refused p w auth s
  | (_, Some Panic) => False
  | (s, None) => waits p s
  end.
Proof.
  intros Hu. unfold negotiate_auth, tbind.
  assert (Hnothing : forall s, written s = w -> peer s = p -> exists auth, auth ∈ [[]; [5; 0xff]; [5; 0]] /\ refused p w auth s).
  { intros s <- <-. exists []. split; [set_solver|]. left. rewrite app_nil_r. split; [done|apply same_peer_refl]. }
  pose proof (read_exact_spec 2 u w p ltac:(lia)) as (Hw & Hk & H).
  destruct (read_exact 2 _) as [[v w' k'] [[greeting|e|]|]]; cbn [fst snd unread written peer] in *;
    [|by split; [|apply Hnothing]|done|by left].
  subst w' k'. destruct H as [-> Hl]. destruct greeting as [|version [|count [|]]]; try (exfalso; len_lia).
  apply is_bytes_app in Hu as [Hg Hv]. apply (is_bytes_app [version] [count]) in Hg as [_ Hc].
  inversion Hc as [|? ? Hc8 _]; subst. unfold uint in Hc8.
  change (index [version; count] 0) with (Ok (E := RequestError) version).
  change (index [version; count] 1) with (Ok (E := RequestError) count). cbn [tres].
  destruct (Z.eqb_spec version 5) as [->|], (Z.eqb_spec count 0) as [->|]; cbn [negb orb];
    try (by split; [cbn; lia|apply Hnothing]).
  pose proof (read_exact_spec count v w p ltac:(lia)) as (Hw & Hk & H).
  destruct (read_exact count _) as [[rest w' k'] [[methods|e|]|]]; cbn [fst snd unread written peer] in *;
    [|by split; [|apply Hnothing]|done|by left].
  subst w' k'. destruct H as [-> Hm]. apply is_bytes_app in Hv as [Hmb Hrest].
  destruct (bool_decide (0 ∈ methods)) eqn:E; cbn [negb].
  - apply bool_decide_eq_true in E. pose proof (write_all_spec [5; 0] rest w p) as H.
    destruct (write_all [5; 0] _) as [s [[[]|e|]|]]; [| |done|].
    + destruct H as [-> Hp]. cbn [unread written peer]. split; [done|]. split; [done|]. split; [done|].
      exists methods. split; [split; [lia|done]|by rewrite Hm].
    + destruct H as (m & -> & Hc' & He). split; [lia|]. exists [5; 0]. split; [set_solver|]. right. by exists m, (source e).
    + right. by destruct H as (m & _ & Hc').
  - pose proof (write_all_spec [5; 0xff] rest w p) as H. destruct (write_all [5; 0xff] _) as [s [[[]|e|]|]]; [| |done|].
    + destruct H as [-> Hp]. split; [cbn; lia|]. exists [5; 0xff]. split; [set_solver|]. by left.
    + destruct H as (m & -> & Hc' & He). split; [lia|]. exists [5; 0xff]. split; [set_solver|]. right. by exists m, (source e).
    + right. by destruct H as (m & _ & Hc').
Qed.

Lemma read_request_spec u w p :
  is_bytes u ->
  match read_request (mkTcpStream u w p) with
  | (s, Some (Ok t)) =>
      same_peer p (peer s) /\ written s = w ++ [5; 0] /\
      exists methods, methods_ok methods /\ target_ok t /\ u = socks_request methods t ++ unread s
  | (s, Some (Err e)) => 1 <= reply_code e <= 8 /\ exists auth, auth ∈ [[]; [5; 0xff]; [5; 0]] /\ refused p w auth s
  | (_, Some Panic) => False
  | (s, None) => waits p s
  end.
Proof.
  intros Hu. unfold read_request, tbind at 1. pose proof (negotiate_auth_spec u w p Hu) as H.
  destruct (negotiate_auth _) as [[v w' k'] [[[]|e|]|]]; cbn [unread written peer] in *; [|done|done|done].
  destruct H as (Hp & -> & Hv & methods & Hm & ->).
  pose proof (read_target_spec v (w ++ [5; 0]) k' Hv) as (H1 & H2 & H3).
  destruct ((tbind _ _) _) as [s [[t|e|]|]]; cbn [fst snd] in *; [| |done|].
  + destruct H3 as [Ht ->]. rewrite H2. split; [done|]. split; [done|]. exists methods. split; [done|]. split; [done|].
    unfold socks_request. by rewrite <- !app_assoc.
  + split; [done|]. exists [5; 0]. split; [set_solver|]. left. by rewrite H2.
  + left. destruct Hp as [<- _]. done.
Qed.

(** Reading what was encoded. *)
Lemma read_target_ok t rest w k :
  target_ok t ->
  (if Z.eqb (nth 0 (encode_target t) 0) 1 then read_ipv4 else read_domain) (mkTcpStream (drop 1 (encode_target t) ++ rest) w k) =
  (mkTcpStream rest w k, Some (Ok t)).
Proof.
  destruct t as [a p|name p]; cbn [target_ok encode_target nth drop Z.eqb Pos.eqb]; rewrite ?drop_0.
  - intros [Ha Hp]. unfold read_ipv4, tbind at 1. rewrite read_exact_ok by done. unfold tbind, tres.
    rewrite slice_app_l, slice_app_r by done. unfold tret. do 2 f_equal. rewrite !be_value_bytes.
    by rewrite !Z.mod_small.
  - intros (Hl & Hu & Hb & Hp). unfold read_domain, tbind at 1.
    change ((len name :: name ++ be_bytes 2 p) ++ rest) with ([len name] ++ (name ++ be_bytes 2 p) ++ rest).
    rewrite read_exact_ok by done. unfold tbind, tres. change (index [len name] 0) with (Ok (E := RequestError) (len name)).
    cbn match. rewrite (proj2 (Z.eqb_neq _ _)) by lia. rewrite read_exact_ok by len_lia.
    rewrite slice_app_l by done. rewrite Hu. cbn [negb]. rewrite slice_app_r by len_lia.
    unfold tret. do 2 f_equal. rewrite be_value_bytes. by rewrite Z.mod_small.
Qed.

Lemma read_request_ok methods t rest w k :
  methods_ok methods -> target_ok t -> takes k = None ->
  read_request (mkTcpStream (socks_request methods t ++ rest) w k) = (mkTcpStream rest (w ++ [5; 0]) k, Some (Ok t)).
Proof.
  intros (Hl & H0 & _) Ht Hk0. unfold read_request, tbind at 1, socks_request.
  assert (Hn : negotiate_auth (mkTcpStream (([5; len methods] ++ methods ++ [5; 1; 0] ++ encode_target t) ++ rest) w k) =
    (mkTcpStream ([5; 1; 0] ++ encode_target t ++ rest) (w ++ [5; 0]) k, Some (Ok tt))).
  { rewrite <- !app_assoc. unfold negotiate_auth, tbind. rewrite read_exact_ok by done. unfold tres.
    change (index [5; len methods] 0) with (Ok (E := RequestError) 5).
    change (index [5; len methods] 1) with (Ok (E := RequestError) (len methods)). cbn match.
    rewrite (proj2 (Z.eqb_neq (len methods) 0)) by lia. cbn [Z.eqb Pos.eqb negb orb].
    rewrite read_exact_ok by done. rewrite bool_decide_true by done. cbn [negb]. unfold write_all. cbn [peer]. by rewrite Hk0. }
  rewrite Hn. unfold tbind at 1.
  assert (Hk : exists kind, encode_target t = kind :: drop 1 (encode_target t) /\ (kind = 1 \/ kind = 3)).
  { destruct t; [exists 1|exists 3]; (split; [done|]); [by left|by right]. }
  destruct Hk as (kind & Ek & Hk). pose proof (read_target_ok t rest (w ++ [5; 0]) k Ht) as Hr.
  rewrite Ek. change ([5; 1; 0] ++ (kind :: drop 1 (encode_target t)) ++ rest)
    with ([5; 1; 0; kind] ++ drop 1 (encode_target t) ++ rest).
  rewrite read_exact_ok by done. rewrite Ek in Hr. cbn [nth drop] in Hr. unfold tbind, tres.
  destruct Hk as [-> | ->]; exact Hr.
Qed.

(** The requests the proxy accepts, of a client that takes what is written to it, are exactly
    the SOCKS5 CONNECT requests to an IPv4 address or to a non-empty UTF-8 name, from a
    client that offers to go without authentication; the client has then been answered by
    the choice of that method, and every byte it sent beyond its request is left for the
    relay. *)
Theorem socks_request_iff u w k s t :
  is_bytes u -> takes k = None ->
  read_request (mkTcpStream u w k) = (s, Some (Ok t)) <->
  exists methods rest, methods_ok methods /\ target_ok t /\ u = socks_request methods t ++ rest /\
    s = mkTcpStream rest (w ++ [5; 0]) k.
Proof.
  intros Hu Hk. split.
  - intros E. pose proof (read_request_spec u w k Hu) as H. rewrite E in H.
    destruct s as [v w' k']. cbn [unread written peer] in H. destruct H as (Hp & -> & methods & Hm & Ht & ->).
    exists methods, v. split_and!; try done. f_equal. destruct Hp as (He & Hn & _). destruct k, k'. cbn in *. subst.
    f_equal. by apply Hn.
  - intros (methods & rest & Hm & Ht & -> & ->). by apply read_request_ok.
Qed.

(** ** The reply *)

(** The system calls return. *)
Definition calls_ok (k : Calls) : Prop :=
  no_panic (k_dns_socket k) /\ (forall q, no_panic (k_dns_exchange k q)) /\
  (forall q r, k_dns_exchange k q = Ok r -> is_bytes r) /\ no_panic (k_socket k) /\
  (forall a p, no_panic (k_connect k a p)) /\ no_panic (k_stream k) /\ no_panic (k_take_error k) /\
  no_panic (k_local_addr k) /\ (forall i, k_random k = Some i -> len i = 2).

Lemma resolve_total k name : calls_ok k -> no_panic (resolve_ipv4 k name).
Proof.
  intros (H1 & H2 & H3 & _ & _ & _ & _ & _ & Hr). unfold resolve_ipv4.
  destruct (k_random k) as [i|] eqn:Ei; cbn [ok_or mbind res_bind]; [|done].
  pose proof (build_query_total name i) as Hq.
  destruct (build_query name i) as [q|e|]; cbn [mbind res_bind]; [|done|done].
  destruct (k_dns_socket k) as [[]|e|]; cbn [mbind res_bind]; [|done|done].
  specialize (H2 q). specialize (H3 q). destruct (k_dns_exchange k q) as [r|e|]; cbn [mbind res_bind]; [|done|done].
  apply dns_parser_total. by apply Forall_take, H3.
Qed.

Lemma connect_total k a p : calls_ok k -> no_panic (connect_marked k a p).
Proof.
  intros (_ & _ & _ & H1 & H2 & H3 & H4 & _). unfold connect_marked. specialize (H2 a p).
  destruct (k_socket k) as [[]|e|]; cbn [mbind res_bind]; [|done|done].
  destruct (k_connect k a p) as [[]|e|]; [|destruct (_ || _)|done]; cbn [mbind res_bind]; [| |done];
    (destruct (k_stream k) as [[]|e1|]; cbn [mbind res_bind]; [|done|done]);
    (destruct (k_take_error k) as [[e2|]|e2|]; done).
Qed.

Lemma connect_reply_code_range e : 1 <= connect_reply_code e <= 8.
Proof. unfold connect_reply_code. destruct (kind e); lia. Qed.

Definition success_reply (bound : SocketAddr) : bytes :=
  [5; 0; 0; 1] ++ match ip bound with V4 a => octets a | V6 _ => [0; 0; 0; 0] end ++ be_bytes 2 (port bound).
Definition failure_reply (code : Z) : bytes := [5; code; 0; 1; 0; 0; 0; 0; 0; 0].

(** The address a target stands for. *)
Definition located (k : Calls) (t : Target) (a : Ipv4Addr) (p : Z) : Prop :=
  match t with Ipv4 a' p' => a = a' /\ p = p' | Domain name p' => resolve_ipv4 k name = Ok a /\ p = p' end.

(** A failure reply after an error. *)
Lemma failure_delivered p w auth s code (e : IoError) :
  1 <= code <= 8 -> auth ∈ [[]; [5; 0xff]; [5; 0]] -> refused p w auth s ->
  match write_failure code s with
  | (s', None) => cut_short p None
  | (s', Some _) => exists auth code, auth ∈ [[]; [5; 0xff]; [5; 0]] /\ 1 <= code <= 8 /\ delivered p w (auth ++ failure_reply code) s'
  end.
Proof.
  intros Hc Ha Hr. destruct s as [u v k]. pose proof (write_all_spec (failure_reply code) u v k) as H. unfold write_failure.
  change [5; code; 0; 1; 0; 0; 0; 0; 0; 0] with (failure_reply code). destruct Hr as [[Hv Hp]|(n & e' & Hv & Ht & Hcut)]; cbn [written peer] in *.
  - subst v. destruct (write_all _ _) as [s' [[[]|e'|]|]]; [| |done|].
    + exists auth, code. split; [done|]. split; [done|]. left. destruct H as [-> _]. cbn [written]. by rewrite <- app_assoc.
    + exists auth, code. split; [done|]. split; [done|]. right. destruct H as (n & -> & Hcut & _). split; [eexists; by apply Hp|].
      exists (length auth + n)%nat. cbn [written]. by rewrite <- app_assoc, take_app_add'.
    + destruct H as (n & _ & Hcut). by apply Hp.
  - unfold write_all in *. cbn [peer unread written] in *. rewrite Ht in *. cbn in *.
    exists auth, code. split; [done|]. split; [done|]. right. split; [by eexists|]. exists (min n (length auth)).
    rewrite app_nil_r, Hv. f_equal. rewrite take_app_le by lia. by rewrite <- take_take, firstn_all.
Qed.

(** [C24] Serving a client.  The calls of the system return (a lookup is under a timeout,
    and the kernel gives up on a connection); the client may send anything, fall silent,
    close or lose the connection, and stop taking what is written to it at any byte.  The
    proxy never aborts, and it waits only for a client that stays connected and has said
    nothing more, or that takes no more of a reply: otherwise it comes to an end.  A remote
    end is joined only if the client asked for it, or for a name the session's resolver gave
    that address, and the connection was made; the client has then been sent the method and
    the one success reply with the local address, and its remaining bytes are untouched.
    Otherwise it has been sent exactly one failure reply, with a non-zero code, after at
    most one answer to its greeting, or as much of it as it takes; except that nothing more
    than the method is sent when the local address of a connection that was made is unknown,
    and that a success reply can be cut short. *)
Theorem serve_client_outcomes k u w peer0 :
  is_bytes u -> calls_ok k ->
  match serve_client k (mkTcpStream u w peer0) with
  | (s, Some (Ok (a, p))) =>
      exists methods t bound, methods_ok methods /\ target_ok t /\ u = socks_request methods t ++ unread s /\
        located k t a p /\ connect_marked k a p = Ok tt /\ k_local_addr k = Ok bound /\
        written s = w ++ [5; 0] ++ success_reply bound
  | (s, Some (Err _)) =>
      (exists auth code, auth ∈ [[]; [5; 0xff]; [5; 0]] /\ 1 <= code <= 8 /\ delivered peer0 w (auth ++ failure_reply code) s) \/
      ((exists e, k_local_addr k = Err e) /\ written s = w ++ [5; 0]) \/
      (exists bound e n, k_local_addr k = Ok bound /\ cut_short peer0 (Some e) /\ written s = w ++ [5; 0] ++ take n (success_reply bound))
  | (_, Some Panic) => False
  | (s, None) => waits peer0 s
  end.
Proof.
  intros Hu Hk. unfold serve_client. pose proof (read_request_spec u w peer0 Hu) as H.
  destruct (read_request _) as [[v w' b'] [[t|e|]|]]; cbn [unread written peer] in H; [| |done|done].
  2:{ destruct H as (He & auth & Ha & Hr). pose proof (failure_delivered peer0 w auth _ (reply_code e) (source e) He Ha Hr) as Hf.
      destruct (write_failure _ _) as [s' [r|]]; [by left|by right]. }
  destruct H as (Hp & -> & methods & Hm & Ht & ->). set (s := mkTcpStream v (w ++ [5; 0]) b').
  assert (Hfail : forall code (e : IoError), 1 <= code <= 8 -> match write_failure code s with
    | (s', None) => cut_short peer0 None
    | (s', Some _) => exists auth code, auth ∈ [[]; [5; 0xff]; [5; 0]] /\ 1 <= code <= 8 /\ delivered peer0 w (auth ++ failure_reply code) s'
    end).
  { intros code e Hc. apply (failure_delivered peer0 w [5; 0]); [done|done|set_solver|by left]. }
  set (resolved := match t with Ipv4 _ _ => _ | Domain _ _ => _ end).
  assert (Hr : match resolved with Ok (a, p) => located k t a p | Err _ => True | Panic => False end).
  { unfold resolved. destruct t as [a p|name p]; [done|]. pose proof (resolve_total k name Hk).
    unfold located. destruct (resolve_ipv4 k name) as [a|e|]; done. }
  destruct resolved as [[a p]|e|]; [| |done].
  2:{ pose proof (Hfail 4 e ltac:(lia)) as Hf. destruct (write_failure _ _) as [s' [r|]]; [by left|by right]. }
  pose proof (connect_total k a p Hk) as Hc. destruct (connect_marked k a p) as [[]|e|] eqn:Ec; [| |done].
  2:{ pose proof (Hfail (connect_reply_code e) e (connect_reply_code_range e)) as Hf. destruct (write_failure _ _) as [s' [r|]]; [by left|by right]. }
  destruct Hk as (_ & _ & _ & _ & _ & _ & _ & Hl & _). destruct (k_local_addr k) as [bound|e|] eqn:El; [| |done].
  2:{ right. left. split; [by exists e|done]. }
  pose proof (write_all_spec (success_reply bound) v (w ++ [5; 0]) b') as Hs. fold s in Hs.
  change (write_success bound s) with (write_all (success_reply bound) s). destruct (write_all _ s) as [s' [[[]|e|]|]]; [| |done|].
  - destruct Hs as [-> _]. exists methods, t, bound. split_and!; try done. cbn [written]. by rewrite <- app_assoc.
  - right. right. destruct Hs as (n & -> & Hcut & _). exists bound, (source e), n. split; [done|]. split; [by apply Hp|].
    cbn [written]. by rewrite <- app_assoc.
  - right. destruct Hs as (n & _ & Hcut). by apply Hp.
Qed.

(** ** Witnesses *)

Module ToySocks.

Definition toy_name : bytes := ascii_bytes "example.com.".
Definition toy_id : bytes := [0x12; 0x34].

(** A CNAME and the address, both under compressed names. *)
Definition toy_answers : list dns_record :=
  [mkRecord (mkName [] (Pointer 0xc0 12)) 5 1 60 [3; 119; 119; 119; 0xc0; 12];
   mkRecord (mkName [[119; 119; 119]] (Pointer 0xc0 12)) 1 1 60 [1; 2; 3; 4]].

Definition toy_response : bytes := message toy_id 0x81 0x80 [(query_name toy_name, 1, 1)] toy_answers [0; 0; 0; 0] [].

Lemma toy_answers_ok : Forall record_ok toy_answers.
Proof.
  constructor; [|constructor; [|constructor]]; split_and!; try (by vm_compute); try bytes_tac.
  split; [constructor; [by vm_compute|constructor]|by vm_compute].
Qed.

Lemma dns_lookup_witness :
  (exists q, build_query toy_name toy_id = Ok q /\ q = message toy_id 1 0 [(query_name toy_name, 1, 1)] [] [0; 0; 0; 0] []) /\
  parse_response toy_response toy_id = Ok (ipv4_new 1 2 3 4) /\
  build_query (ascii_bytes "a..b") toy_id = Err (io ErrorKind.InvalidInput).
Proof.
  pose proof (dns_lookup toy_name toy_id eq_refl) as H. cbv zeta in H.
  destruct (build_query toy_name toy_id) as [q|e|] eqn:E; [|vm_compute in E; discriminate|destruct H].
  destruct H as (_ & _ & _ & Hq & Hp). split; [by exists q|]. split; [|vm_compute; reflexivity].
  unfold toy_response. rewrite Hp; [vm_compute; reflexivity|done|by vm_compute|by vm_compute| | |done|done].
  - constructor; [|constructor]. split; [|done]. repeat (constructor; [by vm_compute|]). constructor.
  - exact toy_answers_ok.
Defined.

Definition toy_request : bytes := socks_request [2; 0] (Domain toy_name 443).

Lemma toy_bytes : is_bytes (toy_request ++ [22; 3; 1]).
Proof. apply is_bytes_check. vm_compute. reflexivity. Qed.

(** A client that stays and takes everything. *)
Definition toy_peer : Peer := mkPeer Open None.

Lemma socks_request_iff_witness :
  read_request (mkTcpStream (toy_request ++ [22; 3; 1]) [] toy_peer) = (mkTcpStream [22; 3; 1] [5; 0] toy_peer, Some (Ok (Domain toy_name 443))) /\
  exists methods rest, methods_ok methods /\ toy_request ++ [22; 3; 1] = socks_request methods (Domain toy_name 443) ++ rest.
Proof.
  assert (E : read_request (mkTcpStream (toy_request ++ [22; 3; 1]) [] toy_peer) =
    (mkTcpStream [22; 3; 1] [5; 0] toy_peer, Some (Ok (Domain toy_name 443)))) by (vm_compute; reflexivity).
  split; [exact E|].
  apply (socks_request_iff _ [] toy_peer _ _ toy_bytes eq_refl) in E as (methods & rest & Hm & _ & Hu & _). by exists methods, rest.
Defined.

Definition toy_calls : Calls :=
  mkCalls (Some toy_id) (Ok tt) (fun _ => Ok toy_response) (Ok tt)
    (fun _ _ => Err (mkIoError ErrorKind.Other (Some EINPROGRESS))) (Ok tt) (Ok None)
    (Ok (mkSocketAddr (V4 (ipv4_new 10 77 0 2)) 40000)).

Lemma toy_calls_ok : calls_ok toy_calls.
Proof.
  split_and!; try done.
  - intros q r [= <-]. apply is_bytes_check. vm_compute. reflexivity.
  - by intros i [= <-].
Qed.

Lemma serve_client_outcomes_witness :
  (exists s, serve_client toy_calls (mkTcpStream (toy_request ++ [22; 3; 1]) [] toy_peer) = (s, Some (Ok (ipv4_new 1 2 3 4, 443))) /\
   unread s = [22; 3; 1] /\
   exists methods t bound, methods_ok methods /\ target_ok t /\ located toy_calls t (ipv4_new 1 2 3 4) 443 /\
     written s = [5; 0] ++ success_reply bound) /\
  (exists s, serve_client toy_calls (mkTcpStream [5; 1] [] toy_peer) = (s, None) /\ waits toy_peer s).
Proof.
  split.
  - pose proof (serve_client_outcomes toy_calls (toy_request ++ [22; 3; 1]) [] toy_peer toy_bytes toy_calls_ok) as H.
    assert (E : serve_client toy_calls (mkTcpStream (toy_request ++ [22; 3; 1]) [] toy_peer) =
      (mkTcpStream [22; 3; 1] ([5; 0] ++ [5; 0; 0; 1; 10; 77; 0; 2; 156; 64]) toy_peer, Some (Ok (ipv4_new 1 2 3 4, 443))))
      by (vm_compute; reflexivity).
    rewrite E in H. eexists. split; [exact E|]. split; [done|].
    destruct H as (methods & t & bound & H1 & H2 & _ & H3 & _ & _ & H4).
    exists methods, t, bound. split; [exact H1|]. split; [exact H2|]. split; [exact H3|exact H4].
  - assert (Hb : is_bytes [5; 1]) by (apply is_bytes_check; reflexivity).
    pose proof (serve_client_outcomes toy_calls [5; 1] [] toy_peer Hb toy_calls_ok) as H.
    assert (E : serve_client toy_calls (mkTcpStream [5; 1] [] toy_peer) = (mkTcpStream [] [] toy_peer, None)) by (vm_compute; reflexivity).
    rewrite E in H. eexists. split; [exact E|exact H].
Defined.

End ToySocks.
