(* ===== verification/Diagnostics.v ===== *)
(** * Field diagnostics of the split tunnel

    crates/windows-client/src/diagnostics.rs: counters, round-trip times and the loss
    measured from gaps in the server's sequence numbers.  Durations are microseconds.
    The printed line is the tuple of its figures.

    The theorem: however datagrams are lost and reordered within the window, the loss
    reported over all intervals is never less than what is really missing, and exact when
    no datagram crosses a report. *)

From S2P Require Import Prelude.

Definition REPORT_INTERVAL : Z := 5000000.
Definition REORDER_WINDOW : Z := 4096.

(** ** What the capture thread counts *)

Record SendCounters := mkSendCounters { c_packets : Z; c_bytes : Z; c_failed : Z }.

Definition counters_sent (c : SendCounters) (n : Z) : SendCounters :=
  mkSendCounters (wrap64 (c_packets c + 1)) (wrap64 (c_bytes c + n)) (c_failed c).
Definition counters_failed (c : SendCounters) : SendCounters :=
  mkSendCounters (c_packets c) (c_bytes c) (wrap64 (c_failed c + 1)).

(** ** Round trips *)

Record Rtt := mkRtt { rtt_last : Z; rtt_min : Z; rtt_max : Z; rtt_total : Z; rtt_count : Z }.

Definition Rtt_default : Rtt := mkRtt 0 0 0 0 0.

Definition rtt_record (r : Rtt) (elapsed : Z) : Rtt :=
  let micros := Z.min elapsed u64_max in
  mkRtt micros (if rtt_count r =? 0 then micros else Z.min (rtt_min r) micros) (Z.max (rtt_max r) micros)
    (sat_add64 (rtt_total r) micros) (sat_add64 (rtt_count r) 1).

Definition rtt_average (r : Rtt) : Z := rtt_total r / Z.max (rtt_count r) 1.

(** ** Sequence numbers *)

Record Sequence := mkSequence { highest : Z; received : Z; reported_highest : Z; reported_received : Z }.

Definition Sequence_default : Sequence := mkSequence 0 0 0 0.

Definition sequence_restart (s : Sequence) : Sequence := mkSequence 0 0 0 0.

Definition observe (s : Sequence) (sequence : Z) : Sequence :=
  let position := sat_add64 sequence 1 in
  let s := if REORDER_WINDOW <? sat_sub (highest s) position then sequence_restart s else s in
  mkSequence (Z.max (highest s) position) (sat_add64 (received s) 1) (reported_highest s) (reported_received s).

(** The state, what was expected and what is missing since the last report. *)
Definition interval (s : Sequence) : Sequence * (Z * Z) :=
  let expected := sat_sub (highest s) (reported_highest s) in
  let got := sat_sub (received s) (reported_received s) in
  (mkSequence (highest s) (received s) (highest s) (received s), (expected, sat_sub expected got)).

(** ** The session's figures *)

Record Diagnostics := mkDiagnostics {
  enabled : bool;
  reported : Z;
  d_sent : SendCounters;
  d_packets : Z;
  d_bytes : Z;
  d_rejected : Z;
  probes_sent : Z;
  probes_answered : Z;
  outstanding : option Z;
  busy_max : Z;
  busy_total : Z;
  busy_count : Z;
  d_rtt : Rtt;
  d_sequence : Sequence;
}.

Definition counters_default : SendCounters := mkSendCounters 0 0 0.

Definition asked_for (value : option str) : bool :=
  match value with
  | Some v => bool_decide (trim v ∈ [ascii_bytes "1"; ascii_bytes "on"; ascii_bytes "true"])
  | None => false
  end.

Definition start (variable : option str) (now : Z) : Diagnostics :=
  mkDiagnostics (asked_for variable) now counters_default 0 0 0 0 0 None 0 0 0 Rtt_default Sequence_default.

Definition processed (d : Diagnostics) (elapsed : Z) : Diagnostics :=
  let 'mkDiagnostics a b c e f g h i j bm bt bc r s := d in
  mkDiagnostics a b c e f g h i j (Z.max bm elapsed) (bt + elapsed) (sat_add64 bc 1) r s.

Definition diag_received (d : Diagnostics) (sequence n : Z) : Diagnostics :=
  let 'mkDiagnostics a b c e f g h i j bm bt bc r s := d in
  mkDiagnostics a b c (sat_add64 e 1) (sat_add64 f n) g h i j bm bt bc r (observe s sequence).

Definition rejected (d : Diagnostics) : Diagnostics :=
  let 'mkDiagnostics a b c e f g h i j bm bt bc r s := d in
  mkDiagnostics a b c e f (sat_add64 g 1) h i j bm bt bc r s.

Definition probe_sent (d : Diagnostics) (now : Z) : Diagnostics :=
  let 'mkDiagnostics a b c e f g h i j bm bt bc r s := d in
  mkDiagnostics a b c e f g (sat_add64 h 1) i (Some now) bm bt bc r s.

Definition probe_answered (d : Diagnostics) (now : Z) : Diagnostics :=
  let 'mkDiagnostics a b c e f g h i j bm bt bc r s := d in
  match j with
  | None => d
  | Some sent => mkDiagnostics a b c e f g h (sat_add64 i 1) None bm bt bc (rtt_record r (duration_since now sent)) s
  end.

Definition session_restarted (d : Diagnostics) : Diagnostics :=
  let 'mkDiagnostics a b c e f g h i j bm bt bc r s := d in
  mkDiagnostics a b c e f g h i None bm bt bc r (sequence_restart s).

(** Tenths, in the integer arithmetic of [millis] and [percent]. *)
Definition millis (micros : Z) : Z * Z := let tenths := micros / 100 in (tenths / 10, tenths mod 10).
Definition percent (part whole : Z) : Z * Z :=
  if whole =? 0 then (0, 0)
  else let tenths := Z.min (part * 1000) u64_max / whole in (tenths / 10, tenths mod 10).

Record Report := mkReport {
  up_packets : Z; up_kb : Z; up_failed : Z; down_packets : Z; down_kb : Z; down_lost : Z; down_expected : Z;
  down_loss_pct : Z * Z; down_bad : Z; ping_avg : Z * Z; ping_min : Z * Z; ping_max : Z * Z;
  answered_of : Z * Z; busy_avg : Z; busy_longest : Z;
}.

Definition report (d : Diagnostics) (counters : SendCounters) (now : Z) : Diagnostics * option Report :=
  if negb (enabled d) || (duration_since now (reported d) <? REPORT_INTERVAL) then (d, None)
  else
    let '(sequence, (expected, lost)) := interval (d_sequence d) in
    let line :=
      mkReport (sat_sub (c_packets counters) (c_packets (d_sent d)))
        (sat_sub (c_bytes counters) (c_bytes (d_sent d)) / 1024)
        (sat_sub (c_failed counters) (c_failed (d_sent d)))
        (d_packets d) (d_bytes d / 1024) lost expected (percent lost expected) (d_rejected d)
        (millis (rtt_average (d_rtt d))) (millis (rtt_min (d_rtt d))) (millis (rtt_max (d_rtt d)))
        (probes_answered d, probes_sent d)
        (Z.min (busy_total d) u64_max / Z.max (busy_count d) 1) (Z.min (busy_max d) u64_max) in
    (mkDiagnostics (enabled d) now counters 0 0 0 0 0 (outstanding d) 0 0 0 Rtt_default sequence, Some line).

(** ** Loss *)

Inductive measure := Seen (sequence : Z) | Reported.

(** The state and the reports (expected, missing). *)
Fixpoint measures (s : Sequence) (ms : list measure) : Sequence * list (Z * Z) :=
  match ms with
  | [] => (s, [])
  | Seen sequence :: ms => measures (observe s sequence) ms
  | Reported :: ms =>
      let '(s, r) := interval s in
      let '(s, rs) := measures s ms in
      (s, r :: rs)
  end.

Fixpoint arrivals (ms : list measure) : list Z :=
  match ms with [] => [] | Seen q :: ms => q :: arrivals ms | Reported :: ms => arrivals ms end.

(** No datagram is more than the window behind the highest one, and numbers are below the
    64-bit limit. *)
Fixpoint in_window (high : Z) (ms : list measure) : Prop :=
  match ms with
  | [] => True
  | Seen q :: ms => 0 <= q < u64_max /\ high - (q + 1) <= REORDER_WINDOW /\ in_window (Z.max high (q + 1)) ms
  | Reported :: ms => in_window high ms
  end.

Definition total (f : Z * Z -> Z) (rs : list (Z * Z)) : Z := foldr (fun r n => f r + n) 0 rs.

Definition seq_ok (s : Sequence) : Prop :=
  0 <= reported_highest s <= highest s /\ 0 <= reported_received s <= received s.

Definition top (high : Z) (qs : list Z) : Z := foldl (fun h q => Z.max h (q + 1)) high qs.

Lemma observe_window s q :
  seq_ok s -> 0 <= q < u64_max -> highest s - (q + 1) <= REORDER_WINDOW -> received s < u64_max ->
  observe s q = mkSequence (Z.max (highest s) (q + 1)) (received s + 1) (reported_highest s) (reported_received s).
Proof.
  intros (Hh & Hr) Hq Hw Hm. unfold observe. replace (sat_add64 q 1) with (q + 1) by (unfold sat_add64; lia).
  rewrite (proj2 (Z.ltb_ge _ _)) by (unfold sat_sub, REORDER_WINDOW in *; lia).
  f_equal. unfold sat_add64. lia.
Qed.

(** The state after the measures, and the sums of the reports. *)
Lemma measures_spec ms s :
  seq_ok s -> in_window (highest s) ms -> received s + len (arrivals ms) < u64_max ->
  let '(s', rs) := measures s ms in
  seq_ok s' /\ highest s' = top (highest s) (arrivals ms) /\ received s' = received s + len (arrivals ms) /\
  total fst rs = reported_highest s' - reported_highest s /\
  (reported_highest s' - reported_highest s) - (reported_received s' - reported_received s) <= total snd rs /\
  Forall (fun r => 0 <= r.2 <= r.1) rs.
Proof.
  revert s. induction ms as [|[q|] ms IH]; intros s Hs Hw Hm; cbn [measures arrivals in_window] in *.
  - cbn. split; [done|]. split; [done|]. split; [unfold len; cbn; lia|]. split; [lia|]. split; [lia|constructor].
  - destruct Hw as (Hq & Hwin & Hw). rewrite len_cons in Hm. pose proof (len_nonneg (arrivals ms)).
    rewrite observe_window by (done || lia). set (s1 := mkSequence _ _ _ _).
    assert (Hs1 : seq_ok s1) by (destruct Hs as [? ?]; unfold s1; split; cbn; lia).
    specialize (IH s1 Hs1 Hw ltac:(cbn; lia)). destruct (measures s1 ms) as [s' rs].
    destruct IH as (H1 & H2 & H3 & H4 & H5 & H6). cbn in H2, H3, H4, H5. rewrite len_cons. cbn [top foldl].
    split; [done|]. split; [done|]. split; [lia|]. by repeat split.
  - unfold interval. set (s1 := mkSequence _ _ _ _).
    assert (Hs1 : seq_ok s1) by (destruct Hs as [? ?]; unfold s1; split; cbn; lia).
    specialize (IH s1 Hs1 Hw Hm). destruct (measures s1 ms) as [s' rs].
    destruct IH as (H1 & H2 & H3 & H4 & H5 & H6). cbn in H2, H3, H4, H5. destruct Hs as [? ?].
    split; [done|]. split; [done|]. split; [done|]. unfold total in *. cbn [foldr fst snd]. unfold sat_sub.
    split; [lia|]. split; [lia|]. constructor; [cbn [fst snd]; lia|done].
Qed.

(** *** What is really missing *)

Definition missing (high : Z) (qs : list Z) : list Z := filter (fun q => q ∉ qs) (seqZ 0 high).

Lemma distinct_in_range qs a b :
  NoDup qs -> Forall (fun q => a <= q < b) qs -> a <= b -> len qs <= b - a.
Proof.
  intros Hd Hr Hab. assert (qs ⊆+ seqZ a (b - a)) as Hs.
  { apply NoDup_submseteq; [done|]. intros q Hq. apply elem_of_seqZ. rewrite Forall_forall in Hr. specialize (Hr q (proj1 (list_elem_of_In _ _) Hq)). lia. }
  apply submseteq_length in Hs. rewrite length_seqZ in Hs. unfold len. lia.
Qed.

Lemma missing_count high qs :
  NoDup qs -> Forall (fun q => 0 <= q < high) qs -> 0 <= high -> len (missing high qs) = high - len qs.
Proof.
  intros Hd Hr Hh. assert (seqZ 0 high ≡ₚ missing high qs ++ qs) as Hp.
  { apply NoDup_Permutation; [apply NoDup_seqZ|..].
    - apply list.NoDup_app. split; [apply list.NoDup_filter, NoDup_seqZ|]. split; [|done].
      intros q Hq. by apply list_elem_of_filter in Hq as [Hq _].
    - intros q. rewrite elem_of_app. unfold missing. rewrite list_elem_of_filter, elem_of_seqZ. rewrite Forall_forall in Hr.
      destruct (decide (q ∈ qs)) as [Hq|Hq]; [specialize (Hr q (proj1 (list_elem_of_In _ _) Hq)); split; [by right|lia]|naive_solver]. }
  apply Permutation_length in Hp. rewrite length_app, length_seqZ in Hp. unfold len. lia.
Qed.

Lemma top_spec qs high : 0 <= high -> high <= top high qs /\ Forall (fun q => q < top high qs) qs.
Proof.
  revert high. unfold top. induction qs as [|q qs IH]; intros high Hh; cbn [foldl]; [done|].
  destruct (IH (Z.max high (q + 1)) ltac:(lia)) as [H1 H2]. split; [lia|]. constructor; [lia|done].
Qed.

Lemma window_nonneg high ms : in_window high ms -> Forall (fun q => 0 <= q) (arrivals ms).
Proof.
  revert high. induction ms as [|[q|] ms IH]; intros high; cbn [in_window arrivals]; [constructor| |apply IH].
  intros (Hq & _ & H). constructor; [lia|by apply (IH _ H)].
Qed.

(** No datagram arrives after a report that covered its number. *)
Fixpoint uncrossed (low high : Z) (ms : list measure) : Prop :=
  match ms with
  | [] => True
  | Seen q :: ms => low <= q /\ uncrossed low (Z.max high (q + 1)) ms
  | Reported :: ms => uncrossed high high ms
  end.

Lemma measures_exact ms s cur :
  seq_ok s -> in_window (highest s) ms -> received s + len (arrivals ms) < u64_max ->
  uncrossed (reported_highest s) (highest s) ms -> NoDup (arrivals ms ++ cur) ->
  Forall (fun q => reported_highest s <= q < highest s) cur -> len cur = received s - reported_received s ->
  let '(s', rs) := measures s ms in
  total snd rs = (reported_highest s' - reported_highest s) - (reported_received s' - reported_received s).
Proof.
  revert s cur. induction ms as [|[q|] ms IH]; intros s cur Hs Hw Hm Hu Hd Hc Hl; cbn [measures arrivals in_window uncrossed] in *.
  - cbn. lia.
  - destruct Hw as (Hq & Hwin & Hw). destruct Hu as [Hlow Hu]. rewrite len_cons in Hm. pose proof (len_nonneg (arrivals ms)).
    rewrite observe_window by (done || lia). set (s1 := mkSequence _ _ _ _).
    apply (IH s1 (q :: cur)); try done.
    + destruct Hs as [? ?]; unfold s1; split; cbn; lia.
    + cbn. lia.
    + revert Hd. apply NoDup_Permutation_proper. cbn [app]. by rewrite Permutation_middle.
    + cbn. constructor; [lia|]. revert Hc. apply Forall_impl. intros x Hx. lia.
    + rewrite len_cons. cbn. lia.
  - assert (Hcur : len cur <= highest s - reported_highest s).
    { apply distinct_in_range; [|done|apply Hs]. by apply list.NoDup_app in Hd as (_ & _ & Hd). }
    unfold interval. set (s1 := mkSequence _ _ _ _).
    assert (Hs1 : seq_ok s1) by (destruct Hs as [? ?]; unfold s1; split; cbn; lia).
    specialize (IH s1 [] Hs1 Hw Hm Hu). destruct (measures s1 ms) as [s' rs]. destruct Hs as [? ?].
    assert (NoDup (arrivals ms ++ [])) as Hd' by (rewrite app_nil_r; by apply list.NoDup_app in Hd as (Hd & _ & _)).
    specialize (IH Hd' ltac:(constructor) ltac:(cbn; unfold len; cbn; lia)). cbn in IH.
    unfold total in *. cbn [foldr snd]. unfold sat_sub. lia.
Qed.

(** Loss is never underreported.  Whatever order the datagrams of a session arrive in
    within the reordering window, and whenever reports are taken, the last one at the end:
    together the reports account for every number up to the highest one seen, no report
    claims more losses than it expected datagrams, and the losses they claim are at least
    the numbers that really are missing.  They are exactly those if no datagram arrives
    after a report that covered its number. *)
Theorem loss_is_not_underreported ms :
  let qs := arrivals ms in
  in_window 0 ms -> len qs < u64_max -> NoDup qs ->
  let rs := (measures Sequence_default (ms ++ [Reported])).2 in
  total fst rs = top 0 qs /\ Forall (fun r => 0 <= r.2 <= r.1) rs /\
  len (missing (top 0 qs) qs) <= total snd rs /\
  (uncrossed 0 0 ms -> total snd rs = len (missing (top 0 qs) qs)).
Proof.
  intros qs Hw Hm Hd. assert (Ha : arrivals (ms ++ [Reported]) = qs).
  { unfold qs. clear. induction ms as [|[q|] ms IH]; cbn; [done|by f_equal|done]. }
  assert (Hlast : forall s, let s' := (measures s (ms ++ [Reported])).1 in reported_highest s' = highest s' /\ reported_received s' = received s').
  { clear. induction ms as [|[q|] ms IH]; intros s; cbn [app measures]; [done|apply IH|].
    destruct (interval s) as [s1 r]. specialize (IH s1). by destruct (measures s1 _). }
  assert (Hw' : forall h, in_window h ms -> in_window h (ms ++ [Reported])).
  { clear. induction ms as [|[q|] ms IH]; intros h; cbn; [done|naive_solver|apply IH]. }
  assert (Hu' : forall l h, uncrossed l h ms -> uncrossed l h (ms ++ [Reported])).
  { clear. induction ms as [|[q|] ms IH]; intros l h; cbn; [done|naive_solver|apply IH]. }
  assert (Hmiss : len (missing (top 0 qs) qs) = top 0 qs - len qs).
  { destruct (top_spec qs 0 ltac:(lia)) as [H0 Ht]. apply missing_count; [done| |lia].
    pose proof (window_nonneg 0 ms Hw) as Hn. fold qs in Hn. rewrite Forall_forall in *. intros q Hq. split; [by apply Hn|by apply Ht]. }
  assert (Hs0 : seq_ok Sequence_default) by (split; cbn; lia).
  pose proof (measures_spec (ms ++ [Reported]) Sequence_default Hs0 (Hw' 0 Hw)) as H. rewrite Ha in H. specialize (H Hm).
  pose proof (measures_exact (ms ++ [Reported]) Sequence_default [] Hs0 (Hw' 0 Hw)) as He. rewrite Ha, app_nil_r in He.
  specialize (Hlast Sequence_default). destruct (measures _ _) as [s' rs]. cbn [fst snd] in *.
  destruct H as (_ & H2 & H3 & H4 & H5 & H6), Hlast as [L1 L2]. cbn in H2, H3, H4, H5, He.
  rewrite Hmiss. split; [lia|]. split; [done|]. split; [lia|]. intros Hu.
  rewrite (He Hm (Hu' 0 0 Hu) Hd ltac:(constructor) eq_refl). lia.
Qed.

(** Four datagrams, one lost and one late: the late one is reported lost as well. *)
Definition toy_measures : list measure := [Seen 0; Seen 1; Seen 3; Reported; Seen 5; Seen 2].

Lemma loss_is_not_underreported_witness :
  measures Sequence_default (toy_measures ++ [Reported]) = (mkSequence 6 5 6 5, [(4, 1); (2, 0)]) /\
  missing (top 0 (arrivals toy_measures)) (arrivals toy_measures) = [4] /\
  1 <= total snd (measures Sequence_default (toy_measures ++ [Reported])).2.
Proof.
  split; [reflexivity|]. split; [reflexivity|].
  destruct (loss_is_not_underreported toy_measures) as (_ & _ & H & _).
  - cbn. unfold u64_max, REORDER_WINDOW. lia.
  - by vm_compute.
  - apply (bool_decide_unpack _). vm_compute. exact I.
  - exact H.
Defined.
