(* ===== verification/SplitTunnel.v ===== *)
(** * The split tunnel of the Windows client

    crates/windows-client/src/split_tunnel.rs: captured packets are encrypted and sent by
    one thread ([outbound_packet], the sink of [Diverter::run]); the receive loop
    translates what arrives, keeps the session alive and rebuilds it, following the
    machine to another network.

    The loop runs on the tape of Handshake.v; what the operating system says of the
    network (the physical address and the interface of the default route) is the
    parameter [network], by position on the tape.  [Split] is what the two threads
    share or own. *)

From S2P Require Import Prelude Protocol Replay Crypto ToyCrypto DataPlane Morph Speedy Config ClientWire Liveness Packet Flow Divert Handshake Effects Diagnostics.

Definition is_transient_io (e : IoError) : bool :=
  bool_decide (kind e ∈ [ErrorKind.Interrupted; ErrorKind.TimedOut; ErrorKind.WouldBlock]).

(** [packet_loop::is_peer_unavailable] *)
Definition windows_peer_unavailable (e : IoError) : bool :=
  bool_decide (kind e ∈ [ErrorKind.ConnectionRefused; ErrorKind.ConnectionReset; ErrorKind.NotConnected;
    ErrorKind.HostUnreachable; ErrorKind.NetworkUnreachable]).

Section Split.
Context `{N : Noise, P : Primitives}.

Record Split := mkSplit {
  s_receiver : TunnelReceiver;
  s_sender : TunnelSender;
  s_translation : Translation;
  s_table : FlowTable;
  s_inbound : Address;
  s_liveness : Liveness;
  s_diagnostics : Diagnostics;
  s_counters : SendCounters;
  s_trace : list io;
}.

Definition with_receiver (s : Split) (r : TunnelReceiver) : Split :=
  let 'mkSplit _ b c d e f g h i := s in mkSplit r b c d e f g h i.
Definition with_sender (s : Split) (x : TunnelSender) : Split :=
  let 'mkSplit a _ c d e f g h i := s in mkSplit a x c d e f g h i.
Definition with_liveness (s : Split) (x : Liveness) : Split :=
  let 'mkSplit a b c d e _ g h i := s in mkSplit a b c d e x g h i.
Definition with_diagnostics (s : Split) (x : Diagnostics) : Split :=
  let 'mkSplit a b c d e f _ h i := s in mkSplit a b c d e f x h i.
Definition with_counters (s : Split) (x : SendCounters) : Split :=
  let 'mkSplit a b c d e f g _ i := s in mkSplit a b c d e f g x i.
Definition with_trace (s : Split) (x : list io) : Split :=
  let 'mkSplit a b c d e f g h _ := s in mkSplit a b c d e f g h x.
Definition with_translation (s : Split) (x : Translation) (t : FlowTable) : Split :=
  let 'mkSplit a b _ _ e f g h i := s in mkSplit a b x t e f g h i.
Definition with_inbound (s : Split) (x : Address) : Split :=
  let 'mkSplit a b c d _ f g h i := s in mkSplit a b c d x f g h i.

(** The driver, as in Divert.v. *)
Context (calc_checksums : bytes -> Address -> bytes * Address * bool).
Context (accepts : list io -> bytes -> Address -> bool).
Context (tape : nat -> moment) (network : nat -> Ipv4Addr * Z) (config : ValidatedClientConfig).

Abbreviation L := (Effects.L Split) (only parsing).
Notation "x <- m ; k" := (lbind m (fun x => k)) (at level 100, m at next level, right associativity).

(** Diagnostics count microseconds. *)
Definition micros (t : Z) : Z := 1000 * t.

(** ** Sending *)

Definition count_sent (n : Z) : L unit := modify (fun s => with_counters s (counters_sent (s_counters s) n)).
Definition count_failed : L unit := modify (fun s => with_counters s (counters_failed (s_counters s))).

Definition split_encode_ip (packet : bytes) : L (res DataPlaneError.t bytes) := fun s w =>
  let '(sender, r) := TunnelSender_encode_ip_into (s_sender s) packet [] in
  (with_sender s sender, w, Some (Ok r)).

(** The closure of [spawn_outbound]; what it only prints is left out. *)
Definition outbound_packet (packet : bytes) : L unit :=
  encoded <- split_encode_ip packet;
  match encoded with
  | Err _ => count_failed
  | Panic => lres Panic
  | Ok encrypted =>
      wired <- catch (run_m (wire_encode tape encrypted));
      match wired with
      | Err _ => count_failed
      | Panic => lres Panic
      | Ok datagram =>
          r <- run_m (send_datagram tape datagram);
          match r with
          | Ok _ => count_sent (len datagram)
          | Err _ => count_failed
          | Panic => lres Panic
          end
      end
  end.

(** ** Receiving *)

Definition split_decode_into (parsed : Datagram.t) : L (res DataPlaneError.t Decoded) := fun s w =>
  let '(receiver, r) := TunnelReceiver_decode_into (s_receiver s) parsed in
  (with_receiver s receiver, w, Some (Ok r)).

Definition diagnose (f : Diagnostics -> Diagnostics) : L unit :=
  modify (fun s => with_diagnostics s (f (s_diagnostics s))).

Definition alive (now : Z) : L unit := modify (fun s => with_liveness s (Windows.packet_received (s_liveness s) now)).

Definition inject (packet : bytes) : L unit :=
  modify (fun s => with_trace s (inject_inbound calc_checksums accepts (s_trace s) packet (s_inbound s))).

Definition split_deliver (datagram : bytes) : L unit :=
  framed <- unwrap tape datagram;
  match framed with
  | None => diagnose rejected
  | Some parsed =>
      let sequence := Header.sequence (Datagram.header parsed) in
      r <- split_decode_into parsed;
      match r with
      | Ok (Ip packet) =>
          _ <- diagnose (fun d => diag_received d sequence (len datagram));
          now <- clock tape;
          _ <- alive now;
          translation <- gets s_translation;
          match prepare_inbound packet translation with
          | Ok (injectable, true) => inject injectable
          | Ok (_, false) | Err _ => lret tt
          | Panic => lres Panic
          end
      | Ok Keepalive =>
          now <- clock tape;
          _ <- diagnose (fun d => probe_answered (diag_received d sequence (len datagram)) (micros now));
          alive now
      | Err _ => diagnose rejected
      | Panic => lres Panic
      end
  end.

(** ** Keeping the session *)

Definition lose (now : Z) : L unit := modify (fun s => with_liveness s (Windows.connection_lost (s_liveness s) now)).

(** [network::physical_addresses] and [netcfg::default_ipv4_route]. *)
Definition query_network : L (Ipv4Addr * Z) := fun s w =>
  let found := network (pos w) in
  lbind (socket tape) (fun _ => lret found) s w.

Definition establish (fuel : nat) : L unit :=
  found <- query_network;
  let physical := V4 found.1 in
  route <- query_network;
  replacement <- run_m (windows_connect tape fuel config);
  let '(plane, parameters) := replacement in
  _ <- socket tape;
  _ <- socket tape;
  let translation :=
    Translation_new physical (V4 (SessionParameters.client_address parameters)) (V4 (SessionParameters.dns parameters))
      (SessionParameters.mtu parameters) in
  _ <- modify (fun s =>
         with_translation s translation
           (kept_flows (s_translation s) translation (s_table s)));
  _ <- modify (fun s => let '(sender, receiver) := TunnelDataPlane_split plane in with_receiver (with_sender s sender) receiver);
  r <- platform tape;
  match r with
  | Err _ => lthrow ClientError.Platform
  | Panic => lres Panic
  | Ok _ => modify (fun s => with_inbound s (for_inbound route.2 0))
  end.

Definition split_encode_keepalive : L bytes := fun s w =>
  let '(sender, r) := TunnelSender_encode_keepalive_into (s_sender s) [] in
  (with_sender s sender, w, Some (map_err ClientError.DataPlane r)).

Definition maintain (fuel : nat) : L unit :=
  now <- clock tape;
  live <- gets s_liveness;
  match Windows.action live now with
  | Action.None => lret tt
  | Action.Keepalive =>
      keepalive <- split_encode_keepalive;
      wired <- run_m (wire_encode tape keepalive);
      r <- run_m (send_datagram tape wired);
      match r with
      | Ok _ =>
          _ <- modify (fun s => with_liveness s (keepalive_sent (s_liveness s) now));
          diagnose (fun d => probe_sent d (micros now))
      | Err e => if windows_peer_unavailable e then lose now else lthrow (ClientError.Io e)
      | Panic => lres Panic
      end
  | Action.Reconnect =>
      _ <- modify (fun s => with_liveness s (reconnect_attempted (s_liveness s) now));
      r <- catch (establish fuel);
      match r with
      | Ok _ =>
          now <- clock tape;
          _ <- modify (fun s => with_liveness s (reconnected (s_liveness s) now));
          diagnose session_restarted
      | _ => lret tt
      end
  end.

(** One iteration of [ReceiveLoop::run], with the line it reports. *)
Definition split_turn (fuel : nat) : L (option Report) :=
  r <- run_m (receive_datagram tape);
  _ <- match r with
       | Ok datagram =>
           timed <- gets (fun s => enabled (s_diagnostics s));
           if timed
           then
             started <- clock tape;
             _ <- split_deliver datagram;
             stopped <- clock tape;
             diagnose (fun d => processed d (micros (duration_since stopped started)))
           else split_deliver datagram
       | Err e =>
           if is_transient_io e then lret tt
           else if windows_peer_unavailable e then now <- clock tape; lose now
           else lthrow (ClientError.Io e)
       | Panic => lres Panic
       end;
  _ <- maintain fuel;
  now <- clock tape;
  fun s w =>
    let '(d, line) := report (s_diagnostics s) (s_counters s) (micros now) in
    (with_diagnostics s d, w, Some (Ok line)).

(** ** What reaches an application *)

(** A datagram of the session with a fresh number that authenticates. *)
Definition authentic (s : Split) (a : ReplaySpec.t) (parsed : Datagram.t) (plaintext : bytes) : Prop :=
  let q := Header.sequence (Datagram.header parsed) in
  Header.session_id (Datagram.header parsed) = tr_session_id (s_receiver s) /\ ReplaySpec.verdict a q = Ok tt /\
  read_message (recv_transport (tr_crypto (s_receiver s))) q (Datagram.payload parsed) (len (Datagram.payload parsed)) =
    Some plaintext.

(** What a datagram leaves alone. *)
Definition same_tunnel (s s' : Split) : Prop :=
  s_translation s' = s_translation s /\ s_table s' = s_table s /\ s_sender s' = s_sender s /\
  s_inbound s' = s_inbound s /\ s_counters s' = s_counters s.

Lemma unwrap_state datagram (s : Split) w : (unwrap tape datagram s w).1.1 = s.
Proof. by apply (keeps_unwrap tape (fun x => x = s)). Qed.

(** [C19] Only the server reaches an application.  A datagram changes neither the
    translation nor the flows nor the sending side; it injects a packet, or counts as a
    sign of life, only if it is a datagram of this session whose number is fresh and
    whose payload authenticates; and what is injected is the authenticated packet after
    the translation of its destination, which must be the tunnel address. *)
Theorem only_authentic_packets_are_injected datagram s w a :
  represents (recv_window (tr_crypto (s_receiver s))) a ->
  (forall parsed, (unwrap tape datagram s w).2 = Some (Ok (Some parsed)) -> 0 <= Header.sequence (Datagram.header parsed)) ->
  let s' := (split_deliver datagram s w).1.1 in
  same_tunnel s s' /\
  ((s_trace s' = s_trace s /\ s_liveness s' = s_liveness s) \/
   exists parsed plaintext, (unwrap tape datagram s w).2 = Some (Ok (Some parsed)) /\ authentic s a parsed plaintext /\
     (s_trace s' = s_trace s \/
      exists packet padding b, Header.kind (Datagram.header parsed) = PacketKind.Data /\ plaintext = 1 :: packet ++ padding /\
        prepare_inbound packet (s_translation s) = Ok (b, true) /\
        s_trace s' = inject_inbound calc_checksums accepts (s_trace s) b (s_inbound s))).
Proof.
  intros Hr Hq s'. assert (E : s' = (split_deliver datagram s w).1.1) by done. clearbody s'. revert E.
  unfold split_deliver, lbind at 1. pose proof (unwrap_state datagram s w) as Hs.
  destruct (unwrap tape datagram s w) as [[s0 w0] out]. cbn [fst snd] in *. subst s0.
  destruct out as [[[parsed|]|e|]|]; try (intros ->; destruct s; split; [repeat split|by left]).
  pose proof (receiver_decode_spec (s_receiver s) a parsed Hr (Hq parsed eq_refl)) as Hd. cbv zeta in Hd.
  unfold lbind at 1, split_decode_into. destruct (TunnelReceiver_decode_into (s_receiver s) parsed) as [receiver out].
  destruct Hd as (_ & _ & _ & Hd). destruct out as [decoded|e|]; [| |done].
  2:{ intros ->. destruct s; split; [repeat split|by left]. }
  destruct Hd as (Hsid & Hv & _ & Hd). destruct decoded as [packet|].
  - destruct Hd as (Hk & [padding Hread] & _). unfold lbind, diagnose, alive, gets, clock, run_m, modify. cbn.
    replace (s_translation (with_liveness _ _)) with (s_translation s) by by destruct s.
    destruct (prepare_inbound packet (s_translation s)) as [[b []]|e|] eqn:Ep; cbn; intros ->;
      (split; [destruct s; repeat split|right]);
      exists parsed, (1 :: packet ++ padding); (split; [done|]); (split; [done|]); try (left; by destruct s).
    right. exists packet, padding, b. do 3 (split; [done|]). by destruct s.
  - destruct Hd as (Hk & Hread). unfold lbind, diagnose, alive, gets, clock, run_m, modify. cbn. intros ->.
    split; [destruct s; repeat split|right]. exists parsed, [2]. split; [done|]. split; [done|]. left. by destruct s.
Qed.

(** ** Sender, receiver and translation belong together *)

(** The halves are of one session, and the segment size the translation enforces is that
    of the session's MTU. *)
Definition agree (s : Split) : Prop :=
  ts_session_id (s_sender s) = tr_session_id (s_receiver s) /\ ts_mtu (s_sender s) = tr_mtu (s_receiver s) /\
  max_segment_size (s_translation s) = sat_sub (ts_mtu (s_sender s)) HEADERS.

(** What a computation returns, when it returns a value. *)
Definition yields {A} (m : M A) (Q : A -> Prop) : Prop := forall w w' a, m w = (w', Some (Ok a)) -> Q a.

Lemma yields_bind {A B} (m : M A) (k : A -> M B) Q : (forall a, yields (k a) Q) -> yields (bind m k) Q.
Proof.
  intros Hk w w' b. unfold bind. destruct (m w) as [w1 [[a|e|]|]]; try discriminate. apply Hk.
Qed.

Definition fits (pp : TunnelDataPlane * SessionParameters.t) : Prop := tp_mtu pp.1 = SessionParameters.mtu pp.2.

Lemma accept_fits rejected session_id handshake payload pp :
  accept rejected session_id handshake payload = Ok pp -> fits pp.
Proof.
  unfold accept. destruct (map_err _ _) as [[crypto parameters]|e|]; cbn [mbind res_bind]; try discriminate.
  destruct (map_err _ _) as [p|e|]; cbn [mbind res_bind]; try discriminate. by intros [= <-].
Qed.

Lemma await_fits retryable rejected fuel sid hs req deadline next :
  yields (await tape retryable rejected fuel sid hs req deadline next) fits.
Proof.
  revert next. induction fuel as [|fuel IH]; intros next; cbn [await]; [by intros w w' a|].
  apply yields_bind. intros now. destruct (deadline <=? now); [by intros w w' a|].
  apply yields_bind. intros next'. apply yields_bind. intros _. apply yields_bind.
  intros [datagram|e|]; [|destruct (retryable e); [apply IH|by intros w w' a]|by intros w w' a].
  apply yields_bind. intros r. destruct (response_of sid r) as [payload|]; [|apply IH].
  intros w w' pp [= _ H]. by apply (accept_fits rejected sid hs payload).
Qed.

Lemma windows_connect_fits fuel : yields (windows_connect tape fuel config) fits.
Proof.
  unfold windows_connect, windows_negotiate, run_attempt.
  do 2 (apply yields_bind; intros ?). destruct a0 as [[sid hs] req].
  do 3 (apply yields_bind; intros ?). apply await_fits.
Qed.

(** An update of what the invariant does not look at. *)
Ltac frame := apply keeps_modify; intros [] H; exact H.
Ltac keeps := repeat (keeps_step || frame).

Lemma encode_into_agrees x kind inner payload output :
  ts_session_id (TunnelSender_encode_into x kind inner payload output).1 = ts_session_id x /\
  ts_mtu (TunnelSender_encode_into x kind inner payload output).1 = ts_mtu x.
Proof.
  unfold TunnelSender_encode_into. destruct (checked_add64 _ _); [|done].
  by destruct (SendHalf_encrypt_into _ _ _ _).
Qed.

Lemma agree_sender s x :
  agree s -> ts_session_id x = ts_session_id (s_sender s) -> ts_mtu x = ts_mtu (s_sender s) -> agree (with_sender s x).
Proof. unfold agree. destruct s. cbn. intros (H1 & H2 & H3) -> ->. done. Qed.

Lemma agree_encode_ip packet : keeps agree (split_encode_ip packet).
Proof.
  intros s w H. unfold split_encode_ip, TunnelSender_encode_ip_into.
  destruct (Ipv4Packet.parse packet) as [ip|e|]; [|by apply agree_sender..].
  destruct (_ <? _); [by apply agree_sender|].
  pose proof (encode_into_agrees (s_sender s) PacketKind.Data InnerPacketKind.Data (Ipv4Packet.as_bytes ip) []) as [E1 E2].
  destruct (TunnelSender_encode_into _ _ _ _ _) as [x r]. by apply agree_sender.
Qed.

Lemma agree_encode_keepalive : keeps agree split_encode_keepalive.
Proof.
  intros s w H. unfold split_encode_keepalive, TunnelSender_encode_keepalive_into.
  pose proof (encode_into_agrees (s_sender s) PacketKind.Keepalive InnerPacketKind.Keepalive [] []) as [E1 E2].
  destruct (TunnelSender_encode_into _ _ _ _ _) as [x r]. by apply agree_sender.
Qed.

Lemma agree_decode parsed : keeps agree (split_decode_into parsed).
Proof.
  intros s w (H1 & H2 & H3). unfold split_decode_into.
  destruct (TunnelReceiver_decode_into (s_receiver s) parsed) as [x r] eqn:E.
  assert (tr_session_id x = tr_session_id (s_receiver s) /\ tr_mtu x = tr_mtu (s_receiver s)) as [E1 E2].
  { revert E. unfold TunnelReceiver_decode_into. destruct (negb _); [by intros [= <- _]|]. destruct (negb _); [by intros [= <- _]|].
    destruct (ReceiveHalf_decrypt_into _ _ _ _). by intros [= <- _]. }
  destruct s. unfold agree in *. cbn in *. rewrite E1, E2. done.
Qed.
#[local] Hint Resolve agree_encode_ip agree_encode_keepalive agree_decode : keeps.

Lemma agree_deliver datagram : keeps agree (split_deliver datagram).
Proof. unfold split_deliver, diagnose, alive, inject, clock. keeps. Qed.
#[local] Hint Resolve agree_deliver : keeps.

Lemma agree_outbound packet : keeps agree (outbound_packet packet).
Proof. unfold outbound_packet, count_sent, count_failed. keeps. Qed.

(** The two updates of a replacement agree only together. *)
Lemma agree_replace physical plane parameters route :
  fits (plane, parameters) ->
  keeps agree (_ <- modify (fun s =>
         let translation := Translation_new (V4 physical) (V4 (SessionParameters.client_address parameters))
           (V4 (SessionParameters.dns parameters)) (SessionParameters.mtu parameters) in
         with_translation s translation (kept_flows (s_translation s) translation (s_table s)));
    _ <- modify (fun s => let '(sender, receiver) := TunnelDataPlane_split plane in with_receiver (with_sender s sender) receiver);
    r <- platform tape;
    match r with
    | Err _ => lthrow ClientError.Platform
    | Panic => lres Panic
    | Ok _ => modify (fun s => with_inbound s (for_inbound route 0))
    end).
Proof.
  intros Hf s w _.
  match goal with |- agree ((lbind (modify ?f) (fun _ => lbind (modify ?g) ?k)) s w).1.1 =>
    change (agree ((k tt) (g (f s)) w).1.1); assert (H : agree (g (f s))) end.
  { destruct s, plane. unfold agree, fits in *. cbn in *. by subst. }
  revert H. match goal with |- agree ?x -> agree (?m ?x w).1.1 => assert (keeps agree m) as Hk; [keeps|apply Hk] end.
Qed.

Lemma agree_establish fuel : keeps agree (establish fuel).
Proof.
  unfold establish. apply keeps_bind.
  { intros s w H. unfold query_network. apply (keeps_bind agree (socket tape)); [apply keeps_run|intros; apply keeps_ret|done]. }
  intros found. apply keeps_bind.
  { intros s w H. unfold query_network. apply (keeps_bind agree (socket tape)); [apply keeps_run|intros; apply keeps_ret|done]. }
  intros route s w H. unfold lbind at 1, run_m at 1.
  destruct (windows_connect tape fuel config w) as [w1 [[[plane parameters]|e|]|]] eqn:E; [|exact H..].
  apply windows_connect_fits in E. revert H. apply keeps_bind; [apply keeps_run|intros _].
  apply keeps_bind; [apply keeps_run|intros _]. by apply agree_replace.
Qed.
#[local] Hint Resolve agree_establish : keeps.

Lemma agree_turn fuel : keeps agree (split_turn fuel).
Proof.
  unfold split_turn, maintain, lose, diagnose, clock. keeps.
  intros s w H. destruct (report _ _ _). destruct s. exact H.
Qed.

(** ** Runs *)

Inductive split_activity := Turn (fuel : nat) | Outbound (packet : bytes).

Definition split_act (e : split_activity) (x : Split * world) : Split * world :=
  match e with
  | Turn fuel => (split_turn fuel x.1 x.2).1
  | Outbound packet => (outbound_packet packet x.1 x.2).1
  end.

Definition split_run (es : list split_activity) (x : Split * world) : Split * world := fold_left (fun x e => split_act e x) es x.

(** Across any number of reconnects, failed ones included, and whatever packets are
    sent meanwhile, the sending half, the receiving half and the translation belong to
    one session: same identifier, same MTU, and segments clamped to exactly what that MTU
    carries. *)
Theorem halves_and_translation_agree es s w : agree s -> agree (split_run es (s, w)).1.
Proof.
  intros H. change s with ((s, w).1) in H. revert H. generalize (s, w). clear s w.
  induction es as [|e es IH]; intros [s w] H; [exact H|].
  apply IH. destruct e; cbn [split_act fst snd] in *; [by apply agree_turn|by apply agree_outbound].
Qed.

(** A captured packet is counted once, as sent or as failed. *)
Theorem outbound_counts_once packet s w s' w' :
  outbound_packet packet s w = (s', w', Some (Ok tt)) ->
  s_counters s' = counters_failed (s_counters s) \/ exists n, s_counters s' = counters_sent (s_counters s) n.
Proof.
  unfold outbound_packet. intros (s1 & w1 & r & H1 & H)%lbind_inv. unfold split_encode_ip in H1.
  destruct (TunnelSender_encode_ip_into _ _ _) as [x r']. inversion H1; subst; clear H1.
  assert (Hc : s_counters (with_sender s x) = s_counters s) by by destruct s.
  destruct r as [encrypted|e|]; [| |discriminate].
  2:{ inversion H; subst. left. by destruct s. }
  apply lbind_inv in H as (s2 & w2 & wired & H2 & H).
  assert (s2 = with_sender s x) as ->.
  { revert H2. unfold catch, run_m. destruct (wire_encode _ _ _) as [w3 [[]|]]; by intros [= <- _ _]. }
  destruct wired as [datagram|e|]; [| |discriminate].
  2:{ inversion H; subst. left. by destruct s. }
  apply lbind_inv in H as (s3 & w3 & r & ->%run_m_inv & H).
  destruct r as [[]|e|]; [| |discriminate]; inversion H; subst.
  - right. exists (len datagram). by destruct s.
  - left. by destruct s.
Qed.

End Split.

(** ** Witnesses *)

Module ToySplit.
Import Toy ToyHandshake.

Definition toy_translation : Translation :=
  Translation_new (V4 (ipv4_new 192 168 1 5)) (V4 (ipv4_new 10 77 0 2)) (V4 (ipv4_new 10 77 0 1)) 1280.

Definition toy_split : Split :=
  mkSplit (mkTunnelReceiver 42 1280 toy_receiver) (mkTunnelSender 42 0 1280 (mkSendHalf 7 (zeros 32)) [])
    toy_translation ∅ (for_inbound 3 0) (Liveness.new 0) (Diagnostics.start None 0) counters_default [].

(** A UDP packet of 28 bytes for the tunnel address. *)
Definition toy_reply : bytes :=
  [69; 0; 0; 28; 0; 0; 0; 0; 64; 17; 0; 0; 1; 1; 1; 1; 10; 77; 0; 2; 0; 53; 200; 0; 0; 8; 0; 0].

Definition toy_delivered : bytes :=
  [69; 0; 0; 28; 0; 0; 0; 0; 64; 17; 0; 0; 1; 1; 1; 1; 192; 168; 1; 5; 0; 53; 200; 0; 0; 8; 0; 0].

Definition toy_wrapped : bytes :=
  Datagram.encode (Datagram.mk (Header.mk PacketKind.Data 0 42 0) ((1 :: toy_reply) ++ toy_tag 7 0 (1 :: toy_reply))).

Definition toy_checksums (b : bytes) (a : Address) : bytes * Address * bool := (b, a, true).
Definition toy_accepts (t : list io) (b : bytes) (a : Address) : bool := true.

(** Half a second per interaction, and the same answer for ever. *)
Definition split_tape (i : nat) : moment :=
  mkMoment (500 * Z.of_nat i) (Some 0) (Some (replicate 45 7)) [] (Ok 41) (Ok toy_wrapped) (Ok []) (Ok tt).

Definition toy_network (i : nat) : Ipv4Addr * Z := (ipv4_new 192 168 1 5, 3).

Lemma toy_sequence parsed :
  (unwrap split_tape toy_wrapped toy_split before).2 = Some (Ok (Some parsed)) -> 0 <= Header.sequence (Datagram.header parsed).
Proof.
  assert (H : match (unwrap split_tape toy_wrapped toy_split before).2 with
    | Some (Ok (Some p)) => 0 <=? Header.sequence (Datagram.header p) | _ => true end = true) by (vm_compute; reflexivity).
  intros E. rewrite E in H. lia.
Qed.

Lemma only_authentic_packets_are_injected_witness :
  let s' := (split_deliver toy_checksums toy_accepts split_tape toy_wrapped toy_split before).1.1 in
  s_trace s' = [Send toy_delivered (for_inbound 3 0) true] /\
  exists parsed plaintext, authentic toy_split ReplaySpec.empty parsed plaintext.
Proof.
  intros s'. assert (Ht : s_trace s' = [Send toy_delivered (for_inbound 3 0) true]) by (vm_compute; reflexivity).
  split; [exact Ht|].
  destruct (only_authentic_packets_are_injected toy_checksums toy_accepts split_tape toy_wrapped toy_split before
    ReplaySpec.empty represents_default toy_sequence) as [_ [[H _]|(parsed & plaintext & _ & Ha & _)]].
  - fold s' in H. rewrite Ht in H. discriminate H.
  - exists parsed, plaintext. exact Ha.
Defined.

Definition toy_activities : list split_activity := [Turn 60; Outbound toy_reply; Turn 60; Turn 60].

Definition toy_after : Split := (split_run toy_checksums toy_accepts split_tape toy_network config toy_activities (toy_split, before)).1.

Lemma halves_and_translation_agree_witness :
  agree toy_split /\ agree toy_after /\ c_packets (s_counters toy_after) + c_failed (s_counters toy_after) = 1.
Proof.
  assert (H : agree toy_split) by (repeat split). split; [exact H|]. split.
  - unfold toy_after. exact (halves_and_translation_agree toy_checksums toy_accepts split_tape toy_network config toy_activities toy_split before H).
  - vm_compute. reflexivity.
Defined.

End ToySplit.
