(* ===== verification/Android.v ===== *)
(** * The Android client

    crates/android-native/src: session.rs (the receive loop, which owns the state of the
    session, and the send thread), handshake.rs and registry.rs (the handles the
    application holds).

    The loop runs on the tape of Handshake.v; [cancelled] is the stop flag as it is read
    during a handshake.  Errors of [anyhow] are not told apart: a constructor of
    [ClientError] stands for them.  The wake event only interrupts waiting and has no
    state here.

    The theorems: uploads are paused exactly while a reconnect is due; reconnect attempts
    are paced; the handles of sessions. *)

From S2P Require Import Prelude Protocol Replay Crypto ToyCrypto DataPlane Morph Speedy Config ClientWire Handshake Effects.

Definition KEEPALIVE : Z := 10000.
Definition SESSION_TIMEOUT : Z := 20000.
Definition MIN_RECONNECT_RETRY : Z := 1000.
Definition MAX_RECONNECT_RETRY : Z := 16000.
Definition UDP_BATCH_SIZE : Z := 32.

(** ** Errors *)

Definition peer_unavailable (e : IoError) : bool :=
  bool_decide (kind e ∈ [ErrorKind.ConnectionRefused; ErrorKind.ConnectionReset; ErrorKind.NotConnected;
    ErrorKind.NetworkUnreachable; ErrorKind.HostUnreachable; ErrorKind.AddrNotAvailable]).

Definition is_poll_event (e : IoError) : bool :=
  bool_decide (kind e ∈ [ErrorKind.TimedOut; ErrorKind.WouldBlock; ErrorKind.Interrupted]).

Definition is_transient_send (e : IoError) : bool :=
  is_poll_event e || bool_decide (raw_os_error e = Some ENOBUFS \/ raw_os_error e = Some ENOMEM).

(** ** Metrics *)

Inductive counter :=
| PacketsSent | BytesSent | PacketsReceived | BytesReceived | TunDrops | UdpSendDrops | Reconnects | LastReconnectMs
| NetworkChanges | SessionTimeouts | PeerUnreachable | ReconnectFailures | MigrationReceiveFailures | MigrationWireFailures
| MigrationDatagramFailures | MigrationInnerFailures | MigrationSuccesses | InvalidDatagrams | KeepalivesSent
| KeepaliveResponses | LastKeepaliveRttMs | MaxKeepaliveRttMs.

#[global] Instance counter_eq_dec : EqDecision counter.
Proof. solve_decision. Defined.

Definition metrics := counter -> Z.

Definition store (m : metrics) (c : counter) (v : Z) : metrics := fun c' => if decide (c' = c) then v else m c'.
Definition add (m : metrics) (c : counter) (n : Z) : metrics := store m c (wrap64 (m c + n)).

(** ** The session *)

Section Android.
Context `{N : Noise, P : Primitives}.

(** [RunContext], [OutboundState] and [IncomingLoop]; the packets written to the TUN. *)
Record Android := mkAndroid {
  a_receiver : TunnelReceiver;
  a_sender : TunnelSender;
  a_stopping : bool;
  a_reconnecting : bool;
  a_requested : bool;
  a_changed : bool;
  a_metrics : metrics;
  a_last_sent : Z;
  a_keepalive_at : option Z;
  a_last_received : Z;
  a_next_reconnect : Z;
  a_backoff : Z;
  a_needed : bool;
  a_delivered : list bytes;
}.

Definition put_receiver (v : TunnelReceiver) (s : Android) : Android :=
  let 'mkAndroid _ x1 x2 x3 x4 x5 x6 x7 x8 x9 x10 x11 x12 x13 := s in mkAndroid v x1 x2 x3 x4 x5 x6 x7 x8 x9 x10 x11 x12 x13.
Definition put_sender (v : TunnelSender) (s : Android) : Android :=
  let 'mkAndroid x0 _ x2 x3 x4 x5 x6 x7 x8 x9 x10 x11 x12 x13 := s in mkAndroid x0 v x2 x3 x4 x5 x6 x7 x8 x9 x10 x11 x12 x13.
Definition put_stopping (v : bool) (s : Android) : Android :=
  let 'mkAndroid x0 x1 _ x3 x4 x5 x6 x7 x8 x9 x10 x11 x12 x13 := s in mkAndroid x0 x1 v x3 x4 x5 x6 x7 x8 x9 x10 x11 x12 x13.
Definition put_reconnecting (v : bool) (s : Android) : Android :=
  let 'mkAndroid x0 x1 x2 _ x4 x5 x6 x7 x8 x9 x10 x11 x12 x13 := s in mkAndroid x0 x1 x2 v x4 x5 x6 x7 x8 x9 x10 x11 x12 x13.
Definition put_requested (v : bool) (s : Android) : Android :=
  let 'mkAndroid x0 x1 x2 x3 _ x5 x6 x7 x8 x9 x10 x11 x12 x13 := s in mkAndroid x0 x1 x2 x3 v x5 x6 x7 x8 x9 x10 x11 x12 x13.
Definition put_changed (v : bool) (s : Android) : Android :=
  let 'mkAndroid x0 x1 x2 x3 x4 _ x6 x7 x8 x9 x10 x11 x12 x13 := s in mkAndroid x0 x1 x2 x3 x4 v x6 x7 x8 x9 x10 x11 x12 x13.
Definition put_metrics (v : metrics) (s : Android) : Android :=
  let 'mkAndroid x0 x1 x2 x3 x4 x5 _ x7 x8 x9 x10 x11 x12 x13 := s in mkAndroid x0 x1 x2 x3 x4 x5 v x7 x8 x9 x10 x11 x12 x13.
Definition put_last_sent (v : Z) (s : Android) : Android :=
  let 'mkAndroid x0 x1 x2 x3 x4 x5 x6 _ x8 x9 x10 x11 x12 x13 := s in mkAndroid x0 x1 x2 x3 x4 x5 x6 v x8 x9 x10 x11 x12 x13.
Definition put_keepalive_at (v : option Z) (s : Android) : Android :=
  let 'mkAndroid x0 x1 x2 x3 x4 x5 x6 x7 _ x9 x10 x11 x12 x13 := s in mkAndroid x0 x1 x2 x3 x4 x5 x6 x7 v x9 x10 x11 x12 x13.
Definition put_last_received (v : Z) (s : Android) : Android :=
  let 'mkAndroid x0 x1 x2 x3 x4 x5 x6 x7 x8 _ x10 x11 x12 x13 := s in mkAndroid x0 x1 x2 x3 x4 x5 x6 x7 x8 v x10 x11 x12 x13.
Definition put_next_reconnect (v : Z) (s : Android) : Android :=
  let 'mkAndroid x0 x1 x2 x3 x4 x5 x6 x7 x8 x9 _ x11 x12 x13 := s in mkAndroid x0 x1 x2 x3 x4 x5 x6 x7 x8 x9 v x11 x12 x13.
Definition put_backoff (v : Z) (s : Android) : Android :=
  let 'mkAndroid x0 x1 x2 x3 x4 x5 x6 x7 x8 x9 x10 _ x12 x13 := s in mkAndroid x0 x1 x2 x3 x4 x5 x6 x7 x8 x9 x10 v x12 x13.
Definition put_needed (v : bool) (s : Android) : Android :=
  let 'mkAndroid x0 x1 x2 x3 x4 x5 x6 x7 x8 x9 x10 x11 _ x13 := s in mkAndroid x0 x1 x2 x3 x4 x5 x6 x7 x8 x9 x10 x11 v x13.
Definition put_delivered (v : list bytes) (s : Android) : Android :=
  let 'mkAndroid x0 x1 x2 x3 x4 x5 x6 x7 x8 x9 x10 x11 x12 _ := s in mkAndroid x0 x1 x2 x3 x4 x5 x6 x7 x8 x9 x10 x11 x12 v.

Context (tape : nat -> moment) (cancelled : nat -> bool) (config : ValidatedClientConfig) (parameters : SessionParameters.t).

Abbreviation L := (Effects.L Android) (only parsing).
Notation "x <- m ; k" := (lbind m (fun x => k)) (at level 100, m at next level, right associativity).

Definition count (c : counter) (n : Z) : L unit := modify (fun s => put_metrics (add (a_metrics s) c n) s).

(** ** The handshake *)

Fixpoint android_await (fuel : nat) (session_id : Z) (handshake : HandshakeState) (request : bytes)
    (deadline next_retransmit : Z) : M (TunnelDataPlane * SessionParameters.t) :=
  match fuel with
  | O => fun w => (w, None)
  | S fuel =>
      bind (fun w => (w, Some (Ok (cancelled (pos w))))) (fun stop =>
      if stop : bool then throw ClientError.WorkerStopped
      else
      bind (read_clock tape) (fun now =>
      if deadline <=? now then throw ClientError.HandshakeTimeout
      else
        bind (if next_retransmit <=? now
              then bind (send_request tape is_retryable request) (fun _ => ret (now + HANDSHAKE_RETRANSMIT))
              else ret next_retransmit) (fun next_retransmit =>
        bind (socket_call tape) (fun _ =>
        bind (receive_datagram tape) (fun r =>
          match r with
          | Err e =>
              if is_retryable e then android_await fuel session_id handshake request deadline next_retransmit
              else throw (ClientError.Io e)
          | Panic => lift Panic
          | Ok datagram =>
              bind (wire_decode tape datagram) (fun r =>
                match response_of session_id r with
                | None => android_await fuel session_id handshake request deadline next_retransmit
                | Some payload => lift (accept ClientError.InvalidHandshakeResponse session_id handshake payload)
                end)
          end)))))
  end.

Definition renegotiate (fuel : nat) : M (TunnelDataPlane * SessionParameters.t) :=
  bind (prepare_request tape ClientError.Random config) (fun '(session_id, handshake, request) =>
  bind (read_clock tape) (fun started =>
  bind (send_prelude tape) (fun _ =>
  bind (send_request tape is_retryable request) (fun _ =>
  android_await fuel session_id handshake request (started + HANDSHAKE_TIMEOUT) (started + HANDSHAKE_RETRANSMIT))))).

(** [reconnect]: bind, protect, connect, negotiate. *)
Definition android_reconnect (fuel : nat) : L (TunnelDataPlane * SessionParameters.t) :=
  _ <- socket tape;
  _ <- socket tape;
  _ <- socket tape;
  run_m (renegotiate fuel).

(** ** Receiving *)

(** [write_packet_nonblocking]: [true] when the packet was written; an interrupted write
    is tried again, which fuel bounds. *)
Fixpoint write_packet (fuel : nat) (packet : bytes) : L bool :=
  match fuel with
  | O => fun s w => (s, w, None)
  | S fuel =>
      m <- run_m (moment_at tape);
      match m_sent m with
      | Ok length =>
          if length =? 0 then lthrow ClientError.Platform
          else if length =? len packet then _ <- modify (fun s => put_delivered (a_delivered s ++ [packet]) s); lret true
          else lthrow ClientError.Platform
      | Err e =>
          if bool_decide (kind e = ErrorKind.Interrupted) then write_packet fuel packet
          else if bool_decide (kind e = ErrorKind.WouldBlock) then lret false
          else lthrow (ClientError.Io e)
      | Panic => lres Panic
      end
  end.

Definition android_decode (parsed : Datagram.t) : L (res DataPlaneError.t Decoded) := fun s w =>
  let '(receiver, r) := TunnelReceiver_decode_into (a_receiver s) parsed in
  (put_receiver receiver s, w, Some (Ok r)).

Definition process_received (fuel : nat) (packet : bytes) : L unit :=
  parsed <- unwrap tape packet;
  match parsed with
  | None => count InvalidDatagrams 1
  | Some parsed =>
      r <- android_decode parsed;
      match r with
      | Ok (Ip packet) =>
          now <- clock tape;
          _ <- modify (put_last_received now);
          _ <- count PacketsReceived 1;
          _ <- count BytesReceived (len packet);
          written <- write_packet fuel packet;
          if written : bool then lret tt else count TunDrops 1
      | Ok Keepalive =>
          now <- clock tape;
          _ <- modify (put_last_received now);
          at_ <- gets a_keepalive_at;
          _ <- modify (put_keepalive_at None);
          match at_ with
          | None => lret tt
          | Some sent_at =>
              now <- clock tape;
              let rtt := Z.min (duration_since now sent_at) u64_max in
              _ <- count KeepaliveResponses 1;
              modify (fun s =>
                let m := store (a_metrics s) LastKeepaliveRttMs rtt in
                put_metrics (store m MaxKeepaliveRttMs (Z.max (m MaxKeepaliveRttMs) rtt)) s)
          end
      | Err _ => count InvalidDatagrams 1
      | Panic => lres Panic
      end
  end.

Fixpoint process_batch (fuel : nat) (packets : list bytes) : L unit :=
  match packets with
  | [] => lret tt
  | p :: packets => _ <- process_received fuel p; process_batch fuel packets
  end.

(** The peer is unreachable: counted when it is news. *)
Definition need_reconnect : L unit :=
  modify (fun s =>
    let s := if a_needed s then s else put_metrics (add (a_metrics s) PeerUnreachable 1) s in
    put_needed true s).

Definition android_encode_keepalive : L bytes := fun s w =>
  let '(sender, r) := TunnelSender_encode_keepalive_into (a_sender s) [] in
  (put_sender sender s, w, Some (map_err ClientError.DataPlane r)).

Definition android_send_keepalive : L unit :=
  keepalive <- android_encode_keepalive;
  wired <- run_m (wire_encode tape keepalive);
  r <- run_m (send_datagram tape wired);
  match r with
  | Ok _ =>
      now <- clock tape;
      _ <- modify (fun s => put_keepalive_at (Some now) (put_last_sent now s));
      count KeepalivesSent 1
  | Err e =>
      if peer_unavailable e
      then _ <- need_reconnect; now <- clock tape; modify (fun s => put_keepalive_at None (put_last_sent now s))
      else if is_transient_send e then now <- clock tape; modify (fun s => put_keepalive_at None (put_last_sent now s))
      else lthrow (ClientError.Io e)
  | Panic => lres Panic
  end.

(** ** Reconnecting *)

Definition update_reconnect_state : L unit :=
  now <- clock tape;
  _ <- modify (fun s =>
         if a_requested s then put_next_reconnect now (put_needed true (put_requested false s)) else s);
  now <- clock tape;
  _ <- modify (fun s =>
         if (SESSION_TIMEOUT <=? duration_since now (a_last_received s)) && negb (a_needed s)
         then put_needed true (put_metrics (add (a_metrics s) SessionTimeouts 1) s) else s);
  modify (fun s => if a_needed s then put_reconnecting true s else s).

Definition record_reconnect_duration (started : Z) : L unit :=
  now <- clock tape;
  modify (fun s => put_metrics (store (a_metrics s) LastReconnectMs (Z.min (duration_since now started) u64_max)) s).

Definition finish_reconnect (started : Z) : L unit :=
  _ <- record_reconnect_duration started;
  modify (put_reconnecting false).

Definition install_replacement (plane : TunnelDataPlane) : L unit :=
  _ <- socket tape;
  _ <- modify (fun s => put_receiver (TunnelDataPlane_split plane).2 s);
  _ <- socket tape;
  _ <- modify (fun s => put_sender (TunnelDataPlane_split plane).1 s);
  now <- clock tape;
  modify (fun s =>
    put_backoff MIN_RECONNECT_RETRY (put_needed false (put_keepalive_at None (put_last_sent now (put_last_received now s))))).

Definition try_reconnect (fuel : nat) : L unit :=
  started <- clock tape;
  _ <- count Reconnects 1;
  result <- catch (android_reconnect fuel);
  match result with
  | Ok (plane, replacement) =>
      if bool_decide (replacement = parameters)
      then
        installed <- catch (install_replacement plane);
        _ <- finish_reconnect started;
        lres installed
      else
        _ <- modify (put_changed true);
        _ <- modify (put_stopping true);
        finish_reconnect started
  | _ =>
      _ <- count ReconnectFailures 1;
      now <- clock tape;
      _ <- modify (fun s => put_backoff (Z.min (a_backoff s * 2) MAX_RECONNECT_RETRY) (put_next_reconnect (now + a_backoff s) s));
      record_reconnect_duration started
  end.

(** The iteration of [IncomingLoop::run] up to the keepalive. *)
Definition receive_turn (fuel : nat) : L unit :=
  m <- run_m (moment_at tape);
  _ <- match receive_batch_with UDP_BATCH_SIZE (m_batch m) with
       | Ok packets => process_batch fuel packets
       | Err e =>
           if is_poll_event e then lret tt
           else if peer_unavailable e then need_reconnect
           else lthrow (ClientError.Io e)
       | Panic => lres Panic
       end;
  now <- clock tape;
  last_sent <- gets a_last_sent;
  if KEEPALIVE <=? duration_since now last_sent then android_send_keepalive else lret tt.

(** One iteration. *)
Definition android_turn (fuel : nat) : L unit :=
  _ <- receive_turn fuel;
  _ <- update_reconnect_state;
  needed <- gets a_needed;
  if needed : bool
  then
    now <- clock tape;
    next <- gets a_next_reconnect;
    if next <=? now then try_reconnect fuel else lret tt
  else lret tt.

(** ** The send thread *)

Fixpoint read_tun (n : nat) : L (option (list bytes)) :=
  match n with
  | O => lret (Some [])
  | S n =>
      m <- run_m (moment_at tape);
      match m_arrival m with
      | Ok packet =>
          if bool_decide (packet = []) then lret None
          else rest <- read_tun n; lret (match rest with Some ps => Some (packet :: ps) | None => None end)
      | Err e =>
          if bool_decide (kind e = ErrorKind.WouldBlock \/ kind e = ErrorKind.Interrupted) then lret (Some [])
          else lthrow (ClientError.Io e)
      | Panic => lres Panic
      end
  end.

Definition android_encode_ip (packet : bytes) : L (res DataPlaneError.t bytes) := fun s w =>
  let '(sender, r) := TunnelSender_encode_ip_into (a_sender s) packet [] in
  (put_sender sender s, w, Some (Ok r)).

(** The datagrams and the lengths of their packets. *)
Fixpoint encode_batch (packets : list bytes) : L (list (bytes * Z)) :=
  match packets with
  | [] => lret []
  | p :: packets =>
      if match p with b :: _ => Z.shiftr b 4 =? 6 | [] => false end then encode_batch packets
      else
        r <- android_encode_ip p;
        match r with
        | Ok d => rest <- encode_batch packets; lret ((d, len p) :: rest)
        | Err _ => encode_batch packets
        | Panic => lres Panic
        end
  end.

Fixpoint wire_batch (datagrams : list bytes) : L (list bytes) :=
  match datagrams with
  | [] => lret []
  | d :: datagrams => x <- run_m (wire_encode tape d); rest <- wire_batch datagrams; lret (x :: rest)
  end.

(** The kernel takes at most what it was given, so that the lengths of a batch are those of
    the datagrams it took. *)
Definition record_outgoing_result (sent : res IoError Z) (datagrams : list (bytes * Z)) : L unit :=
  match sent with
  | Ok n =>
      if UDP_BATCH_SIZE <? n then lres Panic
      else
        _ <- count PacketsSent n;
        _ <- count BytesSent (foldr (fun d total => d.2 + total) 0 (take (Z.to_nat n) datagrams));
        count UdpSendDrops (sat_sub (len datagrams) n)
  | Err e =>
      if peer_unavailable e
      then modify (fun s => if a_requested s then s
                            else put_metrics (add (a_metrics s) PeerUnreachable 1) (put_requested true s))
      else if is_transient_send e then count UdpSendDrops (len datagrams)
      else lthrow (ClientError.Io e)
  | Panic => lres Panic
  end.

(** [wait_for_tun], given what [poll] says of the TUN; without [include_tun] its events are
    not asked for. *)
Definition wait_for_tun (polled : res ClientError.t bool) (include_tun : bool) : res ClientError.t bool :=
  (fun readable => include_tun && readable) <$> polled.

(** One iteration of [send_outgoing]; [false] when the TUN is at its end. *)
Definition outgoing (polled : res ClientError.t bool) : L bool :=
  paused <- gets a_reconnecting;
  tun_ready <- lres (wait_for_tun polled (negb paused));
  if negb tun_ready then lret true
  else
    packets <- read_tun (Z.to_nat UDP_BATCH_SIZE);
    match packets with
    | None => lret false
    | Some packets =>
        datagrams <- encode_batch packets;
        wired <- wire_batch (map fst datagrams);
        m <- run_m (moment_at tape);
        _ <- record_outgoing_result (send_batch_with (m_sent m) wired) datagrams;
        lret true
    end.

(** ** Handles *)

Record PendingSession := mkPending { p_plane : TunnelDataPlane; p_config : ValidatedClientConfig; p_parameters : SessionParameters.t }.

(** The flags of a running session are shared with its threads, and so is its state here;
    [alive] is false once [run] has returned. *)
Inductive Entry := Pending (session : PendingSession) | Running (session : Android) (alive : bool).

Record Handles := mkHandles { next_handle : Z; entries : gmap Z Entry }.

Definition handles_new : Handles := mkHandles 1 ∅.

Definition i64_max : Z := 2 ^ 63 - 1.

(** [AtomicI64::fetch_add] wraps. *)
Definition fetch_add_one (n : Z) : Z := (n + 1 + 2 ^ 63) mod 2 ^ 64 - 2 ^ 63.

Definition insert_pending (session : PendingSession) (h : Handles) : Handles * Z :=
  (mkHandles (fetch_add_one (next_handle h)) (<[next_handle h := Pending session]> (entries h)), next_handle h).

Inductive HandleError := UnknownHandle | AlreadyRunning | SpawnFailed.

Definition take_pending (handle : Z) (h : Handles) : Handles * res HandleError PendingSession :=
  match entries h !! handle with
  | None => (h, Err UnknownHandle)
  | Some entry =>
      let map := delete handle (entries h) in
      match entry with
      | Pending session => (mkHandles (next_handle h) map, Ok session)
      | Running session alive => (mkHandles (next_handle h) (<[handle := Running session alive]> map), Err AlreadyRunning)
      end
  end.

Definition insert_running (handle : Z) (session : Android) (h : Handles) : Handles :=
  mkHandles (next_handle h) (<[handle := Running session true]> (entries h)).

(** The state [spawn] and [run] start from, with the times of the three readings. *)
Definition session_start (plane : TunnelDataPlane) (sent received next : Z) : Android :=
  let '(sender, receiver) := TunnelDataPlane_split plane in
  mkAndroid receiver sender false false false false (fun _ => 0) sent None received next MIN_RECONNECT_RETRY false [].

(** [NativeBridge.start]; [spawned] is whether the descriptor, the event and the thread
    could be set up. *)
Definition start (handle : Z) (spawned : bool) (sent received next : Z) (h : Handles) : Handles * res HandleError unit :=
  let '(h, r) := take_pending handle h in
  match r with
  | Ok pending =>
      if spawned then (insert_running handle (session_start (p_plane pending) sent received next) h, Ok tt)
      else (h, Err SpawnFailed)
  | Err e => (h, Err e)
  | Panic => (h, Panic)
  end.

Definition network_changed (handle : Z) (h : Handles) : Handles :=
  match entries h !! handle with
  | Some (Running s alive) =>
      let s := put_requested true (put_metrics (add (a_metrics s) NetworkChanges 1) s) in
      mkHandles (next_handle h) (<[handle := Running s alive]> (entries h))
  | _ => h
  end.

Inductive Status := Prepared | ParametersChanged | Stopped | Reconnecting | IsRunning.

Definition status (handle : Z) (h : Handles) : Status :=
  match entries h !! handle with
  | Some (Pending _) => Prepared
  | Some (Running s alive) =>
      if a_changed s then ParametersChanged
      else if negb alive then Stopped
      else if a_reconnecting s then Reconnecting
      else IsRunning
  | None => Stopped
  end.

(** [stop] waits for the thread, whose state is gone when it returns. *)
Definition stop (handle : Z) (h : Handles) : Handles := mkHandles (next_handle h) (delete handle (entries h)).

(** What happens to the handles: the calls of the application, and a thread of a session
    that changes its state or ends. *)
Inductive handle_op :=
| DoPrepare (session : PendingSession)
| DoStart (handle : Z) (spawned : bool) (sent received next : Z)
| DoNetworkChanged (handle : Z)
| DoStop (handle : Z)
| DoThread (handle : Z) (turn : Android -> Android) (ends : bool).

Definition handle_step (h : Handles) (op : handle_op) : Handles :=
  match op with
  | DoPrepare session => (insert_pending session h).1
  | DoStart handle spawned sent received next => (start handle spawned sent received next h).1
  | DoNetworkChanged handle => network_changed handle h
  | DoStop handle => stop handle h
  | DoThread handle turn ends =>
      match entries h !! handle with
      | Some (Running s true) => mkHandles (next_handle h) (<[handle := Running (turn s) (negb ends)]> (entries h))
      | _ => h
      end
  end.

Definition handle_run (ops : list handle_op) (h : Handles) : Handles := foldl handle_step h ops.

(** Every handle was given out. *)
Definition handles_given (h : Handles) : Prop := forall k, is_Some (entries h !! k) -> 1 <= k < next_handle h.

(** ** Pausing and reconnecting *)

(** Uploads are only paused for a reconnect that is due. *)
Definition paused_for_reconnect (s : Android) : Prop := a_reconnecting s = true -> a_needed s = true.

(** A request is pending and [n] attempts have been counted. *)
Definition request_pending (n : Z) (s : Android) : Prop := a_requested s = true /\ a_metrics s Reconnects = n.

Section Keeps.
Context (I : Android -> Prop).
Hypothesis Hdelivered : forall s x, I s -> I (put_delivered x s).
Hypothesis Hreceiver : forall s x, I s -> I (put_receiver x s).
Hypothesis Hsender : forall s x, I s -> I (put_sender x s).
Hypothesis Hreceived : forall s x, I s -> I (put_last_received x s).
Hypothesis Hsent : forall s x, I s -> I (put_last_sent x s).
Hypothesis Hat : forall s x, I s -> I (put_keepalive_at x s).
Hypothesis Hneeded : forall s, I s -> I (put_needed true s).
Hypothesis Hmetrics : forall s m, m Reconnects = a_metrics s Reconnects -> I s -> I (put_metrics m s).

Ltac update := apply keeps_modify; intros; cbv zeta; repeat case_match;
  repeat first [assumption | apply Hdelivered | apply Hreceiver | apply Hsender | apply Hreceived | apply Hsent | apply Hat
    | apply Hneeded | apply Hmetrics; [done|] ].
Ltac steps := unfold count; repeat (keeps_step || update).

Lemma keeps_write fuel packet : keeps I (write_packet fuel packet).
Proof. induction fuel as [|fuel IH]; cbn [write_packet]; [by intros s w H|]. steps. Qed.
#[local] Hint Resolve keeps_write : keeps.

Lemma keeps_decode parsed : keeps I (android_decode parsed).
Proof. intros s w H. unfold android_decode. destruct (TunnelReceiver_decode_into _ _). by apply Hreceiver. Qed.
#[local] Hint Resolve keeps_decode : keeps.

Lemma keeps_process fuel packets : keeps I (process_batch fuel packets).
Proof.
  induction packets as [|p packets IH]; cbn [process_batch]; [steps|]. unfold process_received, clock. steps.
Qed.
#[local] Hint Resolve keeps_process : keeps.

Lemma keeps_keepalive : keeps I android_send_keepalive.
Proof.
  unfold android_send_keepalive. apply keeps_bind; [|intros; unfold need_reconnect, clock; steps].
  intros s w H. unfold android_encode_keepalive. destruct (TunnelSender_encode_keepalive_into _ _). by apply Hsender.
Qed.
#[local] Hint Resolve keeps_keepalive : keeps.

Lemma keeps_receive fuel : keeps I (receive_turn fuel).
Proof. unfold receive_turn, need_reconnect, clock. steps. Qed.

End Keeps.

Lemma receive_keeps_paused fuel : keeps paused_for_reconnect (receive_turn fuel).
Proof. apply keeps_receive; by intros []. Qed.

Lemma receive_keeps_request n fuel : keeps (request_pending n) (receive_turn fuel).
Proof.
  apply keeps_receive; try by intros []. intros [] m Hm [H1 H2]. unfold request_pending in *. cbn in *. by rewrite Hm.
Qed.

(** A handshake only touches the world. *)
Lemma android_reconnect_state fuel s w : (android_reconnect fuel s w).1.1 = s.
Proof.
  apply (keeps_bind (fun x => x = s)); [apply keeps_run|intros _|done].
  apply keeps_bind; [apply keeps_run|intros _]. apply keeps_bind; [apply keeps_run|intros _; apply keeps_run].
Qed.

(** The state of an iteration once the reconnect is known to be due or not. *)
Lemma update_spec s w :
  exists w' s', update_reconnect_state s w = (s', w', Some (Ok tt)) /\ (pos w < pos w')%nat /\
    (paused_for_reconnect s -> a_reconnecting s' = a_needed s') /\
    a_metrics s' Reconnects = a_metrics s Reconnects /\
    (a_requested s = true -> a_needed s' = true /\ a_next_reconnect s' = m_now (tape (pos w))).
Proof.
  unfold update_reconnect_state, lbind, clock, run_m, read_clock, bind, moment_at, ret, modify. cbn.
  eexists _, _. split; [reflexivity|]. split; [cbn; lia|].
  destruct s as [? ? stopping reconnecting requested ? m ? ? received ? ? needed ?]. unfold paused_for_reconnect.
  cbn. destruct requested, needed, reconnecting; cbn;
    repeat (case_match; cbn); (split; [intros Hp; first [done | by specialize (Hp eq_refl)]|]); by split.
Qed.

(** What an attempt leaves. *)
Definition attempted (s s' : Android) : Prop :=
  a_metrics s' Reconnects = wrap64 (a_metrics s Reconnects + 1) /\
  ((a_needed s' = false /\ a_reconnecting s' = false /\ a_backoff s' = MIN_RECONNECT_RETRY) \/
   (a_changed s' = true /\ a_stopping s' = true /\ a_reconnecting s' = false) \/
   (a_needed s' = a_needed s /\ a_reconnecting s' = a_reconnecting s /\
    a_sender s' = a_sender s /\ a_receiver s' = a_receiver s /\
    a_backoff s' = Z.min (a_backoff s * 2) MAX_RECONNECT_RETRY /\
    exists i, a_next_reconnect s' = m_now (tape i) + a_backoff s)).

Lemma catch_inv {A} (m : L A) s w s' w' a : catch m s w = (s', w', Some (Ok (Ok a))) -> m s w = (s', w', Some (Ok a)).
Proof. unfold catch. destruct (m s w) as [[s1 w1] [[]|]]; intros H; inversion H; by subst. Qed.

Lemma gets_inv {A} (f : Android -> A) s w s' w' a : gets f s w = (s', w', Some (Ok a)) -> s' = s /\ w' = w /\ a = f s.
Proof. intros H. by inversion H. Qed.

Lemma install_spec plane s w s' w' :
  install_replacement plane s w = (s', w', Some (Ok tt)) ->
  a_needed s' = false /\ a_backoff s' = MIN_RECONNECT_RETRY /\ a_metrics s' = a_metrics s /\
  (a_sender s', a_receiver s') = TunnelDataPlane_split plane.
Proof.
  unfold install_replacement. intros (s1 & w1 & [] & ->%run_m_inv & H)%lbind_inv.
  apply lbind_inv in H as (s2 & w2 & [] & H2 & H). inversion H2; subst; clear H2.
  apply lbind_inv in H as (s3 & w3 & [] & ->%run_m_inv & H).
  apply lbind_inv in H as (s4 & w4 & [] & H4 & H). inversion H4; subst; clear H4.
  apply lbind_inv in H as (s5 & w5 & now & ->%run_m_inv & H). inversion H; subst.
  destruct s. cbn. by split_and!.
Qed.

Lemma finish_reconnect_spec started s w s' w' :
  finish_reconnect started s w = (s', w', Some (Ok tt)) ->
  exists m, m Reconnects = a_metrics s Reconnects /\ s' = put_reconnecting false (put_metrics m s).
Proof.
  unfold finish_reconnect, record_reconnect_duration, lbind, clock, run_m, read_clock, bind, moment_at, ret, modify. cbn.
  intros [= <- _]. eexists. split; [|reflexivity]. done.
Qed.

Lemma failed_spec started s w s' w' :
  (_ <- count ReconnectFailures 1;
   now <- clock tape;
   _ <- modify (fun s => put_backoff (Z.min (a_backoff s * 2) MAX_RECONNECT_RETRY) (put_next_reconnect (now + a_backoff s) s));
   record_reconnect_duration started) s w = (s', w', Some (Ok tt)) ->
  exists m i, m Reconnects = a_metrics s Reconnects /\
    s' = put_metrics m (put_backoff (Z.min (a_backoff s * 2) MAX_RECONNECT_RETRY) (put_next_reconnect (m_now (tape i) + a_backoff s) s)).
Proof.
  unfold count, record_reconnect_duration, lbind, clock, run_m, read_clock, bind, moment_at, ret, modify. cbn.
  intros [= <- _]. destruct s. eexists _, (pos w). split; [|reflexivity]. done.
Qed.

Lemma try_reconnect_spec fuel s w s' w' :
  try_reconnect fuel s w = (s', w', Some (Ok tt)) -> attempted s s'.
Proof.
  unfold try_reconnect. intros (s1 & w1 & started & ->%run_m_inv & H)%lbind_inv.
  apply lbind_inv in H as (s2 & w2 & [] & H2 & H). unfold count, modify in H2. inversion H2; subst; clear H2.
  apply lbind_inv in H as (s3 & w3 & result & H3 & H).
  assert (s3 = put_metrics (add (a_metrics s) Reconnects 1) s) as ->.
  { unfold catch in H3. pose proof (android_reconnect_state fuel (put_metrics (add (a_metrics s) Reconnects 1) s) w2) as E.
    destruct (android_reconnect _ _ _) as [[s4 w4] [[|e|]|]]; cbn in E; inversion H3; by subst. }
  clear H3. destruct result as [[plane replacement]|e|].
  - case_bool_decide as Hp.
    + apply lbind_inv in H as (s4 & w4 & installed & H4 & H). apply lbind_inv in H as (s5 & w5 & [] & H5 & H).
      inversion H; subst; clear H. apply catch_inv, install_spec in H4. apply finish_reconnect_spec in H5 as (m & Hm & ->).
      destruct H4 as (H1 & H2 & H3 & _). split; [|left; by destruct s4].
      destruct s4; cbn in *. rewrite Hm, H3. by destruct s.
    + apply lbind_inv in H as (s4 & w4 & [] & H4 & H). inversion H4; subst; clear H4.
      apply lbind_inv in H as (s4 & w5 & [] & H4 & H). inversion H4; subst; clear H4.
      apply finish_reconnect_spec in H as (m & Hm & ->). split; [|right; left; by destruct s]. destruct s; cbn in *. by rewrite Hm.
  - apply failed_spec in H as (m & i & Hm & ->). split; [|right; right]; destruct s; cbn in *; [by rewrite Hm|].
    split_and!; try done. by exists i.
  - apply failed_spec in H as (m & i & Hm & ->). split; [|right; right]; destruct s; cbn in *; [by rewrite Hm|].
    split_and!; try done. by exists i.
Qed.

(** Pausing and reconnecting on Android.  Uploads are paused exactly while a reconnect
    is due: after every iteration of the receive loop the flag the send thread reads says
    whether one is, unless the server assigned new parameters, upon which the session
    stops with that status and uploads unpaused.  A change of network is acted on in the
    very next iteration, whatever backoff earlier failures have built up: if it ends well,
    exactly one attempt was made. *)
Theorem uploads_pause_while_reconnect_is_due fuel s w s' w' :
  (forall i j, (i <= j)%nat -> m_now (tape i) <= m_now (tape j)) ->
  paused_for_reconnect s -> android_turn fuel s w = (s', w', Some (Ok tt)) ->
  (a_reconnecting s' = a_needed s' \/ (a_changed s' = true /\ a_stopping s' = true /\ a_reconnecting s' = false)) /\
  (a_requested s = true -> a_metrics s' Reconnects = wrap64 (a_metrics s Reconnects + 1)).
Proof.
  intros Hclock Hs H. unfold android_turn in H. apply lbind_inv in H as (s1 & w1 & [] & H1 & H).
  pose proof (receive_keeps_paused fuel s w Hs) as Hp. rewrite H1 in Hp. cbn [fst] in Hp.
  assert (Hreq : a_requested s = true -> request_pending (a_metrics s Reconnects) s1).
  { intros Hr. pose proof (receive_keeps_request (a_metrics s Reconnects) fuel s w) as Hk. rewrite H1 in Hk. by apply Hk. }
  apply lbind_inv in H as (s2 & w2 & [] & H2 & H).
  destruct (update_spec s1 w1) as (w3 & s3 & E & Hpos & He & Hm & Hn). rewrite H2 in E. inversion E; subst s3 w3; clear E.
  specialize (He Hp). apply lbind_inv in H as (s3 & w3 & needed & (-> & -> & ->)%gets_inv & H).
  assert (Hdue : a_requested s = true ->
    a_metrics s2 Reconnects = a_metrics s Reconnects /\ a_needed s2 = true /\ a_next_reconnect s2 = m_now (tape (pos w1))).
  { intros Hr. destruct (Hreq Hr) as [Hr1 Hr2]. rewrite Hm, Hr2. split; [done|]. by apply Hn. }
  destruct (a_needed s2) eqn:En.
  2:{ inversion H; subst. rewrite En. split; [by left|]. intros Hr. by destruct (Hdue Hr) as (_ & ? & _). }
  apply lbind_inv in H as (s4 & w4 & now & H4 & H). pose proof (run_m_inv _ _ _ _ _ _ H4) as ->.
  assert (now = m_now (tape (pos w2))) as -> by (unfold clock, run_m in H4; cbn in H4; by inversion H4). clear H4.
  apply lbind_inv in H as (s5 & w5 & next & (-> & -> & ->)%gets_inv & H).
  destruct (Z.leb_spec (a_next_reconnect s2) (m_now (tape (pos w2)))) as [Hle|Hgt].
  - apply try_reconnect_spec in H as [Hc Ho]. split.
    + destruct Ho as [(-> & -> & _)|[Ho|(-> & -> & _)]]; [by left|by right|by left; rewrite En].
    + intros Hr. destruct (Hdue Hr) as (Hmet & _ & _). by rewrite Hc, Hmet.
  - inversion H; subst. rewrite En. split; [by left|]. intros Hr. destruct (Hdue Hr) as (_ & _ & Hnext).
    specialize (Hclock (pos w1) (pos w2) ltac:(lia)). lia.
Qed.

(** ** The life of a handle *)

(** [k]'s session is over: its handle was given out and names nothing. *)
Definition over (k : Z) (h : Handles) : Prop := k < next_handle h /\ entries h !! k = None.

Lemma fetch_add_one_ok n : 1 <= n < i64_max -> fetch_add_one n = n + 1.
Proof. unfold i64_max. intros H. unfold fetch_add_one. rewrite Z.mod_small by lia. lia. Qed.

(** Only preparing a session makes a handle name something new. *)
Lemma handle_step_new h op k :
  entries h !! k = None -> is_Some (entries (handle_step h op) !! k) -> exists session, op = DoPrepare session /\ k = next_handle h.
Proof.
  intros Hk [x Hx]. destruct op as [session|handle spawned sent received next|handle|handle|handle turn ends]; cbn in Hx.
  - exists session. split; [done|]. apply lookup_insert_Some in Hx as [[? _]|[_ ?]]; congruence.
  - unfold start, take_pending in Hx. destruct (entries h !! handle) as [[pending|s alive]|] eqn:E; [destruct spawned| |];
      cbn in Hx; simplify_map_eq.
  - unfold network_changed in Hx. destruct (entries h !! handle) as [[pending|s alive]|] eqn:E; cbn in Hx; simplify_map_eq.
  - apply lookup_delete_Some in Hx as [_ Hx]. congruence.
  - destruct (entries h !! handle) as [[pending|s []]|] eqn:E; cbn in Hx; simplify_map_eq.
Qed.

Lemma handle_step_next h op :
  1 <= next_handle h < i64_max ->
  next_handle (handle_step h op) = next_handle h + (if op is DoPrepare _ then 1 else 0).
Proof.
  intros Hn. destruct op as [session|handle spawned sent received next|handle|handle|handle turn ends]; cbn.
  - by apply fetch_add_one_ok.
  - unfold start, take_pending. repeat (case_match; simplify_eq; cbn); lia.
  - unfold network_changed. repeat case_match; cbn; lia.
  - lia.
  - repeat case_match; cbn; lia.
Qed.

Lemma over_step h op k : 1 <= next_handle h < i64_max -> over k h -> over k (handle_step h op).
Proof.
  intros Hn [Hk He]. split; [rewrite (handle_step_next _ _ Hn); destruct op; lia|].
  apply eq_None_not_Some. intros (session & _ & Hx)%handle_step_new; [lia|done].
Qed.

Lemma over_run ops h k : 1 <= next_handle h -> next_handle h + len ops <= i64_max -> over k h -> over k (handle_run ops h).
Proof.
  revert h. induction ops as [|op ops IH]; intros h H1 H2 Hk; [done|]. rewrite len_cons in H2. pose proof (len_nonneg ops).
  assert (Hn : 1 <= next_handle h < i64_max) by lia. pose proof (handle_step_next h op Hn) as Hs.
  apply IH; [destruct op; lia|destruct op; lia|by apply over_step].
Qed.

Lemma given_step h op : 1 <= next_handle h < i64_max -> handles_given h -> handles_given (handle_step h op).
Proof.
  intros Hn Hg k Hk. pose proof (handle_step_next h op Hn) as Hs. destruct (entries h !! k) as [e|] eqn:E.
  - specialize (Hg k ltac:(eauto)). destruct op; lia.
  - destruct (handle_step_new h op k E Hk) as (session & -> & ->). lia.
Qed.

Lemma given_run ops h :
  1 <= next_handle h -> next_handle h + len ops <= i64_max -> handles_given h ->
  handles_given (handle_run ops h) /\ 1 <= next_handle (handle_run ops h) <= next_handle h + len ops.
Proof.
  revert h. induction ops as [|op ops IH]; intros h H1 H2 Hg; [cbn; split; [done|unfold len; cbn; lia]|].
  rewrite len_cons in *. pose proof (len_nonneg ops).
  assert (Hn : 1 <= next_handle h < i64_max) by lia. pose proof (handle_step_next h op Hn) as Hs.
  destruct (IH (handle_step h op)) as [Hr Hb]; [destruct op; lia|destruct op; lia|by apply given_step|].
  split; [done|]. change (handle_run (op :: ops) h) with (handle_run ops (handle_step h op)). destruct op; lia.
Qed.

(** A handle names one session.  Whatever the application and the threads of the
    sessions have done, a session that is prepared next gets a handle that names nothing;
    and once a handle is stopped (or its start has failed) it is stopped for good: no later
    call, for this or any other handle, makes it name a session again, starting it fails,
    and a change of network leaves everything as it is.  (For as long as fewer than
    2^63 - 1 operations have been performed.) *)
Theorem handle_names_one_session ops later session k :
  let h := handle_run ops handles_new in
  len ops + len later < i64_max - 1 ->
  entries h !! (insert_pending session h).2 = None /\
  status (insert_pending session h).2 (insert_pending session h).1 = Prepared /\
  (is_Some (entries h !! k) ->
   let h' := handle_run later (stop k h) in
   status k h' = Stopped /\ network_changed k h' = h' /\
   forall spawned sent received next, start k spawned sent received next h' = (h', Err UnknownHandle)).
Proof.
  intros h Hl. pose proof (len_nonneg ops). pose proof (len_nonneg later).
  destruct (given_run ops handles_new) as [Hg Hb]; [done|cbn; lia|by intros k' [x Hx]|]. fold h in Hg, Hb. cbn in Hb.
  split_and!.
  - apply eq_None_not_Some. intros Hs. specialize (Hg _ Hs). cbn in Hg. lia.
  - unfold status, insert_pending. cbn. by rewrite lookup_insert_eq.
  - intros Hk. specialize (Hg k Hk). destruct (over_run later (stop k h) k) as [_ Ho]; [cbn; lia|cbn; lia| |].
    { split; [cbn; lia|]. apply lookup_delete_eq. }
    cbv zeta. split_and!.
    + unfold status. by rewrite Ho.
    + unfold network_changed. by rewrite Ho.
    + intros. unfold start, take_pending. by rewrite Ho.
Qed.

End Android.

(** ** A network change *)

Module ToyAndroid.
Import Toy ToyHandshake.

Definition toy_plane : TunnelDataPlane :=
  mkTunnelDataPlane 42 0 1280 (mkSecureSession 7 (ReplayWindow.default) (zeros 32)).

(** A session that was idle for a moment when the application reports a change of
    network, with the longest backoff still running. *)
Definition toy_android : Android :=
  put_requested true (put_backoff MAX_RECONNECT_RETRY (put_next_reconnect 1000000 (session_start toy_plane 0 0 0))).

Definition toy_assigned : SessionParameters.t := SessionParameters.mk (ipv4_new 10 77 0 2) 24 1280 (ipv4_new 10 77 0 1).

(** No batch brings anything; the server is silent or answers the handshake. *)
#[local] Abbreviation toy_after silent := (android_turn (tape silent) (fun _ => false) config toy_assigned 40 toy_android before).

Lemma clock_monotone silent i j : (i <= j)%nat -> m_now (tape silent i) <= m_now (tape silent j).
Proof. intros H. cbn. lia. Qed.

Lemma toy_after_ends silent : exists s w, toy_after silent = (s, w, Some (Ok tt)) /\ a_needed s = silent.
Proof.
  assert (H : (toy_after silent).2 = Some (Ok tt)) by (destruct silent; vm_compute; reflexivity).
  assert (Hn : a_needed (toy_after silent).1.1 = silent) by (destruct silent; vm_compute; reflexivity).
  destruct (toy_after silent) as [[s w] r]. cbn in H, Hn. subst r. by exists s, w.
Qed.

(** One attempt either way; uploads stay paused only when it failed. *)
Lemma uploads_pause_witness :
  (exists s w, toy_after true = (s, w, Some (Ok tt)) /\ a_needed s = true /\
   (a_reconnecting s = a_needed s \/ (a_changed s = true /\ a_stopping s = true /\ a_reconnecting s = false)) /\
   a_metrics s Reconnects = wrap64 (a_metrics toy_android Reconnects + 1)) /\
  (exists s w, toy_after false = (s, w, Some (Ok tt)) /\ a_needed s = false /\
   (a_reconnecting s = a_needed s \/ (a_changed s = true /\ a_stopping s = true /\ a_reconnecting s = false)) /\
   a_metrics s Reconnects = wrap64 (a_metrics toy_android Reconnects + 1)).
Proof.
  assert (Hp : paused_for_reconnect toy_android) by discriminate.
  split; [destruct (toy_after_ends true) as (s & w & E & Hn)|destruct (toy_after_ends false) as (s & w & E & Hn)].
  - destruct (uploads_pause_while_reconnect_is_due (tape true) (fun _ => false) config toy_assigned 40 toy_android before s w
      (clock_monotone true) Hp E) as [H1 H2].
    exact (ex_intro _ s (ex_intro _ w (conj E (conj Hn (conj H1 (H2 eq_refl)))))).
  - destruct (uploads_pause_while_reconnect_is_due (tape false) (fun _ => false) config toy_assigned 40 toy_android before s w
      (clock_monotone false) Hp E) as [H1 H2].
    exact (ex_intro _ s (ex_intro _ w (conj E (conj Hn (conj H1 (H2 eq_refl)))))).
Defined.

(** Two sessions; the first is stopped while the second runs. *)
Definition toy_ops : list handle_op :=
  [DoPrepare (mkPending toy_plane config toy_assigned); DoPrepare (mkPending toy_plane config toy_assigned);
   DoStart 1 true 0 0 0; DoStart 2 true 0 0 0; DoNetworkChanged 2].

Lemma handle_names_one_session_witness :
  status 1 (handle_run toy_ops handles_new) = IsRunning /\
  let h := handle_run [DoStart 1 true 0 0 0; DoPrepare (mkPending toy_plane config toy_assigned)]
             (stop 1 (handle_run toy_ops handles_new)) in
  status 1 h = Stopped /\ status 2 h = IsRunning /\ status 3 h = Prepared.
Proof.
  split; [reflexivity|]. cbv zeta. split; [|split; reflexivity].
  refine (proj1 (proj2 (proj2 (handle_names_one_session toy_ops _ (mkPending toy_plane config toy_assigned) 1 _)) _)).
  - reflexivity.
  - exact (ex_intro _ _ eq_refl).
Defined.

End ToyAndroid.
