(* ===== verification/WinNetwork.v ===== *)
(** * The network policy of the Windows client

    crates/windows-client/src/network.rs and netcfg.rs: the addresses, routes, resolver
    and firewall rules of a full tunnel, the journal that lets a later process undo them,
    and the recovery.

    What Windows keeps is the record [Machine]; what it answers to a call is a tape of
    replies.  A call that is not answered is one the process did not live to make: the
    computation ends there, with the machine as it is ([None]).  The other operations of
    the machine (PowerShell, netsh, the files) are calls in the same way; the texts of
    scripts are not modelled, except for the list of blocked prefixes.

    The theorems: what survives a process that dies at any point, and what recovery makes
    of it; the repair of routes; the blocked prefixes. *)

From S2P Require Import Prelude Protocol Replay Crypto DataPlane Morph Speedy Config ClientWire Handshake Effects Flow.

Definition ERROR_SUCCESS : Z := 0.
Definition ERROR_FILE_NOT_FOUND : Z := 2.
Definition ERROR_NOT_FOUND : Z := 1168.
Definition ERROR_OBJECT_ALREADY_EXISTS : Z := 5010.
Definition INTERFACE_READY_TIMEOUT : Z := 5000.
Definition ROUTE_METRIC : Z := 4242.
Definition TUNNEL_INTERFACE_METRIC : Z := 1.
Definition MIB_IPPROTO_NETMGMT : Z := 3.

Definition already_gone (status : Z) : bool := (status =? ERROR_NOT_FOUND) || (status =? ERROR_FILE_NOT_FOUND).

(** ** The machine *)

(** [MIB_IPFORWARD_ROW2] *)
Record Row := mkRow {
  row_luid : Z;
  row_index : Z;
  row_destination : Ipv4Addr;
  row_prefix : Z;
  row_next_hop : Ipv4Addr;
  row_metric : Z;
  row_protocol : Z;
}.

#[global] Instance Row_eq_dec : EqDecision Row.
Proof. solve_decision. Defined.

Record RecoveryState := mkRecovery { server_ip : Ipv4Addr; firewall_rules : bool }.

(** A file that parses as a journal, or one that does not. *)
Inductive file := Written (state : RecoveryState) | Unreadable.

(** [rules] says whether the firewall has any rule of MouseVPN's group, [kill_switch] whether
    the process holds the WFP session; [metric] is [None] when it is automatic. *)
Record Machine := mkMachine {
  routes : list Row;
  addresses : list (Z * Ipv4Addr * Z);
  dns : option Ipv4Addr;
  metric : option Z;
  tunnel : option Z;
  bound : bool;
  rules : bool;
  kill_switch : bool;
  journal : option file;
  temporary : option file;
}.

Definition put_routes (v : list Row) (s : Machine) : Machine :=
  let 'mkMachine _ a d m t b r k j f := s in mkMachine v a d m t b r k j f.
Definition put_addresses (v : list (Z * Ipv4Addr * Z)) (s : Machine) : Machine :=
  let 'mkMachine x _ d m t b r k j f := s in mkMachine x v d m t b r k j f.
Definition put_dns (v : option Ipv4Addr) (s : Machine) : Machine :=
  let 'mkMachine x a _ m t b r k j f := s in mkMachine x a v m t b r k j f.
Definition put_metric (v : option Z) (s : Machine) : Machine :=
  let 'mkMachine x a d _ t b r k j f := s in mkMachine x a d v t b r k j f.
Definition put_rules (v : bool) (s : Machine) : Machine :=
  let 'mkMachine x a d m t b _ k j f := s in mkMachine x a d m t b v k j f.
Definition put_kill_switch (v : bool) (s : Machine) : Machine :=
  let 'mkMachine x a d m t b r _ j f := s in mkMachine x a d m t b r v j f.
Definition put_journal (v : option file) (s : Machine) : Machine :=
  let 'mkMachine x a d m t b r k _ f := s in mkMachine x a d m t b r k v f.
Definition put_temporary (v : option file) (s : Machine) : Machine :=
  let 'mkMachine x a d m t b r k j _ := s in mkMachine x a d m t b r k j v.

(** An answer: a status, the error of a file operation, the clock, and whether rules are
    left after a script that failed or that installs them. *)
Record reply := mkReply { r_status : Z; r_io : option ErrorKind.t; r_now : Z; r_rules : bool }.

Section Calls.
Context {St : Type} (replies : nat -> option reply).

Definition call : Effects.L St reply := fun s w =>
  match replies (pos w) with
  | None => (s, w, None)
  | Some r => (s, mkWorld (S (pos w)) (sent w) (wire w), Some (Ok r))
  end.

(** A call that has [effect] when its status is success. *)
Definition win32 (effect : St -> St) : Effects.L St unit :=
  lbind call (fun r => if r_status r =? ERROR_SUCCESS then modify effect else lthrow ClientError.Platform).

Definition file_call (effect : St -> St) : Effects.L St unit :=
  lbind call (fun r =>
    match r_io r with
    | None => modify effect
    | Some kind => lthrow (ClientError.Io (mkIoError kind None))
    end).

Definition ignored (m : Effects.L St unit) : Effects.L St unit := lbind (catch m) (fun _ => lret tt).

Lemma keeps_call I : keeps I call.
Proof. intros s w H. unfold call. by destruct (replies (pos w)). Qed.

Lemma call_inv s w s' w' r : call s w = (s', w', Some (Ok r)) -> s' = s.
Proof. unfold call. destruct (replies (pos w)); by intros [= -> _ _]. Qed.

Lemma keeps_win32 I effect : (forall s, I s -> I (effect s)) -> keeps I (win32 effect).
Proof. intros He. unfold win32. apply keeps_bind; [apply keeps_call|]. intros r. destruct (_ =? _); [by apply keeps_modify|apply keeps_throw]. Qed.

Lemma keeps_file_call I effect : (forall s, I s -> I (effect s)) -> keeps I (file_call effect).
Proof. intros He. unfold file_call. apply keeps_bind; [apply keeps_call|]. intros r. destruct (r_io r); [apply keeps_throw|by apply keeps_modify]. Qed.

Lemma triple_call (I F : St -> Prop) : (forall s, I s -> F s) -> triple I call (fun _ => I) F.
Proof. intros HF s w H. unfold call. destruct (replies (pos w)); auto. Qed.

Lemma triple_file_call (I : St -> Prop) effect (Q : unit -> St -> Prop) (F : St -> Prop) :
  (forall s, I s -> Q tt (effect s)) -> (forall s, I s -> F s) -> triple I (file_call effect) Q F.
Proof.
  intros HQ HF. unfold file_call. eapply triple_bind; [by apply triple_call|]. intros r. destruct (r_io r); [by apply triple_throw|by apply triple_modify].
Qed.

Lemma triple_ignored (I : St -> Prop) m (F : St -> Prop) : triple I m (fun _ => F) F -> triple I (ignored m) (fun _ => F) F.
Proof.
  intros Hm. unfold ignored. eapply triple_bind; [by apply triple_catch|]. intros r. apply triple_ret. by destruct r.
Qed.

Lemma lbind_end {A B} (m : Effects.L St A) (k : A -> Effects.L St B) s w :
  (exists s1 w1 a, m s w = (s1, w1, Some (Ok a)) /\ lbind m k s w = k a s1 w1) \/
  (lbind m k s w).1.1 = (m s w).1.1.
Proof. unfold lbind. destruct (m s w) as [[s1 w1] [[a|e|]|]]; [left; eauto|by right..]. Qed.

Lemma catch_end {A} (m : Effects.L St A) s w : (catch m s w).1.1 = (m s w).1.1.
Proof. unfold catch. by destruct (m s w) as [[s1 w1] [[a|e|]|]]. Qed.

End Calls.

(** How a computation goes on, or does not. *)
Tactic Notation "split_bind" constr(s) constr(w) "as" simple_intropattern(p) :=
  match goal with |- context [lbind ?m ?k s w] => destruct (lbind_end m k s w) as p end.

Section Network.
Context (replies : nat -> option reply) (index_of : Z -> Z).

Abbreviation L := (Effects.L Machine) (only parsing).
Notation "x <- m ; k" := (lbind m (fun x => k)) (at level 100, m at next level, right associativity).

(** The scripts that install or refresh the rules may leave some behind when they fail. *)
Definition install_rules : L unit :=
  r <- call replies;
  _ <- modify (put_rules (r_rules r));
  if r_status r =? 0 then lret tt else lthrow ClientError.Platform.

Definition remove_rules : L unit :=
  r <- call replies;
  if r_status r =? 0 then modify (put_rules false)
  else _ <- modify (fun s => put_rules (rules s && r_rules r) s); lthrow ClientError.Platform.

(** ** netcfg.rs *)

Definition interface_luid : L Z :=
  t <- gets tunnel;
  match t with Some luid => lret luid | None => lthrow ClientError.Platform end.

Definition interface_exists : L bool :=
  r <- catch interface_luid;
  lret (is_ok r).

Definition interface_index (luid : Z) : L Z :=
  r <- call replies;
  if r_status r =? ERROR_SUCCESS then lret (index_of luid) else lthrow ClientError.Platform.

Definition forward_table : L (list Row) :=
  r <- call replies;
  if r_status r =? ERROR_SUCCESS then gets routes else lthrow ClientError.Platform.

Record DefaultRoute := mkDefault { default_luid : Z; default_index : Z; default_next_hop : Ipv4Addr }.

Fixpoint best_default (tunnel : option Z) (best : option (Z * DefaultRoute)) (rows : list Row) : option (Z * DefaultRoute) :=
  match rows with
  | [] => best
  | row :: rows =>
      if negb (row_prefix row =? 0) then best_default tunnel best rows
      else if (row_next_hop row =? 0) || bool_decide (tunnel = Some (row_luid row)) then best_default tunnel best rows
      else
        let better := match best with Some (m, _) => row_metric row <? m | None => true end in
        best_default tunnel
          (if better then Some (row_metric row, mkDefault (row_luid row) (row_index row) (row_next_hop row)) else best) rows
  end.

Definition default_ipv4_route (tunnel : option Z) : L DefaultRoute :=
  table <- forward_table;
  match best_default tunnel None table with
  | Some (_, route) => lret route
  | None => lthrow ClientError.Platform
  end.

(** *** Source addresses *)

Record PhysicalAddresses := mkPhysical { ipv4 : Ipv4Addr; ipv6 : option bytes }.

#[global] Instance PhysicalAddresses_eq_dec : EqDecision PhysicalAddresses.
Proof. solve_decision. Defined.

(** The address [GetBestRoute2] would send from, if it knows one. *)
Definition best_source_address_v4 (answer : option Ipv4Addr) : option Ipv4Addr :=
  match answer with Some a => if a =? 0 then None else Some a | None => None end.

Definition is_link_local_v6 (octets : bytes) : bool :=
  match octets with a :: b :: _ => (a =? 0xfe) && (Z.land b 0xc0 =? 0x80) | _ => false end.

(** The interface of the best IPv6 route and its source address. *)
Definition best_source_address_v6 (tunnel : option Z) (answer : option (Z * bytes)) : option bytes :=
  match answer with
  | None => None
  | Some (luid, address) =>
      if bool_decide (tunnel = Some luid) then None
      else if (be_value address =? 0) || is_link_local_v6 address then None
      else Some address
  end.

Definition physical_addresses (tunnel : option Z) (answer_v4 : Z -> Ipv4Addr -> option Ipv4Addr) (answer_v6 : option (Z * bytes)) : L PhysicalAddresses :=
  route <- default_ipv4_route tunnel;
  match best_source_address_v4 (answer_v4 (default_luid route) (default_next_hop route)) with
  | Some address => lret (mkPhysical address (best_source_address_v6 tunnel answer_v6))
  | None => lthrow ClientError.Platform
  end.

(** Deleting: a row that is already gone is not in the table. *)
Fixpoint delete_addresses (luid : Z) (rows : list (Z * Ipv4Addr * Z)) (failed : bool) : L bool :=
  match rows with
  | [] => lret failed
  | row :: rows =>
      if negb (row.1.1 =? luid) then delete_addresses luid rows failed
      else
        r <- call replies;
        if (r_status r =? ERROR_SUCCESS) || already_gone (r_status r)
        then
          _ <- modify (fun s => put_addresses (filter (fun a => a <> row) (addresses s)) s);
          delete_addresses luid rows failed
        else delete_addresses luid rows true
  end.

Definition clear_addresses (luid : Z) : L unit :=
  r <- call replies;
  if negb (r_status r =? ERROR_SUCCESS) then lthrow ClientError.Platform
  else
    table <- gets addresses;
    failed <- delete_addresses luid table false;
    if failed : bool then lthrow ClientError.Platform else lret tt.

Definition set_tunnel_address (luid : Z) (address : Ipv4Addr) (prefix_len : Z) : L unit :=
  _ <- clear_addresses luid;
  win32 replies (fun s => put_addresses (addresses s ++ [(luid, address, prefix_len)]) s).

Definition has_ipv4_binding : L bool := gets bound.

(** [polls] bounds the number of times the interface is asked for. *)
Fixpoint wait_polls (polls : nat) (deadline : Z) : L unit :=
  match polls with
  | O => fun s w => (s, w, None)
  | S polls =>
      r <- call replies;
      if r_status r =? ERROR_SUCCESS then lret tt
      else if negb (r_status r =? ERROR_NOT_FOUND) || (deadline <=? r_now r) then lthrow ClientError.Platform
      else wait_polls polls deadline
  end.

Definition wait_for_ipv4_interface (polls : nat) : L unit :=
  r <- call replies;
  wait_polls polls (r_now r + INTERFACE_READY_TIMEOUT).

Definition update_interface (edit : Machine -> Machine) : L unit :=
  r <- call replies;
  if negb (r_status r =? ERROR_SUCCESS) then lthrow ClientError.Platform else win32 replies edit.

Definition set_tunnel_metric : L unit := update_interface (put_metric (Some TUNNEL_INTERFACE_METRIC)).
Definition reset_tunnel_metric : L unit := update_interface (put_metric None).

(** Windows identifies a route by its interface, its prefix and its next hop. *)
Definition same_route (a b : Row) : bool :=
  bool_decide ((row_luid a, row_destination a, row_prefix a, row_next_hop a) =
               (row_luid b, row_destination b, row_prefix b, row_next_hop b)).

Definition add_route (luid : Z) (destination : Ipv4Addr) (prefix_len : Z) (next_hop : Ipv4Addr) : L unit :=
  let row := mkRow luid (index_of luid) destination prefix_len next_hop ROUTE_METRIC MIB_IPPROTO_NETMGMT in
  r <- call replies;
  present <- gets (fun s => existsb (same_route row) (routes s));
  let status := if present : bool then ERROR_OBJECT_ALREADY_EXISTS else r_status r in
  if status =? ERROR_SUCCESS then modify (fun s => put_routes (routes s ++ [row]) s)
  else if status =? ERROR_OBJECT_ALREADY_EXISTS then lret tt
  else lthrow ClientError.Platform.

Record OwnedRoute := mkOwned { o_destination : Ipv4Addr; o_prefix_len : Z; o_interface_index : Z; o_next_hop : Ipv4Addr }.

Definition owned_route (row : Row) : OwnedRoute :=
  mkOwned (row_destination row) (row_prefix row) (row_index row) (row_next_hop row).

Definition is_owned (row : Row) : bool := (row_metric row =? ROUTE_METRIC) && (row_protocol row =? MIB_IPPROTO_NETMGMT).

Definition owned_routes : L (list OwnedRoute) :=
  table <- forward_table;
  lret (map owned_route (filter is_owned table)).

Fixpoint delete_routes (selected : OwnedRoute -> bool) (rows : list Row) (failed : bool) : L bool :=
  match rows with
  | [] => lret failed
  | row :: rows =>
      if negb (is_owned row) || negb (selected (owned_route row)) then delete_routes selected rows failed
      else
        r <- call replies;
        if (r_status r =? ERROR_SUCCESS) || already_gone (r_status r)
        then
          _ <- modify (fun s => put_routes (filter (fun a => a <> row) (routes s)) s);
          delete_routes selected rows failed
        else delete_routes selected rows true
  end.

Definition remove_owned_routes (selected : OwnedRoute -> bool) : L unit :=
  table <- forward_table;
  failed <- delete_routes selected table false;
  if failed : bool then lthrow ClientError.Platform else lret tt.

(** netsh on the tunnel's interface. *)
Definition set_tunnel_dns (server : Ipv4Addr) : L unit := win32 replies (put_dns (Some server)).
Definition reset_tunnel_dns : L unit := win32 replies (put_dns None).

(** ** network.rs *)

Definition apply_parameters (tunnel : Z) (parameters : SessionParameters.t) : L unit :=
  _ <- set_tunnel_address tunnel (SessionParameters.client_address parameters) (SessionParameters.prefix_len parameters);
  set_tunnel_dns (SessionParameters.dns parameters).

Definition TUNNEL_HALVES : list Ipv4Addr := [0; ipv4_new 128 0 0 0].

Definition is_server_route (server_ip : Ipv4Addr) (route : OwnedRoute) : bool :=
  (o_destination route =? server_ip) && (o_prefix_len route =? 32).

Definition server_route_is_stale (routes : list OwnedRoute) (server_ip : Ipv4Addr) (index : Z) (next_hop : Ipv4Addr) : bool :=
  let found := filter (is_server_route server_ip) routes in
  let matching := filter (fun r => (o_interface_index r =? index) && (o_next_hop r =? next_hop)) found in
  negb (len found =? 1) || negb (len matching =? 1).

Fixpoint add_halves (tunnel : Z) (present : Ipv4Addr -> bool) (halves : list Ipv4Addr) : L unit :=
  match halves with
  | [] => lret tt
  | destination :: halves =>
      _ <- (if present destination then lret tt else add_route tunnel destination 1 0);
      add_halves tunnel present halves
  end.

Definition half_present (routes : list OwnedRoute) (index : Z) (destination : Ipv4Addr) : bool :=
  existsb (fun r => (o_destination r =? destination) && (o_prefix_len r =? 1) && (o_interface_index r =? index)) routes.

Definition repair_routes (tunnel : Z) (server_ip : Ipv4Addr) : L unit :=
  tunnel_index <- interface_index tunnel;
  default <- default_ipv4_route (Some tunnel);
  routes <- owned_routes;
  _ <- (if server_route_is_stale routes server_ip (default_index default) (default_next_hop default)
        then
          _ <- remove_owned_routes (is_server_route server_ip);
          add_route (default_luid default) server_ip 32 (default_next_hop default)
        else lret tt);
  add_halves tunnel (half_present routes tunnel_index) TUNNEL_HALVES.

(** [KillSwitch::install]: the handle of the session, when WFP takes the filters. *)
Definition fence (mode : AppRoutingMode.t) : L bool :=
  match mode with
  | AppRoutingMode.Exclude =>
      r <- call replies;
      if r_status r =? 0 then _ <- modify (put_kill_switch true); lret true
      else _ <- install_rules; lret false
  | AppRoutingMode.Include => _ <- install_rules; lret false
  end.

(** A kill switch that goes out of scope closes its session. *)
Definition drop_kill_switch (installed : bool) : L unit :=
  if installed then modify (put_kill_switch false) else lret tt.

(** An error drops what is in scope. *)
Definition guarded {A} (installed : bool) (m : L A) : L A :=
  r <- catch m;
  match r with
  | Ok a => lret a
  | Err e => _ <- drop_kill_switch installed; lthrow e
  | Panic => lres Panic
  end.

Definition install_policy (polls : nat) (server_ip : Ipv4Addr) (parameters : SessionParameters.t) (mode : AppRoutingMode.t) : L bool :=
  tunnel <- interface_luid;
  _ <- wait_for_ipv4_interface polls;
  kill_switch <- fence mode;
  _ <- guarded kill_switch (
    default <- default_ipv4_route (Some tunnel);
    _ <- apply_parameters tunnel parameters;
    _ <- set_tunnel_metric;
    _ <- add_route (default_luid default) server_ip 32 (default_next_hop default);
    add_halves tunnel (fun _ => false) TUNNEL_HALVES);
  lret kill_switch.

(** *** The journal *)

Definition replace_journal (state : RecoveryState) : L unit :=
  _ <- file_call replies (put_temporary (Some Unreadable));
  _ <- file_call replies (put_temporary (Some (Written state)));
  _ <- file_call replies (fun s => s);
  present <- gets journal;
  _ <- (match present with Some _ => file_call replies (put_journal None) | None => lret tt end);
  file_call replies (fun s => put_temporary None (put_journal (temporary s) s)).

Definition write_state (state : RecoveryState) : L unit :=
  r <- catch (replace_journal state);
  match r with
  | Ok _ => lret tt
  | Err e => _ <- ignored (file_call replies (put_temporary None)); lthrow e
  | Panic => lres Panic
  end.

Definition remove_journal : L unit := file_call replies (put_journal None).

(** *** Undoing *)

Definition collect (failures : Z) (m : L unit) : L Z :=
  r <- catch m;
  lret (if is_ok r then failures else failures + 1).

Definition cleanup (firewall_rules : bool) : L unit :=
  luid <- catch interface_luid;
  failures <- (match luid with
               | Ok tunnel =>
                   bound <- has_ipv4_binding;
                   if bound : bool
                   then
                     failures <- collect 0 reset_tunnel_dns;
                     failures <- collect failures reset_tunnel_metric;
                     collect failures (clear_addresses tunnel)
                   else lret 0
               | _ => lret 0
               end);
  failures <- collect failures (remove_owned_routes (fun _ => true));
  failures <- (if firewall_rules then collect failures remove_rules else lret failures);
  if failures =? 0 then lret tt else lthrow ClientError.Platform.

(** The journal goes when everything it stands for is gone. *)
Definition undo (firewall_rules : bool) : L unit :=
  cleaned <- catch (cleanup firewall_rules);
  if is_ok cleaned then ignored remove_journal else lret tt.

Definition read_state : L (option RecoveryState) :=
  r <- call replies;
  j <- gets journal;
  lret (match r_io r, j with None, Some (Written state) => Some state | _, _ => None end).

Definition recover_stale_state : L unit :=
  state <- read_state;
  match state with
  | Some state => _ <- cleanup (firewall_rules state); remove_journal
  | None =>
      present <- gets journal;
      match present with
      | Some _ => _ <- cleanup true; remove_journal
      | None =>
          exists_ <- interface_exists;
          if exists_ : bool then cleanup false else lret tt
      end
  end.

Definition repair : L unit :=
  _ <- cleanup true;
  present <- gets journal;
  match present with Some _ => remove_journal | None => lret tt end.

(** *** The guard *)

Record NetworkGuard := mkGuard {
  g_state : RecoveryState;
  g_parameters : SessionParameters.t;
  g_kill_switch : bool;
  g_app_bypass : bool;
}.

(** The end of [NetworkGuard::install], given what became of the policy. *)
Definition conclude_install (ip : Ipv4Addr) (parameters : SessionParameters.t) (app_bypass : bool) (r : res ClientError.t bool) : L NetworkGuard :=
  match r with
  | Err e =>
      _ <- undo true;
      lthrow e
  | Panic => lres Panic
  | Ok kill_switch =>
      let state := mkRecovery ip (negb kill_switch) in
      _ <- guarded kill_switch (write_state state);
      lret (mkGuard state parameters kill_switch app_bypass)
  end.

Definition install (polls : nat) (ip : Ipv4Addr) (parameters : SessionParameters.t) (mode : AppRoutingMode.t) (app_bypass : bool) : L NetworkGuard :=
  _ <- write_state (mkRecovery ip true);
  r <- catch (install_policy polls ip parameters mode);
  conclude_install ip parameters app_bypass r.

Definition update_parameters (guard : NetworkGuard) (parameters : SessionParameters.t) : L NetworkGuard :=
  if bool_decide (parameters = g_parameters guard) then lret guard
  else
    tunnel <- interface_luid;
    r <- catch (apply_parameters tunnel parameters);
    match r with
    | Ok _ => lret (mkGuard (g_state guard) parameters (g_kill_switch guard) (g_app_bypass guard))
    | Err _ => _ <- apply_parameters tunnel (g_parameters guard); lthrow ClientError.Platform
    | Panic => lres Panic
    end.

Definition refresh (guard : NetworkGuard) : L unit :=
  tunnel <- interface_luid;
  _ <- repair_routes tunnel (server_ip (g_state guard));
  _ <- (if negb (g_kill_switch guard) then install_rules else lret tt);
  if g_app_bypass guard then win32 replies (fun s => s) else lret tt.

(** [Drop for NetworkGuard], and then of its fields. *)
Definition drop_guard (guard : NetworkGuard) : L unit :=
  _ <- undo (firewall_rules (g_state guard));
  drop_kill_switch (g_kill_switch guard).

(** *** A session *)

Inductive action := Refresh | Update (parameters : SessionParameters.t).

(** The calls of the packet loop, which goes on when one of them fails. *)
Fixpoint live (actions : list action) (guard : NetworkGuard) : L NetworkGuard :=
  match actions with
  | [] => lret guard
  | Refresh :: actions => _ <- ignored (refresh guard); live actions guard
  | Update parameters :: actions =>
      r <- catch (update_parameters guard parameters);
      live actions (match r with Ok guard => guard | _ => guard end)
  end.

Definition session (polls : nat) (ip : Ipv4Addr) (parameters : SessionParameters.t) (mode : AppRoutingMode.t) (app_bypass : bool)
    (actions : list action) : L unit :=
  guard <- install polls ip parameters mode app_bypass;
  guard <- live actions guard;
  drop_guard guard.

End Network.

(** *** Blocked prefixes *)

(** One turn of the loop: the network of the server's first bits, and the prefixes so far. *)
Definition blocked_step (server : Z) (state : Z * list (Ipv4Addr * Z)) (prefix_len : Z) : Z * list (Ipv4Addr * Z) :=
  let '(server_network, prefixes) := state in
  let bit := Z.shiftl 1 (32 - prefix_len) in
  if Z.land server bit =? 0 then (server_network, prefixes ++ [(Z.lor server_network bit, prefix_len)])
  else (Z.lor server_network bit, prefixes ++ [(server_network, prefix_len)]).

Definition prefix_lens : list Z := map Z.of_nat (seq 1 32).

Definition blocked_ipv4_prefixes (server_ip : Ipv4Addr) : list (Ipv4Addr * Z) :=
  (foldl (blocked_step server_ip) (0, []) prefix_lens).2.

(** What the text of a prefix means. *)
Definition covers (address : Ipv4Addr) (prefix : Ipv4Addr * Z) : bool :=
  Z.shiftr address (32 - prefix.2) =? Z.shiftr prefix.1 (32 - prefix.2).

(** ** What the operations leave alone *)

(** The operations on the network do not touch the files. *)
Section Untouched.
Context (replies : nat -> option reply) (index_of : Z -> Z) (I : Machine -> Prop).
Hypothesis Hroutes : forall s x, I s -> I (put_routes x s).
Hypothesis Haddresses : forall s x, I s -> I (put_addresses x s).
Hypothesis Hdns : forall s x, I s -> I (put_dns x s).
Hypothesis Hmetric : forall s x, I s -> I (put_metric x s).
Hypothesis Hkill : forall s x, I s -> I (put_kill_switch x s).

Ltac update := apply keeps_modify; intros; auto.
Ltac steps := repeat (apply keeps_call || keeps_step || update).

Lemma keeps_delete_addresses luid rows failed : keeps I (delete_addresses replies luid rows failed).
Proof. revert failed. induction rows as [|row rows IH]; intros failed; cbn [delete_addresses]; steps. Qed.
#[local] Hint Resolve keeps_delete_addresses : keeps.

Lemma keeps_clear_addresses luid : keeps I (clear_addresses replies luid).
Proof. unfold clear_addresses. steps. Qed.
#[local] Hint Resolve keeps_clear_addresses : keeps.

Lemma keeps_delete_routes selected rows failed : keeps I (delete_routes replies selected rows failed).
Proof. revert failed. induction rows as [|row rows IH]; intros failed; cbn [delete_routes]; steps. Qed.
#[local] Hint Resolve keeps_delete_routes : keeps.

Lemma keeps_interface_luid : keeps I interface_luid.
Proof. unfold interface_luid. steps. Qed.
#[local] Hint Resolve keeps_interface_luid : keeps.

Lemma keeps_remove_owned_routes selected : keeps I (remove_owned_routes replies selected).
Proof. unfold remove_owned_routes, forward_table. steps. Qed.
#[local] Hint Resolve keeps_remove_owned_routes : keeps.

Lemma keeps_default_route tunnel : keeps I (default_ipv4_route replies tunnel).
Proof. unfold default_ipv4_route, forward_table. steps. Qed.
#[local] Hint Resolve keeps_default_route : keeps.

Lemma keeps_add_route luid destination prefix_len next_hop : keeps I (add_route replies index_of luid destination prefix_len next_hop).
Proof. unfold add_route. steps. Qed.
#[local] Hint Resolve keeps_add_route : keeps.

Lemma keeps_add_halves tunnel present halves : keeps I (add_halves replies index_of tunnel present halves).
Proof. induction halves as [|h halves IH]; cbn [add_halves]; steps. Qed.
#[local] Hint Resolve keeps_add_halves : keeps.

Lemma keeps_update_interface edit : (forall s, I s -> I (edit s)) -> keeps I (update_interface replies edit).
Proof. intros He. unfold update_interface, win32. steps. Qed.

Lemma keeps_apply_parameters tunnel parameters : keeps I (apply_parameters replies tunnel parameters).
Proof. unfold apply_parameters, set_tunnel_address, set_tunnel_dns, win32. steps. Qed.
#[local] Hint Resolve keeps_apply_parameters : keeps.

Lemma keeps_wait polls : keeps I (wait_for_ipv4_interface replies polls).
Proof.
  unfold wait_for_ipv4_interface. apply keeps_bind; [apply keeps_call|]. intros r. generalize (r_now r + INTERFACE_READY_TIMEOUT).
  induction polls as [|polls IH]; intros deadline; cbn [wait_polls]; [by intros s w|]. steps.
Qed.
#[local] Hint Resolve keeps_wait : keeps.

Lemma keeps_guarded {A} installed (m : Effects.L Machine A) : keeps I m -> keeps I (guarded installed m).
Proof. intros Hm. unfold guarded, drop_kill_switch. steps. Qed.

(** The part of [install_policy] behind the fence. *)
Lemma keeps_policy_rest tunnel server_ip parameters :
  keeps I (lbind (default_ipv4_route replies (Some tunnel)) (fun default =>
    lbind (apply_parameters replies tunnel parameters) (fun _ =>
    lbind (set_tunnel_metric replies) (fun _ =>
    lbind (add_route replies index_of (default_luid default) server_ip 32 (default_next_hop default)) (fun _ =>
    add_halves replies index_of tunnel (fun _ => false) TUNNEL_HALVES))))).
Proof. unfold set_tunnel_metric. repeat (apply keeps_update_interface; [auto|] || keeps_step); apply keeps_update_interface; auto. Qed.

(** Undoing the settings of the interface. *)
Lemma keeps_cleanup_settings (luid : res ClientError.t Z) :
  keeps I (match luid with
           | Ok tunnel =>
               lbind has_ipv4_binding (fun bound =>
               if bound : bool
               then lbind (collect 0 (reset_tunnel_dns replies)) (fun failures =>
                 lbind (collect failures (reset_tunnel_metric replies)) (fun failures =>
                 collect failures (clear_addresses replies tunnel)))
               else lret 0)
           | _ => lret 0
           end).
Proof.
  unfold has_ipv4_binding, collect, reset_tunnel_dns, reset_tunnel_metric.
  repeat (keeps_step || (apply keeps_win32; auto; fail) || (apply keeps_update_interface; auto; fail)).
Qed.

End Untouched.

(** ** Undoing *)

Section Undo.
Context (replies : nat -> option reply).

Lemma delete_routes_spec selected rows failed s w s' w' :
  delete_routes replies selected rows failed s w = (s', w', Some (Ok false)) ->
  failed = false /\ (forall row, row ∈ routes s' -> row ∈ routes s) /\
  (forall row, row ∈ rows -> is_owned row = true -> selected (owned_route row) = true -> row ∉ routes s').
Proof.
  revert failed s w. induction rows as [|row rows IH]; intros failed s w; cbn [delete_routes].
  { intros [= -> _ ->]. split; [done|]. split; [done|]. intros row Hr. by apply elem_of_nil in Hr. }
  destruct (negb (is_owned row) || negb (selected (owned_route row))) eqn:Hskip.
  { intros H. apply IH in H as (-> & Hsub & Hgone). split; [done|]. split; [done|].
    intros row' [->|Hr]%elem_of_cons Ho Hsel; [rewrite Ho, Hsel in Hskip; discriminate|by apply Hgone]. }
  intros H. apply lbind_inv in H as (s1 & w1 & r & ->%call_inv & H).
  destruct ((r_status r =? ERROR_SUCCESS) || already_gone (r_status r)).
  - apply lbind_inv in H as (s2 & w2 & [] & H2 & H). inversion H2; subst; clear H2.
    apply IH in H as (-> & Hsub & Hgone). split; [done|].
    assert (Hrow : forall x, x ∈ routes s' -> x <> row /\ x ∈ routes s).
    { intros x Hx. apply Hsub in Hx. destruct s. cbn in Hx. by apply list_elem_of_filter in Hx. }
    split; [intros x Hx; by apply Hrow|]. intros row' [->|Hr]%elem_of_cons Ho Hsel; [|by apply Hgone].
    intros Hx. by apply Hrow in Hx as [Hx _].
  - apply IH in H as (? & _). discriminate.
Qed.

(** A successful removal leaves no selected route. *)
Lemma remove_owned_routes_spec selected s w s' w' :
  remove_owned_routes replies selected s w = (s', w', Some (Ok tt)) ->
  (forall row, row ∈ routes s' -> row ∈ routes s) /\
  (forall row, row ∈ routes s' -> is_owned row = true -> selected (owned_route row) = false).
Proof.
  unfold remove_owned_routes, forward_table. intros H. apply lbind_inv in H as (s1 & w1 & table & H1 & H).
  apply lbind_inv in H1 as (s2 & w2 & r & ->%call_inv & H1). destruct (r_status r =? ERROR_SUCCESS); [|discriminate].
  inversion H1; subst; clear H1. apply lbind_inv in H as (s2 & w2' & failed & H2 & H).
  destruct failed; inversion H; subst; clear H. apply delete_routes_spec in H2 as (_ & Hsub & Hgone).
  split; [done|]. intros row Hr Ho. destruct (selected (owned_route row)) eqn:E; [|done]. by destruct (Hgone row (Hsub _ Hr) Ho E).
Qed.

(** What is undone and what is left when [cleanup] reports success. *)
Definition undone (s : Machine) : Prop := forall row, row ∈ routes s -> is_owned row = false.

Lemma collect_spec failures (m : Effects.L Machine unit) s w s' w' n :
  collect failures m s w = (s', w', Some (Ok n)) ->
  (n = failures /\ exists u, m s w = (s', w', Some (Ok u))) \/ n = failures + 1.
Proof.
  unfold collect, catch, lbind. destruct (m s w) as [[s1 w1] [[u|e|]|]]; intros H; inversion H; subst; [left|by right].
  split; [done|by exists u].
Qed.

Lemma cleanup_settings_nonneg (luid : res ClientError.t Z) s w s' w' n :
  (match luid with
   | Ok tunnel =>
       lbind has_ipv4_binding (fun bound =>
       if bound : bool
       then lbind (collect 0 (reset_tunnel_dns replies)) (fun failures =>
         lbind (collect failures (reset_tunnel_metric replies)) (fun failures =>
         collect failures (clear_addresses replies tunnel)))
       else lret 0)
   | _ => lret 0
   end) s w = (s', w', Some (Ok n)) -> 0 <= n.
Proof.
  destruct luid as [tunnel|e|]; [|by intros [= _ _ <-]..].
  intros H. apply lbind_inv in H as (s1 & w1 & b & _ & H). destruct b; [|by inversion H].
  apply lbind_inv in H as (s2 & w2 & n1 & H1 & H). apply lbind_inv in H as (s3 & w3 & n2 & H2 & H).
  apply collect_spec in H1 as [[-> _]| ->], H2 as [[-> _]| ->], H as [[-> _]| ->]; lia.
Qed.

Lemma cleanup_spec fr s w s' w' :
  cleanup replies fr s w = (s', w', Some (Ok tt)) ->
  undone s' /\ journal s' = journal s /\ rules s' = (if fr then false else rules s).
Proof.
  unfold cleanup. intros H. apply lbind_inv in H as (s1 & w1 & luid & H1 & H).
  assert (s1 = s) as ->.
  { unfold catch, interface_luid, lbind, gets in H1. destruct (tunnel s); inversion H1; by subst. }
  clear H1. apply lbind_inv in H as (s2 & w2 & n & H2 & H).
  pose proof (cleanup_settings_nonneg _ _ _ _ _ _ H2) as Hn.
  pose proof (keeps_cleanup_settings replies (fun x => journal x = journal s /\ rules x = rules s)
    ltac:(by intros []) ltac:(by intros []) ltac:(by intros []) luid s w1 (conj eq_refl eq_refl)) as Hk.
  rewrite H2 in Hk. destruct Hk as [Hj Hr]. clear H2.
  apply lbind_inv in H as (s3 & w3 & n3 & H3 & H). apply lbind_inv in H as (s4 & w4 & n4 & H4 & H).
  destruct (Z.eqb_spec n4 0) as [->|]; inversion H; subst; clear H.
  pose proof (keeps_remove_owned_routes replies (fun x => journal x = journal s /\ rules x = rules s)
    ltac:(by intros []) (fun _ => true) s2 w2 (conj Hj Hr)) as Hk.
  assert (n3 <= 0) as Hle.
  { destruct fr; [|by inversion H4; subst]. apply collect_spec in H4 as [[? _]|?]; lia. }
  apply collect_spec in H3 as [[-> [[] H3]]| ->]; [|lia]. rewrite H3 in Hk. destruct Hk as [Hj3 Hr3].
  apply remove_owned_routes_spec in H3 as [_ Hgone].
  assert (Hu : undone s3) by (intros row Hrow; destruct (is_owned row) eqn:E; [by specialize (Hgone row Hrow E)|done]).
  destruct fr; [|inversion H4; by subst].
  apply collect_spec in H4 as [[_ [[] H4]]|?]; [|lia].
  unfold remove_rules in H4. apply lbind_inv in H4 as (s5 & w5 & r & ->%call_inv & H4).
  destruct (r_status r =? 0).
  - inversion H4; subst. destruct s3. by split_and!.
  - apply lbind_inv in H4 as (? & ? & ? & _ & H4). discriminate.
Qed.

(** It does not touch the journal, and brings no rule. *)
Lemma keeps_cleanup fr j p : keeps (fun s => journal s = j /\ (p = false -> rules s = false)) (cleanup replies fr).
Proof.
  unfold cleanup, collect. apply keeps_bind; [apply keeps_catch, keeps_interface_luid|]. intros luid.
  apply keeps_bind; [apply keeps_cleanup_settings; by intros []|]. intros n.
  apply keeps_bind; [repeat keeps_step; apply keeps_remove_owned_routes; by intros []|]. intros n'.
  apply keeps_bind; [|intros; repeat keeps_step]. unfold remove_rules. repeat (apply keeps_call || keeps_step).
  all: apply keeps_modify; intros [] [Hj Hp]; split; [done|]; cbn in *; intros E; by rewrite ?(Hp E).
Qed.

End Undo.

(** ** The journal *)

(** What the journal promises: without one nothing is installed, and one that does not
    mention firewall rules is right about it. *)
Definition journaled (s : Machine) : Prop :=
  match journal s with
  | None => undone s /\ rules s = false
  | Some (Written state) => firewall_rules state = false -> rules s = false
  | Some Unreadable => True
  end.

(** The machine before a session: no journal, no route and no rule of MouseVPN. *)
Definition clean (s : Machine) : Prop := journal s = None /\ undone s /\ rules s = false.

(** Unless the journal is missing. *)
Definition no_journal_lost (s : Machine) : Prop := journal s <> None -> journaled s.

Section Journal.
Context (replies : nat -> option reply) (index_of : Z -> Z).

Ltac plain := repeat (apply keeps_call || (apply keeps_modify; by intros []) || keeps_step).

(** Writing a journal only concerns the files. *)
Lemma keeps_write_state I state :
  (forall s x, I s -> I (put_journal x s)) -> (forall s x, I s -> I (put_temporary x s)) -> keeps I (write_state replies state).
Proof.
  intros Hj Ht. unfold write_state, replace_journal, ignored.
  repeat (keeps_step || (apply keeps_file_call; intros; by auto)).
Qed.

(** Whatever happens to a write, the journal is the old one, the new one or missing; a
    successful one leaves the new one. *)
Definition journal_in (old : option file) (state : RecoveryState) (s : Machine) : Prop :=
  journal s = old \/ journal s = None \/ journal s = Some (Written state).

Lemma write_state_journal state s w :
  journal_in (journal s) state (write_state replies state s w).1.1 /\
  (forall s' w', write_state replies state s w = (s', w', Some (Ok tt)) -> journal s' = Some (Written state)).
Proof.
  unfold write_state, replace_journal, ignored, file_call, catch, lbind, call, gets, modify, lret, lthrow, journal_in.
  destruct s as [rt a d m t b r k j f]. cbn.
  repeat (case_match; cbn in *; simplify_eq; auto); split; intros; simplify_eq; auto.
Qed.

Lemma keeps_policy_journal polls ip parameters mode j :
  keeps (fun s => journal s = j) (install_policy replies index_of polls ip parameters mode).
Proof.
  unfold install_policy, fence, install_rules. apply keeps_bind; [apply keeps_interface_luid|]. intros tunnel.
  apply keeps_bind; [apply keeps_wait; by intros []|intros _]. apply keeps_bind; [plain|]. intros kill_switch.
  apply keeps_bind; [|intros; plain]. apply keeps_guarded; [by intros []|]. apply keeps_policy_rest; by intros [].
Qed.

(** When the policy is behind a WFP kill switch, no rule of the firewall was touched. *)
Lemma policy_rules polls ip parameters mode s w s' w' :
  install_policy replies index_of polls ip parameters mode s w = (s', w', Some (Ok true)) -> rules s' = rules s.
Proof.
  unfold install_policy. intros H. apply lbind_inv in H as (s1 & w1 & tunnel & H1 & H).
  pose proof (keeps_interface_luid (fun x => rules x = rules s) s w eq_refl) as E1. rewrite H1 in E1. cbn in E1. clear H1.
  apply lbind_inv in H as (s2 & w2 & [] & H2 & H).
  pose proof (keeps_wait replies (fun x => rules x = rules s) polls s1 w1 E1) as E2. rewrite H2 in E2. cbn in E2. clear H2.
  apply lbind_inv in H as (s3 & w3 & ks & H3 & H). apply lbind_inv in H as (s4 & w4 & [] & H4 & H).
  inversion H; subst; clear H. assert (E3 : rules s3 = rules s).
  { unfold fence in H3. destruct mode.
    - apply lbind_inv in H3 as (s5 & w5 & r & ->%call_inv & H3). destruct (r_status r =? 0).
      + inversion H3; subst. by destruct s2.
      + apply lbind_inv in H3 as (? & ? & [] & _ & H3). discriminate.
    - apply lbind_inv in H3 as (? & ? & [] & _ & H3). discriminate. }
  pose proof (keeps_guarded (fun x => rules x = rules s) ltac:(by intros []) true _
    (keeps_policy_rest replies index_of (fun x => rules x = rules s) ltac:(by intros []) ltac:(by intros [])
       ltac:(by intros []) ltac:(by intros []) tunnel ip parameters) s3 w3 E3) as E4.
  by rewrite H4 in E4.
Qed.

Lemma remove_journal_journaled s w :
  undone s -> rules s = false -> journaled s -> journaled (ignored (remove_journal replies) s w).1.1.
Proof.
  intros Hu Hr Hj. unfold ignored, remove_journal, file_call, catch, lbind, call, modify, lret, lthrow.
  destruct (replies (pos w)) as [r|]; [|done]. cbn. destruct (r_io r); [done|]. cbn. by destruct s.
Qed.

(** A machine whose journal admits firewall rules needs nothing else. *)
Lemma pessimistic ip s : journal s = Some (Written (mkRecovery ip true)) -> journaled s.
Proof. intros E. unfold journaled. by rewrite E. Qed.

Lemma kept_journaled f s s1 :
  journal s = Some f -> journaled s -> journal s1 = Some f -> (rules s = false -> rules s1 = false) -> journaled s1.
Proof. unfold journaled. intros -> Hs -> Hr. destruct f; auto. Qed.

Lemma undo_journaled fr s w :
  journal s <> None -> journaled s -> (fr = false -> rules s = false) -> journaled (undo replies fr s w).1.1.
Proof.
  intros Hn Hs Hf. destruct (journal s) as [f|] eqn:Hj; [clear Hn|done].
  pose proof (keeps_cleanup replies fr (Some f) (rules s) s w (conj Hj (fun H => H))) as [Hk1 Hk2].
  pose proof (kept_journaled f s _ Hj Hs Hk1 Hk2) as Hk. unfold undo.
  split_bind s w as [(s1 & w1 & cleaned & H1 & ->)| ->]; [|by rewrite catch_end].
  assert (Hs1 : journaled s1) by (rewrite <- catch_end, H1 in Hk; exact Hk).
  destruct cleaned as [[]|e'|]; cbn [is_ok]; [|done..].
  unfold catch in H1. destruct (cleanup replies fr s w) as [[s2 w2] [[[]|e2|]|]] eqn:E; inversion H1; subst.
  apply cleanup_spec in E as (Hu & _ & Hr). apply remove_journal_journaled; [done| |done]. rewrite Hr. destruct fr; auto.
Qed.

Lemma conclude_cleaned ip parameters bypass e s w :
  journal s = Some (Written (mkRecovery ip true)) ->
  journaled (conclude_install replies ip parameters bypass (Err e) s w).1.1.
Proof.
  intros Hj. cbn [conclude_install]. pose proof (undo_journaled true s w ltac:(by rewrite Hj) (pessimistic ip s Hj)) as H.
  specialize (H ltac:(done)). unfold lbind. by destruct (undo replies true s w) as [[s3 w3] [[u|e3|]|]].
Qed.

Lemma conclude_installed ip parameters bypass ks s w :
  journal s = Some (Written (mkRecovery ip true)) -> (ks = true -> rules s = false) ->
  no_journal_lost (conclude_install replies ip parameters bypass (Ok ks) s w).1.1.
Proof.
  intros Hj Hr. cbn [conclude_install]. set (state := mkRecovery ip (negb ks)).
  pose proof (write_state_journal state s w) as [Hin _].
  pose proof (keeps_write_state (fun x => ks = true -> rules x = false) state ltac:(by intros []) ltac:(by intros []) s w Hr) as Hr'.
  assert (Hfinal : no_journal_lost (write_state replies state s w).1.1).
  { intros Hn. destruct Hin as [E|[E|E]]; [|done|].
    - rewrite Hj in E. by apply (pessimistic ip).
    - unfold journaled. rewrite E. subst state. cbn. intros Hk. apply Hr'. by destruct ks. }
  split_bind s w as [(s1 & w1 & [] & H1 & ->)| ->]; cbn [lret fst];
    [change s1 with (s1, w1, Some (Ok (E := ClientError.t) tt)).1.1; rewrite <- H1|];
    (unfold guarded, drop_kill_switch, lbind, catch;
     destruct (write_state replies state s w) as [[s2 w2] [[u|e|]|]]; [done| |done|done]; destruct ks; [by destruct s2|done]).
Qed.

Lemma install_journal polls ip parameters mode bypass s w :
  clean s -> no_journal_lost (install replies index_of polls ip parameters mode bypass s w).1.1.
Proof.
  intros (Hj & Hu & Hr). unfold install. destruct (write_state_journal (mkRecovery ip true) s w) as [Hin Hok].
  split_bind s w as [(s1 & w1 & [] & H1 & ->)| ->].
  2:{ intros Hn. destruct Hin as [E|[E|E]]; [by rewrite Hj in E|done|by apply (pessimistic ip)]. }
  specialize (Hok _ _ H1). pose proof (keeps_write_state (fun x => rules x = false) (mkRecovery ip true)
    ltac:(by intros []) ltac:(by intros []) s w Hr) as Hr1. rewrite H1 in Hr1. cbn in Hr1. clear Hin H1.
  pose proof (keeps_policy_journal polls ip parameters mode _ s1 w1 Hok) as Hp.
  split_bind s1 w1 as [(s2 & w2 & r & H2 & ->)| ->]; [|intros _; rewrite catch_end; by apply (pessimistic ip)].
  pose proof (policy_rules polls ip parameters mode s1 w1) as Hks. unfold catch in H2.
  destruct (install_policy replies index_of polls ip parameters mode s1 w1) as [[s3 w3] [[ks|e|]|]]; inversion H2; subst; cbn in Hp.
  - apply conclude_installed; [done|]. intros ->. by rewrite (Hks _ _ eq_refl).
  - intros _. by apply conclude_cleaned.
Qed.

(** ** Sessions and their end *)

(** While a session runs its journal is there, and it is right about the firewall. *)
Definition in_session (guard : NetworkGuard) (s : Machine) : Prop :=
  journal s = Some (Written (g_state guard)) /\ firewall_rules (g_state guard) = negb (g_kill_switch guard) /\
  (g_kill_switch guard = true -> rules s = false).

Lemma in_session_journaled guard s : in_session guard s -> journaled s.
Proof.
  intros (Hj & Hf & Hr). unfold journaled. rewrite Hj, Hf. intros Hk. apply Hr. by destruct (g_kill_switch guard).
Qed.

Lemma keeps_apply_session guard tunnel parameters : keeps (in_session guard) (apply_parameters replies tunnel parameters).
Proof. apply keeps_apply_parameters; by intros []. Qed.

Lemma keeps_refresh guard : keeps (in_session guard) (refresh replies index_of guard).
Proof.
  unfold refresh. apply keeps_bind; [apply keeps_interface_luid|]. intros tunnel. apply keeps_bind.
  { unfold repair_routes, interface_index, owned_routes, forward_table.
    repeat (apply keeps_call || (apply keeps_default_route; by intros []) || (apply keeps_remove_owned_routes; by intros [])
      || (apply keeps_add_route; by intros []) || (apply keeps_add_halves; by intros []) || keeps_step). }
  intros _. apply keeps_bind; [|intros; unfold win32; plain].
  destruct (g_kill_switch guard) eqn:Hk; cbn [negb]; [plain|]. unfold install_rules.
  repeat (apply keeps_call || keeps_step). apply keeps_modify. intros [] (H1 & H2 & H3). split_and!; [done..|]. by rewrite Hk.
Qed.

Lemma live_journaled actions guard s w :
  in_session guard s ->
  journaled (live replies index_of actions guard s w).1.1 /\
  forall guard' s' w', live replies index_of actions guard s w = (s', w', Some (Ok guard')) -> in_session guard' s'.
Proof.
  revert guard s w. induction actions as [|[|parameters] actions IH]; intros guard s w Hs; cbn [live].
  - split; [by apply (in_session_journaled guard)|]. by intros guard' s' w' [= <- _ <-].
  - pose proof (keeps_refresh guard s w Hs) as Hr. unfold ignored, lbind, catch. cbn.
    destruct (refresh replies index_of guard s w) as [[s1 w1] [[u|e|]|]]; cbn in Hr |- *; try by apply IH.
    all: split; [by apply (in_session_journaled guard)|discriminate].
  - assert (Hu : keeps (in_session guard) (update_parameters replies guard parameters)).
    { unfold update_parameters. repeat (apply keeps_interface_luid || apply keeps_apply_session || keeps_step). }
    specialize (Hu s w Hs). unfold lbind, catch.
    destruct (update_parameters replies guard parameters s w) as [[s1 w1] [[g|e|]|]] eqn:E; cbn in Hu |- *; [|by apply IH|..].
    2-3: split; [by apply (in_session_journaled guard)|discriminate].
    apply IH. unfold update_parameters in E. case_bool_decide; [by inversion E; subst|].
    apply lbind_inv in E as (s2 & w2 & tunnel & _ & E). apply lbind_inv in E as (s3 & w3 & r & _ & E).
    destruct r; [by inversion E; subst| |discriminate]. apply lbind_inv in E as (? & ? & ? & _ & E). discriminate.
Qed.

Lemma drop_guard_journaled guard s w : in_session guard s -> journaled (drop_guard replies guard s w).1.1.
Proof.
  intros Hs. pose proof Hs as (Hj & Hf & Hr). unfold drop_guard, drop_kill_switch.
  pose proof (undo_journaled (firewall_rules (g_state guard)) s w ltac:(by rewrite Hj) (in_session_journaled guard s Hs)) as Hu.
  rewrite Hf in *. specialize (Hu ltac:(intros Hk; apply Hr; by destruct (g_kill_switch guard))). unfold lbind.
  destruct (undo replies (negb (g_kill_switch guard)) s w) as [[s1 w1] [[[]|e|]|]]; [|done..].
  destruct (g_kill_switch guard); [by destruct s1|done].
Qed.

Lemma install_in_session polls ip parameters mode bypass s w guard s' w' :
  clean s -> install replies index_of polls ip parameters mode bypass s w = (s', w', Some (Ok guard)) -> in_session guard s'.
Proof.
  intros (Hj & Hu & Hr) H. unfold install in H. apply lbind_inv in H as (s1 & w1 & [] & H1 & H).
  pose proof (keeps_write_state (fun x => rules x = false) (mkRecovery ip true)
    ltac:(by intros []) ltac:(by intros []) s w Hr) as Hr1. rewrite H1 in Hr1. cbn in Hr1.
  apply lbind_inv in H as (s2 & w2 & r & H2 & H). unfold catch in H2.
  destruct (install_policy replies index_of polls ip parameters mode s1 w1) as [[s3 w3] [[ks|e|]|]] eqn:E; inversion H2; subst; clear H2.
  2:{ cbn [conclude_install] in H. apply lbind_inv in H as (? & ? & ? & _ & H). discriminate. }
  cbn [conclude_install] in H. apply lbind_inv in H as (s4 & w4 & [] & H4 & H). inversion H; subst; clear H.
  assert (H3 : write_state replies (mkRecovery ip (negb ks)) s2 w2 = (s', w', Some (Ok tt))).
  { unfold guarded, lbind, catch in H4. destruct (write_state replies (mkRecovery ip (negb ks)) s2 w2) as [[s5 w5] [[[]|e|]|]];
      [by inversion H4|destruct ks; discriminate|discriminate|discriminate]. }
  split_and!; [exact (proj2 (write_state_journal _ s2 w2) _ _ H3)|done|]. cbn. intros ->.
  pose proof (keeps_write_state (fun x => rules x = false) (mkRecovery ip (negb true)) ltac:(by intros []) ltac:(by intros []) s2 w2) as Hk.
  rewrite H3 in Hk. apply Hk. by rewrite (policy_rules _ _ _ _ _ _ _ _ E).
Qed.

Lemma session_journal polls ip parameters mode bypass actions s w :
  clean s -> no_journal_lost (session replies index_of polls ip parameters mode bypass actions s w).1.1.
Proof.
  intros Hs. unfold session. pose proof (install_journal polls ip parameters mode bypass s w Hs) as Hi.
  split_bind s w as [(s1 & w1 & guard & H1 & ->)| ->]; [|done]. apply (install_in_session _ _ _ _ _ _ _ _ _ _ Hs) in H1.
  destruct (live_journaled actions guard s1 w1 H1) as [Hl Hok].
  split_bind s1 w1 as [(s2 & w2 & guard' & H2 & ->)| ->]; [|by intros _]. intros _. by apply drop_guard_journaled, (Hok _ _ w2).
Qed.

(** ** Recovery *)

Lemma remove_journal_spec s w s' w' :
  remove_journal replies s w = (s', w', Some (Ok tt)) -> s' = put_journal None s.
Proof.
  unfold remove_journal, file_call. intros H. apply lbind_inv in H as (s1 & w1 & r & ->%call_inv & H).
  destruct (r_io r); [discriminate|by inversion H].
Qed.

Lemma recovered fr s w s' w' :
  (fr = false -> rules s = false) ->
  lbind (cleanup replies fr) (fun _ => remove_journal replies) s w = (s', w', Some (Ok tt)) -> clean s'.
Proof.
  intros Hf H. apply lbind_inv in H as (s1 & w1 & [] & H1 & ->%remove_journal_spec). apply cleanup_spec in H1 as (Hu & _ & Hr).
  split_and!; destruct s1; cbn in *; [done..|]. rewrite Hr. destruct fr; auto.
Qed.

Lemma recover_cleans s w s' w' :
  journaled s -> recover_stale_state replies s w = (s', w', Some (Ok tt)) -> clean s'.
Proof.
  intros Hs H. unfold recover_stale_state in H. apply lbind_inv in H as (s1 & w1 & state & H1 & H).
  unfold read_state in H1. apply lbind_inv in H1 as (s2 & w2 & r & ->%call_inv & H1).
  apply lbind_inv in H1 as (s3 & w3 & j & H3 & H1). inversion H3; subst; clear H3. inversion H1; subst; clear H1.
  destruct (r_io r), (journal s1) as [[state|]|] eqn:Hj; cbn in H; rewrite ?Hj in H; try (apply recovered in H; [done|done]).
  all: unfold journaled in Hs; rewrite Hj in Hs; try (apply recovered in H; [done|done]).
  all: destruct Hs as [Hu Hr]; unfold interface_exists in H; apply lbind_inv in H as (s4 & w4 & b & H4 & H).
  all: assert (s4 = s1) as -> by (unfold interface_luid, lbind, catch, gets in H4; destruct (tunnel s1); by inversion H4).
  all: destruct b; [apply cleanup_spec in H as (Hu' & Hj' & Hr')|by inversion H; subst].
  all: split_and!; congruence || done.
Qed.

End Journal.

(** A machine that has lost something since: the adapter and its routes go with the process,
    a restart clears more. *)
Definition no_more_than (s s' : Machine) : Prop :=
  journal s = journal s' /\ rules s = rules s' /\ forall row, row ∈ routes s -> row ∈ routes s'.

(** Recovery.  Whenever a Windows session ends, killed between any two calls to the
    system, failing at any of them or stopped, and whatever the machine loses afterwards, as
    long as the journal is still there a later process whose recovery reports success has
    left no route and no firewall rule of MouseVPN and no journal. *)
Theorem recovery_undoes_the_session replies index_of polls ip parameters mode bypass actions s w replies' s' w' w2 :
  clean s -> let ended := (session replies index_of polls ip parameters mode bypass actions s w).1.1 in
  journal ended <> None ->
  forall left, no_more_than left ended -> recover_stale_state replies' left w' = (s', w2, Some (Ok tt)) -> clean s'.
Proof.
  intros Hs ended Hn left (Hj & Hr & Hroutes) H. apply (recover_cleans replies' left w' s' w2); [|done].
  pose proof (session_journal replies index_of polls ip parameters mode bypass actions s w Hs Hn) as He. fold ended in He.
  unfold journaled in *. rewrite Hj, Hr. destruct (journal ended) as [[state|]|]; done.
Qed.

(** ** Repairing routes *)

Section Repair.
Context (replies : nat -> option reply) (index_of : Z -> Z).

(** Windows calls a route existing only when it is in the table. *)
Hypothesis honest : forall i r, replies i = Some r -> r_status r <> ERROR_OBJECT_ALREADY_EXISTS.

Definition our_row (luid : Z) (destination : Ipv4Addr) (prefix_len : Z) (next_hop : Ipv4Addr) : Row :=
  mkRow luid (index_of luid) destination prefix_len next_hop ROUTE_METRIC MIB_IPPROTO_NETMGMT.

(** A route to the prefix, over the interface and the next hop. *)
Definition routed (s : Machine) (luid : Z) (destination : Ipv4Addr) (prefix_len : Z) (next_hop : Ipv4Addr) : Prop :=
  exists row, row ∈ routes s /\ same_route (our_row luid destination prefix_len next_hop) row = true.

Lemma call_honest (s : Machine) w s' w' r : call replies s w = (s', w', Some (Ok r)) -> s' = s /\ r_status r <> ERROR_OBJECT_ALREADY_EXISTS.
Proof. unfold call. destruct (replies (pos w)) eqn:E; intros [= -> _ <-]. split; [done|]. by apply (honest (pos w)). Qed.

Lemma add_route_spec luid destination prefix_len next_hop s w s' w' :
  add_route replies index_of luid destination prefix_len next_hop s w = (s', w', Some (Ok tt)) ->
  routed s' luid destination prefix_len next_hop /\ (forall row, row ∈ routes s -> row ∈ routes s') /\
  (forall row, row ∈ routes s' -> row ∈ routes s \/ row = our_row luid destination prefix_len next_hop).
Proof.
  unfold add_route. fold (our_row luid destination prefix_len next_hop). set (row := our_row _ _ _ _).
  intros H. apply lbind_inv in H as (s1 & w1 & r & [-> Hr]%call_honest & H).
  apply lbind_inv in H as (s2 & w2 & present & H2 & H). inversion H2; subst; clear H2.
  destruct (existsb (same_route row) (routes s2)) eqn:E; cbn in H.
  - inversion H; subst. apply existsb_exists in E as (x & Hx & Hs). split; [by exists x; split; [apply list_elem_of_In|]|]. auto.
  - destruct (r_status r =? ERROR_SUCCESS); [|by rewrite (proj2 (Z.eqb_neq _ _) Hr) in H].
    inversion H; subst. destruct s2 as [rt]. cbn. split; [|split].
    + exists row. split; [cbn; set_solver|]. unfold same_route. by apply bool_decide_eq_true.
    + set_solver.
    + intros x. rewrite elem_of_app, list_elem_of_singleton. tauto.
Qed.

Lemma add_halves_spec tunnel present halves s w s' w' :
  add_halves replies index_of tunnel present halves s w = (s', w', Some (Ok tt)) ->
  (forall half, half ∈ halves -> present half = true \/ routed s' tunnel half 1 0) /\
  (forall row, row ∈ routes s -> row ∈ routes s') /\
  (forall row, row ∈ routes s' -> row ∈ routes s \/ exists half, row = our_row tunnel half 1 0).
Proof.
  revert s w. induction halves as [|half halves IH]; intros s w; cbn [add_halves].
  { intros [= -> _]. split; [intros half Hh; by apply elem_of_nil in Hh|]. auto. }
  intros H. apply lbind_inv in H as (s1 & w1 & [] & H1 & H). apply IH in H as (Hh & Hmore & Hnew).
  destruct (present half) eqn:Hp.
  - inversion H1; subst. split; [|done]. intros h [->|Hin]%elem_of_cons; [by left|by apply Hh].
  - apply add_route_spec in H1 as ((row & Hr & Hs) & Hm & Hn). split; [|split; [auto|]].
    + intros h [->|Hin]%elem_of_cons; [right; exists row; auto|by apply Hh].
    + intros x [Hx|Hx]%Hnew; [|by right]. destruct (Hn _ Hx) as [| ->]; eauto.
Qed.

Lemma not_stale rs ip index hop :
  server_route_is_stale rs ip index hop = false ->
  exists r, filter (is_server_route ip) rs = [r] /\ o_interface_index r = index /\ o_next_hop r = hop.
Proof.
  unfold server_route_is_stale. rewrite orb_false_iff, !negb_false_iff, !Z.eqb_eq. unfold len.
  destruct (filter (is_server_route ip) rs) as [|r [|r' l]]; cbn [length]; intros [H1 H2]; try lia.
  exists r. split; [done|]. cbn in H2. destruct (decide _) as [Hd|] in H2; [|cbn in H2; lia].
  apply Is_true_true, andb_true_iff in Hd. lia.
Qed.

(** The indices of the table are those of its interfaces. *)
Definition indexed (s : Machine) : Prop := forall row, row ∈ routes s -> row_index row = index_of (row_luid row).

Lemma best_default_from tunnel best rows m d :
  best_default tunnel best rows = Some (m, d) ->
  best = Some (m, d) \/ exists row, row ∈ rows /\ d = mkDefault (row_luid row) (row_index row) (row_next_hop row).
Proof.
  revert best. induction rows as [|row rows IH]; intros best; cbn [best_default]; [by left|].
  assert (Hskip : best_default tunnel best rows = Some (m, d) ->
    best = Some (m, d) \/ exists row', row' ∈ row :: rows /\ d = mkDefault (row_luid row') (row_index row') (row_next_hop row')).
  { intros [?|(x & Hx & Hd)]%IH; [by left|]. right. exists x. split; [by right|done]. }
  destruct (negb _); [done|]. destruct (_ || _); [done|]. destruct (match best with Some _ => _ | None => _ end); [|done].
  intros [[= _ <-]|(x & Hx & Hd)]%IH; right; [exists row; split; [by left|done]|exists x; split; [by right|done]].
Qed.

Lemma keeps_unselected selected row :
  selected (owned_route row) = false -> keeps (fun s => row ∈ routes s) (remove_owned_routes replies selected).
Proof.
  intros Hsel. unfold remove_owned_routes, forward_table. repeat (apply keeps_call || keeps_step).
  match goal with |- keeps _ (delete_routes _ _ ?rows ?failed) => generalize rows, failed end.
  intros rows. induction rows as [|r rows IH]; intros failed; cbn [delete_routes]; [apply keeps_ret|].
  destruct (negb (is_owned r) || negb (selected (owned_route r))) eqn:E; [apply IH|].
  repeat (apply keeps_call || apply IH || keeps_step). apply keeps_modify. intros s Hr. destruct s. cbn in *.
  apply list_elem_of_filter. split; [|done]. intros ->. rewrite Hsel, orb_true_r in E. discriminate.
Qed.

(** The route to the server goes where the physical default route does, and no other of
    ours goes elsewhere. *)
Definition server_routed (s : Machine) (ip : Ipv4Addr) (d : DefaultRoute) : Prop :=
  (exists row, row ∈ routes s /\ row_destination row = ip /\ row_prefix row = 32 /\
     row_index row = default_index d /\ row_next_hop row = default_next_hop d) /\
  forall row, row ∈ routes s -> is_owned row = true -> row_destination row = ip -> row_prefix row = 32 ->
    row_index row = default_index d /\ row_next_hop row = default_next_hop d.

Lemma routed_row s luid destination prefix_len next_hop :
  indexed s -> routed s luid destination prefix_len next_hop ->
  exists row, row ∈ routes s /\ row_destination row = destination /\ row_prefix row = prefix_len /\
    row_index row = index_of luid /\ row_next_hop row = next_hop.
Proof.
  intros Hi (row & Hr & Hs). exists row. unfold same_route in Hs. apply bool_decide_eq_true in Hs. cbn in Hs.
  injection Hs as -> -> -> ->. split_and!; auto.
Qed.

Lemma server_repaired ip d m tunnel s s1 w1 w2 :
  indexed s -> best_default (Some tunnel) None (routes s) = Some (m, d) ->
  (if server_route_is_stale (map owned_route (filter is_owned (routes s))) ip (default_index d) (default_next_hop d)
   then lbind (remove_owned_routes replies (is_server_route ip)) (fun _ =>
     add_route replies index_of (default_luid d) ip 32 (default_next_hop d))
   else lret tt) s w1 = (s1, w2, Some (Ok tt)) ->
  indexed s1 /\ server_routed s1 ip d /\
  forall row, row ∈ routes s -> is_server_route ip (owned_route row) = false -> row ∈ routes s1.
Proof.
  intros Hi Hd H. destruct (server_route_is_stale _ _ _ _) eqn:Hst.
  - apply lbind_inv in H as (s2 & w3 & [] & H1 & H2).
    assert (Hkeep : forall row, row ∈ routes s -> is_server_route ip (owned_route row) = false -> row ∈ routes s2).
    { intros row Hr Hu. pose proof (keeps_unselected _ row Hu s w1 Hr) as Hk. by rewrite H1 in Hk. }
    apply remove_owned_routes_spec in H1 as [Hsub Hgone].
    apply add_route_spec in H2 as (Hrt & Hmore & Hnew).
    assert (Hi1 : indexed s1) by (intros row [Hr| ->]%Hnew; [by apply Hi, Hsub|done]).
    assert (Hidx : index_of (default_luid d) = default_index d).
    { apply best_default_from in Hd as [?|(row & Hr & ->)]; [discriminate|]. cbn. symmetry. by apply Hi. }
    split; [done|]. split; [split|].
    + destruct (routed_row _ _ _ _ _ Hi1 Hrt) as (row & ? & ? & ? & ? & ?). exists row. by rewrite <- Hidx.
    + intros row [Hr| ->]%Hnew Ho Hdst Hp; [|by rewrite <- Hidx]. specialize (Hgone row Hr Ho).
      unfold is_server_route in Hgone. cbn in Hgone. rewrite Hdst, Hp, Z.eqb_refl in Hgone. discriminate.
    + auto.
  - inversion H; subst. split; [done|]. split; [|done]. apply not_stale in Hst as (r & Hf & Hx & Hh).
    assert (Hone : forall row, row ∈ routes s1 -> is_owned row = true -> row_destination row = ip -> row_prefix row = 32 ->
      owned_route row = r).
    { intros row Hr Ho Hdst Hp. apply list_elem_of_singleton. rewrite <- Hf. apply list_elem_of_filter. split.
      - unfold is_server_route. cbn. by rewrite Hdst, Hp, Z.eqb_refl.
      - apply list_elem_of_fmap. exists row. split; [done|]. apply list_elem_of_filter. split; [by rewrite Ho|done]. }
    assert (Hr : r ∈ filter (is_server_route ip) (map owned_route (filter is_owned (routes s1)))) by (rewrite Hf; by left).
    apply list_elem_of_filter in Hr as [Hsel Hr]. apply list_elem_of_fmap in Hr as (row & -> & Hrow).
    apply list_elem_of_filter in Hrow as [Ho Hrow]. apply Is_true_true, andb_true_iff in Hsel as [Hd1 Hd2].
    apply Z.eqb_eq in Hd1, Hd2. split; [by exists row|].
    intros row' Hr' Ho' Hdst Hp. specialize (Hone row' Hr' Ho' Hdst Hp). rewrite <- Hone in Hx, Hh. done.
Qed.

(** Repairing routes after roaming.  When a refresh of the routes succeeds, the server
    is reached by a host route over the interface and the next hop of the best physical
    default route, no host route of ours to the server goes anywhere else, and both halves of
    the default route go into the tunnel. *)
Theorem repaired_routes tunnel ip s w s' w' :
  indexed s -> repair_routes replies index_of tunnel ip s w = (s', w', Some (Ok tt)) ->
  exists m d, best_default (Some tunnel) None (routes s) = Some (m, d) /\ server_routed s' ip d /\
    forall half, half ∈ TUNNEL_HALVES -> exists row, row ∈ routes s' /\
      row_destination row = half /\ row_prefix row = 1 /\ row_index row = index_of tunnel.
Proof.
  intros Hi H. unfold repair_routes, interface_index, default_ipv4_route, owned_routes, forward_table in H.
  apply lbind_inv in H as (s1 & w1 & index & H1 & H). apply lbind_inv in H1 as (s2 & w2 & r & ->%call_inv & H1).
  destruct (r_status r =? ERROR_SUCCESS); inversion H1; subst; clear H1.
  apply lbind_inv in H as (s3 & w3 & d & H3 & H). apply lbind_inv in H3 as (s4 & w4 & table & H4 & H3).
  apply lbind_inv in H4 as (s5 & w5 & r5 & ->%call_inv & H4). destruct (r_status r5 =? ERROR_SUCCESS); inversion H4; subst; clear H4.
  destruct (best_default (Some tunnel) None (routes s4)) as [[m d']|] eqn:Hd; inversion H3; subst; clear H3.
  apply lbind_inv in H as (s4 & w4 & rs & H4 & H). apply lbind_inv in H4 as (s5 & w5' & table & H5 & H4).
  apply lbind_inv in H5 as (s6 & w6 & r6 & ->%call_inv & H5). destruct (r_status r6 =? ERROR_SUCCESS); inversion H5; subst; clear H5.
  inversion H4; subst; clear H4. apply lbind_inv in H as (s6 & w7 & [] & H6 & H).
  apply (server_repaired _ _ _ _ _ _ _ _ Hi Hd) in H6 as (Hi6 & [(row & Hr & Hrow) Hall] & Hkeep).
  apply add_halves_spec in H as (Hhalves & Hmore & Hnew). exists m, d. split; [done|]. split; [split|].
  - exists row. auto.
  - intros x [Hx|[half ->]]%Hnew Ho Hdst Hp; [by apply Hall|discriminate].
  - intros half Hh. destruct (Hhalves half Hh) as [Hp|Hrt].
    + unfold half_present in Hp. apply existsb_exists in Hp as (o & Ho & Hp). apply list_elem_of_In, list_elem_of_fmap in Ho as (x & -> & Hx).
      apply list_elem_of_filter in Hx as [_ Hx]. cbn in Hp. rewrite !andb_true_iff, !Z.eqb_eq in Hp. destruct Hp as [[Hp1 Hp2] Hp3].
      exists x. split; [|done]. apply Hmore, Hkeep; [done|]. unfold is_server_route. cbn. rewrite Hp2. by rewrite andb_false_r.
    + assert (Hi' : indexed s') by (intros x [Hx|[h ->]]%Hnew; [by apply Hi6|done]).
      destruct (routed_row _ _ _ _ _ Hi' Hrt) as (x & ? & ? & ? & ? & _). by exists x.
Qed.

End Repair.

(** ** Blocked prefixes *)

Lemma shiftr_mask s k : 0 <= k -> Z.shiftr (Z.shiftl (Z.shiftr s k) k) k = Z.shiftr s k.
Proof. intros Hk. rewrite Z.shiftr_shiftl_l by lia. by rewrite Z.sub_diag, Z.shiftl_0_r. Qed.

(** The first bits of the server's address, as the loop keeps them. *)
Definition network (server k : Z) : Z := Z.shiftl (Z.shiftr server (32 - k)) (32 - k).

Lemma network_bits server k i : 0 <= k <= 32 -> 0 <= i -> Z.testbit (network server k) i = (32 - k <=? i) && Z.testbit server i.
Proof.
  intros Hk Hi. unfold network. rewrite Z.shiftl_spec by lia. destruct (Z.leb_spec (32 - k) i).
  - rewrite Z.shiftr_spec by lia. cbn. f_equal. lia.
  - rewrite Z.testbit_neg_r by lia. done.
Qed.

Lemma land_bit server i : 0 <= i -> (Z.land server (Z.shiftl 1 i) =? 0) = negb (Z.testbit server i).
Proof.
  intros Hi. rewrite Z.shiftl_1_l. destruct (Z.testbit server i) eqn:E; cbn.
  - apply Z.eqb_neq. intros H. assert (Z.testbit (Z.land server (2 ^ i)) i = true) as Hb
      by (rewrite Z.land_spec, E, Z.pow2_bits_true; done). by rewrite H, Z.bits_0 in Hb.
  - apply Z.eqb_eq. apply Z.bits_inj'. intros j Hj. rewrite Z.land_spec, Z.bits_0, Z.pow2_bits_eqb by lia.
    destruct (Z.eqb_spec i j) as [->|]; [by rewrite E|apply andb_false_r].
Qed.

(** The sibling of the server's prefix of [k] bits. *)
Definition sibling (server k : Z) : Z := Z.lxor (network server k) (Z.shiftl 1 (32 - k)).

Lemma blocked_step_spec server k prefixes :
  0 <= server -> 1 <= k <= 32 ->
  blocked_step server (network server (k - 1), prefixes) k = (network server k, prefixes ++ [(sibling server k, k)]).
Proof.
  intros Hs Hk. unfold blocked_step, sibling. rewrite land_bit by lia.
  assert (Hlor : Z.testbit server (32 - k) = true -> Z.lor (network server (k - 1)) (Z.shiftl 1 (32 - k)) = network server k).
  { intros E. apply Z.bits_inj'. intros i Hi. rewrite Z.lor_spec, !network_bits, Z.shiftl_1_l, Z.pow2_bits_eqb by lia.
    destruct (Z.eqb_spec (32 - k) i) as [<-|Hne]; [rewrite E, Z.leb_refl; by rewrite orb_true_r|]. rewrite orb_false_r.
    f_equal. destruct (Z.leb_spec (32 - (k - 1)) i), (Z.leb_spec (32 - k) i); done || lia. }
  assert (Hsame : Z.testbit server (32 - k) = false -> network server k = network server (k - 1)).
  { intros E. apply Z.bits_inj'. intros i Hi. rewrite !network_bits by lia.
    destruct (Z.leb_spec (32 - (k - 1)) i), (Z.leb_spec (32 - k) i); cbn; try done; try lia.
    replace i with (32 - k) by lia. done. }
  assert (Hx : forall b, Z.testbit server (32 - k) = b ->
    Z.lxor (network server k) (Z.shiftl 1 (32 - k)) = if b then network server (k - 1) else Z.lor (network server (k - 1)) (Z.shiftl 1 (32 - k))).
  { intros b E. apply Z.bits_inj'. intros i Hi. destruct b; rewrite ?Z.lor_spec, Z.lxor_spec, !network_bits, Z.shiftl_1_l, !Z.pow2_bits_eqb by lia;
      destruct (Z.eqb_spec (32 - k) i) as [<-|Hne].
    all: rewrite ?Z.leb_refl, ?E, ?xorb_false_r, ?orb_false_r, ?orb_true_r; cbn; try done.
    all: try (destruct (Z.leb_spec (32 - (k - 1)) i), (Z.leb_spec (32 - k) i); done || lia).
    all: destruct (Z.leb_spec (32 - (k - 1)) (32 - k)); done || lia. }
  destruct (Z.testbit server (32 - k)) eqn:E; cbn [negb]; rewrite (Hx _ eq_refl).
  - by rewrite Hlor.
  - by rewrite Hsame.
Qed.

Lemma blocked_siblings server : 0 <= server < 2 ^ 32 ->
  blocked_ipv4_prefixes server = map (fun k => (sibling server k, k)) prefix_lens.
Proof.
  intros Hs. unfold blocked_ipv4_prefixes, prefix_lens.
  assert (H : forall n k prefixes, (k + n <= 32)%nat ->
    foldl (blocked_step server) (network server (Z.of_nat k), prefixes) (map Z.of_nat (seq (S k) n)) =
    (network server (Z.of_nat (k + n)), prefixes ++ map (fun k => (sibling server k, k)) (map Z.of_nat (seq (S k) n)))).
  { intros n. induction n as [|n IH]; intros k prefixes Hn; cbn [seq map foldl].
    - by rewrite app_nil_r, Nat.add_0_r.
    - replace (Z.of_nat k) with (Z.of_nat (S k) - 1) by lia. rewrite blocked_step_spec by lia. rewrite IH by lia.
      replace (k + S n)%nat with (S k + n)%nat by lia. by rewrite <- app_assoc. }
  specialize (H 32%nat 0%nat [] ltac:(lia)).
  assert (E : network server (Z.of_nat 0) = 0).
  { unfold network. cbn [Z.of_nat]. rewrite Z.sub_0_r, Z.shiftr_div_pow2, Z.div_small by lia. apply Z.shiftl_0_l. }
  rewrite E in H. by rewrite H.
Qed.

(** An address is under the sibling of length [k] when it first differs from the server in
    the [k]th bit. *)
Lemma covers_sibling a server k : 0 <= a < 2 ^ 32 -> 0 <= server < 2 ^ 32 -> 1 <= k <= 32 ->
  covers a (sibling server k, k) = negb (a =? server) && (Z.log2 (Z.lxor a server) =? 32 - k).
Proof.
  intros Ha Hs Hk. unfold covers. cbn [fst snd]. set (n := 32 - k).
  assert (Hsib : Z.shiftr (sibling server k) n = Z.lxor (Z.shiftr server n) 1).
  { unfold sibling, network. fold n. rewrite Z.shiftr_lxor, shiftr_mask, Z.shiftr_shiftl_l by lia.
    by rewrite Z.sub_diag, Z.shiftl_0_r. }
  rewrite Hsib. set (x := Z.lxor a server).
  assert (Hx : (Z.shiftr a n =? Z.lxor (Z.shiftr server n) 1) = (Z.shiftr x n =? 1)).
  { unfold x. rewrite Z.shiftr_lxor. apply Bool.eq_iff_eq_true. rewrite !Z.eqb_eq. split; intros H.
    - rewrite H, (Z.lxor_comm _ 1), Z.lxor_assoc, Z.lxor_nilpotent. done.
    - rewrite <- H, (Z.lxor_comm (Z.shiftr a n)), <- Z.lxor_assoc, Z.lxor_nilpotent. done. }
  rewrite Hx. assert (Hx0 : 0 <= x) by (apply Z.lxor_nonneg; lia).
  destruct (Z.eqb_spec a server) as [->|Hne]; cbn [negb andb].
  { unfold x. by rewrite Z.lxor_nilpotent, Z.shiftr_0_l. }
  assert (Hpos : 0 < x). { destruct (Z.eq_dec x 0) as [E|]; [|lia]. by apply Z.lxor_eq in E. }
  apply Bool.eq_iff_eq_true. rewrite !Z.eqb_eq, Z.shiftr_div_pow2 by lia.
  pose proof (Z.log2_spec x Hpos) as Hlog. pose proof (Z.log2_nonneg x). split.
  - intros H1. apply Z.log2_unique; [lia|]. assert (0 < 2 ^ n) by (apply Z.pow_pos_nonneg; lia).
    rewrite Z.pow_succ_r by lia. pose proof (Z.div_mod x (2 ^ n)). pose proof (Z.mod_pos_bound x (2 ^ n)). nia.
  - intros <-. rewrite Z.pow_succ_r in Hlog by lia. symmetry. apply (Z.div_unique_pos _ _ 1 (x - 2 ^ Z.log2 x)); lia.
Qed.

Lemma count_siblings a server ks : 0 <= a < 2 ^ 32 -> 0 <= server < 2 ^ 32 -> (forall k, k ∈ ks -> 1 <= k <= 32) ->
  len (filter (covers a) (map (fun k => (sibling server k, k)) ks)) =
  len (filter (fun k => negb (a =? server) && (Z.log2 (Z.lxor a server) =? 32 - k)) ks).
Proof.
  intros Ha Hs. induction ks as [|k ks IH]; intros Hk; [done|]. cbn [map]. rewrite !filter_cons.
  rewrite (covers_sibling a server k Ha Hs) by (apply Hk; by left). specialize (IH ltac:(intros x Hx; apply Hk; by right)).
  destruct (decide _); rewrite ?len_cons; lia.
Qed.

Lemma differing_bit a server : 0 <= a < 2 ^ 32 -> 0 <= server < 2 ^ 32 -> a <> server -> 0 <= Z.log2 (Z.lxor a server) < 32.
Proof.
  intros Ha Hs Hne. split; [apply Z.log2_nonneg|].
  eapply Z.le_lt_trans; [apply Z.log2_lxor; lia|].
  apply Z.max_lub_lt; [destruct (Z.eq_dec a 0) as [->|]|destruct (Z.eq_dec server 0) as [->|]];
    first [done|apply Z.log2_lt_pow2; lia].
Qed.

(** The blocked prefixes.  The firewall's block list is a partition of all other
    addresses: every IPv4 address but the server's is under exactly one of the 32 prefixes,
    and the server's is under none. *)
Theorem blocked_prefixes_spare_the_server server a :
  0 <= server < 2 ^ 32 -> 0 <= a < 2 ^ 32 ->
  len (filter (covers a) (blocked_ipv4_prefixes server)) = (if a =? server then 0 else 1) /\
  len (blocked_ipv4_prefixes server) = 32.
Proof.
  intros Hs Ha. rewrite (blocked_siblings server Hs). split; [|by rewrite len_map].
  rewrite (count_siblings a server _ Ha Hs).
  2:{ intros k Hk. apply list_elem_of_fmap in Hk as (n & -> & Hn%elem_of_seq). lia. }
  destruct (Z.eqb_spec a server) as [->|Hne]; cbn [negb andb]; [by vm_compute|].
  pose proof (differing_bit a server Ha Hs Hne) as Hd. generalize dependent (Z.log2 (Z.lxor a server)). intros n Hd.
  assert (Hall : forallb (fun n => len (filter (fun k => n =? 32 - k) prefix_lens) =? 1) (map Z.of_nat (seq 0 32)) = true)
    by (vm_compute; reflexivity).
  rewrite forallb_forall in Hall. apply Z.eqb_eq, (Hall n). apply in_map_iff. exists (Z.to_nat n).
  split; [lia|]. apply in_seq. lia.
Qed.

(** ** A session that dies *)

Module ToyNetwork.
Import ToyHandshake.

(** A physical default route, and the adapter ready. *)
Definition machine : Machine :=
  mkMachine [mkRow 7 17 0 0 (ipv4_new 192 168 0 1) 25 3] [] None None (Some 9) true false false None None.

Definition parameters : SessionParameters.t := SessionParameters.mk (ipv4_new 10 77 0 2) 24 1280 (ipv4_new 10 77 0 1).
Definition server : Ipv4Addr := ipv4_new 203 0 113 5.

Definition fine : reply := mkReply 0 None 0 true.

(** Every call succeeds until the process dies. *)
Definition until (n : nat) (i : nat) : option reply := if (i <? n)%nat then Some fine else None.

Definition index_of (luid : Z) : Z := luid + 10.

Definition ended (n : nat) : Machine := (session (until n) index_of 1 server parameters AppRoutingMode.Include false [Refresh] machine before).1.1.

Lemma machine_clean : clean machine.
Proof. repeat split. intros row [->|Hr%elem_of_nil]%elem_of_cons; done. Qed.

Definition recovery (s : Machine) : Machine := (recover_stale_state (until 40) s before).1.1.

(** Killed when the routes have just been added. *)
Lemma recovery_undoes_the_session_witness :
  journal (ended 16) = Some (Written (mkRecovery server true)) /\ rules (ended 16) = true /\ len (routes (ended 16)) = 4 /\
  clean (recovery (ended 16)).
Proof.
  split; [vm_compute; reflexivity|]. split; [vm_compute; reflexivity|]. split; [vm_compute; reflexivity|].
  assert (Hj : journal (session (until 16) index_of 1 server parameters AppRoutingMode.Include false [Refresh] machine before).1.1 <> None)
    by (vm_compute; discriminate).
  destruct (recover_stale_state (until 40) (ended 16) before) as [[s' w'] r] eqn:E.
  assert (Hr : (recover_stale_state (until 40) (ended 16) before).2 = Some (Ok tt)) by (vm_compute; reflexivity).
  rewrite E in Hr. cbn [snd] in Hr. subst r.
  assert (Hs : recovery (ended 16) = s') by (unfold recovery; rewrite E; reflexivity). rewrite Hs. unfold ended in E.
  refine (recovery_undoes_the_session (until 16) index_of 1 server parameters AppRoutingMode.Include false [Refresh] machine before (until 40) s' before w'
    machine_clean Hj _ _ E).
  split; [reflexivity|]. split; [reflexivity|]. intros row Hrow. exact Hrow.
Defined.

Lemma repaired_routes_witness :
  exists s' w', repair_routes (until 20) index_of 9 server machine before = (s', w', Some (Ok tt)) /\
  len (routes s') = 4 /\ exists d, server_routed s' server d.
Proof.
  assert (Hh : forall i r, until 20 i = Some r -> r_status r <> ERROR_OBJECT_ALREADY_EXISTS).
  { intros i r H. unfold until in H. destruct (i <? 20)%nat; [|discriminate]. injection H as <-. discriminate. }
  assert (Hi : indexed index_of machine) by (intros row [->|Hr%elem_of_nil]%elem_of_cons; [reflexivity|destruct Hr]).
  destruct (repair_routes (until 20) index_of 9 server machine before) as [[s' w'] r] eqn:E.
  assert (Hr : (repair_routes (until 20) index_of 9 server machine before).2 = Some (Ok tt)) by (vm_compute; reflexivity).
  assert (Hl : len (routes (repair_routes (until 20) index_of 9 server machine before).1.1) = 4) by (vm_compute; reflexivity).
  rewrite E in Hr, Hl. cbn [fst snd] in Hr, Hl. subst r. exists s', w'. split; [reflexivity|]. split; [exact Hl|].
  destruct (repaired_routes (until 20) index_of Hh 9 server machine before s' w' Hi E) as (m & d & _ & Hs & _).
  exists d. exact Hs.
Defined.

Lemma blocked_prefixes_witness :
  len (filter (covers (ipv4_new 8 8 8 8)) (blocked_ipv4_prefixes server)) = 1 /\
  len (filter (covers server) (blocked_ipv4_prefixes server)) = 0.
Proof.
  assert (Hs : 0 <= server < 2 ^ 32) by (vm_compute; split; [discriminate|reflexivity]).
  assert (Ha : 0 <= ipv4_new 8 8 8 8 < 2 ^ 32) by (vm_compute; split; [discriminate|reflexivity]).
  split; [exact (proj1 (blocked_prefixes_spare_the_server server _ Hs Ha))|
          exact (proj1 (blocked_prefixes_spare_the_server server _ Hs Hs))].
Defined.

End ToyNetwork.

(** The window.  The journal is replaced by removing it and renaming the new one, so a
    session can end without a journal while its firewall rules and routes are installed:
    there are machines and answers with which the process dies between the two, and a later
    recovery reports success and leaves the rules in place. *)
Theorem journal_lost_while_replaced :
  exists replies index_of polls ip parameters mode s w replies' w',
    clean s /\
    let ended := (session replies index_of polls ip parameters mode false [] s w).1.1 in
    journal ended = None /\ rules ended = true /\
    exists s' w2, recover_stale_state replies' ended w' = (s', w2, Some (Ok tt)) /\ rules s' = true.
Proof.
  exists (ToyNetwork.until 20), ToyNetwork.index_of, 1%nat, ToyNetwork.server, ToyNetwork.parameters, AppRoutingMode.Include,
    ToyNetwork.machine, ToyHandshake.before, (ToyNetwork.until 40), ToyHandshake.before.
  split; [exact ToyNetwork.machine_clean|]. cbv zeta. split; [vm_compute; reflexivity|]. split; [vm_compute; reflexivity|].
  eexists _, _. vm_compute. split; reflexivity.
Qed.
