(* ===== verification/Wfp.v ===== *)
(** * Filters of the Windows client

    crates/windows-client/src/killswitch.rs and app_bypass.rs: the filters that fence a full
    tunnel in, and those that send selected applications around it or keep them inside.

    The filters are data; adding one is a call to Windows (the tape of WinNetwork.v), inside
    a transaction.  What Windows makes of a set of filters is the class [Platform]; its laws
    are the documented arbitration the source relies on: the heaviest matching filter
    decides a sublayer, sublayers are asked from the heaviest down, a block is final, and a
    permit is final when it clears the right to decide.  The meaning of a condition
    ([holds]) is part of the specification.

    The theorems: which connections the kill switch lets through, alone and below the
    exclusions; where the sockets of applications are bound in the include mode; a refresh
    keeps the filters up to date or fails closed. *)

From S2P Require Import Prelude Protocol Replay Crypto DataPlane Morph Speedy Config ClientWire Handshake Effects Flow WinNetwork.

(** ** Filters as data *)

Inductive Layer := ConnectV4 | ConnectV6 | BindV4 | BindV6.
Inductive Callout := BIND_CALLOUT_KEY | BIND_V6_CALLOUT_KEY.
Inductive ContextKey := IPV4_CONTEXT_KEY | IPV6_CONTEXT_KEY.

Inductive Condition :=
| AppId (blob : bytes)
| PackageId (sid : bytes)
| UserId (descriptor : bytes)
| LocalV4 (address mask : Z)
| LocalV6 (address : bytes) (prefix_len : Z)
| LocalInterface (luid : Z)
| RemoteV4 (address mask : Z)
| RemoteV6 (address : bytes) (prefix_len : Z)
| FlagsAnySet (flags : Z)
| IpProtocol (protocol : Z)
| LocalPort (port : Z)
| RemotePort (port : Z).

Inductive Action := Permit | Block | CalloutTerminating (callout : Callout).

Record Filter := mkFilter {
  f_layer : Layer;
  f_weight : Z;
  f_conditions : list Condition;
  f_action : Action;
  f_clear_right : bool;
  f_context : option ContextKey;
}.

#[global] Instance Layer_eq_dec : EqDecision Layer.
Proof. solve_decision. Defined.

(** What a session has added; the filters are in the one sublayer it adds. *)
Record Engine := mkEngine {
  e_provider : bool;
  e_sublayer : option Z;
  e_callouts : list (Callout * Layer);
  e_contexts : list (ContextKey * bytes);
  e_filters : list Filter;
}.

Definition engine_empty : Engine := mkEngine false None [] [] [].

Section Filters.
Context (replies : nat -> option reply).

Abbreviation L := (Effects.L Engine) (only parsing).
Notation "x <- m ; k" := (lbind m (fun x => k)) (at level 100, m at next level, right associativity).

Definition add_provider : L unit :=
  win32 replies (fun e => mkEngine true (e_sublayer e) (e_callouts e) (e_contexts e) (e_filters e)).

Definition add_sublayer (weight : Z) : L unit :=
  win32 replies (fun e => mkEngine (e_provider e) (Some weight) (e_callouts e) (e_contexts e) (e_filters e)).

Definition add_callout (key : Callout) (layer : Layer) : L unit :=
  win32 replies (fun e => mkEngine (e_provider e) (e_sublayer e) (e_callouts e ++ [(key, layer)]) (e_contexts e) (e_filters e)).

Definition add_redirect_context (key : ContextKey) (data : bytes) : L unit :=
  win32 replies (fun e => mkEngine (e_provider e) (e_sublayer e) (e_callouts e) (e_contexts e ++ [(key, data)]) (e_filters e)).

(** [FwpmFilterAdd0] *)
Definition filter_add (f : Filter) : L unit :=
  win32 replies (fun e => mkEngine (e_provider e) (e_sublayer e) (e_callouts e) (e_contexts e) (e_filters e ++ [f])).

(** Begin, configure, and commit or abort. *)
Definition transaction (m : L unit) : L unit :=
  _ <- win32 replies (fun e => e);
  r <- catch m;
  match r with
  | Ok _ => win32 replies (fun e => e)
  | Err e => _ <- modify (fun _ => engine_empty); lthrow e
  | Panic => lres Panic
  end.

(** ** killswitch.rs *)

Definition SUBLAYER_WEIGHT : Z := 0xfffd.
Definition BLOCK_WEIGHT : Z := 0.
Definition PERMIT_WEIGHT : Z := 10.
Definition IPPROTO_UDP : Z := 17.
Definition DHCP_SERVER_PORT : Z := 67.
Definition DHCP_CLIENT_PORT : Z := 68.
Definition FWP_CONDITION_FLAG_IS_LOOPBACK : Z := 1.

Definition add_filter (layer : Layer) (action : Action) (weight : Z) (conditions : list Condition) : L unit :=
  filter_add (mkFilter layer weight conditions action false None).

Definition interface_condition (luid : Z) : Condition := LocalInterface luid.
Definition remote_ipv4_condition (address : Ipv4Addr) : Condition := RemoteV4 address (2 ^ 32 - 1).
Definition remote_ipv6_condition (address : bytes) (prefix_len : Z) : Condition := RemoteV6 address prefix_len.
Definition u8_condition (field : Z -> Condition) (value : Z) : Condition := field value.
Definition u16_condition (field : Z -> Condition) (value : Z) : Condition := field value.
Definition loopback_condition : Condition := FlagsAnySet FWP_CONDITION_FLAG_IS_LOOPBACK.

Definition add_ipv4_filters (server_ip : Ipv4Addr) (tunnel : Z) : L unit :=
  _ <- add_filter ConnectV4 Block BLOCK_WEIGHT [];
  _ <- add_filter ConnectV4 Permit PERMIT_WEIGHT [interface_condition tunnel];
  _ <- add_filter ConnectV4 Permit PERMIT_WEIGHT [remote_ipv4_condition server_ip];
  _ <- add_filter ConnectV4 Permit PERMIT_WEIGHT [loopback_condition];
  add_filter ConnectV4 Permit PERMIT_WEIGHT
    [u8_condition IpProtocol IPPROTO_UDP; u16_condition LocalPort DHCP_CLIENT_PORT; u16_condition RemotePort DHCP_SERVER_PORT].

Definition link_local : bytes := [0xfe; 0x80; 0; 0; 0; 0; 0; 0; 0; 0; 0; 0; 0; 0; 0; 0].

Definition add_ipv6_filters : L unit :=
  _ <- add_filter ConnectV6 Block BLOCK_WEIGHT [];
  _ <- add_filter ConnectV6 Permit PERMIT_WEIGHT [loopback_condition];
  add_filter ConnectV6 Permit PERMIT_WEIGHT [remote_ipv6_condition link_local 10].

Definition kill_switch_transaction (server_ip : Ipv4Addr) (tunnel : Z) : L unit :=
  _ <- add_provider;
  _ <- add_sublayer SUBLAYER_WEIGHT;
  _ <- add_ipv4_filters server_ip tunnel;
  add_ipv6_filters.

(** [KillSwitch::install] opens the engine first. *)
Definition kill_switch_install (server_ip : Ipv4Addr) (tunnel : Z) : L unit :=
  _ <- win32 replies (fun e => e);
  transaction (kill_switch_transaction server_ip tunnel).

(** ** app_bypass.rs *)

Inductive FilterIdentity := Application (blob : bytes) | Package (sid : bytes).

Definition identity_condition (i : FilterIdentity) : Condition :=
  match i with Application blob => AppId blob | Package sid => PackageId sid end.

(** [add_redirect_filter]; no conditions without an identity. *)
Definition add_redirect_filter (identity : option FilterIdentity) (layer : Layer) (callout : Callout) (context : ContextKey) (weight : Z) : L unit :=
  filter_add (mkFilter layer weight (match identity with Some i => [identity_condition i] | None => [] end)
    (CalloutTerminating callout) false (Some context)).

Definition add_permit_filter_for_conditions (conditions : list Condition) (layer : Layer) : L unit :=
  filter_add (mkFilter layer 15 conditions Permit true None).

Definition add_block_filter_for_conditions (conditions : list Condition) (layer : Layer) : L unit :=
  filter_add (mkFilter layer 20 conditions Block true None).

Definition add_permit_filter_for_layer (identity : FilterIdentity) (layer : Layer) : L unit :=
  add_permit_filter_for_conditions [identity_condition identity] layer.

Definition add_permit_filter (identity : FilterIdentity) : L unit := add_permit_filter_for_layer identity ConnectV4.

Definition add_excluded_identity_filters (identity : FilterIdentity) (ipv6 : bool) : L unit :=
  _ <- add_redirect_filter (Some identity) BindV4 BIND_CALLOUT_KEY IPV4_CONTEXT_KEY 15;
  _ <- add_permit_filter identity;
  if ipv6 then
    _ <- add_redirect_filter (Some identity) BindV6 BIND_V6_CALLOUT_KEY IPV6_CONTEXT_KEY 15;
    add_permit_filter_for_layer identity ConnectV6
  else lret tt.

Definition add_default_bypass_filters (ipv6 : bool) : L unit :=
  _ <- add_redirect_filter None BindV4 BIND_CALLOUT_KEY IPV4_CONTEXT_KEY 10;
  if ipv6 then add_redirect_filter None BindV6 BIND_V6_CALLOUT_KEY IPV6_CONTEXT_KEY 10 else lret tt.

Definition local_ipv4_condition (address : Ipv4Addr) : Condition := LocalV4 address (2 ^ 32 - 1).
Definition local_ipv6_condition (address : bytes) : Condition := LocalV6 address 128.

Definition add_direct_ipv4_block_filter (identity : FilterIdentity) (address : Ipv4Addr) : L unit :=
  add_block_filter_for_conditions [identity_condition identity; local_ipv4_condition address] ConnectV4.

Definition add_direct_ipv6_block_filter (identity : FilterIdentity) (address : bytes) : L unit :=
  add_block_filter_for_conditions [identity_condition identity; local_ipv6_condition address] ConnectV6.

Definition add_vpn_identity_filters (identity : FilterIdentity) (addresses : PhysicalAddresses) : L unit :=
  _ <- add_permit_filter_for_layer identity BindV4;
  _ <- add_direct_ipv4_block_filter identity (ipv4 addresses);
  match ipv6 addresses with
  | Some address =>
      _ <- add_permit_filter_for_layer identity BindV6;
      add_direct_ipv6_block_filter identity address
  | None => lret tt
  end.

(** What Windows makes of names: the identifier of an executable, a package SID, the
    descriptor of the DNS Client service. *)
Context (app_id_from_path : str -> option bytes) (sid_from_string : str -> option bytes)
  (system_root : option str) (dns_client_descriptor : option bytes).

Definition resolved {A} (o : option A) : L A := lres (ok_or o ClientError.Platform).

Definition app_id (path : str) : L bytes := resolved (app_id_from_path (normalize_windows_path path)).

(** [PathBuf::join] with a relative path. *)
Definition path_join (directory relative : str) : str :=
  match reverse directory with
  | c :: _ => if (c =? 92) || (c =? 47) then directory ++ relative else directory ++ [92] ++ relative
  | [] => relative
  end.

Definition add_dns_client_vpn_filters (ipv6 : bool) : L unit :=
  root <- resolved system_root;
  blob <- app_id (path_join root (ascii_bytes "System32\svchost.exe"));
  service <- resolved dns_client_descriptor;
  let conditions := [AppId blob; UserId service] in
  _ <- add_permit_filter_for_conditions conditions BindV4;
  if ipv6 then add_permit_filter_for_conditions conditions BindV6 else lret tt.

(** [RedirectContext]: the address family, little-endian, and the address. *)
Definition redirect_ipv4 (address : Ipv4Addr) : bytes := [2; 0; 0; 0] ++ be_bytes 4 address ++ zeros 12.
Definition redirect_ipv6 (address : bytes) : bytes := [23; 0; 0; 0] ++ address.

Fixpoint for_each {A} (f : A -> L unit) (l : list A) : L unit :=
  match l with
  | [] => lret tt
  | a :: l => _ <- f a; for_each f l
  end.

Definition BYPASS_SUBLAYER_WEIGHT : Z := 0xfffe.

Definition bypass_transaction (policy : AppRoutingPolicy) (addresses : PhysicalAddresses) : L unit :=
  let has_ipv6 := bool_decide (is_Some (ipv6 addresses)) in
  _ <- add_provider;
  _ <- add_sublayer BYPASS_SUBLAYER_WEIGHT;
  _ <- add_callout BIND_CALLOUT_KEY BindV4;
  _ <- (if has_ipv6 then add_callout BIND_V6_CALLOUT_KEY BindV6 else lret tt);
  _ <- add_redirect_context IPV4_CONTEXT_KEY (redirect_ipv4 (ipv4 addresses));
  _ <- (match ipv6 addresses with
        | Some address => add_redirect_context IPV6_CONTEXT_KEY (redirect_ipv6 address)
        | None => lret tt
        end);
  match mode policy with
  | AppRoutingMode.Exclude =>
      _ <- for_each (fun path => blob <- app_id path; add_excluded_identity_filters (Application blob) has_ipv6) (apps policy);
      for_each (fun sid => s <- resolved (sid_from_string sid); add_excluded_identity_filters (Package s) has_ipv6) (package_sids policy)
  | AppRoutingMode.Include =>
      _ <- add_default_bypass_filters has_ipv6;
      _ <- add_dns_client_vpn_filters has_ipv6;
      _ <- for_each (fun path => blob <- app_id path; add_vpn_identity_filters (Application blob) addresses) (apps policy);
      for_each (fun sid => s <- resolved (sid_from_string sid); add_vpn_identity_filters (Package s) addresses) (package_sids policy)
  end.

Definition open_engine (policy : AppRoutingPolicy) (addresses : PhysicalAddresses) : L unit :=
  _ <- win32 replies (fun e => e);
  transaction (bypass_transaction policy addresses).

(** *** The guard *)

(** [BypassState]; the engine is open, with its contents, or closed. *)
Record Bypass := mkBypass { b_engine : option Engine; b_policy : AppRoutingPolicy; b_addresses : PhysicalAddresses }.

(** A fresh engine; one that cannot be configured is closed. *)
Definition opened (policy : AppRoutingPolicy) (addresses : PhysicalAddresses) : Effects.L Bypass Engine := fun s w =>
  match open_engine policy addresses engine_empty w with
  | (e, w, Some (Ok _)) => (s, w, Some (Ok e))
  | (_, w, Some (Err x)) => (s, w, Some (Err x))
  | (_, w, Some Panic) => (s, w, Some Panic)
  | (_, w, None) => (s, w, None)
  end.

(** [AppBypassRefresher::refresh], given the addresses of the physical interface. *)
Definition bypass_refresh (current : res ClientError.t PhysicalAddresses) : Effects.L Bypass unit :=
  addresses <- lres current;
  up_to_date <- gets (fun s => bool_decide (addresses = b_addresses s) && bool_decide (is_Some (b_engine s)));
  if up_to_date : bool then lret tt
  else
    _ <- modify (fun s => mkBypass None (b_policy s) (b_addresses s));
    policy <- gets b_policy;
    engine <- opened policy addresses;
    modify (fun s => mkBypass (Some engine) (b_policy s) addresses).

(** [AppBypassGuard::install]: [None] when there is nothing to do; [is_executable] says of a
    path that it is absolute and a file. *)
Definition bypass_install (policy : AppRoutingPolicy) (is_executable : str -> bool) (driver : res ClientError.t unit)
    (current : res ClientError.t PhysicalAddresses) : Effects.L unit (option Bypass) :=
  if bool_decide (apps policy = []) && bool_decide (package_sids policy = []) && bool_decide (mode policy = AppRoutingMode.Exclude)
  then lret None
  else if negb (forallb is_executable (apps policy)) then lthrow ClientError.Platform
  else
    _ <- lres driver;
    addresses <- lres current;
    fun s w =>
      match open_engine policy addresses engine_empty w with
      | (e, w, Some (Ok _)) => (s, w, Some (Ok (Some (mkBypass (Some e) policy addresses))))
      | (_, w, Some (Err x)) => (s, w, Some (Err x))
      | (_, w, Some Panic) => (s, w, Some Panic)
      | (_, w, None) => (s, w, None)
      end.

(** [ensure_driver_started]: what [sc] says of a query, an update, a creation and a start
    (success, and whether the text has error 1056, the service runs already). *)
Record ServiceControl := mkService {
  sc_query : res ClientError.t bool;
  sc_config : res ClientError.t bool;
  sc_create : res ClientError.t bool;
  sc_start : res ClientError.t (bool * bool);
}.

Definition require (r : res ClientError.t bool) : res ClientError.t unit :=
  match r with Ok true => Ok tt | Ok false => Err ClientError.Platform | Err e => Err e | Panic => Panic end.

Definition start_service (sc : ServiceControl) : res ClientError.t unit :=
  require ((fun p : bool * bool => p.1 || p.2) <$> sc_start sc).

Definition ensure_driver_started (is_file : bool) (sc : ServiceControl) : res ClientError.t unit :=
  match sc_query sc with
  | Ok true =>
      if is_file then match require (sc_config sc) with Ok _ => start_service sc | r => r end
      else start_service sc
  | Ok false =>
      if negb is_file then Err ClientError.Platform
      else match require (sc_create sc) with Ok _ => start_service sc | r => r end
  | Err e => Err e
  | Panic => Panic
  end.

End Filters.

(** ** What filters mean *)

Record Traffic := mkTraffic {
  t_layer : Layer;
  t_app : bytes;
  t_package : option bytes;
  t_granted : bytes -> bool;
  t_local4 : Ipv4Addr;
  t_local6 : bytes;
  t_interface : Z;
  t_remote4 : Ipv4Addr;
  t_remote6 : bytes;
  t_flags : Z;
  t_protocol : Z;
  t_local_port : Z;
  t_remote_port : Z;
}.

Definition same_prefix (a b : bytes) (prefix_len : Z) : bool :=
  Z.shiftr (be_value a) (128 - prefix_len) =? Z.shiftr (be_value b) (128 - prefix_len).

Definition holds (t : Traffic) (c : Condition) : bool :=
  match c with
  | AppId blob => bool_decide (t_app t = blob)
  | PackageId sid => bool_decide (t_package t = Some sid)
  | UserId descriptor => t_granted t descriptor
  | LocalV4 address mask => Z.land (t_local4 t) mask =? Z.land address mask
  | LocalV6 address prefix_len => same_prefix (t_local6 t) address prefix_len
  | LocalInterface luid => t_interface t =? luid
  | RemoteV4 address mask => Z.land (t_remote4 t) mask =? Z.land address mask
  | RemoteV6 address prefix_len => same_prefix (t_remote6 t) address prefix_len
  | FlagsAnySet flags => negb (Z.land (t_flags t) flags =? 0)
  | IpProtocol protocol => t_protocol t =? protocol
  | LocalPort port => t_local_port t =? port
  | RemotePort port => t_remote_port t =? port
  end.

(** No filter of these files has two conditions on one field, so all of them must hold. *)
Definition matches (t : Traffic) (f : Filter) : bool :=
  bool_decide (f_layer f = t_layer t) && forallb (holds t) (f_conditions f).

(** Which filter decides in a sublayer, and whether sublayers with these weights allow a
    connection. *)
Class Platform := {
  decides : list Filter -> Traffic -> option Filter;
  allows : list (Z * list Filter) -> Traffic -> bool;
}.

Definition heavier (w : Z) (sublayers : list (Z * list Filter)) : Prop := forall x, x ∈ sublayers -> x.1 < w.

Class PlatformLaws `{Platform} := {
  decides_none fs t : decides fs t = None -> forall f, f ∈ fs -> matches t f = false;
  decides_some fs t f : decides fs t = Some f ->
    f ∈ fs /\ matches t f = true /\ forall g, g ∈ fs -> matches t g = true -> f_weight g <= f_weight f;
  allows_nil t : allows [] t = true;
  allows_undecided w fs rest t : heavier w rest -> decides fs t = None -> allows ((w, fs) :: rest) t = allows rest t;
  allows_block w fs rest t f : heavier w rest -> decides fs t = Some f -> f_action f = Block -> allows ((w, fs) :: rest) t = false;
  allows_permit w fs rest t f : heavier w rest -> decides fs t = Some f -> f_action f = Permit ->
    allows ((w, fs) :: rest) t = f_clear_right f || allows rest t;
}.

(** ** What the transactions add *)

Lemma win32_inv {St} replies (effect : St -> St) s w s' w' : win32 replies effect s w = (s', w', Some (Ok tt)) -> s' = effect s.
Proof.
  unfold win32. intros H. apply lbind_inv in H as (s1 & w1 & r & ->%call_inv & H).
  destruct (r_status r =? ERROR_SUCCESS); by inversion H.
Qed.

(** [m] adds [fs] and nothing else to the filters. *)
Definition adds (m : Effects.L Engine unit) (fs : list Filter) : Prop := forall e w e' w',
  m e w = (e', w', Some (Ok tt)) -> e_filters e' = e_filters e ++ fs /\ e_sublayer e' = e_sublayer e.

Lemma adds_ret : adds (lret tt) [].
Proof. intros e w e' w' [= <- _]. by rewrite app_nil_r. Qed.

Lemma adds_filter replies f : adds (filter_add replies f) [f].
Proof. intros e w e' w' ->%win32_inv. done. Qed.

Lemma adds_bind (m : Effects.L Engine unit) (k : unit -> Effects.L Engine unit) fs gs :
  adds m fs -> adds (k tt) gs -> adds (lbind m k) (fs ++ gs).
Proof.
  intros Hm Hk e w e' w' H. apply lbind_inv in H as (e1 & w1 & [] & H1 & H). apply Hm in H1 as [H1 S1]. apply Hk in H as [H S2].
  rewrite H, H1, app_assoc. split; [done|]. by rewrite S2.
Qed.

Lemma adds_for_each {A} (f : A -> Effects.L Engine unit) (g : A -> list Filter) l :
  (forall a, adds (f a) (g a)) -> adds (for_each f l) (flat_map g l).
Proof. intros Hf. induction l as [|a l IH]; cbn [for_each flat_map]; [apply adds_ret|]. by apply adds_bind. Qed.

Lemma adds_callout replies key layer : adds (add_callout replies key layer) [].
Proof. intros e w e' w' ->%win32_inv. by rewrite app_nil_r. Qed.

Lemma adds_context replies key data : adds (add_redirect_context replies key data) [].
Proof. intros e w e' w' ->%win32_inv. by rewrite app_nil_r. Qed.

Create HintDb adds.
#[export] Hint Resolve adds_ret adds_filter adds_callout adds_context : adds.

(** The filters of the kill switch. *)
Definition kill_switch_filters (server_ip : Ipv4Addr) (tunnel : Z) : list Filter :=
  let f layer action weight conditions := mkFilter layer weight conditions action false None in
  [f ConnectV4 Block 0 []; f ConnectV4 Permit 10 [LocalInterface tunnel];
   f ConnectV4 Permit 10 [RemoteV4 server_ip (2 ^ 32 - 1)]; f ConnectV4 Permit 10 [FlagsAnySet 1];
   f ConnectV4 Permit 10 [IpProtocol 17; LocalPort 68; RemotePort 67];
   f ConnectV6 Block 0 []; f ConnectV6 Permit 10 [FlagsAnySet 1]; f ConnectV6 Permit 10 [RemoteV6 link_local 10]].

Lemma transaction_inv replies m e w e' w' :
  transaction replies m e w = (e', w', Some (Ok tt)) -> exists w1 w2, m e w1 = (e', w2, Some (Ok tt)).
Proof.
  unfold transaction. intros H. apply lbind_inv in H as (e1 & w1 & [] & ->%win32_inv & H).
  apply lbind_inv in H as (e2 & w2 & r & H2 & H). unfold catch in H2.
  destruct (m e w1) as [[e3 w3] [[[]|x|]|]] eqn:E; inversion H2; subst; clear H2.
  - apply win32_inv in H as ->. by exists w1, w2.
  - apply lbind_inv in H as (? & ? & ? & _ & H). discriminate.
Qed.

Lemma kill_switch_installed replies ip tunnel w e w' :
  kill_switch_install replies ip tunnel engine_empty w = (e, w', Some (Ok tt)) ->
  e_filters e = kill_switch_filters ip tunnel /\ e_sublayer e = Some SUBLAYER_WEIGHT.
Proof.
  unfold kill_switch_install. intros H. apply lbind_inv in H as (e1 & w1 & [] & ->%win32_inv & H).
  apply transaction_inv in H as (w2 & w3 & H). unfold kill_switch_transaction in H.
  apply lbind_inv in H as (e2 & w4 & [] & ->%win32_inv & H). apply lbind_inv in H as (e3 & w5 & [] & ->%win32_inv & H).
  assert (Ha : adds (lbind (add_ipv4_filters replies ip tunnel) (fun _ => add_ipv6_filters replies)) (kill_switch_filters ip tunnel)).
  { apply (adds_bind _ _ (take 5 (kill_switch_filters ip tunnel)) (drop 5 (kill_switch_filters ip tunnel))).
    - unfold add_ipv4_filters, add_filter. repeat (eapply (adds_bind _ _ [_]); [apply adds_filter|]). apply adds_filter.
    - unfold add_ipv6_filters, add_filter. repeat (eapply (adds_bind _ _ [_]); [apply adds_filter|]). apply adds_filter. }
  apply Ha in H as [Hf Hs]. by rewrite Hf, Hs.
Qed.

(** The filters of the application bypass. *)
Definition redirect (layer : Layer) (weight : Z) (conditions : list Condition) : Filter :=
  match layer with
  | BindV6 => mkFilter BindV6 weight conditions (CalloutTerminating BIND_V6_CALLOUT_KEY) false (Some IPV6_CONTEXT_KEY)
  | _ => mkFilter BindV4 weight conditions (CalloutTerminating BIND_CALLOUT_KEY) false (Some IPV4_CONTEXT_KEY)
  end.

Definition permit (layer : Layer) (conditions : list Condition) : Filter := mkFilter layer 15 conditions Permit true None.
Definition block (layer : Layer) (conditions : list Condition) : Filter := mkFilter layer 20 conditions Block true None.

Definition excluded_filters (v6 : bool) (i : FilterIdentity) : list Filter :=
  let c := [identity_condition i] in
  [redirect BindV4 15 c; permit ConnectV4 c] ++ if v6 then [redirect BindV6 15 c; permit ConnectV6 c] else [].

Definition vpn_filters (addresses : PhysicalAddresses) (i : FilterIdentity) : list Filter :=
  let c := identity_condition i in
  [permit BindV4 [c]; block ConnectV4 [c; LocalV4 (ipv4 addresses) (2 ^ 32 - 1)]] ++
  match ipv6 addresses with Some a => [permit BindV6 [c]; block ConnectV6 [c; LocalV6 a 128]] | None => [] end.

Definition default_filters (v6 : bool) : list Filter :=
  redirect BindV4 10 [] :: if v6 then [redirect BindV6 10 []] else [].

Definition dns_filters (v6 : bool) (conditions : list Condition) : list Filter :=
  permit BindV4 conditions :: if v6 then [permit BindV6 conditions] else [].

Ltac adds_step := first [apply adds_filter | eapply (adds_bind _ _ [_]); [apply adds_filter|]].

Lemma adds_excluded replies i v6 : adds (add_excluded_identity_filters replies i v6) (excluded_filters v6 i).
Proof.
  unfold add_excluded_identity_filters, excluded_filters. adds_step. adds_step.
  destruct v6; [|apply adds_ret]. repeat adds_step.
Qed.

Lemma adds_vpn replies i addresses : adds (add_vpn_identity_filters replies i addresses) (vpn_filters addresses i).
Proof.
  unfold add_vpn_identity_filters, vpn_filters. adds_step. adds_step.
  destruct (ipv6 addresses); [|apply adds_ret]. repeat adds_step.
Qed.

Lemma adds_default replies v6 : adds (add_default_bypass_filters replies v6) (default_filters v6).
Proof. unfold add_default_bypass_filters, default_filters. adds_step. destruct v6; [adds_step|apply adds_ret]. Qed.

Section Bypass.
Context (replies : nat -> option reply) (app_id_from_path : str -> option bytes) (sid_from_string : str -> option bytes)
  (system_root : option str) (dns_client_descriptor : option bytes).

(** The identities of a policy, as Windows resolves them. *)
Definition identities (policy : AppRoutingPolicy) : list FilterIdentity :=
  omap (fun path => Application <$> app_id_from_path (normalize_windows_path path)) (apps policy) ++
  omap (fun sid => Package <$> sid_from_string sid) (package_sids policy).

Definition dns_client_conditions : list Condition :=
  match system_root, dns_client_descriptor with
  | Some root, Some service =>
      match app_id_from_path (normalize_windows_path (path_join root (ascii_bytes "System32\svchost.exe"))) with
      | Some blob => [AppId blob; UserId service]
      | None => []
      end
  | _, _ => []
  end.

Definition bypass_filters (policy : AppRoutingPolicy) (addresses : PhysicalAddresses) : list Filter :=
  let v6 := bool_decide (is_Some (ipv6 addresses)) in
  match mode policy with
  | AppRoutingMode.Exclude => flat_map (excluded_filters v6) (identities policy)
  | AppRoutingMode.Include =>
      default_filters v6 ++ dns_filters v6 dns_client_conditions ++ flat_map (vpn_filters addresses) (identities policy)
  end.

Lemma adds_resolved {A} (o : option A) (k : A -> Effects.L Engine unit) (g : A -> list Filter) :
  (forall a, adds (k a) (g a)) -> adds (lbind (resolved o) k) (match o with Some a => g a | None => [] end).
Proof.
  intros Hk e w e' w' H. apply lbind_inv in H as (e1 & w1 & a & H1 & H). destruct o; inversion H1; subst. by apply Hk in H.
Qed.

Lemma flat_map_omap {A B C} (f : A -> option B) (g : B -> list C) l :
  flat_map g (omap f l) = flat_map (fun a => match f a with Some b => g b | None => [] end) l.
Proof. induction l as [|a l IH]; [done|]. cbn. destruct (f a); cbn; by rewrite IH. Qed.

Lemma adds_identities (k : FilterIdentity -> Effects.L Engine unit) (g : FilterIdentity -> list Filter) policy :
  (forall i, adds (k i) (g i)) ->
  adds (lbind (for_each (fun path => lbind (app_id app_id_from_path path) (fun blob => k (Application blob))) (apps policy))
    (fun _ => for_each (fun sid => lbind (resolved (sid_from_string sid)) (fun s => k (Package s))) (package_sids policy)))
    (flat_map g (identities policy)).
Proof.
  intros Hk. unfold identities. rewrite flat_map_app, !flat_map_omap. apply adds_bind; apply adds_for_each; intros a.
  - pose proof (adds_resolved (app_id_from_path (normalize_windows_path a)) (fun blob => k (Application blob)) (fun b => g (Application b))
      ltac:(intros; apply Hk)) as H. unfold app_id. by destruct (app_id_from_path _).
  - pose proof (adds_resolved (sid_from_string a) (fun s => k (Package s)) (fun b => g (Package b)) ltac:(intros; apply Hk)) as H.
    by destruct (sid_from_string a).
Qed.

Lemma adds_dns v6 : adds (add_dns_client_vpn_filters replies app_id_from_path system_root dns_client_descriptor v6) (dns_filters v6 dns_client_conditions).
Proof.
  intros e w e' w' H. unfold add_dns_client_vpn_filters in H. apply lbind_inv in H as (e1 & w1 & root & H1 & H).
  apply lbind_inv in H as (e2 & w2 & blob & H2 & H). apply lbind_inv in H as (e3 & w3 & service & H3 & H).
  unfold dns_client_conditions. destruct system_root; inversion H1; subst. unfold app_id in H2.
  destruct (app_id_from_path _); inversion H2; subst. destruct dns_client_descriptor; inversion H3; subst.
  revert H. unfold dns_filters. generalize [AppId blob; UserId service]. intros c.
  eapply (adds_bind _ _ [_]); [apply adds_filter|]. destruct v6; [apply adds_filter|apply adds_ret].
Qed.

Lemma bypass_opened policy addresses w e w' :
  open_engine replies app_id_from_path sid_from_string system_root dns_client_descriptor policy addresses engine_empty w = (e, w', Some (Ok tt)) ->
  e_filters e = bypass_filters policy addresses /\ e_sublayer e = Some BYPASS_SUBLAYER_WEIGHT.
Proof.
  unfold open_engine. intros H. apply lbind_inv in H as (e1 & w1 & [] & ->%win32_inv & H).
  apply transaction_inv in H as (w2 & w3 & H). unfold bypass_transaction in H.
  apply lbind_inv in H as (e2 & w4 & [] & ->%win32_inv & H). apply lbind_inv in H as (e3 & w5 & [] & ->%win32_inv & H).
  match type of H with ?m ?e0 _ = _ => assert (Ha : adds m (bypass_filters policy addresses)); [|apply Ha in H as [-> ->]; done] end.
  unfold bypass_filters. apply (adds_bind _ _ []); [apply adds_callout|].
  apply (adds_bind _ _ []); [destruct (bool_decide _); [apply adds_callout|apply adds_ret]|].
  apply (adds_bind _ _ []); [apply adds_context|].
  apply (adds_bind _ _ []); [destruct (ipv6 addresses); [apply adds_context|apply adds_ret]|].
  destruct (mode policy).
  - apply (adds_identities (fun i => add_excluded_identity_filters replies i _)). intros i. apply adds_excluded.
  - apply adds_bind; [apply adds_default|]. apply adds_bind; [apply adds_dns|]. 
    apply (adds_identities (fun i => add_vpn_identity_filters replies i addresses)). intros i. apply adds_vpn.
Qed.

End Bypass.

(** ** The kill switch *)

Definition is_permit (f : Filter) : bool := match f_action f with Permit => true | _ => false end.
Definition is_block (f : Filter) : bool := match f_action f with Block => true | _ => false end.

Section Platform.
Context `{P : Platform} {HP : PlatformLaws}.

(** A catch-all of weight 0 under permits of weight 10. *)
Lemma fence_allows w fs t :
  (forall f, f ∈ fs -> (f_action f = Block /\ f_weight f = 0) \/ (f_action f = Permit /\ f_weight f = 10)) ->
  existsb (fun f => is_block f && matches t f) fs = true ->
  allows [(w, fs)] t = existsb (fun f => is_permit f && matches t f) fs.
Proof.
  intros Hfs Hb. assert (Hh : heavier w []) by (intros x Hx; by apply elem_of_nil in Hx).
  destruct (decides fs t) as [f|] eqn:E.
  - pose proof (decides_some _ _ _ E) as (Hin & Hm & Hmax). destruct (Hfs f Hin) as [[Ha Hw]|[Ha Hw]].
    + rewrite (allows_block w fs [] t f Hh E Ha). symmetry. apply not_true_is_false. intros (g & Hg & Hp)%existsb_exists.
      apply list_elem_of_In in Hg. apply andb_true_iff in Hp as [Hp Hmg]. specialize (Hmax g Hg Hmg).
      unfold is_permit in Hp. destruct (Hfs g Hg) as [[Hga _]|[_ Hgw]]; [by rewrite Hga in Hp|lia].
    + rewrite (allows_permit w fs [] t f Hh E Ha), allows_nil, orb_true_r. symmetry. apply existsb_exists.
      exists f. split; [by apply list_elem_of_In|]. unfold is_permit. by rewrite Ha.
  - apply existsb_exists in Hb as (g & Hg & Hp). apply andb_true_iff in Hp as [_ Hm].
    by rewrite (decides_none _ _ E g) in Hm by by apply list_elem_of_In.
Qed.

(** The connections the kill switch is meant to let through. *)
Definition dhcp (t : Traffic) : bool := (t_protocol t =? 17) && (t_local_port t =? 68) && (t_remote_port t =? 67).
Definition loopback (t : Traffic) : bool := negb (Z.land (t_flags t) 1 =? 0).

Definition fenced_in (server_ip : Ipv4Addr) (tunnel : Z) (t : Traffic) : bool :=
  match t_layer t with
  | ConnectV4 => (t_interface t =? tunnel) || (t_remote4 t =? server_ip) || loopback t || dhcp t
  | ConnectV6 => loopback t || same_prefix (t_remote6 t) link_local 10
  | BindV4 | BindV6 => true
  end.

Lemma land_u32 a : 0 <= a < 2 ^ 32 -> Z.land a (2 ^ 32 - 1) = a.
Proof. intros Hb. replace (2 ^ 32 - 1) with (Z.ones 32) by done. rewrite Z.land_ones by lia. by apply Z.mod_small. Qed.

Lemma kill_switch_allows w ip tunnel t :
  0 <= ip < 2 ^ 32 -> 0 <= t_remote4 t < 2 ^ 32 ->
  allows [(w, kill_switch_filters ip tunnel)] t = fenced_in ip tunnel t.
Proof.
  intros Hip Hr. assert (Hh : heavier w []) by (intros x Hx; by apply elem_of_nil in Hx).
  assert (Hfs : forall f, f ∈ kill_switch_filters ip tunnel ->
    (f_action f = Block /\ f_weight f = 0) \/ (f_action f = Permit /\ f_weight f = 10)).
  { intros f Hf. apply list_elem_of_In in Hf. cbn in Hf. naive_solver. }
  destruct (t_layer t) eqn:El.
  1,2: rewrite fence_allows; [|done|unfold matches, kill_switch_filters; cbn -[Z.land Z.pow]; rewrite El; cbn; by rewrite ?orb_true_r].
  1,2: unfold fenced_in, matches, dhcp, loopback; cbn -[Z.land Z.pow]; rewrite El; repeat case_bool_decide; try done;
    cbn -[Z.land Z.pow]; rewrite ?land_u32, ?andb_true_r, ?orb_false_r, ?andb_assoc by done; by rewrite ?orb_assoc.
  all: destruct (decides (kill_switch_filters ip tunnel) t) as [f|] eqn:E;
    [|rewrite (allows_undecided _ _ _ _ Hh E), allows_nil; unfold fenced_in; by rewrite El].
  all: apply decides_some in E as (Hin & Hm & _); apply list_elem_of_In in Hin; unfold matches in Hm; rewrite El in Hm;
    cbn in Hin; naive_solver.
Qed.

(** ** Exclusions above the kill switch *)

(** A process under one of the identities. *)
Definition listed (ids : list FilterIdentity) (t : Traffic) : bool := existsb (fun i => holds t (identity_condition i)) ids.

Lemma listed_spec ids t : listed ids t = true <-> exists i, i ∈ ids /\ holds t (identity_condition i) = true.
Proof. unfold listed. rewrite existsb_exists. split; intros (i & Hi & Hh); exists i; by rewrite list_elem_of_In in *. Qed.

Lemma excluded_member v6 ids f :
  f ∈ flat_map (excluded_filters v6) ids -> exists i, i ∈ ids /\ f ∈ excluded_filters v6 i.
Proof. rewrite list_elem_of_In, in_flat_map. intros (i & Hi & Hf). exists i. by rewrite !list_elem_of_In. Qed.

(** At the connect layers the exclusions only permit, for good. *)
Lemma excluded_connect v6 ids t f :
  t_layer t = ConnectV4 \/ t_layer t = ConnectV6 -> f ∈ flat_map (excluded_filters v6) ids -> matches t f = true ->
  f_action f = Permit /\ f_clear_right f = true /\ listed ids t = true.
Proof.
  intros Hl (i & Hi & Hf)%excluded_member Hm. unfold matches in Hm. apply andb_true_iff in Hm as [Hb Hc].
  apply bool_decide_eq_true in Hb. rewrite list_elem_of_In in Hf.
  assert (Hx : forall l, f = permit l [identity_condition i] -> f_action f = Permit /\ f_clear_right f = true /\ listed ids t = true).
  { intros l ->. split; [done|]. split; [done|]. apply listed_spec. exists i. split; [done|]. cbn in Hc. by rewrite andb_true_r in Hc. }
  destruct v6; cbn in Hf; destruct Hl as [Hl|Hl]; rewrite Hl in Hb; naive_solver.
Qed.

Lemma excluded_found v6 ids t l :
  listed ids t = true -> t_layer t = l -> l = ConnectV4 \/ (l = ConnectV6 /\ v6 = true) ->
  exists f, f ∈ flat_map (excluded_filters v6) ids /\ matches t f = true.
Proof.
  intros (i & Hi & Hh)%listed_spec Hl Hc. exists (permit l [identity_condition i]). split.
  - rewrite list_elem_of_In, in_flat_map. exists i. split; [by apply list_elem_of_In|]. destruct Hc as [->|[-> ->]]; cbn; auto.
  - unfold matches. cbn. rewrite Hh, Hl. by rewrite bool_decide_eq_true_2.
Qed.

(** [C25] The kill switch.  With the filters both parts install for a full tunnel, a
    connection is allowed exactly when it uses the tunnel, goes to the server, is loopback
    or DHCP (over IPv6: loopback or link-local), or belongs to an excluded application
    (over IPv6: when the machine has an IPv6 address to bind it to); without exclusions the
    last case is void. *)
Theorem kill_switch_lets_through
    replies app_id_from_path sid_from_string system_root dns_descriptor policy addresses ip tunnel
    wb bypass wb' wk kill wk' t :
  open_engine replies app_id_from_path sid_from_string system_root dns_descriptor policy addresses engine_empty wb = (bypass, wb', Some (Ok tt)) ->
  kill_switch_install replies ip tunnel engine_empty wk = (kill, wk', Some (Ok tt)) ->
  mode policy = AppRoutingMode.Exclude -> 0 <= ip < 2 ^ 32 -> 0 <= t_remote4 t < 2 ^ 32 ->
  t_layer t = ConnectV4 \/ t_layer t = ConnectV6 ->
  exists weight_b weight_k, e_sublayer bypass = Some weight_b /\ e_sublayer kill = Some weight_k /\
  allows [(weight_b, e_filters bypass); (weight_k, e_filters kill)] t =
    (listed (identities app_id_from_path sid_from_string policy) t &&
       (bool_decide (t_layer t = ConnectV4) || bool_decide (is_Some (ipv6 addresses))))
    || fenced_in ip tunnel t.
Proof.
  intros Hb Hk Hmode Hip Hr Hl. apply bypass_opened in Hb as [Hfb ->]. apply kill_switch_installed in Hk as [Hfk ->].
  exists BYPASS_SUBLAYER_WEIGHT, SUBLAYER_WEIGHT. split; [done|]. split; [done|]. rewrite Hfb, Hfk. unfold bypass_filters. rewrite Hmode.
  set (ids := identities _ _ _). set (v6 := bool_decide (is_Some (ipv6 addresses))). set (fs := flat_map _ ids).
  assert (Hh : heavier BYPASS_SUBLAYER_WEIGHT [(SUBLAYER_WEIGHT, kill_switch_filters ip tunnel)])
    by (intros x ->%list_elem_of_singleton; done).
  destruct (decides fs t) as [f|] eqn:E.
  - pose proof (decides_some _ _ _ E) as (Hin & Hm & _).
    destruct (excluded_connect v6 ids t f Hl Hin Hm) as (Ha & Hc & Hlist).
    rewrite (allows_permit _ _ _ _ _ Hh E Ha), Hc, Hlist. cbn [andb orb].
    destruct (bool_decide (t_layer t = ConnectV4)) eqn:E4; [done|]. apply bool_decide_eq_false in E4.
    destruct Hl as [Hl|Hl]; [done|]. destruct v6; [done|]. exfalso.
    apply excluded_member in Hin as (i & _ & Hi). rewrite list_elem_of_In in Hi. unfold matches in Hm. rewrite Hl in Hm.
    cbn in Hi. naive_solver.
  - rewrite (allows_undecided _ _ _ _ Hh E), (kill_switch_allows _ _ _ _ Hip Hr).
    destruct (listed ids t && (bool_decide (t_layer t = ConnectV4) || v6)) eqn:Ex; [|done]. exfalso.
    apply andb_true_iff in Ex as [Hlist Hlay].
    destruct (excluded_found v6 ids t (t_layer t) Hlist eq_refl) as (f & Hf & Hm).
    { apply orb_true_iff in Hlay as [Hlay%bool_decide_eq_true|Hv]; [by left|]. destruct Hl as [?|?]; [by left|by right]. }
    by rewrite (decides_none _ _ E f Hf) in Hm.
Qed.

(** ** The include mode *)

Definition include_filters (addresses : PhysicalAddresses) (dns : list Condition) (ids : list FilterIdentity) : list Filter :=
  let v6 := bool_decide (is_Some (ipv6 addresses)) in
  default_filters v6 ++ dns_filters v6 dns ++ flat_map (vpn_filters addresses) ids.

Definition served (addresses : PhysicalAddresses) (l : Layer) : Prop := l = BindV4 \/ (l = BindV6 /\ is_Some (ipv6 addresses)).

Lemma include_bind addresses dns ids t f :
  served addresses (t_layer t) -> f ∈ include_filters addresses dns ids -> matches t f = true ->
  f = redirect (t_layer t) 10 [] \/
  ((f_action f = Permit /\ f_weight f = 15) /\ (forallb (holds t) dns = true \/ listed ids t = true)).
Proof.
  intros Hs Hf Hm. unfold matches in Hm. apply andb_true_iff in Hm as [Hb Hc]. apply bool_decide_eq_true in Hb.
  unfold include_filters in Hf. rewrite !elem_of_app in Hf. destruct Hf as [Hf|[Hf|Hf]].
  - left. rewrite <- Hb in *. apply list_elem_of_In in Hf. destruct (bool_decide _); cbn in Hf; naive_solver.
  - right. apply list_elem_of_In in Hf. destruct (bool_decide _); cbn in Hf; naive_solver.
  - right. rewrite list_elem_of_In, in_flat_map in Hf. destruct Hf as (i & Hi & Hf).
    assert (Hx : holds t (identity_condition i) = true -> listed ids t = true)
      by (intros Hh; apply listed_spec; exists i; by rewrite list_elem_of_In).
    rewrite <- Hb in Hs. unfold vpn_filters in Hf. rewrite in_app_iff in Hf.
    assert (Hperm : forall l, f = permit l [identity_condition i] ->
      (f_action f = Permit /\ f_weight f = 15) /\ (forallb (holds t) dns = true \/ listed ids t = true)).
    { intros l ->. split; [done|]. right. apply Hx. cbn in Hc. by rewrite andb_true_r in Hc. }
    assert (Hblock : forall l c, f = block l c -> l = ConnectV4 \/ l = ConnectV6 -> False)
      by (intros l c -> [->| ->]; by destruct Hs as [?|[? _]]).
    destruct Hf as [[<-|[<-|[]]]|Hf]; [by eapply Hperm|by edestruct Hblock; eauto|].
    destruct (ipv6 addresses); [|destruct Hf]. destruct Hf as [<-|[<-|[]]]; [by eapply Hperm|by edestruct Hblock; eauto].
Qed.

Lemma include_found addresses dns ids t :
  served addresses (t_layer t) -> forallb (holds t) dns || listed ids t = true ->
  exists f, f ∈ include_filters addresses dns ids /\ matches t f = true /\ f_weight f = 15.
Proof.
  intros Hs Hd. unfold include_filters. apply orb_true_iff in Hd as [Hd|(i & Hi & Hh)%listed_spec].
  - exists (permit (t_layer t) dns). split; [|split; [|done]].
    + rewrite !elem_of_app. right. left. rewrite list_elem_of_In. destruct Hs as [->|[-> Hv]]; cbn; [by left|].
      rewrite bool_decide_eq_true_2 by done. cbn. auto.
    + unfold matches. cbn. rewrite Hd. by rewrite bool_decide_eq_true_2.
  - exists (permit (t_layer t) [identity_condition i]). split; [|split; [|done]].
    + rewrite !elem_of_app. right. right. rewrite list_elem_of_In, in_flat_map. exists i. split; [by apply list_elem_of_In|].
      unfold vpn_filters. destruct Hs as [->|[-> [a Hv]]]; [cbn; auto|]. rewrite Hv. cbn. auto.
    + unfold matches. cbn. rewrite Hh. by rewrite bool_decide_eq_true_2.
Qed.

Lemma include_connect addresses dns ids t f :
  t_layer t = ConnectV4 -> f ∈ include_filters addresses dns ids -> matches t f = true ->
  f_action f = Block /\ listed ids t = true /\ Z.land (t_local4 t) (2 ^ 32 - 1) = Z.land (ipv4 addresses) (2 ^ 32 - 1).
Proof.
  intros Hl Hf Hm. unfold matches in Hm. apply andb_true_iff in Hm as [Hb Hc]. apply bool_decide_eq_true in Hb. rewrite Hl in Hb.
  unfold include_filters in Hf. rewrite !elem_of_app in Hf. destruct Hf as [Hf|[Hf|Hf]].
  - apply list_elem_of_In in Hf. destruct (bool_decide _); cbn in Hf; naive_solver.
  - apply list_elem_of_In in Hf. destruct (bool_decide _); cbn in Hf; naive_solver.
  - rewrite list_elem_of_In, in_flat_map in Hf. destruct Hf as (i & Hi & Hf).
    assert (f = block ConnectV4 [identity_condition i; LocalV4 (ipv4 addresses) (2 ^ 32 - 1)]) as ->
      by (unfold vpn_filters in Hf; rewrite in_app_iff in Hf; destruct Hf as [[<-|[<-|[]]]|Hf]; [done|done|];
          destruct (ipv6 addresses); [destruct Hf as [<-|[<-|[]]]; done|destruct Hf]).
    cbn -[Z.land Z.pow] in Hc. rewrite andb_true_r in Hc. apply andb_true_iff in Hc as [Hc1 Hc2%Z.eqb_eq].
    split; [done|]. split; [|done]. apply listed_spec. exists i. by rewrite list_elem_of_In.
Qed.

(** The include mode.  When only the listed applications use the tunnel, the sockets of
    every other process are bound to the physical interface, IPv4 and, where the machine has
    it, IPv6, and those of the listed ones and of the DNS Client service are left alone; and
    a listed application that binds to the physical address itself is not allowed to
    connect over IPv4. *)
Theorem include_mode_binds
    replies app_id_from_path sid_from_string system_root dns_descriptor policy addresses wb bypass wb' t :
  open_engine replies app_id_from_path sid_from_string system_root dns_descriptor policy addresses engine_empty wb = (bypass, wb', Some (Ok tt)) ->
  mode policy = AppRoutingMode.Include ->
  let ids := identities app_id_from_path sid_from_string policy in
  let dns := forallb (holds t) (dns_client_conditions app_id_from_path system_root dns_descriptor) in
  (served addresses (t_layer t) -> exists f, decides (e_filters bypass) t = Some f /\
     if dns || listed ids t then f_action f = Permit else f = redirect (t_layer t) 10 []) /\
  (t_layer t = ConnectV4 -> 0 <= t_local4 t < 2 ^ 32 -> 0 <= ipv4 addresses < 2 ^ 32 -> forall weight,
     allows [(weight, e_filters bypass)] t = negb (listed ids t && (t_local4 t =? ipv4 addresses))).
Proof.
  intros Hb Hmode ids dns. apply bypass_opened in Hb as [Hfb _]. rewrite Hfb. unfold bypass_filters. rewrite Hmode. fold ids.
  set (conditions := dns_client_conditions _ _ _) in *.
  change (default_filters (bool_decide (is_Some (ipv6 addresses))) ++
    dns_filters (bool_decide (is_Some (ipv6 addresses))) conditions ++ flat_map (vpn_filters addresses) ids)
    with (include_filters addresses conditions ids). set (fs := include_filters addresses conditions ids). split.
  - intros Hs. destruct (decides fs t) as [f|] eqn:E.
    + exists f. split; [done|]. pose proof (decides_some _ _ _ E) as (Hin & Hm & Hmax).
      destruct (include_bind _ _ _ _ _ Hs Hin Hm) as [->|[[Ha Hw] Hor]].
      * destruct (dns || listed ids t) eqn:Ex; [|done]. destruct (include_found _ _ _ _ Hs Ex) as (g & Hg & Hmg & Hgw).
        specialize (Hmax g Hg Hmg). destruct (t_layer t); cbn in Hmax; lia.
      * assert (dns || listed ids t = true) as -> by (apply orb_true_iff; exact Hor). done.
    + exfalso. assert (Hd : redirect (t_layer t) 10 [] ∈ fs).
      { unfold fs, include_filters. rewrite !elem_of_app. left. rewrite list_elem_of_In.
        destruct Hs as [->|[-> Hv]]; cbn; [by left|]. rewrite bool_decide_eq_true_2 by done. cbn. auto. }
      pose proof (decides_none _ _ E _ Hd) as Hm. unfold matches in Hm. destruct Hs as [Hl|[Hl _]]; by rewrite Hl in Hm.
  - intros Hl Ht Ha weight. assert (Hh : heavier weight []) by (intros x Hx; by apply elem_of_nil in Hx).
    destruct (decides fs t) as [f|] eqn:E.
    + pose proof (decides_some _ _ _ E) as (Hin & Hm & _). destruct (include_connect _ _ _ _ _ Hl Hin Hm) as (Hact & Hlist & Heq).
      rewrite (allows_block _ _ _ _ _ Hh E Hact), Hlist. rewrite !land_u32 in Heq by done. by rewrite Heq, Z.eqb_refl.
    + rewrite (allows_undecided _ _ _ _ Hh E), allows_nil.
      destruct (listed ids t && (t_local4 t =? ipv4 addresses)) eqn:Ex; [|done]. exfalso.
      apply andb_true_iff in Ex as [(i & Hi & Hhold)%listed_spec Heq%Z.eqb_eq].
      assert (Hf : block ConnectV4 [identity_condition i; LocalV4 (ipv4 addresses) (2 ^ 32 - 1)] ∈ fs).
      { unfold fs, include_filters. rewrite !elem_of_app. right. right. rewrite list_elem_of_In, in_flat_map.
        exists i. split; [by apply list_elem_of_In|]. cbn. auto. }
      pose proof (decides_none _ _ E _ Hf) as Hm. unfold matches in Hm. cbn -[Z.land Z.pow] in Hm.
      by rewrite Hl, Hhold, Heq, Z.eqb_refl in Hm.
Qed.

End Platform.

(** ** Refreshing *)

Section Refresh.
Context (replies : nat -> option reply) (app_id_from_path : str -> option bytes) (sid_from_string : str -> option bytes)
  (system_root : option str) (dns_client_descriptor : option bytes).

(** An open engine has the filters of the policy for the addresses of its state. *)
Definition faithful (s : Bypass) : Prop := forall e, b_engine s = Some e ->
  e_filters e = bypass_filters app_id_from_path sid_from_string system_root dns_client_descriptor (b_policy s) (b_addresses s).

(** Refreshing the application bypass.  However a refresh ends, the process killed in
    the middle included, the filters in force are those of the policy for the addresses they
    were made for; when it succeeds they are in force and made for the current addresses;
    when the engine cannot be reopened none is in force, which the kill switch below then
    blocks, and a later refresh tries again even if the addresses have not changed. *)
Theorem refresh_is_current_or_closed current s w :
  faithful s ->
  let refresh := bypass_refresh replies app_id_from_path sid_from_string system_root dns_client_descriptor in
  let '(s', _, r) := refresh (Ok current) s w in
  faithful s' /\ b_policy s' = b_policy s /\
  match r with
  | Some (Ok tt) => is_Some (b_engine s') /\ b_addresses s' = current
  | _ => b_engine s' = None /\ forall w2 s2 w2', refresh (Ok current) s' w2 = (s2, w2', Some (Ok tt)) -> is_Some (b_engine s2)
  end.
Proof.
  intros Hs refresh. assert (Hopen : forall s w s1 w1 r,
    refresh (Ok current) s w = (s1, w1, r) -> faithful s -> faithful s1 /\ b_policy s1 = b_policy s /\
    match r with Some (Ok tt) => is_Some (b_engine s1) /\ b_addresses s1 = current | _ => b_engine s1 = None end).
  { clear s w Hs. intros s w s1 w1 r H Hs. unfold refresh, bypass_refresh, lbind, lres, gets in H.
    destruct (bool_decide (current = b_addresses s) && bool_decide (is_Some (b_engine s))) eqn:E.
    { inversion H; subst. apply andb_true_iff in E as [E1%bool_decide_eq_true E2%bool_decide_eq_true]. by subst. }
    unfold modify, opened in H. cbn in H.
    match type of H with context [open_engine ?a ?b ?c ?d ?e ?p ?q ?x w] => destruct (open_engine a b c d e p q x w) as [[e0 w0] [[[]|x0|]|]] eqn:Eo end;
      inversion H; subst; clear H; try (split; [by intros e' He'|done]).
    apply bypass_opened in Eo as [Ef _]. split; [by intros e' [= <-]|]. by split. }
  destruct (refresh (Ok current) s w) as [[s' w'] r] eqn:E. destruct (Hopen s w s' w' r E Hs) as (Hf & Hp & Hr).
  split; [done|]. split; [done|]. destruct r as [[[]|e|]|]; [done|..]; (split; [done|]);
    intros w2 s2 w2' H2; by destruct (Hopen s' w2 s2 w2' _ H2 Hf) as (_ & _ & ? & _).
Qed.

End Refresh.

(** ** A machine with one excluded application *)

Module ToyWfp.
Import ToyHandshake ToyNetwork.

(** The documented arbitration, executable. *)
Definition heaviest (best : option Filter) (f : Filter) : option Filter :=
  match best with
  | Some g => if f_weight g <? f_weight f then Some f else Some g
  | None => Some f
  end.

Definition toy_decides (fs : list Filter) (t : Traffic) : option Filter := foldl heaviest None (filter (matches t) fs).

Fixpoint toy_allows (sublayers : list (Z * list Filter)) (t : Traffic) : bool :=
  match sublayers with
  | [] => true
  | (_, fs) :: rest =>
      match toy_decides fs t with
      | None => toy_allows rest t
      | Some f => match f_action f with Block => false | Permit => f_clear_right f || toy_allows rest t | _ => true end
      end
  end.

#[export] Instance toy_platform : Platform := { decides := toy_decides; allows := toy_allows }.

Lemma heaviest_spec fs best :
  match foldl heaviest best fs with
  | None => best = None /\ fs = []
  | Some f => (best = Some f \/ f ∈ fs) /\ (forall g, g ∈ fs -> f_weight g <= f_weight f) /\
              (forall g, best = Some g -> f_weight g <= f_weight f)
  end.
Proof.
  revert best. induction fs as [|f fs IH]; intros best; cbn [foldl].
  - destruct best; [|done]. split; [by left|]. split; [intros g Hg; by apply elem_of_nil in Hg|]. intros g [= ->]. lia.
  - specialize (IH (heaviest best f)). destruct (foldl heaviest (heaviest best f) fs) as [g|].
    + destruct IH as (Hin & Hmax & Hb).
      assert (Hbest : f_weight f <= f_weight g /\ forall h, best = Some h -> f_weight h <= f_weight g).
      { unfold heaviest in Hb. destruct best as [h|]; [|split; [by apply Hb|done]].
        destruct (Z.ltb_spec (f_weight h) (f_weight f)); specialize (Hb _ eq_refl); split; try lia; intros h' [= <-]; lia. }
      split; [|split; [intros h [->|Hh]%elem_of_cons; [exact (proj1 Hbest)|by apply Hmax]|exact (proj2 Hbest)]].
      destruct Hin as [Hin|Hin]; [|right; by right]. unfold heaviest in Hin. destruct best as [h|]; [|right; apply elem_of_cons; left; congruence].
      destruct (f_weight h <? f_weight f); inversion Hin; subst; [right; by left|by left].
    + destruct IH as [IH _]. unfold heaviest in IH. destruct best as [h|]; [destruct (f_weight h <? f_weight f); discriminate|discriminate].
Qed.

#[export] Instance toy_platform_laws : PlatformLaws.
Proof.
  split.
  - intros fs t. cbn. unfold toy_decides. pose proof (heaviest_spec (filter (matches t) fs) None) as H.
    intros E. rewrite E in H. destruct H as [_ H]. intros f Hf. destruct (matches t f) eqn:Em; [|done].
    assert (Hx : f ∈ filter (matches t) fs) by (apply list_elem_of_filter; by rewrite Em). rewrite H in Hx. by apply elem_of_nil in Hx.
  - intros fs t f. cbn. unfold toy_decides. pose proof (heaviest_spec (filter (matches t) fs) None) as H.
    intros E. rewrite E in H. destruct H as ([?|Hin] & Hmax & _); [done|]. apply list_elem_of_filter in Hin as [Hm Hin].
    split; [done|]. split; [by apply Is_true_true|]. intros g Hg Hmg. apply Hmax, list_elem_of_filter. by rewrite Hmg.
  - done.
  - intros w fs rest t _ E. cbn in *. by rewrite E.
  - intros w fs rest t f _ E Ha. cbn in *. by rewrite E, Ha.
  - intros w fs rest t f _ E Ha. cbn in *. by rewrite E, Ha.
Qed.

Definition browser : str := ascii_bytes "C:\browser.exe".
Definition policy_of (m : AppRoutingMode.t) : AppRoutingPolicy := mkPolicy m [browser] [].
Definition physical : PhysicalAddresses := mkPhysical (ipv4_new 192 168 0 7) None.

(** Everything succeeds; an executable is identified by its path. *)
Definition replies (i : nat) : option reply := Some fine.
Definition engine (m : AppRoutingMode.t) : Engine :=
  (open_engine replies Some Some (Some (ascii_bytes "C:\Windows")) (Some [1]) (policy_of m) physical engine_empty before).1.1.
Definition kill : Engine := (kill_switch_install replies server 9 engine_empty before).1.1.

(** A connection of an application to 8.8.8.8 over the physical interface. *)
Definition connection (layer : Layer) (app : bytes) : Traffic :=
  mkTraffic layer app None (fun _ => false) (ipv4_new 192 168 0 7) (zeros 16) 7 (ipv4_new 8 8 8 8) (zeros 16) 0 6 50000 443.

Definition sublayers : list (Z * list Filter) := [(BYPASS_SUBLAYER_WEIGHT, e_filters (engine AppRoutingMode.Exclude)); (SUBLAYER_WEIGHT, e_filters kill)].

Lemma engine_opened m : exists w,
  open_engine replies Some Some (Some (ascii_bytes "C:\Windows")) (Some [1]) (policy_of m) physical engine_empty before = (engine m, w, Some (Ok tt)).
Proof. destruct m; eexists; vm_compute; reflexivity. Qed.

Lemma kill_opened : exists w, kill_switch_install replies server 9 engine_empty before = (kill, w, Some (Ok tt)).
Proof. eexists. vm_compute. reflexivity. Qed.

Lemma kill_switch_lets_through_witness :
  allows sublayers (connection ConnectV4 browser) = true /\ allows sublayers (connection ConnectV4 (ascii_bytes "C:\other.exe")) = false.
Proof.
  assert (Hip : 0 <= server < 2 ^ 32) by (vm_compute; split; [discriminate|reflexivity]).
  assert (Hr : 0 <= ipv4_new 8 8 8 8 < 2 ^ 32) by (vm_compute; split; [discriminate|reflexivity]).
  assert (H : forall app, exists wb wk, e_sublayer (engine AppRoutingMode.Exclude) = Some wb /\ e_sublayer kill = Some wk /\
    allows [(wb, e_filters (engine AppRoutingMode.Exclude)); (wk, e_filters kill)] (connection ConnectV4 app) =
    (listed (identities Some Some (policy_of AppRoutingMode.Exclude)) (connection ConnectV4 app) && true) || fenced_in server 9 (connection ConnectV4 app)).
  { intros app. destruct (engine_opened AppRoutingMode.Exclude) as [w1 E1]. destruct kill_opened as [w2 E2].
    exact (kill_switch_lets_through _ _ _ _ _ _ _ _ _ _ _ _ _ _ _ (connection ConnectV4 app) E1 E2 eq_refl Hip Hr (or_introl eq_refl)). }
  unfold sublayers. split.
  - destruct (H browser) as (wb & wk & [= <-] & [= <-] & E). exact E.
  - destruct (H (ascii_bytes "C:\other.exe")) as (wb & wk & [= <-] & [= <-] & E). exact E.
Defined.

Lemma include_mode_binds_witness :
  (exists f, decides (e_filters (engine AppRoutingMode.Include)) (connection BindV4 browser) = Some f /\ f_action f = Permit) /\
  decides (e_filters (engine AppRoutingMode.Include)) (connection BindV4 (ascii_bytes "C:\other.exe")) = Some (redirect BindV4 10 []) /\
  allows [(0, e_filters (engine AppRoutingMode.Include))] (connection ConnectV4 browser) = false.
Proof.
  destruct (engine_opened AppRoutingMode.Include) as [w1 E1].
  assert (Hr : 0 <= ipv4_new 192 168 0 7 < 2 ^ 32) by (vm_compute; split; [discriminate|reflexivity]).
  pose proof (fun t => include_mode_binds _ _ _ _ _ _ _ _ _ _ t E1 eq_refl) as H. split; [|split].
  - destruct (H (connection BindV4 browser)) as [H1 _]. destruct (H1 (or_introl eq_refl)) as (f & Hd & Hf). exists f. split; [exact Hd|exact Hf].
  - destruct (H (connection BindV4 (ascii_bytes "C:\other.exe"))) as [H1 _]. destruct (H1 (or_introl eq_refl)) as (f & Hd & Hf).
    rewrite Hd. f_equal. exact Hf.
  - destruct (H (connection ConnectV4 browser)) as [_ H1]. exact (H1 eq_refl Hr Hr 0).
Defined.

Definition bypass_state : Bypass := mkBypass None (policy_of AppRoutingMode.Exclude) physical.

Lemma refresh_is_current_or_closed_witness :
  exists s w, bypass_refresh replies Some Some (Some (ascii_bytes "C:\Windows")) (Some [1]) (Ok physical) bypass_state before = (s, w, Some (Ok tt)) /\
  is_Some (b_engine s) /\ b_addresses s = physical.
Proof.
  assert (Hf : faithful Some Some (Some (ascii_bytes "C:\Windows")) (Some [1]) bypass_state) by (intros e He; discriminate He).
  pose proof (refresh_is_current_or_closed replies Some Some (Some (ascii_bytes "C:\Windows")) (Some [1]) physical bypass_state before Hf) as H.
  assert (Hr : (bypass_refresh replies Some Some (Some (ascii_bytes "C:\Windows")) (Some [1]) (Ok physical) bypass_state before).2 = Some (Ok tt))
    by (vm_compute; reflexivity).
  cbv zeta in H.
  destruct (bypass_refresh replies Some Some (Some (ascii_bytes "C:\Windows")) (Some [1]) (Ok physical) bypass_state before) as [[s w] r].
  cbn [snd] in Hr. subst r. exists s, w. split; [reflexivity|]. exact (proj2 (proj2 H)).
Defined.

End ToyWfp.
