(* ===== verification/AppPaths.v ===== *)
(** * The executables behind a chosen application

    windows-gui/src-tauri/src/app_exclusions.rs: how the list of routed executables is
    ordered, and how it follows applications that update themselves: Store packages,
    Squirrel installations and the helper of Claude.

    Text is code points; the byte offsets of the code are sums of UTF-8 lengths.
    [str::to_lowercase] is a parameter ([lower]): its tables are Unicode's.  The paths are
    those [normalize_windows_path] returns, absolute and without the verbatim prefix, and
    [Path]'s operations are std's on them.  The file system is a parameter, the same for
    the whole of one operation, and so is what PowerShell lists.

    The theorem: what the repair of a list may drop, replace and add. *)

From S2P Require Import Prelude Protocol Config Handshake Flow.

(** ** Ordering *)

(** The order of strings: byte by byte. *)
Fixpoint lex_le (a b : str) : bool :=
  match a, b with
  | [], _ => true
  | _ :: _, [] => false
  | x :: a, y :: b => (x <? y) || ((x =? y) && lex_le a b)
  end.

Lemma lex_le_refl a : lex_le a a = true.
Proof. induction a as [|x a IH]; cbn; [done|]. by rewrite Z.eqb_refl, IH, orb_true_r. Qed.

Lemma lex_le_total a b : lex_le a b = false -> lex_le b a = true.
Proof.
  revert b. induction a as [|x a IH]; intros [|y b]; cbn; try done. intros H. apply orb_false_iff in H as [H1%Z.ltb_ge H2].
  destruct (Z.eqb_spec x y) as [->|]; cbn in H2.
  - rewrite Z.eqb_refl, (IH _ H2). apply orb_true_r.
  - apply orb_true_iff. left. apply Z.ltb_lt. lia.
Qed.

Lemma lex_le_trans a b c : lex_le a b = true -> lex_le b c = true -> lex_le a c = true.
Proof.
  revert b c. induction a as [|x a IH]; intros [|y b] [|z c]; cbn; try done.
  rewrite !orb_true_iff, !andb_true_iff, !Z.ltb_lt, !Z.eqb_eq.
  intros [?|[-> H1]] [?|[-> H2]]; [left; lia|left; lia|left; lia|]. right. split; [done|]. by apply (IH b c).
Qed.

Lemma lex_le_antisym a b : lex_le a b = true -> lex_le b a = true -> a = b.
Proof.
  revert b. induction a as [|x a IH]; intros [|y b]; cbn; try done.
  rewrite !orb_true_iff, !andb_true_iff, !Z.ltb_lt, !Z.eqb_eq. intros [?|[-> H1]] [?|[? H2]]; try lia. f_equal. by apply IH.
Qed.

(** ** Sorting and removing duplicates *)

Section Keys.
Context {A : Type} (key : A -> str).

(** [sort_by_key] is stable. *)
Fixpoint insert_by_key (x : A) (l : list A) : list A :=
  match l with
  | [] => [x]
  | y :: l => if lex_le (key x) (key y) then x :: y :: l else y :: insert_by_key x l
  end.

Definition sort_by_key (l : list A) : list A := foldr insert_by_key [] l.

(** [dedup_by]: an element goes when it is the same as the last one kept. *)
Fixpoint dedup_after (same : A -> A -> bool) (kept : A) (l : list A) : list A :=
  match l with
  | [] => []
  | x :: l => if same x kept then dedup_after same kept l else x :: dedup_after same x l
  end.

Definition dedup_by (same : A -> A -> bool) (l : list A) : list A :=
  match l with
  | [] => []
  | x :: l => x :: dedup_after same x l
  end.

Definition same_key (a b : A) : bool := bool_decide (key a = key b).

Definition sort_and_deduplicate (l : list A) : list A := dedup_by same_key (sort_by_key l).

(** *** What it promises *)

Inductive increasing : list A -> Prop :=
| increasing_nil : increasing []
| increasing_cons x l : (forall y, y ∈ l -> lex_le (key x) (key y) = true) -> increasing l -> increasing (x :: l).

Inductive strictly_increasing : list A -> Prop :=
| strict_nil : strictly_increasing []
| strict_cons x l : (forall y, y ∈ l -> lex_le (key x) (key y) = true /\ key x <> key y) -> strictly_increasing l ->
    strictly_increasing (x :: l).

Lemma insert_member x l y : y ∈ insert_by_key x l <-> y = x \/ y ∈ l.
Proof.
  induction l as [|z l IH]; cbn; [rewrite list_elem_of_singleton, elem_of_nil; tauto|].
  destruct (lex_le (key x) (key z)); rewrite !elem_of_cons, ?IH; tauto.
Qed.

Lemma insert_increasing x l : increasing l -> increasing (insert_by_key x l).
Proof.
  induction 1 as [|z l Hz Hl IH]; cbn; [constructor; [intros y Hy; by apply elem_of_nil in Hy|constructor]|].
  destruct (lex_le (key x) (key z)) eqn:E.
  - constructor; [|by constructor]. intros y [->|Hy]%elem_of_cons; [done|]. by apply (lex_le_trans _ (key z)), Hz.
  - constructor; [|done]. intros y [->|Hy]%insert_member; [by apply lex_le_total|by apply Hz].
Qed.

Lemma sort_member l y : y ∈ sort_by_key l <-> y ∈ l.
Proof. induction l as [|x l IH]; cbn; [done|]. by rewrite insert_member, elem_of_cons, IH. Qed.

Lemma insert_perm x l : insert_by_key x l ≡ₚ x :: l.
Proof. induction l as [|y l IH]; cbn; [done|]. case_match; [done|]. rewrite IH. apply perm_swap. Qed.

Lemma sort_perm l : sort_by_key l ≡ₚ l.
Proof. induction l as [|x l IH]; cbn; [done|]. by rewrite insert_perm, IH. Qed.

Lemma sort_increasing l : increasing (sort_by_key l).
Proof. induction l; cbn; [constructor|by apply insert_increasing]. Qed.

Lemma dedup_after_member kept l y : y ∈ dedup_after same_key kept l -> y ∈ l.
Proof.
  revert kept. induction l as [|x l IH]; intros kept; cbn; [done|]. rewrite elem_of_cons. destruct (same_key x kept).
  - intros H. right. by apply (IH kept).
  - intros [->|H]%elem_of_cons; [by left|]. right. by apply (IH x).
Qed.

Lemma dedup_after_keys kept l y : y ∈ l -> key y = key kept \/ exists x, x ∈ dedup_after same_key kept l /\ key x = key y.
Proof.
  revert kept. induction l as [|x l IH]; intros kept; cbn; [intros H; by apply elem_of_nil in H|].
  unfold same_key at 1. case_bool_decide as E; intros [->|Hy]%elem_of_cons.
  - by left.
  - by apply IH.
  - right. exists x. split; [by left|done].
  - right. destruct (IH x Hy) as [Hk|(z & Hz & Hk)]; [exists x; split; [by left|done]|exists z; split; [by right|done]].
Qed.

Lemma dedup_strict kept l :
  increasing (kept :: l) -> strictly_increasing (kept :: dedup_after same_key kept l).
Proof.
  revert kept. induction l as [|x l IH]; intros kept H; cbn; inversion H as [|? ? Hk Hl]; subst.
  - constructor; [intros y Hy; by apply elem_of_nil in Hy|constructor].
  - unfold same_key at 1. case_bool_decide as E.
    + apply IH. inversion Hl; subst. constructor; [|done]. intros y Hy. apply Hk. by right.
    + specialize (IH x Hl). constructor; [|done]. inversion Hl as [|? ? Hx Hl']; subst. inversion IH as [|? ? Hs IH']; subst.
      intros y [->|Hy]%elem_of_cons; [split; [apply Hk; by left|congruence]|].
      split; [apply Hk; right; by apply (dedup_after_member x)|]. intros Heq. apply E.
      apply lex_le_antisym; [|apply Hk; by left]. rewrite Heq. by apply Hs.
Qed.

Lemma sort_and_deduplicate_spec l :
  strictly_increasing (sort_and_deduplicate l) /\
  (forall y, y ∈ sort_and_deduplicate l -> y ∈ l) /\
  (forall y, y ∈ l -> exists x, x ∈ sort_and_deduplicate l /\ key x = key y).
Proof.
  unfold sort_and_deduplicate, dedup_by. pose proof (sort_increasing l) as Hs. pose proof (sort_member l) as Hm.
  destruct (sort_by_key l) as [|x s]; [split; [constructor|]|split; [by apply dedup_strict|]].
  - split; [intros y Hy; by apply elem_of_nil in Hy|]. intros y Hy%Hm. by apply elem_of_nil in Hy.
  - split.
    + intros y [->|Hy]%elem_of_cons; apply Hm; [by left|right; by apply (dedup_after_member x)].
    + intros y [->|Hy]%Hm%elem_of_cons; [exists x; split; [by left|done]|].
      destruct (dedup_after_keys x s y Hy) as [Hk|(z & Hz & Hk)]; [exists x; split; [by left|done]|exists z; split; [by right|done]].
Qed.

End Keys.

(** ** Text *)

Definition utf8_len (c : Z) : Z := if c <? 0x80 then 1 else if c <? 0x800 then 2 else if c <? 0x10000 then 3 else 4.

(** [str::find] of an ASCII pattern, the byte offset counted from [at_byte] *)
Fixpoint find_at (pattern s : str) (at_byte : Z) : option Z :=
  match strip_prefix pattern s with
  | Some _ => Some at_byte
  | None => match s with [] => None | c :: s => find_at pattern s (at_byte + utf8_len c) end
  end.

(** [&value[start..]]: a start inside a character, or past the end, panics. *)
Fixpoint str_from (value : str) (start : Z) : res ClientError.t str :=
  if start =? 0 then Ok value
  else match value with
       | [] => Panic
       | c :: value => if utf8_len c <=? start then str_from value (start - utf8_len c) else Panic
       end.

Fixpoint split_once (c : Z) (s : str) : option (str * str) :=
  match s with
  | [] => None
  | x :: s => if x =? c then Some ([], s) else match split_once c s with Some (a, b) => Some (x :: a, b) | None => None end
  end.

Fixpoint split_on (c : Z) (s : str) : list str :=
  match s with
  | [] => [[]]
  | x :: s =>
      match split_on c s with
      | part :: parts => if x =? c then [] :: part :: parts else (x :: part) :: parts
      | [] => [[]]
      end
  end.

Fixpoint join_with (c : Z) (parts : list str) : str :=
  match parts with
  | [] => []
  | [part] => part
  | part :: parts => part ++ [c] ++ join_with c parts
  end.

(** [trim_start_matches] of one character *)
Fixpoint trim_start_matches (c : Z) (s : str) : str :=
  match s with
  | x :: s' => if x =? c then trim_start_matches c s' else s
  | [] => []
  end.

Definition to_ascii_lowercase (s : str) : str := map to_lower s.
Definition starts_with (prefix s : str) : bool := match strip_prefix prefix s with Some _ => true | None => false end.

(** ** Paths (std::path on Windows) *)

Definition is_letter (c : Z) : bool := ((65 <=? c) && (c <=? 90)) || ((97 <=? c) && (c <=? 122)).

(** The prefix (a drive, or a server and its share) and the rest. *)
Definition split_prefix (path : str) : str * str :=
  match path with
  | 92 :: 92 :: rest =>
      match split_once 92 rest with
      | Some (server, rest) =>
          let share := match split_once 92 rest with Some (share, _) => share | None => rest end in
          if bool_decide (server = []) || bool_decide (share = []) then ([], path)
          else ([92; 92] ++ server ++ [92] ++ share, drop (length share) rest)
      | None => ([], path)
      end
  | drive :: 58 :: rest => if is_letter drive then ([drive; 58], rest) else ([], path)
  | _ => ([], path)
  end.

Definition is_drive (prefix : str) : bool := (length prefix =? 2)%nat.
Definition has_root (path : str) : bool :=
  let '(prefix, rest) := split_prefix path in
  match rest with 92 :: _ => true | _ => (2 <? length prefix)%nat end.

Definition is_absolute (path : str) : bool := negb (bool_decide ((split_prefix path).1 = [])) && has_root path.

(** Pieces between separators that are no component. *)
Definition trivial (piece : str) : bool := bool_decide (piece = []) || bool_decide (piece = [46]).

Fixpoint skip_trivial (pieces : list str) : list str :=
  match pieces with
  | piece :: pieces' => if trivial piece then skip_trivial pieces' else pieces
  | [] => []
  end.

(** The components from the last one backwards, with the pieces between them. *)
Definition backwards (path : str) : list str := skip_trivial (rev (split_on 92 (split_prefix path).2)).

Definition file_name (path : str) : option str :=
  match backwards path with
  | name :: _ => if bool_decide (name = [46; 46]) then None else Some name
  | [] => None
  end.

Definition parent (path : str) : option str :=
  let '(prefix, rest) := split_prefix path in
  match backwards path with
  | [] => None
  | _ :: before =>
      Some (prefix ++ match skip_trivial before with
                      | [] => match rest with 92 :: _ => [92] | _ => [] end
                      | before => join_with 92 (rev before)
                      end)
  end.

(** [Path::join] of one plain name *)
Definition join (path name : str) : str :=
  let '(prefix, rest) := split_prefix path in
  if bool_decide (path = []) || (is_drive prefix && bool_decide (rest = [])) || bool_decide (List.last path 0 = 92)
  then path ++ name else path ++ [92] ++ name.

(** The name without and after its last dot. *)
Definition rsplit_dot (name : str) : option str * option str :=
  match split_once 46 (rev name) with
  | Some (extension, before) => if bool_decide (before = []) then (Some name, None) else (Some (rev before), Some (rev extension))
  | None => (Some name, None)
  end.

Definition extension (path : str) : option str := file_name path ≫= fun name => (rsplit_dot name).2.
Definition file_stem (path : str) : option str := file_name path ≫= fun name => (rsplit_dot name).1.

(** Equality of paths is that of their components. *)
Definition components (path : str) : list str := filter (fun piece => negb (trivial piece)) (split_on 92 (split_prefix path).2).
Definition path_eq (a b : str) : bool :=
  bool_decide ((split_prefix a).1 = (split_prefix b).1) && Bool.eqb (has_root a) (has_root b) && bool_decide (components a = components b).

(** What the code asks of the file system: the names in a directory are those that could
    be read. *)
Record Files := mkFiles {
  is_file : str -> bool;
  is_dir : str -> bool;
  read_dir : str -> option (list str);
  canonicalize : str -> res ClientError.t str;
  config_dir : option str;
  data_local_dir : option str;
}.

(** The iterator adaptors of fallible closures: the first failure ends them. *)
Fixpoint filter_map_res {A B} (f : A -> res ClientError.t (option B)) (l : list A) : res ClientError.t (list B) :=
  match l with
  | [] => Ok []
  | a :: l => o ← f a; bs ← filter_map_res f l; Ok (match o with Some b => b :: bs | None => bs end)
  end.

Fixpoint any_res {A} (f : A -> res ClientError.t bool) (l : list A) : res ClientError.t bool :=
  match l with
  | [] => Ok false
  | a :: l => b ← f a; if b : bool then Ok true else any_res f l
  end.

Record InstalledApp := mkInstalled {
  i_id : str;
  i_name : str;
  i_path : str;
  i_paths : list str;
  i_source : str;
  i_package_name : option str;
  i_relative_paths : list str;
}.

Section AppPaths.
Context (lower : str -> str) (fs : Files).

Definition normalized_key (path : str) : str := lower (normalize_windows_path path).

(** ** Packages of the Store *)

Definition normalized_relative_path (path : str) : str :=
  lower (trim_start_matches 92 (map (fun c => if c =? 47 then 92 else c) path)).

Definition marker : str := ascii_bytes "\windowsapps\".

(** The directory of the package below WindowsApps, and the path in it. *)
Definition package_directory (path : str) : res ClientError.t (option (str * str)) :=
  let value := normalize_windows_path path in
  match find_at marker (lower value) 0 with
  | None => Ok None
  | Some start => tail ← str_from value (start + len marker); Ok (split_once 92 tail)
  end.

Definition windowsapps_identity (path : str) : res ClientError.t (option (str * str)) :=
  found ← package_directory path;
  match found with
  | None => Ok None
  | Some (directory, relative_path) =>
      let parts := split_on 95 directory in
      if (length parts <? 5)%nat then Ok None
      else
        let package_name := join_with 95 (take (length parts - 4) parts) in
        if negb (bool_decide (package_name = [])) && negb (bool_decide (relative_path = []))
        then Ok (Some (package_name, normalized_relative_path relative_path)) else Ok None
  end.

Definition windowsapps_package_family (path : str) : res ClientError.t (option str) :=
  found ← package_directory path;
  match found with
  | None => Ok None
  | Some (directory, _) =>
      let parts := split_on 95 directory in
      if (length parts <? 5)%nat then Ok None
      else
        let package_name := join_with 95 (take (length parts - 4) parts) in
        let publisher_id := List.last parts [] in
        if negb (bool_decide (package_name = [])) && negb (bool_decide (publisher_id = []))
        then Ok (Some (package_name ++ [95] ++ publisher_id)) else Ok None
  end.

(** The path of the installed version of the same file of the same package. *)
Definition replacement_in (package_name relative_path : str) (app : InstalledApp) : option str :=
  if negb (bool_decide (i_source app = ascii_bytes "store")) ||
     negb (match i_package_name app with Some name => paths_equal name package_name | None => false end) then None
  else snd <$> List.find (fun '(relative, _) => bool_decide (normalized_relative_path relative = relative_path))
                 (zip (i_relative_paths app) (i_paths app)).

Fixpoint find_map {A B} (f : A -> option B) (l : list A) : option B :=
  match l with
  | [] => None
  | a :: l => match f a with Some b => Some b | None => find_map f l end
  end.

Definition resolve_packaged_path (installed : list InstalledApp) (path : str) : res ClientError.t (str * bool) :=
  identity ← windowsapps_identity path;
  match identity with
  | None => Ok (path, false)
  | Some (package_name, relative_path) =>
      Ok (match find_map (replacement_in package_name relative_path) installed with
          | Some replacement =>
              if bool_decide (normalized_key path = normalized_key replacement) then (path, false) else (replacement, true)
          | None => (path, false)
          end)
  end.

Fixpoint resolve_packaged_paths (paths : list str) (installed : list InstalledApp) : res ClientError.t (list str * bool) :=
  match paths with
  | [] => Ok ([], false)
  | path :: paths =>
      resolved ← resolve_packaged_path installed path;
      rest ← resolve_packaged_paths paths installed;
      Ok (resolved.1 :: rest.1, resolved.2 || rest.2)
  end.

(** What PowerShell printed, as the code keeps it: [None] when it failed. *)
Fixpoint existing_paths (seen : list str) (paths : list (str * option str)) : list (str * option str) :=
  match paths with
  | [] => []
  | (path, relative) :: paths =>
      let path := normalize_windows_path path in
      if is_file fs path && negb (bool_decide (normalized_key path ∈ seen))
      then (path, relative) :: existing_paths (normalized_key path :: seen) paths
      else existing_paths seen paths
  end.

(** [enumerate] with [get]: each path with the relative path of its index. *)
Fixpoint with_relative (paths relatives : list str) : list (str * option str) :=
  match paths, relatives with
  | [], _ => []
  | path :: paths, [] => (path, None) :: with_relative paths []
  | path :: paths, relative :: relatives => (path, Some relative) :: with_relative paths relatives
  end.

Definition existing_app (app : InstalledApp) : InstalledApp :=
  let kept := existing_paths [] (with_relative (i_paths app) (i_relative_paths app)) in
  mkInstalled (i_id app) (i_name app) (normalize_windows_path (i_path app)) (map fst kept) (i_source app) (i_package_name app) (omap snd kept).

Fixpoint retain_apps (seen : list str) (apps : list InstalledApp) : list InstalledApp :=
  match apps with
  | [] => []
  | app :: apps =>
      if negb (bool_decide (trim (i_name app) = [])) && negb (bool_decide (i_paths app = []))
      then if bool_decide (lower (i_id app) ∈ seen) then retain_apps seen apps else app :: retain_apps (lower (i_id app) :: seen) apps
      else retain_apps seen apps
  end.

(** Sorted by name and then by path: the stable sort by the second key first. *)
Definition discover_installed_apps (printed : option (list InstalledApp)) : res ClientError.t (list InstalledApp) :=
  match printed with
  | None => Err ClientError.Platform
  | Some apps =>
      Ok (sort_by_key (fun app => lower (i_name app)) (sort_by_key (fun app => lower (i_path app))
        (retain_apps [] (map existing_app apps))))
  end.

(** ** Squirrel *)

Definition is_version (directory : option str) : bool :=
  match directory with Some name => starts_with (ascii_bytes "app-") (to_ascii_lowercase name) | None => false end.

Definition squirrel_identity (path : str) : option (str * str) :=
  name ← file_name path;
  directory ← parent path;
  if is_file fs (join directory (ascii_bytes "Update.exe")) then Some (directory, name)
  else
    root ← parent directory;
    if is_version (file_name directory) && is_file fs (join root (ascii_bytes "Update.exe")) then Some (root, name) else None.

Definition squirrel_key (root name : str) : str := normalized_key root ++ [124] ++ lower name.

Fixpoint squirrel_identities (seen : list str) (paths : list str) : list (str * str) :=
  match paths with
  | [] => []
  | path :: paths =>
      match squirrel_identity path with
      | None => squirrel_identities seen paths
      | Some (root, name) =>
          if bool_decide (squirrel_key root name ∈ seen) then squirrel_identities seen paths
          else (root, name) :: squirrel_identities (squirrel_key root name :: seen) paths
      end
  end.

(** The launcher and the executables of the versions that are installed. *)
Definition squirrel_files (identity : str * str) : list str :=
  let '(root, name) := identity in
  let stable := join root name in
  (if is_file fs stable then [normalize_windows_path stable] else []) ++
  flat_map (fun entry =>
    let directory := join root entry in
    if is_version (Some entry) && is_dir fs directory && is_file fs (join directory name)
    then [normalize_windows_path (join directory name)] else [])
    (default [] (read_dir fs root)).

Definition stale_version (identities : list (str * str)) (path : str) : bool :=
  existsb (fun '(root, name) =>
    match file_name path with Some candidate => paths_equal candidate name | None => false end &&
    is_version (parent path ≫= file_name) &&
    match parent path ≫= parent with Some grandparent => path_eq grandparent root | None => false end) identities.

Definition keys (paths : list str) : list str := map normalized_key paths.

Definition resolve_squirrel_paths (paths : list str) : list str * bool :=
  let identities := squirrel_identities [] paths in
  let extended := paths ++ flat_map squirrel_files identities in
  let kept := filter (fun path => is_file fs path || negb (stale_version identities path)) extended in
  let resolved := sort_and_deduplicate normalized_key kept in
  (resolved, negb (bool_decide (keys paths = keys resolved))).

(** ** The helper of Claude *)

Definition is_claude_code_helper (path root : str) : bool :=
  match file_name path with Some name => paths_equal name (ascii_bytes "claude.exe") | None => false end &&
  match parent path ≫= parent with Some grandparent => bool_decide (normalized_key grandparent = normalized_key root) | None => false end.

Definition claude_code_roots (paths : list str) : res ClientError.t (list str) :=
  let real := match config_dir fs with Some directory => [join (join directory (ascii_bytes "Claude")) (ascii_bytes "claude-code")] | None => [] end in
  redirected ← match data_local_dir fs with
    | None => Ok []
    | Some local =>
        families ← filter_map_res windowsapps_package_family paths;
        Ok (map (fun family => foldl join local [ascii_bytes "Packages"; family; ascii_bytes "LocalCache"; ascii_bytes "Roaming";
          ascii_bytes "Claude"; ascii_bytes "claude-code"]) families)
    end;
  Ok (filter (fun root => is_dir fs root) (real ++ redirected)).

Definition claude_helpers (root : str) : list str :=
  flat_map (fun entry =>
    let helper := join (join root entry) (ascii_bytes "claude.exe") in
    if is_dir fs (join root entry) && is_file fs helper then [normalize_windows_path helper] else [])
    (default [] (read_dir fs root)).

Definition selects_claude (root path : str) : res ClientError.t bool :=
  identity ← windowsapps_identity path;
  Ok (match identity with Some (package_name, _) => paths_equal package_name (ascii_bytes "Claude") | None => false end ||
      is_claude_code_helper path root).

Definition resolve_claude_code_paths_at (paths : list str) (root : str) : res ClientError.t (list str * bool) :=
  selected ← any_res (selects_claude root) paths;
  if negb selected then Ok (paths, false)
  else
    let kept := filter (fun path => negb (is_claude_code_helper path root) || is_file fs path) (paths ++ claude_helpers root) in
    let resolved := sort_and_deduplicate normalized_key kept in
    Ok (resolved, negb (bool_decide (keys paths = keys resolved))).

Fixpoint resolve_claude_roots (roots : list str) (paths : list str) : res ClientError.t (list str * bool) :=
  match roots with
  | [] => Ok (paths, false)
  | root :: roots =>
      one ← resolve_claude_code_paths_at paths root;
      rest ← resolve_claude_roots roots one.1;
      Ok (rest.1, one.2 || rest.2)
  end.

Definition resolve_claude_code_paths (paths : list str) : res ClientError.t (list str * bool) :=
  roots ← claude_code_roots paths;
  resolve_claude_roots roots paths.

(** ** The repair of a list *)

Definition missing_package (path : str) : res ClientError.t bool :=
  if is_file fs path then Ok false
  else identity ← windowsapps_identity path; Ok (match identity with Some _ => true | None => false end).

(** [load_resolved] between [load] and [save]: the list, and whether it is to be saved. *)
Definition resolve (printed : option (list InstalledApp)) (apps : list str) : res ClientError.t (list str * bool) :=
  let squirrel := resolve_squirrel_paths apps in
  claude ← resolve_claude_code_paths squirrel.1;
  missing ← any_res missing_package claude.1;
  packaged ← (if missing : bool then
      match discover_installed_apps printed with
      | Ok installed => resolve_packaged_paths claude.1 installed
      | Err _ => Ok (claude.1, false)
      | Panic => Panic
      end
    else Ok (claude.1, false));
  Ok (if squirrel.2 || claude.2 || packaged.2 then (sort_and_deduplicate normalized_key packaged.1, true) else (packaged.1, false)).

Definition validate_executable (path : str) : res ClientError.t str :=
  if negb (is_absolute path) then Err ClientError.Platform
  else if negb (match extension path with Some e => paths_equal e (ascii_bytes "exe") | None => false end) then Err ClientError.Platform
  else if negb (is_file fs path) then Err ClientError.Platform
  else normalize_windows_path <$> canonicalize fs path.

(** ** What the repair may do *)

(** A path of which no file is left, of a version that Squirrel or Claude has removed. *)
Definition superseded (path : str) : Prop :=
  is_file fs path = false /\
  (is_version (parent path ≫= file_name) = true \/
   exists name, file_name path = Some name /\ paths_equal name (ascii_bytes "claude.exe") = true).

(** A file of a Store package, and the same file of the installed version. *)
Definition updated (path replacement : str) : Prop :=
  exists package relative, windowsapps_identity path = Ok (Some (package, relative)) /\ is_file fs replacement = true.

Definition represented (r : list str) (path : str) : Prop := exists q, q ∈ r /\ normalized_key q = normalized_key path.

(** Windows' names: one file for one key, and for a path with or without the verbatim
    prefix. *)
Class FilesLaws : Prop := {
  same_file p q : normalized_key p = normalized_key q -> is_file fs p = is_file fs q;
  normal_file p : is_file fs p = true -> is_file fs (normalize_windows_path p) = true;
}.

Lemma find_map_some {A B} (f : A -> option B) l b : find_map f l = Some b -> exists a, a ∈ l /\ f a = Some b.
Proof.
  induction l as [|a l IH]; cbn; [done|]. destruct (f a) eqn:E; [intros [= ->]; exists a; split; [by left|done]|].
  intros (x & Hx & Hf)%IH. exists x. split; [by right|done].
Qed.

Lemma existing_paths_files seen paths path relative : (path, relative) ∈ existing_paths seen paths -> is_file fs path = true.
Proof.
  revert seen. induction paths as [|[p rel] paths IH]; intros seen; cbn; [by intros H%elem_of_nil|].
  destruct (_ && _) eqn:E; [|by apply IH]. intros [[= -> _]|H]%elem_of_cons; [by apply andb_true_iff in E as [? _]|by apply (IH _ H)].
Qed.

Lemma retain_apps_member seen apps app : app ∈ retain_apps seen apps -> app ∈ apps.
Proof.
  revert seen. induction apps as [|a apps IH]; intros seen; cbn; [done|]. rewrite elem_of_cons.
  repeat case_match; first [intros Hin; right; by apply (IH seen)|intros [->|Hin]%elem_of_cons; [by left|right; by apply (IH _ Hin)]].
Qed.

Lemma discovered_files printed installed app path :
  discover_installed_apps printed = Ok installed -> app ∈ installed -> path ∈ i_paths app -> is_file fs path = true.
Proof.
  unfold discover_installed_apps. destruct printed as [apps|]; [|done]. intros [= <-].
  intros H%sort_member%sort_member%retain_apps_member%list_elem_of_fmap. destruct H as (raw & -> & _). cbn.
  intros Hp. apply list_elem_of_fmap in Hp as ([p rel] & -> & H). by apply existing_paths_files in H.
Qed.

Lemma replacement_is_file printed installed package relative replacement :
  discover_installed_apps printed = Ok installed ->
  find_map (replacement_in package relative) installed = Some replacement -> is_file fs replacement = true.
Proof.
  intros Hd (app & Hin & Hr)%find_map_some. unfold replacement_in in Hr. case_match; [done|].
  destruct (List.find _ _) as [[rel path]|] eqn:E; [|done]. injection Hr as <-. apply find_some in E as [E _].
  apply (discovered_files printed installed app); [done..|]. apply list_elem_of_In. by apply in_combine_r in E.
Qed.

Lemma packaged_spec printed installed paths r changed :
  discover_installed_apps printed = Ok installed -> resolve_packaged_paths paths installed = Ok (r, changed) ->
  (forall q, q ∈ r -> q ∈ paths \/ is_file fs q = true) /\
  (forall p, p ∈ paths -> p ∈ r \/ exists q, q ∈ r /\ updated p q) /\
  (changed = false -> r = paths).
Proof.
  intros Hd. revert r changed. induction paths as [|p paths IH]; cbn; intros r changed H.
  { injection H as <- <-. split; [by left|]. split; [by left|done]. }
  destruct (resolve_packaged_path installed p) as [[q c]|e|] eqn:E; [|done..].
  destruct (resolve_packaged_paths paths installed) as [[r' c']|e|] eqn:E'; [|done..]. injection H as <- <-. cbn.
  destruct (IH r' c' eq_refl) as (H1 & H2 & H3). clear IH.
  assert (Hp : (q = p /\ c = false) \/ (updated p q /\ is_file fs q = true /\ c = true)).
  { unfold resolve_packaged_path in E. destruct (windowsapps_identity p) as [[[pn rp]|]|e|] eqn:Ei; [|injection E as <- <-; by left|done..].
    res_simpl in E. destruct (find_map _ _) as [replacement|] eqn:Ef; [|injection E as <- <-; by left].
    case_bool_decide; injection E as <- <-; [by left|right].
    pose proof (replacement_is_file _ _ _ _ _ Hd Ef). split; [by exists pn, rp|done]. }
  repeat split.
  - intros x [->|Hx]%elem_of_cons; [destruct Hp as [[-> _]|(_ & Hq & _)]; [left; by left|by right]|].
    destruct (H1 x Hx); [left; by right|by right].
  - intros x [->|Hx]%elem_of_cons.
    + destruct Hp as [[-> _]|(Hu & _ & _)]; [left; by left|right; exists q; split; [by left|done]].
    + destruct (H2 x Hx) as [H|(y & Hy & Hu)]; [left; by right|right; exists y; split; [by right|done]].
  - intros [Hc Hc']%orb_false_iff. destruct Hp as [[-> _]|(_ & _ & Hc2)]; [|congruence]. by rewrite (H3 Hc').
Qed.

(** A stage of the repair: some files are added, some superseded paths go. *)
Definition stage (paths r : list str) : Prop :=
  (forall q, q ∈ r -> q ∈ paths \/ is_file fs q = true) /\
  (forall p, p ∈ paths -> represented r p \/ superseded p).

Lemma stage_refl paths : stage paths paths.
Proof. split; [by left|]. intros p Hp. left. by exists p. Qed.

Lemma stage_merge paths extra (keep : str -> bool) :
  (forall q, q ∈ extra -> is_file fs q = true) -> (forall p, keep p = false -> superseded p) ->
  stage paths (sort_and_deduplicate normalized_key (filter keep (paths ++ extra))).
Proof.
  intros He Hk. destruct (sort_and_deduplicate_spec normalized_key (filter keep (paths ++ extra))) as (_ & Hin & Hkeys). split.
  - intros q [_ [Hq|Hq]%elem_of_app]%Hin%list_elem_of_filter; [by left|right; by apply He].
  - intros p Hp. destruct (keep p) eqn:E; [left|right; by apply Hk].
    destruct (Hkeys p) as (q & Hq & Hkey); [|by exists q].
    apply list_elem_of_filter. split; [by rewrite E|]. apply elem_of_app. by left.
Qed.

Context `{FL : FilesLaws}.

Lemma squirrel_files_exist identity q : q ∈ squirrel_files identity -> is_file fs q = true.
Proof.
  destruct identity as [root name]. cbn. intros [H|H]%elem_of_app.
  - destruct (is_file fs (join root name)) eqn:E; [|by apply elem_of_nil in H]. apply list_elem_of_singleton in H as ->. by apply normal_file.
  - apply list_elem_of_In, in_flat_map in H as (entry & _ & H). cbv zeta in H. case_match eqn:E; [|done]. destruct H as [<-|[]].
    apply andb_true_iff in E as [_ E]. by apply normal_file.
Qed.

Lemma squirrel_stage paths : stage paths (resolve_squirrel_paths paths).1.
Proof.
  apply stage_merge.
  - intros q H. apply list_elem_of_In, in_flat_map in H as (identity & _ & H). apply (squirrel_files_exist identity). by apply list_elem_of_In.
  - intros p [Hf Hs]%orb_false_iff. split; [done|]. left. apply negb_false_iff, existsb_exists in Hs as ([root name] & _ & Hs).
    by apply andb_true_iff in Hs as [[_ ?]%andb_true_iff _].
Qed.

Lemma claude_helpers_exist root q : q ∈ claude_helpers root -> is_file fs q = true.
Proof.
  intros H. apply list_elem_of_In, in_flat_map in H as (entry & _ & H). cbv zeta in H. case_match eqn:E; [|done]. destruct H as [<-|[]].
  apply andb_true_iff in E as [_ E]. by apply normal_file.
Qed.

Lemma claude_stage paths root r changed : resolve_claude_code_paths_at paths root = Ok (r, changed) -> stage paths r.
Proof.
  unfold resolve_claude_code_paths_at. destruct (any_res _ _) as [[]|e|]; [|intros [= <- _]; apply stage_refl|done..].
  intros [= <- _]. apply stage_merge; [apply claude_helpers_exist|]. intros p [Hh Hf]%orb_false_iff. split; [done|]. right.
  apply negb_false_iff, andb_true_iff in Hh as [Hh _]. destruct (file_name p) as [name|]; [by exists name|done].
Qed.

(** The fate of a path of the list: it is there in some spelling, or no longer exists, or
    its package has been updated. *)
Definition fate (r : list str) (p : str) : Prop :=
  exists q, normalized_key q = normalized_key p /\
    (represented r q \/ superseded q \/ exists u, updated q u /\ represented r u).

Definition repairs (paths r : list str) : Prop :=
  (forall q, q ∈ r -> q ∈ paths \/ is_file fs q = true) /\ (forall p, p ∈ paths -> fate r p).

Lemma stage_then paths middle r : stage paths middle -> repairs middle r -> repairs paths r.
Proof.
  intros [A1 A2] [B1 B2]. split.
  - intros q [H|H]%B1; [by apply A1|by right].
  - intros p [(q & Hq & Hk)|Hs]%A2; [|exists p; auto]. destruct (B2 q Hq) as (x & Hx & H). exists x. split; [congruence|done].
Qed.

Lemma roots_then roots paths r changed final :
  resolve_claude_roots roots paths = Ok (r, changed) -> repairs r final -> repairs paths final.
Proof.
  revert paths r changed. induction roots as [|root roots IH]; cbn; intros paths r changed H Hr; [by injection H as <- _|].
  destruct (resolve_claude_code_paths_at paths root) as [[one c]|e|] eqn:E; [|done..]. apply claude_stage in E.
  apply (stage_then _ one); [done|]. res_simpl in H. cbn [fst snd] in H.
  destruct (resolve_claude_roots roots one) as [[rest c']|e|] eqn:E'; [|done..]. injection H as <- _. by apply (IH one rest c').
Qed.

Lemma repairs_sorted paths r : repairs paths r -> repairs paths (sort_and_deduplicate normalized_key r).
Proof.
  destruct (sort_and_deduplicate_spec normalized_key r) as (_ & Hin & Hkeys). intros [A1 A2]. split; [intros q H%Hin; by apply A1|].
  assert (Hrep : forall p, represented r p -> represented (sort_and_deduplicate normalized_key r) p).
  { intros p (q & Hq & Hk). destruct (Hkeys q Hq) as (x & Hx & Hk'). exists x. split; [done|congruence]. }
  intros p (q & Hk & H)%A2. exists q. split; [done|]. destruct H as [H|[H|(u & Hu & H)]]; auto. right. right. exists u. auto.
Qed.

Lemma packaged_repairs printed installed paths r changed :
  discover_installed_apps printed = Ok installed -> resolve_packaged_paths paths installed = Ok (r, changed) -> repairs paths r.
Proof.
  intros Hd Hr. destruct (packaged_spec printed installed paths r changed Hd Hr) as (H1 & H2 & _). split; [done|].
  intros p Hp. exists p. split; [done|]. destruct (H2 p Hp) as [H|(q & Hq & Hu)]; [left; by exists p|].
  right. right. exists q. split; [done|]. by exists q.
Qed.

Lemma repairs_refl paths : repairs paths paths.
Proof. split; [by left|]. intros p Hp. exists p. split; [done|]. left. by exists p. Qed.

Lemma sorted_strict l : strictly_increasing normalized_key (sort_and_deduplicate normalized_key l).
Proof. apply sort_and_deduplicate_spec. Qed.

(** A stage reports a change of the keys, and leaves a list without duplicates. *)
Definition tidy (paths : list str) (resolved : list str * bool) : Prop :=
  (strictly_increasing normalized_key paths -> strictly_increasing normalized_key resolved.1) /\
  (resolved.2 = false -> keys resolved.1 = keys paths).

Lemma tidy_compared paths l :
  tidy paths (sort_and_deduplicate normalized_key l, negb (bool_decide (keys paths = keys (sort_and_deduplicate normalized_key l)))).
Proof. split; [intros _; apply sorted_strict|]. cbn. by intros H%negb_false_iff%bool_decide_eq_true. Qed.

Lemma tidy_claude paths root resolved : resolve_claude_code_paths_at paths root = Ok resolved -> tidy paths resolved.
Proof.
  unfold resolve_claude_code_paths_at. destruct (any_res _ _) as [[]|e|]; [|by intros [= <-]|done..]. intros [= <-]. apply tidy_compared.
Qed.

Lemma tidy_roots roots paths resolved : resolve_claude_roots roots paths = Ok resolved -> tidy paths resolved.
Proof.
  revert paths resolved. induction roots as [|root roots IH]; cbn; intros paths resolved H; [by injection H as <-|].
  destruct (resolve_claude_code_paths_at paths root) as [one|e|] eqn:E; [|done..]. apply tidy_claude in E as [E1 E2].
  res_simpl in H. destruct (resolve_claude_roots roots one.1) as [rest|e|] eqn:E'; [|done..]. injection H as <-.
  apply IH in E' as [I1 I2]. split; cbn [fst snd]; [auto|]. intros [H1 H2]%orb_false_iff. by rewrite (I2 H2), (E2 H1).
Qed.

(** Following applications that update themselves.  When the list of routed executables
    is repaired, every executable stays on it in some spelling, unless its file is gone
    and it belongs to a version that Squirrel or Claude has removed, or it lies in a Store
    package, where the same file of the installed version takes its place.  Whatever is new on the
    list exists.  The list comes out sorted and without duplicates, and it is written back
    whenever its keys have changed. *)
Theorem repair_follows_updates printed apps r changed :
  resolve printed apps = Ok (r, changed) ->
  strictly_increasing normalized_key r /\
  (forall q, q ∈ r -> q ∈ apps \/ is_file fs q = true) /\
  (forall p, p ∈ apps -> fate r p) /\
  (changed = false -> keys r = keys apps).
Proof.
  unfold resolve. destruct (tidy_compared apps (filter (fun path => is_file fs path || negb (stale_version (squirrel_identities [] apps) path))
    (apps ++ flat_map squirrel_files (squirrel_identities [] apps)))) as [_ Hsame].
  pose proof (squirrel_stage apps) as Hsq. unfold resolve_claude_code_paths.
  assert (Hstrict : strictly_increasing normalized_key (resolve_squirrel_paths apps).1) by apply sorted_strict.
  change (_, negb _) with (resolve_squirrel_paths apps) in Hsame. destruct (resolve_squirrel_paths apps) as [sq sqc]. cbn [fst snd] in *.
  destruct (claude_code_roots sq) as [roots|e|]; [|done..]. res_simpl. destruct (resolve_claude_roots roots sq) as [[cl clc]|e|] eqn:Ec; [|done..].
  cbn [fst snd]. destruct (tidy_roots _ _ _ Ec) as [Hcl1 Hcl2]. cbn [fst snd] in *.
  destruct (any_res _ cl) as [missing|e|]; [|done..]. intros H.
  assert (Hend : exists pk pkc, repairs cl pk /\ (pkc = false -> pk = cl) /\
    (r, changed) = (if sqc || clc || pkc then (sort_and_deduplicate normalized_key pk, true) else (pk, false))).
  { destruct missing; [|exists cl, false; split; [apply repairs_refl|]; split; [done|injection H as H; by rewrite H]].
    destruct (discover_installed_apps printed) as [installed|e|] eqn:Ed; [|exists cl, false; split; [apply repairs_refl|]; split; [done|injection H as H; by rewrite H]|done].
    destruct (resolve_packaged_paths cl installed) as [[pk pkc]|e|] eqn:Ep; [|done..]. exists pk, pkc.
    split; [by apply (packaged_repairs printed installed cl pk pkc)|]. split; [by apply (packaged_spec printed installed cl pk pkc)|injection H as H; by rewrite H]. }
  destruct Hend as (pk & pkc & Hrep & Hsame' & Heq). clear H.
  assert (Hall : repairs apps pk) by (apply (stage_then _ sq); [done|]; by apply (roots_then roots sq cl clc)).
  destruct (sqc || clc || pkc) eqn:Eflags; injection Heq as -> ->.
  - apply repairs_sorted in Hall as [H1 H2]. split; [apply sorted_strict|]. by split.
  - apply orb_false_iff in Eflags as [[-> ->]%orb_false_iff ->]. rewrite (Hsame' eq_refl) in *. destruct Hall as [H1 H2].
    split; [by apply Hcl1|]. split; [done|]. split; [done|]. intros _. by rewrite Hcl2, Hsame.
Qed.

End AppPaths.

(** ** An application that has updated itself *)

Module ToyPaths.

Definition on_disk : list str := map ascii_bytes ["c:\p\update.exe"; "c:\p\a.exe"; "c:\p\app-2\a.exe"].

Definition fs : Files := mkFiles
  (fun p => bool_decide (normalized_key to_ascii_lowercase p ∈ on_disk))
  (fun p => bool_decide (normalized_key to_ascii_lowercase p = ascii_bytes "c:\p\app-2"))
  (fun p => if bool_decide (normalized_key to_ascii_lowercase p = ascii_bytes "c:\p") then Some [ascii_bytes "app-2"; ascii_bytes "A.exe"] else None)
  (fun p => Ok p) None None.

Lemma normalize_again p c rest : normalize_windows_path p = c :: rest -> c <> 92 -> normalize_windows_path (c :: rest) = c :: rest.
Proof.
  intros H Hc. unfold normalize_windows_path in *. set (slash := fun c => if c =? 47 then 92 else c) in *.
  assert (Hs : forall l, map slash (map slash l) = map slash l).
  { intros l. rewrite map_map. apply map_ext. intros x. unfold slash. by destruct (Z.eqb_spec x 47) as [->|]; [|destruct (Z.eqb_spec x 47)]. }
  assert (Hn : map slash (c :: rest) = c :: rest).
  { destruct (strip_prefix (ascii_bytes "\\?\UNC\") _) as [v|] eqn:E1; [injection H as <- _; done|].
    destruct (strip_prefix (ascii_bytes "\\?\") _) as [v|] eqn:E2; [|rewrite <- H; apply Hs].
    assert (Hsuf : exists pre, map slash p = pre ++ c :: rest).
    { subst v. clear -E2. revert E2. generalize (ascii_bytes "\\?\"). intros pre. revert pre.
      induction (map slash p) as [|y l IH]; intros [|x pre]; cbn; try done; [intros [= -> ->]; by exists []|].
      destruct (x =? y); [|done]. intros (q & ->)%IH. by exists (y :: q). }
    destruct Hsuf as (pre & Hsuf). pose proof (Hs p) as Hp. rewrite Hsuf, map_app in Hp. apply app_inj_1 in Hp as [_ Hp]; [done|].
    by rewrite length_map. }
  rewrite Hn. assert (Hnone : forall pre, strip_prefix (92 :: pre) (c :: rest) = None).
  { intros pre. change (strip_prefix (92 :: pre) (c :: rest)) with (if 92 =? c then strip_prefix pre rest else None). by rewrite (proj2 (Z.eqb_neq 92 c)). }
  change (ascii_bytes "\\?\UNC\") with (92 :: ascii_bytes "\?\UNC\"). change (ascii_bytes "\\?\") with (92 :: ascii_bytes "\?\").
  by rewrite !Hnone.
Qed.

#[export] Instance fs_laws : FilesLaws to_ascii_lowercase fs.
Proof.
  split.
  - intros p q H. cbn. by rewrite H.
  - intros p H%bool_decide_eq_true. apply bool_decide_eq_true. unfold normalized_key in *.
    destruct (normalize_windows_path p) as [|c rest] eqn:E; [exfalso; cbn in H; revert H; rewrite !elem_of_cons, elem_of_nil; naive_solver|].
    rewrite (normalize_again p c rest E); [done|]. intros ->. cbn in H. revert H. rewrite !elem_of_cons, elem_of_nil. naive_solver.
Qed.

(** The old version of the application gives way to the new one, and its launcher stays. *)
Lemma repair_follows_updates_witness :
  resolve to_ascii_lowercase fs None (map ascii_bytes ["C:\P\A.exe"; "C:\P\app-1\A.exe"]) =
    Ok (map ascii_bytes ["C:\P\A.exe"; "C:\P\app-2\A.exe"], true) /\
  fate to_ascii_lowercase fs (map ascii_bytes ["C:\P\A.exe"; "C:\P\app-2\A.exe"]) (ascii_bytes "C:\P\app-1\A.exe").
Proof.
  assert (H : resolve to_ascii_lowercase fs None (map ascii_bytes ["C:\P\A.exe"; "C:\P\app-1\A.exe"]) =
    Ok (map ascii_bytes ["C:\P\A.exe"; "C:\P\app-2\A.exe"], true)) by (vm_compute; reflexivity).
  split; [exact H|]. destruct (repair_follows_updates to_ascii_lowercase fs None _ _ _ H) as (_ & _ & Hf & _).
  apply Hf. right. by left.
Defined.

(** A directory whose name grows in lower case (a capital I with a dot) makes the slice of
    the package directory start inside a character. *)
Lemma package_family_panics :
  exists lower path,
    path = ascii_bytes "C:\" ++ [0x130] ++ ascii_bytes "\WindowsApps\" ++ [0xe9] ++ ascii_bytes "_1_x_y_z\a.exe" /\
    lower path = ascii_bytes "c:\i" ++ [0x307] ++ ascii_bytes "\windowsapps\" ++ [0xe9] ++ ascii_bytes "_1_x_y_z\a.exe" /\
    windowsapps_package_family lower path = Panic.
Proof.
  exists (fun _ => ascii_bytes "c:\i" ++ [0x307] ++ ascii_bytes "\windowsapps\" ++ [0xe9] ++ ascii_bytes "_1_x_y_z\a.exe"),
    (ascii_bytes "C:\" ++ [0x130] ++ ascii_bytes "\WindowsApps\" ++ [0xe9] ++ ascii_bytes "_1_x_y_z\a.exe").
  split; [done|]. split; [done|]. vm_compute. reflexivity.
Qed.

End ToyPaths.
