(* ===== verification/AppExclusions.v ===== *)
(** * The application list of the Windows client

    windows-gui/src-tauri/src/app_exclusions.rs: which applications are routed, in which
    mode, and the file that keeps the choice.

    TOML is a parameter with the law that what is written reads back.  The file operations
    are calls on the tape of WinNetwork.v, so that a process may die between any two of
    them; [destination.exists()] is the truth.  The directory of the file is fixed, and the
    file chooser is not modelled.

    The theorems: an edit is atomic for a later start whatever becomes of it; what a choice
    among the discovered applications leaves on the list. *)

From S2P Require Import Prelude Protocol Replay Crypto DataPlane Morph Speedy Config ClientWire Handshake Effects Flow WinNetwork AppPaths.

Definition SETTINGS_VERSION : Z := 2.

(** ** Settings *)

Record StoredSettings := mkSettings {
  s_version : Z;
  s_mode : AppRoutingMode.t;
  s_apps : list str;
  s_excluded_apps : list str;
}.

Record AppEntry := mkEntry { e_path : str; e_name : str; e_available : bool }.
Record AppRoutingSettings := mkView { v_mode : AppRoutingMode.t; v_apps : list AppEntry }.

(** The name shown when the file has none. *)
Definition default_name : str := [1055; 1088; 1080; 1083; 1086; 1078; 1077; 1085; 1080; 1077].

(** The settings file, its backup and the file being written; texts of unknown content are
    texts too. *)
Record Disk := mkDisk { d_settings : option str; d_backup : option str; d_temporary : option str }.

Section Settings.
Context (lower : str -> str) (fs : Files) (printed : option (list InstalledApp)).
Context (to_toml : StoredSettings -> option str) (from_toml : str -> option StoredSettings) (replies : nat -> option reply).

Abbreviation L := (Effects.L Disk) (only parsing).
Notation "x <- m ; k" := (lbind m (fun x => k)) (at level 100, m at next level, right associativity).

Abbreviation key := (normalized_key lower) (only parsing).

Definition normalize (s : StoredSettings) : StoredSettings :=
  mkSettings SETTINGS_VERSION (s_mode s) (sort_and_deduplicate key (map normalize_windows_path (s_apps s))) [].

Definition migrate (s : StoredSettings) : res ClientError.t StoredSettings :=
  if s_version s =? 1 then Ok (normalize (mkSettings SETTINGS_VERSION AppRoutingMode.Exclude (s_apps s ++ s_excluded_apps s) []))
  else if s_version s =? SETTINGS_VERSION then Ok (normalize s)
  else Err ClientError.Platform.

(** [fs::read_to_string]: the contents, or [None] when there is no such file. *)
Definition read_file (contents : Disk -> option str) : L (option str) :=
  r <- call replies;
  c <- gets contents;
  match c, r_io r with
  | None, _ => lret None
  | Some c, None => lret (Some c)
  | Some _, Some kind => lthrow (ClientError.Io (mkIoError kind None))
  end.

Definition parse (contents : str) : L StoredSettings :=
  match from_toml contents with
  | Some s => lres (migrate s)
  | None => lthrow ClientError.Platform
  end.

Definition load : L StoredSettings :=
  contents <- read_file d_settings;
  match contents with
  | Some contents => parse contents
  | None =>
      contents <- read_file d_backup;
      match contents with
      | Some contents => parse contents
      | None => lret (mkSettings SETTINGS_VERSION AppRoutingMode.Exclude [] [])
      end
  end.

Definition replace_file : L unit :=
  destination <- gets d_settings;
  match destination with
  | None => file_call replies (fun d => mkDisk (d_temporary d) (d_backup d) None)
  | Some _ =>
      backup <- gets d_backup;
      _ <- (match backup with
            | Some _ => file_call replies (fun d => mkDisk (d_settings d) None (d_temporary d))
            | None => lret tt
            end);
      _ <- file_call replies (fun d => mkDisk None (d_settings d) (d_temporary d));
      r <- catch (file_call replies (fun d => mkDisk (d_temporary d) (d_backup d) None));
      match r with
      | Ok _ => ignored (file_call replies (fun d => mkDisk (d_settings d) None (d_temporary d)))
      | Err e => _ <- ignored (file_call replies (fun d => mkDisk (d_backup d) None (d_temporary d))); lthrow e
      | Panic => lres Panic
      end
  end.

(** The file is created, written, synchronised and put in place. *)
Definition write_settings (contents : str) : L unit :=
  _ <- file_call replies (fun d => mkDisk (d_settings d) (d_backup d) (Some []));
  _ <- file_call replies (fun d => mkDisk (d_settings d) (d_backup d) (Some contents));
  _ <- file_call replies (fun d => d);
  replace_file.

Definition save (s : StoredSettings) : L unit :=
  _ <- file_call replies (fun d => d);
  contents <- lres (ok_or (to_toml s) ClientError.Platform);
  r <- catch (write_settings contents);
  match r with
  | Ok _ => lret tt
  | Err e => _ <- ignored (file_call replies (fun d => mkDisk (d_settings d) (d_backup d) None)); lthrow e
  | Panic => lres Panic
  end.

(** *** Operations *)

(** [load_resolved], with what PowerShell would list. *)
Definition load_resolved : L StoredSettings :=
  s <- load;
  resolved <- lres (resolve lower fs printed (s_apps s));
  let s := mkSettings (s_version s) (s_mode s) resolved.1 (s_excluded_apps s) in
  if resolved.2 : bool then _ <- save s; lret s else lret s.

Definition app_entry (path : str) : AppEntry :=
  mkEntry path (default default_name (file_stem path)) (is_file fs path).

Definition get : L AppRoutingSettings :=
  s <- load_resolved;
  let s := normalize s in
  lret (mkView (s_mode s) (map app_entry (s_apps s))).

(** The edit of [set_mode], [add], [remove] and [clear]. *)
Definition update (change : StoredSettings -> StoredSettings) : L AppRoutingSettings :=
  s <- load;
  _ <- save (change (normalize s));
  get.

Definition set_mode (m : AppRoutingMode.t) : L AppRoutingSettings :=
  update (fun s => mkSettings (s_version s) m (s_apps s) (s_excluded_apps s)).

Definition add (path : str) : L AppRoutingSettings :=
  path <- lres (validate_executable fs (trim path));
  update (fun s => mkSettings (s_version s) (s_mode s) (sort_and_deduplicate key (s_apps s ++ [path])) (s_excluded_apps s)).

Definition remove (path : str) : L AppRoutingSettings :=
  let requested := key (trim path) in
  update (fun s => mkSettings (s_version s) (s_mode s) (filter (fun candidate => key candidate <> requested) (s_apps s)) (s_excluded_apps s)).

Definition clear : L AppRoutingSettings := update (fun s => mkSettings (s_version s) (s_mode s) [] (s_excluded_apps s)).

(** The choice among the discovered applications: those not chosen go, others stay. *)
Definition with_selection (selected discovered : list str) (s : StoredSettings) : StoredSettings :=
  mkSettings (s_version s) (s_mode s)
    (sort_and_deduplicate key
      (filter (fun path => key path ∉ map key discovered \/ key path ∈ map key selected) (s_apps s) ++ selected))
    (s_excluded_apps s).

Definition set_installed_selection (selected_paths discovered_paths : list str) : L AppRoutingSettings :=
  selected <- lres (filter_map_res (fun path => Some <$> validate_executable fs (trim path)) selected_paths);
  s <- load_resolved;
  _ <- save (with_selection selected (map trim discovered_paths) s);
  get.

(** [policy]; [sid_of] is what Windows derives from a package family. *)
Definition policy (sid_of : str -> res ClientError.t str) : L AppRoutingPolicy :=
  s <- load_resolved;
  let s := normalize s in
  let apps := filter (fun path => is_absolute path && is_file fs path) (s_apps s) in
  families <- lres (filter_map_res (windowsapps_package_family lower) apps);
  let families := dedup_by paths_equal (sort_by_key lower families) in
  sids <- lres (filter_map_res (fun family => Some <$> sid_of family) families);
  lret (mkPolicy (s_mode s) apps sids).

(** ** Saving is atomic *)

(** What [load] would read. *)
Definition stored (d : Disk) : option str := match d_settings d with Some c => Some c | None => d_backup d end.

Definition old_or_new (old : option str) (new : str) (d : Disk) : Prop := stored d = old \/ stored d = Some new.

Lemma replace_file_atomic old new d w :
  stored d = old -> d_temporary d = Some new ->
  old_or_new old new (replace_file d w).1.1 /\
  (forall d' w', replace_file d w = (d', w', Some (Ok tt)) -> d_settings d' = Some new).
Proof.
  unfold old_or_new, stored, replace_file, ignored, file_call, catch, lbind, call, gets, modify, lret, lthrow, lres.
  destruct d as [[c|] [b|] t]; cbn; intros <- ->.
  all: repeat (case_match; cbn in *; simplify_eq; auto); split; intros; simplify_eq; auto.
Qed.

Lemma keeps_stored_file_call (effect : Disk -> Disk) c : (forall d, stored (effect d) = stored d) ->
  keeps (fun d => stored d = c) (file_call replies effect).
Proof. intros He. apply keeps_file_call. intros d <-. apply He. Qed.

Lemma file_call_ok (effect : Disk -> Disk) d w d' w' : file_call replies effect d w = (d', w', Some (Ok tt)) -> d' = effect d.
Proof.
  unfold file_call. intros H. apply lbind_inv in H as (d1 & w1 & r & ->%call_inv & H). destruct (r_io r); by inversion H.
Qed.

Lemma write_settings_atomic old new d w :
  stored d = old ->
  old_or_new old new (write_settings new d w).1.1 /\
  (forall d' w', write_settings new d w = (d', w', Some (Ok tt)) -> d_settings d' = Some new).
Proof.
  intros Hd. unfold write_settings.
  assert (Hk : forall effect d w, (forall d, stored (effect d) = stored d) -> stored d = old -> stored (file_call replies effect d w).1.1 = old)
    by (intros effect d0 w0 He H0; by apply (keeps_stored_file_call effect old He)).
  split.
  - split_bind d w as [(d1 & w1 & [] & ->%file_call_ok & ->)| ->]; [|left; by apply Hk].
    split_bind (mkDisk (d_settings d) (d_backup d) (Some [])) w1 as [(d2 & w2 & [] & ->%file_call_ok & ->)| ->]; [|left; by apply Hk].
    cbn [d_settings d_backup].
    split_bind (mkDisk (d_settings d) (d_backup d) (Some new)) w2 as [(d3 & w3 & [] & ->%file_call_ok & ->)| ->]; [|left; by apply Hk].
    by apply replace_file_atomic.
  - intros d' w' H. apply lbind_inv in H as (d1 & w1 & [] & ->%file_call_ok & H).
    apply lbind_inv in H as (d2 & w2 & [] & ->%file_call_ok & H). apply lbind_inv in H as (d3 & w3 & [] & ->%file_call_ok & H).
    cbn [d_settings d_backup] in H. by apply (replace_file_atomic old new) in H.
Qed.

Lemma save_atomic old new s d w :
  stored d = old -> to_toml s = Some new ->
  old_or_new old new (save s d w).1.1 /\
  (forall d' w', save s d w = (d', w', Some (Ok tt)) -> d_settings d' = Some new).
Proof.
  intros Hd Hs. pose proof (fun d w => write_settings_atomic old new d w) as Hw. unfold save. rewrite Hs. split.
  - split_bind d w as [(d1 & w1 & [] & ->%file_call_ok & ->)| ->]; [|left; by apply (keeps_stored_file_call (fun d => d) old)].
    cbn [ok_or]. unfold lbind at 1, lres at 1. destruct (Hw d w1 Hd) as [Hend _].
    split_bind d w1 as [(d2 & w2 & r & H2 & ->)| ->]; [|by rewrite catch_end].
    assert (H2' : old_or_new old new d2) by (rewrite <- catch_end, H2 in Hend; exact Hend).
    destruct r as [[]|e|]; [done| |done].
    assert (Hk : keeps (old_or_new old new) (lbind (ignored (file_call replies (fun d => mkDisk (d_settings d) (d_backup d) None))) (fun _ => lthrow (A := unit) e))).
    { unfold ignored. repeat (keeps_step || (apply keeps_file_call; by intros [])). }
    by apply Hk.
  - intros d' w' H. apply lbind_inv in H as (d1 & w1 & [] & ->%file_call_ok & H).
    apply lbind_inv in H as (d2 & w2 & contents & H2 & H). inversion H2; subst; clear H2.
    apply lbind_inv in H as (d3 & w3 & r & H3 & H). unfold catch in H3.
    destruct (write_settings contents d2 w2) as [[d4 w4] [[[]|e|]|]] eqn:E; inversion H3; subst; clear H3.
    + inversion H; subst. by apply (proj2 (Hw d2 w2 eq_refl) d' w').
    + apply lbind_inv in H as (? & ? & ? & _ & H). discriminate.
Qed.

(** ** What the operations do *)

(** The settings on disk. *)
Definition loaded (d : Disk) : res ClientError.t StoredSettings :=
  match stored d with
  | Some contents => match from_toml contents with Some s => migrate s | None => Err ClientError.Platform end
  | None => Ok (mkSettings SETTINGS_VERSION AppRoutingMode.Exclude [] [])
  end.

Lemma read_file_inv contents d w d' w' c : read_file contents d w = (d', w', Some (Ok c)) -> d' = d /\ c = contents d.
Proof.
  unfold read_file. intros H. apply lbind_inv in H as (d1 & w1 & r & ->%call_inv & H).
  apply lbind_inv in H as (d2 & w2 & c' & H2 & H). inversion H2; subst; clear H2.
  destruct (contents d2), (r_io r); by inversion H.
Qed.

Lemma parse_end contents d w : exists r, parse contents d w = (d, w, Some r) /\
  r = match from_toml contents with Some s => migrate s | None => Err ClientError.Platform end.
Proof. unfold parse. destruct (from_toml contents); by eexists. Qed.

Lemma load_inv d w d' w' s : load d w = (d', w', Some (Ok s)) -> d' = d /\ loaded d = Ok s.
Proof.
  unfold load, loaded, stored. intros H. apply lbind_inv in H as (d1 & w1 & c & [-> ->]%read_file_inv & H).
  destruct (d_settings d) as [contents|].
  - destruct (parse_end contents d w1) as (r & E & Hr). rewrite E in H. injection H as <- _ Hs. split; [done|]. by rewrite <- Hr.
  - apply lbind_inv in H as (d2 & w2 & c & [-> ->]%read_file_inv & H). destruct (d_backup d) as [contents|]; [|by inversion H].
    destruct (parse_end contents d w2) as (r & E & Hr). rewrite E in H. injection H as <- _ Hs. split; [done|]. by rewrite <- Hr.
Qed.

Lemma keeps_load I : keeps I load.
Proof. unfold load, read_file, parse. repeat (apply keeps_call || keeps_step). Qed.

(** Settings of the current version, without the old list. *)
Definition current (s : StoredSettings) : Prop := s_version s = SETTINGS_VERSION /\ s_excluded_apps s = [].

Lemma loaded_current d s : loaded d = Ok s -> current s.
Proof.
  unfold loaded, migrate. destruct (stored d); [|by intros [= <-]]. destruct (from_toml _) as [t|]; [|done].
  destruct (_ =? 1); [by intros [= <-]|]. destruct (_ =? _); [by intros [= <-]|done].
Qed.

(** What TOML writes it reads. *)
Hypothesis toml_roundtrip : forall s, s_version s = SETTINGS_VERSION -> s_excluded_apps s = [] ->
  exists contents, to_toml s = Some contents /\ from_toml contents = Some s.

(** An operation that takes the settings on disk from [s] over [vs]: it ends with one of
    them, and with [f] when it succeeds. *)
Definition writes {A} (m : L A) (s : StoredSettings) (vs : list StoredSettings) (f : StoredSettings) (Q : A -> Prop) : Prop :=
  forall d w, loaded d = Ok s ->
  let '(d', _, r) := m d w in
  (exists v, v ∈ s :: vs /\ loaded d' = Ok v) /\ (forall a, r = Some (Ok a) -> loaded d' = Ok f /\ Q a).

Lemma writes_bind {A B} (m : L A) (k : A -> L B) s vs f Q vs' f' Q' :
  writes m s vs f Q -> (forall a, Q a -> writes (k a) f vs' f' Q') -> writes (lbind m k) s (vs ++ vs') f' Q'.
Proof.
  intros Hm Hk d w Hd. specialize (Hm d w Hd). unfold lbind. destruct (m d w) as [[d1 w1] r]. destruct Hm as [(v & Hv & Hl) Hok].
  assert (Hfail : exists v, v ∈ s :: vs ++ vs' /\ loaded d1 = Ok v) by (exists v; split; [set_solver|done]).
  destruct r as [[a|e|]|]; [|by split..]. destruct (Hok a eq_refl) as [Hf HQ]. specialize (Hk a HQ d1 w1 Hf).
  destruct (k a d1 w1) as [[d2 w2] r2]. destruct Hk as [(v' & Hv' & Hl') Hok']. split; [|done].
  exists v'. split; [|done]. assert (v = f) as -> by congruence. set_solver.
Qed.

Lemma writes_ret {A} (a : A) s (Q : A -> Prop) : Q a -> writes (lret a) s [] s Q.
Proof. intros HQ d w Hd. cbn. split; [exists s; split; [by left|done]|]. by intros ? [= <-]. Qed.

Lemma writes_res {A} (r : res ClientError.t A) s : writes (lres r) s [] s (fun a => r = Ok a).
Proof. intros d w Hd. cbn. split; [exists s; split; [by left|done]|]. by intros ? [= ->]. Qed.

Lemma writes_load s : writes load s [] s (fun a => a = s).
Proof.
  intros d w Hd. destruct (load d w) as [[d' w'] r] eqn:E.
  pose proof (keeps_load (fun x => x = d) d w eq_refl) as Hk. rewrite E in Hk. cbn in Hk. subst d'.
  split; [exists s; split; [by left|done]|]. intros a ->. apply load_inv in E as [_ E]. split; congruence.
Qed.

Lemma writes_save s c : current c -> writes (save c) s [normalize c] (normalize c) (fun _ => True).
Proof.
  intros [Hv Hx] d w Hd. destruct (toml_roundtrip c Hv Hx) as (new & Hto & Hfrom).
  destruct (save_atomic (stored d) new c d w eq_refl Hto) as [Hend Hok]. destruct (save c d w) as [[d' w'] r]. cbn in Hend.
  assert (Hnew : stored d' = Some new -> loaded d' = Ok (normalize c)) by (intros H0; unfold loaded, migrate; by rewrite H0, Hfrom, Hv).
  split.
  - destruct Hend as [H|H]; [exists s; split; [by left|]|exists (normalize c); split; [right; by left|by apply Hnew]].
    rewrite <- Hd. unfold loaded. by rewrite H.
  - intros [] ->. split; [|done]. apply Hnew. unfold stored. by rewrite (Hok _ _ eq_refl).
Qed.

(** The settings with their list repaired, and whether they are written back. *)
Definition resolved (s : StoredSettings) : res ClientError.t (StoredSettings * bool) :=
  r ← resolve lower fs printed (s_apps s); Ok (mkSettings (s_version s) (s_mode s) r.1 (s_excluded_apps s), r.2).

Definition repaired (s : StoredSettings) : StoredSettings :=
  match resolved s with Ok (s', true) => normalize s' | _ => s end.

Lemma writes_resolved s : current s -> writes load_resolved s [repaired s] (repaired s) (fun a => exists c, resolved s = Ok (a, c)).
Proof.
  intros Hc. unfold repaired, load_resolved. rewrite <- (app_nil_l [_]). eapply writes_bind; [apply writes_load|]. intros ? ->.
  rewrite <- (app_nil_l [_]). eapply writes_bind; [apply writes_res|]. intros [apps changed] E. cbn [fst snd].
  assert (Hr : resolved s = Ok (mkSettings (s_version s) (s_mode s) apps (s_excluded_apps s), changed)) by (unfold resolved; by rewrite E).
  rewrite Hr. destruct changed.
  - rewrite <- (app_nil_r [_]). eapply writes_bind; [apply writes_save; exact Hc|]. intros _ _. apply writes_ret. by exists true.
  - intros d w Hd. cbn. split; [exists s; split; [by left|done]|]. intros ? [= <-]. split; [done|by exists false].
Qed.

(** The view of the settings. *)
Definition view (s : StoredSettings) : option AppRoutingSettings :=
  match resolved s with
  | Ok (s, _) => Some (mkView (s_mode s) (map app_entry (s_apps (normalize s))))
  | _ => None
  end.

Lemma writes_get s : current s -> writes get s [repaired s] (repaired s) (fun v => view s = Some v).
Proof.
  intros Hc. unfold get. rewrite <- (app_nil_r [_]). eapply writes_bind; [by apply writes_resolved|]. intros a [c E].
  apply writes_ret. unfold view. by rewrite E.
Qed.

Inductive edit :=
| SetMode (m : AppRoutingMode.t) | Add (path : str) | Remove (path : str) | Clear
| Select (selected discovered : list str).

Definition run_edit (e : edit) : L AppRoutingSettings :=
  match e with
  | SetMode m => set_mode m
  | Add path => add path
  | Remove path => remove path
  | Clear => clear
  | Select selected discovered => set_installed_selection selected discovered
  end.

(** The settings an edit makes of those on disk, if it gets that far. *)
Definition edited (e : edit) (s : StoredSettings) : option StoredSettings :=
  let s' := normalize s in
  let with_apps apps := mkSettings (s_version s') (s_mode s') apps (s_excluded_apps s') in
  match e with
  | SetMode m => Some (mkSettings (s_version s') m (s_apps s') (s_excluded_apps s'))
  | Add path => match validate_executable fs (trim path) with Ok path => Some (with_apps (sort_and_deduplicate key (s_apps s' ++ [path]))) | _ => None end
  | Remove path => Some (with_apps (filter (fun candidate => key candidate <> key (trim path)) (s_apps s')))
  | Clear => Some (with_apps [])
  | Select selected discovered =>
      match filter_map_res (fun path => Some <$> validate_executable fs (trim path)) selected, resolved s with
      | Ok selected, Ok (s, _) => Some (with_selection selected (map trim discovered) s)
      | _, _ => None
      end
  end.

(** What may be on disk after an edit of [s] that did not finish. *)
Definition versions (e : edit) (s : StoredSettings) : list StoredSettings :=
  s :: match e with Select _ _ => [repaired s] | _ => [] end ++
  match edited e s with Some c => [normalize c; repaired (normalize c)] | None => [] end.

Lemma writes_update change s :
  current (change (normalize s)) ->
  let c := normalize (change (normalize s)) in writes (update change) s [c; repaired c] (repaired c) (fun v => view c = Some v).
Proof.
  intros Hc c. unfold update. change [c; repaired c] with ([] ++ [c] ++ [repaired c]).
  eapply writes_bind; [apply writes_load|]. intros ? ->. eapply writes_bind; [by apply writes_save|]. intros _ _. by apply writes_get.
Qed.

Lemma resolved_current s s' c : current s -> resolved s = Ok (s', c) -> current s'.
Proof. intros Hs. unfold resolved. destruct (resolve _ _ _ _); [|done..]. by intros [= <- _]. Qed.

Lemma writes_stuck {A B} (r : res ClientError.t A) (k : A -> L B) s vs f Q :
  (forall a, r <> Ok a) -> writes (lbind (lres r) k) s vs f Q.
Proof. intros Hr d w Hd. destruct r as [a|e|]; [by destruct (Hr a)|..]; (split; [exists s; split; [by left|done]|by intros a]). Qed.

Lemma writes_edit e s : current s ->
  match edited e s with
  | Some c => writes (run_edit e) s (tail (versions e s)) (repaired (normalize c)) (fun v => view (normalize c) = Some v)
  | None => writes (run_edit e) s (tail (versions e s)) s (fun _ => False)
  end.
Proof.
  intros Hs. unfold versions. destruct e as [m|path|path| |selected discovered]; cbn [edited tail run_edit app].
  1, 3, 4: by apply writes_update.
  - unfold add. destruct (validate_executable fs (trim path)) as [p|e|] eqn:E; [|by apply writes_stuck..].
    by apply (writes_update (fun s => mkSettings (s_version s) (s_mode s) (sort_and_deduplicate key (s_apps s ++ [p])) (s_excluded_apps s))).
  - unfold set_installed_selection. set (chosen := filter_map_res _ selected). destruct chosen as [sel|e|]; [|by apply writes_stuck..].
    assert (Hgo : forall B (k : StoredSettings -> L B) vs f Q, (forall a c, resolved s = Ok (a, c) -> writes (k a) (repaired s) vs f Q) ->
      writes (lbind (lres (Ok sel)) (fun _ => lbind load_resolved k)) s (repaired s :: vs) f Q).
    { intros B k vs f Q Hk. change (repaired s :: vs) with ([] ++ [repaired s] ++ vs). eapply writes_bind; [apply writes_res|]. intros _ _.
      eapply writes_bind; [by apply writes_resolved|]. intros a (c & Ha). by apply (Hk a c). }
    destruct (resolved s) as [[s' c]|e|] eqn:Er; cbn [app]; apply Hgo; [|done..]. intros a c' [= <- <-].
    pose proof (resolved_current _ _ _ Hs Er) as Hc.
    set (chosen := with_selection sel (map trim discovered) s').
    change [normalize chosen; repaired (normalize chosen)] with ([normalize chosen] ++ [repaired (normalize chosen)]).
    eapply writes_bind; [by apply writes_save|]. intros _ _. by apply writes_get.
Qed.

(** [C31] Changing the application list.  Whatever becomes of an edit of the list or of the
    mode, failing at any file operation or killed between any two, what a later start
    loads is one of the complete settings the edit goes through: those from before, the
    edited ones, or either with its paths repaired.  When the edit reports success it is the
    edited and repaired settings, and the reported view is theirs. *)
Theorem settings_change_atomically e s d w :
  loaded d = Ok s ->
  let '(d', _, r) := run_edit e d w in
  (exists v, v ∈ versions e s /\ loaded d' = Ok v) /\
  (forall v, r = Some (Ok v) ->
     exists c, edited e s = Some c /\ loaded d' = Ok (repaired (normalize c)) /\ view (normalize c) = Some v).
Proof.
  intros Hd. pose proof (writes_edit e s (loaded_current _ _ Hd)) as H.
  destruct (edited e s) as [c|]; specialize (H d w Hd); destruct (run_edit e d w) as [[d' w'] r]; destruct H as [H1 H2].
  - split; [exact H1|]. intros v Hv. destruct (H2 v Hv). by exists c.
  - split; [exact H1|]. intros v Hv. by destruct (H2 v Hv).
Qed.

Lemma sorted_keys l k : k ∈ map key (sort_and_deduplicate key l) <-> k ∈ map key l.
Proof.
  destruct (sort_and_deduplicate_spec key l) as (_ & Hin & Hkeys).
  rewrite !list_elem_of_fmap. split.
  - intros (x & -> & Hx). exists x. auto.
  - intros (x & -> & Hx). destruct (Hkeys x Hx) as (y & Hy & E). by exists y.
Qed.

(** Choosing among the applications found on the machine leaves exactly the chosen ones of
    them, beside those of the list that were not found there. *)
Lemma selection_is_exact selected discovered s k :
  k ∈ map key (s_apps (with_selection selected discovered s)) <->
  k ∈ map key selected \/ (k ∈ map key (s_apps s) /\ k ∉ map key discovered).
Proof.
  cbn. rewrite sorted_keys, map_app, elem_of_app.
  assert (Hf : k ∈ map key (filter (fun path => key path ∉ map key discovered \/ key path ∈ map key selected) (s_apps s)) <->
    k ∈ map key (s_apps s) /\ (k ∉ map key discovered \/ k ∈ map key selected)).
  { split.
    - intros (x & -> & [Hx Hin]%list_elem_of_filter)%list_elem_of_fmap. split; [apply list_elem_of_fmap; by exists x|done].
    - intros [(x & -> & Hx)%list_elem_of_fmap H]. apply list_elem_of_fmap. exists x. split; [done|]. by apply list_elem_of_filter. }
  rewrite Hf. tauto.
Qed.

End Settings.

(** ** A change that is interrupted *)

Module ToySettings.
Import ToyHandshake ToyNetwork ToyPaths.

(** A toy TOML: the mode and the paths. *)
Definition toy_to_toml (s : StoredSettings) : option str :=
  Some ((match s_mode s with AppRoutingMode.Exclude => 0 | AppRoutingMode.Include => 1 end) ::
    flat_map (fun p => len p :: p) (s_apps s)).

Fixpoint toy_apps (fuel : nat) (l : str) : list str :=
  match fuel, l with
  | S fuel, n :: l => take (Z.to_nat n) l :: toy_apps fuel (drop (Z.to_nat n) l)
  | _, _ => []
  end.

Definition toy_from_toml (l : str) : option StoredSettings :=
  match l with
  | m :: l => Some (mkSettings SETTINGS_VERSION (if m =? 0 then AppRoutingMode.Exclude else AppRoutingMode.Include) (toy_apps (length l) l) [])
  | [] => None
  end.

Lemma toy_apps_roundtrip apps fuel : (length (flat_map (fun p => len p :: p) apps) <= fuel)%nat ->
  toy_apps fuel (flat_map (fun p => len p :: p) apps) = apps.
Proof.
  revert fuel. induction apps as [|p apps IH]; intros fuel Hf; cbn [flat_map] in *; [by destruct fuel|].
  cbn [app length] in Hf. destruct fuel as [|fuel]; [lia|]. cbn [app toy_apps]. rewrite length_app in Hf.
  unfold len at 1 3. rewrite !Nat2Z.id, take_app_length, drop_app_length. f_equal. apply IH. lia.
Qed.

Lemma toy_roundtrip s : s_version s = SETTINGS_VERSION -> s_excluded_apps s = [] ->
  exists contents, toy_to_toml s = Some contents /\ toy_from_toml contents = Some s.
Proof.
  intros Hv Hx. eexists. split; [reflexivity|]. cbn. rewrite toy_apps_roundtrip by lia. destruct s as [v [] apps ex]; cbn in *; by subst.
Qed.

Definition launcher : str := ascii_bytes "C:\P\A.exe".
Definition old_version : str := ascii_bytes "C:\P\app-1\A.exe".
Definition new_version : str := ascii_bytes "C:\P\app-2\A.exe".

Definition in_mode (m : AppRoutingMode.t) (apps : list str) : StoredSettings := mkSettings SETTINGS_VERSION m apps [].
Definition disk : Disk := mkDisk (toy_to_toml (in_mode AppRoutingMode.Exclude [old_version])) None None.

#[local] Abbreviation switch n := (run_edit to_ascii_lowercase fs None toy_to_toml toy_from_toml (until n) (SetMode AppRoutingMode.Include) disk before).
#[local] Abbreviation on d := (loaded to_ascii_lowercase toy_from_toml d).

(** Switching the mode: killed when the old file has just become the backup the old settings
    are read, and at the end the mode is switched and the new version found. *)
Lemma settings_change_atomically_witness :
  d_settings (switch 6).1.1 = None /\ on (switch 6).1.1 = Ok (in_mode AppRoutingMode.Exclude [old_version]) /\
  on (switch 60).1.1 = Ok (in_mode AppRoutingMode.Include [launcher; new_version]).
Proof.
  assert (Hl : on disk = Ok (in_mode AppRoutingMode.Exclude [old_version])) by (vm_compute; reflexivity).
  pose proof (settings_change_atomically to_ascii_lowercase fs None toy_to_toml toy_from_toml (until 60) toy_roundtrip (SetMode AppRoutingMode.Include) _ disk before Hl) as H2.
  split; [vm_compute; reflexivity|]. split; [vm_compute; reflexivity|].
  assert (Hr : exists v, (switch 60).2 = Some (Ok v)) by (eexists; vm_compute; reflexivity).
  destruct (switch 60) as [[d w] r]. destruct Hr as [v Hr]. destruct (proj2 H2 v Hr) as (c & Hc & Hd & _).
  injection Hc as <-. cbn [fst]. rewrite Hd. vm_compute. reflexivity.
Defined.

End ToySettings.
