(* ===== verification/FullTunnel.v ===== *)
(** * The full tunnel of the Windows client

    crates/windows-client/src/packet_loop.rs: the receive loop writes what arrives to
    Wintun, keeps the session alive and replaces it; the worker reads Wintun in batches,
    encrypts them under one lock and sends them.  The two share the sending half, the
    flags [reconnecting] and [reconnect_requested], and a channel of one socket through
    which the loop hands the worker the replacement of its own.

    The threads interleave, so both are state machines: [loop_step] and [worker_step] are
    what a thread does between two accesses to shared state, and a run is any sequence of
    their steps and of packets arriving at Wintun.  Sockets are numbered by the
    handshake they were opened for, and so are sessions ([f_epoch]); [f_batches] records
    the socket and the session of each batch, [f_begun] the batches since the flag was
    raised.  Waits, errors of Wintun and the fuel of a handshake are arguments of the
    steps, the rest is the tape of Handshake.v.  Locks are not poisoned: a worker that
    panics while it encodes is not modelled.  Logging, the start and the end of the threads and the periodic refresh of the policy (WinNetwork.v) are not modelled.

    The theorems: the worker is paused while the session is replaced and never sends an
    old session by a new socket; it may send the new session by the old socket; adapter,
    policy and session agree on the parameters. *)

From S2P Require Import Prelude Protocol Replay Crypto ToyCrypto DataPlane Morph Speedy Config ClientWire Liveness Handshake Effects Divert Diagnostics SplitTunnel.

Definition POST_RECONNECT_EVENT_GRACE : Z := 3000.
Definition FULL_BATCH_SIZE : nat := 32.
Definition ERROR_BUFFER_OVERFLOW : Z := 111.

Definition full_is_timeout (e : IoError) : bool := bool_decide (kind e ∈ [ErrorKind.TimedOut; ErrorKind.WouldBlock]).

(** [counter.saturating_add(1)] *)
Definition note_packet_drop (counter : Z) : Z := sat_add64 counter 1.

(** The flag afterwards and whether the request counts. *)
Definition full_take_reconnect_request (requested : bool) (grace_until : option Z) (now : Z) : bool * bool :=
  (false, requested && match grace_until with None => true | Some deadline => deadline <=? now end).

Section Full.
Context `{N : Noise, P : Primitives}.

(** Where a thread is. *)
Inductive loop_at :=
| Looping
| Establishing
| Swapping (plane : TunnelDataPlane) (socket : nat)
| Handing (socket : nat)
| Resuming (replaced : bool)
| Settling
| Left_ (r : res ClientError.t unit).

Inductive worker_at :=
| AtTop
| AtCheck
| AtWait
| AtRecheck
| AtEncode
| AtSend (epoch : nat) (encrypted : list bytes)
| Stopped (r : res ClientError.t unit).

(** The outcome of [WaitForSingleObject]. *)
Inductive wait_result := Signalled | WaitTimeout | WaitFailed.

Record Sockets := mkSockets {
  opened : nat;
  incoming : nat;
  outgoing : nat;
  replacements : list nat;
}.

Record Wintun := mkWintun {
  ring : list bytes;
  written : list bytes;
  send_drops : Z;
  worker_drops : Z;
}.

Record Full := mkFull {
  f_parameters : SessionParameters.t;
  f_receiver : TunnelReceiver;
  f_sender : TunnelSender;
  f_epoch : nat;
  f_adapter_mtu : Z;
  f_policy : SessionParameters.t;
  f_rollback_failed : bool;
  f_liveness : Liveness;
  f_stopping : bool;
  f_reconnecting : bool;
  f_requested : bool;
  f_grace : option Z;
  f_sockets : Sockets;
  f_wintun : Wintun;
  f_loop : loop_at;
  f_worker : worker_at;
  f_batches : list (nat * nat);
  f_begun : nat;
}.

Definition put_session (s : Full) r x ep : Full :=
  let 'mkFull a _ _ _ e f g h i j k l m n o p q u := s in mkFull a r x ep e f g h i j k l m n o p q u.
Definition put_receiver (s : Full) (x : TunnelReceiver) : Full := put_session s x (f_sender s) (f_epoch s).
Definition put_sender (s : Full) (x : TunnelSender) : Full := put_session s (f_receiver s) x (f_epoch s).
Definition put_parameters (s : Full) x : Full :=
  let 'mkFull _ b c d e f g h i j k l m n o p q u := s in mkFull x b c d e f g h i j k l m n o p q u.
Definition put_adapter_mtu (s : Full) x : Full :=
  let 'mkFull a b c d _ f g h i j k l m n o p q u := s in mkFull a b c d x f g h i j k l m n o p q u.
Definition put_policy (s : Full) x : Full :=
  let 'mkFull a b c d e _ g h i j k l m n o p q u := s in mkFull a b c d e x g h i j k l m n o p q u.
Definition put_rollback_failed (s : Full) : Full :=
  let 'mkFull a b c d e f _ h i j k l m n o p q u := s in mkFull a b c d e f true h i j k l m n o p q u.
Definition put_liveness (s : Full) x : Full :=
  let 'mkFull a b c d e f g _ i j k l m n o p q u := s in mkFull a b c d e f g x i j k l m n o p q u.
Definition put_reconnecting (s : Full) x : Full :=
  let 'mkFull a b c d e f g h i _ k l m n o p q u := s in mkFull a b c d e f g h i x k l m n o p q u.
Definition put_requested (s : Full) x : Full :=
  let 'mkFull a b c d e f g h i j _ l m n o p q u := s in mkFull a b c d e f g h i j x l m n o p q u.
Definition put_grace (s : Full) x : Full :=
  let 'mkFull a b c d e f g h i j k _ m n o p q u := s in mkFull a b c d e f g h i j k x m n o p q u.
Definition put_sockets (s : Full) x : Full :=
  let 'mkFull a b c d e f g h i j k l _ n o p q u := s in mkFull a b c d e f g h i j k l x n o p q u.
Definition put_wintun (s : Full) x : Full :=
  let 'mkFull a b c d e f g h i j k l m _ o p q u := s in mkFull a b c d e f g h i j k l m x o p q u.
Definition put_loop (s : Full) x : Full :=
  let 'mkFull a b c d e f g h i j k l m n _ p q u := s in mkFull a b c d e f g h i j k l m n x p q u.
Definition put_worker (s : Full) x : Full :=
  let 'mkFull a b c d e f g h i j k l m n o _ q u := s in mkFull a b c d e f g h i j k l m n o x q u.
Definition put_batches (s : Full) x (n : nat) : Full :=
  let 'mkFull a b c d e f g h i j k l m y o p _ _ := s in mkFull a b c d e f g h i j k l m y o p x n.

Context (tape : nat -> moment) (config : ValidatedClientConfig).

Abbreviation L := (Effects.L Full) (only parsing).
Notation "x <- m ; k" := (lbind m (fun x => k)) (at level 100, m at next level, right associativity).

(** ** The receive loop *)

Definition go (at_ : loop_at) : L unit := modify (fun s => put_loop s at_).

Definition full_check_worker : L unit :=
  worker <- gets f_worker;
  match worker with
  | Stopped (Err e) => lthrow e
  | Stopped _ => lthrow ClientError.Platform
  | _ => lret tt
  end.

(** [send_to_windows], with what allocating the packet in the ring gives: its error code. *)
Definition send_to_windows (allocated : option Z) (packet : bytes) : L unit :=
  if 0xffff <? len packet then lthrow ClientError.Platform
  else
    match allocated with
    | None => modify (fun s => put_wintun s (mkWintun (ring (f_wintun s)) (written (f_wintun s) ++ [packet]) (send_drops (f_wintun s)) (worker_drops (f_wintun s))))
    | Some code =>
        if code =? ERROR_BUFFER_OVERFLOW
        then modify (fun s => put_wintun s (mkWintun (ring (f_wintun s)) (written (f_wintun s)) (note_packet_drop (send_drops (f_wintun s))) (worker_drops (f_wintun s))))
        else lthrow ClientError.Platform
    end.

Definition full_decode_into (parsed : Datagram.t) : L (res DataPlaneError.t Decoded) := fun s w =>
  let '(receiver, r) := TunnelReceiver_decode_into (f_receiver s) parsed in
  (put_receiver s receiver, w, Some (Ok r)).

Definition full_alive : L unit :=
  now <- clock tape;
  modify (fun s => put_liveness s (Windows.packet_received (f_liveness s) now)).

Definition full_lose (now : Z) : L unit := modify (fun s => put_liveness s (Windows.connection_lost (f_liveness s) now)).

Definition full_deliver (allocated : option Z) (datagram : bytes) : L unit :=
  framed <- unwrap tape datagram;
  match framed with
  | None => lret tt
  | Some parsed =>
      r <- full_decode_into parsed;
      match r with
      | Ok (Ip packet) => _ <- full_alive; send_to_windows allocated packet
      | Ok Keepalive => full_alive
      | Err _ => lret tt
      | Panic => lres Panic
      end
  end.

Definition full_encode_keepalive : L bytes := fun s w =>
  let '(sender, r) := TunnelSender_encode_keepalive_into (f_sender s) [] in
  (put_sender s sender, w, Some (map_err ClientError.DataPlane r)).

(** [maintain_liveness] up to the replacement of the session: [reconnect] begins by
    raising the flag. *)
Definition full_maintain_liveness : L unit :=
  now <- clock tape;
  live <- gets f_liveness;
  match Windows.action live now with
  | Action.None => lret tt
  | Action.Keepalive =>
      keepalive <- full_encode_keepalive;
      wired <- run_m (wire_encode tape keepalive);
      r <- run_m (send_datagram tape wired);
      match r with
      | Ok _ => modify (fun s => put_liveness s (keepalive_sent (f_liveness s) now))
      | Err e => if windows_peer_unavailable e then full_lose now else lthrow (ClientError.Io e)
      | Panic => lres Panic
      end
  | Action.Reconnect =>
      _ <- modify (fun s => put_liveness s (reconnect_attempted (f_liveness s) now));
      _ <- modify (fun s => put_batches (put_reconnecting s true) (f_batches s) 0);
      go Establishing
  end.

(** One iteration of [IncomingLoop::run]. *)
Definition full_turn (allocated : option Z) : L unit :=
  _ <- full_check_worker;
  r <- run_m (receive_datagram tape);
  _ <- match r with
       | Ok datagram => full_deliver allocated datagram
       | Err e =>
           if full_is_timeout e then lret tt
           else if windows_peer_unavailable e then now <- clock tape; full_lose now
           else if bool_decide (kind e = ErrorKind.Interrupted) then lret tt
           else lthrow (ClientError.Io e)
       | Panic => lres Panic
       end;
  now <- clock tape;
  requested <- gets f_requested;
  grace <- gets f_grace;
  let '(flag, honoured) := full_take_reconnect_request requested grace now in
  _ <- modify (fun s => put_requested s flag);
  _ <- (if honoured : bool then full_lose now else lret tt);
  full_maintain_liveness.

(** A call to Windows: it may fail, but does not panic. *)
Definition policy_call : L unit :=
  r <- platform tape;
  match r with Ok _ => lret tt | _ => lthrow ClientError.Platform end.

Definition set_mtu (mtu : Z) : L unit := _ <- policy_call; modify (fun s => put_adapter_mtu s mtu).

Definition apply_parameters (parameters : SessionParameters.t) : L unit :=
  previous <- gets f_parameters;
  if bool_decide (parameters = previous) then lret tt
  else
    _ <- set_mtu (SessionParameters.mtu parameters);
    r <- catch policy_call;
    match r with
    | Ok _ => modify (fun s => put_parameters (put_policy s parameters) parameters)
    | Err e =>
        rollback <- catch (set_mtu (SessionParameters.mtu previous));
        match rollback with
        | Ok _ => lthrow e
        | Err _ => _ <- modify put_rollback_failed; lthrow ClientError.Platform
        | Panic => lres Panic
        end
    | Panic => lres Panic
    end.

(** [establish_replacement] before the session is replaced: the new session and socket. *)
Definition establish_session (fuel : nat) : L (TunnelDataPlane * nat) :=
  _ <- policy_call;
  replacement <- run_m (windows_connect tape fuel config);
  socket_number <- gets (fun s => S (opened (f_sockets s)));
  _ <- modify (fun s => put_sockets s (mkSockets socket_number (incoming (f_sockets s)) (outgoing (f_sockets s)) (replacements (f_sockets s))));
  _ <- socket tape;
  _ <- socket tape;
  _ <- apply_parameters replacement.2;
  lret (replacement.1, socket_number).

(** What the loop does between two accesses to what it shares.  The channel holds one
    socket: a second waits ([Handing] stays where it is) until the worker takes the first. *)
Definition loop_step (fuel : nat) (allocated : option Z) : L unit :=
  at_ <- gets f_loop;
  match at_ with
  | Looping =>
      stopping <- gets f_stopping;
      if stopping : bool then go (Left_ (Ok tt))
      else
        r <- catch (full_turn allocated);
        match r with Ok _ => lret tt | Err e => go (Left_ (Err e)) | Panic => lres Panic end
  | Establishing =>
      r <- catch (establish_session fuel);
      match r with
      | Ok (plane, socket) => go (Swapping plane socket)
      | Err _ => go (Resuming false)
      | Panic => lres Panic
      end
  | Swapping plane socket =>
      let '(sender, receiver) := TunnelDataPlane_split plane in
      _ <- modify (fun s => put_session s receiver sender socket);
      go (Handing socket)
  | Handing socket =>
      worker <- gets f_worker;
      sockets <- gets f_sockets;
      match worker, replacements sockets with
      | Stopped _, _ => go (Resuming false)
      | _, _ :: _ => lret tt
      | _, [] =>
          _ <- modify (fun s => put_sockets s (mkSockets (opened sockets) socket (outgoing sockets) [socket]));
          go (Resuming true)
      end
  | Resuming replaced =>
      _ <- modify (fun s => put_reconnecting s false);
      go (if replaced : bool then Settling else Looping)
  | Settling =>
      now <- clock tape;
      _ <- modify (fun s => put_requested s false);
      _ <- modify (fun s => put_grace s (Some (now + POST_RECONNECT_EVENT_GRACE)));
      _ <- modify (fun s => put_liveness s (reconnected (f_liveness s) now));
      go Looping
  | Left_ _ => lret tt
  end.

(** ** The worker *)

(** Packets of the ring until 32 are encrypted or the ring is empty: what is left of the
    ring, the sender, the drops, and the datagrams. *)
Fixpoint encode_ring (packets : list bytes) (room : nat) (sender : TunnelSender) (drops : Z) :
    list bytes * TunnelSender * Z * res ClientError.t (list bytes) :=
  match room, packets with
  | O, _ => (packets, sender, drops, Ok [])
  | S _, [] => ([], sender, drops, Ok [])
  | S room', packet :: packets =>
      if negb (match packet with b :: _ => Z.shiftr b 4 =? 4 | [] => false end) then encode_ring packets room sender drops
      else
        let '(sender, r) := TunnelSender_encode_ip_into sender packet [] in
        match r with
        | Ok encrypted =>
            let '(rest, sender, drops, r) := encode_ring packets room' sender drops in
            (rest, sender, drops, l ← r; Ok (encrypted :: l))
        | Err (DataPlaneError.PacketExceedsMtu _ _ | DataPlaneError.Ip _) => encode_ring packets room sender (note_packet_drop drops)
        | Err e => (packets, sender, drops, Err (ClientError.DataPlane e))
        | Panic => (packets, sender, drops, Panic)
        end
  end.

Definition go_worker (at_ : worker_at) : L unit := modify (fun s => put_worker s at_).

(** The batch under the lock; [ring_fails] when Wintun fails instead of saying that the ring is empty. *)
Definition encode_batch (ring_fails : bool) : L (list bytes) := fun s w =>
  let t := f_wintun s in
  let '(rest, sender, drops, r) := encode_ring (ring t) FULL_BATCH_SIZE (f_sender s) (worker_drops t) in
  let s := put_sender (put_wintun s (mkWintun rest (written t) (send_drops t) drops)) sender in
  (s, w, Some (l ← r; if ring_fails && (length l <? FULL_BATCH_SIZE)%nat then Err ClientError.Platform else Ok l)).

Definition worker_drop : L unit :=
  modify (fun s => let t := f_wintun s in put_wintun s (mkWintun (ring t) (written t) (send_drops t) (note_packet_drop (worker_drops t)))).

(** One datagram of the batch: whether the batch goes on. *)
Definition send_one (encrypted : bytes) : L bool :=
  wired <- run_m (wire_encode tape encrypted);
  r <- run_m (send_datagram tape wired);
  match r with
  | Ok _ => lret true
  | Err e =>
      if windows_peer_unavailable e then _ <- modify (fun s => put_requested s true); lret false
      else if is_transient_io e then _ <- worker_drop; lret true
      else lthrow (ClientError.Io e)
  | Panic => lres Panic
  end.

Definition worker_step (waited : wait_result) (ring_fails : bool) : L unit :=
  at_ <- gets f_worker;
  match at_ with
  | AtTop =>
      stopping <- gets f_stopping;
      if stopping : bool then go_worker (Stopped (Ok tt))
      else
        _ <- modify (fun s => let k := f_sockets s in
               put_sockets s (mkSockets (opened k) (incoming k) (List.last (replacements k) (outgoing k)) []));
        go_worker AtCheck
  | AtCheck =>
      reconnecting <- gets f_reconnecting;
      go_worker (if reconnecting : bool then AtTop else AtWait)
  | AtWait =>
      go_worker (match waited with Signalled => AtRecheck | WaitTimeout => AtTop | WaitFailed => Stopped (Err ClientError.Platform) end)
  | AtRecheck =>
      reconnecting <- gets f_reconnecting;
      go_worker (if reconnecting : bool then AtTop else AtEncode)
  | AtEncode =>
      r <- catch (encode_batch ring_fails);
      match r with
      | Ok encrypted =>
          _ <- modify (fun s => put_batches s ((outgoing (f_sockets s), f_epoch s) :: f_batches s) (S (f_begun s)));
          epoch <- gets f_epoch;
          go_worker (AtSend epoch encrypted)
      | Err e => go_worker (Stopped (Err e))
      | Panic => lres Panic
      end
  | AtSend epoch [] => go_worker AtTop
  | AtSend epoch (encrypted :: rest) =>
      r <- catch (send_one encrypted);
      match r with
      | Ok true => go_worker (AtSend epoch rest)
      | Ok false => go_worker AtTop
      | Err e => go_worker (Stopped (Err e))
      | Panic => lres Panic
      end
  | Stopped _ => lret tt
  end.

(** ** Runs *)

Inductive full_activity :=
| Loop (fuel : nat) (allocated : option Z)
| Worker (waited : wait_result) (ring_fails : bool)
| Arrive (packet : bytes)
| NetworkEvent
| Stop.

(** A thread that panics ends. *)
Definition survive (x : Full * world * option (res ClientError.t unit)) (ended : Full -> Full) : Full * world :=
  let '(s, w, r) := x in match r with Some Panic => (ended s, w) | _ => (s, w) end.

Definition full_act (e : full_activity) (x : Full * world) : Full * world :=
  match e with
  | Loop fuel allocated => survive (loop_step fuel allocated x.1 x.2) (fun s => put_loop s (Left_ Panic))
  | Worker waited ring_fails => survive (worker_step waited ring_fails x.1 x.2) (fun s => put_worker s (Stopped Panic))
  | Arrive packet =>
      let s := x.1 in let t := f_wintun s in
      (put_wintun s (mkWintun (ring t ++ [packet]) (written t) (send_drops t) (worker_drops t)), x.2)
  | NetworkEvent => (put_requested x.1 true, x.2)
  | Stop => (let 'mkFull a b c d e f g h _ j k l m n o p q u := x.1 in mkFull a b c d e f g h true j k l m n o p q u, x.2)
  end.

Definition full_run (es : list full_activity) (x : Full * world) : Full * world := foldl (fun x e => full_act e x) x es.

(** ** The handover *)

(** The socket the worker will use after it has looked at the channel. *)
Definition latest (s : Full) : nat := List.last (replacements (f_sockets s)) (outgoing (f_sockets s)).

Definition working (s : Full) : Prop := match f_worker s with Stopped _ => False | _ => True end.

(** Where the replacement stands. *)
Definition handover (s : Full) : Prop :=
  match f_loop s with
  | Swapping plane socket =>
      f_reconnecting s = true /\ (f_epoch s < socket <= opened (f_sockets s))%nat /\ (working s -> latest s = f_epoch s /\ incoming (f_sockets s) = f_epoch s)
  | Handing socket => f_reconnecting s = true /\ f_epoch s = socket
  | Establishing | Resuming _ => f_reconnecting s = true /\ (working s -> latest s = f_epoch s /\ incoming (f_sockets s) = f_epoch s)
  | Looping | Settling => f_reconnecting s = false /\ (working s -> latest s = f_epoch s /\ incoming (f_sockets s) = f_epoch s)
  | Left_ _ => True
  end.

Record ordered (s : Full) : Prop := {
  o_channel : (length (replacements (f_sockets s)) <= 1)%nat;
  o_sockets : (outgoing (f_sockets s) <= latest s <= f_epoch s)%nat /\ (f_epoch s <= opened (f_sockets s))%nat;
  o_batches : forall k e, (k, e) ∈ f_batches s -> (k <= e)%nat;
  o_sending : match f_worker s with AtSend e _ => head (f_batches s) = Some (outgoing (f_sockets s), e) | _ => True end;
  o_paused : f_reconnecting s = true -> (f_begun s + match f_worker s with AtEncode => 1 | _ => 0 end <= 1)%nat;
  o_handover : handover s;
}.

(** What [ordered] looks at. *)
Definition same_handover (s s' : Full) : Prop :=
  f_sockets s' = f_sockets s /\ f_epoch s' = f_epoch s /\ f_reconnecting s' = f_reconnecting s /\ f_loop s' = f_loop s /\
  f_worker s' = f_worker s /\ f_batches s' = f_batches s /\ f_begun s' = f_begun s.

Lemma same_ordered s s' : same_handover s s' -> ordered s -> ordered s'.
Proof.
  intros (E1 & E2 & E3 & E4 & E5 & E6 & E7) []. split; unfold handover, latest, working in *; rewrite ?E1, ?E2, ?E3, ?E4, ?E5, ?E6, ?E7; done.
Qed.

(** A computation that does not touch the handover. *)
Definition inert {A} (m : L A) : Prop := forall s w, same_handover s (m s w).1.1.

Lemma inert_keeps {A} (m : L A) : (forall s0, keeps (same_handover s0) m) -> inert m.
Proof. intros H s w. apply H. done. Qed.

Ltac untouched := apply keeps_modify; intros [] H; exact H.
Ltac inert := repeat (keeps_step || untouched).

Lemma inert_decode s0 parsed : keeps (same_handover s0) (full_decode_into parsed).
Proof. intros s w H. unfold full_decode_into. destruct (TunnelReceiver_decode_into _ _). by destruct s. Qed.

Lemma inert_keepalive s0 : keeps (same_handover s0) full_encode_keepalive.
Proof. intros s w H. unfold full_encode_keepalive. destruct (TunnelSender_encode_keepalive_into _ _). by destruct s. Qed.
#[local] Hint Resolve inert_decode inert_keepalive : keeps.

Lemma inert_deliver s0 allocated datagram : keeps (same_handover s0) (full_deliver allocated datagram).
Proof. unfold full_deliver, full_alive, send_to_windows, clock. inert. Qed.
#[local] Hint Resolve inert_deliver : keeps.

Lemma inert_apply s0 parameters : keeps (same_handover s0) (apply_parameters parameters).
Proof. unfold apply_parameters, set_mtu, policy_call. inert. Qed.
#[local] Hint Resolve inert_apply : keeps.

Lemma inert_send s0 encrypted : keeps (same_handover s0) (send_one encrypted).
Proof. unfold send_one, worker_drop. inert. Qed.

Lemma inert_batch s0 ring_fails : keeps (same_handover s0) (encode_batch ring_fails).
Proof. intros s w H. unfold encode_batch. destruct (encode_ring _ _ _ _) as [[[rest sender] drops] r]. by destruct s. Qed.

(** From [I] to [J], also when the computation fails on the way. *)
Definition moves {A} (I J : Full -> Prop) (m : L A) : Prop := forall s w, I s -> J (m s w).1.1.

Lemma moves_bind {A B} (I J : Full -> Prop) (m : L A) (k : A -> L B) :
  (forall s, I s -> J s) -> keeps I m -> (forall a, moves I J (k a)) -> moves I J (lbind m k).
Proof.
  intros HIJ Hm Hk s w Hs. specialize (Hm s w Hs). unfold lbind. destruct (m s w) as [[s1 w1] [[a|e|]|]]; cbn in *; auto. by apply Hk.
Qed.

Lemma moves_modify (I J : Full -> Prop) f : (forall s, I s -> J (f s)) -> moves I J (modify f).
Proof. intros H s w Hs. by apply H. Qed.

(** What the loop knows of the handover while it is at a point of its own. *)
Definition ordered_at (at_ : loop_at) (s : Full) : Prop := ordered s /\ f_loop s = at_.

Lemma keeps_inert {A} (m : L A) at_ : (forall s0, keeps (same_handover s0) m) -> keeps (ordered_at at_) m.
Proof.
  intros H s w [Ho Hl]. pose proof (H s s w ltac:(done)) as Hs. split; [by apply (same_ordered s)|]. destruct Hs as (_ & _ & _ & -> & _). done.
Qed.

Lemma ordered_leave r : moves ordered ordered (go (Left_ r)).
Proof. apply moves_modify. intros [] [H1 H2 H3 H4 H5 H6]. by split. Qed.

Lemma raise_flag : forall s, ordered_at Looping s ->
  ordered (put_loop (put_batches (put_reconnecting s true) (f_batches s) 0) Establishing).
Proof.
  intros [] [[H1 H2 H3 H4 H5 H6] E]. cbn in E. subst. split; try done; cbn in *.
  - intros _. by destruct f_worker0; lia.
  - unfold handover in *. cbn in *. destruct H6 as [_ H6]. done.
Qed.

Lemma ordered_maintain : moves (ordered_at Looping) ordered full_maintain_liveness.
Proof.
  assert (Hsub : forall s, ordered_at Looping s -> ordered s) by by intros s [? _].
  unfold full_maintain_liveness. apply moves_bind; [done|apply keeps_run|intros now]. apply moves_bind; [done|apply keeps_gets|intros live].
  destruct (Windows.action live now).
  - intros s w H. by apply Hsub.
  - intros s w H. apply Hsub. revert s w H. apply (keeps_inert (A := unit)). intros s0. unfold full_lose. inert.
  - apply moves_bind; [done|apply keeps_inert; intros; untouched|intros _].
    intros s w H. apply (raise_flag s H).
Qed.

Lemma ordered_turn allocated : moves (ordered_at Looping) ordered (full_turn allocated).
Proof.
  assert (Hsub : forall s, ordered_at Looping s -> ordered s) by by intros s [? _].
  unfold full_turn. apply moves_bind; [done|apply keeps_inert; unfold full_check_worker; intros; inert|intros _].
  apply moves_bind; [done|apply keeps_run|intros r].
  apply moves_bind; [done|apply keeps_inert; unfold full_lose, clock; intros; inert|intros _].
  apply moves_bind; [done|apply keeps_run|intros now]. do 2 (apply moves_bind; [done|apply keeps_gets|intros]).
  cbn [full_take_reconnect_request]. apply moves_bind; [done|apply keeps_inert; intros; untouched|intros _].
  apply moves_bind; [done|apply keeps_inert; unfold full_lose; intros; inert|intros _]. apply ordered_maintain.
Qed.

(** Opening a socket leaves the sessions alone. *)
Lemma ordered_open s : ordered_at Establishing s ->
  ordered_at Establishing (put_sockets s (mkSockets (S (opened (f_sockets s))) (incoming (f_sockets s)) (outgoing (f_sockets s)) (replacements (f_sockets s)))).
Proof.
  intros [[H1 H2 H3 H4 H5 H6] E]. destruct s. cbn in E. subst. split; [|done]. split; try done; unfold latest in *; cbn in *; lia.
Qed.

Lemma establish_inv fuel s w s' w' plane socket : ordered_at Establishing s ->
  establish_session fuel s w = (s', w', Some (Ok (plane, socket))) ->
  ordered_at Establishing s' /\ (f_epoch s' < socket <= opened (f_sockets s'))%nat.
Proof.
  intros H E. unfold establish_session in E.
  assert (Hstep : forall A (m : L A) s w s1 w1 a, (forall s0, keeps (same_handover s0) m) -> m s w = (s1, w1, Some (Ok a)) -> same_handover s s1)
    by (intros A m s0 w0 s1 w1 a Hm Heq; pose proof (Hm s0 s0 w0 ltac:(done)) as Hk; by rewrite Heq in Hk).
  apply lbind_inv in E as (s1 & w1 & [] & E1 & E). apply Hstep in E1; [|unfold policy_call; intros; inert].
  apply lbind_inv in E as (s2 & w2 & [pl pa] & E2 & E). apply run_m_inv in E2 as ->.
  apply lbind_inv in E as (s3 & w3 & k & E3 & E). injection E3 as <- <- <-.
  apply lbind_inv in E as (s4 & w4 & [] & E4 & E). injection E4 as <- <-.
  assert (H1 : ordered_at Establishing s1).
  { destruct H as [Ho Hl]. split; [by apply (same_ordered s)|]. destruct E1 as (_ & _ & _ & -> & _). done. }
  pose proof (ordered_open s1 H1) as H2. set (s4 := put_sockets s1 _) in *.
  assert (Hk : (f_epoch s4 < S (opened (f_sockets s1)) <= opened (f_sockets s4))%nat).
  { destruct H1 as [[_ [_ Hle] _ _ _ _] _]. subst s4. destruct s1. cbn in *. lia. }
  clearbody s4. apply lbind_inv in E as (s5 & w5 & [] & E5 & E). apply run_m_inv in E5 as ->.
  apply lbind_inv in E as (s6 & w6 & [] & E6 & E). apply run_m_inv in E6 as ->.
  apply lbind_inv in E as (s7 & w7 & [] & E7 & E). apply Hstep in E7; [|intros; apply inert_apply].
  injection E as <- _ _ <-. destruct H2 as [Ho Hl]. split; [split; [by apply (same_ordered s4)|]|].
  - destruct E7 as (_ & _ & _ & -> & _). done.
  - destruct E7 as (-> & -> & _). done.
Qed.

Lemma keeps_establish fuel : keeps (ordered_at Establishing) (establish_session fuel).
Proof.
  unfold establish_session. apply keeps_bind; [apply keeps_inert; unfold policy_call; intros; inert|intros _].
  apply keeps_bind; [apply keeps_run|intros r].
  intros s w H. unfold lbind at 1, gets at 1, lbind at 1, modify at 1. pose proof (ordered_open s H) as H'. revert H'.
  generalize (put_sockets s (mkSockets (S (opened (f_sockets s))) (incoming (f_sockets s)) (outgoing (f_sockets s)) (replacements (f_sockets s)))).
  intros s' H'. revert s' w H'. apply (keeps_inert (A := TunnelDataPlane * nat)). intros s0. unfold socket. inert.
Qed.

(** Moving on without touching sockets and sessions. *)
Lemma ordered_resume replaced s : ordered_at (Resuming replaced) s ->
  ordered (put_loop (put_reconnecting s false) (if replaced then Settling else Looping)).
Proof. intros [[H1 H2 H3 H4 H5 H6] E]. destruct s. cbn in E. subst. destruct replaced; split; try done; by destruct H6. Qed.

Lemma ordered_give_up s : ordered_at Establishing s -> ordered (put_loop s (Resuming false)).
Proof. intros [[H1 H2 H3 H4 H5 H6] E]. destruct s. cbn in E. subst. by split. Qed.

Lemma ordered_swap plane socket receiver sender s : ordered_at (Swapping plane socket) s ->
  ordered (put_loop (put_session s receiver sender socket) (Handing socket)).
Proof.
  intros [[H1 H2 H3 H4 H5 H6] E]. destruct s. cbn in E. subst. destruct H6 as (Hr & Hlt & Hh). cbn in *. split; try done.
  cbn in *. unfold latest in *. cbn in *. lia.
Qed.

Lemma ordered_hand socket s : ordered_at (Handing socket) s -> working s -> replacements (f_sockets s) = [] ->
  ordered (put_loop (put_sockets s (mkSockets (opened (f_sockets s)) socket (outgoing (f_sockets s)) [socket])) (Resuming true)).
Proof.
  intros [[H1 H2 H3 H4 H5 H6] E] Hw Hr. destruct s, f_sockets0. cbn in *. subst. destruct H6 as (Hf & He). unfold latest in *. cbn in *. subst.
  split; try done; unfold handover, latest in *; cbn in *; lia.
Qed.

Lemma ordered_hand_none socket s : ordered_at (Handing socket) s -> ~ working s -> ordered (put_loop s (Resuming false)).
Proof. intros [[H1 H2 H3 H4 H5 H6] E] Hw. destruct s. cbn in *. subst. destruct H6 as (Hf & _). by split. Qed.

Lemma ordered_loop_step fuel allocated : keeps ordered (loop_step fuel allocated).
Proof.
  intros s w H. unfold loop_step, lbind at 1, gets at 1. destruct (f_loop s) as [| |plane socket|socket|replaced| |r] eqn:El.
  - unfold lbind at 1, gets at 1. destruct (f_stopping s); [by apply ordered_leave|].
    pose proof (ordered_turn allocated s w (conj H El)) as Ht. unfold lbind, catch.
    destruct (full_turn allocated s w) as [[s1 w1] [[[]|e|]|]]; try done. by apply ordered_leave.
  - pose proof (keeps_establish fuel s w (conj H El)) as [Hk Hl]. unfold lbind, catch.
    destruct (establish_session fuel s w) as [[s1 w1] [[[plane socket]|e|]|]] eqn:E; try done; [|by apply ordered_give_up].
    destruct (establish_inv fuel s w s1 w1 plane socket (conj H El) E) as [[[H1 H2 H3 H4 H5 H6] _] Hlt].
    destruct s1. cbn in *. subst. destruct H6 as [Hr Hh]. by split.
  - destruct (TunnelDataPlane_split plane) as [sender receiver]. by apply (ordered_swap plane socket receiver sender s (conj H El)).
  - unfold lbind at 1, gets at 1, lbind at 1, gets at 1.
    assert (Hgo : forall b, b = f_worker s -> match b with Stopped _ => ~ working s | _ => working s end).
    { intros b ->. unfold working. destruct (f_worker s); cbn; tauto. }
    specialize (Hgo _ eq_refl).
    destruct (f_worker s); try (by apply (ordered_hand_none socket s (conj H El)));
      (destruct (replacements (f_sockets s)) eqn:Er; [by apply (ordered_hand socket s (conj H El))|done]).
  - by apply (ordered_resume replaced s (conj H El)).
  - cbn. destruct H as [H1 H2 H3 H4 H5 H6]. destruct s. cbn in *. subst. by split.
  - done.
Qed.

(** *** The worker *)

Lemma ordered_drain s : ordered s -> f_worker s = AtTop ->
  ordered (put_worker (put_sockets s (mkSockets (opened (f_sockets s)) (incoming (f_sockets s)) (latest s) [])) AtCheck).
Proof.
  intros [H1 H2 H3 H4 H5 H6] E. destruct s, f_sockets0. unfold latest, handover, working in *. cbn in *. subst. split; try done.
  - unfold latest. cbn. lia.
  - unfold handover, latest, working. destruct f_loop0; cbn in *; naive_solver.
Qed.

(** A step of the worker that only moves, other than into the encryption while paused. *)
Lemma ordered_worker_at at_ s : ordered s ->
  match at_ with AtSend e _ => head (f_batches s) = Some (outgoing (f_sockets s), e) | AtEncode => f_reconnecting s = false | _ => True end ->
  (match f_worker s with Stopped _ => False | _ => True end) ->
  ordered (put_worker s at_).
Proof.
  intros [H1 H2 H3 H4 H5 H6] Hat Hw. destruct s. cbn in *. split; try done; cbn in *.
  - by destruct at_.
  - intros Hr. specialize (H5 Hr). destruct at_; try lia. congruence.
  - unfold handover, working, latest in *. cbn in *. destruct f_loop0; destruct at_; naive_solver.
Qed.

Lemma ordered_batch s : ordered s -> f_worker s = AtEncode -> forall encrypted,
  ordered (put_worker (put_batches s ((outgoing (f_sockets s), f_epoch s) :: f_batches s) (S (f_begun s))) (AtSend (f_epoch s) encrypted)).
Proof.
  intros [H1 H2 H3 H4 H5 H6] E encrypted. destruct s. cbn in *. subst. unfold handover, latest, working in *. cbn in *. split; try done; cbn in *.
  - intros k e [[= -> ->]|Hin]%elem_of_cons; [lia|by apply H3].
  - intros Hr. specialize (H5 Hr). lia.
Qed.

Lemma ordered_worker_step waited ring_fails : keeps ordered (worker_step waited ring_fails).
Proof.
  intros s w H. unfold worker_step, lbind at 1, gets at 1.
  destruct (f_worker s) as [| | | | |epoch [|encrypted rest]|r] eqn:Ew.
  - unfold lbind at 1, gets at 1. destruct (f_stopping s); [by apply ordered_worker_at; rewrite ?Ew|]. by apply (ordered_drain s).
  - apply ordered_worker_at; rewrite ?Ew; [done| |done]. by destruct (f_reconnecting s).
  - apply ordered_worker_at; rewrite ?Ew; [done| |done]. by destruct waited.
  - apply ordered_worker_at; rewrite ?Ew; [done| |done]. by destruct (f_reconnecting s).
  - pose proof (inert_batch s ring_fails s w ltac:(done)) as Hb. unfold lbind, catch.
    destruct (encode_batch ring_fails s w) as [[s1 w1] [[l|e|]|]]; cbn in Hb; pose proof (same_ordered _ _ Hb H) as H1;
      destruct Hb as (_ & _ & _ & _ & Hw & _); rewrite Ew in Hw; try done.
    + pose proof (ordered_batch s1 H1 Hw l) as Hd. by destruct s1.
    + apply ordered_worker_at; by rewrite ?Hw.
  - by apply ordered_worker_at; rewrite ?Ew.
  - pose proof (inert_send s encrypted s w ltac:(done)) as Hb. unfold lbind, catch.
    destruct (send_one encrypted s w) as [[s1 w1] [[b|e|]|]]; cbn in Hb; pose proof (same_ordered _ _ Hb H) as H1;
      destruct Hb as (_ & _ & _ & _ & Hw & _); rewrite Ew in Hw; try done.
    + destruct b; apply ordered_worker_at; rewrite ?Hw; try done. destruct H1 as [_ _ _ H4 _ _]. by rewrite Hw in H4.
    + apply ordered_worker_at; by rewrite ?Hw.
  - done.
Qed.

Lemma ordered_act e x : ordered x.1 -> ordered (full_act e x).1.
Proof.
  destruct x as [s w]. intros H. destruct e as [fuel allocated|waited ring_fails|packet| |]; cbn [fst snd full_act].
  - pose proof (ordered_loop_step fuel allocated s w H) as H1. unfold survive. destruct (loop_step fuel allocated s w) as [[s1 w1] [[[]|e|]|]]; try done.
    cbn. destruct H1 as [A1 A2 A3 A4 A5 A6]. destruct s1. by split.
  - pose proof (ordered_worker_step waited ring_fails s w H) as H1. unfold survive.
    destruct (worker_step waited ring_fails s w) as [[s1 w1] [[[]|e|]|]]; try done.
    cbn in *. destruct H1 as [A1 A2 A3 A4 A5 A6]. destruct s1. cbn in *. split; try done; cbn in *.
    + intros Hr. specialize (A5 Hr). lia.
    + unfold handover, working, latest in *. cbn in *. destruct f_loop0; naive_solver.
  - apply (same_ordered s); [by destruct s|done].
  - apply (same_ordered s); [by destruct s|done].
  - apply (same_ordered s); [by destruct s|done].
Qed.

Lemma ordered_run es x : ordered x.1 -> ordered (full_run es x).1.
Proof. revert x. induction es as [|e es IH]; intros x H; [done|]. apply IH. by apply ordered_act. Qed.

(** A tunnel whose threads have just started. *)
Definition starting (s : Full) : Prop :=
  f_loop s = Looping /\ f_worker s = AtTop /\ f_reconnecting s = false /\ f_sockets s = mkSockets 0 0 0 [] /\ f_epoch s = 0%nat /\
  f_batches s = [].

Lemma starting_ordered s : starting s -> ordered s.
Proof.
  destruct s. intros (H1 & H2 & H3 & H4 & H5 & H6). cbn in *. subst. split; cbn; try done; [lia|].
  intros k e H. by apply elem_of_nil in H.
Qed.

(** [C30] Replacing the session under traffic.  Under any interleaving of the receive loop, the
    worker, arriving packets and network notifications: no batch is sent by a socket newer
    than the session it was encrypted for; a batch leaves whole by one socket; once the
    replacement has begun the worker encrypts at most one more batch before it is over;
    the channel never holds two sockets; and when the replacement is over and the worker
    has looked at the channel, both threads use the socket of the current session. *)
Theorem handover_is_ordered es s w :
  starting s ->
  let s' := (full_run es (s, w)).1 in
  (forall k e, (k, e) ∈ f_batches s' -> (k <= e)%nat) /\
  (forall e l, f_worker s' = AtSend e l -> head (f_batches s') = Some (outgoing (f_sockets s'), e)) /\
  (f_reconnecting s' = true -> (f_begun s' <= 1)%nat) /\
  (length (replacements (f_sockets s')) <= 1)%nat /\
  (f_loop s' = Looping -> working s' -> replacements (f_sockets s') = [] ->
     outgoing (f_sockets s') = f_epoch s' /\ incoming (f_sockets s') = f_epoch s').
Proof.
  intros Hs s'. destruct (ordered_run es (s, w) (starting_ordered s Hs)) as [H1 H2 H3 H4 H5 H6]. fold s' in H1, H2, H3, H4, H5, H6.
  clearbody s'. repeat split; try done.
  - intros e l E. by rewrite E in H4.
  - intros Hr. specialize (H5 Hr). lia.
  - unfold handover, latest in H6. rewrite H, H7 in H6. by apply H6.
  - unfold handover, latest in H6. rewrite H, H7 in H6. by apply H6.
Qed.

(** ** The parameters *)

(** Session, adapter and policy have the parameters the loop believes, except for an
    adapter that could not be set back. *)
Definition mtu_agrees (s : Full) : Prop :=
  ts_mtu (f_sender s) = tr_mtu (f_receiver s) /\ f_policy s = f_parameters s /\
  (f_rollback_failed s = false -> f_adapter_mtu s = SessionParameters.mtu (f_parameters s)) /\
  match f_loop s with
  | Swapping plane _ => tp_mtu plane = SessionParameters.mtu (f_parameters s)
  | _ => ts_mtu (f_sender s) = SessionParameters.mtu (f_parameters s)
  end.

Definition unswapped (s : Full) : Prop := mtu_agrees s /\ match f_loop s with Swapping _ _ => False | _ => True end.

Lemma unswapped_sender s x : unswapped s -> ts_mtu x = ts_mtu (f_sender s) -> unswapped (put_sender s x).
Proof. unfold unswapped, mtu_agrees. destruct s. cbn. intros [(H1 & H2 & H3 & H4) H5] ->. done. Qed.

Lemma unswapped_decode parsed : keeps unswapped (full_decode_into parsed).
Proof.
  intros s w H. unfold full_decode_into. destruct (TunnelReceiver_decode_into (f_receiver s) parsed) as [x r] eqn:E.
  assert (tr_mtu x = tr_mtu (f_receiver s)) as Hx.
  { revert E. unfold TunnelReceiver_decode_into. destruct (negb _); [by intros [= <- _]|]. destruct (negb _); [by intros [= <- _]|].
    destruct (ReceiveHalf_decrypt_into _ _ _ _). by intros [= <- _]. }
  destruct s. unfold unswapped, mtu_agrees in *. cbn in *. by rewrite Hx.
Qed.

Lemma unswapped_keepalive : keeps unswapped full_encode_keepalive.
Proof.
  intros s w H. unfold full_encode_keepalive, TunnelSender_encode_keepalive_into.
  pose proof (encode_into_agrees (f_sender s) PacketKind.Keepalive InnerPacketKind.Keepalive [] []) as [_ E].
  destruct (TunnelSender_encode_into _ _ _ _ _) as [x r]. by apply unswapped_sender.
Qed.
#[local] Hint Resolve unswapped_decode unswapped_keepalive : keeps.

Lemma unswapped_go at_ : match at_ with Swapping _ _ => False | _ => True end -> keeps unswapped (go at_).
Proof. intros Hat. apply keeps_modify. intros [] [(H1 & H2 & H3 & H4) H5]. unfold unswapped, mtu_agrees. cbn in *. destruct f_loop0, at_; done. Qed.

Ltac off_session := apply keeps_modify; intros [] [(? & ? & ? & ?) ?]; by repeat split.
Ltac unswapped := repeat (keeps_step || off_session).

Lemma unswapped_turn allocated : keeps unswapped (full_turn allocated).
Proof.
  unfold full_turn, full_check_worker, full_deliver, full_alive, send_to_windows, full_lose, full_maintain_liveness, clock.
  unswapped. by apply unswapped_go.
Qed.

Lemma encode_ring_mtu packets room x drops :
  ts_mtu (encode_ring packets room x drops).1.1.2 = ts_mtu x.
Proof.
  revert room x drops. induction packets as [|p packets IH]; intros [|room] x drops; try done. cbn [encode_ring].
  destruct (negb _); [apply IH|].
  assert (Hx : ts_mtu (TunnelSender_encode_ip_into x p []).1 = ts_mtu x).
  { unfold TunnelSender_encode_ip_into. destruct (Ipv4Packet.parse p) as [ip|e|]; [|done..]. destruct (_ <? _); [done|].
    apply encode_into_agrees. }
  destruct (TunnelSender_encode_ip_into x p []) as [x' [l|[]|]]; cbn in Hx; cbn [fst snd]; try (by rewrite <- Hx, IH); try done.
  specialize (IH room x' drops). destruct (encode_ring packets room x' drops) as [[[rest y] d] r]. cbn in *. congruence.
Qed.

(** The worker moves no parameter, whatever the loop is doing. *)
Definition same_parameters (s s' : Full) : Prop :=
  f_parameters s' = f_parameters s /\ f_receiver s' = f_receiver s /\ ts_mtu (f_sender s') = ts_mtu (f_sender s) /\
  f_adapter_mtu s' = f_adapter_mtu s /\ f_policy s' = f_policy s /\ f_rollback_failed s' = f_rollback_failed s /\ f_loop s' = f_loop s.

Lemma same_mtu s s' : same_parameters s s' -> mtu_agrees s -> mtu_agrees s'.
Proof. intros (E1 & E2 & E3 & E4 & E5 & E6 & E7) H. unfold mtu_agrees in *. by rewrite E1, E2, E3, E4, E5, E6, E7. Qed.

Lemma worker_keeps_parameters s0 waited ring_fails : keeps (same_parameters s0) (worker_step waited ring_fails).
Proof.
  assert (Hb : keeps (same_parameters s0) (encode_batch ring_fails)).
  { intros s w H. unfold encode_batch. pose proof (encode_ring_mtu (ring (f_wintun s)) FULL_BATCH_SIZE (f_sender s) (worker_drops (f_wintun s))) as Hm.
    destruct (encode_ring _ _ _ _) as [[[rest sender] drops] r]. destruct s. unfold same_parameters in *. cbn in *. by rewrite Hm. }
  unfold worker_step, go_worker, send_one, worker_drop. repeat (apply Hb || keeps_step || untouched).
Qed.

(** Applying parameters: whole, or the session keeps its own. *)
Lemma apply_parameters_end parameters s w :
  unswapped s ->
  let '(s', _, r) := apply_parameters parameters s w in
  (unswapped s' \/ (f_parameters s' = parameters /\ ts_mtu (f_sender s') = tr_mtu (f_receiver s') /\ f_policy s' = parameters /\
     (f_rollback_failed s' = false -> f_adapter_mtu s' = SessionParameters.mtu parameters) /\ f_loop s' = f_loop s /\ r = Some (Ok tt))) /\
  (r = Some (Ok tt) -> f_parameters s' = parameters).
Proof.
  intros H. unfold apply_parameters, set_mtu, policy_call, platform, catch, lbind, gets, run_m, moment_at, lret, lthrow, lres, modify.
  case_bool_decide as E; [cbn; split; [by left|done]|].
  destruct H as [(H1 & H2 & H3 & H4) H5]. destruct s. cbn in *. destruct (m_socket (tape (pos w))); cbn.
  2, 3: (split; [left; by repeat split|done]).
  destruct (m_socket (tape (S (pos w)))); cbn; [split; [right; by repeat split|done]|..];
    (destruct (m_socket (tape (S (S (pos w))))); cbn; (split; [left; by repeat split|done])).
Qed.

Lemma establish_mtu fuel s w : unswapped s ->
  let '(s', _, r) := establish_session fuel s w in
  match r with
  | Some (Ok (plane, socket)) => mtu_agrees (put_loop s' (Swapping plane socket))
  | _ => unswapped s'
  end.
Proof.
  intros H. unfold establish_session.
  assert (Hpre : forall A (m : L A) (k : A -> L (TunnelDataPlane * nat)) s w, keeps unswapped m -> unswapped s ->
    (forall s1 w1 a, m s w = (s1, w1, Some (Ok a)) -> unswapped s1 ->
      let '(s', _, r) := k a s1 w1 in match r with Some (Ok (plane, socket)) => mtu_agrees (put_loop s' (Swapping plane socket)) | _ => unswapped s' end) ->
    let '(s', _, r) := lbind m k s w in match r with Some (Ok (plane, socket)) => mtu_agrees (put_loop s' (Swapping plane socket)) | _ => unswapped s' end).
  { intros A m k s0 w0 Hm Hs Hk. specialize (Hm s0 w0 Hs). unfold lbind. destruct (m s0 w0) as [[s1 w1] [[a|e|]|]]; try done. by apply Hk. }
  apply Hpre; [unfold policy_call; unswapped|done|]. intros s1 w1 [] _ H1.
  apply Hpre; [apply keeps_run|done|]. intros s2 w2 [plane parameters] E2 H2.
  assert (Hfit : tp_mtu plane = SessionParameters.mtu parameters).
  { unfold run_m in E2. destruct (windows_connect tape fuel config w1) as [w' r] eqn:E. injection E2 as <- <- ->. by apply (windows_connect_fits tape config fuel) in E. }
  apply Hpre; [apply keeps_gets|done|]. intros s3 w3 k _ H3.
  apply Hpre; [off_session|done|]. intros s4 w4 [] _ H4.
  apply Hpre; [apply keeps_run|done|]. intros s5 w5 [] _ H5. apply Hpre; [apply keeps_run|done|]. intros s6 w6 [] _ H6.
  pose proof (apply_parameters_end parameters s6 w6 H6) as Ha. unfold lbind. cbn [snd].
  destruct (apply_parameters parameters s6 w6) as [[s7 w7] r]. destruct Ha as [Ha Hp].
  destruct r as [[[]|e|]|]; [|destruct Ha as [Ha|(_ & _ & _ & _ & _ & [=])]; exact Ha..].
  specialize (Hp eq_refl). cbn. unfold mtu_agrees. destruct s7. cbn in *. subst f_parameters0.
  destruct Ha as [[(A1 & A2 & A3 & A4) _]|(_ & A1 & A2 & A3 & _)]; cbn in *; by repeat split.
Qed.

Lemma mtu_act e x : mtu_agrees x.1 -> mtu_agrees (full_act e x).1.
Proof.
  destruct x as [s w]. intros H. destruct e as [fuel allocated|waited ring_fails|packet| |]; cbn [fst snd full_act].
  2:{ pose proof (worker_keeps_parameters s waited ring_fails s w ltac:(done)) as Hw. unfold survive.
      destruct (worker_step waited ring_fails s w) as [[s1 w1] r]. apply (same_mtu s); [|done]. cbn in Hw. destruct r as [[[]|e|]|]; try done. by destruct s1. }
  2, 3, 4: (apply (same_mtu s); [by destruct s|done]).
  assert (Hleave : forall s r, unswapped s -> mtu_agrees (put_loop s (Left_ r))) by (intros s0 r Hs; by apply (unswapped_go (Left_ r) I s0 w Hs)).
  unfold loop_step, lbind at 1, gets at 1. destruct (f_loop s) as [| |plane socket|socket|replaced| |r] eqn:El.
  all: try (assert (Hu : unswapped s) by (split; [done|by rewrite El])).
  - unfold lbind at 1, gets at 1. destruct (f_stopping s); [by apply Hleave|].
    pose proof (unswapped_turn allocated s w Hu) as Ht. unfold lbind, catch.
    destruct (full_turn allocated s w) as [[s1 w1] [[[]|e|]|]]; cbn in *; [apply Ht|by apply Hleave|by apply Hleave|apply Ht].
  - pose proof (establish_mtu fuel s w Hu) as Ht. unfold lbind, catch.
    destruct (establish_session fuel s w) as [[s1 w1] [[[plane socket]|e|]|]]; cbn in *; [done| |by apply Hleave|apply Ht].
    by apply (unswapped_go (Resuming false) I s1 w1 Ht).
  - destruct s, plane. unfold mtu_agrees in *. cbn in *. subst. cbn in *. naive_solver.
  - unfold lbind at 1, gets at 1, lbind at 1, gets at 1.
    destruct s, f_worker0; cbn in *; subst; destruct (replacements f_sockets0); done.
  - destruct s. cbn in *. subst. by destruct replaced.
  - destruct s. cbn in *. subst. done.
  - done.
Qed.

(** One set of parameters.  Whatever happens, the interface, the network policy and both halves of
    the session have the parameters the loop believes in force, whether or not a
    replacement succeeded; only a failed attempt to set the interface back may leave
    its MTU different. *)
Theorem session_and_adapter_agree es s w :
  mtu_agrees s ->
  let s' := (full_run es (s, w)).1 in
  ts_mtu (f_sender s') = tr_mtu (f_receiver s') /\ f_policy s' = f_parameters s' /\
  (f_rollback_failed s' = false -> f_adapter_mtu s' = SessionParameters.mtu (f_parameters s')) /\
  (f_loop s' = Looping -> ts_mtu (f_sender s') = SessionParameters.mtu (f_parameters s')).
Proof.
  intros H s'. assert (H' : mtu_agrees s').
  { subst s'. assert (Hx : mtu_agrees (s, w).1) by done. revert Hx. generalize (s, w). induction es as [|e es IH]; intros x Hx; [done|].
    apply IH. by apply mtu_act. }
  clearbody s'. destruct H' as (H1 & H2 & H3 & H4). repeat split; try done. intros E. by rewrite E in H4.
Qed.

End Full.

(** ** A session replaced under traffic *)

Module ToyFull.
Import Toy ToyHandshake.

(** A session of MTU 1400 that has been silent; its replacement will have MTU 1280. *)
Definition old_parameters : SessionParameters.t := SessionParameters.mk (ipv4_new 10 77 0 2) 24 1400 (ipv4_new 10 77 0 1).

Definition full : Full :=
  mkFull old_parameters (mkTunnelReceiver 42 1400 toy_receiver) (mkTunnelSender 42 0 1400 (mkSendHalf 7 (zeros 32)) []) 0
    1400 old_parameters false (Liveness.new 0) false false false None (mkSockets 0 0 0 []) (mkWintun [] [] 0 0) Looping AtTop [] 0.

Definition late_tape (i : nat) : moment :=
  mkMoment (20000 + 500 * Z.of_nat i) (Some 0) (Some (replicate 45 7)) [] (Ok (if (i <? 20)%nat then 52 else 65)) (Ok answer) (Ok []) (Ok tt).

Definition step_loop : full_activity := Loop 60 None.
Definition step_worker : full_activity := Worker Signalled false.

(** The worker looks at the channel just before the replacement socket is put there, and at
    the flag just after it is lowered. *)
Definition race : list full_activity :=
  [Arrive [69; 0; 0; 28; 0; 0; 0; 0; 64; 17; 0; 0; 10; 77; 0; 2; 1; 1; 1; 1; 200; 0; 0; 53; 0; 8; 0; 0];
   step_loop; step_loop; step_loop; step_worker; step_loop; step_loop; step_worker; step_worker; step_worker; step_worker].

Definition settled : list full_activity := race ++ [step_loop; step_worker; step_worker; step_worker].

Lemma full_starts : starting full.
Proof. repeat split. Qed.

(** The new session leaves by the old socket: the server, which follows authenticated
    datagrams, then answers to a socket nobody reads. *)
Lemma new_session_by_old_socket :
  exists encrypted, f_worker (full_run late_tape config race (full, before)).1 = AtSend 1 [encrypted] /\
    outgoing (f_sockets (full_run late_tape config race (full, before)).1) = 0%nat /\
    incoming (f_sockets (full_run late_tape config race (full, before)).1) = 1%nat.
Proof. eexists. vm_compute. split; [reflexivity|split; reflexivity]. Qed.

Definition is_looping (s : Full) : bool := match f_loop s with Looping => true | _ => false end.

Lemma looping s : is_looping s = true -> f_loop s = Looping.
Proof. unfold is_looping. by destruct (f_loop s). Qed.

#[local] Abbreviation after := ((full_run late_tape config settled (full, before)).1).

Lemma settled_run :
  is_looping after = true /\ f_worker after = AtCheck /\ replacements (f_sockets after) = [] /\ f_epoch after = 1%nat /\
  SessionParameters.mtu (f_parameters after) = 1280 /\ f_rollback_failed after = false.
Proof. do 5 (split; [vm_compute; reflexivity|]). vm_compute. reflexivity. Qed.

Lemma handover_is_ordered_witness :
  outgoing (f_sockets (full_run late_tape config settled (full, before)).1) = 1%nat /\
  forall k e, (k, e) ∈ f_batches (full_run late_tape config settled (full, before)).1 -> (k <= e)%nat.
Proof.
  pose proof (handover_is_ordered late_tape config settled full before full_starts) as (Hb & _ & _ & _ & Hs).
  destruct settled_run as (H1 & H2 & H3 & H4 & _). split; [|exact Hb]. rewrite <- H4. apply Hs; [exact (looping _ H1)| |exact H3].
  unfold working. rewrite H2. exact I.
Defined.

Lemma session_and_adapter_agree_witness :
  f_adapter_mtu (full_run late_tape config settled (full, before)).1 = 1280.
Proof.
  assert (H : mtu_agrees full) by (repeat split).
  destruct (session_and_adapter_agree late_tape config settled full before H) as (_ & _ & Ha & _).
  destruct settled_run as (_ & _ & _ & _ & H5 & H6). rewrite <- H5. exact (Ha H6).
Defined.

End ToyFull.
