(* ===== verification/Text.v ===== *)
(** * Texts

    How the standard library prints numbers and addresses ([Display] of the integers, of
    [Ipv4Addr], [Ipv6Addr] and [SocketAddr]) and encodes text ([str::as_bytes]), and
    how it reads addresses. *)

From S2P Require Import Prelude Protocol.

Fixpoint digits (fuel : nat) (n : Z) : str :=
  match fuel with
  | O => []
  | S fuel => if n <? 10 then [48 + n] else digits fuel (n / 10) ++ [48 + n mod 10]
  end.

Definition hex_digit (d : Z) : Z := if d <? 10 then 48 + d else 87 + d.

Fixpoint hex_digits (fuel : nat) (n : Z) : str :=
  match fuel with
  | O => []
  | S fuel => if n <? 16 then [hex_digit n] else hex_digits fuel (n / 16) ++ [hex_digit (n mod 16)]
  end.

Definition show_ipv4 (a : Ipv4Addr) : str :=
  let octet i := digits 3 (Z.land (Z.shiftr a (8 * i)) 255) in
  octet 3 ++ [46] ++ octet 2 ++ [46] ++ octet 1 ++ [46] ++ octet 0.

(** The eight groups of an IPv6 address. *)
Definition segments (a : Z) : list Z := map (fun i => (a / 65536 ^ (7 - Z.of_nat i)) mod 65536) (seq 0 8).

(** The first longest run of zero groups: where it starts and its length. *)
Definition zero_run (segments : list Z) : nat * nat :=
  let step '((longest, current) : (nat * nat) * (nat * nat)) '((i, segment) : nat * Z) :=
    if segment =? 0 then
      let current := if (current.2 =? 0)%nat then (i, 1%nat) else (current.1, S current.2) in
      (if (longest.2 <? current.2)%nat then current else longest, current)
    else (longest, (0, 0)%nat) in
  (fold_left step (zip (seq 0 (length segments)) segments) ((0, 0)%nat, (0, 0)%nat)).1.

Fixpoint show_groups (l : list Z) : str :=
  match l with
  | [] => []
  | [g] => hex_digits 4 g
  | g :: l => hex_digits 4 g ++ [58] ++ show_groups l
  end.

Definition show_ipv6 (a : Z) : str :=
  if a / 2 ^ 32 =? 0xffff then ascii_bytes "::ffff:" ++ show_ipv4 (a mod 2 ^ 32)
  else
    let groups := segments a in
    let '(start, n) := zero_run groups in
    if (1 <? n)%nat then show_groups (take start groups) ++ [58; 58] ++ show_groups (drop (start + n) groups) else show_groups groups.

(** [SocketAddr] without a scope id. *)
Definition show_socket (a : SocketAddr) : str :=
  match ip a with
  | V4 v4 => show_ipv4 v4
  | V6 v6 => [91] ++ show_ipv6 v6 ++ [93]
  end ++ [58] ++ digits 5 (port a).

(** [Ipv4Addr::from_str]: four numbers of at most three digits, without leading zeros. *)
Fixpoint number (s : str) (acc : Z) : option Z :=
  match s with
  | [] => Some acc
  | c :: s => if (48 <=? c) && (c <=? 57) then number s (acc * 10 + (c - 48)) else None
  end.

Definition parse_octet (s : str) : option Z :=
  match s with
  | [] => None
  | 48 :: _ :: _ => None
  | _ => if (3 <? length s)%nat then None else n ← number s 0; if n <=? 255 then Some n else None
  end.

Fixpoint split_on (sep : Z) (s : str) : list str :=
  match s with
  | [] => [[]]
  | c :: s => if c =? sep then [] :: split_on sep s
              else match split_on sep s with [] => [[c]] | part :: parts => (c :: part) :: parts end
  end.

Definition parse_ipv4 (s : str) : option Ipv4Addr :=
  match split_on 46 s with
  | [a; b; c; d] => a ← parse_octet a; b ← parse_octet b; c ← parse_octet c; d ← parse_octet d; Some (ipv4_new a b c d)
  | _ => None
  end.

(** ** [SocketAddr::from_str]

    The parser of the standard library: a reader takes a prefix of the text or fails and
    leaves it. *)

Abbreviation reader A := (str -> option (A * str)) (only parsing).

Definition read_given_char (c : Z) : reader unit := fun s =>
  match s with x :: s => if x =? c then Some (tt, s) else None | [] => None end.

Definition to_digit (radix c : Z) : option Z :=
  let d := if (48 <=? c) && (c <=? 57) then c - 48
           else if (97 <=? c) && (c <=? 122) then c - 87
           else if (65 <=? c) && (c <=? 90) then c - 55 else radix in
  if d <? radix then Some d else None.

(** The digits read so far and their value, which must stay below [bound]. *)
Fixpoint read_digits (radix bound : Z) (max_digits : option nat) (s : str) (count : nat) (value : Z) : option (nat * Z * str) :=
  match s with
  | [] => Some (count, value, [])
  | c :: s' =>
      match to_digit radix c with
      | None => Some (count, value, s)
      | Some d =>
          let value := value * radix + d in
          if bound <=? value then None
          else if (match max_digits with Some n => (n <? S count)%nat | None => false end) then None
          else read_digits radix bound max_digits s' (S count) value
      end
  end.

Definition read_number (radix bound : Z) (max_digits : option nat) (allow_zero_prefix : bool) : reader Z := fun s =>
  '(count, value, rest) ← read_digits radix bound max_digits s 0%nat 0;
  if (count =? 0)%nat then None
  else if negb allow_zero_prefix && bool_decide (head s = Some 48) && (1 <? count)%nat then None
  else Some (value, rest).

Definition read_separator {A} (sep : Z) (index : nat) (inner : reader A) : reader A := fun s =>
  match index with O => inner s | S _ => '(_, s) ← read_given_char sep s; inner s end.

Definition read_ipv4_addr : reader Ipv4Addr := fun s =>
  let octet i := read_separator 46 i (read_number 10 256 (Some 3%nat) false) in
  '(a, s) ← octet 0%nat s; '(b, s) ← octet 1%nat s; '(c, s) ← octet 2%nat s; '(d, s) ← octet 3%nat s;
  Some (ipv4_new a b c d, s).

(** Up to [n] groups, the [i]th first; whether they end in an IPv4 address. *)
Fixpoint read_groups (i n : nat) (s : str) : list Z * bool * str :=
  match n with
  | O => ([], false, s)
  | S n =>
      match (if (0 <? n)%nat then read_separator 58 i read_ipv4_addr s else None) with
      | Some (v4, s) => ([v4 / 65536; v4 mod 65536], true, s)
      | None =>
          match read_separator 58 i (read_number 16 65536 (Some 4%nat) true) s with
          | Some (group, s) => let '(groups, v4, s) := read_groups (S i) n s in (group :: groups, v4, s)
          | None => ([], false, s)
          end
      end
  end.

Definition of_groups (groups : list Z) : Z := fold_left (fun acc g => acc * 65536 + g) groups 0.

Definition read_ipv6_addr : reader Z := fun s =>
  let '(head, v4, s) := read_groups 0 8 s in
  if (length head =? 8)%nat then Some (of_groups head, s)
  else if v4 : bool then None
  else
    '(_, s) ← read_given_char 58 s;
    '(_, s) ← read_given_char 58 s;
    let '(tail, _, s) := read_groups 0 (8 - (length head + 1)) s in
    Some (of_groups (head ++ replicate (8 - length head - length tail) 0 ++ tail), s).

Definition read_port : reader Z := fun s => '(_, s) ← read_given_char 58 s; read_number 10 65536 None true s.

Definition read_socket_v4 : reader SocketAddr := fun s =>
  '(a, s) ← read_ipv4_addr s; '(p, s) ← read_port s; Some (mkSocketAddr (V4 a) p, s).

(** The scope id is not kept. *)
Definition read_socket_v6 : reader SocketAddr := fun s =>
  '(_, s) ← read_given_char 91 s;
  '(a, s) ← read_ipv6_addr s;
  let s := match ('(_, s) ← read_given_char 37 s; read_number 10 (2 ^ 32) None true s) with Some (_, s) => s | None => s end in
  '(_, s) ← read_given_char 93 s;
  '(p, s) ← read_port s;
  Some (mkSocketAddr (V6 a) p, s).

Definition parse_socket (s : str) : option SocketAddr :=
  match (match read_socket_v4 s with Some r => Some r | None => read_socket_v6 s end) with
  | Some (a, []) => Some a
  | _ => None
  end.

Definition utf8_char (c : Z) : bytes :=
  if c <? 0x80 then [c]
  else if c <? 0x800 then [0xc0 + c / 64; 0x80 + c mod 64]
  else if c <? 0x10000 then [0xe0 + c / 4096; 0x80 + c / 64 mod 64; 0x80 + c mod 64]
  else [0xf0 + c / 262144; 0x80 + c / 4096 mod 64; 0x80 + c / 64 mod 64; 0x80 + c mod 64].

(** [str::as_bytes] *)
Definition as_bytes (s : str) : bytes := flat_map utf8_char s.

(** The text of well-formed UTF-8, for the literals of the source. *)
Fixpoint utf8_decode (b : bytes) : str :=
  match b with
  | a :: b =>
      if a <? 0x80 then a :: utf8_decode b
      else match b with
           | c :: b =>
               if a <? 0xe0 then ((a - 0xc0) * 64 + (c - 0x80)) :: utf8_decode b
               else match b with
                    | d :: b =>
                        if a <? 0xf0 then ((a - 0xe0) * 4096 + (c - 0x80) * 64 + (d - 0x80)) :: utf8_decode b
                        else match b with
                             | e :: b => ((a - 0xf0) * 262144 + (c - 0x80) * 4096 + (d - 0x80) * 64 + (e - 0x80)) :: utf8_decode b
                             | [] => []
                             end
                    | [] => []
                    end
           | [] => []
           end
  | [] => []
  end.

Definition text (s : string) : str := utf8_decode (ascii_bytes s).
Arguments text _ : simpl never.

Lemma ascii_as_bytes s : Forall (fun c => c < 0x80) s -> as_bytes s = s.
Proof.
  induction 1 as [|c s Hc Hs IH]; [done|]. cbn. unfold utf8_char. rewrite (proj2 (Z.ltb_lt c 0x80)) by done.
  cbn. f_equal. exact IH.
Qed.

(** ** Trimming *)

Lemma trim_start_app ws s : forallb is_whitespace ws = true -> trim_start (ws ++ s) = trim_start s.
Proof. induction ws as [|c ws IH]; [done|]. cbn. intros [-> H]%andb_true_iff. by apply IH. Qed.

Lemma trim_start_id c s : is_whitespace c = false -> trim_start (c :: s) = c :: s.
Proof. intros H. cbn. by rewrite H. Qed.

Lemma forallb_rev {A} (f : A -> bool) l : forallb f (rev l) = forallb f l.
Proof. induction l as [|x l IH]; [done|]. cbn. rewrite forallb_app, IH. cbn. rewrite andb_true_r. apply andb_comm. Qed.

(** A text between white space, that begins and ends with none. *)
Lemma trim_between before x after a s l b :
  forallb is_whitespace before = true -> forallb is_whitespace after = true ->
  x = a :: s -> x = l ++ [b] -> is_whitespace a = false -> is_whitespace b = false -> trim (before ++ x ++ after) = x.
Proof.
  intros H1 H2 Hx Hy Ha Hb. unfold trim. rewrite trim_start_app by done. rewrite Hx at 1. cbn [app]. rewrite trim_start_id by done.
  rewrite app_comm_cons, <- Hx, rev_app_distr, trim_start_app by (by rewrite forallb_rev).
  rewrite Hy, rev_app_distr. cbn [rev app]. rewrite trim_start_id by done. cbn [rev]. by rewrite rev_involutive.
Qed.

(** ** What is printed is read *)

Definition no_digit (s : str) : Prop := match s with [] => True | c :: _ => to_digit 10 c = None end.

Lemma to_digit_char d : 0 <= d < 10 -> to_digit 10 (48 + d) = Some d.
Proof. intros H. unfold to_digit. rewrite !(proj2 (Z.leb_le _ _)) by lia. cbn. rewrite (proj2 (Z.ltb_lt _ _)) by lia. f_equal. lia. Qed.

Lemma digits_length fuel n : 0 <= n -> (length (digits fuel n) <= fuel)%nat.
Proof. revert n. induction fuel as [|fuel IH]; cbn; intros n Hn; [lia|]. case_match; cbn; [lia|]. rewrite length_app. cbn. specialize (IH (n / 10) ltac:(apply Z.div_pos; lia)). lia. Qed.

Lemma read_digits_digits bound max fuel n rest count v :
  0 <= n < 10 ^ Z.of_nat fuel -> (0 < fuel)%nat -> 0 <= v -> v * 10 ^ Z.of_nat (length (digits fuel n)) + n < bound ->
  (forall m, max = Some m -> (count + length (digits fuel n) <= m)%nat) ->
  read_digits 10 bound max (digits fuel n ++ rest) count v =
  read_digits 10 bound max rest (count + length (digits fuel n)) (v * 10 ^ Z.of_nat (length (digits fuel n)) + n).
Proof.
  revert n rest count v. induction fuel as [|fuel IH]; [lia|]. intros n rest count v Hn _ Hv.
  assert (Hone : forall d s c u, 0 <= d < 10 -> u * 10 + d < bound -> (forall m, max = Some m -> (S c <= m)%nat) ->
            read_digits 10 bound max ((48 + d) :: s) c u = read_digits 10 bound max s (S c) (u * 10 + d)).
  { intros d s c u Hd Hb Hm. cbn [read_digits]. rewrite to_digit_char by lia. rewrite (proj2 (Z.leb_gt _ _)) by lia.
    destruct max as [m|]; [|done]. by rewrite (proj2 (Nat.ltb_ge _ _)) by (apply Hm; done). }
  cbn [digits]. destruct (Z.ltb_spec n 10) as [Hsmall|Hbig].
  - cbn [length app]. change (10 ^ Z.of_nat 1) with 10. intros Hb Hm. rewrite Hone; [f_equal; lia|lia..|].
    intros m E. specialize (Hm m E). lia.
  - assert (Hf : (0 < fuel)%nat) by (destruct fuel; [cbn in Hn|]; lia).
    rewrite Nat2Z.inj_succ, Z.pow_succ_r in Hn by lia. assert (Hq : 0 <= n / 10 < 10 ^ Z.of_nat fuel).
    { split; [apply Z.div_pos; lia|apply Z.div_lt_upper_bound; lia]. }
    pose proof (Z.mod_pos_bound n 10 ltac:(lia)) as Hr. pose proof (Z.div_mod n 10 ltac:(lia)) as Hdm.
    rewrite <- app_assoc. rewrite !length_app. cbn [length app]. rewrite Nat2Z.inj_add, Z.pow_add_r by lia.
    change (10 ^ Z.of_nat 1) with 10. set (k := length (digits fuel (n / 10))) in *. intros Hb Hm.
    pose proof (Z.pow_pos_nonneg 10 (Z.of_nat k) ltac:(lia) ltac:(lia)). rewrite IH; fold k; [|lia|lia|lia|nia|intros m E; specialize (Hm m E); lia].
    rewrite Hone; [f_equal; [lia|nia]|lia|nia|intros m E; specialize (Hm m E); lia].
Qed.

Lemma digits_head fuel n s : 0 < n < 10 ^ Z.of_nat fuel -> head (digits fuel n ++ s) <> Some 48.
Proof.
  revert n s. induction fuel as [|fuel IH]; intros n s Hn; [cbn in Hn; lia|]. cbn [digits].
  destruct (Z.ltb_spec n 10); [cbn; intros [= E]; lia|]. rewrite <- app_assoc. apply IH. rewrite Nat2Z.inj_succ, Z.pow_succ_r in Hn by lia.
  split; [apply Z.div_str_pos; lia|apply Z.div_lt_upper_bound; lia].
Qed.

Lemma read_number_digits bound max zero fuel n rest :
  0 <= n < 10 ^ Z.of_nat fuel -> (0 < fuel)%nat -> n < bound -> (forall m, max = Some m -> (fuel <= m)%nat) -> no_digit rest ->
  read_number 10 bound max zero (digits fuel n ++ rest) = Some (n, rest).
Proof.
  intros Hn Hf Hb Hm Hrest. unfold read_number. pose proof (digits_length fuel n ltac:(lia)) as Hl.
  rewrite read_digits_digits; [|done|done|lia|lia|intros m E; specialize (Hm m E); lia].
  assert (Hend : forall c u, read_digits 10 bound max rest c u = Some (c, u, rest)).
  { intros c u. destruct rest as [|x rest]; [done|]. cbn in Hrest |- *. by rewrite Hrest. }
  rewrite Hend. cbn. destruct fuel as [|fuel]; [lia|]. cbn [digits]. destruct (Z.ltb_spec n 10) as [Hs|Hs].
  - cbn. by rewrite andb_false_r.
  - rewrite length_app. cbn [length]. rewrite (Nat.add_comm _ 1). cbn [Nat.eqb Nat.add].
    replace (bool_decide _) with false; [by rewrite andb_false_r|]. symmetry. apply bool_decide_eq_false.
    rewrite <- app_assoc. apply digits_head. rewrite Nat2Z.inj_succ, Z.pow_succ_r in Hn by lia.
    split; [apply Z.div_str_pos; lia|apply Z.div_lt_upper_bound; lia].
Qed.

Lemma first_octet n rest : 0 <= n < 256 -> no_digit rest ->
  read_separator 46 0 (read_number 10 256 (Some 3%nat) false) (digits 3 n ++ rest) = Some (n, rest).
Proof. intros Hn Hrest. apply read_number_digits; [cbn; lia|lia|lia|intros m [= <-]; lia|done]. Qed.

Lemma next_octet i n rest : 0 <= n < 256 -> no_digit rest ->
  read_separator 46 (S i) (read_number 10 256 (Some 3%nat) false) ([46] ++ digits 3 n ++ rest) = Some (n, rest).
Proof. apply first_octet. Qed.

Lemma octets a : 0 <= a < 2 ^ 32 ->
  ipv4_new (Z.land (Z.shiftr a (8 * 3)) 255) (Z.land (Z.shiftr a (8 * 2)) 255) (Z.land (Z.shiftr a (8 * 1)) 255) (Z.land (Z.shiftr a (8 * 0)) 255) = a.
Proof.
  intros Ha. change 255 with (Z.ones 8). rewrite !Z.land_ones, !Z.shiftr_div_pow2 by lia. unfold ipv4_new, be_value. cbn [fold_left].
  change (2 ^ (8 * 3)) with 16777216. change (2 ^ (8 * 2)) with 65536. change (2 ^ (8 * 1)) with 256. change (2 ^ (8 * 0)) with 1.
  change (2 ^ 8) with 256. change (2 ^ 32) with 4294967296 in Ha. Z.div_mod_to_equations. lia.
Qed.

Lemma read_ipv4_show a rest : 0 <= a < 2 ^ 32 -> no_digit rest -> read_ipv4_addr (show_ipv4 a ++ rest) = Some (a, rest).
Proof.
  intros Ha Hrest. unfold show_ipv4, read_ipv4_addr.
  assert (Ho : forall i, 0 <= Z.land (Z.shiftr a (8 * i)) 255 < 256) by (intros i; change 255 with (Z.ones 8); rewrite Z.land_ones by lia; apply Z.mod_pos_bound; lia).
  rewrite <- !app_assoc. rewrite (first_octet _ _ (Ho 3)) by done. cbn [mbind option_bind].
  rewrite (next_octet 0 _ _ (Ho 2)) by done. cbn [mbind option_bind]. rewrite (next_octet 1 _ _ (Ho 1)) by done. cbn [mbind option_bind].
  rewrite (next_octet 2 _ _ (Ho 0)) by done. cbn [mbind option_bind]. by rewrite octets.
Qed.

(** The text of an IPv4 endpoint is read as that endpoint. *)
Lemma parse_show_socket a p : 0 <= a < 2 ^ 32 -> 0 <= p < 65536 ->
  parse_socket (show_socket (mkSocketAddr (V4 a) p)) = Some (mkSocketAddr (V4 a) p).
Proof.
  intros Ha Hp. unfold parse_socket, read_socket_v4, show_socket, read_port. cbn [ip port].
  rewrite read_ipv4_show by done. cbn [mbind option_bind app read_given_char]. rewrite Z.eqb_refl. cbn [mbind option_bind].
  rewrite <- (app_nil_r (digits 5 p)), read_number_digits by (done || (cbn; lia)). done.
Qed.

(** RFC 5952's examples. *)
Example show_ipv6_examples :
  show_ipv6 (0x20010db8 * 2 ^ 96 + 1) = ascii_bytes "2001:db8::1" /\
  show_ipv6 (0x20010db8 * 2 ^ 96 + 2 ^ 64 + 1) = ascii_bytes "2001:db8:0:1::1" /\
  show_ipv6 0 = ascii_bytes "::" /\
  show_socket (mkSocketAddr (V4 (ipv4_new 198 51 100 7)) 51820) = ascii_bytes "198.51.100.7:51820" /\
  show_socket (mkSocketAddr (V6 1) 443) = ascii_bytes "[::1]:443".
Proof. by vm_compute. Qed.

Example parse_ipv4_examples :
  parse_ipv4 (ascii_bytes "10.77.0.4") = Some (ipv4_new 10 77 0 4) /\ parse_ipv4 (ascii_bytes "10.77.0.04") = None /\
  parse_ipv4 (ascii_bytes "10.77.0.256") = None /\ parse_ipv4 (ascii_bytes "10.77.0") = None.
Proof. by vm_compute. Qed.

Example parse_socket_examples :
  parse_socket (ascii_bytes "198.51.100.7:51820") = Some (mkSocketAddr (V4 (ipv4_new 198 51 100 7)) 51820) /\
  parse_socket (ascii_bytes "198.51.100.07:51820") = None /\ parse_socket (ascii_bytes "198.51.100.7") = None /\
  parse_socket (ascii_bytes "198.51.100.7:65536") = None /\ parse_socket (ascii_bytes "198.51.100.7:1x") = None /\
  parse_socket (ascii_bytes "[::1]:443") = Some (mkSocketAddr (V6 1) 443) /\
  parse_socket (ascii_bytes "[2001:db8::1:2%3]:443") = Some (mkSocketAddr (V6 (0x20010db8 * 2 ^ 96 + 0x10002)) 443) /\
  parse_socket (ascii_bytes "[1:2:3:4:5:6:7:8]:1") = Some (mkSocketAddr (V6 0x10002000300040005000600070008) 1) /\
  parse_socket (ascii_bytes "[::ffff:1.2.3.4]:1") = Some (mkSocketAddr (V6 0xffff01020304) 1) /\
  parse_socket (ascii_bytes "[1::2::3]:1") = None /\ parse_socket (ascii_bytes "::1:443") = None.
Proof. by vm_compute. Qed.

Example text_examples : as_bytes (text "Связь…") = ascii_bytes "Связь…" /\ text "Ж" = [1046] /\ text "VPN" = ascii_bytes "VPN".
Proof. by vm_compute. Qed.
