(* ===== verification/LinuxNetwork.v ===== *)
(** * The network policy of the Linux client

    crates/linux-platform/src/routes.rs, firewall.rs, proxy_routes.rs, dns.rs and lib.rs, and
    the start and end of a session in crates/linux-client/src/runtime.rs: the routes
    beside and into the tunnel, the nftables policy that keeps everything else in, the
    resolver of the link, and the repair of what a killed process left behind.

    [Host] is what the machine has, what the rest of the system has made of its own
    routes ([x_others]), and the guards the process holds.  The system calls and commands
    are calls on the tape of WinNetwork.v, so that the process may die between any two:
    then the TUN device goes, and what the kernel ties to it ([process_dies]).  The kernel's
    own form of a route and its deletion are a parameter ([RouteKernel]) with the
    documented behaviour of route_manager: a listed route keeps the attributes it was given, and
    a deletion names all of them.

    The theorems: whatever becomes of a session, repair leaves exactly the routes of others;
    a session is fail-closed from its start until its guards are dropped, also when it is
    killed; what the guard forgets when a deletion fails. *)

From S2P Require Import Prelude Protocol Text Replay Crypto ToyCrypto DataPlane Morph Speedy Config ClientWire Handshake Effects WinNetwork.

Definition SERVER_ROUTE_METRIC : Z := 4242.

(** ** Routes *)

Record Route := mkRoute {
  rt_destination : IpAddr;
  rt_prefix : Z;
  rt_gateway : option IpAddr;
  rt_if_index : option Z;
  rt_if_name : option str;
  rt_metric : option Z;
}.

#[global] Instance Route_eq_dec : EqDecision Route.
Proof. solve_decision. Defined.

Definition UNSPECIFIED : IpAddr := V4 0.
Definition UPPER_HALF : IpAddr := V4 (ipv4_new 128 0 0 0).

Definition is_default (r : Route) : bool := bool_decide (rt_destination r = UNSPECIFIED) && (rt_prefix r =? 0).

(** [min_by_key]: the first of the smallest. *)
Fixpoint min_by_key (key : Route -> Z) (l : list Route) : option Route :=
  match l with
  | [] => None
  | r :: l => match min_by_key key l with Some s => if key s <? key r then Some s else Some r | None => Some r end
  end.

Definition server_route (server : Ipv4Addr) (routes : list Route) : res ClientError.t Route :=
  match min_by_key (fun r => default u32_max (rt_metric r)) (filter is_default routes) with
  | None => Err (ClientError.Io (mkIoError ErrorKind.NotFound None))
  | Some d =>
      Ok (mkRoute (V4 server) 32 (rt_gateway d) (rt_if_index d)
        (match rt_if_index d with Some _ => None | None => rt_if_name d end) (Some SERVER_ROUTE_METRIC))
  end.

Definition is_owned_server_route (server : Ipv4Addr) (r : Route) : bool :=
  bool_decide (rt_destination r = V4 server) && (rt_prefix r =? 32) && bool_decide (rt_metric r = Some SERVER_ROUTE_METRIC).

Definition same_server_path (l r : Route) : bool :=
  bool_decide (rt_destination l = rt_destination r) && (rt_prefix l =? rt_prefix r) && bool_decide (rt_gateway l = rt_gateway r) &&
  match rt_if_index l, rt_if_index r with
  | Some i, Some j => i =? j
  | None, None => bool_decide (rt_if_name l = rt_if_name r)
  | _, _ => bool_decide (rt_if_name l <> None /\ rt_if_name l = rt_if_name r)
  end && bool_decide (rt_metric l = rt_metric r).

Definition has_full_tunnel (routes : list Route) : bool :=
  existsb (fun r => (rt_prefix r =? 1) && bool_decide (rt_destination r = UNSPECIFIED \/ rt_destination r = UPPER_HALF)) routes.

Definition reject_full_tunnel (routes : list Route) : res ClientError.t unit :=
  if has_full_tunnel routes then Err (ClientError.Io (mkIoError ErrorKind.AlreadyExists None)) else Ok tt.

(** ** The firewall *)

Definition TABLE_NAME : str := ascii_bytes "mousevpn_client_runtime".

Definition valid_interface_name (name : str) : bool :=
  negb (bool_decide (name = [])) && (len name <=? 15) &&
  forallb (fun b => ((48 <=? b) && (b <=? 57)) || ((65 <=? b) && (b <=? 90)) || ((97 <=? b) && (b <=? 122)) ||
    (b =? 95) || (b =? 45) || (b =? 46)) name.

Inductive nft_match := Oifname (name : str) | IpDaddr (a : Ipv4Addr) | DhcpClient | Ip6LinkLocal | Ip6Multicast | AnyIp6.
Inductive nft_verdict := NftAccept | NftReject | NftDrop.

#[global] Instance nft_verdict_eq_dec : EqDecision nft_verdict.
Proof. solve_decision. Defined.

Definition output_rules (server : Ipv4Addr) (tun_name : str) : list (nft_match * nft_verdict) :=
  [(Oifname (ascii_bytes "lo"), NftAccept); (Oifname tun_name, NftAccept); (IpDaddr server, NftAccept); (DhcpClient, NftAccept);
   (Ip6LinkLocal, NftAccept); (Ip6Multicast, NftAccept); (AnyIp6, NftReject)].

Definition show_match (m : nft_match) : str :=
  match m with
  | Oifname name => ascii_bytes "oifname " ++ [34] ++ name ++ [34]
  | IpDaddr a => ascii_bytes "ip daddr " ++ show_ipv4 a
  | DhcpClient => ascii_bytes "meta nfproto ipv4 udp sport 68 udp dport 67"
  | Ip6LinkLocal => ascii_bytes "ip6 daddr fe80::/10"
  | Ip6Multicast => ascii_bytes "ip6 daddr ff02::/16"
  | AnyIp6 => ascii_bytes "meta nfproto ipv6"
  end.

Definition show_verdict (v : nft_verdict) : str :=
  match v with NftAccept => ascii_bytes " accept" | NftReject => ascii_bytes " reject with icmpx type no-route" | NftDrop => ascii_bytes " drop" end.

Definition newline : str := [10].

Definition render_rules (server : Ipv4Addr) (tun_name : str) : str :=
  ascii_bytes "table inet " ++ TABLE_NAME ++ ascii_bytes " {" ++ newline ++
  ascii_bytes "  chain output {" ++ newline ++
  ascii_bytes "    type filter hook output priority -50; policy drop;" ++ newline ++
  flat_map (fun '(m, v) => ascii_bytes "    " ++ show_match m ++ show_verdict v ++ newline) (output_rules server tun_name) ++
  ascii_bytes "  }" ++ newline ++ ascii_bytes "}" ++ newline.

(** A packet at the output hook. *)
Record OutPacket := mkOut { o_interface : str; o_destination : IpAddr; o_udp : option (Z * Z) }.

Definition nft_matches (m : nft_match) (p : OutPacket) : bool :=
  match m, o_destination p with
  | Oifname name, _ => bool_decide (o_interface p = name)
  | IpDaddr a, V4 d => d =? a
  | DhcpClient, V4 _ => bool_decide (o_udp p = Some (68, 67))
  | Ip6LinkLocal, V6 d => Z.shiftr d 118 =? 0x3fa
  | Ip6Multicast, V6 d => Z.shiftr d 112 =? 0xff02
  | AnyIp6, V6 _ => true
  | _, _ => false
  end.

(** The first rule that matches decides; the policy drops. *)
Fixpoint nft_chain (rules : list (nft_match * nft_verdict)) (p : OutPacket) : nft_verdict :=
  match rules with
  | [] => NftDrop
  | (m, v) :: rules => if nft_matches m p then v else nft_chain rules p
  end.

(** ** The machine and the process *)

(** What resolvectl has set on the link: the server, the routing domain and the default route. *)
Record LinkDns := mkLinkDns { ld_server : option Ipv4Addr; ld_domain : bool; ld_default : bool }.

Record RouteGuard := mkRouteGuard { rg_server : Ipv4Addr; rg_server_route : option Route; rg_tunnel_routes : list Route }.

(** [x_nft] are the (server, interface) pairs for which the chain has been filled: nft appends to a table that
    exists.  [x_rule] is the policy rule of the proxy, [x_proxy_route] the device of its table.  [x_chains] are
    the output chains of the rest of the system, by which packets they let pass. *)
Record Host := mkHost {
  x_routes : list Route;
  x_others : list Route;
  x_nft : list (Ipv4Addr * str);
  x_link : option (str * LinkDns);
  x_tun : option str;
  x_rule : bool;
  x_proxy_route : option str;
  g_routes : option RouteGuard;
  x_chains : list (OutPacket -> bool);
}.

Definition x_put_routes (h : Host) x : Host := let 'mkHost _ b c d e f g i j := h in mkHost x b c d e f g i j.
Definition x_put_nft (h : Host) x : Host := let 'mkHost a b _ d e f g i j := h in mkHost a b x d e f g i j.
Definition x_put_link (h : Host) x : Host := let 'mkHost a b c _ e f g i j := h in mkHost a b c x e f g i j.
Definition x_put_tun (h : Host) x : Host := let 'mkHost a b c d _ f g i j := h in mkHost a b c d x f g i j.
Definition x_put_rule (h : Host) x : Host := let 'mkHost a b c d e _ g i j := h in mkHost a b c d e x g i j.
Definition x_put_proxy_route (h : Host) x : Host := let 'mkHost a b c d e f _ i j := h in mkHost a b c d e f x i j.
Definition x_put_guard (h : Host) x : Host := let 'mkHost a b c d e f g _ j := h in mkHost a b c d e f g x j.
Definition x_put_chains (h : Host) x : Host := let 'mkHost a b c d e f g i _ := h in mkHost a b c d e f g i x.

(** The kernel's form of a route, and which routes a deletion removes. *)
Class RouteKernel := {
  as_listed : Route -> Route;
  deletes : Route -> Route -> bool;
}.

Section Linux.
Context `{N : Noise, P : Primitives} `{K : RouteKernel}.
Context (replies : nat -> option reply) (tape : nat -> moment) (config : ValidatedClientConfig).
Context (server : Ipv4Addr) (tun_name : str).

Abbreviation L := (Effects.L Host) (only parsing).
Notation "x <- m ; k" := (lbind m (fun x => k)) (at level 100, m at next level, right associativity).

(** A command: it may not start, and it may report failure. *)
Definition command (effect : Host -> Host) : L unit :=
  r <- call replies;
  match r_io r with
  | Some kind => lthrow (ClientError.Io (mkIoError kind None))
  | None => if r_status r =? 0 then modify effect else lthrow (ClientError.Io (mkIoError ErrorKind.Other None))
  end.

(** *** Routes *)

Definition new_manager : L unit := file_call replies (fun h => h).
Definition list_routes : L (list Route) := _ <- file_call replies (fun h => h); gets x_routes.
Definition manager_add (r : Route) : L unit := file_call replies (fun h => x_put_routes h (as_listed r :: x_routes h)).
Definition manager_delete (r : Route) : L unit :=
  file_call replies (fun h => x_put_routes h (filter (fun x => negb (deletes x r)) (x_routes h))).

Definition ensure_no_competing_full_tunnel : L unit :=
  _ <- new_manager;
  routes <- list_routes;
  lres (reject_full_tunnel routes).

Definition put_server_route (r : option Route) : L unit :=
  modify (fun h => x_put_guard h (match g_routes h with Some g => Some (mkRouteGuard (rg_server g) r (rg_tunnel_routes g)) | None => None end)).

Definition add_tunnel_route (r : Route) : L unit :=
  _ <- manager_add r;
  modify (fun h => x_put_guard h (match g_routes h with Some g => Some (mkRouteGuard (rg_server g) (rg_server_route g) (rg_tunnel_routes g ++ [r])) | None => None end)).

Fixpoint delete_each (l : list Route) : L unit :=
  match l with
  | [] => lret tt
  | r :: l => _ <- ignored (manager_delete r); delete_each l
  end.

(** [Drop for RouteGuard] *)
Definition drop_routes : L unit :=
  guard <- gets g_routes;
  match guard with
  | None => lret tt
  | Some g =>
      _ <- delete_each (rev (rg_tunnel_routes g));
      _ <- (match rg_server_route g with Some r => ignored (manager_delete r) | None => lret tt end);
      modify (fun h => x_put_guard h None)
  end.

(** A guard that goes out of scope with an error. *)
Definition or_drop (m : L unit) (drop : L unit) : L unit :=
  r <- catch m;
  match r with
  | Ok _ => lret tt
  | Err e => _ <- drop; lthrow e
  | Panic => lres Panic
  end.

Definition half (destination : IpAddr) : Route := mkRoute destination 1 None None (Some tun_name) None.

Definition route_install : L unit :=
  _ <- new_manager;
  routes <- list_routes;
  _ <- lres (reject_full_tunnel routes);
  route <- lres (server_route server routes);
  _ <- modify (fun h => x_put_guard h (Some (mkRouteGuard server None [])));
  or_drop
    (_ <- manager_add route;
     _ <- put_server_route (Some route);
     _ <- add_tunnel_route (half UNSPECIFIED);
     add_tunnel_route (half UPPER_HALF))
    drop_routes.

Definition refresh_server_route (g : RouteGuard) : L unit :=
  routes <- list_routes;
  replacement <- lres (server_route (rg_server g) routes);
  if existsb (fun r => same_server_path r replacement) routes then put_server_route (Some replacement)
  else
    _ <- put_server_route None;
    _ <- (match rg_server_route g with
          | Some previous => if existsb (fun r => same_server_path r previous) routes then manager_delete previous else lret tt
          | None => lret tt
          end);
    r <- catch (manager_add replacement);
    match r with
    | Ok _ => put_server_route (Some replacement)
    | Err e =>
        _ <- (match rg_server_route g with
              | Some previous =>
                  again <- catch (manager_add previous);
                  match again with Ok _ => put_server_route (Some previous) | Err _ => lret tt | Panic => lres Panic end
              | None => lret tt
              end);
        lthrow e
    | Panic => lres Panic
    end.

Fixpoint remove_each (l : list Route) : L unit :=
  match l with
  | [] => lret tt
  | r :: l => _ <- manager_delete r; remove_each l
  end.

Definition remove_stale_server_routes : L unit :=
  _ <- new_manager;
  routes <- list_routes;
  remove_each (filter (is_owned_server_route server) routes).

(** *** The firewall *)

(** Only a command that cannot be started is an error. *)
Definition remove_runtime_table : L unit :=
  r <- call replies;
  match r_io r with
  | Some kind => lthrow (ClientError.Io (mkIoError kind None))
  | None => if r_status r =? 0 then modify (fun h => x_put_nft h []) else lret tt
  end.

Definition run_nft_script : L unit := command (fun h => x_put_nft h (x_nft h ++ [(server, tun_name)])).

Definition firewall_install : L unit :=
  if negb (valid_interface_name tun_name) then lthrow (ClientError.Io (mkIoError ErrorKind.InvalidInput None))
  else
    _ <- remove_runtime_table;
    run_nft_script.

Definition repair_stale_network : L unit :=
  _ <- remove_runtime_table;
  remove_stale_server_routes.

(** *** DNS *)

Definition set_link (f : LinkDns -> LinkDns) (h : Host) : Host :=
  x_put_link h (Some (tun_name, f (match x_link h with Some (_, d) => d | None => mkLinkDns None false false end))).

Definition drop_dns : L unit := ignored (command (fun h => x_put_link h None)).

Definition dns_install (dns : Ipv4Addr) : L unit :=
  if negb (valid_interface_name tun_name) then lthrow (ClientError.Io (mkIoError ErrorKind.InvalidInput None))
  else
    or_drop
      (_ <- command (set_link (fun d => mkLinkDns (Some dns) (ld_domain d) (ld_default d)));
       _ <- command (set_link (fun d => mkLinkDns (ld_server d) true (ld_default d)));
       command (set_link (fun d => mkLinkDns (ld_server d) (ld_domain d) true)))
      drop_dns.

(** *** The proxy *)

Definition delete_proxy_route : L unit := command (fun h => x_put_proxy_route h None).

(** [ip rule add] refuses a rule that exists. *)
Definition add_rule : L unit :=
  present <- gets x_rule;
  if present : bool then r <- call replies; lthrow (ClientError.Io (mkIoError (default ErrorKind.Other (r_io r)) None))
  else command (fun h => x_put_rule h true).

Definition proxy_install : L unit :=
  if negb (valid_interface_name tun_name) then lthrow (ClientError.Io (mkIoError ErrorKind.InvalidInput None))
  else
    _ <- command (fun h => x_put_proxy_route h (Some tun_name));
    or_drop add_rule (ignored delete_proxy_route).

Definition drop_proxy : L unit :=
  _ <- ignored (command (fun h => x_put_rule h false));
  ignored delete_proxy_route.

(** *** A session *)

Inductive Mode := ModeFullTunnel | ModeProxy.

Definition drop_firewall : L unit := ignored remove_runtime_table.

(** The guards of [run_mode]; those made before go when a later one fails. *)
Definition install_network (mode : Mode) (dns : Ipv4Addr) : L unit :=
  match mode with
  | ModeFullTunnel =>
      _ <- firewall_install;
      _ <- or_drop route_install drop_firewall;
      or_drop (dns_install dns) (_ <- drop_routes; drop_firewall)
  | ModeProxy =>
      _ <- proxy_install;
      or_drop (file_call replies (fun h => h)) drop_proxy
  end.

(** [run_mode] after the address of the server is known, up to the packet loop: repair, handshake,
    socket, TUN device, signals, guards. *)
Definition start_session (fuel : nat) (mode : Mode) : L unit :=
  _ <- repair_stale_network;
  session <- run_m (linux_connect tape fuel config);
  _ <- file_call replies (fun h => h);
  _ <- file_call replies (fun h => h);
  _ <- file_call replies (fun h => x_put_tun h (Some tun_name));
  _ <- file_call replies (fun h => h);
  _ <- file_call replies (fun h => h);
  _ <- file_call replies (fun h => h);
  _ <- file_call replies (fun h => h);
  install_network mode (SessionParameters.dns session.2).

(** A route that MouseVPN has made. *)
Definition owned (r : Route) : bool := is_owned_server_route server r || bool_decide (rt_if_name r = Some tun_name).

(** While the loop runs: it refreshes the server's route, and the rest of the system changes
    its own routes, which may take the server's route with it, and its own filters, which
    may be a replacement of the whole ruleset. *)
Inductive happening :=
| RefreshRoutes
| Others (change : list Route -> list Route) (loses : bool)
| OthersFilter (change : list (OutPacket -> bool) -> list (OutPacket -> bool))
| FlushRuleset (chains : list (OutPacket -> bool)).

Definition happen (e : happening) : L unit :=
  match e with
  | RefreshRoutes =>
      guard <- gets g_routes;
      match guard with Some g => ignored (refresh_server_route g) | None => lret tt end
  | Others change loses =>
      modify (fun h =>
        let others := filter (fun r => negb (owned r)) (change (x_others h)) in
        let ours := filter (fun r => owned r && negb (loses && is_owned_server_route server r)) (x_routes h) in
        let 'mkHost _ _ c d e f g i j := h in mkHost (ours ++ others) others c d e f g i j)
  | OthersFilter change => modify (fun h => x_put_chains h (change (x_chains h)))
  | FlushRuleset chains => modify (fun h => x_put_chains (x_put_nft h []) chains)
  end.

Fixpoint loop_runs (es : list happening) : L unit :=
  match es with
  | [] => lret tt
  | e :: es => _ <- happen e; loop_runs es
  end.

(** The fields of [NetworkGuard] go in the order of their declaration. *)
Definition drop_network (mode : Mode) : L unit :=
  match mode with
  | ModeFullTunnel => _ <- drop_firewall; _ <- drop_routes; drop_dns
  | ModeProxy => drop_proxy
  end.

Definition linux_session (fuel : nat) (mode : Mode) (es : list happening) : L unit :=
  _ <- start_session fuel mode;
  _ <- loop_runs es;
  drop_network mode.

(** The end of the process: the TUN device goes, and what the kernel ties to it. *)
Definition process_dies (h : Host) : Host :=
  mkHost (filter (fun r => rt_if_name r <> Some tun_name) (x_routes h)) (x_others h) (x_nft h) None None (x_rule h) None None (x_chains h).

End Linux.

(** [run_mode] itself. *)
Section RunMode.
Context `{N : Noise, P : Primitives} `{K : RouteKernel}.

Definition ipv4_server (config : ValidatedClientConfig) : res ClientError.t Ipv4Addr :=
  match ip (vc_server config) with
  | V4 a => Ok a
  | V6 _ => Err (ClientError.Io (mkIoError ErrorKind.Unsupported None))
  end.

Definition run_mode (replies : nat -> option reply) (tape : nat -> moment) (config : ValidatedClientConfig)
    (fuel : nat) (mode : Mode) (es : list happening) : Effects.L Host unit :=
  lbind (ensure_no_competing_full_tunnel replies) (fun _ =>
  lbind (lres (ipv4_server config)) (fun server =>
  linux_session replies tape config server (vc_tun_name config) fuel mode es)).

(** The listener of the proxy is local. *)
Definition run_proxy (replies : nat -> option reply) (tape : nat -> moment) (config : ValidatedClientConfig)
    (listen : Ipv4Addr * Z) (fuel : nat) (es : list happening) : Effects.L Host unit :=
  if negb (Z.shiftr listen.1 24 =? 127) || (listen.2 =? 0) then lthrow (ClientError.Io (mkIoError ErrorKind.InvalidInput None))
  else run_mode replies tape config fuel ModeProxy es.

End RunMode.

(** ** Ownership *)

(** What route_manager and the kernel document of adding and deleting. *)
Class RouteKernelLaws (K : RouteKernel) : Prop := {
  listed_destination r : rt_destination (as_listed r) = rt_destination r /\ rt_prefix (as_listed r) = rt_prefix r;
  listed_metric r m : rt_metric r = Some m -> rt_metric (as_listed r) = Some m;
  listed_name r n : rt_if_name r = Some n -> rt_if_name (as_listed r) = Some n;
  deletes_destination x r : deletes x r = true -> rt_destination x = rt_destination r /\ rt_prefix x = rt_prefix r;
  deletes_metric x r m : deletes x r = true -> rt_metric r = Some m -> rt_metric x = Some m;
  deletes_name x r n : deletes x r = true -> rt_if_name r = Some n -> rt_if_name x = Some n;
  deletes_itself x : deletes x x = true;
}.

Section Ownership.
Context `{N : Noise, P : Primitives} `{K : RouteKernel} `{KL : !RouteKernelLaws K}.
Context (replies : nat -> option reply) (tape : nat -> moment) (config : ValidatedClientConfig).
Context (server : Ipv4Addr) (tun_name : str).

Abbreviation ours := (owned server tun_name) (only parsing).

Lemma owned_server r : is_owned_server_route server r = true -> ours r = true.
Proof. unfold owned. by intros ->. Qed.

Lemma owned_alike x r : rt_destination x = rt_destination r /\ rt_prefix x = rt_prefix r ->
  (forall m, rt_metric r = Some m -> rt_metric x = Some m) -> (forall n, rt_if_name r = Some n -> rt_if_name x = Some n) ->
  ours r = true -> ours x = true.
Proof.
  intros [Hd Hp] Hm Hn. unfold owned, is_owned_server_route. rewrite !orb_true_iff, !andb_true_iff, !bool_decide_eq_true, Hd, Hp.
  intros [[H1 H2]|H]; [left; split; [done|by apply Hm]|right; by apply Hn].
Qed.

Lemma listed_owned r : ours r = true -> ours (as_listed r) = true.
Proof. apply owned_alike; [apply listed_destination|intros; by apply listed_metric|intros; by apply listed_name]. Qed.

Lemma deletes_owned x r : deletes x r = true -> ours r = true -> ours x = true.
Proof. intros H. apply owned_alike; [by apply deletes_destination|intros; by eapply deletes_metric|intros; by eapply deletes_name]. Qed.

Lemma server_route_owned routes r : server_route server routes = Ok r -> ours r = true.
Proof.
  unfold server_route. destruct (min_by_key _ _); [|done]. intros [= <-]. apply owned_server. unfold is_owned_server_route. cbn.
  by rewrite !bool_decide_eq_true_2.
Qed.

Lemma half_owned d : ours (half tun_name d) = true.
Proof. unfold owned, half. cbn. by rewrite bool_decide_eq_true_2, orb_true_r. Qed.

(** The routes of others are as the others have made them, and the guard tracks only routes
    of its own. *)
Definition foreign (r : Route) : bool := negb (ours r).

Definition intact (h : Host) : Prop :=
  filter foreign (x_routes h) = x_others h /\
  match g_routes h with
  | Some g => rg_server g = server /\ (forall r, rg_server_route g = Some r -> ours r = true) /\ (forall r, r ∈ rg_tunnel_routes g -> ours r = true)
  | None => True
  end.

Lemma foreign_add r (l : list Route) : ours r = true -> filter foreign (as_listed r :: l) = filter foreign l.
Proof. intros H%listed_owned. rewrite filter_cons_False; [done|]. unfold foreign. rewrite H. by intros []. Qed.

Lemma foreign_delete r (l : list Route) : ours r = true -> filter foreign (filter (fun x => negb (deletes x r)) l) = filter foreign l.
Proof.
  intros Hr. rewrite list_filter_filter. apply list_filter_iff. intros x. split; [by intros [? _]|].
  intros Hx. split; [done|]. destruct (deletes x r) eqn:E; [|done]. exfalso. unfold foreign in Hx.
  by rewrite (deletes_owned x r E Hr) in Hx.
Qed.

Lemma keeps_lres_bind {St A B} I (x : res ClientError.t A) (k : A -> Effects.L St B) :
  (forall a, x = Ok a -> keeps I (k a)) -> keeps I (lbind (lres x) k).
Proof. intros H s w Hs. unfold lbind, lres. destruct x as [a|e|]; [by apply (H a)|done..]. Qed.

Lemma keeps_gets_bind {St A B} (I : St -> Prop) (f : St -> A) (k : A -> Effects.L St B) :
  (forall s w, I s -> I (k (f s) s w).1.1) -> keeps I (lbind (gets f) k).
Proof. intros H s w Hs. by apply H. Qed.

Lemma keeps_command I effect : (forall h, I h -> I (effect h)) -> keeps I (command replies effect).
Proof. intros H. unfold command. apply keeps_bind; [apply keeps_call|]. intros r. destruct (r_io r); [apply keeps_throw|]. destruct (_ =? 0); [by apply keeps_modify|apply keeps_throw]. Qed.

Lemma keeps_or_drop (I : Host -> Prop) m d : keeps I m -> keeps I d -> keeps I (or_drop m d).
Proof. intros Hm Hd. unfold or_drop. apply keeps_bind; [by apply keeps_catch|]. intros [[]|e|]; [apply keeps_ret| |apply keeps_res]. apply keeps_bind; [done|intros; apply keeps_throw]. Qed.

Lemma keeps_ignored (I : Host -> Prop) m : keeps I m -> keeps I (ignored m).
Proof. intros H. unfold ignored. apply keeps_bind; [by apply keeps_catch|intros; apply keeps_ret]. Qed.

Lemma keeps_list I : keeps I (list_routes replies).
Proof. unfold list_routes. apply keeps_bind; [by apply keeps_file_call|intros; apply keeps_gets]. Qed.

Lemma keeps_add r : ours r = true -> keeps intact (manager_add replies r).
Proof. intros Hr. apply keeps_file_call. intros [] [H1 H2]. split; [|done]. cbn [x_put_routes x_routes x_others] in *. by rewrite foreign_add. Qed.

Lemma keeps_delete r : ours r = true -> keeps intact (manager_delete replies r).
Proof. intros Hr. apply keeps_file_call. intros [] [H1 H2]. split; [|done]. cbn [x_put_routes x_routes x_others] in *. by rewrite foreign_delete. Qed.

Lemma keeps_put_server_route o : (forall r, o = Some r -> ours r = true) -> keeps intact (put_server_route o).
Proof. intros Ho. apply keeps_modify. intros [] [H1 H2]. split; [done|]. cbn in *. destruct g_routes0 as [g|]; [|done]. naive_solver. Qed.

Lemma keeps_add_tunnel d : keeps intact (add_tunnel_route replies (half tun_name d)).
Proof.
  unfold add_tunnel_route. apply keeps_bind; [apply keeps_add, half_owned|intros _]. apply keeps_modify. intros [] [H1 H2]. split; [done|].
  cbn in *. destruct g_routes0 as [g|]; [|done]. cbn. destruct H2 as (A & B & C). split; [done|]. split; [done|].
  intros r [Hr|Hr]%elem_of_app; [by apply C|]. apply list_elem_of_singleton in Hr as ->. apply half_owned.
Qed.

Lemma keeps_delete_each l : (forall r, r ∈ l -> ours r = true) -> keeps intact (delete_each replies l).
Proof.
  induction l as [|r l IH]; intros H; cbn; [apply keeps_ret|]. apply keeps_bind; [|intros _; apply IH; intros x Hx; apply H; by right].
  apply keeps_ignored, keeps_delete, H. by left.
Qed.

Lemma keeps_drop_routes : keeps intact (drop_routes replies).
Proof.
  apply keeps_gets_bind. intros h w Hh. pose proof Hh as [_ Hg]. destruct (g_routes h) as [g|]; [|done]. destruct Hg as (_ & Hs & Ht).
  revert w. generalize h Hh. clear h Hh. intros h Hh w.
  assert (Hk : keeps intact (lbind (delete_each replies (rev (rg_tunnel_routes g))) (fun _ =>
    lbind (match rg_server_route g with Some r => ignored (manager_delete replies r) | None => lret tt end)
      (fun _ => modify (fun h => x_put_guard h None))))).
  { apply keeps_bind; [apply keeps_delete_each; intros r Hr; apply Ht; by apply list_elem_of_In, in_rev, list_elem_of_In in Hr|intros _].
    apply keeps_bind; [|intros _; apply keeps_modify; intros [] [H1 H2]; by split].
    destruct (rg_server_route g) as [r|]; [|apply keeps_ret]. apply keeps_ignored, keeps_delete. by apply Hs. }
  by apply Hk.
Qed.

Lemma keeps_route_install : keeps intact (route_install replies server tun_name).
Proof.
  unfold route_install, new_manager. apply keeps_bind; [by apply keeps_file_call|intros _]. apply keeps_bind; [apply keeps_list|intros routes].
  apply keeps_bind; [apply keeps_res|intros _]. apply keeps_lres_bind. intros route Hr%server_route_owned.
  apply keeps_bind; [apply keeps_modify; intros [] [H1 H2]; split; [done|]; cbn; split; [done|]; split; [done|intros r Hn; by apply elem_of_nil in Hn]|intros _].
  apply keeps_or_drop; [|apply keeps_drop_routes]. apply keeps_bind; [by apply keeps_add|intros _].
  apply keeps_bind; [apply keeps_put_server_route; by intros r [= <-]|intros _].
  apply keeps_bind; [apply keeps_add_tunnel|intros _]. apply keeps_add_tunnel.
Qed.

Lemma keeps_server_refresh g : rg_server g = server -> (forall r, rg_server_route g = Some r -> ours r = true) ->
  keeps intact (refresh_server_route replies g).
Proof.
  intros Hsv Hg. unfold refresh_server_route. rewrite Hsv. apply keeps_bind; [apply keeps_list|intros routes]. apply keeps_lres_bind.
  intros r Hr%server_route_owned. destruct (existsb _ _); [apply keeps_put_server_route; by intros x [= <-]|].
  apply keeps_bind; [by apply keeps_put_server_route|intros _]. apply keeps_bind.
  { destruct (rg_server_route g) as [p|]; [|apply keeps_ret]. destruct (existsb _ _); [|apply keeps_ret]. apply keeps_delete. by apply Hg. }
  intros _. apply keeps_bind; [apply keeps_catch; by apply keeps_add|]. intros [[]|e|]; [apply keeps_put_server_route; by intros x [= <-]| |apply keeps_res].
  apply keeps_bind; [|intros; apply keeps_throw]. destruct (rg_server_route g) as [p|]; [|apply keeps_ret].
  apply keeps_bind; [apply keeps_catch, keeps_add; by apply Hg|]. intros [[]|e'|]; [|apply keeps_ret|apply keeps_res].
  apply keeps_put_server_route. intros x [= <-]. by apply Hg.
Qed.

Lemma keeps_remove_table (I : Host -> Prop) : (forall h, I h -> I (x_put_nft h [])) -> keeps I (remove_runtime_table replies).
Proof.
  intros H. unfold remove_runtime_table. apply keeps_bind; [apply keeps_call|]. intros r. destruct (r_io r); [apply keeps_throw|].
  destruct (_ =? 0); [by apply keeps_modify|apply keeps_ret].
Qed.

Lemma intact_nft h l : intact h -> intact (x_put_nft h l).
Proof. by destruct h. Qed.

Lemma keeps_firewall : keeps intact (firewall_install replies server tun_name).
Proof.
  unfold firewall_install, run_nft_script. destruct (negb _); [apply keeps_throw|].
  apply keeps_bind; [apply keeps_remove_table; intros h; apply intact_nft|intros _]. apply keeps_command. intros h. apply intact_nft.
Qed.

Lemma keeps_drop_firewall : keeps intact (drop_firewall replies).
Proof. apply keeps_ignored, keeps_remove_table. intros h. apply intact_nft. Qed.

Lemma keeps_drop_dns : keeps intact (drop_dns replies).
Proof. apply keeps_ignored, keeps_command. by intros []. Qed.

Lemma keeps_dns dns : keeps intact (dns_install replies tun_name dns).
Proof.
  unfold dns_install. destruct (negb _); [apply keeps_throw|]. apply keeps_or_drop; [|apply keeps_drop_dns].
  repeat (apply keeps_bind; [|intros _]); apply keeps_command; by intros [].
Qed.

Lemma keeps_drop_proxy : keeps intact (drop_proxy replies).
Proof. unfold drop_proxy, delete_proxy_route. apply keeps_bind; [|intros _]; apply keeps_ignored, keeps_command; by intros []. Qed.

Lemma keeps_proxy : keeps intact (proxy_install replies tun_name).
Proof.
  unfold proxy_install, add_rule, delete_proxy_route. destruct (negb _); [apply keeps_throw|].
  apply keeps_bind; [apply keeps_command; by intros []|intros _]. apply keeps_or_drop; [|apply keeps_ignored, keeps_command; by intros []].
  apply keeps_bind; [apply keeps_gets|intros []]; [|apply keeps_command; by intros []].
  apply keeps_bind; [apply keeps_call|intros; apply keeps_throw].
Qed.

Lemma keeps_install mode dns : keeps intact (install_network replies server tun_name mode dns).
Proof.
  destruct mode; cbn.
  - apply keeps_bind; [apply keeps_firewall|intros _]. apply keeps_bind; [apply keeps_or_drop; [apply keeps_route_install|apply keeps_drop_firewall]|intros _].
    apply keeps_or_drop; [apply keeps_dns|]. apply keeps_bind; [apply keeps_drop_routes|intros _; apply keeps_drop_firewall].
  - apply keeps_bind; [apply keeps_proxy|intros _]. apply keeps_or_drop; [by apply keeps_file_call|apply keeps_drop_proxy].
Qed.

Lemma keeps_remove_each l : (forall r, r ∈ l -> ours r = true) -> keeps intact (remove_each replies l).
Proof.
  induction l as [|r l IH]; intros H; cbn; [apply keeps_ret|]. apply keeps_bind; [|intros _; apply IH; intros x Hx; apply H; by right].
  apply keeps_delete, H. by left.
Qed.

Lemma keeps_repair : keeps intact (repair_stale_network replies server).
Proof.
  unfold repair_stale_network, remove_stale_server_routes, new_manager.
  apply keeps_bind; [apply keeps_remove_table; intros h; apply intact_nft|intros _]. apply keeps_bind; [by apply keeps_file_call|intros _].
  apply keeps_bind; [apply keeps_list|intros routes]. apply keeps_remove_each. intros r [Hr _]%list_elem_of_filter. apply owned_server. by apply Is_true_true.
Qed.

Lemma keeps_start fuel mode : keeps intact (start_session replies tape config server tun_name fuel mode).
Proof.
  unfold start_session. apply keeps_bind; [apply keeps_repair|intros _]. apply keeps_bind; [apply keeps_run|intros session].
  repeat (apply keeps_bind; [apply keeps_file_call; by intros []|intros _]). apply keeps_install.
Qed.

Lemma keeps_happen e : keeps intact (happen replies server tun_name e).
Proof.
  destruct e as [|change loses|change|chains]; cbn; [| |by apply keeps_modify; intros []..].
  - apply keeps_gets_bind. intros h w Hh. pose proof Hh as [_ Hg]. destruct (g_routes h) as [g|]; [|done]. destruct Hg as (Hsv & Hr & _).
    pose proof (keeps_ignored intact _ (keeps_server_refresh g Hsv Hr)) as Hk. by apply Hk.
  - apply keeps_modify. intros [] [H1 H2]. split; [|done]. cbn [x_routes x_others]. rewrite list.filter_app.
    assert (Hno : filter foreign (filter (fun r => ours r && negb (loses && is_owned_server_route server r)) x_routes0) = []).
    { rewrite list_filter_filter. apply elem_of_nil_inv. intros x Hx. apply list_elem_of_filter in Hx as [[Hf Ho] _].
      unfold foreign in Hf. apply Is_true_true in Ho. apply andb_true_iff in Ho as [Ho _]. by rewrite Ho in Hf. }
    rewrite Hno. cbn [app]. rewrite list_filter_filter. apply list_filter_iff. intros x. unfold foreign. tauto.
Qed.

Lemma keeps_loop es : keeps intact (loop_runs replies server tun_name es).
Proof. induction es as [|e es IH]; cbn; [apply keeps_ret|]. apply keeps_bind; [apply keeps_happen|intros _; exact IH]. Qed.

Lemma keeps_session fuel mode es : keeps intact (linux_session replies tape config server tun_name fuel mode es).
Proof.
  unfold linux_session. apply keeps_bind; [apply keeps_start|intros _]. apply keeps_bind; [apply keeps_loop|intros _].
  destruct mode; cbn; [|apply keeps_drop_proxy]. apply keeps_bind; [apply keeps_drop_firewall|intros _].
  apply keeps_bind; [apply keeps_drop_routes|intros _; apply keeps_drop_dns].
Qed.

(** ** Repair *)

Lemma intact_dies h : intact h -> intact (process_dies tun_name h).
Proof.
  intros [H _]. split; [|done]. cbn [process_dies x_routes x_others]. rewrite <- H, list_filter_filter. apply list_filter_iff.
  intros r. split; [by intros [? _]|]. intros Hr. split; [done|]. intros E. unfold foreign, owned in Hr.
  by rewrite (bool_decide_eq_true_2 _ E), orb_true_r in Hr.
Qed.

Lemma file_call_inv effect h w h' w' : file_call replies effect h w = (h', w', Some (Ok tt)) -> h' = (effect h : Host).
Proof.
  unfold file_call. intros H. apply lbind_inv in H as (h1 & w1 & r & ->%call_inv & H). destruct (r_io r); by inversion H.
Qed.

Lemma remove_each_inv l h w h' w' : remove_each replies l h w = (h', w', Some (Ok tt)) ->
  x_nft h' = x_nft h /\ x_others h' = x_others h /\
  forall x, x ∈ x_routes h' -> x ∈ x_routes h /\ x ∉ l.
Proof.
  revert h w. induction l as [|r l IH]; cbn; intros h w H.
  { injection H as <- _. split; [done|]. split; [done|]. intros x Hx. split; [done|apply not_elem_of_nil]. }
  apply lbind_inv in H as (h1 & w1 & [] & ->%file_call_inv & H). apply IH in H as (H1 & H2 & H3). destruct h. cbn in *.
  split; [done|]. split; [done|]. intros x [Hx Hn]%H3. apply list_elem_of_filter in Hx as [Hd Hx]. split; [done|].
  intros [->|Hin]%elem_of_cons; [by rewrite deletes_itself in Hd|done].
Qed.

Lemma repair_inv h w h' w' : intact h -> (forall r, r ∈ x_routes h -> rt_if_name r <> Some tun_name) ->
  repair_stale_network replies server h w = (h', w', Some (Ok tt)) ->
  x_routes h' = x_others h' /\ x_others h' = x_others h /\
  (x_nft h' = [] \/ exists r, replies (pos w) = Some r /\ r_status r <> 0).
Proof.
  intros Hi Hgone E. pose proof (keeps_repair h w Hi) as Hi'. rewrite E in Hi'. cbn in Hi'. destruct Hi' as [Hf _].
  unfold repair_stale_network in E. apply lbind_inv in E as (h1 & w1 & [] & E1 & E).
  assert (H1 : x_routes h1 = x_routes h /\ x_others h1 = x_others h /\ (x_nft h1 = [] \/ exists r, replies (pos w) = Some r /\ r_status r <> 0)).
  { unfold remove_runtime_table, lbind, call in E1. destruct (replies (pos w)) as [r|]; [|done]. destruct (r_io r); [done|].
    destruct (Z.eqb_spec (r_status r) 0); injection E1 as <- _; [destruct h; by auto|]. split; [done|]. split; [done|]. right. by exists r. }
  destruct H1 as (Hr1 & Ho1 & Hn1).
  unfold remove_stale_server_routes, new_manager, list_routes in E.
  apply lbind_inv in E as (h2 & w2 & [] & ->%file_call_inv & E). apply lbind_inv in E as (h3 & w3 & routes & E3 & E).
  apply lbind_inv in E3 as (h4 & w4 & [] & ->%file_call_inv & E3). inversion E3; subst; clear E3.
  apply remove_each_inv in E as (En & Eo & Er). rewrite En, Eo, Ho1. split; [|by split].
  rewrite <- Ho1, <- Eo, <- Hf. symmetry.
  assert (Hall : forall x, x ∈ x_routes h' -> foreign x = true).
  { intros x [Hx Hn]%Er. unfold foreign, owned. rewrite Hr1 in Hx. rewrite (bool_decide_eq_false_2 _ (Hgone x Hx)), orb_false_r.
    destruct (is_owned_server_route server x) eqn:Eo'; [|done]. exfalso. apply Hn. apply list_elem_of_filter. split; [by rewrite Eo'|by rewrite Hr1]. }
  clear -Hall. induction (x_routes h') as [|x l IH]; [done|]. rewrite filter_cons_True; [|rewrite (Hall x); [done|by left]].
  f_equal. apply IH. intros y Hy. apply Hall. by right.
Qed.

(** A repair for any server adds no route, and removes the table when nft does. *)
Lemma repair_shrinks server' h w h' w' :
  repair_stale_network replies server' h w = (h', w', Some (Ok tt)) ->
  (forall r, r ∈ x_routes h' -> r ∈ x_routes h) /\ (x_nft h' = [] \/ exists r, replies (pos w) = Some r /\ r_status r <> 0).
Proof.
  intros E. unfold repair_stale_network in E. apply lbind_inv in E as (h1 & w1 & [] & E1 & E).
  assert (H1 : x_routes h1 = x_routes h /\ (x_nft h1 = [] \/ exists r, replies (pos w) = Some r /\ r_status r <> 0)).
  { unfold remove_runtime_table, lbind, call in E1. destruct (replies (pos w)) as [r|]; [|done]. destruct (r_io r); [done|].
    destruct (Z.eqb_spec (r_status r) 0); injection E1 as <- _; [destruct h; by auto|]. split; [done|]. right. by exists r. }
  destruct H1 as (Hr1 & Hn1). unfold remove_stale_server_routes, new_manager, list_routes in E.
  apply lbind_inv in E as (h2 & w2 & [] & ->%file_call_inv & E). apply lbind_inv in E as (h3 & w3 & routes & E3 & E).
  apply lbind_inv in E3 as (h4 & w4 & [] & ->%file_call_inv & E3). inversion E3; subst; clear E3.
  apply remove_each_inv in E as (En & _ & Er). rewrite En. split; [|done]. intros r [Hr _]%Er. by rewrite <- Hr1.
Qed.

End Ownership.

(** ** What leaves the machine *)

(** Without the table nothing is held back here. *)
Definition output_verdict (h : Host) (p : OutPacket) : nft_verdict :=
  match x_nft h with
  | [] => NftAccept
  | blocks => nft_chain (flat_map (fun '(server, tun_name) => output_rules server tun_name) blocks) p
  end.

(** The output chains of the rest of the system; every chain of the hook has its say. *)
Definition passes_others (h : Host) (p : OutPacket) : bool := forallb (fun chain => chain p) (x_chains h).

Definition leaves_machine (h : Host) (p : OutPacket) : bool := bool_decide (output_verdict h p = NftAccept) && passes_others h p.

(** The exceptions of the policy. *)
Definition may_leave (server : Ipv4Addr) (tun_name : str) (p : OutPacket) : Prop :=
  o_interface p = ascii_bytes "lo" \/ o_interface p = tun_name \/
  match o_destination p with
  | V4 d => d = server \/ o_udp p = Some (68, 67)
  | V6 d => Z.shiftr d 118 = 0x3fa \/ Z.shiftr d 112 = 0xff02
  end.

Lemma chain_accepts server tun_name p : nft_chain (output_rules server tun_name) p = NftAccept <-> may_leave server tun_name p.
Proof.
  unfold may_leave, output_rules. cbn [nft_chain nft_matches]. destruct (o_destination p) as [d|d].
  - repeat case_bool_decide; destruct (Z.eqb_spec d server); naive_solver.
  - repeat case_bool_decide; destruct (Z.eqb_spec (Z.shiftr d 118) 0x3fa), (Z.eqb_spec (Z.shiftr d 112) 0xff02); naive_solver.
Qed.

Section Claims.
Context `{N : Noise, P : Primitives} `{K : RouteKernel} `{KL : !RouteKernelLaws K}.
Context (replies : nat -> option reply) (tape : nat -> moment) (config : ValidatedClientConfig).
Context (server : Ipv4Addr) (tun_name : str).

Definition table_is (c : list (Ipv4Addr * str)) (h : Host) : Prop := x_nft h = c.

Ltac quiet := by intros [].

Lemma table_file_call c (effect : Host -> Host) : (forall h, x_nft (effect h) = x_nft h) -> keeps (table_is c) (file_call replies effect).
Proof. intros He. apply keeps_file_call. intros h <-. apply He. Qed.

Lemma table_delete_each c l : keeps (table_is c) (delete_each replies l).
Proof. induction l as [|r l IH]; cbn; [apply keeps_ret|]. apply keeps_bind; [|intros _; exact IH]. apply keeps_ignored, table_file_call. quiet. Qed.

Lemma table_drop_routes c : keeps (table_is c) (drop_routes replies).
Proof.
  unfold drop_routes. apply keeps_bind; [apply keeps_gets|intros [g|]; [|apply keeps_ret]]. apply keeps_bind; [apply table_delete_each|intros _].
  apply keeps_bind; [|intros _; apply keeps_modify; quiet]. destruct (rg_server_route g); [|apply keeps_ret]. apply keeps_ignored, table_file_call. quiet.
Qed.

Lemma table_list c : keeps (table_is c) (list_routes replies).
Proof. apply keeps_list. Qed.

Lemma table_add c r : keeps (table_is c) (manager_add replies r).
Proof. apply table_file_call. quiet. Qed.

Lemma table_put c o : keeps (table_is c) (put_server_route o).
Proof. apply keeps_modify. quiet. Qed.

Lemma table_add_tunnel c r : keeps (table_is c) (add_tunnel_route replies r).
Proof. apply keeps_bind; [apply table_add|intros _; apply keeps_modify; quiet]. Qed.

Lemma table_delete c r : keeps (table_is c) (manager_delete replies r).
Proof. apply table_file_call. quiet. Qed.

Lemma table_new c : keeps (table_is c) (new_manager replies).
Proof. by apply table_file_call. Qed.
#[local] Hint Resolve table_drop_routes table_list table_add table_put table_add_tunnel table_delete table_new : keeps.

Lemma table_guard c g : keeps (table_is c) (modify (fun h => x_put_guard h g)).
Proof. apply keeps_modify. quiet. Qed.
#[local] Hint Resolve table_guard : keeps.

Lemma table_route_install c : keeps (table_is c) (route_install replies server tun_name).
Proof. unfold route_install, or_drop. repeat keeps_step. Qed.

Lemma table_refresh c g : keeps (table_is c) (refresh_server_route replies g).
Proof. unfold refresh_server_route. repeat keeps_step. Qed.

Lemma table_dns c dns : keeps (table_is c) (dns_install replies tun_name dns).
Proof.
  unfold dns_install, or_drop, drop_dns. destruct (negb _); [apply keeps_throw|].
  assert (Hc : forall effect, (forall h, x_nft (effect h) = x_nft h) -> keeps (table_is c) (command replies effect))
    by (intros effect He; apply keeps_command; intros h <-; apply He).
  repeat (keeps_step || (apply Hc; quiet) || apply keeps_ignored).
Qed.

Lemma table_remove_each c l : keeps (table_is c) (remove_each replies l).
Proof. induction l as [|r l IH]; cbn; repeat keeps_step. Qed.

(** The rest of the system does not replace the whole ruleset. *)
Definition own_filters_only (e : happening) : Prop := match e with FlushRuleset _ => False | _ => True end.

Lemma table_loop c es : Forall own_filters_only es -> keeps (table_is c) (loop_runs replies server tun_name es).
Proof.
  induction 1 as [|e es He _ IH]; cbn; [apply keeps_ret|]. apply keeps_bind; [|intros _; exact IH].
  destruct e as [|change loses|change|chains]; cbn; [|apply keeps_modify; quiet|apply keeps_modify; quiet|done].
  apply keeps_bind; [apply keeps_gets|intros [g|]; [|apply keeps_ret]]. apply keeps_ignored, table_refresh.
Qed.

(** A computation that keeps the table, when it returns. *)
Lemma keeps_inv {A} (I : Host -> Prop) (m : Effects.L Host A) h w h' w' r : keeps I m -> I h -> m h w = (h', w', r) -> I h'.
Proof. intros Hm Hh E. specialize (Hm h w Hh). by rewrite E in Hm. Qed.

Lemma or_drop_inv m d h w h' w' : or_drop m d h w = (h', w', Some (Ok tt)) -> m h w = (h', w', Some (Ok tt)).
Proof.
  unfold or_drop. intros E. apply lbind_inv in E as (h1 & w1 & r & E1 & E). unfold catch in E1.
  destruct (m h w) as [[h2 w2] [[[]|e|]|]]; inversion E1; subst; clear E1; [by inversion E|].
  apply lbind_inv in E as (? & ? & ? & _ & E). discriminate.
Qed.

Lemma firewall_inv h w h' w' : table_is [] h -> firewall_install replies server tun_name h w = (h', w', Some (Ok tt)) -> table_is [(server, tun_name)] h'.
Proof.
  unfold firewall_install. destruct (negb _); [done|]. intros Hh E. apply lbind_inv in E as (h1 & w1 & [] & E1 & E).
  assert (H1 : table_is [] h1) by (eapply (keeps_inv (table_is []) _ h w h1 w1); [|exact Hh|exact E1]; apply keeps_remove_table; quiet).
  unfold run_nft_script, command in E. apply lbind_inv in E as (h2 & w2 & r & ->%call_inv & E).
  destruct (r_io r); [done|]. destruct (_ =? 0); [|done]. injection E as <- _. destruct h1. unfold table_is in *. cbn in *. by subst.
Qed.

(** No table of an earlier session is left, or nft takes the first command of the repair. *)
Definition table_removed (h : Host) (w : world) : Prop :=
  x_nft h = [] \/ exists r, replies (pos w) = Some r /\ r_status r = 0.

Lemma repair_table h w h' w' r : table_removed h w -> repair_stale_network replies server h w = (h', w', Some (Ok r)) -> table_is [] h'.
Proof.
  intros Hh E. unfold repair_stale_network in E. apply lbind_inv in E as (h1 & w1 & [] & E1 & E).
  assert (H1 : table_is [] h1).
  { unfold remove_runtime_table, lbind, call in E1. destruct Hh as [Hh|(x & Hx & H0)].
    - destruct (replies (pos w)) as [x|]; [|done]. destruct (r_io x); [done|]. destruct (r_status x =? 0); injection E1 as <- _; [by destruct h|done].
    - rewrite Hx in E1. destruct (r_io x); [done|]. rewrite H0 in E1. injection E1 as <- _. by destruct h. }
  eapply (keeps_inv (table_is []) _ h1 w1 h' w'); [|exact H1|exact E]. unfold remove_stale_server_routes.
  repeat (keeps_step || apply table_remove_each).
Qed.

Lemma start_table fuel h w h' w' : table_removed h w ->
  start_session replies tape config server tun_name fuel ModeFullTunnel h w = (h', w', Some (Ok tt)) -> table_is [(server, tun_name)] h'.
Proof.
  intros Hh E. unfold start_session in E. apply lbind_inv in E as (h1 & w1 & [] & E1 & E).
  pose proof (repair_table h w h1 w1 tt Hh E1) as H1.
  apply lbind_inv in E as (h2 & w2 & session & ->%run_m_inv & E).
  assert (Hstep : forall effect (k : unit -> Effects.L Host unit) h w, (forall h, x_nft (effect h) = x_nft h) -> table_is [] h ->
    lbind (file_call replies effect) k h w = (h', w', Some (Ok tt)) -> exists h0 w0, table_is [] h0 /\ k tt h0 w0 = (h', w', Some (Ok tt))).
  { intros effect k h0 w0 He H0 Ek. apply lbind_inv in Ek as (h3 & w3 & [] & ->%file_call_inv & Ek). exists (effect h0), w3. split; [|done].
    unfold table_is. by rewrite He. }
  do 7 (apply Hstep in E; [|quiet|assumption]; clear H1; destruct E as (? & ? & H1 & E)).
  cbn [install_network] in E. apply lbind_inv in E as (h3 & w3 & [] & E3 & E). apply firewall_inv in E3; [|done].
  apply lbind_inv in E as (h4 & w4 & [] & E4 & E). apply or_drop_inv in E4, E.
  apply (keeps_inv (table_is [(server, tun_name)]) _ _ _ _ _ _ (table_route_install _)) in E4; [|done].
  by apply (keeps_inv (table_is [(server, tun_name)]) _ _ _ _ _ _ (table_dns _ _)) in E.
Qed.

(** [C28] The machine stays closed.  A full-tunnel session has started; no firewall table of an
    earlier session was left, or nft removed it.  Then the loop runs, refreshing routes, and
    the rest of the system changes its routes and its own filters in any way short of
    replacing the whole ruleset (the program's own table with it, which nothing restores).
    What the machine itself sends then leaves it exactly when it is one of the exceptions of
    the policy (the loopback, the tunnel, the server, DHCP renewal and the local IPv6 of the
    link) and the filters of the rest of the system let it pass as well, until the guards are
    dropped; and the same when the process is killed.  (The policy hooks the output of the
    machine: packets it forwards for others are not filtered.) *)
Theorem session_is_fail_closed fuel h w h1 w1 es w2 p :
  table_removed h w ->
  start_session replies tape config server tun_name fuel ModeFullTunnel h w = (h1, w1, Some (Ok tt)) ->
  Forall own_filters_only es ->
  let h2 := (loop_runs replies server tun_name es h1 w2).1.1 in
  (leaves_machine h2 p = true <-> may_leave server tun_name p /\ passes_others h2 p = true) /\
  leaves_machine (process_dies tun_name h2) p = leaves_machine h2 p.
Proof.
  intros Hh E Hes h2. apply (start_table fuel h w h1 w1 Hh) in E.
  pose proof (table_loop _ es Hes h1 w2 E) as H2. fold h2 in H2. unfold table_is in H2. split; [|done].
  unfold leaves_machine. rewrite andb_true_iff, bool_decide_eq_true. unfold output_verdict. rewrite H2. cbn [flat_map app].
  rewrite app_nil_r. by rewrite chain_accepts.
Qed.

(** [C29] Repairing the machine.  However a session in either mode ends, failing at any call or
    killed between any two, and whatever the rest of the system does to its own routes and
    filters meanwhile: when the process is gone and the repair of the next start reports
    success, the firewall table is gone unless nft itself failed; and when that start is for
    the same server, the routes are exactly those of the rest of the system.  When it is for
    another server (another profile), nothing is left besides them but a route to the server
    of the earlier session. *)
Theorem repair_leaves_others fuel mode es h w replies' server' w1 h2 w2 :
  intact server tun_name h ->
  let h1 := (linux_session replies tape config server tun_name fuel mode es h w).1.1 in
  repair_stale_network replies' server' (process_dies tun_name h1) w1 = (h2, w2, Some (Ok tt)) ->
  (server' = server -> x_routes h2 = x_others h1) /\
  (forall r, r ∈ x_routes h2 -> r ∈ x_others h1 \/ is_owned_server_route server r = true) /\
  (x_nft h2 = [] \/ exists r, replies' (pos w1) = Some r /\ r_status r <> 0).
Proof.
  intros Hi h1 E. pose proof (keeps_session replies tape config server tun_name fuel mode es h w Hi) as H1. fold h1 in H1.
  pose proof (intact_dies server tun_name h1 H1) as Hd.
  assert (Hgone : forall r, r ∈ x_routes (process_dies tun_name h1) -> rt_if_name r <> Some tun_name) by (by intros r [Hr _]%list_elem_of_filter).
  destruct (repair_shrinks replies' server' _ _ _ _ E) as [Hsub Hn]. split_and!; [|intros r Hr%Hsub|exact Hn].
  - intros ->. apply repair_inv with (tun_name := tun_name) in E as (Er & Eo & _); [|done|done]. by rewrite Er, Eo.
  - destruct (is_owned_server_route server r) eqn:Eo; [by right|left]. destruct Hd as [Hd _]. change (x_others h1) with (x_others (process_dies tun_name h1)).
    rewrite <- Hd. apply list_elem_of_filter. split; [|done]. unfold foreign, owned. by rewrite Eo, (bool_decide_eq_false_2 _ (Hgone r Hr)).
Qed.

End Claims.

(** ** A laptop *)

Module ToyLinux.
Import Toy ToyHandshake ToyNetwork.

#[local] Instance exact_kernel : RouteKernel := { as_listed r := r; deletes x r := bool_decide (x = r) }.

#[local] Instance exact_laws : RouteKernelLaws exact_kernel.
Proof. split; cbn; intros; rewrite ?bool_decide_eq_true in *; by subst. Qed.

Definition tun : str := ascii_bytes "mousevpn0".
Definition gateway : Route := mkRoute UNSPECIFIED 0 (Some (V4 (ipv4_new 192 168 1 1))) (Some 2) None (Some 600).
(** A firewall of the system that stops telnet. *)
Definition no_telnet (p : OutPacket) : bool := negb (bool_decide (o_udp p = Some (23, 23))).
Definition host : Host := mkHost [gateway] [gateway] [] None None false None None [no_telnet].

(** Every call succeeds, except one. *)
Definition except (k n i : nat) : option reply := if (i =? k)%nat then Some (mkReply 1 (Some ErrorKind.Other) 0 false) else until n i.

(** Wi-Fi gives way to Ethernet. *)
Definition ethernet : Route := mkRoute UNSPECIFIED 0 (Some (V4 (ipv4_new 10 0 0 1))) (Some 3) None (Some 100).
Definition roam : list happening := [Others (fun _ => [ethernet]) false; RefreshRoutes].

Lemma host_intact : intact server tun host.
Proof. by vm_compute. Qed.

#[local] Abbreviation started := (start_session (until 100) (ToyHandshake.tape false) config server tun 21 ModeFullTunnel host before).
#[local] Abbreviation killed n := ((linux_session (until n) (ToyHandshake.tape false) config server tun 21 ModeFullTunnel roam host before).1.1).

Lemma session_starts : exists h w, started = (h, w, Some (Ok tt)).
Proof. eexists _, _. vm_compute. reflexivity. Qed.

(** The system closes another port meanwhile; a web request by the Ethernet port does not leave. *)
Definition busy : list happening := roam ++ [OthersFilter (fun chains => (fun p => negb (bool_decide (o_udp p = Some (53, 53)))) :: chains)].

Lemma session_is_fail_closed_witness :
  exists h w, started = (h, w, Some (Ok tt)) /\
    leaves_machine (loop_runs (until 100) server tun busy h w).1.1 (mkOut (ascii_bytes "eth0") (V4 (ipv4_new 1 1 1 1)) None) = false.
Proof.
  destruct session_starts as (h & w & E). exists h, w. split; [exact E|]. apply not_true_is_false. intros Ha.
  assert (Hes : Forall own_filters_only busy) by (repeat constructor).
  apply (session_is_fail_closed (until 100) (ToyHandshake.tape false) config server tun 21 host before h w busy w _ (or_introl eq_refl) E Hes) in Ha.
  destruct Ha as [[Ha|[Ha|[Ha|Ha]]] _]; vm_compute in Ha; discriminate Ha.
Defined.

(** When the rest of the system replaces the whole ruleset, the loop does not notice, and
    the same request leaves by the physical port. *)
Example replaced_ruleset_opens :
  exists h w, started = (h, w, Some (Ok tt)) /\
    leaves_machine (loop_runs (until 100) server tun (FlushRuleset [no_telnet] :: roam) h w).1.1 (mkOut (ascii_bytes "eth0") (V4 (ipv4_new 1 1 1 1)) None) = true.
Proof. eexists _, _. split; vm_compute; reflexivity. Qed.

(** The session of a killed process leaves a server route and the table; repair removes both. *)
Lemma killed_leftovers :
  x_nft (killed 37) = [(server, tun)] /\ len (x_routes (process_dies tun (killed 37))) = 2 /\
  exists h w, repair_stale_network (until 100) server (process_dies tun (killed 37)) before = (h, w, Some (Ok tt)) /\ x_nft h = [].
Proof. split; [vm_compute; reflexivity|]. split; [vm_compute; reflexivity|]. eexists _, _. split; vm_compute; reflexivity. Qed.

Lemma repair_leaves_others_witness :
  exists h w, repair_stale_network (until 100) server (process_dies tun (killed 37)) before = (h, w, Some (Ok tt)) /\
    x_routes h = x_others (killed 37).
Proof.
  destruct killed_leftovers as (_ & _ & h & w & E & _). exists h, w. split; [exact E|].
  pose proof (repair_leaves_others (until 37) (ToyHandshake.tape false) config server tun 21 ModeFullTunnel roam host before (until 100) server before h w host_intact) as H.
  cbv zeta in H. exact (proj1 (H E) eq_refl).
Defined.

(** The start of a session with another server leaves the route of the killed one. *)
Example other_profile_leaves_route :
  exists h w, repair_stale_network (until 100) (ipv4_new 203 0 113 9) (process_dies tun (killed 37)) before = (h, w, Some (Ok tt)) /\
    existsb (is_owned_server_route server) (x_routes h) = true.
Proof. eexists _, _. split; vm_compute; reflexivity. Qed.

(** A deletion that fails makes the guard forget its route: the session ends without an
    error, and the route to the server by the old gateway stays. *)
Lemma failed_deletion_is_forgotten :
  let '(h, _, r) := linux_session (except 35 100) (ToyHandshake.tape false) config server tun 21 ModeFullTunnel roam host before in
  r = Some (Ok tt) /\ existsb (is_owned_server_route server) (x_routes h) = true /\ g_routes h = None.
Proof. vm_compute. done. Qed.

(** The policy rule of a killed proxy makes the next one fail. *)
Lemma proxy_rule_survives :
  let h := (linux_session (until 27) (ToyHandshake.tape false) config server tun 21 ModeProxy [] host before).1.1 in
  x_rule (process_dies tun h) = true /\
  (linux_session (until 100) (ToyHandshake.tape false) config server tun 21 ModeProxy [] (process_dies tun h) before).2 =
    Some (Err (ClientError.Io (mkIoError ErrorKind.Other None))).
Proof. vm_compute. done. Qed.

End ToyLinux.
