(* ===== verification/Report.v ===== *)
(** * The traffic report

    crates/admin-api/src/traffic.rs: [report_at] loads the hourly rows of the table, adds
    what the counters still hold ([merge_pending], Traffic.v), and [build_report] sums
    them by hour, by device and over the last hour, day and week, with saturating
    additions.

    The table and the counters are read at one moment; in the source the counters are read
    after the query, and a flush or traffic in between would be seen by one of them only.
    A query SQLite refuses ends the call with its error and leaves everything as it was; the
    model is of the calls that answer.  The order of devices with equal totals and names is that of the map; nothing depends
    on it.

    The theorem: the report is the exact sums, capped at the largest u64. *)

From stdpp Require Import sorting.
From S2P Require Import Prelude Traffic.

Record TrafficTotals := mkTotals { tt_upload : Z; tt_download : Z }.
Record TrafficPoint := mkPoint { tp_hour : Z; tp_totals : TrafficTotals }.
Record DeviceTrafficSummary := mkSummary { ds_public_key : str; ds_name : str; ds_totals : TrafficTotals }.

Record TrafficReport := mkReport {
  generated_at : Z;
  selected_hours : Z;
  total_hour : TrafficTotals;
  total_day : TrafficTotals;
  total_week : TrafficTotals;
  hourly : list TrafficPoint;
  report_devices : list DeviceTrafficSummary;
}.

Definition totals_default : TrafficTotals := mkTotals 0 0.

(** [TrafficTotals::add] *)
Definition totals_add (t other : TrafficTotals) : TrafficTotals :=
  mkTotals (sat_add64 (tt_upload t) (tt_upload other)) (sat_add64 (tt_download t) (tt_download other)).

(** [TrafficPoint::add] *)
Definition point_add (p : TrafficPoint) (t : TrafficTotals) : TrafficPoint := mkPoint (tp_hour p) (totals_add (tp_totals p) t).

Definition total_bytes (d : DeviceTrafficSummary) : Z := sat_add64 (tt_upload (ds_totals d)) (tt_download (ds_totals d)).

(** [str::cmp] *)
Fixpoint str_le (a b : str) : bool :=
  match a, b with
  | [], _ => true
  | _ :: _, [] => false
  | x :: a, y :: b => (x <? y) || ((x =? y) && str_le a b)
  end.

(** The greatest total first, then by name. *)
Definition by_total (a b : DeviceTrafficSummary) : Prop :=
  total_bytes b < total_bytes a \/ (total_bytes b = total_bytes a /\ str_le (ds_name a) (ds_name b) = true).

#[global] Instance by_total_dec : RelDecision by_total.
Proof. intros a b. unfold by_total. apply _. Defined.

(** What the loop of [build_report] accumulates. *)
Record Sums := mkSums {
  s_hour : TrafficTotals;
  s_day : TrafficTotals;
  s_week : TrafficTotals;
  s_hourly : list TrafficPoint;
  s_devices : gmap (list Z) DeviceTrafficSummary;
}.

Definition bucket_totals (b : TrafficBucket) : TrafficTotals := mkTotals (tb_upload b) (tb_download b).

Definition device_add (b : TrafficBucket) (d : option DeviceTrafficSummary) : option DeviceTrafficSummary :=
  let d := default (mkSummary (tb_public_key b) (tb_name b) totals_default) d in
  Some (mkSummary (ds_public_key d) (tb_name b) (totals_add (ds_totals d) (bucket_totals b))).

Definition sum_bucket (current_hour series_start : Z) (s : Sums) (b : TrafficBucket) : Sums :=
  let age := sat_sub current_hour (tb_hour b) in
  if current_hour <? tb_hour b then s
  else
    let totals := bucket_totals b in
    let within h t := if age <? h then totals_add t totals else t in
    let '(points, devices) :=
      if series_start <=? tb_hour b
      then (alter (fun p => point_add p totals) (Z.to_nat (tb_hour b - series_start)) (s_hourly s),
            partial_alter (device_add b) (tb_public_key b) (s_devices s))
      else (s_hourly s, s_devices s) in
    mkSums (within 1 (s_hour s)) (within 24 (s_day s)) (within 168 (s_week s)) points devices.

Definition empty_points (series_start current_hour : Z) : list TrafficPoint :=
  map (fun i => mkPoint ((series_start + Z.of_nat i) * SECONDS_PER_HOUR) totals_default) (seq 0 (Z.to_nat (current_hour - series_start + 1))).

Definition build_report (hours now current_hour series_start : Z) (buckets : list TrafficBucket) : TrafficReport :=
  let s := fold_left (sum_bucket current_hour series_start) buckets
             (mkSums totals_default totals_default totals_default (empty_points series_start current_hour) ∅) in
  mkReport now hours (s_hour s) (s_day s) (s_week s) (s_hourly s) (merge_sort by_total (map snd (map_to_list (s_devices s)))).

Definition clamp_hours (hours : Z) : Z := Z.max 1 (Z.min hours MAX_QUERY_HOURS).

Definition report_at (s : TrafficStore) (hours now : Z) : TrafficReport :=
  let hours := clamp_hours hours in
  let current_hour := now / SECONDS_PER_HOUR in
  let series_start := sat_sub current_hour (hours - 1) in
  let week_start := sat_sub current_hour 167 in
  let buckets := merge_pending (load_buckets s (Z.min series_start week_start) current_hour) current_hour (peek_pending s) in
  build_report hours now current_hour series_start buckets.

(** ** Exact sums *)

Definition side (up : bool) (t : TrafficTotals) : Z := sel up (tt_upload t) (tt_download t).
Definition bucket_side (up : bool) (b : TrafficBucket) : Z := sel up (tb_upload b) (tb_download b).

(** The bytes of the buckets that satisfy [Q]. *)
Definition bytes_where (up : bool) (Q : TrafficBucket -> bool) (l : list TrafficBucket) : Z :=
  fold_right (fun b n => (if Q b then bucket_side up b else 0) + n) 0 l.

Lemma bytes_where_cons up Q b l : bytes_where up Q (b :: l) = (if Q b then bucket_side up b else 0) + bytes_where up Q l.
Proof. done. Qed.

Definition cap (n : Z) : Z := Z.min n u64_max.

Definition nonneg (l : list TrafficBucket) : Prop := forall b, b ∈ l -> 0 <= tb_upload b /\ 0 <= tb_download b.

Lemma bytes_where_nonneg up Q l : nonneg l -> 0 <= bytes_where up Q l.
Proof.
  intros H. induction l as [|b l IH]; cbn; [done|]. specialize (IH ltac:(intros x Hx; apply H; by right)).
  destruct (H b ltac:(by left)). unfold bytes_where, bucket_side, sel in *. destruct (Q b), up; lia.
Qed.

Lemma side_add up t b : side up (totals_add t (bucket_totals b)) = cap (side up t + bucket_side up b).
Proof. by destruct up. Qed.

(** Saturating additions one by one are one saturating addition. *)
Lemma cap_add a b c : 0 <= b -> 0 <= c -> cap (cap (a + b) + c) = cap (a + (b + c)).
Proof. unfold cap, u64_max. lia. Qed.

(** A component of the sums that adds the buckets that satisfy [Q], as long as [J] holds. *)
Lemma sums_component up (Q : TrafficBucket -> bool) (J : Sums -> Prop) (f : Sums -> TrafficBucket -> Sums) (get : Sums -> TrafficTotals) l s n :
  (forall s b, J s -> J (f s b)) ->
  (forall s b, J s -> side up (get (f s b)) = if Q b then cap (side up (get s) + bucket_side up b) else side up (get s)) ->
  nonneg l -> J s -> side up (get s) = cap n ->
  side up (get (fold_left f l s)) = cap (n + bytes_where up Q l).
Proof.
  intros HJ Hf. revert s n. induction l as [|b l IH]; intros s n Hl Hj Hs; [by rewrite Z.add_0_r|]. rewrite bytes_where_cons. cbn [fold_left].
  assert (Hl' : nonneg l) by (intros x Hx; apply Hl; by right). destruct (Hl b ltac:(by left)) as [Hu Hd].
  assert (Hb : 0 <= bucket_side up b) by (destruct up; done). specialize (Hf s b Hj) as Hfb.
  destruct (Q b) eqn:E.
  - rewrite (IH _ (n + bucket_side up b)); [f_equal; lia|done|by apply HJ|]. rewrite Hfb, Hs. unfold cap, u64_max. lia.
  - rewrite (IH _ n); [done..|by apply HJ|congruence].
Qed.

(** ** The hours and the devices *)

Section Build.
Context (current_hour series_start : Z).

Abbreviation sum := (sum_bucket current_hour series_start) (only parsing).
Definition start_sums : Sums := mkSums totals_default totals_default totals_default (empty_points series_start current_hour) ∅.

(** The buckets of the last [h] hours. *)
Definition recent (h : Z) (b : TrafficBucket) : bool := (tb_hour b <=? current_hour) && (sat_sub current_hour (tb_hour b) <? h).

(** Those of the series. *)
Definition in_series (b : TrafficBucket) : bool := (tb_hour b <=? current_hour) && (series_start <=? tb_hour b).

Lemma totals_exact up (h : Z) (get : Sums -> TrafficTotals) l :
  (forall s b, get (sum s b) = if recent h b then totals_add (get s) (bucket_totals b) else get s) -> get start_sums = totals_default ->
  nonneg l -> side up (get (fold_left sum l start_sums)) = cap (bytes_where up (recent h) l).
Proof.
  intros Hf Hs Hl. rewrite <- (Z.add_0_l (bytes_where _ _ _)). apply (sums_component up (recent h) (fun _ => True)); [done| |done..|].
  - intros s b _. rewrite Hf. destruct (recent h b); [apply side_add|done].
  - rewrite Hs. by destruct up.
Qed.

Lemma recent_step h s b :
  (if current_hour <? tb_hour b then s else (if sat_sub current_hour (tb_hour b) <? h then totals_add s (bucket_totals b) else s)) =
  if recent h b then totals_add s (bucket_totals b) else s.
Proof. unfold recent. rewrite (Z.leb_antisym current_hour (tb_hour b)). by destruct (current_hour <? tb_hour b). Qed.

Lemma sum_totals s b :
  s_hour (sum s b) = (if recent 1 b then totals_add (s_hour s) (bucket_totals b) else s_hour s) /\
  s_day (sum s b) = (if recent 24 b then totals_add (s_day s) (bucket_totals b) else s_day s) /\
  s_week (sum s b) = (if recent 168 b then totals_add (s_week s) (bucket_totals b) else s_week s).
Proof.
  rewrite <- !recent_step. unfold sum_bucket. destruct (current_hour <? tb_hour b); [done|]. by destruct (series_start <=? tb_hour b).
Qed.

(** Points keep their labels. *)
Definition labelled (s : Sums) : Prop := map tp_hour (s_hourly s) = map tp_hour (empty_points series_start current_hour).

Lemma sum_hourly s b : s_hourly (sum s b) =
  if in_series b then alter (fun p => point_add p (bucket_totals b)) (Z.to_nat (tb_hour b - series_start)) (s_hourly s) else s_hourly s.
Proof.
  unfold sum_bucket, in_series. rewrite (Z.leb_antisym current_hour (tb_hour b)). destruct (current_hour <? tb_hour b); [done|]. by destruct (series_start <=? tb_hour b).
Qed.

Lemma labelled_step s b : labelled s -> labelled (sum s b).
Proof.
  unfold labelled. intros <-. rewrite sum_hourly. destruct (in_series b); [|done].
  apply list_eq. intros i. rewrite !list_lookup_fmap. destruct (decide (Z.to_nat (tb_hour b - series_start) = i)) as [<-|Hi].
  - rewrite list_lookup_alter_eq. by destruct (s_hourly s !! _).
  - by rewrite list_lookup_alter_ne.
Qed.

Definition point_totals (i : nat) (s : Sums) : TrafficTotals := match s_hourly s !! i with Some p => tp_totals p | None => totals_default end.

Lemma hourly_exact up i l : (i < length (empty_points series_start current_hour))%nat -> nonneg l ->
  side up (point_totals i (fold_left sum l start_sums)) =
  cap (bytes_where up (fun b => in_series b && (tb_hour b =? series_start + Z.of_nat i)) l).
Proof.
  intros Hi Hl. rewrite <- (Z.add_0_l (bytes_where _ _ _)).
  apply (sums_component up _ labelled); [apply labelled_step| |done|done|].
  - intros s b Hs. unfold point_totals. rewrite sum_hourly.
    assert (Hlen : length (s_hourly s) = length (empty_points series_start current_hour)) by (rewrite <- !(length_map tp_hour); by rewrite Hs).
    destruct (in_series b) eqn:E; [|done]. unfold in_series in E. cbn [andb].
    destruct (Z.eqb_spec (tb_hour b) (series_start + Z.of_nat i)) as [Hb|Hb].
    + replace (Z.to_nat (tb_hour b - series_start)) with i by lia. rewrite list_lookup_alter_eq.
      destruct (s_hourly s !! i) as [p|] eqn:Ep; [apply side_add|]. apply lookup_ge_None in Ep. lia.
    + rewrite list_lookup_alter_ne; [done|]. lia.
  - unfold point_totals, start_sums. cbn [s_hourly]. destruct (empty_points _ _ !! i) as [p|] eqn:Ep; [|by destruct up].
    unfold empty_points in Ep. apply list_lookup_fmap_Some in Ep as (k & -> & _). by destruct up.
Qed.

(** Devices *)
Definition of_device (k : str) (b : TrafficBucket) : bool := in_series b && bool_decide (tb_public_key b = k).

Lemma sum_devices s b : s_devices (sum s b) = if in_series b then partial_alter (device_add b) (tb_public_key b) (s_devices s) else s_devices s.
Proof.
  unfold sum_bucket, in_series. rewrite (Z.leb_antisym current_hour (tb_hour b)). destruct (current_hour <? tb_hour b); [done|]. by destruct (series_start <=? tb_hour b).
Qed.

Definition device_totals (k : str) (s : Sums) : TrafficTotals := match s_devices s !! k with Some d => ds_totals d | None => totals_default end.

Lemma devices_exact up k l : nonneg l ->
  side up (device_totals k (fold_left sum l start_sums)) = cap (bytes_where up (of_device k) l).
Proof.
  intros Hl. rewrite <- (Z.add_0_l (bytes_where _ _ _)). apply (sums_component up _ (fun _ => True)); [done| |done|done|by destruct up].
  intros s b _. unfold device_totals, of_device. rewrite sum_devices. destruct (in_series b); [|done]. cbn [andb].
  case_bool_decide as E; [subst; rewrite lookup_partial_alter_eq|by rewrite lookup_partial_alter_ne].
  unfold device_add. destruct (s_devices s !! tb_public_key b); cbn [ds_totals default]; by rewrite side_add.
Qed.

(** A device is listed under its own key. *)
Lemma devices_keyed l k d : s_devices (fold_left sum l start_sums) !! k = Some d -> ds_public_key d = k.
Proof.
  revert k d. induction l as [|b l IH] using rev_ind; intros k d; [cbn; by rewrite lookup_empty|].
  rewrite fold_left_app. cbn [fold_left]. rewrite sum_devices. destruct (in_series b); [|apply IH].
  destruct (decide (tb_public_key b = k)) as [<-|Hne]; [|rewrite lookup_partial_alter_ne by done; apply IH].
  rewrite lookup_partial_alter_eq. unfold device_add. intros [= <-]. destruct (_ !! _) as [d'|] eqn:E; [by apply IH in E|done].
Qed.

End Build.

(** ** The table and the counters *)

(** Selections by hour and key. *)
Definition by_key (q : Z -> str -> bool) (b : TrafficBucket) : bool := q (tb_hour b) (tb_public_key b).

(** The bytes of the selected rows of the table, and of the selected counters in [hour]. *)
Definition stored_where (up : bool) (q : Z -> str -> bool) (rows : list ((Z * list Z) * row)) : Z :=
  fold_right (fun x n => (if q x.1.1 x.1.2 then stored_row up x.2 else 0) + n) 0 rows.

Definition pending_where (up : bool) (q : Z -> str -> bool) (hour : Z) (pending : list PendingTraffic) : Z :=
  fold_right (fun p n => (if q hour (pt_public_key p) then pended up p else 0) + n) 0 pending.

Definition items_nonneg (pending : list PendingTraffic) : Prop := forall p, p ∈ pending -> 0 <= pt_upload p /\ 0 <= pt_download p.

Lemma pending_where_nonneg up q hour pending : items_nonneg pending -> 0 <= pending_where up q hour pending.
Proof.
  unfold pending_where, pended, sel. induction pending as [|p pending IH]; intros Hp; cbn [fold_right]; [done|].
  specialize (IH ltac:(intros x Hx; apply Hp; by right)). destruct (Hp p ltac:(by left)).
  destruct (q hour (pt_public_key p)), up; lia.
Qed.

Lemma merge_item_nonneg hour item l : 0 <= pt_upload item /\ 0 <= pt_download item -> nonneg l -> nonneg (merge_item hour item l).
Proof.
  intros Hi. induction l as [|b l IH]; intros Hl; cbn; [intros x Hx%list_elem_of_singleton; by subst|].
  assert (Hl' : nonneg l) by (intros x Hx; apply Hl; by right). destruct (Hl b ltac:(by left)).
  destruct (_ && _); intros x [->|Hx]%elem_of_cons; [unfold sat_add64, u64_max; cbn; lia|by apply Hl'|by apply Hl; left|by apply IH].
Qed.

Lemma merge_item_bytes up q hour item l x : 0 <= x -> 0 <= pt_upload item /\ 0 <= pt_download item -> nonneg l ->
  cap (x + bytes_where up (by_key q) (merge_item hour item l)) =
  cap (x + (bytes_where up (by_key q) l + if q hour (pt_public_key item) then pended up item else 0)).
Proof.
  intros Hx Hi. revert x Hx. induction l as [|b l IH]; intros x Hx Hl; [cbn; unfold by_key; cbn; f_equal; destruct (q _ _), up; cbn; lia|].
  assert (Hl' : nonneg l) by (intros y Hy; apply Hl; by right). destruct (Hl b ltac:(by left)) as [Hu Hd].
  pose proof (bytes_where_nonneg up (by_key q) l Hl') as Hn. cbn [merge_item]. destruct (_ && _) eqn:E; rewrite !bytes_where_cons.
  - apply andb_true_iff in E as [<-%Z.eqb_eq Hk%bool_decide_eq_true]. rewrite <- Hk.
    set (rest := bytes_where _ _ l) in *. clearbody rest. unfold by_key. cbn [tb_hour tb_public_key]. destruct (q (tb_hour b) (tb_public_key b)); [|by rewrite Z.add_0_r]. unfold bucket_side, pended, sel, sat_add64, cap, u64_max in *. destruct up; cbn [tb_upload tb_download]; lia.
  - assert (Hb : 0 <= (if by_key q b then bucket_side up b else 0)) by (unfold bucket_side, sel; destruct (by_key q b), up; lia).
    rewrite Z.add_assoc, IH by (done || lia). f_equal. lia.
Qed.

Lemma merge_pending_bytes up q hour pending l : items_nonneg pending -> nonneg l ->
  nonneg (merge_pending l hour pending) /\
  cap (bytes_where up (by_key q) (merge_pending l hour pending)) = cap (bytes_where up (by_key q) l + pending_where up q hour pending).
Proof.
  revert l. induction pending as [|p pending IH]; intros l Hp Hl; [cbn; by rewrite Z.add_0_r|].
  assert (Hpp : 0 <= pt_upload p /\ 0 <= pt_download p) by (apply Hp; by left).
  pose proof (merge_item_nonneg hour p l Hpp Hl) as Hm. destruct (IH (merge_item hour p l)) as [H1 H2]; [intros x Hx; apply Hp; by right|done|].
  split; [done|]. cbn [merge_pending fold_left] in *. unfold merge_pending in H2. rewrite H2.
  assert (Hpn : 0 <= pending_where up q hour pending) by (apply pending_where_nonneg; intros x Hx; apply Hp; by right).
  rewrite Z.add_comm, (merge_item_bytes up q hour p l) by done. f_equal. unfold pending_where. cbn [fold_right]. lia.
Qed.

(** The rows SQLite accepts. *)
Definition table_ok (db : gmap (Z * list Z) row) : Prop :=
  forall hour k r, db !! (hour, k) = Some r -> 0 <= hour /\ 0 <= row_upload r /\ 0 <= row_download r.

Lemma bytes_where_perm up Q l l' : l ≡ₚ l' -> bytes_where up Q l = bytes_where up Q l'.
Proof. induction 1; rewrite ?bytes_where_cons; lia. Qed.

Lemma stored_where_ext up q q' rows : (forall x, x ∈ rows -> q x.1.1 x.1.2 = q' x.1.1 x.1.2) -> stored_where up q rows = stored_where up q' rows.
Proof.
  induction rows as [|x rows IH]; intros H; [done|]. cbn. rewrite (H x) by (by left). f_equal. apply IH. intros y Hy. apply H. by right.
Qed.

Lemma load_buckets_bytes up q s lo hi : table_ok (database s) -> 0 <= lo <= i64_max -> 0 <= hi <= i64_max ->
  nonneg (load_buckets s lo hi) /\
  bytes_where up (by_key q) (load_buckets s lo hi) =
    stored_where up (fun h k => (lo <=? h) && (h <=? hi) && q h k) (map_to_list (database s)).
Proof.
  intros Hok Hlo Hhi. unfold load_buckets, to_sql_integer. rewrite !Z.min_l by lia. split.
  - intros b Hb. apply list_elem_of_fmap in Hb as ([[h k] r] & -> & _). cbn. unfold from_sql_integer.
    destruct (Z.ltb_spec (row_upload r) 0), (Z.ltb_spec (row_download r) 0); lia.
  - rewrite (bytes_where_perm up _ _ _ (fmap_Permutation _ _ _ (merge_sort_Permutation by_hour _))).
    assert (Hrows : forall x, x ∈ map_to_list (database s) -> 0 <= x.1.1 /\ 0 <= row_upload x.2 /\ 0 <= row_download x.2)
      by (intros [[h k] r] Hx%elem_of_map_to_list; by apply (Hok h k r)).
    induction (map_to_list (database s)) as [|[[h k] r] rows IH]; [done|].
    destruct (Hrows ((h, k), r) ltac:(by left)) as (Hh & Hu & Hd). cbn in Hh, Hu, Hd.
    specialize (IH ltac:(intros x Hx; apply Hrows; by right)). cbn [stored_where fold_right fst snd].
    rewrite filter_cons. destruct (decide (lo <= h <= hi)) as [Hin|Hout].
    + cbn [fmap list_fmap]. rewrite bytes_where_cons. cbn. unfold by_key at 1. cbn.
      rewrite (proj2 (Z.leb_le lo h)), (proj2 (Z.leb_le h hi)) by lia. cbn [andb]. unfold from_sql_integer at 1.
      rewrite (proj2 (Z.ltb_ge h 0)) by lia. unfold stored_where in IH. rewrite <- IH. unfold bucket_side, stored_row, from_sql_integer. cbn.
      rewrite (proj2 (Z.ltb_ge (row_upload r) 0)), (proj2 (Z.ltb_ge (row_download r) 0)) by lia. done.
    + replace ((lo <=? h) && (h <=? hi)) with false by (symmetry; apply andb_false_iff; rewrite !Z.leb_gt; lia). cbn [andb]. exact IH.
Qed.

(** ** The report *)

Section Exact.
Context (up : bool) (s : TrafficStore) (hours now : Z).

Abbreviation current := (now / SECONDS_PER_HOUR) (only parsing).
Abbreviation start := (sat_sub (now / SECONDS_PER_HOUR) (clamp_hours hours - 1)) (only parsing).

(** What the table and the counters hold of the selected hours and devices: the counters
    belong to the current hour. *)
Definition counted_bytes (q : Z -> str -> bool) : Z :=
  stored_where up q (map_to_list (database s)) + pending_where up q (now / SECONDS_PER_HOUR) (pending_with s).

Definition last_hours (h : Z) (hour : Z) (_ : str) : bool := (hour <=? current) && (current - hour <? h).
Definition series_hours (hour : Z) : bool := (start <=? hour) && (hour <=? current).

Hypothesis wf : store_wf s.
Hypothesis ok : table_ok (database s).
Hypothesis clock : 0 <= now < 2 ^ 64.

Definition merged : list TrafficBucket :=
  merge_pending (load_buckets s (Z.min start (sat_sub current 167)) current) current (peek_pending s).

Lemma pending_items_nonneg : items_nonneg (pending_with s).
Proof. intros p Hp. pose proof (pending_nonneg s wf) as H. cbn in H. rewrite Forall_forall in H. by apply H, list_elem_of_In. Qed.

Lemma current_range : 0 <= current <= i64_max.
Proof.
  unfold SECONDS_PER_HOUR, i64_max. split; [apply Z.div_pos; lia|].
  assert (now / 3600 < 2 ^ 63) by (apply Z.div_lt_upper_bound; lia). lia.
Qed.

Lemma sat_sub_range a b : 0 <= a -> 0 <= b -> 0 <= sat_sub a b <= a.
Proof. unfold sat_sub. lia. Qed.

Lemma clamp_range : 1 <= clamp_hours hours <= MAX_QUERY_HOURS.
Proof. unfold clamp_hours, MAX_QUERY_HOURS. lia. Qed.

(** What is loaded covers every selection of recent hours. *)
Lemma merged_bytes q :
  (forall h k, 0 <= h -> q h k = true -> Z.min start (sat_sub current 167) <= h <= current) ->
  nonneg merged /\ cap (bytes_where up (by_key q) merged) = cap (counted_bytes q).
Proof.
  intros Hq. pose proof current_range as Hc. pose proof clamp_range as Hk.
  pose proof (sat_sub_range current (clamp_hours hours - 1) ltac:(lia) ltac:(lia)). pose proof (sat_sub_range current 167 ltac:(lia) ltac:(lia)).
  destruct (load_buckets_bytes up q s (Z.min start (sat_sub current 167)) current ok ltac:(lia) ltac:(lia)) as [Hn Hl].
  destruct (merge_pending_bytes up q current (peek_pending s) _ pending_items_nonneg Hn) as [H1 H2]. split; [exact H1|].
  unfold merged. rewrite H2, Hl. unfold counted_bytes, peek_pending. do 2 f_equal. apply stored_where_ext.
  intros [[h k] r] Hx%elem_of_map_to_list. cbn. destruct (ok h k r Hx) as (Hh & _). destruct (q h k) eqn:E; [|by rewrite andb_false_r].
  specialize (Hq h k Hh E). rewrite andb_true_r. apply andb_true_iff. rewrite !Z.leb_le. lia.
Qed.

Lemma bytes_where_ext Q Q' l : (forall b, b ∈ l -> Q b = Q' b) -> bytes_where up Q l = bytes_where up Q' l.
Proof.
  induction l as [|b l IH]; intros H; [done|]. rewrite !bytes_where_cons, (H b) by (by left). f_equal. apply IH. intros x Hx. apply H. by right.
Qed.

Lemma recent_by_key h l : bytes_where up (recent current h) l = bytes_where up (by_key (last_hours h)) l.
Proof.
  apply bytes_where_ext. intros b _. unfold recent, by_key, last_hours, sat_sub. destruct (Z.leb_spec (tb_hour b) current); [|done]. cbn [andb].
  by rewrite Z.max_r by lia.
Qed.

Lemma last_hours_covered h hour k : h <= 168 -> 0 <= hour -> last_hours h hour k = true -> Z.min start (sat_sub current 167) <= hour <= current.
Proof. unfold last_hours, sat_sub. intros Hh H0 [H1%Z.leb_le H2%Z.ltb_lt]%andb_true_iff. lia. Qed.

Lemma series_covered hour : 0 <= hour -> series_hours hour = true -> Z.min start (sat_sub current 167) <= hour <= current.
Proof. unfold series_hours. intros H0 [H1%Z.leb_le H2%Z.leb_le]%andb_true_iff. lia. Qed.

Lemma in_series_hours b : in_series current start b = series_hours (tb_hour b).
Proof. unfold in_series, series_hours. apply andb_comm. Qed.

Lemma empty_points_lookup i p : empty_points start current !! i = Some p ->
  tp_hour p = (start + Z.of_nat i) * SECONDS_PER_HOUR /\ (start + Z.of_nat i <= current).
Proof.
  unfold empty_points. intros (k & -> & Hk)%list_lookup_fmap_Some. apply lookup_seq in Hk as [-> Hi]. cbn. split; [done|]. lia.
Qed.

(** What [build_report] makes of the merged buckets. *)
Definition final : Sums := fold_left (sum_bucket current start) merged (start_sums current start).

Lemma merged_nonneg : nonneg merged.
Proof. by apply (merged_bytes (fun _ _ => false)). Qed.

Lemma final_total h (get : Sums -> TrafficTotals) : h <= 168 ->
  (forall s b, get (sum_bucket current start s b) = if recent current h b then totals_add (get s) (bucket_totals b) else get s) ->
  get (start_sums current start) = totals_default -> side up (get final) = cap (counted_bytes (last_hours h)).
Proof.
  intros Hh Hf Hs. unfold final. rewrite (totals_exact current start up h get merged Hf Hs merged_nonneg), recent_by_key.
  apply merged_bytes. intros hour k H0. by apply last_hours_covered.
Qed.

Lemma final_labelled : labelled current start final.
Proof.
  unfold final. assert (H0 : labelled current start (start_sums current start)) by done. revert H0. generalize (start_sums current start).
  induction merged as [|b l IH]; intros x Hx; [done|]. apply IH. by apply labelled_step.
Qed.

Lemma final_length : length (s_hourly final) = length (empty_points start current).
Proof. rewrite <- (length_map tp_hour (s_hourly final)), <- (length_map tp_hour (empty_points start current)). by rewrite final_labelled. Qed.

Lemma final_point i p : s_hourly final !! i = Some p ->
  tp_hour p = (start + Z.of_nat i) * SECONDS_PER_HOUR /\ side up (tp_totals p) = cap (counted_bytes (fun hour _ => hour =? start + Z.of_nat i)).
Proof.
  intros Hp. assert (Hi : (i < length (empty_points start current))%nat) by (rewrite <- final_length; by apply lookup_lt_Some in Hp).
  destruct (lookup_lt_is_Some_2 _ _ Hi) as [p0 Hp0]. destruct (empty_points_lookup i p0 Hp0) as [Hl Hle].
  assert (Hh : tp_hour p = tp_hour p0).
  { assert (E : map tp_hour (s_hourly final) !! i = map tp_hour (empty_points start current) !! i) by by rewrite final_labelled.
    rewrite !list_lookup_fmap, Hp, Hp0 in E. by injection E. }
  split; [by rewrite Hh|]. pose proof (hourly_exact current start up i merged Hi merged_nonneg) as Hx. fold final in Hx.
  unfold point_totals in Hx. rewrite Hp in Hx. pose proof current_range. pose proof clamp_range.
  rewrite Hx, (bytes_where_ext _ (by_key (fun hour _ => hour =? start + Z.of_nat i))).
  - apply merged_bytes. intros hour k H0' Hq. apply Z.eqb_eq in Hq as ->. lia.
  - intros b _. unfold in_series, by_key. destruct (Z.eqb_spec (tb_hour b) (start + Z.of_nat i)) as [->|]; [|by rewrite andb_false_r].
    rewrite andb_true_r. apply andb_true_iff. rewrite !Z.leb_le. lia.
Qed.

Lemma device_bytes k :
  cap (bytes_where up (of_device current start k) merged) = cap (counted_bytes (fun hour k' => series_hours hour && bool_decide (k' = k))).
Proof.
  rewrite (bytes_where_ext _ (by_key (fun hour k' => series_hours hour && bool_decide (k' = k)))).
  - apply merged_bytes. intros hour k' H0 [H1 _]%andb_true_iff. by apply series_covered.
  - intros b _. unfold of_device. by rewrite in_series_hours.
Qed.

Lemma final_device k d : s_devices final !! k = Some d ->
  ds_public_key d = k /\
  side up (ds_totals d) = cap (counted_bytes (fun hour k => series_hours hour && bool_decide (k = ds_public_key d))).
Proof.
  intros Hd. pose proof (devices_keyed current start merged k d Hd) as Hk. split; [done|]. subst k.
  pose proof (devices_exact current start up (ds_public_key d) merged merged_nonneg) as Hx. fold final in Hx. unfold device_totals in Hx.
  rewrite Hd in Hx. rewrite Hx. apply device_bytes.
Qed.

(** A device with traffic in the series is listed. *)
Lemma final_listed k : 0 < counted_bytes (fun hour k' => series_hours hour && bool_decide (k' = k)) -> exists d, s_devices final !! k = Some d.
Proof.
  intros Hk. pose proof (devices_exact current start up k merged merged_nonneg) as Hx. fold final in Hx. rewrite device_bytes in Hx.
  unfold device_totals in Hx. destruct (s_devices final !! k) as [d|]; [eauto|]. unfold cap, u64_max in Hx. destruct up; cbn in Hx; lia.
Qed.

Lemma str_le_total a b : str_le a b = false -> str_le b a = true.
Proof.
  revert b. induction a as [|x a IH]; intros [|y b]; cbn; try done. intros H. apply orb_false_iff in H as [H1%Z.ltb_ge H2].
  destruct (Z.eqb_spec x y) as [->|]; cbn in H2; [rewrite Z.eqb_refl, (IH _ H2); apply orb_true_r|].
  apply orb_true_iff. left. apply Z.ltb_lt. lia.
Qed.

Lemma by_total_total : Total by_total.
Proof.
  intros a b. unfold by_total. destruct (Z.lt_trichotomy (total_bytes a) (total_bytes b)) as [H|[H|H]]; [right; by left| |left; by left].
  destruct (str_le (ds_name a) (ds_name b)) eqn:E; [left; by right|right; right; split; [done|by apply str_le_total]].
Qed.

(** [C32] The traffic report is exact.  For uploads and downloads alike: the totals of the last hour,
    day and week, each hour of the series and each device are the sums of what the table
    and the live counters hold of those hours and that device, capped at the largest
    number of 64 bits; the series has one point for every hour up to the current one; every
    device with traffic in the series is listed, none is listed twice, and the greatest
    total comes first. *)
Theorem report_is_exact :
  let r := report_at s hours now in
  side up (total_hour r) = cap (counted_bytes (last_hours 1)) /\
  side up (total_day r) = cap (counted_bytes (last_hours 24)) /\
  side up (total_week r) = cap (counted_bytes (last_hours 168)) /\
  length (hourly r) = Z.to_nat (current - start + 1) /\
  (forall i p, hourly r !! i = Some p ->
     tp_hour p = (start + Z.of_nat i) * SECONDS_PER_HOUR /\
     side up (tp_totals p) = cap (counted_bytes (fun hour _ => hour =? start + Z.of_nat i))) /\
  (forall d, d ∈ report_devices r ->
     side up (ds_totals d) = cap (counted_bytes (fun hour k => series_hours hour && bool_decide (k = ds_public_key d)))) /\
  (forall k, 0 < counted_bytes (fun hour k' => series_hours hour && bool_decide (k' = k)) -> k ∈ map ds_public_key (report_devices r)) /\
  NoDup (map ds_public_key (report_devices r)) /\ Sorted by_total (report_devices r).
Proof.
  intros r.
  split; [apply (final_total 1 s_hour); [lia|intros; apply sum_totals|done]|].
  split; [apply (final_total 24 s_day); [lia|intros; apply sum_totals|done]|].
  split; [apply (final_total 168 s_week); [lia|intros; apply sum_totals|done]|].
  split; [change (hourly r) with (s_hourly final); rewrite final_length; unfold empty_points; by rewrite length_map, length_seq|].
  split; [exact final_point|]. change (report_devices r) with (merge_sort by_total (map snd (map_to_list (s_devices final)))).
  split; [|split; [|split]].
  - intros d Hd. rewrite merge_sort_Permutation in Hd. apply list_elem_of_fmap in Hd as ([k d'] & -> & Hd%elem_of_map_to_list).
    by apply (final_device k d').
  - intros k Hk. destruct (final_listed k Hk) as [d Hd]. destruct (final_device k d Hd) as [<- _].
    apply (list_elem_of_fmap_2 ds_public_key). rewrite merge_sort_Permutation. apply (list_elem_of_fmap_2' snd _ (ds_public_key d, d)); [|done].
    by apply elem_of_map_to_list.
  - rewrite merge_sort_Permutation.
    assert (Hm : map ds_public_key (map snd (map_to_list (s_devices final))) = map fst (map_to_list (s_devices final))).
    { rewrite map_map. apply map_ext_in. intros [k d] Hd%list_elem_of_In%elem_of_map_to_list. by apply (final_device k d). }
    rewrite Hm. apply NoDup_fst_map_to_list.
  - apply Sorted_merge_sort. exact by_total_total.
Qed.

End Exact.

Lemma report_is_exact_witness :
  let r := report_at (mkTrafficStore (<[(4, [65]) := mkRow [97] 20 5]> ∅) (counters toy_store) (heap toy_store) 1) 2 18001 in
  tt_upload (total_hour r) = 100 /\ tt_upload (total_day r) = 120 /\ [65] ∈ map ds_public_key (report_devices r).
Proof.
  assert (W : store_wf (mkTrafficStore (<[(4, [65]) := mkRow [97] 20 5]> ∅) (counters toy_store) (heap toy_store) 1)).
  { destruct toy_store_wf as [H1 H2 H3]. by split. }
  assert (T : table_ok (<[(4, [65]) := mkRow [97] 20 5]> ∅)).
  { intros h k r [[[= <- <-] <-]|[_ H]]%lookup_insert_Some; [cbn; lia|by rewrite lookup_empty in H]. }
  destruct (report_is_exact true _ 2 18001 W T ltac:(lia)) as (H1 & H2 & _ & _ & _ & _ & H7 & _).
  split; [exact H1|]. split; [exact H2|].
  apply H7. vm_compute. done.
Defined.
