(* ===== verification/Profile.v ===== *)
(** * Portable profiles and the device command line

    crates/profile-cli: the encrypted profile a device is set up with (lib.rs) and the
    command that prints one (main.rs); crates/device-cli: the command that writes the files
    of a new device (main.rs).

    PBKDF2, AES-GCM and JSON are the class [ProfileLibs] with their laws; base64 is that of
    Config.v, and [Base64Alphabet] says which characters it uses.  The random bytes, the UUID
    and the answers of prompts and files are arguments.

    The theorems: a token decrypts to the profile it was made of, whatever white space a paste
    adds, and an accepted token was encrypted under the password; the device command never
    touches a file that existed. *)

From S2P Require Import Prelude Protocol Text Replay Crypto ToyCrypto DataPlane Morph Config Flow.

Definition ITERATIONS : Z := 210000.
Definition AAD : bytes := ascii_bytes "MouseVPN profile v1".

Record PortableProfile := mkProfile {
  pp_version : Z;
  pp_id : str;
  pp_name : str;
  pp_endpoint : str;
  pp_server_public_key : str;
  pp_client_private_key : str;
}.

(** [PortableProfile::new]; [id] is the fresh UUID. *)
Definition PortableProfile_new (id name endpoint server_public_key client_private_key : str) : PortableProfile :=
  mkProfile 1 id name endpoint server_public_key client_private_key.

Definition into_parts (p : PortableProfile) : str * str * str * str * str :=
  (pp_id p, pp_name p, pp_endpoint p, pp_server_public_key p, pp_client_private_key p).

(** The payloads of library errors are dropped. *)
Module ProfileError.

Inductive t :=
| PasswordTooShort
| Random
| Serialization
| CipherInit
| Encryption
| Decryption
| InvalidFormat
| UnsupportedVersion (version : Z)
| Base64.

End ProfileError.

Module CliError.

Inductive t :=
| Usage
| Config (e : ConfigError.t)
| Prompt
| ShortPassword
| DifferentPasswords
| Profile (e : ProfileError.t)
| KeyGeneration (e : CryptoError.t)
| Io.

End CliError.

Class ProfileLibs := {
  pbkdf2_hmac : bytes -> bytes -> Z -> bytes;
  aes_encrypt : bytes -> bytes -> bytes -> bytes -> option bytes;
  aes_decrypt : bytes -> bytes -> bytes -> bytes -> option bytes;
  json_to_vec : PortableProfile -> option bytes;
  json_from_slice : bytes -> option PortableProfile;
}.

(** PBKDF2 fills the 32 octets asked for; AES-GCM appends a tag of 16 octets, decrypts what it
    encrypted and nothing else under the same key, nonce and associated data; a JSON object is
    not empty and reads back. *)
Class ProfileLaws `{ProfileLibs} := {
  pbkdf2_len : forall password salt n, len (pbkdf2_hmac password salt n) = 32;
  aes_decrypt_encrypt : forall key nonce aad m c, aes_encrypt key nonce aad m = Some c -> aes_decrypt key nonce aad c = Some m;
  aes_encrypt_decrypt : forall key nonce aad m c, aes_decrypt key nonce aad c = Some m -> aes_encrypt key nonce aad m = Some c;
  aes_tag : forall key nonce aad m c, aes_encrypt key nonce aad m = Some c -> len c = len m + 16;
  json_roundtrip : forall p b, json_to_vec p = Some b -> json_from_slice b = Some p /\ 0 < len b;
}.

(** The characters of URL_SAFE_NO_PAD. *)
Definition is_b64 (c : Z) : bool :=
  ((65 <=? c) && (c <=? 90)) || ((97 <=? c) && (c <=? 122)) || ((48 <=? c) && (c <=? 57)) || (c =? 45) || (c =? 95).

Class Base64Alphabet `{Base64} := { b64_alphabet : forall b, forallb is_b64 (b64_encode b) = true }.

Definition TOKEN_PREFIX : str := ascii_bytes "MV1.".

Section Profile.
Context `{X : ProfileLibs, B : Base64, P : Primitives}.

(** [Aes256Gcm::new_from_slice] *)
Definition cipher_key (key : bytes) : res ProfileError.t bytes := if len key =? 32 then Ok key else Err ProfileError.CipherInit.

(** [salt] and [nonce] are what the two [getrandom::fill] return. *)
Definition encrypt_profile (salt nonce : option bytes) (profile : PortableProfile) (password : bytes) : res ProfileError.t str :=
  if len password <? 8 then Err ProfileError.PasswordTooShort
  else
    salt ← ok_or salt ProfileError.Random;
    nonce ← ok_or nonce ProfileError.Random;
    key ← cipher_key (pbkdf2_hmac password salt ITERATIONS);
    plaintext ← ok_or (json_to_vec profile) ProfileError.Serialization;
    ciphertext ← ok_or (aes_encrypt key nonce AAD plaintext) ProfileError.Encryption;
    Ok (TOKEN_PREFIX ++ b64_encode (salt ++ nonce ++ ciphertext)).

Definition decrypt_profile (encoded : str) (password : bytes) : res ProfileError.t PortableProfile :=
  if len password <? 8 then Err ProfileError.PasswordTooShort
  else
    payload ← ok_or (strip_prefix TOKEN_PREFIX (trim encoded)) ProfileError.InvalidFormat;
    packed ← ok_or (b64_decode payload) ProfileError.Base64;
    if len packed <=? 16 + 12 + 16 then Err ProfileError.InvalidFormat
    else
      let salt := take 16 packed in
      let rest := drop 16 packed in
      let nonce := take 12 rest in
      let ciphertext := drop 12 rest in
      key ← cipher_key (pbkdf2_hmac password salt ITERATIONS);
      plaintext ← ok_or (aes_decrypt key nonce AAD ciphertext) ProfileError.Decryption;
      profile ← ok_or (json_from_slice plaintext) ProfileError.Serialization;
      if negb (pp_version profile =? 1) then Err (ProfileError.UnsupportedVersion (pp_version profile)) else Ok profile.

(** ** The profile command *)

Definition profile_arguments (args : list str) : res CliError.t (str * str) :=
  match args with
  | [config; path; option_name; name] =>
      if bool_decide (config = ascii_bytes "--config") && bool_decide (option_name = ascii_bytes "--name") &&
         negb (bool_decide (trim name = []))
      then Ok (path, name) else Err CliError.Usage
  | _ => Err CliError.Usage
  end.

(** The configuration is read twice, once to be validated; [password] and [confirmation] are
    what the prompts return.  The result is the line that is printed. *)
Definition profile_main (load load_again : str -> res ConfigError.t ClientConfig) (password confirmation : option str)
    (id : str) (salt nonce : option bytes) (args : list str) : res CliError.t str :=
  '(path, name) ← profile_arguments args;
  config ← map_err CliError.Config (load path);
  _ ← map_err CliError.Config (ClientConfig_validate config);
  config ← map_err CliError.Config (load_again path);
  let profile := PortableProfile_new id name (show_socket (cc_server config)) (cc_server_public_key config) (cc_client_private_key config) in
  password ← ok_or password CliError.Prompt;
  confirmation ← ok_or confirmation CliError.Prompt;
  if len (as_bytes password) <? 8 then Err CliError.ShortPassword
  else if negb (bool_decide (password = confirmation)) then Err CliError.DifferentPasswords
  else map_err CliError.Profile (encrypt_profile salt nonce profile (as_bytes password)).

End Profile.

(** ** The device command *)

Record DeviceArguments := mkArguments {
  base_config : str;
  client_out : str;
  server_entry_out : str;
  device_name : str;
  device_address : Ipv4Addr;
}.

Fixpoint flag_value (flag : str) (values : list str) : option str :=
  match values with
  | name :: value :: rest => if bool_decide (name = flag) then Some value else flag_value flag rest
  | _ => None
  end.

Definition device_arguments (values : list str) : res CliError.t DeviceArguments :=
  if negb (len values =? 10) then Err CliError.Usage
  else
    let value flag := ok_or (flag_value (ascii_bytes flag) values) CliError.Usage in
    base ← value "--base-config"%string;
    client ← value "--client-out"%string;
    entry ← value "--server-entry-out"%string;
    name ← value "--name"%string;
    text ← value "--address"%string;
    address ← ok_or (parse_ipv4 text) CliError.Usage;
    Ok (mkArguments base client entry name address).

Definition quote : str := [34].
Definition line (key value : str) : str := key ++ ascii_bytes " = " ++ quote ++ value ++ quote ++ [10].

(** The client file that the device command and the administration interface write. *)
Definition client_text (server : SocketAddr) (server_public_key client_private_key tun_name : str) : str :=
  line (ascii_bytes "server") (show_socket server) ++ line (ascii_bytes "server_public_key") server_public_key ++
  line (ascii_bytes "client_private_key") client_private_key ++ line (ascii_bytes "tun_name") tun_name ++
  ascii_bytes "# legacy | morph_quiet | morph_balanced | morph_paranoid" ++ [10] ++ line (ascii_bytes "protocol") (ascii_bytes "legacy").

Definition entry_text (name public_key : str) (address : Ipv4Addr) : str :=
  ascii_bytes "[[clients]]" ++ [10] ++ line (ascii_bytes "name") name ++ line (ascii_bytes "public_key") public_key ++
  line (ascii_bytes "address") (show_ipv4 address).

(** The files of the machine; a path names one file. *)
Abbreviation files := (gmap (list Z) bytes) (only parsing).

(** How writing a new file may end. *)
Inductive Write := OpenFails | WriteStops (n : nat) | SyncFails | Written.

(** The file must not exist. *)
Definition write_new (o : Write) (fs : files) (path : str) (contents : bytes) : files * bool :=
  match fs !! path, o with
  | Some _, _ => (fs, false)
  | None, OpenFails => (fs, false)
  | None, WriteStops n => (<[path := take n contents]> fs, false)
  | None, SyncFails => (<[path := contents]> fs, false)
  | None, Written => (<[path := contents]> fs, true)
  end.

Section Device.
Context `{B : Base64, P : Primitives, N : Noise}.

(** [removed] is whether the removal of the client file succeeds. *)
Definition write_device (client_write entry_write : Write) (removed : bool) (a : DeviceArguments) (client entry : bytes) (fs : files)
    : files * res CliError.t unit :=
  match write_new client_write fs (client_out a) client with
  | (fs, false) => (fs, Err CliError.Io)
  | (fs, true) =>
      match write_new entry_write fs (server_entry_out a) entry with
      | (fs, true) => (fs, Ok tt)
      | (fs, false) => (if removed then delete (client_out a) fs else fs, Err CliError.Io)
      end
  end.

Definition device_main (load load_again : str -> res ConfigError.t ClientConfig) (entropy : bytes) (client_write entry_write : Write)
    (removed : bool) (args : list str) (fs : files) : files * res CliError.t unit :=
  match (a ← device_arguments args;
         base ← map_err CliError.Config (load (base_config a));
         _ ← map_err CliError.Config (ClientConfig_validate base);
         base ← map_err CliError.Config (load_again (base_config a));
         keys ← map_err CliError.KeyGeneration (KeyPair_generate entropy);
         Ok (a, base, keys)) with
  | Err e => (fs, Err e)
  | Panic => (fs, Panic)
  | Ok (a, base, (secret, public)) =>
      let client := client_text (cc_server base) (cc_server_public_key base) (encode_secret_key secret) (ascii_bytes "mousevpn0") in
      let entry := entry_text (device_name a) (encode_public_key public) (device_address a) in
      write_device client_write entry_write removed a (as_bytes client) (as_bytes entry) fs
  end.

End Device.

(** ** Tokens *)

Lemma b64_not_space c : is_b64 c = true -> is_whitespace c = false.
Proof. unfold is_b64, is_whitespace. intros H. repeat (apply orb_true_iff in H as [H|H]); lia. Qed.

Lemma ok_or_inv {E A} (o : option A) (e : E) a : ok_or o e = Ok a -> o = Some a.
Proof. destruct o; [by intros [= ->]|done]. Qed.

Ltac ok_simpl := cbn [ok_or]; res_simpl.

Section Tokens.
Context `{X : ProfileLibs, XL : !ProfileLaws, B : Base64, BL : !Base64Laws, BA : !Base64Alphabet}.

Lemma cipher_key_ok password salt : cipher_key (pbkdf2_hmac password salt ITERATIONS) = Ok (pbkdf2_hmac password salt ITERATIONS).
Proof. unfold cipher_key. by rewrite pbkdf2_len. Qed.

Lemma trim_token before b after : forallb is_whitespace before = true -> forallb is_whitespace after = true ->
  trim (before ++ (TOKEN_PREFIX ++ b64_encode b) ++ after) = TOKEN_PREFIX ++ b64_encode b.
Proof.
  intros H1 H2. pose proof (b64_alphabet b) as Ha. destruct (b64_encode b) as [|c s] using rev_ind.
  - by apply (trim_between _ _ _ 77 [86; 49; 46] [77; 86; 49] 46).
  - apply (trim_between _ _ _ 77 ([86; 49; 46] ++ s ++ [c]) (TOKEN_PREFIX ++ s) c); [done..|by rewrite <- app_assoc|done|].
    rewrite forallb_app in Ha. apply andb_true_iff in Ha as [_ Ha]. cbn in Ha. rewrite andb_true_r in Ha. by apply b64_not_space.
Qed.

(** What an accepted token is. *)
Definition sealed (encoded : str) (password : bytes) (profile : PortableProfile) : Prop :=
  exists salt nonce plaintext ciphertext,
    len salt = 16 /\ len nonce = 12 /\ trim encoded = TOKEN_PREFIX ++ b64_encode (salt ++ nonce ++ ciphertext) /\
    aes_encrypt (pbkdf2_hmac password salt ITERATIONS) nonce AAD plaintext = Some ciphertext /\ json_from_slice plaintext = Some profile.

Lemma decrypt_sound encoded password profile :
  decrypt_profile encoded password = Ok profile -> 8 <= len password /\ pp_version profile = 1 /\ sealed encoded password profile.
Proof.
  unfold decrypt_profile. case_if; [done|]. intros (payload & Hs%ok_or_inv%strip_prefix_some & H)%bind_ok. revert H.
  intros (packed & Hd%ok_or_inv & H)%bind_ok. revert H. case_if; [done|]. rewrite cipher_key_ok. res_simpl.
  intros (plaintext & Ha%ok_or_inv & (p & Hj%ok_or_inv & H)%bind_ok)%bind_ok. revert H. case_if; [done|]. intros [= ->].
  boolify. split; [lia|]. split; [lia|]. exists (take 16 packed), (take 12 (drop 16 packed)), plaintext, (drop 12 (drop 16 packed)).
  unfold len in *. rewrite !length_take, !length_drop. split; [lia|]. split; [lia|].
  rewrite !take_drop, (b64_encode_decode _ _ Hd). split; [done|]. split; [|done]. by apply aes_encrypt_decrypt.
Qed.

Lemma decrypt_encrypted salt nonce profile password token before after :
  len salt = 16 -> len nonce = 12 -> pp_version profile = 1 ->
  encrypt_profile (Some salt) (Some nonce) profile password = Ok token ->
  forallb is_whitespace before = true -> forallb is_whitespace after = true ->
  decrypt_profile (before ++ token ++ after) password = Ok profile.
Proof.
  intros Hs Hn Hv. unfold encrypt_profile, decrypt_profile. case_if; [done|]. ok_simpl. rewrite cipher_key_ok. ok_simpl.
  intros (plaintext & Hj%ok_or_inv & (c & Hc%ok_or_inv & Htok)%bind_ok)%bind_ok Hb Ha.
  assert (token = TOKEN_PREFIX ++ b64_encode (salt ++ nonce ++ c)) as -> by congruence.
  rewrite trim_token, strip_prefix_app by done. ok_simpl. rewrite b64_decode_encode. ok_simpl.
  pose proof (aes_tag _ _ _ _ _ Hc) as Ht. destruct (json_roundtrip _ _ Hj) as [Hr Hlen].
  rewrite !len_app. destruct (Z.leb_spec (len salt + (len nonce + len c)) (16 + 12 + 16)); [lia|].
  unfold len in *. rewrite (take_app_length' salt) by lia. rewrite (drop_app_length' salt) by lia.
  rewrite (take_app_length' nonce), (drop_app_length' nonce) by lia. rewrite cipher_key_ok. ok_simpl.
  rewrite (aes_decrypt_encrypt _ _ _ _ _ Hc). ok_simpl. rewrite Hr. ok_simpl. by rewrite Hv.
Qed.

(** Encrypted profiles.  A token decrypts, under the password it was made with, to the
    profile it was made of, also with white space around it; and whatever token is accepted,
    of any origin, was sealed under a key of the password with the purpose of profiles, and
    holds a profile of the known version. *)
Theorem profile_tokens password :
  (forall salt nonce profile token before after,
     len salt = 16 -> len nonce = 12 -> pp_version profile = 1 ->
     encrypt_profile (Some salt) (Some nonce) profile password = Ok token ->
     forallb is_whitespace before = true -> forallb is_whitespace after = true ->
     decrypt_profile (before ++ token ++ after) password = Ok profile) /\
  (forall encoded profile, decrypt_profile encoded password = Ok profile ->
     8 <= len password /\ pp_version profile = 1 /\ sealed encoded password profile).
Proof. split; [intros; by eapply decrypt_encrypted|intros; by apply decrypt_sound]. Qed.

End Tokens.

(** ** The device command *)

Section DeviceTheorems.
Context `{B : Base64, P : Primitives, N : Noise}.

Lemma write_new_keeps o fs path contents k c : fs !! k = Some c -> (write_new o fs path contents).1 !! k = Some c.
Proof.
  intros Hk. unfold write_new. destruct (fs !! path) eqn:E; [done|]. assert (path <> k) by (intros ->; congruence).
  destruct o; cbn; rewrite ?lookup_insert_ne by done; done.
Qed.

Lemma write_new_true o fs path contents fs' :
  write_new o fs path contents = (fs', true) -> fs !! path = None /\ fs' = <[path := contents]> fs.
Proof. unfold write_new. destruct (fs !! path) eqn:E; [done|]. destruct o; intros [= <-]; done. Qed.

(** The device command never changes or removes a file that existed.  When it succeeds, both
    files are new: the client's holds the secret key and the server entry the public key of one
    generated pair. *)
Theorem device_command load load_again entropy w1 w2 removed args fs :
  let '(fs', r) := device_main load load_again entropy w1 w2 removed args fs in
  (forall k c, fs !! k = Some c -> fs' !! k = Some c) /\
  (r = Ok tt -> exists a base secret public,
     device_arguments args = Ok a /\ load_again (base_config a) = Ok base /\ KeyPair_generate entropy = Ok (secret, public) /\
     fs !! client_out a = None /\ fs !! server_entry_out a = None /\
     fs' !! client_out a = Some (as_bytes (client_text (cc_server base) (cc_server_public_key base) (encode_secret_key secret) (ascii_bytes "mousevpn0"))) /\
     fs' !! server_entry_out a = Some (as_bytes (entry_text (device_name a) (encode_public_key public) (device_address a)))).
Proof.
  unfold device_main. destruct (_ ← device_arguments args; _) as [[[a base] [secret public]]|e|] eqn:E; [|done..].
  revert E. intros (a' & Ha & E)%bind_ok. revert E. intros (b0 & _ & (v & _ & (b1 & Hb & (kp & Hk & E)%bind_ok)%bind_ok)%bind_ok)%bind_ok.
  injection E as -> -> ->. unfold map_err in Hb, Hk.
  destruct (load_again (base_config a)) as [?|?|] eqn:Hl; try done. injection Hb as ->.
  destruct (KeyPair_generate entropy) as [?|?|] eqn:Hg; try done. injection Hk as ->. unfold write_device.
  destruct (write_new w1 fs (client_out a) _) as [fs1 [|]] eqn:E1;
    [|split; [|done]; intros k c Hc; change fs1 with (fs1, false).1; rewrite <- E1; by apply write_new_keeps].
  pose proof (write_new_true _ _ _ _ _ E1) as [Hn1 ->]. destruct (write_new w2 _ (server_entry_out a) _) as [fs2 [|]] eqn:E2.
  - pose proof (write_new_true _ _ _ _ _ E2) as [Hn2 ->]. apply lookup_insert_None in Hn2 as [Hn2 Hne]. split.
    + intros k c Hc. rewrite !lookup_insert_ne; congruence.
    + intros _. exists a, base, secret, public. rewrite lookup_insert_ne, !lookup_insert_eq by done. done.
  - split; [|done]. intros k c Hc. assert (client_out a <> k) by congruence.
    assert (fs2 !! k = Some c).
    { change fs2 with (fs2, false).1. rewrite <- E2. apply write_new_keeps. by rewrite lookup_insert_ne. }
    by destruct removed; rewrite ?lookup_delete_ne.
Qed.

End DeviceTheorems.

(** ** Witnesses *)

Module ToyProfile.

(** A code in two letters. *)
Fixpoint bits (p : positive) : str := match p with xH => [] | xO p => 65 :: bits p | xI p => 66 :: bits p end.
Fixpoint unbits (s : str) : positive := match s with [] => xH | c :: s => if c =? 66 then xI (unbits s) else xO (unbits s) end.

Lemma unbits_bits p : unbits (bits p) = p.
Proof. induction p as [p IH|p IH|]; cbn; by rewrite ?IH. Qed.

#[export] Instance letters : Base64 := {
  b64_encode b := bits (encode b);
  b64_decode s := b ← decode (unbits s); if bool_decide (bits (encode b) = s) then Some b else None;
}.

#[export] Instance letters_laws : Base64Laws.
Proof.
  split; cbn.
  - intros b. rewrite unbits_bits, decode_encode. cbn. by rewrite bool_decide_eq_true_2.
  - intros s b. destruct (decode (unbits s)) as [b'|]; [|done]. cbn. case_bool_decide as E; [|done]. by intros [= ->].
Qed.

#[export] Instance letters_alphabet : Base64Alphabet.
Proof. split. intros b. cbn. induction (encode b) as [p IH|p IH|]; cbn; done. Qed.

Definition fitted (n : nat) (b : bytes) : bytes := take n (b ++ replicate n 0).

Lemma fitted_len n b : len (fitted n b) = Z.of_nat n.
Proof. unfold fitted, len. rewrite length_take, length_app, length_replicate. lia. Qed.

#[export] Instance toy_libs : ProfileLibs := {
  pbkdf2_hmac password salt _ := fitted 32 (password ++ salt);
  aes_encrypt key nonce aad m := Some (m ++ fitted 16 (key ++ nonce ++ aad ++ m));
  aes_decrypt key nonce aad c :=
    let m := take (length c - 16) c in
    if bool_decide (c = m ++ fitted 16 (key ++ nonce ++ aad ++ m)) then Some m else None;
  json_to_vec p := Some [Z.pos (encode (pp_version p, into_parts p))];
  json_from_slice b :=
    match b with
    | [Z.pos n] => '(v, (i, name, e, s, k)) ← decode n; Some (mkProfile v i name e s k)
    | _ => None
    end;
}.

#[export] Instance toy_laws : ProfileLaws.
Proof.
  split; cbn [pbkdf2_hmac aes_encrypt aes_decrypt json_to_vec json_from_slice toy_libs].
  - intros. apply (fitted_len 32).
  - intros key nonce aad m c [= <-]. assert (Hm : take (length (m ++ fitted 16 (key ++ nonce ++ aad ++ m)) - 16) (m ++ fitted 16 (key ++ nonce ++ aad ++ m)) = m).
    { pose proof (fitted_len 16 (key ++ nonce ++ aad ++ m)) as Hl. unfold len in Hl. rewrite length_app. apply take_app_length'. lia. }
    cbv zeta. rewrite !Hm. by rewrite bool_decide_eq_true_2.
  - intros key nonce aad m c. cbv zeta. destruct (bool_decide _) eqn:E; [|done]. intros [= <-]. apply bool_decide_eq_true in E. f_equal. by symmetry.
  - intros key nonce aad m c [= <-]. rewrite len_app. by rewrite (fitted_len 16).
  - intros [v i name e s k] b [= <-]. cbn [pp_version into_parts pp_id pp_name pp_endpoint pp_server_public_key pp_client_private_key].
    rewrite decode_encode. done.
Qed.

Definition home : PortableProfile :=
  PortableProfile_new [105] (ascii_bytes "Home") (ascii_bytes "198.51.100.7:51820") (ascii_bytes "server-key") (ascii_bytes "client-key").

Lemma profile_tokens_witness :
  match encrypt_profile (Some (replicate 16 1)) (Some (replicate 12 2)) home (ascii_bytes "long password") with
  | Ok token => decrypt_profile ([32; 10] ++ token ++ [10]) (ascii_bytes "long password") = Ok home
  | _ => False
  end.
Proof.
  assert (Hok : match encrypt_profile (Some (replicate 16 1)) (Some (replicate 12 2)) home (ascii_bytes "long password") with Ok _ => true | _ => false end = true)
    by (vm_compute; reflexivity).
  destruct (profile_tokens (ascii_bytes "long password")) as [H _].
  specialize (H (replicate 16 1) (replicate 12 2) home).
  destruct (encrypt_profile (Some (replicate 16 1)) (Some (replicate 12 2)) home (ascii_bytes "long password")) as [token|e|]; [|discriminate Hok..].
  by apply H.
Defined.

(** Another password does not open it. *)
Example wrong_password :
  match encrypt_profile (Some (replicate 16 1)) (Some (replicate 12 2)) home (ascii_bytes "long password") with
  | Ok token => decrypt_profile token (ascii_bytes "other password") = Err ProfileError.Decryption
  | _ => False
  end.
Proof. vm_compute. reflexivity. Qed.

End ToyProfile.
