(* ===== verification/Admin.v ===== *)
(** * The administration interface

    crates/admin-api: the bearer token (auth.rs), the answers and errors (models.rs, error.rs,
    state.rs), the five handlers (handlers.rs) and the routes (lib.rs).

    axum is not modelled: a [Request] is the route it chose with what its extractors made of
    the path, the query and the body, [None] when they refused, which axum answers before the
    handler runs.  What the handlers get from the system is a [Call].

    The theorems: without the token nothing is done or told; a request that is answered with an
    error of the client changes nothing, and the registry stays well formed; the profile a new
    device receives opens with the password to the key the registry authorizes. *)

From S2P Require Import Prelude Protocol Text Replay Crypto ToyCrypto DataPlane Morph Config Registry Traffic Report Flow Profile.

Definition MINIMUM_TOKEN_LEN : Z := 32.

Module TokenError.

Inductive t := TooShort (actual minimum : Z).

End TokenError.

(** [AdminToken::new] *)
Definition AdminToken_new (token : bytes) : res TokenError.t bytes :=
  if len token <? MINIMUM_TOKEN_LEN then Err (TokenError.TooShort (len token) MINIMUM_TOKEN_LEN) else Ok token.

Record AdminSettings := mkAdminSettings {
  public_endpoint : SocketAddr;
  settings_server_public_key : str;
  settings_tun_name : str;
}.

Record ApiState := mkApiState {
  api_registry : world;
  api_traffic : TrafficStore;
  api_token : bytes;
  api_settings : AdminSettings;
}.

Inductive StatusCode := UNAUTHORIZED | BAD_REQUEST | NOT_FOUND | INTERNAL_SERVER_ERROR.

#[global] Instance StatusCode_eq_dec : EqDecision StatusCode.
Proof. solve_decision. Defined.

(** The text of the body; errors of the registry are passed on as they print. *)
Inductive Message := Fixed (text : str) | Printed (e : RegistryError.t).

Record ApiError := mkApiError { status : StatusCode; message : Message }.

Definition unauthorized : ApiError := mkApiError UNAUTHORIZED (Fixed (ascii_bytes "invalid admin bearer token")).
Definition bad_request (m : Message) : ApiError := mkApiError BAD_REQUEST m.
Definition not_found (text : str) : ApiError := mkApiError NOT_FOUND (Fixed text).

(** [internal_with] only logs the error. *)
Definition internal : ApiError := mkApiError INTERNAL_SERVER_ERROR (Fixed (ascii_bytes "internal server error")).

(** ** Requests and answers *)

Record CreateDeviceRequest := mkCreate { rq_name : str; rq_platform : DevicePlatform; rq_profile_password : option str }.

Record DeviceSummary := mkDeviceSummary { sm_name : str; sm_platform : DevicePlatform; sm_public_key : str; sm_address : Ipv4Addr }.

Definition DeviceSummary_from (r : DeviceRecord) : DeviceSummary :=
  mkDeviceSummary (dr_name r) (dr_platform r) (dr_public_key r) (dr_address r).

Record ProvisionDeviceResponse := mkProvisioned { rp_device : DeviceSummary; rp_client_config : str; rp_profile_token : option str }.

Inductive Request :=
| GetRoot
| GetHealth
| GetDevices
| PostDevices (body : option CreateDeviceRequest)
| DeleteDevice (public_key : option str)
| GetTraffic (hours : option (option Z))
| NoRoute.

Inductive Answer :=
| Page
| Healthy
| Devices (l : list DeviceSummary)
| Report (r : TrafficReport)
| Provisioned (r : ProvisionDeviceResponse)
| Revoked (revoked : bool)
| Rejected
| Unrouted.

(** The headers in their order, the names in lower case. *)
Abbreviation HeaderMap := (list (str * bytes)) (only parsing).

Fixpoint header_get (name : str) (headers : HeaderMap) : option bytes :=
  match headers with
  | [] => None
  | (n, v) :: headers => if bool_decide (n = name) then Some v else header_get name headers
  end.

(** [HeaderValue::to_str] *)
Definition to_str (value : bytes) : option str :=
  if forallb (fun b => ((32 <=? b) && (b <? 127)) || (b =? 9)) value then Some value else None.

Definition AUTHORIZATION : str := ascii_bytes "authorization".
Definition BEARER : str := ascii_bytes "Bearer ".

Definition authenticate (headers : HeaderMap) (s : ApiState) : res ApiError unit :=
  candidate ← ok_or (value ← header_get AUTHORIZATION headers; value ← to_str value; strip_prefix BEARER value) unauthorized;
  if bool_decide (as_bytes candidate = api_token s) then Ok tt else Err unauthorized.

(** What one request gets from the system: whether the registry's file is written, the entropy
    of the key pair, the UUID and the random bytes of the profile, the clock, and whether the
    database answers. *)
Record Call := mkCall {
  c_io : bool;
  c_entropy : bytes;
  c_id : str;
  c_salt : option bytes;
  c_nonce : option bytes;
  c_now : Z;
  c_database : bool;
}.

Section Handlers.
Context `{T : Toml, B : Base64, P : Primitives, N : Noise, X : ProfileLibs}.
Context (e : Call).

Definition api_health (headers : HeaderMap) (s : ApiState) : res ApiError Answer :=
  _ ← authenticate headers s; Ok Healthy.

Definition api_list_devices (headers : HeaderMap) (s : ApiState) : res ApiError Answer :=
  _ ← authenticate headers s; Ok (Devices (map DeviceSummary_from (list_devices (api_registry s)))).

Definition api_report (headers : HeaderMap) (s : ApiState) (query : option Z) : res ApiError Answer :=
  _ ← authenticate headers s;
  let hours := default 24 query in
  if (hours =? 0) || (MAX_QUERY_HOURS <? hours)
  then Err (bad_request (Fixed (ascii_bytes "hours must be between 1 and " ++ digits 4 MAX_QUERY_HOURS)))
  else if c_database e then Ok (Report (report_at (api_traffic s) hours (c_now e))) else Err internal.

Definition with_registry (s : ApiState) (w : world) : ApiState := mkApiState w (api_traffic s) (api_token s) (api_settings s).

(** What the password must be, before anything is done. *)
Definition check_password (request : CreateDeviceRequest) : res ApiError unit :=
  match rq_platform request, rq_profile_password request with
  | Android, None => Err (bad_request (Fixed (ascii_bytes "Android profile requires a password of at least 8 characters")))
  | _, Some password =>
      if len (as_bytes password) <? 8
      then Err (bad_request (Fixed (ascii_bytes "profile password must contain at least 8 characters")))
      else Ok tt
  | _, None => Ok tt
  end.

(** The profile of the new device, encrypted when there is a password. *)
Definition profile_token (profile : PortableProfile) (password : option str) : res ApiError (option str) :=
  match password with
  | None => Ok None
  | Some password =>
      match encrypt_profile (c_salt e) (c_nonce e) profile (as_bytes password) with
      | Ok token => Ok (Some token)
      | Err _ => Err internal
      | Panic => Panic
      end
  end.

Definition api_provision (headers : HeaderMap) (s : ApiState) (request : CreateDeviceRequest) : ApiState * res ApiError Answer :=
  match (_ ← authenticate headers s; check_password request) with
  | Err err => (s, Err err)
  | Panic => (s, Panic)
  | Ok _ =>
      match provision (c_io e) (c_entropy e) (api_registry s) (rq_name request) (rq_platform request) with
      | (w, Err err) => (with_registry s w, Err (bad_request (Printed err)))
      | (w, Panic) => (with_registry s w, Panic)
      | (w, Ok (record, private_key)) =>
          let settings := api_settings s in
          let client_private_key := encode_secret_key private_key in
          let config := client_text (public_endpoint settings) (settings_server_public_key settings) client_private_key (settings_tun_name settings) in
          let profile := PortableProfile_new (c_id e) (dr_name record) (show_socket (public_endpoint settings))
                           (settings_server_public_key settings) client_private_key in
          (with_registry s w,
           token ← profile_token profile (rq_profile_password request);
           Ok (Provisioned (mkProvisioned (DeviceSummary_from record) config token)))
      end
  end.

Definition api_revoke (headers : HeaderMap) (s : ApiState) (public_key : str) : ApiState * res ApiError Answer :=
  match authenticate headers s with
  | Err err => (s, Err err)
  | Panic => (s, Panic)
  | Ok _ =>
      match revoke (c_io e) (api_registry s) public_key with
      | (w, Err err) => (with_registry s w, Err (bad_request (Printed err)))
      | (w, Panic) => (with_registry s w, Panic)
      | (w, Ok false) => (with_registry s w, Err (not_found (ascii_bytes "device key not found")))
      | (w, Ok true) => (with_registry s w, Ok (Revoked true))
      end
  end.

(** The routes. *)
Definition router (headers : HeaderMap) (s : ApiState) (request : Request) : ApiState * res ApiError Answer :=
  match request with
  | GetRoot => (s, Ok Page)
  | GetHealth => (s, api_health headers s)
  | GetDevices => (s, api_list_devices headers s)
  | PostDevices (Some body) => api_provision headers s body
  | DeleteDevice (Some key) => api_revoke headers s key
  | GetTraffic (Some hours) => (s, api_report headers s hours)
  | PostDevices None | DeleteDevice None | GetTraffic None => (s, Ok Rejected)
  | NoRoute => (s, Ok Unrouted)
  end.

End Handlers.

(** ** Authentication *)

Lemma to_str_ascii value s : to_str value = Some s -> s = value /\ Forall (fun c => c < 0x80) value.
Proof.
  unfold to_str. destruct (forallb _ value) eqn:E; [|done]. intros [= ->]. split; [done|].
  apply Forall_forall. intros c Hc. rewrite forallb_forall in E. specialize (E c Hc). lia.
Qed.

Lemma authenticate_ok headers s :
  authenticate headers s = Ok tt -> header_get AUTHORIZATION headers = Some (BEARER ++ api_token s).
Proof.
  unfold authenticate. intros (candidate & H%ok_or_inv & E)%bind_ok. revert H.
  destruct (header_get AUTHORIZATION headers) as [value|]; [|done]. cbn [mbind option_bind]. destruct (to_str value) as [v|] eqn:Hv; [|done]. cbn [mbind option_bind].
  apply to_str_ascii in Hv as [-> Ha]. intros ->%strip_prefix_some. f_equal. f_equal. revert E. case_bool_decide as E; [|done]. intros _.
  apply Forall_app in Ha as [_ Ha]. by rewrite ascii_as_bytes in E.
Qed.

Lemma authenticate_cases headers s : authenticate headers s = Ok tt \/ authenticate headers s = Err unauthorized.
Proof.
  unfold authenticate. destruct (value ← header_get AUTHORIZATION headers; _) as [c|]; cbn; [|by right].
  res_simpl. case_if; [by left|by right].
Qed.

(** What is answered to a request without the token. *)
Definition refusal (request : Request) : res ApiError Answer :=
  match request with
  | GetRoot => Ok Page
  | PostDevices None | DeleteDevice None | GetTraffic None => Ok Rejected
  | NoRoute => Ok Unrouted
  | _ => Err unauthorized
  end.

Section AdminTheorems.
Context `{T : Toml, TL : !TomlLaws, B : Base64, BL : !Base64Laws, BA : !Base64Alphabet, P : Primitives, N : Noise,
          X : ProfileLibs, XL : !ProfileLaws}.

(** [C33] The token guards everything.  Unless the first Authorization header is exactly the
    bearer token, a request changes nothing, and its answer does not depend on the state: the
    page, axum's own refusals, or 401. *)
Theorem requests_need_the_token e headers s request :
  header_get AUTHORIZATION headers <> Some (BEARER ++ api_token s) ->
  router e headers s request = (s, refusal request).
Proof.
  intros H. assert (Ha : authenticate headers s = Err unauthorized).
  { destruct (authenticate_cases headers s) as [E|E]; [by apply authenticate_ok in E|done]. }
  destruct request as [| | |[body|]|[key|]|[hours|]|]; cbn [router refusal]; try done;
    unfold api_health, api_list_devices, api_report, api_provision, api_revoke; by rewrite Ha.
Qed.

(** ** What requests change *)

Lemma check_password_no_panic request : no_panic (check_password request).
Proof. unfold check_password. destruct (rq_platform request), (rq_profile_password request); try done; by case_if. Qed.

Lemma encrypt_no_panic salt nonce profile password : no_panic (encrypt_profile salt nonce profile password).
Proof.
  unfold encrypt_profile. case_if; [done|]. destruct salt, nonce; cbn; try done. unfold cipher_key. case_if; [|done]. res_simpl.
  destruct (json_to_vec profile); cbn; [|done]. by destruct (aes_encrypt _ _ _ _).
Qed.

Lemma with_registry_id s : with_registry s (api_registry s) = s.
Proof. by destruct s. Qed.

Lemma provision_kept e headers s request s' r :
  registry_inv (api_registry s) -> fresh_key (api_registry s) (c_entropy e) -> api_provision e headers s request = (s', r) ->
  registry_inv (api_registry s') /\ (forall err, r = Err err -> status err <> INTERNAL_SERVER_ERROR -> s' = s) /\ r <> Panic.
Proof.
  intros I F. unfold api_provision. destruct (authenticate_cases headers s) as [->| ->]; [|by intros [= <- <-]]. res_simpl.
  pose proof (check_password_no_panic request) as Hc. destruct (check_password request); [|by intros [= <- <-]|done].
  pose proof (provision_spec (c_io e) (c_entropy e) (api_registry s) (rq_name request) (rq_platform request) I F) as H.
  destruct (provision _ _ _ _ _) as [w [[record secret]|err|]]; [|subst w; rewrite with_registry_id; by intros [= <- <-]|done].
  intros [= <- <-]. cbn [api_registry with_registry]. split; [by destruct H|]. unfold profile_token.
  destruct (rq_profile_password request) as [pw|]; [|done].
  match goal with |- context [encrypt_profile ?a ?b ?c ?d] => pose proof (encrypt_no_panic a b c d) as Hp; destruct (encrypt_profile a b c d) eqn:E end;
    cbn; [done| |done].
  split; [|done]. by intros err [= <-].
Qed.

Lemma revoke_kept e headers s key s' r :
  registry_inv (api_registry s) -> api_revoke e headers s key = (s', r) ->
  registry_inv (api_registry s') /\ (forall err, r = Err err -> s' = s) /\ r <> Panic.
Proof.
  intros I. unfold api_revoke. destruct (authenticate_cases headers s) as [->| ->]; [|by intros [= <- <-]].
  pose proof (revoke_spec (c_io e) (api_registry s) key I) as H. destruct (revoke _ _ _) as [w [[|]|err|]].
  - intros [= <- <-]. cbn. by destruct H.
  - destruct H as [-> _]. rewrite with_registry_id. by intros [= <- <-].
  - subst w. rewrite with_registry_id. by intros [= <- <-].
  - done.
Qed.

(** Every request keeps the registry well formed, none panics, and one that is answered
    with an error of the client (4xx) leaves devices, authorizations, file, traffic and settings
    as they were. *)
Theorem requests_keep_the_registry e headers s request :
  registry_inv (api_registry s) -> fresh_key (api_registry s) (c_entropy e) ->
  let '(s', r) := router e headers s request in
  registry_inv (api_registry s') /\ (forall err, r = Err err -> status err <> INTERNAL_SERVER_ERROR -> s' = s) /\ r <> Panic.
Proof.
  intros I F. destruct request as [| | |[body|]|[key|]|[hours|]|]; cbn [router]; try done.
  - unfold api_health. by destruct (authenticate_cases headers s) as [->| ->].
  - unfold api_list_devices. by destruct (authenticate_cases headers s) as [->| ->].
  - destruct (api_provision e headers s body) as [s' r] eqn:E. by apply (provision_kept e headers s body).
  - destruct (api_revoke e headers s key) as [s' r] eqn:E. destruct (revoke_kept e headers s key s' r I E) as (H1 & H2 & H3).
    split; [done|]. split; [|done]. intros err Hr _. by apply (H2 err).
  - unfold api_report. destruct (authenticate_cases headers s) as [->| ->]; res_simpl; [|done]. case_if; [done|]. by case_if.
Qed.

(** ** A new device *)

Lemma KeyPair_secret_len entropy secret public : KeyPair_generate entropy = Ok (secret, public) -> len secret = KEY_LEN.
Proof.
  unfold KeyPair_generate. intros ([private p] & _ & H)%bind_ok. revert H. intros (k & Hk & (q & _ & [= <- <-])%bind_ok)%bind_ok.
  unfold SecretKey_from_vec, try_into_array in Hk. case_decide as E; [|done]. by injection Hk as <-.
Qed.

(** The profile that a new device with these keys must hold. *)
Definition device_profile (settings : AdminSettings) (id name : str) (secret : SecretKey) : PortableProfile :=
  PortableProfile_new id name (show_socket (public_endpoint settings)) (settings_server_public_key settings) (encode_secret_key secret).

(** [C34] A device that has been provisioned can connect.  The answer names the record that was
    added; the client file, and the profile that the token opens to under the password, hold a
    secret key whose public key the registry authorizes under that name and address from then
    on, and the server's endpoint and key.  An Android device always gets a token. *)
Theorem provisioned_device_can_connect e headers s request s' answer salt nonce :
  registry_inv (api_registry s) -> fresh_key (api_registry s) (c_entropy e) ->
  c_salt e = Some salt -> c_nonce e = Some nonce -> len salt = 16 -> len nonce = 12 ->
  router e headers s (PostDevices (Some request)) = (s', Ok (Provisioned answer)) ->
  exists secret public authorization,
    KeyPair_generate (c_entropy e) = Ok (secret, public) /\ decode_secret_key (encode_secret_key secret) = Ok secret /\
    sm_name (rp_device answer) = trim (rq_name request) /\ sm_public_key (rp_device answer) = encode_public_key public /\
    authorize (api_registry s') public = Some (mkDeviceLease (trim (rq_name request)) (sm_address (rp_device answer)) public authorization) /\
    is_active (w_flags (api_registry s')) authorization = true /\
    (forall k, k <> public -> authorize (api_registry s') k = authorize (api_registry s) k) /\
    rp_client_config answer =
      client_text (public_endpoint (api_settings s)) (settings_server_public_key (api_settings s)) (encode_secret_key secret) (settings_tun_name (api_settings s)) /\
    match rq_profile_password request with
    | None => rp_profile_token answer = None /\ rq_platform request <> Android
    | Some password => exists token, rp_profile_token answer = Some token /\
        decrypt_profile token (as_bytes password) = Ok (device_profile (api_settings s) (c_id e) (trim (rq_name request)) secret)
    end.
Proof.
  intros I F Hs Hn Hsl Hnl. cbn [router]. unfold api_provision.
  destruct (authenticate_cases headers s) as [->| ->]; [|done]. res_simpl. destruct (check_password request) as [[]|?|] eqn:Hc; [|done..].
  pose proof (provision_spec (c_io e) (c_entropy e) (api_registry s) (rq_name request) (rq_platform request) I F) as H.
  destruct (provision _ _ _ _ _) as [w [[record secret]|err|]]; [|done..].
  destruct H as (_ & public & authorization & Hk & Hpk & Hname & _ & _ & Ha & Hf & Ho). cbv zeta. rewrite Hname.
  destruct (profile_token e _ (rq_profile_password request)) as [token|?|] eqn:Et; res_simpl; [|done..]. intros [= <- <-].
  exists secret, public, authorization. cbn [rp_device rp_client_config rp_profile_token api_registry with_registry DeviceSummary_from sm_name sm_public_key sm_address].
  split; [done|]. split; [apply decode_public_key_ok; split; [done|by eapply KeyPair_secret_len]|]. do 6 (split; [done|]).
  revert Et. unfold profile_token. destruct (rq_profile_password request) as [password|] eqn:Hp.
  - rewrite Hs, Hn. destruct (encrypt_profile _ _ _ _) as [t|?|] eqn:Ee; [|done..]. intros [= <-]. exists t. split; [done|].
    rewrite <- (app_nil_r t), <- (app_nil_l (t ++ [])).
    by apply (decrypt_encrypted salt nonce (device_profile (api_settings s) (c_id e) (trim (rq_name request)) secret)).
  - intros [= <-]. split; [done|]. unfold check_password in Hc. rewrite Hp in Hc. by destruct (rq_platform request).
Qed.

End AdminTheorems.

(** ** Witnesses *)

Module ToyAdmin.

Import Toy ToyRegistry ToyProfile.

Definition seeds : list SeedDevice :=
  [mkSeedDevice [97] (public_key (1 :: replicate 31 2)) (ipv4_new 10 77 0 2)].

Definition opened : world :=
  match (open true true None (mkFlags ∅ 0) seeds (ipv4_new 10 77 0 1) 24).2 with
  | Ok w => w
  | _ => mkWorld (mkDeviceRegistry 0 0 [] ∅) (mkFlags ∅ 0) None
  end.

Lemma opened_inv : registry_inv opened.
Proof.
  assert (Hok : match (open true true None (mkFlags ∅ 0) seeds (ipv4_new 10 77 0 1) 24).2 with Ok _ => true | _ => false end = true)
    by (vm_compute; reflexivity).
  unfold opened. destruct (open true true None (mkFlags ∅ 0) seeds (ipv4_new 10 77 0 1) 24) as [disk [w|?|]] eqn:Ho; [|discriminate Hok..].
  eapply open_inv in Ho as [? _]; [done|vm_compute; split; congruence|lia|]. intros c _. apply lookup_empty.
Qed.

Definition token : bytes := replicate 32 116.

Definition state : ApiState :=
  mkApiState opened toy_store token (mkAdminSettings (mkSocketAddr (V4 (ipv4_new 198 51 100 7)) 51820) (ascii_bytes "server-key") (ascii_bytes "mousevpn0")).

Definition system (salt : option bytes) : Call := mkCall true (replicate 32 9) [105] salt (Some (replicate 12 2)) 18001 true.

Definition headers : list (str * bytes) := [(AUTHORIZATION, BEARER ++ token)].
Definition phone : CreateDeviceRequest := mkCreate (ascii_bytes " phone ") Android (Some (ascii_bytes "long password")).

Lemma fresh salt : fresh_key opened (c_entropy (system salt)).
Proof. intros secret public Hk. vm_compute in Hk. injection Hk as <- <-. vm_compute. reflexivity. Qed.

Lemma requests_need_the_token_witness :
  router (system None) [(AUTHORIZATION, BEARER ++ replicate 31 116)] state (DeleteDevice (Some [])) = (state, Err unauthorized).
Proof. apply (requests_need_the_token (system None)). vm_compute. discriminate. Defined.

Lemma requests_keep_the_registry_witness :
  let '(s', r) := router (system None) headers state (PostDevices (Some (mkCreate [] Linux None))) in registry_inv (api_registry s') /\ s' = state.
Proof.
  pose proof (requests_keep_the_registry (system None) headers state (PostDevices (Some (mkCreate [] Linux None))) opened_inv (fresh None)) as H.
  assert (Hr : (router (system None) headers state (PostDevices (Some (mkCreate [] Linux None)))).2 = Err (bad_request (Printed RegistryError.InvalidName)))
    by (vm_compute; reflexivity).
  destruct (router (system None) headers state (PostDevices (Some (mkCreate [] Linux None)))) as [s' r]. cbn [snd] in Hr. subst r.
  destruct H as (H1 & H2 & _). split; [exact H1|]. exact (H2 _ eq_refl ltac:(discriminate)).
Defined.

Lemma phone_provisioned : exists s' answer, router (system (Some (replicate 16 1))) headers state (PostDevices (Some phone)) = (s', Ok (Provisioned answer)).
Proof.
  assert (Hok : match (router (system (Some (replicate 16 1))) headers state (PostDevices (Some phone))).2 with Ok (Provisioned _) => true | _ => false end = true)
    by (vm_compute; reflexivity).
  destruct (router _ headers state _) as [s' [[]|?|]]; try discriminate Hok. by eexists _, _.
Qed.

Lemma provisioned_device_can_connect_witness :
  exists s' answer secret t, router (system (Some (replicate 16 1))) headers state (PostDevices (Some phone)) = (s', Ok (Provisioned answer)) /\
    rp_profile_token answer = Some t /\ decrypt_profile t (ascii_bytes "long password") = Ok (device_profile (api_settings state) [105] (ascii_bytes "phone") secret).
Proof.
  destruct phone_provisioned as (s' & answer & E).
  destruct (provisioned_device_can_connect (system (Some (replicate 16 1))) headers state phone s' answer (replicate 16 1) (replicate 12 2)
    opened_inv (fresh _) eq_refl eq_refl eq_refl eq_refl E) as (secret & public & a & _ & _ & _ & _ & _ & _ & _ & _ & t & Ht & Hd).
  exists s', answer, secret, t. split; [exact E|]. split; [exact Ht|exact Hd].
Defined.

(** When the random generator fails after the device was registered, the answer is an error:
    the device stays, and its key is lost. *)
Example key_lost :
  let '(s', r) := router (system None) headers state (PostDevices (Some phone)) in
  length (list_devices opened) = 1%nat /\ length (list_devices (api_registry s')) = 2%nat /\ r = Err internal.
Proof. vm_compute. done. Qed.

End ToyAdmin.
