(* ===== verification/Apple.v ===== *)
(** * The session of the Apple clients

    crates/apple-native/src: handshake.rs and session.rs (connecting, sending and receiving
    batches of packets) and ffi.rs (the frames in which batches cross the language border).

    The session runs on the tape of Handshake.v; [interrupted] is the shutdown flag of the
    socket, which another thread may raise, as it is read at a position of the tape.  The
    outbound and the inbound side have a lock each and no common state but the wire adapter.
    An [AppleClientError] is a text; a constructor of [ClientError] stands for it.

    The theorems: what a batch that was received consists of; a batch of frames reads back, and
    no other octets do; [receive_packets] does not return while datagrams keep coming that are
    no packets. *)

From S2P Require Import Prelude Protocol Replay Crypto ToyCrypto DataPlane Morph Speedy Config ClientWire Handshake Effects.

Definition MAX_PACKET_BATCH : Z := 32.

Record TunnelParameters := mkTunnelParameters {
  tn_client_address : Ipv4Addr;
  tn_prefix_len : Z;
  tn_dns : Ipv4Addr;
  tn_mtu : Z;
  tn_remote_address : IpAddr;
}.

Record ReceiveBatch := mkBatch { rb_packets : list bytes; rb_had_activity : bool }.

Definition tunnel_parameters (p : SessionParameters.t) (remote_address : IpAddr) : TunnelParameters :=
  mkTunnelParameters (SessionParameters.client_address p) (SessionParameters.prefix_len p) (SessionParameters.dns p)
    (SessionParameters.mtu p) remote_address.

(** The number of packets in a batch. *)
Definition validate_batch_size (length : Z) : res ClientError.t unit :=
  if (1 <=? length) && (length <=? MAX_PACKET_BATCH) then Ok tt else Err ClientError.Platform.

Section Apple.
Context `{N : Noise, P : Primitives, B : Base64}.

Record AppleSession := mkApple {
  ap_parameters : TunnelParameters;
  ap_sender : TunnelSender;
  ap_receiver : TunnelReceiver;
  ap_wire : ClientWire.t;
}.

Definition set_sender (x : TunnelSender) (s : AppleSession) : AppleSession := mkApple (ap_parameters s) x (ap_receiver s) (ap_wire s).
Definition set_receiver (x : TunnelReceiver) (s : AppleSession) : AppleSession := mkApple (ap_parameters s) (ap_sender s) x (ap_wire s).

Context (tape : nat -> moment) (interrupted : nat -> bool).

(** ** Connecting *)

(** The local address to bind; the families must agree. *)
Definition local_socket (server : SocketAddr) (local_address : option IpAddr) : res ClientError.t SocketAddr :=
  match ip server, local_address with
  | V4 _, Some (V4 a) => Ok (mkSocketAddr (V4 a) 0)
  | V6 _, Some (V6 a) => Ok (mkSocketAddr (V6 a) 0)
  | V4 _, None => Ok (mkSocketAddr (V4 0) 0)
  | V6 _, None => Ok (mkSocketAddr (V6 0) 0)
  | _, _ => Err ClientError.Platform
  end.

Definition apple_negotiate (fuel : nat) (config : ValidatedClientConfig) : M (TunnelDataPlane * SessionParameters.t) :=
  bind (prepare_request tape ClientError.Random config) (fun '(session_id, handshake, request) =>
  bind (read_clock tape) (fun started =>
  run_attempt tape is_retryable ClientError.InvalidHandshakeResponse fuel session_id handshake request started
    (started + HANDSHAKE_TIMEOUT))).

Definition apple_connect (fuel : nat) (config : ValidatedClientConfig) (local_address : option IpAddr)
    : M (TunnelDataPlane * SessionParameters.t) :=
  bind (lift (local_socket (vc_server config) local_address)) (fun _ =>
  bind (socket_call tape) (fun _ => apple_negotiate fuel config)).

(** The adapter is made first; the socket is cloned twice. *)
Definition connect_validated (fuel : nat) (config : ValidatedClientConfig) (local_address : option IpAddr) : M AppleSession :=
  bind (lift (map_err ClientError.Wire (ClientWire.from_config config))) (fun adapter =>
  bind (fun w => (mkWorld (pos w) (sent w) adapter, Some (Ok tt))) (fun _ =>
  bind (apple_connect fuel config local_address) (fun '(plane, negotiated) =>
  bind (socket_call tape) (fun _ =>
  bind (socket_call tape) (fun _ =>
  let '(sender, receiver) := TunnelDataPlane_split plane in
  fun w => (w, Some (Ok (mkApple (tunnel_parameters negotiated (ip (vc_server config))) sender receiver (wire w))))))))).

Definition is_ipv4 (a : SocketAddr) : bool := match ip a with V4 _ => true | V6 _ => false end.

(** [resolved] is what [to_socket_addrs] makes of the endpoint. *)
Definition connect_from_with_protocol (fuel : nat) (resolved : res IoError (list SocketAddr)) (server_public_key client_private_key : str)
    (local_address : option IpAddr) (protocol : ClientProtocol) : M AppleSession :=
  bind (lift (addresses ← map_err ClientError.Io resolved;
              server ← ok_or (List.find is_ipv4 addresses) ClientError.Platform;
              map_err (fun _ => ClientError.Platform)
                (ClientConfig_validate (mkClientConfig server server_public_key client_private_key (ascii_bytes "utun") protocol))))
    (fun config => connect_validated fuel config local_address).

(** ** The socket *)

Definition flag_at : M bool := fun w => (w, Some (Ok (interrupted (pos w)))).

Definition apple_send (d : bytes) : M (res IoError unit) :=
  bind flag_at (fun shutdown =>
  bind (moment_at tape) (fun m w =>
    let r := transport_send shutdown (m_sent m) d in
    (mkWorld (pos w) (match r with Ok _ => sent w ++ [d] | _ => sent w end) (wire w), Some (Ok r)))).

Definition apple_receive : M (res IoError bytes) :=
  bind flag_at (fun before =>
  bind (moment_at tape) (fun m =>
  bind flag_at (fun after => ret (transport_receive before after (m_arrival m))))).

Abbreviation L := (Effects.L AppleSession) (only parsing).
Notation "x <- m ; k" := (lbind m (fun x => k)) (at level 100, m at next level, right associativity).

(** ** Sending *)

Definition apple_encode_ip (packet : bytes) : L bytes := fun s w =>
  let '(sender, r) := TunnelSender_encode_ip_into (ap_sender s) packet [] in
  (set_sender sender s, w, Some (map_err ClientError.DataPlane r)).

Definition apple_encode_keepalive : L bytes := fun s w =>
  let '(sender, r) := TunnelSender_encode_keepalive_into (ap_sender s) [] in
  (set_sender sender s, w, Some (map_err ClientError.DataPlane r)).

Definition send_wired (inner : bytes) : L unit :=
  datagram <- run_m (wire_encode tape inner);
  r <- run_m (apple_send datagram);
  lres (map_err ClientError.Io r).

Fixpoint send_each (packets : list bytes) : L unit :=
  match packets with
  | [] => lret tt
  | packet :: packets =>
      inner <- apple_encode_ip packet;
      _ <- send_wired inner;
      send_each packets
  end.

Definition send_packets (packets : list bytes) : L Z :=
  _ <- lres (validate_batch_size (len packets));
  _ <- send_each packets;
  lret (len packets).

Definition send_keepalive : L unit :=
  inner <- apple_encode_keepalive;
  send_wired inner.

(** ** Receiving *)

(** What a datagram is to the session. *)
Definition apple_unwrap (datagram : bytes) : L (option Datagram.t) :=
  r <- run_m (wire_decode tape datagram);
  match r with
  | Ok (true, input) =>
      if negb (looks_like_protocol_datagram input) then lret None
      else
        match Datagram.decode input with
        | Ok decoded => lret (Some decoded)
        | Err _ => lret None
        | Panic => lres Panic
        end
  | Ok (false, _) | Err _ => lret None
  | Panic => lres Panic
  end.

Definition apple_decode (d : Datagram.t) : L (res DataPlaneError.t Decoded) := fun s w =>
  let '(receiver, r) := TunnelReceiver_decode_into (ap_receiver s) d in
  (set_receiver receiver s, w, Some (Ok r)).

(** What a decoded datagram adds. *)
Definition add_decoded (r : res DataPlaneError.t Decoded) (b : ReceiveBatch) : ReceiveBatch :=
  match r with
  | Ok (Ip packet) => mkBatch (rb_packets b ++ [packet]) true
  | Ok Keepalive => mkBatch (rb_packets b) true
  | _ => b
  end.

(** The loop; [None] when the fuel is spent. *)
Fixpoint receive_loop (fuel : nat) (maximum : Z) (batch : ReceiveBatch) : L ReceiveBatch :=
  match fuel with
  | O => fun s w => (s, w, None)
  | S fuel =>
      if negb (len (rb_packets batch) <? maximum) then lret batch
      else
        r <- run_m apple_receive;
        match r with
        | Err e => if is_retryable e then lret batch else lthrow (ClientError.Io e)
        | Panic => lres Panic
        | Ok datagram =>
            parsed <- apple_unwrap datagram;
            match parsed with
            | None => receive_loop fuel maximum batch
            | Some d =>
                r <- apple_decode d;
                match r with
                | Panic => lres Panic
                | _ =>
                    let batch := add_decoded r batch in
                    _ <- (if len (rb_packets batch) =? 1 then socket tape else lret tt);
                    receive_loop fuel maximum batch
                end
            end
        end
  end.

Definition receive_packets (fuel : nat) (maximum : Z) : L ReceiveBatch :=
  _ <- lres (validate_batch_size maximum);
  _ <- socket tape;
  receive_loop fuel maximum (mkBatch [] false).

End Apple.

(** ** Frames *)

Definition MAX_FRAMED_PACKET : Z := 65535.

(** The number at the cursor, and the cursor behind it. *)
Definition read_u32 (input : bytes) (cursor : Z) : res ClientError.t (Z * Z) :=
  let stop := cursor + 4 in
  b ← ok_or (get_range input cursor stop) ClientError.Platform;
  Ok (be_value b, stop).

Fixpoint decode_packets (n : nat) (input : bytes) (cursor : Z) : res ClientError.t (list bytes * Z) :=
  match n with
  | O => Ok ([], cursor)
  | S n =>
      '(length, cursor) ← read_u32 input cursor;
      if (length =? 0) || (MAX_FRAMED_PACKET <? length) || (len input - cursor <? length) then Err ClientError.Platform
      else
        packet ← slice input cursor (cursor + length);
        '(packets, cursor) ← decode_packets n input (cursor + length);
        Ok (packet :: packets, cursor)
  end.

Definition decode_batch (input : bytes) : res ClientError.t (list bytes) :=
  '(count, cursor) ← read_u32 input 0;
  if negb ((1 <=? count) && (count <=? MAX_PACKET_BATCH)) then Err ClientError.Platform
  else
    '(packets, cursor) ← decode_packets (Z.to_nat count) input cursor;
    if negb (cursor =? len input) then Err ClientError.Platform else Ok packets.

Definition write_u32 (value : Z) : res ClientError.t bytes := if value <=? u32_max then Ok (be_bytes 4 value) else Err ClientError.Platform.

Fixpoint encode_packets (packets : list bytes) : res ClientError.t bytes :=
  match packets with
  | [] => Ok []
  | packet :: packets =>
      length ← write_u32 (len packet);
      rest ← encode_packets packets;
      Ok (length ++ packet ++ rest)
  end.

Definition encode_batch (packets : list bytes) : res ClientError.t bytes :=
  count ← write_u32 (len packets);
  rest ← encode_packets packets;
  Ok (count ++ rest).

(** ** The calls over the border *)

Section Calls.
Context `{N : Noise, P : Primitives} (tape : nat -> moment) (interrupted : nat -> bool).

Notation "x <- m ; k" := (lbind m (fun x => k)) (at level 100, m at next level, right associativity).

(** A null pointer is [None]. *)
Definition required_bytes (value : option bytes) : res ClientError.t bytes :=
  match value with
  | Some b => if len b =? 0 then Err ClientError.Platform else Ok b
  | None => Err ClientError.Platform
  end.

Definition mousevpn_apple_send_packet_batch (framed_packets : option bytes) : Effects.L AppleSession unit :=
  framed <- lres (required_bytes framed_packets);
  packets <- lres (decode_batch framed);
  _ <- send_packets tape interrupted packets;
  lret tt.

(** The result code and the frames; 0 when nothing came. *)
Definition mousevpn_apple_receive_packet_batch (fuel : nat) (maximum_packets : Z) : Effects.L AppleSession (Z * bytes) :=
  batch <- receive_packets tape interrupted fuel maximum_packets;
  if bool_decide (rb_packets batch = []) then lret (0, [])
  else
    framed <- lres (encode_batch (rb_packets batch));
    lret (1, framed).

(** A panic is caught and is an error as well. *)
Definition ffi_bool (r : res ClientError.t unit) : bool := match r with Ok _ => true | Err _ | Panic => false end.
Definition ffi_i32 (r : res ClientError.t (Z * bytes)) : Z := match r with Ok (code, _) => code | Err _ | Panic => -1 end.

End Calls.

Definition framed (packet : bytes) : Prop := 1 <= len packet <= MAX_FRAMED_PACKET.

Lemma write_u32_ok v : 0 <= v <= u32_max -> write_u32 v = Ok (be_bytes 4 v).
Proof. intros H. unfold write_u32. by rewrite (proj2 (Z.leb_le _ _)) by lia. Qed.

(** Reading at the end of [done]. *)
Lemma read_u32_app done v rest : 0 <= v <= u32_max -> read_u32 (done ++ be_bytes 4 v ++ rest) (len done) = Ok (v, len done + 4).
Proof.
  intros Hv. unfold read_u32, get_range. rewrite decide_True by (rewrite !len_app; unfold len; cbn; lia). cbn [ok_or]. res_simpl.
  replace (sub_list _ _ _) with (be_bytes 4 v); [rewrite be_value_bytes, Z.mod_small; [done|unfold u32_max in Hv; cbn; lia]|].
  unfold sub_list, len. replace (Z.to_nat (Z.of_nat (length done) + 4 - Z.of_nat (length done))) with 4%nat by lia.
  rewrite Nat2Z.id, drop_app_length. by rewrite (take_app_length' (be_bytes 4 v)).
Qed.

Lemma decode_encoded packets done : Forall framed packets -> exists rest, encode_packets packets = Ok rest /\
  decode_packets (length packets) (done ++ rest) (len done) = Ok (packets, len (done ++ rest)).
Proof.
  intros H. revert done. induction H as [|p packets [Hp1 Hp2] Hp IH]; intros done; [exists []; by rewrite app_nil_r|].
  unfold MAX_FRAMED_PACKET in Hp2. destruct (IH (done ++ be_bytes 4 (len p) ++ p)) as (rest & He & Hd). cbn [encode_packets length decode_packets].
  rewrite write_u32_ok, He by (unfold u32_max; lia). res_simpl. eexists. split; [done|]. rewrite <- !app_assoc in Hd.
  rewrite read_u32_app by (unfold u32_max; lia). cbn [fst snd]. rewrite !len_app.
  replace (len (be_bytes 4 (len p))) with 4 by done. pose proof (len_nonneg rest). unfold MAX_FRAMED_PACKET.
  destruct (Z.eqb_spec (len p) 0), (Z.ltb_spec 65535 (len p)), (Z.ltb_spec (len done + (4 + (len p + len rest)) - (len done + 4)) (len p)); try lia. cbn [orb].
  rewrite slice_ok by (rewrite ?len_app; replace (len (be_bytes 4 (len p))) with 4 by done; pose proof (len_nonneg done); lia). res_simpl.
  replace (sub_list _ _ _) with p.
  - rewrite !len_app in Hd. replace (len (be_bytes 4 (len p))) with 4 in Hd by done.
    replace (len done + 4 + len p) with (len done + (4 + len p)) by lia. by rewrite Hd.
  - unfold sub_list, len. rewrite app_assoc. replace (Z.to_nat (Z.of_nat (length done) + 4)) with (length (done ++ be_bytes 4 (Z.of_nat (length p)))) by (rewrite length_app; cbn; lia).
    rewrite drop_app_length. replace (Z.to_nat _) with (length p) by lia. by rewrite take_app_length.
Qed.

(** Reading splits the input. *)
Lemma read_u32_inv input c v c' : is_bytes input -> 0 <= c -> read_u32 input c = Ok (v, c') ->
  c' = c + 4 /\ c' <= len input /\ 0 <= v <= u32_max /\ sub_list input c c' = be_bytes 4 v.
Proof.
  intros Hb Hc. unfold read_u32, get_range. case_decide as Hr; [|done]. cbn [ok_or]. res_simpl. intros [= <- <-].
  assert (Hl : length (sub_list input c (c + 4)) = 4%nat) by (unfold sub_list, len in *; rewrite length_take, length_drop; lia).
  assert (Hs : is_bytes (sub_list input c (c + 4))).
  { unfold is_bytes, sub_list in *. apply Forall_take, Forall_drop, Hb. }
  pose proof (be_value_bound _ Hs) as Hv. unfold len in Hv. rewrite Hl in Hv. split; [done|]. split; [lia|].
  split; [unfold u32_max; cbn in Hv; lia|]. pose proof (be_bytes_value _ Hs) as Hx. by rewrite Hl in Hx.
Qed.

Lemma sub_list_split (l : bytes) a b c : 0 <= a <= b -> b <= c -> c <= len l -> sub_list l a b ++ sub_list l b c = sub_list l a c.
Proof.
  intros Hab Hbc Hc. unfold sub_list, len in *.
  replace (Z.to_nat b) with (Z.to_nat a + Z.to_nat (b - a))%nat by lia. rewrite <- drop_drop.
  rewrite take_take_drop. f_equal. lia.
Qed.

Lemma sub_list_len (l : bytes) a b : 0 <= a <= b -> b <= len l -> len (sub_list l a b) = b - a.
Proof. intros. unfold sub_list, len in *. rewrite length_take, length_drop. lia. Qed.

Lemma decode_packets_inv n input c packets c' : is_bytes input -> 0 <= c <= len input ->
  decode_packets n input c = Ok (packets, c') ->
  length packets = n /\ Forall framed packets /\ c <= c' <= len input /\ encode_packets packets = Ok (sub_list input c c').
Proof.
  intros Hb. revert c packets c'. induction n as [|n IH]; intros c packets c' Hc; cbn [decode_packets].
  { intros [= <- <-]. split; [done|]. split; [constructor|]. split; [lia|]. unfold sub_list. replace (Z.to_nat (c - c)) with 0%nat by lia. done. }
  intros ([v c1] & Hr & H)%bind_ok. apply read_u32_inv in Hr as (-> & Hle & Hv & Hs); [|done|lia]. revert H.
  case_if; [done|]. boolify. rewrite slice_ok by lia. res_simpl.
  destruct (decode_packets n input (c + 4 + v)) as [[rest c2]|e|] eqn:Hd; [|done..]. intros [= <- <-].
  destruct (IH (c + 4 + v) rest c2 ltac:(lia) Hd) as (Hn & Hf & Hc2 & He).
  pose proof (sub_list_len input (c + 4) (c + 4 + v) ltac:(lia) ltac:(lia)) as Hpl.
  split; [cbn; lia|]. split; [constructor; [unfold framed; rewrite Hpl; lia|done]|]. split; [lia|]. cbn [encode_packets].
  rewrite write_u32_ok, He by lia. res_simpl. f_equal. rewrite Hpl. replace (c + 4 + v - (c + 4)) with v by lia. rewrite <- Hs.
  rewrite sub_list_split by lia. apply sub_list_split; lia.
Qed.

Lemma read_u32_no_panic input c : no_panic (read_u32 input c).
Proof. unfold read_u32. by destruct (get_range _ _ _). Qed.

Lemma decode_packets_no_panic n input c : is_bytes input -> 0 <= c -> no_panic (decode_packets n input c).
Proof.
  intros Hb. revert c. induction n as [|n IH]; intros c Hc; cbn [decode_packets]; [done|]. pose proof (read_u32_no_panic input c).
  destruct (read_u32 input c) as [[v c']|e|] eqn:Hr; [|done..]. apply read_u32_inv in Hr as (-> & Hle & Hv & _); [|done..]. res_simpl.
  case_if; [done|]. boolify. rewrite slice_ok by lia. res_simpl.
  specialize (IH (c + 4 + v) ltac:(lia)). by destruct (decode_packets _ _ _) as [[]|?|].
Qed.

Lemma decode_batch_no_panic input : is_bytes input -> no_panic (decode_batch input).
Proof.
  intros Hb. unfold decode_batch. pose proof (read_u32_no_panic input 0). destruct (read_u32 input 0) as [[count c]|e|] eqn:Hr; [|done..].
  apply read_u32_inv in Hr as (-> & _); [|done..]. res_simpl. case_if; [done|].
  pose proof (decode_packets_no_panic (Z.to_nat count) input (0 + 4) Hb ltac:(lia)). destruct (decode_packets _ _ _) as [[]|?|]; [|done..]. by case_if.
Qed.

(** Frames.  A batch that may be sent is framed to octets that read back to it, and octets
    that are accepted are exactly the frame of the batch they are read as: between 1 and 32
    packets of 1 to 65535 octets each, and nothing behind them.  No input makes the reader
    index out of range. *)
Theorem frames_roundtrip :
  (forall packets, 1 <= len packets <= MAX_PACKET_BATCH -> Forall framed packets ->
     exists input, encode_batch packets = Ok input /\ decode_batch input = Ok packets) /\
  (forall input, is_bytes input ->
     match decode_batch input with
     | Ok packets => encode_batch packets = Ok input /\ 1 <= len packets <= MAX_PACKET_BATCH /\ Forall framed packets
     | Err _ => True
     | Panic => False
     end).
Proof.
  split.
  - intros packets Hn Hf. unfold encode_batch. rewrite write_u32_ok by (unfold MAX_PACKET_BATCH, u32_max in *; lia).
    destruct (decode_encoded packets (be_bytes 4 (len packets)) Hf) as (rest & -> & Hd). res_simpl. eexists. split; [done|].
    unfold decode_batch. pose proof (read_u32_app [] (len packets) rest ltac:(unfold MAX_PACKET_BATCH, u32_max in *; lia)) as Hr.
    change (len []) with 0 in Hr. cbn [app] in Hr. rewrite Hr.
    res_simpl. rewrite (proj2 (Z.leb_le 1 (len packets))), (proj2 (Z.leb_le (len packets) MAX_PACKET_BATCH)) by lia. cbn [andb negb].
    replace (Z.to_nat (len packets)) with (length packets) by (unfold len; lia).
    change (0 + 4) with (len (be_bytes 4 (len packets))). rewrite Hd. by rewrite Z.eqb_refl.
  - intros input Hb. pose proof (decode_batch_no_panic input Hb) as Hp. destruct (decode_batch input) as [packets|e|] eqn:E; [|done..].
    revert E. unfold decode_batch. intros ([count c] & Hr & E)%bind_ok. apply read_u32_inv in Hr as (-> & Hle & Hv & Hs); [|done|lia].
    revert E. case_if; [done|]. intros ([ps c'] & Hd & E)%bind_ok. revert E. case_if; [done|]. intros [= ->]. boolify.
    apply decode_packets_inv in Hd as (Hn & Hf & Hc & He); [|done|lia]. assert (Hl : len packets = count) by (unfold len; lia).
    split; [|split; [lia|done]]. unfold encode_batch. rewrite Hl, write_u32_ok, He by lia. res_simpl. f_equal. rewrite <- Hs.
    rewrite sub_list_split by lia. subst c'. unfold sub_list. replace (Z.to_nat (len input - 0)) with (length input) by (unfold len; lia).
    apply take_ge. done.
Qed.

(** ** What is received *)

Section Received.
Context `{N : Noise, NL : !NoiseLaws, P : Primitives} (tape : nat -> moment) (interrupted : nat -> bool).

(** The datagrams of a session, one after the other: the packets they carry. *)
Fixpoint deliver (r : TunnelReceiver) (ds : list Datagram.t) : TunnelReceiver * list bytes :=
  match ds with
  | [] => (r, [])
  | d :: ds =>
      let '(r, out) := TunnelReceiver_decode_into r d in
      let '(r, packets) := deliver r ds in
      (r, match out with Ok (Ip packet) => packet :: packets | _ => packets end)
  end.

(** [d] is what the adapter of the session, with the keys of [keys] and whatever it has cached,
    finds in the datagram that arrives at position [i]. *)
Definition arrived (keys : ClientWire.t) (i : nat) (d : Datagram.t) : Prop :=
  exists datagram adapter inner, ClientWire.same_keys keys adapter /\ m_arrival (tape i) = Ok datagram /\
    (ClientWire.decode (m_wall (tape (S i))) adapter datagram).2 = Ok (true, inner) /\ Datagram.decode inner = Ok d.

(** Datagrams with their positions, one after the other, between two positions. *)
Fixpoint arrivals (keys : ClientWire.t) (from to : nat) (ds : list (nat * Datagram.t)) : Prop :=
  match ds with
  | [] => True
  | (i, d) :: ds => (from <= i < to)%nat /\ arrived keys i d /\ arrivals keys (S i) to ds
  end.

Lemma arrivals_mono keys from to from' ds : (from' <= from)%nat -> arrivals keys from to ds -> arrivals keys from' to ds.
Proof. destruct ds as [|[i d] ds]; [done|]. intros Hle (Hi & H). split; [lia|done]. Qed.

Lemma apple_receive_eq w : apple_receive tape interrupted w =
  (mkWorld (S (pos w)) (sent w) (wire w),
   Some (Ok (transport_receive (interrupted (pos w)) (interrupted (S (pos w))) (m_arrival (tape (pos w)))))).
Proof. done. Qed.

Lemma apple_unwrap_inv datagram (s s1 : AppleSession) w w1 o :
  apple_unwrap tape datagram s w = (s1, w1, Some (Ok o)) -> s1 = s /\ pos w1 = S (pos w) /\
  wire w1 = (ClientWire.decode (m_wall (tape (pos w))) (wire w) datagram).1 /\
  match o with
  | None => True
  | Some d => exists inner, (ClientWire.decode (m_wall (tape (pos w))) (wire w) datagram).2 = Ok (true, inner) /\ Datagram.decode inner = Ok d
  end.
Proof.
  unfold apple_unwrap, lbind, run_m, wire_decode, bind, moment_at. cbn [wire pos sent].
  destruct (ClientWire.decode (m_wall (tape (pos w))) (wire w) datagram) as [adapter [[[] inner]|e|]]; cbn [snd];
    try (intros [= <- <- <-]; done).
  destruct (negb (looks_like_protocol_datagram inner)); [intros [= <- <- <-]; done|].
  destruct (Datagram.decode inner) as [d|e|] eqn:E; intros [= <- <- <-]; try done. split; [done|]. split; [done|]. split; [done|]. by exists inner.
Qed.

Lemma socket_inv (s s1 : AppleSession) w w1 : socket tape s w = (s1, w1, Some (Ok tt)) -> s1 = s /\ (pos w <= pos w1)%nat /\ wire w1 = wire w.
Proof.
  unfold socket, run_m, socket_call, bind, moment_at, lift, map_err. destruct (m_socket (tape (pos w))) as [[]|e|]; intros [= <- <-].
  split; [done|]. cbn. split; [lia|done].
Qed.

Lemma maybe_socket_inv (b : bool) (s s1 : AppleSession) w w1 :
  (if b then socket tape else lret tt) s w = (s1, w1, Some (Ok tt)) -> s1 = s /\ (pos w <= pos w1)%nat /\ wire w1 = wire w.
Proof. destruct b; [apply socket_inv|]. intros [= <- <-]. split; [done|]. split; [lia|done]. Qed.

(** The packets of the loop are those of the datagrams that arrived meanwhile, in order. *)
Lemma receive_loop_inv keys fuel maximum batch s w s' w' batch' :
  ClientWire.same_keys keys (wire w) -> len (rb_packets batch) <= maximum ->
  receive_loop tape interrupted fuel maximum batch s w = (s', w', Some (Ok batch')) ->
  (pos w <= pos w')%nat /\ ap_parameters s' = ap_parameters s /\ ap_sender s' = ap_sender s /\
  len (rb_packets batch') <= maximum /\
  exists ds packets, arrivals keys (pos w) (pos w') ds /\ deliver (ap_receiver s) (map snd ds) = (ap_receiver s', packets) /\
    rb_packets batch' = rb_packets batch ++ packets.
Proof.
  revert batch s w. induction fuel as [|fuel IH]; intros batch s w Hkeys Hm; cbn [receive_loop]; [done|].
  case_if; [intros [= <- <- <-]; split; [lia|]; do 3 (split; [done|]); exists [], []; by rewrite app_nil_r|]. boolify.
  intros (s1 & w1 & r & Hr & H)%lbind_inv. unfold run_m in Hr. rewrite apple_receive_eq in Hr. injection Hr as <- <- <-.
  destruct (transport_receive _ _ _) as [datagram|e|] eqn:Et; [| |done].
  2:{ revert H. case_if; [|done]. intros [= <- <- <-]. cbn [pos]. split; [lia|]. do 3 (split; [done|]). exists [], []. by rewrite app_nil_r. }
  assert (Ha : m_arrival (tape (pos w)) = Ok datagram).
  { revert Et. unfold transport_receive. case_if; [done|]. intros (x & Hx & Hy)%bind_ok. revert Hy. case_if; [done|]. by intros [= ->]. }
  revert H. intros (s2 & w2 & o & Hu & H)%lbind_inv. apply apple_unwrap_inv in Hu as (-> & Hp2 & Hw2 & Hu). cbn [pos wire] in Hp2, Hw2, Hu.
  assert (Hkeys2 : ClientWire.same_keys keys (wire w2)) by (rewrite Hw2; by apply ClientWire.decode_same_keys).
  destruct o as [d|].
  2:{ cbv beta iota in H. apply IH in H as (Hp & Hpa & Hs & Hl & ds & packets & Hf & Hd & Hb); [|done|done]. split; [lia|]. do 3 (split; [done|]). exists ds, packets.
      split; [|done]. revert Hf. apply arrivals_mono. lia. }
  destruct Hu as (inner & Hw & Hdec). revert H. intros (s3 & w3 & out & Ho & H)%lbind_inv. unfold apple_decode in Ho.
  destruct (TunnelReceiver_decode_into (ap_receiver s) d) as [receiver out'] eqn:Etr. injection Ho as <- <- <-.
  assert (Hstep : len (rb_packets (add_decoded out' batch)) <= maximum /\ exists step, (forall ps, match out' with Ok (Ip p) => p :: ps | _ => ps end = step ++ ps) /\
    rb_packets (add_decoded out' batch) = rb_packets batch ++ step).
  { destruct out' as [[p|]|e|]; cbn [add_decoded rb_packets]; [split; [rewrite len_app; unfold len in *; cbn; lia|by exists [p]]|..];
      (split; [lia|exists []; by rewrite app_nil_r]). }
  destruct Hstep as (Hl' & step & Hstep & Hb').
  assert (H' : lbind (if len (rb_packets (add_decoded out' batch)) =? 1 then socket tape else lret tt)
    (fun _ => receive_loop tape interrupted fuel maximum (add_decoded out' batch)) (set_receiver receiver s) w2 = (s', w', Some (Ok batch')))
    by (destruct out'; [exact H|exact H|done]). clear H.
  apply lbind_inv in H' as (s4 & w4 & [] & Hsock & H). apply maybe_socket_inv in Hsock as (-> & Hp4 & Hw4). rewrite <- Hw4 in Hkeys2.
  apply IH in H as (Hp & Hpa & Hs & Hl & ds & packets & Hf & Hd & Hb); [|done|done]. split; [lia|]. do 3 (split; [done|]).
  exists ((pos w, d) :: ds), (step ++ packets). split; [split; [lia|split]|split].
  - by exists datagram, (wire w), inner.
  - revert Hf. apply arrivals_mono. lia.
  - cbn [map snd deliver]. rewrite Etr. change (ap_receiver (set_receiver receiver s)) with receiver in Hd. rewrite Hd. by rewrite Hstep.
  - rewrite Hb, Hb'. by rewrite <- app_assoc.
Qed.

(** ** Authenticity *)

Lemma verdict_add a q q' : ReplaySpec.verdict (ReplaySpec.add a q) q' = Ok tt -> q' <> q /\ ReplaySpec.verdict a q' = Ok tt.
Proof.
  unfold ReplaySpec.verdict, ReplaySpec.add. cbn [ReplaySpec.highest ReplaySpec.accepted].
  case_decide as H1; [done|]. case_decide as H2; [done|]. intros _. split; [set_solver|].
  destruct (ReplaySpec.highest a) as [h|]; [|done]. rewrite decide_False by lia. rewrite decide_False by set_solver. done.
Qed.

(** A packet and the datagram of the session that carried it, under the transport keys. *)
Definition carried (r : TunnelReceiver) (d : Datagram.t) (packet : bytes) : Prop :=
  Header.session_id (Datagram.header d) = tr_session_id r /\ Header.kind (Datagram.header d) = PacketKind.Data /\
  (exists padding, read_message (recv_transport (tr_crypto r)) (Header.sequence (Datagram.header d)) (Datagram.payload d)
     (len (Datagram.payload d)) = Some (1 :: packet ++ padding)) /\
  carries (tr_mtu r) packet.

Abbreviation sequence d := (Header.sequence (Datagram.header d)) (only parsing).

Lemma deliver_authentic r a ds r' packets :
  represents (recv_window (tr_crypto r)) a -> Forall (fun d => 0 <= sequence d) ds -> deliver r ds = (r', packets) ->
  exists chosen, Forall2 (carried r) chosen packets /\ chosen `sublist_of` ds /\
    NoDup (map (fun d => sequence d) chosen) /\ Forall (fun d => ReplaySpec.verdict a (sequence d) = Ok tt) chosen.
Proof.
  intros Hr Hq. revert r a r' packets Hr. induction Hq as [|d ds Hd Hds IH]; intros r a r' packets Hr; cbn [deliver].
  { intros [= <- <-]. exists []. split_and!; constructor. }
  pose proof (receiver_decode_spec r a d Hr Hd) as Hs. cbv zeta in Hs. destruct (TunnelReceiver_decode_into r d) as [r1 out].
  destruct Hs as (Hid & Hmtu & Hkey & Hs). destruct (deliver r1 ds) as [r2 ps] eqn:E. intros [= <- <-].
  assert (Hsame : forall x p, carried r1 x p -> carried r x p) by (unfold carried; intros x p; by rewrite Hid, Hmtu, Hkey).
  assert (Hrest : forall a1, represents (recv_window (tr_crypto r1)) a1 ->
    exists chosen, Forall2 (carried r) chosen ps /\ chosen `sublist_of` ds /\ NoDup (map (fun d => sequence d) chosen) /\
      Forall (fun d => ReplaySpec.verdict a1 (sequence d) = Ok tt) chosen).
  { intros a1 Ha1. destruct (IH r1 a1 r2 ps Ha1 E) as (chosen & H1 & H2 & H3 & H4). exists chosen. split_and!; [|done..].
    revert H1. by apply List.Forall2_impl. }
  assert (Hskip : represents (recv_window (tr_crypto r1)) a \/ represents (recv_window (tr_crypto r1)) (ReplaySpec.add a (sequence d)) ->
    exists chosen, Forall2 (carried r) chosen ps /\ chosen `sublist_of` d :: ds /\ NoDup (map (fun d => sequence d) chosen) /\
      Forall (fun d => ReplaySpec.verdict a (sequence d) = Ok tt) chosen).
  { intros [Ha|Ha]; destruct (Hrest _ Ha) as (chosen & H1 & H2 & H3 & H4); exists chosen; (split_and!; [done|by apply sublist_cons|done|]); [done|].
    revert H4. apply List.Forall_impl. intros x Hx. exact (proj2 (verdict_add _ _ _ Hx)). }
  destruct out as [[packet|]|e|]; [|apply Hskip; right; by destruct Hs as (_ & _ & ? & _)| |done].
  - destruct Hs as (Hsid & Hv & Ha & Hk & Hpad & Hval & Htl & Hlen). destruct (Hrest _ Ha) as (chosen & H1 & H2 & H3 & H4).
    exists (d :: chosen). split_and!.
    + constructor; [|done]. by split_and!.
    + by constructor.
    + cbn [map]. constructor; [|done]. intros Hin. apply list_elem_of_In, in_map_iff in Hin as (x & Hx & Hin).
      rewrite List.Forall_forall in H4. specialize (H4 x Hin). cbn beta in H4. rewrite Hx in H4. by apply verdict_add in H4 as [? _].
    + constructor; [done|]. revert H4. apply List.Forall_impl. intros x Hx. exact (proj2 (verdict_add _ _ _ Hx)).
  - apply Hskip. destruct Hs as [->|(_ & _ & ?)]; [by left|by right].
Qed.

(** [C35] What [receive_packets] returns.  At most as many packets as were asked for, and
    nothing of the sending side changes.  They are what the receiver makes of datagrams that
    arrived during the call, taken one after the other at increasing positions of the
    interaction and unwrapped under the keys of the session's adapter, so the packets are in
    the order of arrival; and if the numbers of the datagrams are those of octets, every
    packet is the authenticated contents of a data datagram of this session, valid and within
    the MTU, and no sequence number is used twice nor one that the window had refused before. *)
Theorem received_packets_are_authentic fuel maximum a keys s w s' w' batch :
  represents (recv_window (tr_crypto (ap_receiver s))) a -> ClientWire.same_keys keys (wire w) ->
  receive_packets tape interrupted fuel maximum s w = (s', w', Some (Ok batch)) ->
  len (rb_packets batch) <= maximum <= MAX_PACKET_BATCH /\ ap_parameters s' = ap_parameters s /\ ap_sender s' = ap_sender s /\
  exists ds, arrivals keys (pos w) (pos w') ds /\ deliver (ap_receiver s) (map snd ds) = (ap_receiver s', rb_packets batch) /\
    (Forall (fun d => 0 <= sequence d) (map snd ds) ->
     exists chosen, Forall2 (carried (ap_receiver s)) chosen (rb_packets batch) /\ chosen `sublist_of` map snd ds /\
       NoDup (map (fun d => sequence d) chosen) /\ Forall (fun d => ReplaySpec.verdict a (sequence d) = Ok tt) chosen).
Proof.
  intros Hr Hkeys. unfold receive_packets. intros (s1 & w1 & [] & Hv & H)%lbind_inv. unfold lres in Hv. injection Hv as <- <- Hv.
  unfold validate_batch_size in Hv. revert Hv. case_if; [|done]. intros _. boolify.
  revert H. intros (s2 & w2 & [] & Hs & H)%lbind_inv. apply socket_inv in Hs as (-> & Hp & Hw2). rewrite <- Hw2 in Hkeys.
  apply (receive_loop_inv keys) in H as (Hp' & Hpa & Hse & Hl & ds & packets & Hf & Hd & Hb); [|done|unfold len; cbn; lia].
  cbn [rb_packets app] in Hb. subst packets. split; [lia|]. split; [done|]. split; [done|]. exists ds.
  split; [revert Hf; apply arrivals_mono; lia|]. split; [done|].
  intros Hq. by apply (deliver_authentic _ a (map snd ds) (ap_receiver s')).
Qed.

(** ** A flood *)

(** A datagram that is not for the session is read and forgotten: while such datagrams keep
    coming, the call does not return, whatever the timeout. *)
Theorem junk_holds_the_call fuel maximum s w :
  (forall i, interrupted i = false) -> (forall i, m_arrival (tape i) = Ok []) -> wire w = ClientWire.Legacy ->
  m_socket (tape (pos w)) = Ok tt -> 1 <= maximum <= MAX_PACKET_BATCH ->
  (receive_packets tape interrupted fuel maximum s w).2 = None.
Proof.
  intros Hi Ha Hw Hs Hm. unfold receive_packets, lbind at 1, lres, validate_batch_size.
  rewrite (proj2 (Z.leb_le 1 maximum)), (proj2 (Z.leb_le maximum MAX_PACKET_BATCH)) by lia. cbn [andb].
  unfold lbind at 1, socket, run_m, socket_call, bind, moment_at, lift. cbn [map_err]. rewrite Hs. cbn [map_err].
  assert (Hloop : forall n w, wire w = ClientWire.Legacy -> (receive_loop tape interrupted n maximum (mkBatch [] false) s w).2 = None); [|by apply Hloop].
  clear w Hw Hs. induction n as [|n IH]; intros w Hw; [done|]. cbn [receive_loop rb_packets]. unfold len at 1. cbn [length].
  destruct (Z.ltb_spec (Z.of_nat 0) maximum); [|lia]. cbn [negb]. unfold lbind at 1, run_m. rewrite apple_receive_eq, !Hi, Ha.
  cbn [transport_receive]. unfold lbind at 1, apple_unwrap, lbind at 1, run_m, wire_decode, bind, moment_at. cbn [wire pos sent]. rewrite Hw.
  cbn. by apply IH.
Qed.

End Received.

(** ** Witnesses *)

Module ToyApple.

Import Toy.

Lemma frames_roundtrip_witness :
  exists input, encode_batch [[69; 0; 0; 20]; [69; 1; 2; 3; 4]] = Ok input /\ decode_batch input = Ok [[69; 0; 0; 20]; [69; 1; 2; 3; 4]].
Proof.
  destruct frames_roundtrip as [H _]. apply H; [vm_compute; split; congruence|repeat constructor; vm_compute; congruence].
Defined.

Definition toy_halves := TunnelDataPlane_split (TunnelDataPlane_new 77 100 toy_session).
Definition toy_datagrams : list bytes := sender_run toy_halves.1 (map SendIp [toy_packet 4; toy_packet 5]).

(** The second datagram first, then the first one for ever. *)
Definition toy_tape (i : nat) : moment :=
  mkMoment (Z.of_nat i) (Some 0) None [] (Ok 0) (Ok (nth (if (i <=? 1)%nat then 1 else 0)%nat toy_datagrams [])) (Ok []) (Ok tt).

Definition toy_apple : AppleSession :=
  mkApple (mkTunnelParameters 0 24 0 100 (V4 0)) toy_halves.1 toy_halves.2 ClientWire.Legacy.

Abbreviation toy_received := (receive_packets toy_tape (fun _ => false) 9 2 toy_apple (mkWorld 0 [] ClientWire.Legacy)).

Lemma toy_received_ok : exists s' w' b, toy_received = (s', w', Some (Ok b)) /\ rb_packets b = [toy_packet 5; toy_packet 4].
Proof.
  assert (H : match toy_received.2 with Some (Ok b) => bool_decide (rb_packets b = [toy_packet 5; toy_packet 4]) | _ => false end = true)
    by (vm_compute; reflexivity).
  destruct toy_received as [[s' w'] [[b|e|]|]]; try discriminate H. apply bool_decide_eq_true in H. by exists s', w', b.
Qed.

Lemma received_packets_are_authentic_witness :
  exists s' w' b ds, toy_received = (s', w', Some (Ok b)) /\ rb_packets b = [toy_packet 5; toy_packet 4] /\
    arrivals toy_tape ClientWire.Legacy 0 (pos w') ds /\ deliver toy_halves.2 (map snd ds) = (ap_receiver s', rb_packets b).
Proof.
  destruct toy_received_ok as (s' & w' & b & E & Hb).
  destruct (received_packets_are_authentic toy_tape (fun _ => false) 9 2 ReplaySpec.empty ClientWire.Legacy toy_apple (mkWorld 0 [] ClientWire.Legacy) s' w' b
    represents_default I E) as (_ & _ & _ & ds & Ha & Hd & _).
  exists s', w', b, ds. split; [exact E|]. split; [exact Hb|]. split; [exact Ha|exact Hd].
Defined.

End ToyApple.
