(* ===== verification/MacNetwork.v ===== *)
(** * The network of the macOS helper

    crates/macos-client/src/network.rs: the routes and the resolver of a session, found with
    route(8), ifconfig and networksetup and undone when the guards are dropped.

    The routing table and the servers of each network service are the state; a command is one
    moment of the tape of Handshake.v, [printed] is what it prints.  [route add] refuses a
    destination that is there, and [networksetup -getdnsservers] prints the servers that are set.

    The theorems: whatever the commands answer, a session leaves alone what was there; when they
    succeed, it is all as before. *)

From S2P Require Import Prelude Protocol Text Replay Crypto ToyCrypto DataPlane Morph Speedy Config ClientWire Handshake Effects Flow.

(** ** Texts *)

Definition starts_with (prefix s : str) : bool := match strip_prefix prefix s with Some _ => true | None => false end.

(** [str::lines]; a carriage return at the end of a line is white space to the callers. *)
Definition lines (s : str) : list str := split_on 10 s.

Fixpoint contains (part s : str) : bool :=
  starts_with part s || match s with [] => false | _ :: s => contains part s end.

(** [str::split_once], the text behind the separator. *)
Fixpoint after_first (separator s : str) : option str :=
  match strip_prefix separator s with
  | Some rest => Some rest
  | None => match s with [] => None | _ :: s => after_first separator s end
  end.

Fixpoint trim_start_matches (c : Z) (s : str) : str :=
  match s with
  | d :: s' => if d =? c then trim_start_matches c s' else s
  | [] => []
  end.

(** [str::split_whitespace] *)
Fixpoint words_from (word s : str) : list str :=
  match s with
  | [] => if bool_decide (word = []) then [] else [rev word]
  | c :: s => if is_whitespace c then (if bool_decide (word = []) then [] else [rev word]) ++ words_from [] s else words_from (c :: word) s
  end.

Definition words (s : str) : list str := words_from [] s.

Fixpoint find_map {A B} (f : A -> option B) (l : list A) : option B :=
  match l with
  | [] => None
  | x :: l => match f x with Some y => Some y | None => find_map f l end
  end.

(** The value of a line that begins with [name]. *)
Definition field (text name : str) : option str :=
  find_map (fun line => option_map trim (strip_prefix name (trim line))) (lines text).

(** The address of an [inet] line of ifconfig. *)
Definition inet_address (details : str) : option Ipv4Addr :=
  find_map (fun line =>
    match words line with
    | keyword :: value :: _ => if bool_decide (keyword = ascii_bytes "inet") then parse_ipv4 value else None
    | _ => None
    end) (lines details).

(** The loop of [service_for_interface]. *)
Fixpoint find_service (interface : str) (service : option str) (l : list str) : option str :=
  match l with
  | [] => None
  | line :: l =>
      let trimmed := trim line in
      if starts_with [40] trimmed && negb (starts_with (ascii_bytes "(Hardware Port:") trimmed)
      then find_service interface (option_map (fun name => trim (trim_start_matches 42 name)) (after_first (ascii_bytes ") ") trimmed)) l
      else if contains (ascii_bytes "Device: " ++ interface ++ [41]) trimmed then service
      else find_service interface service l
  end.

(** ** State *)

Inductive destination := Host (a : Ipv4Addr) | Net4 (network : str) | Net6 (network : str).

#[global] Instance destination_eq_dec : EqDecision destination.
Proof. solve_decision. Defined.

#[global] Instance destination_countable : Countable destination.
Proof.
  refine (inj_countable' (fun d => match d with Host a => inl a | Net4 n => inr (inl n) | Net6 n => inr (inr n) end)
    (fun s => match s with inl a => Host a | inr (inl n) => Net4 n | inr (inr n) => Net6 n end) _). by intros [].
Defined.

Inductive target := Gateway (address : str) | Interface (name : str).

Record DefaultRoute := mkDefaultRoute { df_gateway : option str; df_interface : str }.

(** The system, the guard of the routes and that of the resolver; and, for the theorems only,
    what commands that failed have left: routes that were to be deleted, services that were to
    be restored. *)
Record Net := mkNet {
  n_table : gmap destination target;
  n_dns : gmap (list Z) (list str);
  n_installed : list destination;
  n_guard : option (str * list str);
  n_left : list destination;
  n_unrestored : list str;
}.

Definition set_table (x : gmap destination target) (n : Net) : Net :=
  mkNet x (n_dns n) (n_installed n) (n_guard n) (n_left n) (n_unrestored n).
Definition set_dns (x : gmap (list Z) (list str)) (n : Net) : Net :=
  mkNet (n_table n) x (n_installed n) (n_guard n) (n_left n) (n_unrestored n).
Definition set_installed (x : list destination) (n : Net) : Net :=
  mkNet (n_table n) (n_dns n) x (n_guard n) (n_left n) (n_unrestored n).
Definition set_guard (x : option (str * list str)) (n : Net) : Net :=
  mkNet (n_table n) (n_dns n) (n_installed n) x (n_left n) (n_unrestored n).
Definition leave (d : destination) (n : Net) : Net :=
  mkNet (n_table n) (n_dns n) (n_installed n) (n_guard n) (d :: n_left n) (n_unrestored n).
Definition unrestored (s : str) (n : Net) : Net :=
  mkNet (n_table n) (n_dns n) (n_installed n) (n_guard n) (n_left n) (s :: n_unrestored n).

Definition HALF4_LOW : str := ascii_bytes "0.0.0.0/1".
Definition HALF4_HIGH : str := ascii_bytes "128.0.0.0/1".
Definition HALF6_LOW : str := ascii_bytes "::/1".
Definition HALF6_HIGH : str := ascii_bytes "8000::/1".

Definition halves : list destination := [Net4 HALF4_LOW; Net4 HALF4_HIGH; Net6 HALF6_LOW; Net6 HALF6_HIGH].

Definition NO_SERVERS : str := ascii_bytes "There aren't any DNS Servers set on".

(** What [networksetup -getdnsservers] prints. *)
Definition print_servers (service : str) (servers : list str) : str :=
  match servers with
  | [] => NO_SERVERS ++ [32] ++ service ++ [46]
  | _ => foldr (fun s text => s ++ [10] ++ text) [] servers
  end.

(** How [DnsGuard::install] reads it. *)
Definition parse_servers (current : str) : list str :=
  if starts_with NO_SERVERS current then [] else filter (fun line => line <> []) (map trim (lines current)).

Section Network.
Context `{N : Noise, P : Primitives} (tape : nat -> moment) (printed : nat -> str).

Abbreviation L := (Effects.L Net) (only parsing).
Notation "x <- m ; k" := (lbind m (fun x => k)) (at level 100, m at next level, right associativity).

(** [output] and [run]: the trimmed text of a command that succeeds. *)
Definition output : L str := fun n w =>
  let text := trim (printed (pos w)) in
  lbind (platform tape) (fun r => lres (map_err ClientError.Io (_ ← r; Ok text))) n w.

Definition add_route (d : destination) (t : target) : L unit :=
  r <- platform tape;
  table <- gets n_table;
  match r, table !! d with
  | Ok _, None => modify (fun n => set_table (<[d := t]> (n_table n)) n)
  | Ok _, Some _ => lthrow (ClientError.Io (mkIoError ErrorKind.AlreadyExists None))
  | Err e, _ => lthrow (ClientError.Io e)
  | Panic, _ => lres Panic
  end.

(** The outcome of a deletion is ignored. *)
Definition delete_route (d : destination) : L unit :=
  r <- platform tape;
  match r with
  | Ok _ => modify (fun n => set_table (delete d (n_table n)) n)
  | _ => modify (leave d)
  end.

Definition default_route : L DefaultRoute :=
  route <- output;
  match field route (ascii_bytes "interface:") with
  | None => lthrow (ClientError.Io (mkIoError ErrorKind.NotFound None))
  | Some interface => lret (mkDefaultRoute (field route (ascii_bytes "gateway:")) interface)
  end.

Definition primary_ipv4 : L Ipv4Addr :=
  default <- default_route;
  details <- output;
  match inet_address details with
  | None => lthrow (ClientError.Io (mkIoError ErrorKind.AddrNotAvailable None))
  | Some a => lret a
  end.

(** ** Routes *)

Definition server_target (default : DefaultRoute) : target :=
  match df_gateway default with Some gateway => Gateway gateway | None => Interface (df_interface default) end.

(** Add a route and remember it. *)
Definition install_route (d : destination) (t : target) : L unit :=
  _ <- add_route d t;
  modify (fun n => set_installed (n_installed n ++ [d]) n).

(** [RouteGuard::remove], the last one first. *)
Fixpoint remove_routes (l : list destination) : L unit :=
  match l with
  | [] => lret tt
  | d :: l =>
      _ <- modify (fun n => set_installed (removelast (n_installed n)) n);
      _ <- delete_route d;
      remove_routes l
  end.

Definition routes_remove : L unit :=
  installed <- gets n_installed;
  remove_routes (rev installed).

(** An error drops the guard. *)
Definition or_remove {A} (m : L A) : L A :=
  r <- catch m;
  match r with
  | Err e => _ <- routes_remove; lthrow e
  | r => lres r
  end.

Definition route_guard_install (tunnel : str) (server : Ipv4Addr) (default : DefaultRoute) : L unit :=
  _ <- modify (set_installed []);
  or_remove (
    _ <- install_route (Host server) (server_target default);
    _ <- install_route (Net4 HALF4_LOW) (Interface tunnel);
    _ <- install_route (Net4 HALF4_HIGH) (Interface tunnel);
    _ <- install_route (Net6 HALF6_LOW) (Interface tunnel);
    install_route (Net6 HALF6_HIGH) (Interface tunnel)).

Definition is_server (d : destination) : bool := match d with Host _ => true | _ => false end.

(** Take the first server route out of the list. *)
Fixpoint take_server (l : list destination) : option (destination * list destination) :=
  match l with
  | [] => None
  | d :: l => if is_server d then Some (d, l)
              else match take_server l with Some (x, rest) => Some (x, d :: rest) | None => None end
  end.

Definition refresh_server_route (server : Ipv4Addr) : L unit :=
  installed <- gets n_installed;
  _ <- match take_server installed with
       | Some (previous, rest) => _ <- modify (set_installed rest); delete_route previous
       | None => lret tt
       end;
  default <- default_route;
  _ <- add_route (Host server) (server_target default);
  modify (fun n => set_installed (Host server :: n_installed n) n).

(** ** The resolver *)

Definition dns_guard_install (interface : str) (dns : Ipv4Addr) : L unit :=
  order <- output;
  match find_service interface None (lines order) with
  | None => modify (set_guard None)
  | Some service =>
      r <- platform tape;
      _ <- lres (map_err ClientError.Io r);
      servers <- gets (fun n => default [] (n_dns n !! service));
      r <- platform tape;
      _ <- lres (map_err ClientError.Io r);
      _ <- modify (fun n => set_dns (<[service := [show_ipv4 dns]]> (n_dns n)) n);
      modify (set_guard (Some (service, parse_servers (trim (print_servers service servers)))))
  end.

(** Dropping the guard: a failure is only reported. *)
Definition dns_guard_drop : L unit :=
  guard <- gets n_guard;
  _ <- modify (set_guard None);
  match guard with
  | None => lret tt
  | Some (service, previous) =>
      r <- platform tape;
      match r with
      | Ok _ => modify (fun n => set_dns (<[service := previous]> (n_dns n)) n)
      | _ => modify (unrestored service)
      end
  end.

Definition network_install (tunnel : str) (server dns : Ipv4Addr) : L unit :=
  default <- default_route;
  _ <- route_guard_install tunnel server default;
  or_remove (dns_guard_install (df_interface default) dns).

Definition network_drop : L unit :=
  _ <- dns_guard_drop;
  routes_remove.

End Network.

(** ** The routes *)

Section RouteTheorems.
Context `{N : Noise, P : Primitives} (tape : nat -> moment) (printed : nat -> str).
Context (before : gmap destination target) (server : Ipv4Addr).

(** What a session may add. *)
Definition ours (d : destination) : Prop := d = Host server \/ d ∈ halves.

(** What was there is there; what is remembered was not; what is new is ours, and remembered
    unless its deletion has failed. *)
Record routes_ok (n : Net) : Prop := {
  ro_kept : forall d t, before !! d = Some t -> n_table n !! d = Some t;
  ro_installed : forall d, d ∈ n_installed n -> before !! d = None /\ ours d;
  ro_new : forall d, before !! d = None -> is_Some (n_table n !! d) -> ours d /\ (d ∈ n_installed n \/ d ∈ n_left n);
}.

Lemma routes_ok_same n n' : n_table n' = n_table n -> n_installed n' = n_installed n -> n_left n' = n_left n -> routes_ok n -> routes_ok n'.
Proof. intros Ht Hi Hl [H1 H2 H3]. split; rewrite ?Ht, ?Hi, ?Hl; done. Qed.

(** From one state. *)
Lemma keeps_bind_at {A B} (I : Net -> Prop) (m : Effects.L Net A) (k : A -> Effects.L Net B) n w :
  I (m n w).1.1 -> (forall a, keeps I (k a)) -> I (lbind m k n w).1.1.
Proof. intros Hm Hk. unfold lbind. destruct (m n w) as [[n' w'] [[a|e|]|]]; cbn [fst] in *; [by apply Hk|done..]. Qed.

Lemma keeps_output I : keeps I (output tape printed).
Proof. intros n w Hn. unfold output. apply keeps_bind; [apply keeps_platform|intros; apply keeps_res|done]. Qed.

Lemma keeps_mac_default I : keeps I (default_route tape printed).
Proof. unfold default_route. repeat (apply keeps_output || keeps_step). Qed.

(** A deletion, after the destination was forgotten. *)
Lemma deleted_ok n d (ok : bool) rest :
  routes_ok n -> d ∈ n_installed n -> (forall x, x ∈ n_installed n -> x = d \/ x ∈ rest) -> (forall x, x ∈ rest -> x ∈ n_installed n) ->
  routes_ok (let n := set_installed rest n in if ok then set_table (delete d (n_table n)) n else leave d n).
Proof.
  intros [H1 H2 H3] Hd Hsub Hrest. destruct (H2 d Hd) as [Hnone _]. destruct ok; split; cbn.
  - intros x t Hx. rewrite lookup_delete_ne by congruence. by apply H1.
  - intros x Hx. by apply H2, Hrest.
  - intros x Hx Hs. destruct (decide (x = d)) as [->|Hne]; [by rewrite lookup_delete_eq in Hs; destruct Hs|].
    rewrite lookup_delete_ne in Hs by done. destruct (H3 x Hx Hs) as [Ho [Hi|Hl]]; split; try done; [|by right].
    destruct (Hsub x Hi); [done|by left].
  - done.
  - intros x Hx. by apply H2, Hrest.
  - intros x Hx Hs. destruct (H3 x Hx Hs) as [Ho [Hi|Hl]]; split; try done; [|by right; right].
    destruct (Hsub x Hi) as [->|]; [right; by left|by left].
Qed.

Lemma keeps_install_route d t : ours d -> keeps routes_ok (install_route tape d t).
Proof.
  intros Ho n w [H1 H2 H3]. unfold install_route, add_route, lbind, platform, lbind, run_m, moment_at, gets, lret. cbn.
  destruct (m_socket (tape (pos w))) as [[]|e|]; cbn; [|by split..]. destruct (n_table n !! d) eqn:E; cbn; [by split|].
  assert (Hb : before !! d = None) by (destruct (before !! d) eqn:F; [apply H1 in F; congruence|done]). split; cbn.
  - intros x t' Hx. rewrite lookup_insert_ne by congruence. by apply H1.
  - intros x [Hx|Hx%list_elem_of_singleton]%elem_of_app; [by apply H2|by subst].
  - intros x Hx Hs. destruct (decide (x = d)) as [->|Hne]; [split; [done|left; apply elem_of_app; right; by left]|].
    rewrite lookup_insert_ne in Hs by done. destruct (H3 x Hx Hs) as [? [Hi|]]; split; try done; [left; apply elem_of_app; by left|by right].
Qed.

Lemma keeps_remove_routes l n w : routes_ok n -> l = rev (n_installed n) -> routes_ok (remove_routes tape l n w).1.1.
Proof.
  revert n w. induction l as [|d l IH]; intros n w Hn Hl; cbn [remove_routes]; [done|].
  assert (Hi : n_installed n = rev l ++ [d]) by (rewrite <- (rev_involutive (n_installed n)), <- Hl; done).
  unfold lbind at 1, modify at 1. unfold lbind at 1, delete_route, lbind at 1, platform, lbind at 1, run_m, moment_at, lret. cbn -[remove_routes].
  assert (Hrest : removelast (n_installed n) = rev l) by (rewrite Hi; apply removelast_last). rewrite Hrest.
  assert (Hsub : forall x, x ∈ n_installed n -> x = d \/ x ∈ rev l).
  { intros x. rewrite Hi. intros [Hx|Hx%list_elem_of_singleton]%elem_of_app; [by right|by left]. }
  assert (Hin : forall x, x ∈ rev l -> x ∈ n_installed n) by (intros x Hx; rewrite Hi; apply elem_of_app; by left).
  assert (Hd : d ∈ n_installed n) by (rewrite Hi; apply elem_of_app; right; by left).
  destruct (m_socket (tape (pos w))) as [[]|e|]; cbn -[remove_routes]; (apply IH; [|cbn; by rewrite rev_involutive]).
  - exact (deleted_ok n d true (rev l) Hn Hd Hsub Hin).
  - exact (deleted_ok n d false (rev l) Hn Hd Hsub Hin).
  - exact (deleted_ok n d false (rev l) Hn Hd Hsub Hin).
Qed.

Lemma keeps_routes_remove : keeps routes_ok (routes_remove tape).
Proof. intros n w Hn. unfold routes_remove, lbind, gets. by apply keeps_remove_routes. Qed.

Lemma keeps_or_remove {A} (m : Effects.L Net A) : keeps routes_ok m -> keeps routes_ok (or_remove tape m).
Proof.
  intros Hm. unfold or_remove. apply keeps_bind; [by apply keeps_catch|]. intros [a|e|]; [apply keeps_res| |apply keeps_res].
  apply keeps_bind; [apply keeps_routes_remove|]. intros. apply keeps_throw.
Qed.

Lemma take_server_some l d rest : take_server l = Some (d, rest) ->
  d ∈ l /\ (forall x, x ∈ l -> x = d \/ x ∈ rest) /\ (forall x, x ∈ rest -> x ∈ l) /\ is_server d = true.
Proof.
  revert rest. induction l as [|y l IH]; intros rest; cbn; [done|]. destruct (is_server y) eqn:Ey.
  - intros [= <- <-]. split; [by left|]. split; [intros x [->|]%elem_of_cons; auto|]. split; [intros; by right|done].
  - destruct (take_server l) as [[x r]|]; [|done]. intros [= -> <-]. destruct (IH r eq_refl) as (H1 & H2 & H3 & H4).
    split; [by right|]. split; [|split; [|done]].
    + intros x [->|Hx]%elem_of_cons; [right; by left|]. destruct (H2 x Hx); [by left|right; by right].
    + intros x [->|Hx]%elem_of_cons; [by left|right; by apply H3].
Qed.

(** The deletion of the previous server route. *)
Lemma keeps_take_server n w : routes_ok n ->
  routes_ok (match take_server (n_installed n) with
             | Some (previous, rest) => lbind (modify (set_installed rest)) (fun _ => delete_route tape previous)
             | None => lret tt
             end n w).1.1.
Proof.
  intros Hn. destruct (take_server (n_installed n)) as [[d rest]|] eqn:E; [|done]. apply take_server_some in E as (H1 & H2 & H3 & _).
  unfold lbind at 1, modify at 1, delete_route, lbind at 1, platform, lbind at 1, run_m, moment_at, lret. cbn.
  destruct (m_socket (tape (pos w))) as [[]|e|]; cbn.
  - exact (deleted_ok n d true rest Hn H1 H2 H3).
  - exact (deleted_ok n d false rest Hn H1 H2 H3).
  - exact (deleted_ok n d false rest Hn H1 H2 H3).
Qed.

(** The order of the list does not matter. *)
Lemma routes_ok_perm n l : (forall d, d ∈ l <-> d ∈ n_installed n) -> routes_ok n -> routes_ok (set_installed l n).
Proof. intros Hl [H1 H2 H3]. split; cbn; [done|intros d; rewrite Hl; apply H2|intros d; rewrite Hl; apply H3]. Qed.

Lemma keeps_prepend_route d t : ours d -> keeps routes_ok (lbind (add_route tape d t) (fun _ => modify (fun n => set_installed (d :: n_installed n) n))).
Proof.
  intros Ho n w Hn. pose proof (keeps_install_route d t Ho n w Hn) as H. revert H.
  unfold install_route, add_route, lbind, platform, lbind, run_m, moment_at, gets, lret. cbn.
  destruct (m_socket (tape (pos w))) as [[]|e|]; cbn; [|done..]. destruct (n_table n !! d); cbn; [done|]. intros H.
  apply (routes_ok_perm _ (d :: n_installed n)) in H; [exact H|]. intros x. cbn. rewrite elem_of_cons, elem_of_app, list_elem_of_singleton. tauto.
Qed.

Lemma keeps_mac_refresh : keeps routes_ok (refresh_server_route tape printed server).
Proof.
  intros n w Hn. unfold refresh_server_route. unfold lbind at 1, gets at 1. apply keeps_bind_at; [by apply keeps_take_server|].
  intros _. apply keeps_bind; [apply keeps_mac_default|]. intros default. apply keeps_prepend_route. by left.
Qed.

(** Removing never fails and forgets every route. *)
Lemma remove_routes_ends l n w : l = rev (n_installed n) ->
  exists n' w', remove_routes tape l n w = (n', w', Some (Ok tt)) /\ n_installed n' = [].
Proof.
  revert n w. induction l as [|d l IH]; intros n w Hl; cbn [remove_routes].
  { exists n, w. split; [done|]. by rewrite <- (rev_involutive (n_installed n)), <- Hl. }
  assert (Hrest : removelast (n_installed n) = rev l).
  { rewrite <- (rev_involutive (n_installed n)), <- Hl. cbn [rev]. apply removelast_last. }
  unfold lbind at 1, modify at 1. unfold lbind at 1, delete_route, lbind at 1, platform, lbind at 1, run_m, moment_at, lret. cbn -[remove_routes].
  rewrite Hrest. destruct (m_socket (tape (pos w))) as [[]|e|]; cbn -[remove_routes]; apply IH; cbn; by rewrite rev_involutive.
Qed.

Lemma routes_remove_ends n w : exists n' w', routes_remove tape n w = (n', w', Some (Ok tt)) /\ n_installed n' = [].
Proof. unfold routes_remove, lbind, gets. by apply remove_routes_ends. Qed.

Lemma or_remove_err {A} (m : Effects.L Net A) n w n' w' e :
  or_remove tape m n w = (n', w', Some (Err e)) -> n_installed n' = [].
Proof.
  unfold or_remove, lbind at 1, catch. destruct (m n w) as [[n1 w1] [[a|e'|]|]]; cbn; try done.
  unfold lbind. destruct (routes_remove_ends n1 w1) as (n2 & w2 & -> & Hi). cbn. by intros [= <- <- _].
Qed.

(** Computations on the resolver do not concern the routes. *)
Lemma keeps_dns_guard_install interface dns : keeps routes_ok (dns_guard_install tape printed interface dns).
Proof.
  unfold dns_guard_install. apply keeps_bind; [apply keeps_output|]. intros order.
  repeat (keeps_step || (apply keeps_modify; intros n; by apply routes_ok_same)).
Qed.

Lemma keeps_dns_guard_drop : keeps routes_ok (dns_guard_drop tape).
Proof. unfold dns_guard_drop. repeat (keeps_step || (apply keeps_modify; intros n; by apply routes_ok_same)). Qed.

Lemma ours_halves d : d ∈ halves -> ours d.
Proof. by right. Qed.

Lemma keeps_network_install tunnel dns n w : n_installed n = [] -> routes_ok n -> routes_ok (network_install tape printed tunnel server dns n w).1.1.
Proof.
  intros H0 Hn. unfold network_install. unfold lbind at 1.
  pose proof (keeps_mac_default (fun x => x = n) n w eq_refl) as Hd. destruct (default_route tape printed n w) as [[n1 w1] [[default|e|]|]];
    cbn [fst] in Hd; subst n1; [|done..].
  apply keeps_bind_at; [|intros; apply keeps_or_remove, keeps_dns_guard_install].
  unfold route_guard_install, lbind at 1, modify at 1. replace (set_installed [] n) with n by (destruct n; cbn in *; by subst).
  apply keeps_or_remove; [|done].
  repeat (apply keeps_bind; [apply keeps_install_route; first [by left|apply ours_halves; set_solver]|intros _]).
  apply keeps_install_route, ours_halves. set_solver.
Qed.

End RouteTheorems.

(** The tunnel has both halves of each family. *)
Definition sealed (tunnel : str) (n : Net) : Prop := forall d, d ∈ halves -> n_table n !! d = Some (Interface tunnel).

Section Sealed.
Context `{N : Noise, P : Primitives} (tape : nat -> moment) (printed : nat -> str) (tunnel : str) (server : Ipv4Addr).

Lemma install_route_inv d t n w n' w' : install_route tape d t n w = (n', w', Some (Ok tt)) ->
  n_table n' = <[d := t]> (n_table n) /\ n_table n !! d = None.
Proof.
  unfold install_route, add_route, lbind, platform, lbind, run_m, moment_at, gets, lret. cbn.
  destruct (m_socket (tape (pos w))) as [[]|e|]; cbn; [|done..]. destruct (n_table n !! d) eqn:E; cbn; [done|]. by intros [= <- <-].
Qed.

Lemma route_guard_sealed default n w n' w' :
  route_guard_install tape tunnel server default n w = (n', w', Some (Ok tt)) -> sealed tunnel n'.
Proof.
  unfold route_guard_install, or_remove. intros (n0 & w0 & [] & H0 & H)%lbind_inv. clear H0. revert H.
  intros (n1 & w1 & r & Hc & H)%lbind_inv. unfold catch in Hc.
  destruct (lbind _ _ n0 w0) as [[n2 w2] [[[]|e|]|]] eqn:E in Hc; try done; injection Hc as <- <- <-.
  2:{ revert H. by intros (? & ? & ? & _ & H)%lbind_inv. }
  injection H as <- <-. revert E.
  intros (a1 & v1 & [] & _ & E)%lbind_inv. revert E. intros (a2 & v2 & [] & [T2 _]%install_route_inv & E)%lbind_inv. revert E.
  intros (a3 & v3 & [] & [T3 _]%install_route_inv & E)%lbind_inv. revert E. intros (a4 & v4 & [] & [T4 _]%install_route_inv & E)%lbind_inv.
  apply install_route_inv in E as [T5 _]. intros d Hd. rewrite T5, T4, T3, T2.
  unfold halves in Hd. rewrite !elem_of_cons, elem_of_nil in Hd. destruct Hd as [->|[->|[->|[->|[]]]]];
    repeat (rewrite lookup_insert_eq || rewrite lookup_insert_ne by done); done.
Qed.

Lemma keeps_table_sealed n n' : n_table n' = n_table n -> sealed tunnel n -> sealed tunnel n'.
Proof. intros Ht H d Hd. rewrite Ht. by apply H. Qed.

Lemma keeps_dns_sealed interface dns : keeps (sealed tunnel) (dns_guard_install tape printed interface dns).
Proof.
  unfold dns_guard_install. apply keeps_bind; [apply keeps_output|]. intros order.
  repeat (keeps_step || (apply keeps_modify; intros n; by apply keeps_table_sealed)).
Qed.

Lemma network_install_sealed dns n w n' w' :
  network_install tape printed tunnel server dns n w = (n', w', Some (Ok tt)) -> sealed tunnel n'.
Proof.
  unfold network_install. intros (n1 & w1 & default & _ & H)%lbind_inv. revert H. intros (n2 & w2 & [] & Hr & H)%lbind_inv.
  apply route_guard_sealed in Hr. revert H. unfold or_remove. intros (n3 & w3 & r & Hc & H)%lbind_inv. unfold catch in Hc.
  pose proof (keeps_dns_sealed (df_interface default) dns n2 w2 Hr) as Hk.
  destruct (dns_guard_install _ _ _ _ n2 w2) as [[n4 w4] [[[]|e|]|]] eqn:E; try done; injection Hc as <- <- <-.
  - by injection H as <- <-.
  - revert H. by intros (? & ? & ? & _ & H)%lbind_inv.
Qed.

(** Refreshing the server route touches no other. *)
Lemma keeps_refresh_sealed : keeps (sealed tunnel) (refresh_server_route tape printed server).
Proof.
  intros n w Hn. unfold refresh_server_route. unfold lbind at 1, gets at 1. apply keeps_bind_at.
  - destruct (take_server (n_installed n)) as [[d rest]|] eqn:E; [|done]. apply take_server_some in E as (_ & _ & _ & Hs).
    unfold lbind at 1, modify at 1, delete_route, lbind at 1, platform, lbind at 1, run_m, moment_at, lret. cbn.
    destruct (m_socket (tape (pos w))) as [[]|e|]; cbn; try done.
    intros x Hx. cbn. rewrite lookup_delete_ne; [by apply Hn|]. intros ->. unfold halves in Hx. set_solver.
  - intros _. apply keeps_bind; [apply keeps_mac_default|]. intros default n1 w1 Hn1.
    unfold add_route, lbind, platform, lbind, run_m, moment_at, gets, lret. cbn.
    destruct (m_socket (tape (pos w1))) as [[]|e|]; cbn; [|done..]. destruct (n_table n1 !! Host server); cbn; [done|].
    intros x Hx. cbn. rewrite lookup_insert_ne; [by apply Hn1|]. intros <-. unfold halves in Hx. set_solver.
Qed.

End Sealed.

(** ** The resolver *)

(** The text of a server: an address. *)
Definition server_text (s : str) : Prop := s <> [] /\ forallb (fun c => negb (is_whitespace c)) s = true.

Lemma split_on_line s text : forallb (fun c => negb (is_whitespace c)) s = true -> split_on 10 (s ++ 10 :: text) = s :: split_on 10 text.
Proof.
  induction s as [|c s IH]; intros H; [done|]. cbn in H. apply andb_true_iff in H as [Hc Hs]. cbn [app split_on].
  destruct (Z.eqb_spec c 10) as [->|]; [done|]. by rewrite IH.
Qed.

Lemma split_on_last s : forallb (fun c => negb (is_whitespace c)) s = true -> split_on 10 s = [s].
Proof.
  induction s as [|c s IH]; intros H; [done|]. cbn in H. apply andb_true_iff in H as [Hc Hs]. cbn [split_on].
  destruct (Z.eqb_spec c 10) as [->|]; [done|]. by rewrite IH.
Qed.

Lemma split_on_prefix w text : ~ In 10 w -> exists x rest, split_on 10 (w ++ text) = (w ++ x) :: rest.
Proof.
  induction w as [|c w IH]; intros Hw; cbn [app split_on].
  - destruct (split_on 10 text) as [|x rest] eqn:E; [|by exists x, rest]. destruct text as [|c text]; cbn in E; [done|].
    destruct (c =? 10); [done|]. by destruct (split_on 10 text).
  - destruct (Z.eqb_spec c 10) as [->|]; [exfalso; apply Hw; by left|]. destruct IH as (x & rest & ->); [intros Hin; apply Hw; by right|].
    by exists x, rest.
Qed.

(** A word begins and ends with its first and last character. *)
Lemma word_ends s : server_text s -> exists a r l b, s = a :: r /\ s = l ++ [b] /\ is_whitespace a = false /\ is_whitespace b = false.
Proof.
  intros [Hne Hs]. destruct s as [|a r]; [done|]. destruct (exists_last Hne) as (l & b & E). exists a, r, l, b. split; [done|]. split; [done|].
  rewrite forallb_forall in Hs. split; apply negb_true_iff, Hs; [by left|]. rewrite E. apply in_or_app. right. by left.
Qed.

Lemma trim_word s : server_text s -> trim s = s.
Proof.
  intros (a & r & l & b & Ha & Hb & H1 & H2)%word_ends. pose proof (trim_between [] s [] a r l b eq_refl eq_refl Ha Hb H1 H2) as H.
  by rewrite app_nil_r in H.
Qed.

(** The printed text without its last line break. *)
Fixpoint joined (servers : list str) : str :=
  match servers with [] => [] | [s] => s | s :: servers => s ++ 10 :: joined servers end.

Lemma print_joined servers : servers <> [] -> foldr (fun s text => s ++ [10] ++ text) [] servers = joined servers ++ [10].
Proof.
  induction servers as [|s servers IH]; [done|]. intros _. destruct servers as [|s2 servers]; [done|].
  cbn [foldr] in *. rewrite IH by done. cbn [joined]. by rewrite <- app_assoc.
Qed.

Lemma lines_joined servers : servers <> [] -> Forall server_text servers -> lines (joined servers) = servers.
Proof.
  intros Hne H. revert Hne. induction H as [|s servers [_ Hs] H IH]; [done|]. intros _. destruct servers as [|s2 servers]; [by apply split_on_last|].
  cbn [joined]. unfold lines in *. rewrite split_on_line by done. f_equal. by apply IH.
Qed.

Lemma joined_ends servers : servers <> [] -> Forall server_text servers ->
  exists a r l b, joined servers = a :: r /\ joined servers = l ++ [b] /\ is_whitespace a = false /\ is_whitespace b = false.
Proof.
  intros Hne H. revert Hne. induction H as [|s servers Hs H IH]; [done|]. intros _. apply word_ends in Hs as (a & r & l & b & Ha & Hb & H1 & H2).
  destruct servers as [|s2 servers]; [by exists a, r, l, b|]. destruct IH as (a' & r' & l' & b' & _ & Hb' & _ & H2'); [done|].
  exists a, (r ++ 10 :: joined (s2 :: servers)), (s ++ 10 :: l'), b'. change (joined (s :: s2 :: servers)) with (s ++ 10 :: joined (s2 :: servers)).
  split; [by rewrite Ha|]. split; [rewrite Hb' at 1; by rewrite <- app_assoc|done].
Qed.

Lemma trim_joined servers : servers <> [] -> Forall server_text servers -> trim (joined servers ++ [10]) = joined servers.
Proof. intros Hne H. destruct (joined_ends servers Hne H) as (a & r & l & b & Ha & Hb & H1 & H2). by apply (trim_between [] _ [10] a r l b). Qed.

Lemma parse_printed service servers : Forall server_text servers -> parse_servers (trim (print_servers service servers)) = servers.
Proof.
  intros H. destruct servers as [|s servers].
  { unfold parse_servers, print_servers. pose proof (trim_between [] (NO_SERVERS ++ [32] ++ service ++ [46]) [] 84 (drop 1 NO_SERVERS ++ [32] ++ service ++ [46])
      (NO_SERVERS ++ [32] ++ service) 46 eq_refl eq_refl eq_refl ltac:(by rewrite <- !app_assoc) eq_refl eq_refl) as Ht.
    rewrite app_nil_r in Ht. cbn [app] in Ht |- *. rewrite Ht. unfold starts_with. by rewrite strip_prefix_app. }
  unfold print_servers. rewrite print_joined by done. rewrite trim_joined by done. unfold parse_servers.
  assert (Hl : lines (joined (s :: servers)) = s :: servers) by (by apply lines_joined).
  destruct (starts_with NO_SERVERS (joined (s :: servers))) eqn:E.
  - exfalso. unfold starts_with in E. destruct (strip_prefix NO_SERVERS (joined (s :: servers))) as [rest|] eqn:Ep; [|done].
    apply strip_prefix_some in Ep. rewrite Ep in Hl. inversion H as [|? ? [_ Hs] _]. subst.
    destruct (split_on_prefix NO_SERVERS rest ltac:(vm_compute; intuition discriminate)) as (x & tail & Hx). unfold lines in Hl. rewrite Hx in Hl.
    assert (s = NO_SERVERS ++ x) as -> by congruence. by rewrite forallb_app in Hs.
  - rewrite Hl. rewrite (map_ext_in trim (fun x => x)).
    + rewrite map_id. clear E Hl. induction H as [|y l [Hy _] H IH]; [done|]. by rewrite filter_cons_True, IH.
    + intros x Hx. rewrite Forall_forall in H. by apply trim_word, H.
Qed.

Section Restored.
Context `{N : Noise, P : Primitives} (tape : nat -> moment) (printed : nat -> str).
Context (before : gmap destination target) (dns0 : gmap (list Z) (list str)) (server : Ipv4Addr).

Definition servers_at (dns : gmap (list Z) (list str)) (service : str) : list str := default [] (dns !! service).

(** The guard knows what to restore, and all else is as it was. *)
Definition dns_ok (n : Net) : Prop :=
  (forall service previous, n_guard n = Some (service, previous) -> previous = servers_at dns0 service) /\
  (forall s, s ∉ n_unrestored n -> (forall previous, n_guard n <> Some (s, previous)) -> servers_at (n_dns n) s = servers_at dns0 s).

Lemma dns_ok_same n n' : n_dns n' = n_dns n -> n_guard n' = n_guard n -> n_unrestored n' = n_unrestored n -> dns_ok n -> dns_ok n'.
Proof. unfold dns_ok. by intros -> -> ->. Qed.

(** A computation that only concerns the routes. *)
Definition routes_only {A} (m : Effects.L Net A) : Prop :=
  forall n w, let n' := (m n w).1.1 in n_dns n' = n_dns n /\ n_guard n' = n_guard n /\ n_unrestored n' = n_unrestored n.

Lemma routes_only_keeps {A} (m : Effects.L Net A) : routes_only m <-> forall n, keeps (fun n' => n_dns n' = n_dns n /\ n_guard n' = n_guard n /\ n_unrestored n' = n_unrestored n) m.
Proof.
  split.
  - intros H n n1 w (E1 & E2 & E3). specialize (H n1 w). cbv zeta in H. destruct H as (-> & -> & ->). done.
  - intros H n w. by apply H.
Qed.

Ltac routes_step := first [apply keeps_output|apply keeps_mac_default|keeps_step|apply keeps_modify; intros ? ?; done].

Lemma refresh_routes_only : routes_only (refresh_server_route tape printed server).
Proof.
  apply routes_only_keeps. intros n. unfold refresh_server_route, add_route.
  apply keeps_bind; [apply keeps_gets|]. intros installed. apply keeps_bind; [destruct (take_server installed) as [[]|]; unfold delete_route|intros _]; repeat routes_step.
Qed.

Lemma remove_routes_only l : routes_only (remove_routes tape l).
Proof. apply routes_only_keeps. intros n. induction l as [|d l IH]; cbn [remove_routes]; unfold delete_route; repeat (apply IH || routes_step). Qed.

Lemma routes_remove_only : routes_only (routes_remove tape).
Proof. apply routes_only_keeps. intros n. unfold routes_remove. apply keeps_bind; [apply keeps_gets|]. intros. apply routes_only_keeps, remove_routes_only. Qed.

Lemma route_guard_only tunnel default : routes_only (route_guard_install tape tunnel server default).
Proof.
  apply routes_only_keeps. intros n. unfold route_guard_install, or_remove, install_route, add_route.
  repeat (routes_step || (apply routes_only_keeps, routes_remove_only)).
Qed.

Lemma dns_ok_routes_only {A} (m : Effects.L Net A) : routes_only m -> keeps dns_ok m.
Proof. intros H n w Hn. destruct (H n w) as (H1 & H2 & H3). by apply (dns_ok_same n). Qed.

Hypothesis printable : forall service servers, dns0 !! service = Some servers -> Forall server_text servers.

Lemma servers_printable service : Forall server_text (servers_at dns0 service).
Proof. unfold servers_at. destruct (dns0 !! service) eqn:E; [by eapply printable|constructor]. Qed.

(** Installing the resolver: at the end, or not at all. *)
Lemma dns_install_ok interface dns n w : dns_ok n -> n_guard n = None -> n_unrestored n = [] ->
  let '(n', w', r) := dns_guard_install tape printed interface dns n w in dns_ok n' /\ (r <> Some (Ok tt) -> n_guard n' = None).
Proof.
  intros Hn Hg Hu. unfold dns_guard_install. unfold lbind at 1.
  pose proof (keeps_output tape printed (fun x => x = n) n w eq_refl) as Ho. destruct (output tape printed n w) as [[n1 w1] [[order|e|]|]];
    cbn [fst] in Ho; subst n1; [|done..].
  destruct (find_service interface None (lines order)) as [service|].
  2:{ cbn. split; [|done]. by apply (dns_ok_same n). }
  cbv beta iota delta [lbind platform run_m moment_at lret lres map_err gets modify pos].
  destruct (m_socket (tape (let 'mkWorld p _ _ := w1 in p))) as [[]|e|]; [|done..].
  destruct (m_socket (tape (S (let 'mkWorld p _ _ := w1 in p)))) as [[]|e|]; [|done..].
  split; [|done]. destruct Hn as [_ Hn]. assert (Hsame : forall s, servers_at (n_dns n) s = servers_at dns0 s).
  { intros s. apply Hn; [rewrite Hu; apply not_elem_of_nil|]. by rewrite Hg. }
  fold (servers_at (n_dns n) service). rewrite Hsame, parse_printed by apply servers_printable.
  split; cbn; [by intros s p [= <- <-]|]. intros s _ Hs. rewrite <- Hsame. unfold servers_at. rewrite lookup_insert_ne; [done|].
  intros ->. by apply (Hs (servers_at dns0 s)).
Qed.

Lemma dns_drop_ok n w : dns_ok n ->
  exists n' w', dns_guard_drop tape n w = (n', w', Some (Ok tt)) /\ dns_ok n' /\ n_guard n' = None.
Proof.
  intros [H1 H2]. unfold dns_guard_drop, lbind at 1, gets. unfold lbind at 1, modify at 1.
  destruct (n_guard n) as [[service previous]|] eqn:E.
  2:{ eexists _, _. split; [done|]. split; [|done]. split; cbn; [done|]. intros s Hs _. by apply H2. }
  specialize (H1 service previous eq_refl). subst previous. unfold lbind at 1, platform, lbind at 1, run_m, moment_at, lret. cbn.
  destruct (m_socket (tape (pos w))) as [[]|e|]; cbn; (eexists _, _; split; [done|]; split; [|done]; split; cbn; [done|]).
  - intros s Hs _. unfold servers_at at 1. destruct (decide (s = service)) as [->|Hne]; [by rewrite lookup_insert_eq|].
    rewrite lookup_insert_ne by done. apply H2; [done|]. intros p [= <- _]. done.
  - intros s Hs _. apply H2; [set_solver|]. intros p [= -> _]. set_solver.
  - intros s Hs _. apply H2; [set_solver|]. intros p [= -> _]. set_solver.
Qed.

(** [k] refreshes, whatever becomes of them. *)
Fixpoint refreshes (k : nat) : Effects.L Net unit :=
  match k with
  | O => lret tt
  | S k => lbind (catch (refresh_server_route tape printed server)) (fun _ => refreshes k)
  end.

(** The network of a session: installed, refreshed by reconnects, dropped. *)
Definition network_session (k : nat) (tunnel : str) (dns : Ipv4Addr) : Effects.L Net unit :=
  lbind (catch (network_install tape printed tunnel server dns)) (fun r =>
  match r with
  | Ok _ => lbind (refreshes k) (fun _ => network_drop tape)
  | _ => lret tt
  end).

Hypothesis commands_end : forall i, m_socket (tape i) <> Panic.

(** A computation that ends, without a panic. *)
Definition answers {A} (m : Effects.L Net A) : Prop := forall n w, exists n' w' r, m n w = (n', w', Some r) /\ r <> Panic.

Lemma answers_bind {A B} (m : Effects.L Net A) (k : A -> Effects.L Net B) : answers m -> (forall a, answers (k a)) -> answers (lbind m k).
Proof.
  intros Hm Hk n w. destruct (Hm n w) as (n1 & w1 & [a|e|] & E & Hr); [| |done]; unfold lbind; rewrite E; [apply Hk|by eexists _, _, _].
Qed.

Lemma answers_ret {A} (a : A) : answers (lret a).
Proof. intros n w. by eexists _, _, _. Qed.
Lemma answers_throw {A} e : answers (lthrow (A := A) e).
Proof. intros n w. by eexists _, _, _. Qed.
Lemma answers_modify f : answers (modify f).
Proof. intros n w. by eexists _, _, _. Qed.
Lemma answers_gets {A} (f : Net -> A) : answers (gets f).
Proof. intros n w. by eexists _, _, _. Qed.
Lemma answers_platform : answers (platform tape).
Proof. intros n w. by eexists _, _, _. Qed.
Lemma answers_catch {A} (m : Effects.L Net A) : answers m -> answers (catch m).
Proof. intros Hm n w. destruct (Hm n w) as (n1 & w1 & [a|e|] & E & Hr); [| |done]; unfold catch; rewrite E; by eexists _, _, _. Qed.

Lemma answers_command {A} (f : res IoError unit -> res ClientError.t A) :
  (forall r, r <> Panic -> f r <> Panic) -> answers (lbind (platform tape) (fun r => lres (f r))).
Proof. intros Hf n w. cbn. eexists _, _, _. split; [done|]. apply Hf, commands_end. Qed.

Lemma answers_output : answers (output tape printed).
Proof. intros n w. unfold output. apply answers_command. intros [[]|e|] Hr; cbn; done. Qed.

Lemma answers_delete d : answers (delete_route tape d).
Proof. intros n w. unfold delete_route. cbn. destruct (m_socket (tape (pos w))); by eexists _, _, _. Qed.

Lemma answers_add d t : answers (add_route tape d t).
Proof.
  intros n w. unfold add_route. cbn. pose proof (commands_end (pos w)). destruct (m_socket (tape (pos w))) as [[]|e|]; cbn; [|by eexists _, _, _|done].
  destruct (n_table n !! d); by eexists _, _, _.
Qed.

Create HintDb answers.
#[local] Hint Resolve answers_bind answers_ret answers_throw answers_modify answers_gets answers_platform answers_catch answers_output answers_delete answers_add : answers.

Ltac answers_step :=
  match goal with
  | |- answers (lbind _ _) => apply answers_bind; [|intros ?]
  | |- answers (match ?x with _ => _ end) => destruct x
  | |- answers _ => solve [auto with answers nocore]
  end.

Lemma answers_default : answers (default_route tape printed).
Proof. unfold default_route. repeat answers_step. Qed.

Lemma answers_remove : answers (routes_remove tape).
Proof. intros n w. destruct (routes_remove_ends tape n w) as (n' & w' & E & _). by eexists _, _, _. Qed.

Lemma answers_or_remove {A} (m : Effects.L Net A) : answers m -> answers (or_remove tape m).
Proof.
  intros Hm n w. destruct (Hm n w) as (n1 & w1 & [a|e|] & E & Hr); [| |done]; unfold or_remove, lbind at 1, catch; rewrite E; [by eexists _, _, _|].
  apply answers_bind; [apply answers_remove|intros; apply answers_throw].
Qed.

Lemma answers_dns interface dns : answers (dns_guard_install tape printed interface dns).
Proof.
  unfold dns_guard_install. apply answers_bind; [apply answers_output|]. intros order. destruct (find_service _ _ _); [|apply answers_modify].
  intros n w. cbn. pose proof (commands_end (pos w)). destruct (m_socket (tape (pos w))) as [[]|e|]; cbn; [|by eexists _, _, _|done].
  pose proof (commands_end (S (pos w))). destruct (m_socket (tape (S (pos w)))) as [[]|e|]; cbn; [by eexists _, _, _|by eexists _, _, _|done].
Qed.

Lemma answers_install tunnel dns : answers (network_install tape printed tunnel server dns).
Proof.
  unfold network_install, route_guard_install, install_route. apply answers_bind; [apply answers_default|]. intros default.
  apply answers_bind; [|intros; apply answers_or_remove, answers_dns]. apply answers_bind; [apply answers_modify|]. intros _.
  apply answers_or_remove. repeat answers_step.
Qed.

Lemma answers_refresh : answers (refresh_server_route tape printed server).
Proof.
  unfold refresh_server_route. apply answers_bind; [apply answers_gets|]. intros installed. apply answers_bind.
  - destruct (take_server installed) as [[]|]; repeat answers_step.
  - intros _. apply answers_bind; [apply answers_default|]. intros. repeat answers_step.
Qed.

Abbreviation start := (mkNet before dns0 [] None [] []) (only parsing).

Lemma start_ok : routes_ok before server start /\ dns_ok start.
Proof.
  split; [split; cbn|split; cbn]; try done.
  - intros d Hd. by apply not_elem_of_nil in Hd.
  - intros d Hb [t Ht]. congruence.
Qed.

Lemma route_guard_err tunnel default n w n' w' e :
  route_guard_install tape tunnel server default n w = (n', w', Some (Err e)) -> n_installed n' = [].
Proof. unfold route_guard_install, lbind at 1, modify at 1. apply or_remove_err. Qed.

Lemma network_install_inv tunnel dns w :
  let '(n', w', r) := network_install tape printed tunnel server dns start w in
  routes_ok before server n' /\ dns_ok n' /\ exists out, r = Some out /\ out <> Panic /\ (forall e, out = Err e -> n_installed n' = [] /\ n_guard n' = None).
Proof.
  destruct start_ok as [Hr Hd]. pose proof (keeps_network_install tape printed before server tunnel dns start w eq_refl Hr) as Hk.
  destruct (answers_install tunnel dns start w) as (n' & w' & r & E & Hp). rewrite E in *. cbn [fst] in Hk. split; [exact Hk|]. revert E.
  unfold network_install, lbind at 1. pose proof (keeps_mac_default tape printed (fun x => x = start) start w eq_refl) as Hdef.
  destruct (default_route tape printed start w) as [[n1 w1] [[default|e|]|]]; cbn [fst] in Hdef; subst n1.
  2:{ intros [= <- <- <-]. split; [exact Hd|]. by eexists. }
  2:{ intros [= <- <- <-]. done. }
  2:{ done. }
  unfold lbind at 1. pose proof (route_guard_only tunnel default start w1) as Ho. pose proof (dns_ok_routes_only _ (route_guard_only tunnel default) start w1 Hd) as Hd1.
  destruct (route_guard_install tape tunnel server default start w1) as [[n2 w2] [[[]|e|]|]] eqn:Eg; cbn [fst] in *; destruct Ho as (_ & Hg & Hu).
  2:{ intros [= <- <- <-]. split; [done|]. exists (Err e). split; [done|]. split; [done|]. intros _ _. split; [by eapply route_guard_err|done]. }
  2:{ intros [= <- <- <-]. done. }
  2:{ done. }
  unfold or_remove, lbind at 1, catch. pose proof (dns_install_ok (df_interface default) dns n2 w2 Hd1 Hg Hu) as Hi.
  destruct (dns_guard_install _ _ _ _ n2 w2) as [[n3 w3] [[[]|e|]|]]; destruct Hi as [Hd3 Hg3].
  - intros [= <- <- <-]. split; [done|]. by eexists.
  - unfold lbind. pose proof (routes_remove_only n3 w3) as Hx. pose proof (dns_ok_routes_only _ routes_remove_only n3 w3 Hd3) as Hdx.
    destruct (routes_remove_ends tape n3 w3) as (n4 & w4 & Ex & Hin). rewrite Ex in *. cbn [fst] in *. intros [= <- <- <-]. split; [done|].
    exists (Err e). split; [done|]. split; [done|]. intros _ _. split; [done|]. destruct Hx as (_ & -> & _). by apply Hg3.
  - intros [= <- <- <-]. done.
  - done.
Qed.

Lemma refreshes_ok k n w : routes_ok before server n -> dns_ok n ->
  exists n' w', refreshes k n w = (n', w', Some (Ok tt)) /\ routes_ok before server n' /\ dns_ok n'.
Proof.
  revert n w. induction k as [|k IH]; intros n w Hr Hd; cbn [refreshes]; [by exists n, w|]. unfold lbind, catch.
  pose proof (keeps_mac_refresh tape printed before server n w Hr) as Hr1. pose proof (dns_ok_routes_only _ refresh_routes_only n w Hd) as Hd1.
  destruct (answers_refresh n w) as (n1 & w1 & r & E & Hp). rewrite E in *. cbn [fst] in *. destruct r as [[]|e|]; [| |done]; by apply IH.
Qed.

Lemma network_drop_ok n w : routes_ok before server n -> dns_ok n ->
  exists n' w', network_drop tape n w = (n', w', Some (Ok tt)) /\ routes_ok before server n' /\ dns_ok n' /\ n_installed n' = [] /\ n_guard n' = None.
Proof.
  intros Hr Hd. unfold network_drop, lbind. pose proof (keeps_dns_guard_drop tape before server n w Hr) as Hr1.
  destruct (dns_drop_ok n w Hd) as (n1 & w1 & E & Hd1 & Hg1). rewrite E in *. cbn [fst] in Hr1.
  pose proof (keeps_routes_remove tape before server n1 w1 Hr1) as Hr2. pose proof (dns_ok_routes_only _ routes_remove_only n1 w1 Hd1) as Hd2.
  pose proof (routes_remove_only n1 w1) as Ho. destruct (routes_remove_ends tape n1 w1) as (n2 & w2 & E2 & Hi). rewrite E2 in *. cbn [fst] in *.
  exists n2, w2. split; [done|]. split; [done|]. split; [done|]. split; [done|]. destruct Ho as (_ & -> & _). exact Hg1.
Qed.

(** [C36] What a session of the macOS helper leaves behind.  Whatever the commands answer, and
    however often the server route is refreshed in between: a route that was there is there; a
    destination is as it was before the session unless the command that was to delete it failed,
    and only the server's and the four halves of the address spaces can be left; every
    network service has its resolvers back unless the command that was to restore it failed.
    If the session cannot be set up, the same holds of what it had done. *)
Theorem network_is_restored k tunnel dns w :
  let '(n, w', r) := network_session k tunnel dns start w in
  r = Some (Ok tt) /\
  (forall d t, before !! d = Some t -> n_table n !! d = Some t) /\
  (forall d, d ∉ n_left n -> n_table n !! d = before !! d) /\
  (forall d, before !! d = None -> is_Some (n_table n !! d) -> ours server d) /\
  (forall s, s ∉ n_unrestored n -> servers_at (n_dns n) s = servers_at dns0 s).
Proof.
  assert (Hend : forall n, routes_ok before server n -> dns_ok n -> n_installed n = [] -> n_guard n = None ->
    (forall d t, before !! d = Some t -> n_table n !! d = Some t) /\ (forall d, d ∉ n_left n -> n_table n !! d = before !! d) /\
    (forall d, before !! d = None -> is_Some (n_table n !! d) -> ours server d) /\
    (forall s, s ∉ n_unrestored n -> servers_at (n_dns n) s = servers_at dns0 s)).
  { intros n [H1 H2 H3] [_ Hd] Hi Hg. rewrite Hi in H3. split; [done|]. split; [|split; [intros d Hb Hs; by apply H3|]].
    - intros d Hl. destruct (before !! d) as [t|] eqn:Eb; [by apply H1|]. destruct (n_table n !! d) eqn:Et; [|done].
      destruct (H3 d Eb) as [_ [Hx|Hx]]; [by eexists|by apply not_elem_of_nil in Hx|done].
    - intros s Hs. apply Hd; [done|]. by rewrite Hg. }
  unfold network_session, lbind at 1, catch. pose proof (network_install_inv tunnel dns w) as H.
  destruct (network_install tape printed tunnel server dns start w) as [[n1 w1] r]. destruct H as (Hr & Hd & out & -> & Hp & He).
  destruct out as [[]|e|]; [| |done].
  - unfold lbind at 1. destruct (refreshes_ok k n1 w1 Hr Hd) as (n2 & w2 & -> & Hr2 & Hd2).
    destruct (network_drop_ok n2 w2 Hr2 Hd2) as (n3 & w3 & -> & Hr3 & Hd3 & Hi3 & Hg3). split; [done|]. by apply Hend.
  - destruct (He e eq_refl) as [Hi Hg]. split; [done|]. by apply Hend.
Qed.

End Restored.

(** ** Witnesses *)

Module ToyMac.

Import Toy.

Definition newline : str := [10].
Definition route_text : str := ascii_bytes "   gateway: 192.168.1.1" ++ newline ++ ascii_bytes "  interface: en0".
Definition order_text : str :=
  ascii_bytes "(1) Wi-Fi" ++ newline ++ ascii_bytes "(Hardware Port: Wi-Fi, Device: en0)".

(** The seventh command lists the services. *)
Definition toy_printed (i : nat) : str := if (i =? 6)%nat then order_text else route_text.

(** The commands for which [fails] holds are refused. *)
Definition toy_tape (fails : nat -> bool) (i : nat) : moment :=
  mkMoment 0 None None [] (Ok 0) (Ok []) (Ok []) (if fails i then Err (mkIoError ErrorKind.Other None) else Ok tt).

Definition wifi : str := ascii_bytes "Wi-Fi".
Definition toy_before : gmap destination target := <[Net4 (ascii_bytes "default") := Gateway (ascii_bytes "192.168.1.1")]> ∅.
Definition toy_dns : gmap (list Z) (list str) := <[wifi := [ascii_bytes "192.168.1.1"]]> ∅.
Definition toy_server : Ipv4Addr := ipv4_new 198 51 100 7.
Definition toy_start : Net := mkNet toy_before toy_dns [] None [] [].
Definition toy_world : world := mkWorld 0 [] ClientWire.Legacy.
Definition utun : str := ascii_bytes "utun4".

Lemma toy_printable service servers : toy_dns !! service = Some servers -> Forall server_text servers.
Proof.
  unfold toy_dns. intros [[<- <-]|[_ H]]%lookup_insert_Some; [|by rewrite lookup_empty in H]. constructor; [|constructor]. split; [done|by vm_compute].
Qed.

Lemma toy_nothing_left :
  let n := (network_session (toy_tape (fun _ => false)) toy_printed toy_server 2 utun (ipv4_new 10 77 0 1) toy_start toy_world).1.1 in
  n_left n = [] /\ n_unrestored n = [].
Proof. split; vm_compute; reflexivity. Qed.

(** During the session the resolver is the tunnel's; afterwards all is as before. *)
Lemma network_is_restored_witness :
  let tape := toy_tape (fun _ => false) in
  servers_at (n_dns (network_install tape toy_printed utun toy_server (ipv4_new 10 77 0 1) toy_start toy_world).1.1) wifi = [ascii_bytes "10.77.0.1"] /\
  let n := (network_session tape toy_printed toy_server 2 utun (ipv4_new 10 77 0 1) toy_start toy_world).1.1 in
  n_left n = [] /\ (forall d, n_table n !! d = toy_before !! d) /\ servers_at (n_dns n) wifi = [ascii_bytes "192.168.1.1"].
Proof.
  intros tape. split; [vm_compute; reflexivity|]. intros n.
  pose proof (network_is_restored tape toy_printed toy_before toy_dns toy_server toy_printable ltac:(done) 2 utun (ipv4_new 10 77 0 1) toy_world) as H.
  destruct toy_nothing_left as [Hl Hu]. fold tape in Hl, Hu.
  change (mkNet toy_before toy_dns [] None [] []) with toy_start in H. unfold n in *.
  destruct (network_session tape toy_printed toy_server 2 utun (ipv4_new 10 77 0 1) toy_start toy_world) as [[n' w'] r]. cbn [fst] in *.
  destruct H as (_ & _ & H2 & _ & H4). split; [exact Hl|]. split; [intros d; apply H2; rewrite Hl; apply not_elem_of_nil|].
  apply (H4 wifi). rewrite Hu. apply not_elem_of_nil.
Defined.

(** When the deletion of the server route fails, the route is forgotten but stays, and every
    later refresh is refused because the route exists. *)
Example forgotten_route_blocks_reconnects :
  let tape := toy_tape (fun i => (i =? 9)%nat) in
  let '(n, w, r) := network_install tape toy_printed utun toy_server (ipv4_new 10 77 0 1) toy_start toy_world in
  let '(n, w, r1) := refresh_server_route tape toy_printed toy_server n w in
  let '(n, w, r2) := refresh_server_route tape toy_printed toy_server n w in
  r = Some (Ok tt) /\ r1 = Some (Err (ClientError.Io (mkIoError ErrorKind.AlreadyExists None))) /\ r2 = r1.
Proof. vm_compute. done. Qed.

End ToyMac.
