(* ===== verification/MacTunnel.v ===== *)
(** * The macOS helper

    crates/macos-client/src/main.rs (the profile, the receive loop, reconnecting, the outgoing
    thread, the lock file) and the packets of utun.rs.

    The sessions are a heap: the loop and the outgoing thread hold pointers, and a reconnect
    replaces the current one.  [stops] is what [stop_requested] finds at a position of the tape,
    [stopping] the flag alone.  A call on a session is atomic: its two sides have locks of their
    own and share no state but the adapter.  Between any two operations of the loop, reconnects
    included, the outgoing thread takes the steps the schedule [k_schedule] says.  [resolves] is the resolver's answer, [polls]
    bounds the polls of a sleep.

    The theorems: while the helper runs, both halves of the address spaces stay in the tunnel
    through every reconnect, and every session has the parameters the interface was configured
    with. *)

From S2P Require Import Prelude Protocol Text Replay Crypto ToyCrypto DataPlane Morph Speedy Config ClientWire Handshake Effects Flow Profile Apple MacNetwork.

Definition KEEPALIVE_INTERVAL : Z := 15000.
Definition SESSION_TIMEOUT : Z := 30000.
Definition MAX_RECONNECT_BACKOFF : Z := 16000.
Definition RECEIVE_BATCH : Z := 32.

Definition AF_INET : Z := 2.
Definition AF_INET6 : Z := 30.

(** ** The profile *)

Record HelperProfile := mkHelperProfile { hp_token : str; hp_password : str; hp_protocol : ClientProtocol }.

Record ResolvedProfile := mkResolved {
  re_id : str;
  re_name : str;
  re_endpoint : str;
  re_server_public_key : str;
  re_client_private_key : str;
  re_protocol : ClientProtocol;
}.

(** [wrapper] is what JSON makes of the octets. *)
Definition decode_profile `{X : ProfileLibs, B : Base64} (wrapper : option HelperProfile) : res IoError ResolvedProfile :=
  wrapper ← ok_or wrapper (mkIoError ErrorKind.Other None);
  profile ← map_err (fun _ => mkIoError ErrorKind.PermissionDenied None) (decrypt_profile (hp_token wrapper) (as_bytes (hp_password wrapper)));
  let '(id, name, endpoint, server_public_key, client_private_key) := into_parts profile in
  Ok (mkResolved id name endpoint server_public_key client_private_key (hp_protocol wrapper)).

(** The lock file: what it holds, and which processes are alive. *)
Definition acquire_pid_file (alive : Z -> bool) (parse_pid : str -> option Z) (contents : option str) (own : str)
    : res IoError (option str) :=
  match contents with
  | Some text =>
      match parse_pid (trim text) with
      | Some pid => if alive pid then Err (mkIoError ErrorKind.AlreadyExists None) else Ok (Some own)
      | None => Ok (Some own)
      end
  | None => Ok (Some own)
  end.

(** ** Packets of utun *)

(** The address family before the packet; IPv6 is dropped. *)
Definition read_packet (raw : bytes) : res IoError (option bytes) :=
  if len raw <? 4 then Err (mkIoError ErrorKind.InvalidData None)
  else
    let family := be_value (take 4 raw) in
    if family =? AF_INET then Ok (Some (drop 4 raw))
    else if family =? AF_INET6 then Ok None
    else Err (mkIoError ErrorKind.InvalidData None).

(** [written] is the outcome of [writev]. *)
Definition write_packet (written : res IoError Z) (packet : bytes) : res IoError bytes :=
  let frame := be_bytes 4 AF_INET ++ packet in
  n ← written;
  if negb (n =? len frame) then Err (mkIoError ErrorKind.WriteZero None) else Ok frame.

(** ** The helper *)

(** The two halves of an iteration of the outgoing thread: up to the packet, and from it. *)
Inductive worker_activity := Reads | Sends.

Section Helper.
Context `{N : Noise, P : Primitives, B : Base64}.

Record Mac := mkMac {
  k_net : Net;
  k_sessions : list AppleSession;
  k_current : nat;
  k_reconnecting : bool;
  k_report : bool;
  k_frames : list bytes;
  k_last_keepalive : Z;
  k_last_activity : Z;
  k_holding : option bytes;
  k_worker : bool;
  k_schedule : list (list worker_activity);
}.

Definition put_net (v : Net) (s : Mac) : Mac := let 'mkMac _ a b c d e f g h i j := s in mkMac v a b c d e f g h i j.
Definition put_sessions (v : list AppleSession) (s : Mac) : Mac := let 'mkMac z _ b c d e f g h i j := s in mkMac z v b c d e f g h i j.
Definition put_current (v : nat) (s : Mac) : Mac := let 'mkMac z a _ c d e f g h i j := s in mkMac z a v c d e f g h i j.
Definition put_reconnecting (v : bool) (s : Mac) : Mac := let 'mkMac z a b _ d e f g h i j := s in mkMac z a b v d e f g h i j.
Definition put_report (v : bool) (s : Mac) : Mac := let 'mkMac z a b c _ e f g h i j := s in mkMac z a b c v e f g h i j.
Definition put_frames (v : list bytes) (s : Mac) : Mac := let 'mkMac z a b c d _ f g h i j := s in mkMac z a b c d v f g h i j.
Definition put_keepalive (v : Z) (s : Mac) : Mac := let 'mkMac z a b c d e _ g h i j := s in mkMac z a b c d e v g h i j.
Definition put_activity (v : Z) (s : Mac) : Mac := let 'mkMac z a b c d e f _ h i j := s in mkMac z a b c d e f v h i j.
Definition put_holding (v : option bytes) (s : Mac) : Mac := let 'mkMac z a b c d e f g _ i j := s in mkMac z a b c d e f g v i j.
Definition put_worker (v : bool) (s : Mac) : Mac := let 'mkMac z a b c d e f g h _ j := s in mkMac z a b c d e f g h v j.
Definition put_schedule (v : list (list worker_activity)) (s : Mac) : Mac := let 'mkMac z a b c d e f g h i _ := s in mkMac z a b c d e f g h i v.

Context (tape : nat -> moment) (interrupted stops stopping : nat -> bool) (printed : nat -> str).
Context (resolves : nat -> res IoError (list SocketAddr)) (polls : nat).
Context (profile : ResolvedProfile) (parameters : TunnelParameters) (server_ip : Ipv4Addr).

Abbreviation L := (Effects.L Mac) (only parsing).
Notation "x <- m ; k" := (lbind m (fun x => k)) (at level 100, m at next level, right associativity).

Definition on_net {A} (m : Effects.L Net A) : L A := fun s w => let '(n, w, r) := m (k_net s) w in (put_net n s, w, r).

(** A call on the session a pointer names, with the adapter of that session. *)
Definition on_session {A} (pointer : nat) (m : Effects.L AppleSession A) : L A := fun s w =>
  match k_sessions s !! pointer with
  | None => (s, w, Some Panic)
  | Some a =>
      let '(a, w', r) := m a (mkWorld (pos w) (sent w) (ap_wire a)) in
      (put_sessions (<[pointer := mkApple (ap_parameters a) (ap_sender a) (ap_receiver a) (wire w')]> (k_sessions s)) s,
       mkWorld (pos w') (sent w') (wire w), r)
  end.

Definition stop_requested : L bool := fun s w => lbind (run_m (moment_at tape)) (fun _ => lret (stops (pos w))) s w.
Definition stop_flag : L bool := fun s w => (s, w, Some (Ok (stopping (pos w)))).

(** [StateWriter::write] *)
Definition write_state : L unit := r <- platform tape; lres (map_err ClientError.Io r).

(** ** The outgoing thread *)

(** Up to the packet: the flags are read, then the device. *)
Definition worker_read : L unit :=
  stop <- stop_flag;
  paused <- gets k_reconnecting;
  if stop : bool then modify (put_worker false)
  else if paused : bool then lret tt
  else
    m <- run_m (moment_at tape);
    match (raw ← m_arrival m; read_packet raw) with
    | Ok packet => modify (put_holding packet)
    | Err e =>
        if bool_decide (kind e = ErrorKind.WouldBlock \/ kind e = ErrorKind.Interrupted) then lret tt
        else modify (fun s => put_report true (put_worker false s))
    | Panic => lres Panic
    end.

(** From the packet: the session that is current now sends it. *)
Definition worker_send : L unit :=
  holding <- gets k_holding;
  _ <- modify (put_holding None);
  match holding with
  | None => lret tt
  | Some packet =>
      pointer <- gets k_current;
      r <- catch (on_session pointer (send_packets tape interrupted [packet]));
      match r with
      | Ok _ => lret tt
      | Err _ => modify (put_report true)
      | Panic => lres Panic
      end
  end.

(** A step of the thread, which has ended when it panics; one that has ended does nothing. *)
Definition worker_step (a : worker_activity) : L unit := fun s w =>
  if k_worker s then
    match (match a with Reads => worker_read | Sends => worker_send end) s w with
    | (s, w, Some Panic) => (put_worker false s, w, Some (Ok tt))
    | r => r
    end
  else (s, w, Some (Ok tt)).

Fixpoint worker_run (l : list worker_activity) : L unit :=
  match l with
  | [] => lret tt
  | a :: l => _ <- worker_step a; worker_run l
  end.

(** Between two operations of the loop, the thread takes the steps that are next in the
    schedule. *)
Definition meanwhile : L unit := fun s w =>
  match k_schedule s with
  | [] => (s, w, Some (Ok tt))
  | now :: later => worker_run now (put_schedule later s) w
  end.

(** ** Reconnecting *)

Definition same_parameters (a b : TunnelParameters) : bool :=
  (tn_client_address a =? tn_client_address b) && (tn_prefix_len a =? tn_prefix_len b) && (tn_dns a =? tn_dns b) && (tn_mtu a =? tn_mtu b).

Definition connect (fuel : nat) (physical : Ipv4Addr) : L AppleSession := fun s w =>
  run_m (connect_from_with_protocol tape fuel (resolves (pos w)) (re_server_public_key profile) (re_client_private_key profile)
           (Some (V4 physical)) (re_protocol profile)) s w.

Definition reconnect_attempt (fuel : nat) : L AppleSession :=
  _ <- on_net (refresh_server_route tape printed server_ip);
  _ <- meanwhile;
  physical <- on_net (primary_ipv4 tape printed);
  _ <- meanwhile;
  replacement <- connect fuel physical;
  if same_parameters (ap_parameters replacement) parameters then lret replacement else lthrow ClientError.Platform.

Fixpoint sleep_until (n : nat) (deadline : Z) : L unit :=
  match n with
  | O => fun s w => (s, w, None)
  | S n =>
      _ <- meanwhile;
      stop <- stop_requested;
      if stop : bool then lret tt
      else
        now <- clock tape;
        if now <? deadline then sleep_until n deadline else lret tt
  end.

Definition sleep_with_stop (duration : Z) : L unit :=
  now <- clock tape;
  sleep_until polls (now + duration).

Definition stopped : ClientError.t := ClientError.Io (mkIoError ErrorKind.Interrupted None).

Fixpoint reconnect (n fuel : nat) (backoff : Z) : L AppleSession :=
  match n with
  | O => fun s w => (s, w, None)
  | S n =>
      _ <- meanwhile;
      stop <- stop_requested;
      if stop : bool then lthrow stopped
      else
        attempt <- catch (reconnect_attempt fuel);
        _ <- meanwhile;
        match attempt with
        | Ok session => lret session
        | _ =>
            _ <- write_state;
            _ <- sleep_with_stop backoff;
            reconnect n fuel (Z.min (backoff * 2) MAX_RECONNECT_BACKOFF)
        end
  end.

Definition reconnect_session (n fuel : nat) : L unit :=
  _ <- modify (put_reconnecting true);
  _ <- meanwhile;
  _ <- write_state;
  replacement <- reconnect n fuel 1000;
  _ <- modify (fun s => put_current (length (k_sessions s)) (put_sessions (k_sessions s ++ [replacement]) s));
  _ <- meanwhile;
  _ <- modify (put_report false);
  _ <- meanwhile;
  _ <- modify (put_reconnecting false);
  _ <- meanwhile;
  write_state.

(** ** The loop *)

Fixpoint write_packets (packets : list bytes) : L unit :=
  match packets with
  | [] => lret tt
  | packet :: packets =>
      m <- run_m (moment_at tape);
      frame <- lres (map_err ClientError.Io (write_packet (m_sent m) packet));
      _ <- modify (fun s => put_frames (k_frames s ++ [frame]) s);
      _ <- meanwhile;
      write_packets packets
  end.

(** Receive a batch; [true] when the session must be replaced. *)
Definition receive_turn (fuel : nat) (pointer : nat) : L bool :=
  r <- catch (on_session pointer (receive_packets tape interrupted fuel RECEIVE_BATCH));
  _ <- meanwhile;
  match r with
  | Ok batch =>
      _ <- (if rb_had_activity batch then now <- clock tape; modify (put_activity now) else lret tt);
      _ <- write_packets (rb_packets batch);
      lret false
  | Err _ => lret true
  | Panic => lres Panic
  end.

Definition keepalive_turn (pointer : nat) : L bool :=
  r <- catch (on_session pointer (send_keepalive tape interrupted));
  now <- clock tape;
  _ <- modify (put_keepalive now);
  match r with
  | Ok _ => lret false
  | Err _ => lret true
  | Panic => lres Panic
  end.

(** One iteration of [run]; [false] when the loop ends. *)
Definition mac_turn (n fuel : nat) : L bool :=
  stop <- stop_requested;
  if stop : bool then lret false
  else
    reported <- gets k_report;
    _ <- modify (put_report false);
    pointer <- gets k_current;
    _ <- meanwhile;
    reason <- (if reported : bool then lret true else receive_turn fuel pointer);
    _ <- meanwhile;
    now <- clock tape;
    last_activity <- gets k_last_activity;
    let reason := (reason : bool) || (SESSION_TIMEOUT <=? duration_since now last_activity) in
    now <- clock tape;
    last_keepalive <- gets k_last_keepalive;
    reason <- (if negb reason && (KEEPALIVE_INTERVAL <=? duration_since now last_keepalive) then keepalive_turn pointer else lret reason);
    _ <- meanwhile;
    if reason : bool then
      r <- catch (reconnect_session n fuel);
      match r with
      | Err e =>
          stop <- stop_requested;
          if (stop : bool) && match e with ClientError.Io io => bool_decide (kind io = ErrorKind.Interrupted) | _ => false end
          then lret false else lthrow e
      | Panic => lres Panic
      | Ok _ =>
          now <- clock tape;
          _ <- modify (put_activity now);
          now <- clock tape;
          _ <- modify (put_keepalive now);
          lret true
      end
    else lret true.

(** What the helper does from its start: iterations of the loop, until one is the last, and
    steps of the thread in between. *)
Inductive mac_activity := LoopTurn (n fuel : nat) | Outgoing (a : worker_activity).

Definition mac_step (a : mac_activity) : L bool :=
  match a with
  | LoopTurn n fuel => mac_turn n fuel
  | Outgoing a => _ <- worker_step a; lret true
  end.

Fixpoint mac_run (activities : list mac_activity) (s : Mac) (w : world) : Mac * world :=
  match activities with
  | [] => (s, w)
  | a :: activities =>
      match mac_step a s w with
      | (s, w, Some (Ok true)) => mac_run activities s w
      | (s, w, _) => (s, w)
      end
  end.

End Helper.

(** ** The start *)

Section Start.
Context `{N : Noise, P : Primitives, B : Base64}.
Context (tape : nat -> moment) (printed : nat -> str) (resolves : nat -> res IoError (list SocketAddr)) (profile : ResolvedProfile).

Notation "x <- m ; k" := (lbind m (fun x => k)) (at level 100, m at next level, right associativity).

Definition checked : Effects.L Net unit := r <- platform tape; lres (map_err ClientError.Io r).

(** [Utun::configure] *)
Definition configure (p : TunnelParameters) : Effects.L Net unit :=
  if 32 <? tn_prefix_len p then lthrow (ClientError.Io (mkIoError ErrorKind.InvalidInput None)) else checked.

(** [run_tunnel] up to the loop: the state file, the session, the device, the network. *)
Definition run_tunnel_start (fuel : nat) (tunnel : str) : Effects.L Net (AppleSession * Ipv4Addr) :=
  _ <- checked;
  physical <- primary_ipv4 tape printed;
  session <- (fun n w => run_m (connect_from_with_protocol tape fuel (resolves (pos w)) (re_server_public_key profile)
                (re_client_private_key profile) (Some (V4 physical)) (re_protocol profile)) n w);
  match tn_remote_address (ap_parameters session) with
  | V6 _ => lthrow (ClientError.Io (mkIoError ErrorKind.Unsupported None))
  | V4 server_ip =>
      _ <- checked;
      _ <- checked;
      _ <- configure (ap_parameters session);
      _ <- network_install tape printed tunnel server_ip (tn_dns (ap_parameters session));
      lret (session, server_ip)
  end.

(** The helper when the loop begins. *)
Definition mac_start (net : Net) (session : AppleSession) (keepalive activity : Z) (schedule : list (list worker_activity)) : Mac :=
  mkMac net [session] 0 false false [] keepalive activity None true schedule.

End Start.

(** ** Sessions keep their parameters *)

Section SessionParameters.
Context `{N : Noise, P : Primitives} (tape : nat -> moment) (interrupted : nat -> bool) (p : TunnelParameters).

Definition has_parameters (a : AppleSession) : Prop := ap_parameters a = p.

Lemma keeps_encode_ip packet : keeps has_parameters (apple_encode_ip packet).
Proof. intros a w Ha. unfold apple_encode_ip. by destruct (TunnelSender_encode_ip_into _ _ _). Qed.

Lemma keeps_encode_keepalive : keeps has_parameters apple_encode_keepalive.
Proof. intros a w Ha. unfold apple_encode_keepalive. by destruct (TunnelSender_encode_keepalive_into _ _). Qed.

Lemma keeps_apple_decode d : keeps has_parameters (apple_decode d).
Proof. intros a w Ha. unfold apple_decode. by destruct (TunnelReceiver_decode_into _ _). Qed.

Lemma keeps_send_wired inner : keeps has_parameters (send_wired tape interrupted inner).
Proof. unfold send_wired. repeat keeps_step. Qed.

Lemma keeps_send_packets packets : keeps has_parameters (send_packets tape interrupted packets).
Proof.
  unfold send_packets. apply keeps_bind; [apply keeps_res|]. intros _. apply keeps_bind; [|intros; apply keeps_ret].
  induction packets as [|packet packets IH]; cbn [send_each]; [apply keeps_ret|].
  apply keeps_bind; [apply keeps_encode_ip|]. intros inner. apply keeps_bind; [apply keeps_send_wired|]. done.
Qed.

Lemma keeps_send_keepalive : keeps has_parameters (send_keepalive tape interrupted).
Proof. unfold send_keepalive. apply keeps_bind; [apply keeps_encode_keepalive|]. intros. apply keeps_send_wired. Qed.

Lemma keeps_apple_unwrap datagram : keeps has_parameters (apple_unwrap tape datagram).
Proof. unfold apple_unwrap. apply keeps_bind; [apply keeps_run|]. intros [[[] ?]|?|]; repeat keeps_step. Qed.

Lemma keeps_receive_packets fuel maximum : keeps has_parameters (receive_packets tape interrupted fuel maximum).
Proof.
  unfold receive_packets. apply keeps_bind; [apply keeps_res|]. intros _. apply keeps_bind; [apply keeps_run|]. intros _.
  generalize (mkBatch [] false). induction fuel as [|fuel IH]; intros batch; cbn [receive_loop]; [by intros a w|].
  case_if; [apply keeps_ret|]. apply keeps_bind; [apply keeps_run|]. intros [datagram|e|]; [|case_if; repeat keeps_step|apply keeps_res].
  apply keeps_bind; [apply keeps_apple_unwrap|]. intros [d|]; [|apply IH]. apply keeps_bind; [apply keeps_apple_decode|].
  intros [decoded|e|]; [| |apply keeps_res]; (apply keeps_bind; [case_if; [apply keeps_run|apply keeps_ret]|intros _; apply IH]).
Qed.

End SessionParameters.

(** ** While the helper runs *)

Section Running.
Context `{N : Noise, P : Primitives, B : Base64}.
Context (tape : nat -> moment) (interrupted stops stopping : nat -> bool) (printed : nat -> str).
Context (resolves : nat -> res IoError (list SocketAddr)) (polls : nat).
Context (profile : ResolvedProfile) (parameters : TunnelParameters) (server_ip : Ipv4Addr).
Context (tunnel : str) (before : gmap destination target).

(** Both halves are in the tunnel and nothing else was touched; every session, and there is a
    current one, has the parameters of the interface. *)
Record consistent (s : Mac) : Prop := {
  co_sealed : sealed tunnel (k_net s);
  co_routes : routes_ok before server_ip (k_net s);
  co_current : (k_current s < length (k_sessions s))%nat;
  co_parameters : Forall (fun a => same_parameters (ap_parameters a) parameters = true) (k_sessions s);
}.

Lemma consistent_same s s' : k_net s' = k_net s -> k_current s' = k_current s -> k_sessions s' = k_sessions s -> consistent s -> consistent s'.
Proof. intros H1 H2 H3 [C1 C2 C3 C4]. split; by rewrite ?H1, ?H2, ?H3. Qed.

Lemma keeps_put (f : Mac -> Mac) :
  (forall s, k_net (f s) = k_net s /\ k_current (f s) = k_current s /\ k_sessions (f s) = k_sessions s) -> keeps consistent (modify f).
Proof. intros H. apply keeps_modify. intros s. destruct (H s) as (H1 & H2 & H3). by apply consistent_same. Qed.

Lemma keeps_on_net {A} (m : Effects.L Net A) : keeps (sealed tunnel) m -> keeps (routes_ok before server_ip) m -> keeps consistent (on_net m).
Proof.
  intros H1 H2 s w [C1 C2 C3 C4]. unfold on_net. specialize (H1 _ w C1). specialize (H2 _ w C2).
  destruct (m (k_net s) w) as [[n w'] r]. cbn [fst] in *. destruct s; split; done.
Qed.

Lemma keeps_on_session {A} pointer (m : Effects.L AppleSession A) : (forall p, keeps (has_parameters p) m) -> keeps consistent (on_session pointer m).
Proof.
  intros H s w C. unfold on_session. destruct (k_sessions s !! pointer) as [a|] eqn:E; [|done].
  specialize (H (ap_parameters a) a (mkWorld (pos w) (sent w) (ap_wire a)) eq_refl). unfold has_parameters in H.
  destruct (m a _) as [[a' w'] r]. cbn [fst] in *. destruct C as [C1 C2 C3 C4]. destruct s as [net sessions current z4 z5 z6 z7 z8 z9 z10]. cbn in *.
  split; cbn; [done|done|by rewrite length_insert|]. apply Forall_insert; [done|]. cbn. rewrite H.
  rewrite Forall_forall in C4. apply C4. apply list_elem_of_In. by eapply list_elem_of_lookup_2.
Qed.

Lemma keeps_stop_requested : keeps consistent (stop_requested tape stops).
Proof. intros s w C. unfold stop_requested. apply keeps_bind; [apply keeps_run|intros; apply keeps_ret|done]. Qed.

Lemma keeps_mac_state : keeps consistent (write_state tape).
Proof. unfold write_state. repeat keeps_step. Qed.

Lemma keeps_connect fuel physical : keeps consistent (connect tape resolves profile fuel physical).
Proof. intros s w C. unfold connect. by apply keeps_run. Qed.

Lemma keeps_primary I : keeps I (primary_ipv4 tape printed).
Proof. unfold primary_ipv4. apply keeps_bind; [apply keeps_mac_default|]. intros. apply keeps_bind; [apply keeps_output|]. intros. repeat keeps_step. Qed.

Lemma keeps_worker_read : keeps consistent (worker_read tape stopping).
Proof.
  unfold worker_read. apply keeps_bind; [by intros s w|]. intros stop. apply keeps_bind; [apply keeps_gets|]. intros paused.
  destruct stop; [apply keeps_put; by intros []|]. destruct paused; [apply keeps_ret|]. apply keeps_bind; [apply keeps_run|]. intros m.
  destruct (_ ← m_arrival m; _) as [packet|e|]; [apply keeps_put; by intros []| |apply keeps_res].
  case_if; [apply keeps_ret|apply keeps_put; by intros []].
Qed.

Lemma keeps_worker_send : keeps consistent (worker_send tape interrupted).
Proof.
  unfold worker_send. apply keeps_bind; [apply keeps_gets|]. intros holding. apply keeps_bind; [apply keeps_put; by intros []|]. intros _.
  destruct holding as [packet|]; [|apply keeps_ret]. apply keeps_bind; [apply keeps_gets|]. intros pointer.
  apply keeps_bind; [apply keeps_catch, keeps_on_session; intros; apply keeps_send_packets|].
  intros [?|e|]; [apply keeps_ret|apply keeps_put; by intros []|apply keeps_res].
Qed.

Lemma keeps_worker_step a : keeps consistent (worker_step tape interrupted stopping a).
Proof.
  intros s w C. unfold worker_step. destruct (k_worker s); [|done].
  assert (H : keeps consistent (match a with Reads => worker_read tape stopping | Sends => worker_send tape interrupted end))
    by (destruct a; [apply keeps_worker_read|apply keeps_worker_send]).
  specialize (H s w C). destruct (_ s w) as [[s1 w1] [[?|?|]|]]; cbn [fst] in *; try done. by apply (consistent_same s1); [destruct s1..|].
Qed.

Lemma keeps_meanwhile : keeps consistent (meanwhile tape interrupted stopping).
Proof.
  assert (Hr : forall l, keeps consistent (worker_run tape interrupted stopping l)).
  { induction l as [|a l IH]; cbn [worker_run]; [apply keeps_ret|]. apply keeps_bind; [apply keeps_worker_step|]. by intros []. }
  intros s w C. unfold meanwhile. destruct (k_schedule s) as [|now later]; [done|]. apply Hr. by apply (consistent_same s); [destruct s..|].
Qed.

(** One operation of the loop after another. *)
Ltac keeps_mac := repeat first [apply keeps_meanwhile | apply keeps_stop_requested | apply keeps_mac_state | apply keeps_put; by intros [] | keeps_step].

Lemma keeps_attempt fuel : keeps consistent (reconnect_attempt tape interrupted stopping printed resolves profile parameters server_ip fuel).
Proof.
  unfold reconnect_attempt. apply keeps_bind; [apply keeps_on_net; [apply keeps_refresh_sealed|apply keeps_mac_refresh]|]. intros _.
  apply keeps_bind; [apply keeps_meanwhile|]. intros _. apply keeps_bind; [apply keeps_on_net; apply keeps_primary|]. intros physical.
  apply keeps_bind; [apply keeps_meanwhile|]. intros _. apply keeps_bind; [apply keeps_connect|]. intros. keeps_mac.
Qed.

Lemma keeps_sleep duration : keeps consistent (sleep_with_stop tape interrupted stops stopping polls duration).
Proof.
  unfold sleep_with_stop. apply keeps_bind; [apply keeps_run|]. intros now. generalize (now + duration). intros deadline.
  induction polls as [|n IH]; cbn [sleep_until]; [by intros s w|]. repeat first [apply IH | progress keeps_mac].
Qed.

Lemma keeps_reconnect n fuel backoff : keeps consistent (reconnect tape interrupted stops stopping printed resolves polls profile parameters server_ip n fuel backoff).
Proof.
  revert backoff. induction n as [|n IH]; intros backoff; cbn [reconnect]; [by intros s w|].
  repeat first [apply keeps_attempt | apply keeps_sleep | apply IH | progress keeps_mac].
Qed.

(** A session that replaces another has the same parameters. *)
Lemma attempt_parameters fuel s w s' w' session :
  reconnect_attempt tape interrupted stopping printed resolves profile parameters server_ip fuel s w = (s', w', Some (Ok session)) ->
  same_parameters (ap_parameters session) parameters = true.
Proof.
  unfold reconnect_attempt. intros (? & ? & ? & _ & H)%lbind_inv. revert H. intros (? & ? & ? & _ & H)%lbind_inv. revert H.
  intros (? & ? & ? & _ & H)%lbind_inv. revert H. intros (? & ? & ? & _ & H)%lbind_inv. revert H.
  intros (? & ? & replacement & _ & H)%lbind_inv. destruct (same_parameters (ap_parameters replacement) parameters) eqn:E; [|done].
  by injection H as _ _ <-.
Qed.

Lemma reconnect_parameters n fuel backoff s w s' w' session :
  reconnect tape interrupted stops stopping printed resolves polls profile parameters server_ip n fuel backoff s w = (s', w', Some (Ok session)) ->
  same_parameters (ap_parameters session) parameters = true.
Proof.
  revert backoff s w. induction n as [|n IH]; intros backoff s w; cbn [reconnect]; [done|].
  intros (? & ? & ? & _ & H)%lbind_inv. revert H. intros (s1 & w1 & stop & _ & H)%lbind_inv. destruct stop; [done|]. revert H.
  intros (s2 & w2 & attempt & Hc & H)%lbind_inv. unfold catch in Hc.
  destruct (reconnect_attempt _ _ _ _ _ _ _ _ fuel s1 w1) as [[s3 w3] [[replacement|e|]|]] eqn:E; try done; injection Hc as <- <- <-;
    revert H; intros (? & ? & ? & _ & H)%lbind_inv.
  - injection H as _ _ <-. by eapply attempt_parameters.
  - revert H. intros (? & ? & ? & _ & H)%lbind_inv. revert H. intros (? & ? & ? & _ & H)%lbind_inv. by eapply IH.
Qed.

Lemma keeps_reconnect_session n fuel : keeps consistent (reconnect_session tape interrupted stops stopping printed resolves polls profile parameters server_ip n fuel).
Proof.
  unfold reconnect_session. apply keeps_bind; [apply keeps_put; by intros []|]. intros _. apply keeps_bind; [apply keeps_meanwhile|]. intros _.
  apply keeps_bind; [apply keeps_mac_state|]. intros _ s w C.
  unfold lbind at 1. pose proof (keeps_reconnect n fuel 1000 s w C) as C1.
  destruct (reconnect _ _ _ _ _ _ _ _ _ _ n fuel 1000 s w) as [[s1 w1] [[session|e|]|]] eqn:E; cbn [fst] in C1; [|done..].
  apply reconnect_parameters in E. assert (C2 : consistent (put_current (length (k_sessions s1)) (put_sessions (k_sessions s1 ++ [session]) s1))).
  { destruct C1 as [D1 D2 D3 D4]. destruct s1. cbn in *. split; cbn; [done|done|rewrite length_app; cbn; lia|]. apply Forall_app. split; [done|]. by constructor. }
  unfold lbind at 1, modify at 1. revert C2. generalize (put_current (length (k_sessions s1)) (put_sessions (k_sessions s1 ++ [session]) s1)). intros s2.
  apply keeps_bind; [apply keeps_meanwhile|]. intros _. keeps_mac.
Qed.

Lemma keeps_write_packets packets : keeps consistent (write_packets tape interrupted stopping packets).
Proof.
  induction packets as [|packet packets IH]; cbn [write_packets]; [apply keeps_ret|]. repeat first [apply IH | progress keeps_mac].
Qed.

Lemma keeps_receive_turn fuel pointer : keeps consistent (receive_turn tape interrupted stopping fuel pointer).
Proof.
  unfold receive_turn. apply keeps_bind; [apply keeps_catch, keeps_on_session; intros; apply keeps_receive_packets|].
  intros r. repeat first [apply keeps_write_packets | progress keeps_mac].
Qed.

Lemma keeps_keepalive_turn pointer : keeps consistent (keepalive_turn tape interrupted pointer).
Proof.
  unfold keepalive_turn. apply keeps_bind; [apply keeps_catch, keeps_on_session; intros; apply keeps_send_keepalive|]. intros r.
  apply keeps_bind; [apply keeps_run|]. intros now. apply keeps_bind; [apply keeps_put; by intros []|]. intros _. repeat keeps_step.
Qed.

Lemma keeps_turn n fuel : keeps consistent (mac_turn tape interrupted stops stopping printed resolves polls profile parameters server_ip n fuel).
Proof.
  unfold mac_turn. repeat first [apply keeps_receive_turn | apply keeps_keepalive_turn | apply keeps_reconnect_session | progress keeps_mac].
Qed.

Lemma keeps_mac_step a : keeps consistent (mac_step tape interrupted stops stopping printed resolves polls profile parameters server_ip a).
Proof.
  destruct a as [n fuel|a]; cbn [mac_step]; [apply keeps_turn|]. apply keeps_bind; [apply keeps_worker_step|]. intros. apply keeps_ret.
Qed.

Lemma mac_run_consistent activities s w : consistent s ->
  consistent (mac_run tape interrupted stops stopping printed resolves polls profile parameters server_ip activities s w).1.
Proof.
  revert s w. induction activities as [|a activities IH]; intros s w C; [done|]. cbn [mac_run].
  pose proof (keeps_mac_step a s w C) as C1. destruct (mac_step _ _ _ _ _ _ _ _ _ _ a s w) as [[s1 w1] [[[]|?|]|]]; try done. by apply IH.
Qed.

End Running.

(** A step that succeeds and leaves the network alone. *)
Lemma untouched `{N : Noise, P : Primitives} {A} (m : Effects.L Net A) n w n' w' r :
  (forall n0, keeps (fun x => x = n0) m) -> m n w = (n', w', r) -> n' = n.
Proof. intros H E. specialize (H n n w eq_refl). by rewrite E in H. Qed.

Lemma run_tunnel_sealed `{N : Noise, P : Primitives, B : Base64} tape printed resolves profile fuel tunnel before dns0 w net w1 session server_ip :
  run_tunnel_start tape printed resolves profile fuel tunnel (mkNet before dns0 [] None [] []) w = (net, w1, Some (Ok (session, server_ip))) ->
  sealed tunnel net /\ routes_ok before server_ip net.
Proof.
  assert (Hc : forall n0, keeps (fun x => x = n0) (checked tape)) by (intros n0; unfold checked; repeat keeps_step).
  unfold run_tunnel_start. intros (n1 & v1 & [] & H1%untouched & H)%lbind_inv; [|done]. subst n1. revert H.
  intros (n2 & v2 & physical & H2%untouched & H)%lbind_inv; [|intros; apply keeps_primary]. subst n2. revert H.
  intros (n3 & v3 & a & H3%untouched & H)%lbind_inv; [|intros n0 n w0 Hn; by apply keeps_run]. subst n3. revert H.
  destruct (tn_remote_address (ap_parameters a)) as [ip4|]; [|done].
  intros (n4 & v4 & [] & H4%untouched & H)%lbind_inv; [|done]. subst n4. revert H.
  intros (n5 & v5 & [] & H5%untouched & H)%lbind_inv; [|done]. subst n5. revert H.
  intros (n6 & v6 & [] & H6%untouched & H)%lbind_inv; [|intros; unfold configure; case_if; [apply keeps_throw|apply Hc]]. subst n6. revert H.
  intros (n7 & v7 & [] & H7 & [= <- <- <- <-])%lbind_inv. split; [by eapply network_install_sealed|].
  pose proof (keeps_network_install tape printed before ip4 tunnel (tn_dns (ap_parameters a)) (mkNet before dns0 [] None [] []) v6 eq_refl (proj1 (start_ok before dns0 ip4))) as Hk.
  by rewrite H7 in Hk.
Qed.

(** [C37] The macOS helper.  From any start that succeeds, through any number of iterations of
    the loop, with the outgoing thread taking any number of steps between any two operations of
    the loop, also in the middle of a reconnect and after any number of its attempts, and
    whatever the network, the commands and the server answer: both halves of the IPv4 and of the IPv6 address
    space stay routed into the tunnel; every route that existed before is as it was; any other
    route in the table is one the helper itself installs, a half or the route to the server;
    and the session in use has the address, the prefix, the resolver and the MTU the interface
    was configured with.  A route from before that is more specific than a half still goes
    first for the addresses it covers; other programs are taken to leave the table alone. *)
Theorem helper_stays_sealed `{N : Noise, P : Primitives, B : Base64}
    tape interrupted stops stopping printed resolves polls profile fuel tunnel before dns0 w net w1 session server_ip keepalive activity
    schedule activities w2 :
  run_tunnel_start tape printed resolves profile fuel tunnel (mkNet before dns0 [] None [] []) w = (net, w1, Some (Ok (session, server_ip))) ->
  let parameters := ap_parameters session in
  let s := (mac_run tape interrupted stops stopping printed resolves polls profile parameters server_ip activities
              (mac_start net session keepalive activity schedule) w2).1 in
  (forall d, d ∈ halves -> n_table (k_net s) !! d = Some (Interface tunnel)) /\
  (forall d t, before !! d = Some t -> n_table (k_net s) !! d = Some t) /\
  (forall d, is_Some (n_table (k_net s) !! d) -> is_Some (before !! d) \/ ours server_ip d) /\
  exists current, k_sessions s !! k_current s = Some current /\ same_parameters (ap_parameters current) parameters = true.
Proof.
  intros H parameters s. assert (Hstart : sealed tunnel net /\ routes_ok before server_ip net).
  { by eapply run_tunnel_sealed. }
  assert (C0 : consistent parameters server_ip tunnel before (mac_start net session keepalive activity schedule)).
  { destruct Hstart. split; cbn; [done|done|lia|]. constructor; [|constructor]. unfold same_parameters. by rewrite !Z.eqb_refl. }
  pose proof (mac_run_consistent tape interrupted stops stopping printed resolves polls profile parameters server_ip tunnel before activities _ w2 C0) as C.
  fold s in C. destruct C as [C1 [C2 _ Cn] C3 C4]. split; [done|]. split; [done|]. split.
  { intros d Hd. destruct (before !! d) eqn:E; [by left|]. right. by apply Cn. }
  destruct (lookup_lt_is_Some_2 (k_sessions s) (k_current s) C3) as [current Hc]. exists current. split; [done|].
  rewrite Forall_forall in C4. apply C4, list_elem_of_In. by eapply list_elem_of_lookup_2.
Qed.

(** The outgoing thread is not started again: after it has ended, the loop goes on without it. *)
Lemma dead_worker_stays_dead `{N : Noise, P : Primitives, B : Base64}
    tape interrupted stops stopping printed resolves polls profile parameters server_ip activities s w :
  k_worker s = false ->
  k_worker (mac_run tape interrupted stops stopping printed resolves polls profile parameters server_ip activities s w).1 = false.
Proof.
  assert (Hp : forall f : Mac -> Mac, (forall s, k_worker (f s) = k_worker s) -> keeps (fun s => k_worker s = false) (modify f))
    by (intros f Hf; apply keeps_modify; intros x Hx; by rewrite Hf).
  assert (Hn : forall A (m : Effects.L Net A), keeps (fun s => k_worker s = false) (on_net m)).
  { intros A m x v Hx. unfold on_net. destruct (m (k_net x) v) as [[n v'] r]. by destruct x. }
  assert (Hs : forall A p (m : Effects.L AppleSession A), keeps (fun s => k_worker s = false) (on_session p m)).
  { intros A p m x v Hx. unfold on_session. destruct (k_sessions x !! p); [|done]. destruct (m _ _) as [[n v'] r]. by destruct x. }
  assert (Hstop : keeps (fun s => k_worker s = false) (stop_requested tape stops)) by (intros x v Hx; done).
  assert (Hcon : forall f ph, keeps (fun s => k_worker s = false) (connect tape resolves profile f ph)) by (intros f ph x v Hx; unfold connect, run_m; by destruct (connect_from_with_protocol _ _ _ _ _ _ _ v)).
  assert (Hws : forall a, keeps (fun s => k_worker s = false) (worker_step tape interrupted stopping a)) by (intros a x v Hx; unfold worker_step; by rewrite Hx).
  assert (Hm : keeps (fun s => k_worker s = false) (meanwhile tape interrupted stopping)).
  { assert (Hr : forall l, keeps (fun s => k_worker s = false) (worker_run tape interrupted stopping l))
      by (induction l as [|a l IH]; cbn [worker_run]; [apply keeps_ret|]; apply keeps_bind; [apply Hws|by intros []]).
    intros x v Hx. unfold meanwhile. destruct (k_schedule x); [done|]. apply Hr. by destruct x. }
  assert (Hwp : forall l, keeps (fun s => k_worker s = false) (write_packets tape interrupted stopping l)).
  { induction l as [|p l IH]; cbn [write_packets]; [apply keeps_ret|]. repeat first [apply IH|apply Hm|apply Hp; by intros []|keeps_step]. }
  assert (Hsl : forall n d, keeps (fun s => k_worker s = false) (sleep_until tape interrupted stops stopping n d)).
  { induction n as [|n IH]; intros d; cbn [sleep_until]; [by intros x v|]. repeat first [apply IH|apply Hm|apply Hstop|keeps_step]. }
  assert (Hre : forall n f b, keeps (fun s => k_worker s = false) (reconnect tape interrupted stops stopping printed resolves polls profile parameters server_ip n f b)).
  { induction n as [|n IH]; intros f b; cbn [reconnect]; [by intros x v|]. unfold reconnect_attempt, write_state, sleep_with_stop.
    repeat first [apply IH|apply Hm|apply Hstop|apply Hn|apply Hcon|apply Hsl|keeps_step]. }
  revert s w. induction activities as [|a activities IH]; intros s w Hw; [done|]. cbn [mac_run].
  assert (H1 : k_worker (mac_step tape interrupted stops stopping printed resolves polls profile parameters server_ip a s w).1.1 = false).
  { destruct a as [n fuel|a]; cbn [mac_step].
    - revert s w Hw. change (keeps (fun s => k_worker s = false) (mac_turn tape interrupted stops stopping printed resolves polls profile parameters server_ip n fuel)).
      unfold mac_turn, receive_turn, keepalive_turn, reconnect_session, write_state.
      repeat first [apply Hm|apply Hstop|apply Hs|apply Hwp|apply Hre|apply Hp; by intros []|keeps_step].
    - apply keeps_bind; [apply Hws|intros; apply keeps_ret|done]. }
  destruct (mac_step _ _ _ _ _ _ _ _ _ _ a s w) as [[s1 w1] [[[]|?|]|]]; try done. by apply IH.
Qed.

(** ** Witnesses *)

Module ToyHelper.

Import Toy ToyConfig ToyHandshake ToyMac.

(** One text answers every command. *)
Definition all_text : str := route_text ++ newline ++ ascii_bytes "inet 192.168.1.5 netmask 0xffffff00" ++ newline ++ order_text.

Definition home : ResolvedProfile := mkResolved [] [] [] (replicate 32 5) (replicate 32 6) Legacy.
Definition answers_name (_ : nat) : res IoError (list SocketAddr) := Ok [mkSocketAddr (V4 1) 51820].
Abbreviation started := (run_tunnel_start (tape false) (fun _ => all_text) answers_name home 21 utun toy_start ToyHandshake.before).

Lemma started_ok : exists net w1 session, started = (net, w1, Some (Ok (session, 1))) /\ tn_mtu (ap_parameters session) = 1280.
Proof.
  assert (H : match started.2 with Some (Ok (session, ip)) => (tn_mtu (ap_parameters session) =? 1280) && (ip =? 1) | _ => false end = true)
    by (vm_compute; reflexivity).
  destruct started as [[net w1] [[[session ip]|e|]|]]; try discriminate H. apply andb_true_iff in H as [H1%Z.eqb_eq H2%Z.eqb_eq]. subst ip.
  by exists net, w1, session.
Qed.

(** The device delivers a packet of an unknown family: the thread ends, and the loop
    reconnects. *)
Abbreviation activities := [Outgoing Reads; LoopTurn 3 21].

(** The thread has steps to take after every second operation of the loop. *)
Abbreviation schedule := [[]; [Reads]; []; [Sends]; []; [Reads; Sends]].

Lemma helper_stays_sealed_witness :
  exists net w1 session, started = (net, w1, Some (Ok (session, 1))) /\
    let s := (mac_run (tape false) (fun _ => false) (fun _ => false) (fun _ => false) (fun _ => all_text) answers_name 40 home (ap_parameters session) 1
                activities (mac_start net session 0 0 schedule) ToyHandshake.before).1 in
    (forall d, d ∈ halves -> n_table (k_net s) !! d = Some (Interface utun)) /\
    exists current, k_sessions s !! k_current s = Some current /\ same_parameters (ap_parameters current) (ap_parameters session) = true.
Proof.
  destruct started_ok as (net & w1 & session & E & _). exists net, w1, session. split; [exact E|].
  destruct (helper_stays_sealed (tape false) (fun _ => false) (fun _ => false) (fun _ => false) (fun _ => all_text) answers_name 40 home 21 utun
    toy_before toy_dns ToyHandshake.before net w1 session 1 0 0 schedule activities ToyHandshake.before E) as (H1 & _ & _ & H3). split; [exact H1|exact H3].
Defined.

(** What becomes of it: a second session is in use, and no thread sends. *)
Example reconnected_without_a_worker :
  match started.2 with
  | Some (Ok (session, ip)) =>
      let s := (mac_run (tape false) (fun _ => false) (fun _ => false) (fun _ => false) (fun _ => all_text) answers_name 40 home (ap_parameters session) ip
                  activities (mac_start started.1.1 session 0 0 schedule) ToyHandshake.before).1 in
      (k_current s =? 1)%nat && negb (k_worker s) && negb (k_reconnecting s)
  | _ => false
  end = true.
Proof. vm_compute. reflexivity. Qed.

End ToyHelper.
