(* ===== verification/GuiProfiles.v ===== *)
(** * The profiles of the desktop applications

    windows-gui/src-tauri/src/profiles.rs, and the same functions in
    linux-gui/src-tauri/src/main.rs, which differ in the name of the tunnel: the profiles a
    user has imported, one TOML file each, named by a UUID.

    The directory is a map from file names to texts, [None] when it does not exist.  TOML,
    the UUIDs and [to_lowercase] are parameters with their laws; the fresh UUIDs and the order
    in which a directory is read are arguments; the file operations are calls on the tape of
    WinNetwork.v, so that each may fail and the process may die before it.  The errors of this
    code are texts; here they are the error of the monad.

    The theorems: whatever operations fail or are cut short, every profile file stays a
    complete, valid profile under its own name, and an operation touches no other profile;
    the list shows them all, and each of them can be connected. *)

From S2P Require Import Prelude Protocol Text Replay Crypto ToyCrypto DataPlane Morph Speedy Config ClientWire Handshake Effects Flow WinNetwork AppPaths Profile.

(** The characters of a printed UUID. *)
Definition is_uuid_char (c : Z) : bool := ((48 <=? c) && (c <=? 57)) || ((97 <=? c) && (c <=? 102)) || (c =? 45).

Class Uuids := {
  Uuid : Type;
  uuid_parse : str -> option Uuid;
  uuid_show : Uuid -> str;
}.

(** A printed UUID is read back, is not empty and consists of hexadecimal digits and hyphens. *)
Class UuidLaws `{Uuids} := {
  uuid_roundtrip : forall u, uuid_parse (uuid_show u) = Some u;
  uuid_chars : forall u, forallb is_uuid_char (uuid_show u) = true;
  uuid_nonempty : forall u, uuid_show u <> [];
}.

Record StoredProfile := mkStored {
  sp_id : str;
  sp_name : str;
  sp_server : str;
  sp_server_public_key : str;
  sp_client_private_key : str;
  sp_tun_name : str;
  sp_protocol : ClientProtocol;
}.

Record ProfileSummary := mkSummary { ps_id : str; ps_name : str; ps_endpoint : str; ps_protocol : ClientProtocol }.

Definition summary (p : StoredProfile) : ProfileSummary := mkSummary (sp_id p) (sp_name p) (sp_server p) (sp_protocol p).

Definition client_config (p : StoredProfile) : res ClientError.t ClientConfig :=
  server ← ok_or (parse_socket (sp_server p)) ClientError.Platform;
  Ok (mkClientConfig server (sp_server_public_key p) (sp_client_private_key p) (sp_tun_name p) (sp_protocol p)).

Definition with_protocol (protocol : ClientProtocol) (p : StoredProfile) : StoredProfile :=
  mkStored (sp_id p) (sp_name p) (sp_server p) (sp_server_public_key p) (sp_client_private_key p) (sp_tun_name p) protocol.

(** The directory of profiles. *)
Abbreviation Dir := (option (gmap (list Z) (list Z))) (only parsing).
Definition files (d : Dir) : gmap (list Z) (list Z) := default ∅ d.

Definition TOML : str := ascii_bytes "toml".

(** [Path::extension] and [Path::with_extension] of a file of the directory *)
Definition name_extension (name : str) : option str := (rsplit_dot name).2.
Definition with_extension (name extension : str) : str := default [] (rsplit_dot name).1 ++ [46] ++ extension.

Section Store.
Context `{U : Uuids, X : ProfileLibs, B : Base64, P : Primitives}.
Context (lower : str -> str) (to_toml : StoredProfile -> option str) (from_toml : str -> option StoredProfile).
Context (config_dir : option str) (tun_name : str).
Context (replies : nat -> option reply).

Abbreviation L := (Effects.L Dir) (only parsing).
Notation "x <- m ; k" := (lbind m (fun x => k)) (at level 100, m at next level, right associativity).

Definition normalized_id (id : str) : res ClientError.t str := uuid_show <$> ok_or (uuid_parse id) ClientError.Platform.

Definition profiles_dir : res ClientError.t str := ok_or config_dir ClientError.Platform.

(** The name of the file in the directory. *)
Definition profile_path (id : str) : res ClientError.t str :=
  _ ← profiles_dir;
  id ← normalized_id id;
  Ok (id ++ [46] ++ TOML).

Definition validate (p : StoredProfile) : res ClientError.t ValidatedClientConfig :=
  config ← client_config p;
  map_err (fun _ => ClientError.Platform) (ClientConfig_validate config).

(** *** File operations *)

Definition read_to_string (name : str) : L str :=
  r <- call replies;
  d <- gets (fun d => files d !! name);
  match d, r_io r with
  | Some contents, None => lret contents
  | _, _ => lthrow ClientError.Platform
  end.

(** [OpenOptions::create_new] *)
Definition create_new (name : str) : L unit :=
  d <- gets (fun d => d);
  match d with
  | Some m => match m !! name with Some _ => _ <- call replies; lthrow ClientError.Platform | None => file_call replies (fmap (insert name [])) end
  | None => _ <- call replies; lthrow ClientError.Platform
  end.

(** [write_all]; one that fails may have written a part. *)
Definition write_all (name : str) (contents : str) : L unit :=
  r <- call replies;
  match r_io r with
  | None => modify (fmap (insert name contents))
  | Some kind => _ <- modify (fmap (insert name (take (Z.to_nat (r_status r)) contents))); lthrow (ClientError.Io (mkIoError kind None))
  end.

Definition rename (from to : str) : L unit :=
  contents <- gets (fun d => files d !! from);
  match contents with
  | Some contents => file_call replies (fmap (fun m => <[to := contents]> (delete from m)))
  | None => _ <- call replies; lthrow ClientError.Platform
  end.

Definition temporary_name (path : str) (fresh : Uuid) : str := with_extension path (ascii_bytes "tmp-" ++ uuid_show fresh).

(** The closure whose failure removes the temporary file. *)
Definition replace_file (temporary path contents : str) : L unit :=
  _ <- create_new temporary;
  _ <- write_all temporary contents;
  _ <- file_call replies (fun d => d);
  rename temporary path.

(** [write_atomic], and [write_private_atomic] of the Linux application *)
Definition write_atomic (path : str) (fresh : Uuid) (contents : str) : L unit :=
  let temporary := temporary_name path fresh in
  r <- catch (replace_file temporary path contents);
  match r with
  | Ok _ => lret tt
  | Err e => _ <- ignored (file_call replies (fmap (delete temporary))); lthrow e
  | Panic => lres Panic
  end.

(** *** Operations *)

(** What is read of the files named [entries]. *)
Fixpoint read_profiles (entries : list str) : L (list ProfileSummary) :=
  match entries with
  | [] => lret []
  | name :: entries =>
      _ <- file_call replies (fun d => d);
      if negb (bool_decide (name_extension name = Some TOML)) then read_profiles entries
      else
        contents <- read_to_string name;
        stored <- lres (ok_or (from_toml contents) ClientError.Platform);
        rest <- read_profiles entries;
        lret (summary stored :: rest)
  end.

(** [entries]: the files of the directory in the order they are read. *)
Definition list_profiles (entries : list str) : L (list ProfileSummary) :=
  _ <- lres profiles_dir;
  d <- gets (fun d => d);
  match d with
  | None => lret []
  | Some _ =>
      _ <- file_call replies (fun d => d);
      profiles <- read_profiles entries;
      lret (sort_by_key (fun profile => lower (ps_name profile)) profiles)
  end.

Definition create_dir_all : L unit := file_call replies (fun d => Some (files d)).

(** The profile a token is stored as; [fresh] is used when its id is no UUID. *)
Definition stored_of (fresh : Uuid) (p : PortableProfile) : StoredProfile :=
  let '(portable_id, name, endpoint, server_public_key, client_private_key) := into_parts p in
  mkStored (uuid_show (default fresh (uuid_parse portable_id))) (trim name) (trim endpoint) server_public_key client_private_key tun_name Legacy.

Definition import_profile (token password : str) (fresh fresh_temporary : Uuid) : L ProfileSummary :=
  decrypted <- lres (map_err (fun _ => ClientError.Platform) (decrypt_profile (trim token) (as_bytes password)));
  let profile := stored_of fresh decrypted in
  if bool_decide (sp_name profile = []) then lthrow ClientError.Platform
  else
    _ <- lres (validate profile);
    _ <- lres profiles_dir;
    _ <- create_dir_all;
    path <- lres (profile_path (sp_id profile));
    contents <- lres (ok_or (to_toml profile) ClientError.Platform);
    _ <- write_atomic path fresh_temporary contents;
    lret (summary profile).

Definition set_protocol (id : str) (protocol : ClientProtocol) (fresh_temporary : Uuid) : L ProfileSummary :=
  path <- lres (profile_path id);
  contents <- read_to_string path;
  stored <- lres (ok_or (from_toml contents) ClientError.Platform);
  let profile := with_protocol protocol stored in
  _ <- lres (validate profile);
  contents <- lres (ok_or (to_toml profile) ClientError.Platform);
  _ <- write_atomic path fresh_temporary contents;
  lret (summary profile).

(** A file that does not exist is as good as removed. *)
Definition remove (id : str) : L unit :=
  path <- lres (profile_path id);
  contents <- gets (fun d => files d !! path);
  match contents with
  | None => _ <- call replies; lret tt
  | Some _ => file_call replies (fmap (delete path))
  end.

(** What connecting reads: [load_toml] into a [ClientConfig], which [client_toml] stands for,
    and its validation.  [load_toml] also refuses files others may read, on Unix only, where
    this application does not run; the check does nothing on Windows. *)
Definition load_config (client_toml : str -> option ClientConfig) (id : str) : L ValidatedClientConfig :=
  id <- lres (normalized_id id);
  path <- lres (profile_path id);
  contents <- read_to_string path;
  config <- lres (ok_or (client_toml contents) ClientError.Platform);
  lres (map_err (fun _ => ClientError.Platform) (ClientConfig_validate config)).

End Store.

(** ** Names *)

Lemma split_once_app c a b : c ∉ a -> split_once c (a ++ [c] ++ b) = Some (a, b).
Proof.
  induction a as [|x a IH]; cbn; [by rewrite Z.eqb_refl|]. intros [Hx Ha]%not_elem_of_cons.
  destruct (Z.eqb_spec x c); [congruence|]. cbn in IH. by rewrite IH.
Qed.

Lemma rsplit_dot_app stem extension : stem <> [] -> 46 ∉ extension -> rsplit_dot (stem ++ [46] ++ extension) = (Some stem, Some extension).
Proof.
  intros Hs He. unfold rsplit_dot. assert (Hr : 46 ∉ rev extension) by (by rewrite list_elem_of_In, <- in_rev, <- list_elem_of_In).
  replace (rev (stem ++ [46] ++ extension)) with (rev extension ++ [46] ++ rev stem) by (rewrite !rev_app_distr; cbn; by rewrite <- app_assoc).
  rewrite split_once_app by done.
  rewrite bool_decide_eq_false_2; [by rewrite !rev_involutive|]. intros E. apply Hs. by rewrite <- (rev_involutive stem), E.
Qed.

Section Names.
Context `{U : Uuids, UL : !UuidLaws}.

Lemma uuid_no_dot u : 46 ∉ uuid_show u.
Proof. pose proof (uuid_chars u) as H. rewrite forallb_forall in H. rewrite list_elem_of_In. intros Hin. by specialize (H 46 Hin). Qed.

Definition file_of (u : Uuid) : str := uuid_show u ++ [46] ++ TOML.

Lemma file_of_extension u : rsplit_dot (file_of u) = (Some (uuid_show u), Some TOML).
Proof. apply rsplit_dot_app; [apply uuid_nonempty|]. by apply (bool_decide_unpack (46 ∉ TOML)); vm_compute. Qed.

Lemma temporary_extension u fresh : name_extension (temporary_name (file_of u) fresh) = Some (ascii_bytes "tmp-" ++ uuid_show fresh).
Proof.
  unfold name_extension, temporary_name, with_extension. rewrite file_of_extension. cbn [fst default].
  rewrite rsplit_dot_app; [done|apply uuid_nonempty|]. rewrite elem_of_app. intros [H|H]; [|by apply uuid_no_dot in H].
  revert H. by apply (bool_decide_unpack (46 ∉ ascii_bytes "tmp-")); vm_compute.
Qed.

Lemma temporary_not_toml u fresh : name_extension (temporary_name (file_of u) fresh) <> Some TOML.
Proof. rewrite temporary_extension. by intros [= E]. Qed.

Lemma file_of_inj u v : file_of u = file_of v -> u = v.
Proof.
  intros E. pose proof (file_of_extension u) as Hu. rewrite E, file_of_extension in Hu. injection Hu as Hs.
  pose proof (uuid_roundtrip u) as Hr. rewrite <- Hs, uuid_roundtrip in Hr. by injection Hr.
Qed.

End Names.

(** ** The store under failures *)

Section StoreTheorems.
Context `{U : Uuids, UL : !UuidLaws, X : ProfileLibs, B : Base64, P : Primitives}.
Context (lower : str -> str) (to_toml : StoredProfile -> option str) (from_toml : str -> option StoredProfile).
Context (config_dir : option str) (tun_name : str).

(** What TOML writes it reads. *)
Hypothesis toml_roundtrip : forall p c, to_toml p = Some c -> from_toml c = Some p.

Abbreviation L := (Effects.L Dir) (only parsing).
Notation "x <- m ; k" := (lbind m (fun x => k)) (at level 100, m at next level, right associativity).

(** A text that holds a usable profile of this id. *)
Definition usable (u : Uuid) (contents : str) (p : StoredProfile) : Prop :=
  from_toml contents = Some p /\ sp_id p = uuid_show u /\ sp_name p <> [] /\ is_ok (validate p) = true.

(** Every profile file is a usable profile under its own name. *)
Definition store_ok (d : Dir) : Prop := forall name contents,
  files d !! name = Some contents -> name_extension name = Some TOML -> exists u p, name = file_of u /\ usable u contents p.

(** How the directory may look after an operation on the profile [u] whose new text is [new]:
    other profiles are as before, and this one is as before or complete. *)
Definition touches (u : Uuid) (new : option str) (d d' : Dir) : Prop :=
  (forall name, name_extension name = Some TOML -> name <> file_of u -> files d' !! name = files d !! name) /\
  (files d' !! file_of u = files d !! file_of u \/ files d' !! file_of u = new).

Lemma touches_refl u new d : touches u new d d.
Proof. split; [done|by left]. Qed.

(** The directory agrees with [m] but for the file [t]. *)
Definition agrees (t : str) (m : gmap (list Z) (list Z)) (d : Dir) : Prop := exists m', d = Some m' /\ forall k, k <> t -> m' !! k = m !! k.

Lemma agrees_insert t m c d : agrees t m d -> agrees t m (insert t c <$> d).
Proof. intros (m' & -> & H). eexists. split; [done|]. intros k Hk. rewrite lookup_insert_ne by done. by apply H. Qed.

(** The target is as before or complete, and other files but [t] are as before. *)
Definition written (t path contents : str) (m : gmap (list Z) (list Z)) (d : Dir) : Prop := exists m', d = Some m' /\
  (forall k, k <> t -> k <> path -> m' !! k = m !! k) /\ (m' !! path = m !! path \/ m' !! path = Some contents).

Lemma agrees_written t path contents m d : t <> path -> agrees t m d -> written t path contents m d.
Proof. intros Hne (m' & -> & H). exists m'. split; [done|]. split; [intros; by apply H|left; by apply H]. Qed.

Section Writing.
Context (replies : nat -> option reply) (t path contents : str) (m : gmap (list Z) (list Z)).
Hypothesis Hne : t <> path.

Abbreviation complete := (fun (_ : unit) d => written t path contents m d /\ files d !! path = Some contents) (only parsing).
Abbreviation safe := (written t path contents m) (only parsing).

#[local] Hint Resolve agrees_written : core.

#[local] Ltac refused := eapply triple_bind; [apply triple_call|intros; apply triple_throw]; intros d H; decompose [and] H; auto.

Lemma triple_create_new : triple (agrees t m) (create_new replies t) (fun _ => agrees t m) safe.
Proof.
  unfold create_new. eapply triple_bind; [apply triple_gets|]. intros [m1|].
  - destruct (m1 !! t); [refused|].
    apply triple_file_call; [intros d [Hd _]; by apply agrees_insert|intros d [Hd _]; auto].
  - refused.
Qed.

Lemma triple_write_all : triple (agrees t m) (write_all replies t contents) (fun _ d => agrees t m d /\ files d !! t = Some contents) safe.
Proof.
  unfold write_all. eapply triple_bind; [apply triple_call; auto|]. intros r. destruct (r_io r).
  - eapply triple_bind; [apply (triple_modify _ _ (fun _ => agrees t m)); intros d; apply agrees_insert|]. intros []. apply triple_throw. auto.
  - apply triple_modify. intros d Hd. split; [by apply agrees_insert|]. destruct Hd as (m' & -> & _). cbn. by simplify_map_eq.
Qed.

Lemma triple_rename : triple (fun d => agrees t m d /\ files d !! t = Some contents) (rename replies t path) complete safe.
Proof.
  unfold rename. eapply triple_bind; [apply triple_gets|]. intros [c|].
  2:{ refused. }
  apply triple_file_call; [|intros d [[? _] _]; auto]. intros d (((m' & -> & Ha) & Ht) & Hc). cbn in *.
  assert (c = contents) as -> by congruence. split; [|by simplify_map_eq]. eexists. split; [done|]. split; [|right; by simplify_map_eq].
  intros k Hk Hp. rewrite lookup_insert_ne, lookup_delete_ne by done. by apply Ha.
Qed.

Lemma triple_replace_file : triple (agrees t m) (replace_file replies t path contents) complete safe.
Proof.
  unfold replace_file. eapply triple_bind; [apply triple_create_new|]. intros []. eapply triple_bind; [apply triple_write_all|]. intros [].
  apply triple_bind with (Q := fun _ d => agrees t m d /\ files d !! t = Some contents); [|intros []; apply triple_rename].
  apply triple_file_call; [auto|intros d [? _]; auto].
Qed.

End Writing.

Lemma triple_write_atomic replies u fresh contents m :
  triple (fun d => d = Some m) (write_atomic replies (file_of u) fresh contents)
    (fun _ d => touches u (Some contents) (Some m) d /\ files d !! file_of u = Some contents) (touches u (Some contents) (Some m)).
Proof.
  unfold write_atomic. set (t := temporary_name (file_of u) fresh). pose proof (temporary_not_toml u fresh) as Ht. fold t in Ht.
  assert (Hne : t <> file_of u). { intros E. apply Ht. rewrite E. unfold name_extension. by rewrite file_of_extension. }
  assert (Hw : forall d, written t (file_of u) contents m d -> touches u (Some contents) (Some m) d).
  { intros d (m' & -> & H1 & H2). split; [|done]. intros k Hk Hn. apply H1; [by intros ->|done]. }
  apply triple_weaken with (I' := agrees t m) (F' := written t (file_of u) contents m)
    (Q' := fun _ d => touches u (Some contents) (Some m) d /\ files d !! file_of u = Some contents); [|intros d ->; by exists m|done|exact Hw].
  eapply triple_bind; [apply triple_catch, (triple_replace_file replies t (file_of u) contents m Hne)|]. intros [[]|e|].
  - apply triple_ret. intros d [H1 H2]. auto.
  - eapply triple_bind.
    + apply triple_ignored, triple_file_call; [|done]. intros d (m' & -> & H1 & H2). exists (delete t m'). split; [done|].
      split; [intros k Hk Hp; rewrite lookup_delete_ne by done; by apply H1|]. by rewrite lookup_delete_ne.
    + intros []. apply triple_throw. auto.
  - apply triple_res; [done|auto].
Qed.

(** *** The operations *)

Inductive Op :=
| Import (token password : str) (fresh fresh_temporary : Uuid)
| SetProtocol (id : str) (protocol : ClientProtocol) (fresh_temporary : Uuid)
| Remove (id : str).

Definition run_op (replies : nat -> option reply) (op : Op) : L unit :=
  match op with
  | Import token password fresh temporary => _ <- import_profile to_toml config_dir tun_name replies token password fresh temporary; lret tt
  | SetProtocol id protocol temporary => _ <- set_protocol to_toml from_toml config_dir replies id protocol temporary; lret tt
  | Remove id => remove config_dir replies id
  end.

(** What an operation is to make of the file of [u]. *)
Definition meant (op : Op) (d : Dir) (u : Uuid) (new : option str) : Prop :=
  match op with
  | Import token password fresh _ => exists decrypted c,
      decrypt_profile (trim token) (as_bytes password) = Ok decrypted /\ new = Some c /\ usable u c (stored_of tun_name fresh decrypted)
  | SetProtocol id protocol _ => uuid_parse id = Some u /\ exists old p c,
      files d !! file_of u = Some old /\ from_toml old = Some p /\ new = Some c /\ usable u c (with_protocol protocol p)
  | Remove id => uuid_parse id = Some u /\ new = None
  end.

Definition same (d d' : Dir) : Prop := forall name, name_extension name = Some TOML -> files d' !! name = files d !! name.

Definition half_done (op : Op) (d d' : Dir) : Prop := same d d' \/ exists u new, meant op d u new /\ touches u new d d'.
Definition is_done (op : Op) (d d' : Dir) : Prop := exists u new, meant op d u new /\ touches u new d d' /\ files d' !! file_of u = new.

Lemma meant_usable op d u c : meant op d u (Some c) -> exists p, usable u c p.
Proof. destruct op; cbn; naive_solver. Qed.

Lemma half_done_ok op d d' : store_ok d -> half_done op d d' -> store_ok d'.
Proof.
  intros Hd [Hs|(u & new & Hm & Ho & Hu)] name c Hc Hx; [apply Hd; [by rewrite <- Hs|done]|].
  destruct (decide (name = file_of u)) as [->|Hn]; [|apply Hd; [by rewrite <- Ho|done]].
  destruct Hu as [Hu|Hu]; [apply Hd; [congruence|done]|]. rewrite <- Hu, Hc in Hm. destruct (meant_usable _ _ _ _ Hm) as [p Hp]. by exists u, p.
Qed.

Lemma is_done_half op d d' : is_done op d d' -> half_done op d d'.
Proof. intros (u & new & Hm & Ht & _). right. by exists u, new. Qed.

Lemma profile_path_inv id path : profile_path config_dir id = Ok path -> exists u, uuid_parse id = Some u /\ path = file_of u.
Proof.
  unfold profile_path, normalized_id. intros (? & _ & (s & Hs & H)%bind_ok)%bind_ok. injection H as <-.
  destruct (uuid_parse id) as [u|]; [|done]. injection Hs as <-. by exists u.
Qed.

Lemma validate_ok p v : validate p = Ok v -> is_ok (validate p) = true.
Proof. by intros ->. Qed.

(** Writing what is meant is all an operation does. *)
Lemma write_meant replies op d u fresh c m : meant op d u (Some c) -> same d (Some m) ->
  triple (fun d' => d' = Some m) (write_atomic replies (file_of u) fresh c) (fun _ => is_done op d) (half_done op d).
Proof.
  intros Hm Hs. assert (Hx : name_extension (file_of u) = Some TOML) by (unfold name_extension; by rewrite file_of_extension).
  assert (Ht : forall d', touches u (Some c) (Some m) d' -> touches u (Some c) d d').
  { intros d' [H1 H2]. split; [intros k Hk Hn; rewrite H1, Hs by done; done|]. by rewrite <- (Hs _ Hx). }
  eapply triple_weaken; [apply (triple_write_atomic replies u fresh c m)|done|..].
  - intros [] d' [H1 H2]. exists u, (Some c). auto.
  - intros d' H1. right. exists u, (Some c). auto.
Qed.


Lemma triple_lres {A C : Type} (I : Dir -> Prop) (r : res ClientError.t A) (k : A -> L C) Q F :
  (forall d, I d -> F d) -> (forall a, r = Ok a -> triple I (k a) Q F) -> triple I (lbind (lres r) k) Q F.
Proof.
  intros HF Hk. apply triple_bind with (Q := fun a d => I d /\ r = Ok a); [apply triple_res; auto|].
  intros a l w [Hl Ha]. by apply Hk.
Qed.

Lemma import_op replies token password fresh temporary d :
  triple (fun d' => d' = d) (run_op replies (Import token password fresh temporary))
    (fun _ => is_done (Import token password fresh temporary) d) (half_done (Import token password fresh temporary) d).
Proof.
  set (op := Import token password fresh temporary). assert (Hself : forall d', d' = d -> half_done op d d') by (intros d' ->; by left).
  unfold run_op, op at 1, import_profile. cbn beta iota.
  eapply triple_bind; [|intros s; apply triple_ret; intros l H; exact H].
  apply triple_lres; [done|]. intros decrypted Hd. set (p := stored_of tun_name fresh decrypted).
  case_bool_decide as Hname; [by apply triple_throw|]. apply triple_lres; [done|]. intros v Hv. apply triple_lres; [done|]. intros dir _.
  apply triple_bind with (Q := fun _ d' => d' = Some (files d)); [apply triple_file_call; [by intros d' ->|done]|]. intros [].
  assert (Hcreated : forall d', d' = Some (files d) -> half_done op d d') by (intros d' ->; left; by intros name).
  apply triple_lres; [done|]. intros path (u & Hu & ->)%profile_path_inv. apply triple_lres; [done|]. intros c Hc.
  assert (sp_id p = uuid_show u) as Hid.
  { subst p. unfold stored_of in *. destruct (into_parts decrypted) as [[[[i n] e] k] s]. cbn [sp_id] in *. rewrite uuid_roundtrip in Hu. congruence. }
  assert (Hm : meant op d u (Some c)).
  { exists decrypted, c. destruct (decrypt_profile _ _); [|done..]. injection Hd as ->. split; [done|]. split; [done|]. 
    split; [apply toml_roundtrip; by destruct (to_toml _); [injection Hc as ->|]|]. split; [done|]. split; [done|]. by apply (validate_ok _ v). }
  eapply triple_bind; [apply (write_meant replies op d u temporary c (files d) Hm); by intros name|]. intros []. by apply triple_ret.
Qed.

Lemma set_protocol_op replies id protocol temporary d : store_ok d ->
  triple (fun d' => d' = d) (run_op replies (SetProtocol id protocol temporary))
    (fun _ => is_done (SetProtocol id protocol temporary) d) (half_done (SetProtocol id protocol temporary) d).
Proof.
  intros Hok. set (op := SetProtocol id protocol temporary). assert (Hself : forall d', d' = d -> half_done op d d') by (intros d' ->; by left).
  unfold run_op, op at 1, set_protocol. cbn beta iota.
  eapply triple_bind; [|intros s; apply triple_ret; intros l H; exact H].
  apply triple_lres; [done|]. intros path (u & Hu & ->)%profile_path_inv.
  apply triple_bind with (Q := fun c d' => d' = d /\ files d !! file_of u = Some c).
  { unfold read_to_string. eapply triple_bind; [apply triple_call; done|]. intros r. eapply triple_bind; [apply triple_gets|].
    intros [c|]; [destruct (r_io r)|]; [apply triple_throw|apply triple_ret|apply triple_throw]; intros d' [-> E]; auto. }
  intros old. apply triple_pre. intros d' [-> Hold]. apply triple_lres; [done|]. intros p Hp. apply triple_lres; [done|]. intros v Hv.
  apply triple_lres; [done|]. intros c Hc. apply ok_or_inv in Hp, Hc.
  destruct (Hok _ _ Hold) as (u' & p' & Hu' & Hp' & Hid & Hname & _); [unfold name_extension; by rewrite file_of_extension|].
  apply file_of_inj in Hu' as <-. assert (p' = p) as -> by congruence.
  assert (Hm : meant op d u (Some c)).
  { split; [done|]. exists old, p, c. split; [done|]. split; [done|]. split; [done|]. split; [by apply toml_roundtrip|]. split; [done|]. split; [done|].
    by apply (validate_ok _ v). }
  destruct d as [m|]; [|done]. eapply triple_bind; [apply (write_meant replies op (Some m) u temporary c m Hm); by intros name|].
  intros []. by apply triple_ret.
Qed.

Lemma remove_op replies id d :
  triple (fun d' => d' = d) (run_op replies (Remove id)) (fun _ => is_done (Remove id) d) (half_done (Remove id) d).
Proof.
  assert (Hself : forall d', d' = d -> half_done (Remove id) d d') by (intros d' ->; by left).
  unfold run_op, remove. apply triple_lres; [done|]. intros path (u & Hu & ->)%profile_path_inv.
  eapply triple_bind; [apply triple_gets|]. intros [c|].
  - apply triple_file_call; [|intros d' [-> _]; by apply Hself]. intros d' [-> E]. exists u, None. split; [done|].
    destruct d as [m|]; [|done]. change (files (delete (file_of u) <$> Some m)) with (delete (file_of u) m).
    split; [split; [intros name _ Hn; by apply lookup_delete_ne|right]|]; apply lookup_delete_eq.
  - eapply triple_bind; [apply triple_call; intros d' [-> _]; by apply Hself|]. intros r. apply triple_ret. intros d' [-> E]. exists u, None. split; [done|].
    split; [apply touches_refl|done].
Qed.

Lemma op_outcome replies op d : store_ok d -> triple (fun d' => d' = d) (run_op replies op) (fun _ => is_done op d) (half_done op d).
Proof. intros Hd. destruct op; [apply import_op|by apply set_protocol_op|apply remove_op]. Qed.

(** The directories that any operations, failing or cut short anywhere, leave. *)
Inductive reachable : Dir -> Prop :=
| reach_none : reachable None
| reach_op d replies op w : reachable d -> reachable (run_op replies op d w).1.1.

Lemma op_ends replies op d w : store_ok d ->
  let '(d', _, r) := run_op replies op d w in half_done op d d' /\ (r = Some (Ok tt) -> is_done op d d').
Proof.
  intros Hd. pose proof (op_outcome replies op d Hd d w eq_refl) as H. destruct (run_op replies op d w) as [[d' w'] [[[]|e|]|]].
  - split; [by apply is_done_half|done].
  - by split.
  - by split.
  - by split.
Qed.

Lemma reachable_ok d : reachable d -> store_ok d.
Proof.
  induction 1 as [|d replies op w _ IH]; [by intros name c H|]. pose proof (op_ends replies op d w IH) as H.
  destruct (run_op replies op d w) as [[d' w'] r]. destruct H as [H _]. by apply (half_done_ok op d).
Qed.

(** ** Reading the store *)

Definition answers (replies : nat -> option reply) : Prop := forall n, exists r, replies n = Some r /\ r_io r = None.

Lemma file_call_answers (replies : nat -> option reply) (f : Dir -> Dir) d w : answers replies ->
  exists w', file_call replies f d w = (f d, w', Some (Ok tt)).
Proof. intros Ha. unfold file_call, lbind, call. destruct (Ha (pos w)) as (r & -> & ->). by eexists. Qed.

Lemma read_answers replies name d w c : answers replies -> files d !! name = Some c ->
  exists w', read_to_string replies name d w = (d, w', Some (Ok c)).
Proof. intros Ha Hc. unfold read_to_string, lbind, call, gets. destruct (Ha (pos w)) as (r & -> & ->). rewrite Hc. by eexists. Qed.

(** The profile a file shows as. *)
Definition shown (d : Dir) (name : str) : option ProfileSummary :=
  if bool_decide (name_extension name = Some TOML) then c ← files d !! name; summary <$> from_toml c else None.

Lemma read_profiles_shown replies entries d w : answers replies -> store_ok d -> Forall (fun name => name ∈ dom (files d)) entries ->
  exists w', read_profiles from_toml replies entries d w = (d, w', Some (Ok (omap (shown d) entries))).
Proof.
  intros Ha Hd He. revert w. induction He as [|name entries Hin _ IH]; intros w; [by eexists|]. cbn [read_profiles].
  unfold lbind at 1. destruct (file_call_answers replies (fun d => d) d w Ha) as [w1 ->]. cbn [omap list_omap]. unfold shown at 1.
  case_bool_decide as Hx; cbn [negb]; [|apply IH]. apply elem_of_dom in Hin as [c Hc]. rewrite Hc. cbn [mbind option_bind].
  destruct (Hd _ _ Hc Hx) as (u & p & -> & Hp & _). unfold lbind at 1. destruct (read_answers replies _ d w1 c Ha Hc) as [w2 ->].
  rewrite Hp. cbn. destruct (IH w2) as [w3 E]. unfold lbind. rewrite E. by eexists.
Qed.

(** The list shows every profile once, by name. *)
Lemma list_shown replies entries d w : answers replies -> store_ok d -> is_Some config_dir -> entries ≡ₚ elements (dom (files d)) ->
  exists w' l, list_profiles lower from_toml config_dir replies entries d w = (d, w', Some (Ok l)) /\
    l ≡ₚ omap (shown d) entries /\ increasing (fun profile => lower (ps_name profile)) l.
Proof.
  intros Ha Hd [dir Hdir] He. unfold list_profiles, profiles_dir. rewrite Hdir. unfold lbind at 1. cbn [lres ok_or].
  unfold lbind at 1, gets. destruct d as [m|].
  - unfold lbind at 1. destruct (file_call_answers replies (fun d => d) (Some m) w Ha) as [w1 ->].
    destruct (read_profiles_shown replies entries (Some m) w1 Ha Hd) as [w2 E]; [rewrite He, Forall_forall; intros name Hn%list_elem_of_In; by apply elem_of_elements|].
    unfold lbind. rewrite E. do 2 eexists. split; [done|]. split; [apply sort_perm|apply sort_increasing].
  - exists w, []. split; [done|]. cbn in He. apply Permutation_nil_r in He as ->. split; [done|constructor].
Qed.

(** The same text read as a client configuration: its other keys are ignored. *)
Context (client_toml : str -> option ClientConfig).
Hypothesis client_toml_fields : forall c p, from_toml c = Some p -> client_toml c = res_ok (client_config p).

Lemma config_loads replies d w u c p : answers replies -> is_Some config_dir -> files d !! file_of u = Some c -> usable u c p ->
  exists w' v, load_config config_dir replies client_toml (sp_id p) d w = (d, w', Some (Ok v)) /\ validate p = Ok v.
Proof.
  intros Ha [dir Hdir] Hc (Hp & Hid & _ & Hv). unfold load_config, profile_path, normalized_id, profiles_dir. rewrite Hid, Hdir.
  unfold lbind at 1. rewrite uuid_roundtrip. cbn [lres ok_or]. unfold lbind at 1. cbn [lres ok_or]. res_simpl. rewrite uuid_roundtrip. cbn. 
  unfold lbind at 1. destruct (read_answers replies _ d w c Ha Hc) as [w1 E]. unfold file_of in E. cbn in E. rewrite E.
  rewrite (client_toml_fields _ _ Hp). unfold validate in *. destruct (client_config p) as [config|e|]; [|done..]. cbn in *.
  destruct (ClientConfig_validate config) as [v|e|]; [|done..]. by exists w1, v.
Qed.

(** [C38] The profiles of a desktop application survive.  Whatever operations came before, and
    wherever they failed or the process died: every profile file holds a complete profile of
    its own id that has a name and validates.  An operation changes no other profile, and its
    own is as before or as meant, as meant if it reports success.  The list then shows every
    profile exactly once, ordered by name, and each one listed can be loaded to connect. *)
Theorem profiles_survive d : reachable d ->
  store_ok d /\
  (forall replies op w, let '(d', _, r) := run_op replies op d w in half_done op d d' /\ (r = Some (Ok tt) -> is_done op d d')) /\
  (forall replies entries w, answers replies -> is_Some config_dir -> entries ≡ₚ elements (dom (files d)) ->
     (exists w' l, list_profiles lower from_toml config_dir replies entries d w = (d, w', Some (Ok l)) /\
        l ≡ₚ omap (shown d) entries /\ increasing (fun profile => lower (ps_name profile)) l) /\
     (forall name s, name ∈ entries -> shown d name = Some s ->
        exists w' v, load_config config_dir replies client_toml (ps_id s) d w = (d, w', Some (Ok v)))).
Proof.
  intros Hr. pose proof (reachable_ok d Hr) as Hd. split; [done|]. split; [intros; by apply op_ends|].
  intros replies entries w Ha Hdir He. split; [by apply list_shown|]. intros name s Hin Hs. unfold shown in Hs.
  case_bool_decide as Hx; [|done]. destruct (files d !! name) as [c|] eqn:Hc; [|done]. cbn in Hs.
  destruct (Hd _ _ Hc Hx) as (u & p & -> & Hu). destruct Hu as (Hp & Hu). rewrite Hp in Hs. injection Hs as <-.
  destruct (config_loads replies d w u c p Ha Hdir Hc) as (w' & v & E & _); [by split|]. by exists w', v.
Qed.

End StoreTheorems.

(** ** A concrete store *)

Module ToyStore.

Import Toy ToyConfig.

#[export] Instance toy_uuids : Uuids := {
  Uuid := nat;
  uuid_parse s := match s with 97 :: s => if forallb (Z.eqb 97) s then Some (length s) else None | _ => None end;
  uuid_show n := replicate (S n) 97;
}.

#[export] Instance toy_uuid_laws : UuidLaws.
Proof.
  split; cbn [uuid_parse uuid_show toy_uuids].
  - intros u. cbn. rewrite (proj2 (forallb_forall _ _)); [by rewrite length_replicate|]. intros x Hx%list_elem_of_In%elem_of_replicate_inv. lia.
  - intros u. apply forallb_forall. intros x Hx%list_elem_of_In%elem_of_replicate_inv. by subst.
  - done.
Qed.

Definition protocol_code (p : ClientProtocol) : Z :=
  match p with Legacy => 0 | MorphQuiet => 1 | MorphBalanced => 2 | MorphParanoid => 3 | SpeedyProtocol => 4 end.
Definition code_protocol (z : Z) : ClientProtocol :=
  match z with 0 => Legacy | 1 => MorphQuiet | 2 => MorphBalanced | 3 => MorphParanoid | _ => SpeedyProtocol end.

(** Texts one after the other, each after its length. *)
Definition flat (l : list str) : str := flat_map (fun s => len s :: s) l.
Fixpoint unflat (n : nat) (s : str) : option (list str) :=
  match n, s with
  | O, _ => Some []
  | S n, l :: s => rest ← unflat n (drop (Z.to_nat l) s); Some (take (Z.to_nat l) s :: rest)
  | S _, [] => None
  end.

Lemma unflat_flat l : unflat (length l) (flat l) = Some l.
Proof.
  induction l as [|s l IH]; [done|]. change (flat (s :: l)) with (len s :: s ++ flat l). cbn [length unflat].
  unfold len. by rewrite Nat2Z.id, drop_app_length, take_app_length, IH.
Qed.

#[export] Instance toy_sealing : ProfileLibs := {
  pbkdf2_hmac password salt _ := take 32 (password ++ salt ++ replicate 32 0);
  aes_encrypt key nonce aad m := Some (m ++ replicate 16 0);
  aes_decrypt key nonce aad c := Some (take (length c - 16) c);
  json_to_vec p := Some (flat [[pp_version p]; pp_id p; pp_name p; pp_endpoint p; pp_server_public_key p; pp_client_private_key p]);
  json_from_slice b := match unflat 6 b with Some [[v]; i; name; e; s; k] => Some (mkProfile v i name e s k) | _ => None end;
}.

Definition toy_to (p : StoredProfile) : option str :=
  Some (flat [sp_id p; sp_name p; sp_server p; sp_server_public_key p; sp_client_private_key p; sp_tun_name p; [protocol_code (sp_protocol p)]]).
Definition toy_from (c : str) : option StoredProfile :=
  match unflat 7 c with
  | Some [i; name; server; public; private; tun; [protocol]] => Some (mkStored i name server public private tun (code_protocol protocol))
  | _ => None
  end.

Lemma toy_toml p c : toy_to p = Some c -> toy_from c = Some p.
Proof.
  intros [= <-]. unfold toy_from. change 7%nat with (length [sp_id p; sp_name p; sp_server p; sp_server_public_key p; sp_client_private_key p; sp_tun_name p; [protocol_code (sp_protocol p)]]).
  rewrite unflat_flat. destruct p as [? ? ? ? ? ? []]; done.
Qed.

Definition toy_client (c : str) : option ClientConfig := toy_from c ≫= fun p => res_ok (client_config p).

Lemma toy_client_fields c p : toy_from c = Some p -> toy_client c = res_ok (client_config p).
Proof. unfold toy_client. by intros ->. Qed.

Definition fine (_ : nat) : option reply := Some (mkReply 0 None 0 false).

Definition office : PortableProfile :=
  PortableProfile_new [97; 97] (ascii_bytes " Office ") (ascii_bytes "198.51.100.7:51820 ") (replicate 32 5) (replicate 32 6).
Definition token : str :=
  match encrypt_profile (Some (replicate 16 1)) (Some (replicate 12 2)) office (ascii_bytes "long password") with Ok token => token | _ => [] end.

Definition world0 : world := mkWorld 0 [] ClientWire.Legacy.
Definition tun : str := ascii_bytes "MouseVPN".
Definition toy_import : Op := Import token (ascii_bytes "long password") 7%nat 8%nat.
Abbreviation imported := (run_op toy_to toy_from (Some []) tun fine toy_import None world0).1.1.

Lemma profiles_survive_witness :
  exists d w' l, reachable toy_to toy_from (Some []) tun d /\
    list_profiles (fun s => s) toy_from (Some []) fine (elements (dom (files d))) d world0 = (d, w', Some (Ok l)) /\ length l = 1%nat.
Proof.
  pose proof (reach_op toy_to toy_from (Some []) tun None fine toy_import world0 (reach_none _ _ _ _)) as Hr.
  destruct (profiles_survive (fun s => s) toy_to toy_from (Some []) tun toy_toml toy_client toy_client_fields imported Hr) as (_ & _ & Hlist).
  destruct (Hlist fine (elements (dom (files imported))) world0) as [(w' & l & E & Hl & _) _].
  - intros n. eexists. split; reflexivity.
  - by eexists.
  - done.
  - exists imported, w', l. split; [exact Hr|]. split; [exact E|]. rewrite Hl. vm_compute. reflexivity.
Defined.

(** The name of a file is the id of the token; a repeated import under the same id replaces it,
    and one whose renaming fails leaves the profile alone. *)
Example import_outcomes :
  let d := imported in
  let failing n := match n with 3%nat => Some (mkReply 0 (Some ErrorKind.Other) 0 false) | _ => fine n end in
  elements (dom (files d)) = [[97; 97] ++ ascii_bytes ".toml"] /\
  (run_op toy_to toy_from (Some []) tun failing toy_import d world0).1.1 = d /\
  is_ok (default Panic (run_op toy_to toy_from (Some []) tun failing toy_import d world0).2) = false /\
  option_map sp_protocol (files (run_op toy_to toy_from (Some []) tun fine (SetProtocol [97; 97] SpeedyProtocol 9%nat) d world0).1.1 !! ([97; 97] ++ ascii_bytes ".toml") ≫= toy_from)
    = Some SpeedyProtocol.
Proof. vm_compute. done. Qed.

End ToyStore.
