(* ===== verification/WinGui.v ===== *)
(** * The window of the Windows application

    windows-gui/src-tauri/src/main.rs: connecting, disconnecting and the state shown, with
    the threads that read what the helpers print; helper_log.rs: the file those lines go to.

    The commands hold the lock on the helper from their first look at it to their end, so one
    runs at a time; [w_command] says how far it is.  The readers and the tray take only the
    lock on the snapshot, so they run between any two accesses a command makes to the snapshot
    and the generation.  A helper is a number; [w_exits] is how each ended, if it has.  Whether
    a call to the system succeeds is an argument of the event.  Tauri, the tray menu and the
    task scheduler are not modelled.

    The theorems: at most one helper runs; a window that shows "disconnected" has none, and
    neither that nor "disconnecting" is disturbed by what a helper still prints; a helper told
    to stop is shown as disconnected once a command has looked at it after its end, whatever
    its exit code, unless the tray reported an error, which hides the request.  What the log
    keeps when it is rotated, and when it cannot be. *)

From S2P Require Import Prelude Protocol Text Replay Crypto DataPlane Morph Speedy Config ClientWire Handshake Effects Flow WinNetwork AppPaths Profile GuiProfiles.

Inductive ViewState := Disconnected | Connecting | Connected | Disconnecting | Failed.

#[global] Instance ViewState_eq_dec : EqDecision ViewState.
Proof. solve_decision. Defined.

Record ConnectionSnapshot := mkSnapshot { cs_state : ViewState; cs_message : str; cs_profile_id : option str }.

Definition default_snapshot : ConnectionSnapshot := mkSnapshot Disconnected (text "VPN выключен") None.

Definition show_state (state : ViewState) (message : str) (s : ConnectionSnapshot) : ConnectionSnapshot :=
  mkSnapshot state message (cs_profile_id s).

(** ** What a helper prints *)

Definition recovering : str := text "Восстанавливаем VPN:".

(** One line; [log_path] is where the log is, if there is one. *)
Definition read_helper_line (log_path : option str) (line : str) (current : ConnectionSnapshot) : ConnectionSnapshot :=
  if bool_decide (line = text "MOUSEVPN_STATE=connected") then show_state Connected (text "Защищённое соединение установлено") current
  else if bool_decide (line = text "MOUSEVPN_STATE=reconnecting") then show_state Connecting (text "Связь потеряна, переподключаемся…") current
  else if bool_decide (line = text "MOUSEVPN_STATE=reconnected") then show_state Connected (text "Соединение восстановлено") current
  else if bool_decide (line = text "MOUSEVPN_STATE=restarting") || bool_decide (line = text "MOUSEVPN_STATE=failed_closed") then
    show_state Connecting
      (if starts_with recovering (cs_message current) then cs_message current else text "Перезапускаем сетевой туннель без утечки трафика…") current
  else match strip_prefix (text "MOUSEVPN_RUNTIME_WARNING=") line with
  | Some message => show_state Connecting (recovering ++ [32] ++ message) current
  | None =>
      match strip_prefix (text "MOUSEVPN_ERROR=") line with
      | Some message => show_state Failed (match log_path with None => message | Some path => message ++ [10] ++ text "Журнал: " ++ path end) current
      | None => current
      end
  end.

(** ** The application *)

(** A reader: it waits for a line, has found its generation current, or writes under the lock. *)
Inductive ReaderPc := Waiting | Checked (line : str) | Writing (line : str).
Record Reader := mkReader { rd_generation : Z; rd_log : option str; rd_pc : ReaderPc }.

(** A command between its accesses: what it has done so far. *)
Inductive CommandPc :=
| Idle
| Spawned (id : str) (helper : nat)
| Shown (id : str) (helper : nat)
| Stopping
| StopCounted
| Reaped (success : bool)
| ReapCounted (success : bool).

Record App := mkApp {
  w_child : option nat;
  w_snapshot : ConnectionSnapshot;
  w_writer : option nat;
  w_generation : Z;
  w_last_profile_id : option str;
  w_quitting : bool;
  w_readers : gmap nat Reader;
  w_exits : list (option bool);
  w_command : CommandPc;
}.

Definition app0 : App := mkApp None default_snapshot None 0 None false ∅ [] Idle.

Definition set_child c a := mkApp c (w_snapshot a) (w_writer a) (w_generation a) (w_last_profile_id a) (w_quitting a) (w_readers a) (w_exits a) (w_command a).
Definition set_snapshot s a := mkApp (w_child a) s (w_writer a) (w_generation a) (w_last_profile_id a) (w_quitting a) (w_readers a) (w_exits a) (w_command a).
Definition set_writer x a := mkApp (w_child a) (w_snapshot a) x (w_generation a) (w_last_profile_id a) (w_quitting a) (w_readers a) (w_exits a) (w_command a).
Definition set_last id a := mkApp (w_child a) (w_snapshot a) (w_writer a) (w_generation a) id (w_quitting a) (w_readers a) (w_exits a) (w_command a).
Definition set_quitting a := mkApp (w_child a) (w_snapshot a) (w_writer a) (w_generation a) (w_last_profile_id a) true (w_readers a) (w_exits a) (w_command a).
Definition set_reader i r a := mkApp (w_child a) (w_snapshot a) (w_writer a) (w_generation a) (w_last_profile_id a) (w_quitting a) (<[i := r]> (w_readers a)) (w_exits a) (w_command a).
Definition set_exits e a := mkApp (w_child a) (w_snapshot a) (w_writer a) (w_generation a) (w_last_profile_id a) (w_quitting a) (w_readers a) e (w_command a).
Definition go c a := mkApp (w_child a) (w_snapshot a) (w_writer a) (w_generation a) (w_last_profile_id a) (w_quitting a) (w_readers a) (w_exits a) c.

(** [generation.fetch_add(1)] *)
Definition count_up (a : App) : App :=
  mkApp (w_child a) (w_snapshot a) (w_writer a) (wrap64 (w_generation a + 1)) (w_last_profile_id a) (w_quitting a) (w_readers a) (w_exits a) (w_command a).

(** [Child::try_wait]: an error, or how the helper ended, if it has. *)
Definition try_wait (answers : bool) (helper : nat) (a : App) : option (option bool) :=
  if answers then Some (default None (w_exits a !! helper)) else None.

(** The events.  [EConnect] begins with the profile: its normalised id when it loads and
    validates; [answers], [spawns] and [written] say which calls succeed. *)
Inductive Event :=
| EConnect (profile : option str) (answers spawns : bool)
| EShow
| ELaunch (log : option str)
| EDisconnect (written : bool)
| EStatus (answers : bool)
| ECount
| ESettle
| ETrayError (message : str)
| EShutdown
| EExit (helper : nat) (success : bool)
| ELine (helper : nat) (line : str)
| ELock (helper : nat)
| EWrite (helper : nat).

(** [connect_profile_inner] until the helper is running *)
Definition connect_profile (profile : option str) (answers spawns : bool) (a : App) : App :=
  match profile with
  | None => a
  | Some id =>
      let start a := if spawns then go (Spawned id (length (w_exits a))) (set_exits (w_exits a ++ [None]) a) else a in
      match w_child a with
      | None => start a
      | Some child =>
          match try_wait answers child a with
          | None | Some None => a
          | Some (Some _) => start (set_child None a)
          end
      end
  end.

(** then: the snapshot; *)
Definition connect_show (id : str) (helper : nat) (a : App) : App :=
  go (Shown id helper) (set_snapshot (mkSnapshot Connecting (text "Настраиваем Wintun и маршруты…") (Some id)) a).

(** the generation and the reader. *)
Definition connect_launch (id : str) (helper : nat) (log : option str) (a : App) : App :=
  let a := count_up (set_last (Some id) a) in
  go Idle (set_child (Some helper) (set_reader helper (mkReader (w_generation a) log Waiting) a)).

(** [disconnect_inner] *)
Definition disconnect (written : bool) (a : App) : App :=
  match w_child a with
  | None => a
  | Some _ => if written then go Stopping a else a
  end.

(** [connection_status_inner] *)
Definition connection_status (answers : bool) (a : App) : App :=
  match w_child a with
  | None => a
  | Some child => match try_wait answers child a with Some (Some success) => go (Reaped success) a | _ => a end
  end.

Definition settle_disconnect (a : App) : App :=
  go Idle (set_snapshot (show_state Disconnecting (text "Восстанавливаем маршруты и DNS…") (w_snapshot a)) a).

Definition after_exit (success : bool) (s : ConnectionSnapshot) : ConnectionSnapshot :=
  if bool_decide (cs_state s = Disconnecting) || success then default_snapshot
  else if bool_decide (cs_state s = Failed) then s
  else show_state Failed (text "VPN-процесс неожиданно завершился") s.

Definition settle_status (success : bool) (a : App) : App := go Idle (set_snapshot (after_exit success (w_snapshot a)) a).

(** [shutdown_for_exit]: the helper is asked to stop and polled a hundred times, then killed;
    either way it has ended, and how is not asked any more. *)
Definition shutdown_for_exit (a : App) : App :=
  let a := set_quitting a in
  match w_child a with
  | None => a
  | Some child =>
      set_child None (set_exits (match w_exits a !! child with Some (Some _) => w_exits a | _ => <[child := Some false]> (w_exits a) end) a)
  end.

(** [polls] says at which poll the helper has ended. *)
Fixpoint poll_exit (n : nat) (polls : nat -> bool) : bool :=
  match n with O => false | S n => polls n || poll_exit n polls end.

(** Whether the network is repaired on exit: only when the helper had to be killed. *)
Definition repairs_on_exit (polls : nat -> bool) (a : App) : bool :=
  match w_child a with None => false | Some _ => negb (poll_exit 100 polls) end.

(** [read_helper_status], by the accesses to the generation and the snapshot. *)
Definition reader_line (i : nat) (r : Reader) (line : str) (a : App) : App :=
  if w_generation a =? rd_generation r then set_reader i (mkReader (rd_generation r) (rd_log r) (Checked line)) a else a.

Definition reader_lock (i : nat) (r : Reader) (line : str) (a : App) : App :=
  if w_generation a =? rd_generation r then set_writer (Some i) (set_reader i (mkReader (rd_generation r) (rd_log r) (Writing line)) a)
  else set_reader i (mkReader (rd_generation r) (rd_log r) Waiting) a.

Definition reader_write (i : nat) (r : Reader) (line : str) (a : App) : App :=
  set_writer None (set_reader i (mkReader (rd_generation r) (rd_log r) Waiting) (set_snapshot (read_helper_line (rd_log r) line (w_snapshot a)) a)).

(** [None]: the event cannot happen, because a lock is held or the thread is elsewhere. *)
Definition step (a : App) (e : Event) : option App :=
  match e, w_command a, w_writer a with
  | EConnect profile answers spawns, Idle, _ => Some (connect_profile profile answers spawns a)
  | EShow, Spawned id helper, None => Some (connect_show id helper a)
  | ELaunch log, Shown id helper, _ => Some (connect_launch id helper log a)
  | EDisconnect written, Idle, _ => Some (disconnect written a)
  | EStatus answers, Idle, _ => Some (connection_status answers a)
  | ECount, Stopping, _ => Some (go StopCounted (count_up a))
  | ECount, Reaped success, _ => Some (go (ReapCounted success) (set_child None (count_up a)))
  | ESettle, StopCounted, None => Some (settle_disconnect a)
  | ESettle, ReapCounted success, None => Some (settle_status success a)
  | ETrayError message, _, None => Some (set_snapshot (show_state Failed message (w_snapshot a)) a)
  | EShutdown, Idle, _ => Some (shutdown_for_exit a)
  | EExit helper success, _, _ =>
      match w_exits a !! helper with Some None => Some (set_exits (<[helper := Some success]> (w_exits a)) a) | _ => None end
  | ELine helper line, _, _ =>
      match w_readers a !! helper with Some r => match rd_pc r with Waiting => Some (reader_line helper r line a) | _ => None end | None => None end
  | ELock helper, _, None =>
      match w_readers a !! helper with Some r => match rd_pc r with Checked line => Some (reader_lock helper r line a) | _ => None end | None => None end
  | EWrite helper, _, _ =>
      match w_readers a !! helper with Some r => match rd_pc r with Writing line => Some (reader_write helper r line a) | _ => None end | None => None end
  | _, _, _ => None
  end.

(** States after [n] events. *)
Inductive run : nat -> App -> Prop :=
| run_start : run 0 app0
| run_step n a e a' : run n a -> step a e = Some a' -> run (S n) a'.

Fixpoint steps (a : App) (es : list Event) : option App :=
  match es with [] => Some a | e :: es => a' ← step a e; steps a' es end.

(** ** Commands on profiles, the tray and the command line *)

Definition is_active (s : ViewState) : bool := match s with Connecting | Connected | Disconnecting => true | _ => false end.

Section Commands.
Context `{U : Uuids, X : ProfileLibs, B : Base64, P : Primitives}.
Context (lower : str -> str) (to_toml : StoredProfile -> option str) (from_toml : str -> option StoredProfile) (config_dir : option str).
Context (replies : nat -> option reply) (snapshot : ConnectionSnapshot).

Notation "x <- m ; k" := (lbind m (fun x => k)) (at level 100, m at next level, right associativity).

Definition set_profile_protocol (id : str) (protocol : ClientProtocol) (fresh_temporary : Uuid) : Effects.L (option (gmap (list Z) (list Z))) ProfileSummary :=
  id <- lres (normalized_id id);
  if bool_decide (cs_profile_id snapshot = Some id) && is_active (cs_state snapshot) then lthrow ClientError.Platform
  else set_protocol to_toml from_toml config_dir replies id protocol fresh_temporary.

Definition delete_profile (id : str) : Effects.L (option (gmap (list Z) (list Z))) unit :=
  id <- lres (normalized_id id);
  if bool_decide (cs_profile_id snapshot = Some id) && negb (bool_decide (cs_state snapshot = Disconnected)) then lthrow ClientError.Platform
  else GuiProfiles.remove config_dir replies id.

(** What the tray does next; [exists_] is whether the remembered profile has a file. *)
Inductive TrayAction := TrayNothing | TrayDisconnect | TrayConnect (id : str).

Definition tray_toggle (remembered : option str) (exists_ : str -> bool) (entries : list str) : Effects.L (option (gmap (list Z) (list Z))) TrayAction :=
  if is_active (cs_state snapshot) then lret (if bool_decide (cs_state snapshot = Disconnecting) then TrayNothing else TrayDisconnect)
  else
    let first :=
      profiles <- list_profiles lower from_toml config_dir replies entries;
      match profiles with
      | profile :: _ => lret (TrayConnect (ps_id profile))
      | [] => lthrow ClientError.Platform
      end in
    match remembered with
    | Some id => path <- lres (profile_path config_dir id); if exists_ path : bool then lret (TrayConnect id) else first
    | None => first
    end.

End Commands.

Definition autostart_command (executable : str) : str := [34] ++ executable ++ [34] ++ text " --minimized".

Definition should_reveal_existing_instance (arguments : list str) : bool :=
  negb (existsb (fun argument => bool_decide (argument = text "--minimized")) arguments).

(** ** The log (helper_log.rs) *)

Definition MAX_LOG_BYTES : Z := 2 * 1024 * 1024.

Record LogDisk := mkLogDisk { log_current : option bytes; log_previous : option bytes }.

(** [hl_file] is whether the file is open. *)
Record HelperLog := mkLog { hl_file : bool; hl_written : Z }.

(** Which of the calls to the file system succeed. *)
Record LogAnswers := mkAnswers { removes : bool; renames : bool; opens : bool; measures : bool; wrote : nat }.

Definition rotate (x : LogAnswers) (d : LogDisk) : LogDisk * bool :=
  if (match log_previous d with Some _ => removes x | None => true end) then
    match log_current d with
    | Some c => if renames x then (mkLogDisk None (Some c), true) else (mkLogDisk (Some c) None, false)
    | None => (mkLogDisk None None, false)
    end
  else (d, false).

Definition append_to (x : LogAnswers) (d : LogDisk) : LogDisk * bool :=
  if opens x then (mkLogDisk (Some (default [] (log_current d))) (log_previous d), true) else (d, false).

Definition log_size (d : LogDisk) : Z := len (default [] (log_current d)).

Definition log_open (x : LogAnswers) (d : LogDisk) : LogDisk * option HelperLog :=
  let '(d, ready) := if measures x && (MAX_LOG_BYTES <=? log_size d) then rotate x d else (d, true) in
  if ready : bool then
    let '(d, opened) := append_to x d in
    (d, if opened : bool then Some (mkLog true (if measures x then log_size d else 0)) else None)
  else (d, None).

Definition roll (x : LogAnswers) (d : LogDisk) : LogDisk * HelperLog :=
  let '(d, rotated) := rotate x d in
  if rotated : bool then let '(d, opened) := append_to x d in (d, mkLog opened 0) else (d, mkLog false 0).

(** [wrote] is how much of the line reaches the file. *)
Definition log_write (x : LogAnswers) (timestamp : Z) (message : str) (d : LogDisk) (l : HelperLog) : LogDisk * HelperLog :=
  let '(d, l) := if MAX_LOG_BYTES <=? hl_written l then roll x d else (d, l) in
  let line := as_bytes (digits 20 timestamp ++ [32] ++ message ++ [10]) in
  let d := if hl_file l then mkLogDisk (Some (default [] (log_current d) ++ take (wrote x) line)) (log_previous d) else d in
  (d, mkLog (hl_file l) (sat_add64 (hl_written l) (len line))).

(** ** The invariant *)

Definition resting (state : ViewState) : Prop := state = Disconnected \/ state = Disconnecting.

Definition all_stale (a : App) : Prop := forall i r, w_readers a !! i = Some r -> rd_generation r < w_generation a.

(** The helper being started; whether the generation has moved on and the snapshot not yet. *)
Definition starting (c : CommandPc) : option nat := match c with Spawned _ i | Shown _ i => Some i | _ => None end.
Definition counted (c : CommandPc) : bool := match c with StopCounted | ReapCounted _ => true | _ => false end.

Record inv (n : nat) (a : App) : Prop := mkInv {
  inv_generation : 0 <= w_generation a <= Z.of_nat n;
  inv_readers : forall i r, w_readers a !! i = Some r -> rd_generation r <= w_generation a;
  inv_writer : forall i r line, w_readers a !! i = Some r -> rd_pc r = Writing line -> w_writer a = Some i;
  inv_resting : resting (cs_state (w_snapshot a)) -> all_stale a /\ w_writer a = None;
  inv_counted : counted (w_command a) = true -> all_stale a;
  inv_off : cs_state (w_snapshot a) = Disconnected -> w_child a = None;
  inv_one : forall i, w_exits a !! i = Some None -> w_child a = Some i \/ starting (w_command a) = Some i;
  inv_starting : is_Some (starting (w_command a)) -> w_child a = None;
  inv_shown : forall id i, w_command a = Shown id i -> ~ resting (cs_state (w_snapshot a));
  inv_reaped : forall success, w_command a = Reaped success -> exists i, w_child a = Some i /\ w_exits a !! i = Some (Some success);
  inv_reap_counted : forall success, w_command a = ReapCounted success -> w_child a = None;
}.

Lemma inv_start : inv 0 app0.
Proof. by constructor. Qed.

(** What a line makes of the snapshot is not one of the resting states, unless it leaves it. *)
Lemma line_not_resting log line s : read_helper_line log line s = s \/ ~ resting (cs_state (read_helper_line log line s)).
Proof.
  unfold read_helper_line. repeat (case_match; [right; cbn; by intros [|]|]). all: try (right; cbn; by intros [|]). by left.
Qed.

Lemma count_up_generation n a : 0 <= w_generation a <= Z.of_nat n -> Z.of_nat (S n) < 2 ^ 64 -> w_generation (count_up a) = w_generation a + 1.
Proof. intros H1 H2. cbn. unfold wrap64. apply Z.mod_small. lia. Qed.

Section Steps.
Context (n : nat) (a : App).
Hypothesis Hn : Z.of_nat (S n) < 2 ^ 64.
Hypothesis I : inv n a.

Lemma weaken_generation : 0 <= w_generation a <= Z.of_nat (S n).
Proof. pose proof (inv_generation _ _ I). lia. Qed.

(** The parts of the invariant that a step does not touch hold; so do those about a command
    that is not under way. *)
Ltac gui_cases :=
  pose proof weaken_generation; destruct I as [Ig Ir Iw Irest Ic Ioff Io Ist Ish Ire Irc]; constructor; unfold all_stale in *; cbn in *;
  try match goal with Hc : w_command _ = _ |- _ => rewrite Hc in *; cbn in * end;
  try assumption; try (intros; congruence); try (intros [? ?]; congruence); try (intros [?|?]; congruence); try (intros ? ? ? [?|?]; congruence); auto.

Lemma inv_same : inv (S n) a.
Proof. gui_cases. Qed.

(** Starting a helper where none runs. *)
Lemma step_start id : w_command a = Idle -> (forall i, w_exits a !! i <> Some None) ->
  inv (S n) (go (Spawned id (length (w_exits a))) (set_exits (w_exits a ++ [None]) (set_child None a))).
Proof.
  intros Hc Hnone. gui_cases.
  intros i Hi. right. apply lookup_app_Some in Hi as [Hi|[Hge Hi]]; [by apply Hnone in Hi|].
  apply list_lookup_singleton_Some in Hi as [Hi _]. f_equal. lia.
Qed.

Lemma set_child_same : w_child a = None -> set_child None a = a.
Proof. destruct a. cbn. by intros ->. Qed.

Lemma step_connect profile answers spawns : w_command a = Idle -> inv (S n) (connect_profile profile answers spawns a).
Proof.
  intros Hc. unfold connect_profile. destruct profile as [id|]; [|apply inv_same].
  pose proof (inv_one _ _ I) as Hone. rewrite Hc in Hone. cbn in Hone.
  destruct (w_child a) as [child|] eqn:Hchild.
  - unfold try_wait. destruct answers; [|apply inv_same]. destruct (w_exits a !! child) as [[success|]|] eqn:He; cbn; [|apply inv_same..].
    assert (Hnone : forall i, w_exits a !! i <> Some None) by (intros i Hi; destruct (Hone i Hi); congruence).
    destruct spawns; [by apply step_start|]. gui_cases. 
  - destruct spawns; [|apply inv_same]. rewrite <- (set_child_same Hchild) at 3. apply step_start; [done|].
    intros i Hi. destruct (Hone i Hi); congruence.
Qed.

Lemma step_show id i : w_command a = Spawned id i -> inv (S n) (connect_show id i a).
Proof. intros Hc. gui_cases. Qed.

Lemma step_launch id i log : w_command a = Shown id i -> inv (S n) (connect_launch id i log a).
Proof.
  intros Hc. pose proof (count_up_generation n a (inv_generation _ _ I) Hn) as Hup. cbn in Hup. gui_cases; try rewrite Hup.
  - lia.
  - intros j r [[<- <-]|[Hj Hr]]%lookup_insert_Some; cbn; [lia|]. apply Ir in Hr. lia.
  - intros j r line [[<- <-]|[Hj Hr]]%lookup_insert_Some; [done|by apply Iw].
  - intros Hrest. by destruct (Ish id i).
  - intros Hoff. destruct (Ish id i); [done|]. by left.
  - intros j Hj. destruct (Io j Hj) as [H0|H0]; [|by left]. by rewrite Ist in H0.
Qed.

Lemma step_disconnect written : w_command a = Idle -> inv (S n) (disconnect written a).
Proof. intros Hc. unfold disconnect. destruct (w_child a); [|apply inv_same]. destruct written; [|apply inv_same]. gui_cases. Qed.

Lemma step_status answers : w_command a = Idle -> inv (S n) (connection_status answers a).
Proof.
  intros Hc. unfold connection_status. destruct (w_child a) as [child|] eqn:Hchild; [|apply inv_same]. unfold try_wait. destruct answers; [|apply inv_same].
  destruct (w_exits a !! child) as [[success|]|] eqn:He; cbn; [|apply inv_same..]. gui_cases. intros s [= <-]. by exists child.
Qed.

Lemma step_count_stop : w_command a = Stopping -> inv (S n) (go StopCounted (count_up a)).
Proof.
  intros Hc. pose proof (count_up_generation n a (inv_generation _ _ I) Hn) as Hup. cbn in Hup. gui_cases; try rewrite Hup.
  - lia.
  - intros j r Hr%Ir. lia.
  - intros [H0 H1]%Irest. split; [|done]. intros j r Hr%Ir. lia.
  - intros _ j r Hr%Ir. lia.
Qed.

Lemma step_count_reap success : w_command a = Reaped success -> inv (S n) (go (ReapCounted success) (set_child None (count_up a))).
Proof.
  intros Hc. pose proof (count_up_generation n a (inv_generation _ _ I) Hn) as Hup. cbn in Hup. gui_cases; try rewrite Hup.
  - lia.
  - intros j r Hr%Ir. lia.
  - intros [H0 H1]%Irest. split; [|done]. intros j r Hr%Ir. lia.
  - intros _ j r Hr%Ir. lia.
  - intros j Hj. destruct (Ire success eq_refl) as (i & Hi & He). destruct (Io j Hj); congruence.
Qed.

Lemma step_settle_disconnect : w_command a = StopCounted -> w_writer a = None -> inv (S n) (settle_disconnect a).
Proof. intros Hc Hw. gui_cases. intros _. split; [by apply Ic|done]. Qed.

Lemma step_settle_status success : w_command a = ReapCounted success -> w_writer a = None -> inv (S n) (settle_status success a).
Proof.
  intros Hc Hw. unfold settle_status. generalize (after_exit success (w_snapshot a)). intros s. gui_cases.
  - intros _. split; [by apply Ic|done].
  - intros _. by apply (Irc success).
Qed.

Lemma step_tray message : w_writer a = None -> inv (S n) (set_snapshot (show_state Failed message (w_snapshot a)) a).
Proof. intros Hw. gui_cases. all: intros ? ? ? [?|?]; congruence. Qed.

Lemma step_shutdown : w_command a = Idle -> inv (S n) (shutdown_for_exit a).
Proof.
  intros Hc. unfold shutdown_for_exit. cbn. destruct (w_child a) as [child|] eqn:Hchild; [|gui_cases].
  gui_cases. intros i Hi. exfalso. destruct (w_exits a !! child) as [[s|]|] eqn:E.
  - destruct (Io i Hi); congruence.
  - apply list_lookup_insert_Some in Hi as [(-> & [=] & _)|[Hne Hi]]. destruct (Io i Hi); congruence.
  - apply list_lookup_insert_Some in Hi as [(-> & [=] & _)|[Hne Hi]]. destruct (Io i Hi); congruence.
Qed.

Lemma step_exit i success : w_exits a !! i = Some None -> inv (S n) (set_exits (<[i := Some success]> (w_exits a)) a).
Proof.
  intros He. gui_cases.
  - intros j [(-> & [=] & _)|[Hne Hj]]%list_lookup_insert_Some. by apply Io.
  - intros s Hs. destruct (Ire s Hs) as (j & Hj & Hx). exists j. split; [done|]. rewrite list_lookup_insert_ne; congruence.
Qed.

(** A reader keeps its generation. *)
Lemma reader_generations (Q : Z -> Prop) i r log pc : w_readers a !! i = Some r -> (forall j r0, w_readers a !! j = Some r0 -> Q (rd_generation r0)) ->
  forall j r0, <[i := mkReader (rd_generation r) log pc]> (w_readers a) !! j = Some r0 -> Q (rd_generation r0).
Proof. intros Hr HQ j r0 [[<- <-]|[_ Hj]]%lookup_insert_Some; [exact (HQ i r Hr)|exact (HQ j r0 Hj)]. Qed.

Lemma step_line i r line : w_readers a !! i = Some r -> rd_pc r = Waiting -> inv (S n) (reader_line i r line a).
Proof.
  intros Hr Hp. unfold reader_line. destruct (Z.eqb_spec (w_generation a) (rd_generation r)) as [E|]; [|apply inv_same]. gui_cases.
  - exact (reader_generations (fun g => g <= w_generation a) i r _ _ Hr Ir).
  - intros j r0 line0 [[<- <-]|[_ Hj]]%lookup_insert_Some; [done|by apply Iw].
  - intros H0. exfalso. destruct (Irest H0) as [Hs _]. specialize (Hs i r Hr). lia.
  - intros H0. exfalso. specialize (Ic H0 i r Hr). lia.
Qed.

Lemma step_lock i r line : w_readers a !! i = Some r -> rd_pc r = Checked line -> w_writer a = None -> inv (S n) (reader_lock i r line a).
Proof.
  intros Hr Hp Hw. unfold reader_lock. destruct (Z.eqb_spec (w_generation a) (rd_generation r)) as [E|]; gui_cases.
  - exact (reader_generations (fun g => g <= w_generation a) i r _ _ Hr Ir).
  - intros j r0 line0 [[<- <-]|[_ Hj]]%lookup_insert_Some; [done|]. intros H1. specialize (Iw j r0 line0 Hj H1). congruence.
  - intros H0. exfalso. destruct (Irest H0) as [Hs _]. specialize (Hs i r Hr). lia.
  - intros H0. exfalso. specialize (Ic H0 i r Hr). lia.
  - exact (reader_generations (fun g => g <= w_generation a) i r _ _ Hr Ir).
  - intros j r0 line0 [[<- <-]|[_ Hj]]%lookup_insert_Some; [done|by apply Iw].
  - intros H0. split; [|done]. exact (reader_generations (fun g => g < w_generation a) i r _ _ Hr (proj1 (Irest H0))).
  - intros H0. exact (reader_generations (fun g => g < w_generation a) i r _ _ Hr (Ic H0)).
Qed.

Lemma step_write i r line : w_readers a !! i = Some r -> rd_pc r = Writing line -> inv (S n) (reader_write i r line a).
Proof.
  intros Hr Hp. unfold reader_write. pose proof (inv_writer _ _ I _ _ _ Hr Hp) as Hw.
  assert (Hrest : ~ resting (cs_state (w_snapshot a))) by (intros H0; destruct (inv_resting _ _ I H0); congruence).
  assert (Hline : ~ resting (cs_state (read_helper_line (rd_log r) line (w_snapshot a)))) by (destruct (line_not_resting (rd_log r) line (w_snapshot a)) as [->|]; done).
  revert Hline. generalize (read_helper_line (rd_log r) line (w_snapshot a)). intros s Hline. gui_cases.
  - exact (reader_generations (fun g => g <= w_generation a) i r _ _ Hr Ir).
  - intros j r0 line0 [[<- <-]|[Hne Hj]]%lookup_insert_Some; [done|]. intros H1. specialize (Iw j r0 line0 Hj H1). congruence.
  - intros H0. exact (reader_generations (fun g => g < w_generation a) i r _ _ Hr (Ic H0)).
  - intros H0. destruct Hline. by left.
Qed.

Lemma step_inv e a' : step a e = Some a' -> inv (S n) a'.
Proof.
  unfold step. destruct e; destruct (w_command a) eqn:Hc; try discriminate; try (destruct (w_writer a) eqn:Hw; try discriminate).
  all: try (intros [= <-]; eauto using step_connect, step_show, step_launch, step_disconnect, step_status, step_count_stop, step_count_reap,
         step_settle_disconnect, step_settle_status, step_tray, step_shutdown).
  all: case_match eqn:E; try discriminate; try (case_match eqn:E2; try discriminate).
  all: intros [= <-]; eauto using step_exit, step_line, step_lock, step_write.
Qed.

End Steps.

Lemma run_inv n a : Z.of_nat n < 2 ^ 64 -> run n a -> inv n a.
Proof.
  intros Hn H. induction H as [|n a e a' H IH Hs]; [apply inv_start|]. apply (step_inv n a Hn (IH ltac:(lia)) e a' Hs).
Qed.

(** ** The window *)

Lemma steps_run n a es a' : run n a -> steps a es = Some a' -> run (n + length es) a'.
Proof.
  revert n a. induction es as [|e es IH]; cbn; intros n a Hr; [intros [= <-]; by rewrite Nat.add_0_r|].
  destruct (step a e) as [a1|] eqn:E; [|done]. cbn. intros H. rewrite Nat.add_succ_r, <- Nat.add_succ_l. apply (IH (S n) a1); [|done].
  by eapply run_step.
Qed.

Definition reader_event (e : Event) : bool := match e with ELine _ _ | ELock _ | EWrite _ => true | _ => false end.

Lemma resting_undisturbed n a e a' : inv n a -> resting (cs_state (w_snapshot a)) -> reader_event e = true -> step a e = Some a' ->
  w_snapshot a' = w_snapshot a.
Proof.
  intros I Hrest He Hs. destruct (inv_resting _ _ I Hrest) as [_ Hw]. unfold step in Hs. destruct e; try discriminate He.
  - repeat case_match; simplify_eq; unfold reader_line; by case_match.
  - repeat case_match; simplify_eq; unfold reader_lock; by case_match.
  - destruct (w_readers a !! helper) as [r|] eqn:Hr; [|by destruct (w_command a)]. destruct (rd_pc r) eqn:Hp; try (by destruct (w_command a)).
    pose proof (inv_writer _ _ I _ _ _ Hr Hp). congruence.
Qed.

(** ** Telling a helper to stop *)

(** Anything but a new connection, the end of the application and an error of the tray. *)
Definition quiet (e : Event) : bool := match e with EConnect _ _ _ | EShutdown | ETrayError _ => false | _ => true end.

(** The helper has ended and is being dismissed; or it is gone. *)
Definition dismissed (a : App) : Prop :=
  (exists success, w_command a = Reaped success) /\ cs_state (w_snapshot a) = Disconnecting \/
  (exists success, w_command a = ReapCounted success) /\ cs_state (w_snapshot a) = Disconnecting /\ w_child a = None \/
  w_command a = Idle /\ w_snapshot a = default_snapshot /\ w_child a = None.

(** A helper that was told to stop, from the command on. *)
Definition told (i : nat) (a : App) : Prop :=
  w_child a = Some i /\ (w_command a = Stopping \/ w_command a = StopCounted \/ w_command a = Idle /\ cs_state (w_snapshot a) = Disconnecting) \/
  dismissed a.

(** What the readers and the helpers themselves do leaves the command and the child alone. *)
Definition thread_event (e : Event) : bool := match e with ELine _ _ | ELock _ | EWrite _ | EExit _ _ => true | _ => false end.

Lemma thread_step n a e a' : inv n a -> thread_event e = true -> step a e = Some a' ->
  w_command a' = w_command a /\ w_child a' = w_child a /\ (resting (cs_state (w_snapshot a)) -> w_snapshot a' = w_snapshot a).
Proof.
  intros I He Hs. split; [|split].
  - unfold step in Hs. destruct e; try discriminate He; repeat case_match; simplify_eq; unfold reader_line, reader_lock, reader_write; repeat case_match; done.
  - unfold step in Hs. destruct e; try discriminate He; repeat case_match; simplify_eq; unfold reader_line, reader_lock, reader_write; repeat case_match; done.
  - intros Hrest. destruct (reader_event e) eqn:E; [by apply (resting_undisturbed n a e)|].
    destruct e; try discriminate. unfold step in Hs. repeat case_match; simplify_eq; done.
Qed.

Lemma dismissed_step n a e a' : inv n a -> dismissed a -> quiet e = true -> step a e = Some a' -> dismissed a'.
Proof.
  intros I D Hq Hs. assert (Hrest : resting (cs_state (w_snapshot a))).
  { destruct D as [(_ & H)|[(_ & H & _)|(_ & H & _)]]; [by right|by right|left; by rewrite H]. }
  destruct (thread_event e) eqn:Et.
  { destruct (thread_step n a e a' I Et Hs) as (H1 & H2 & H3). unfold dismissed. by rewrite H1, H2, (H3 Hrest). }
  pose proof (proj2 (inv_resting _ _ I Hrest)) as Hw. unfold step in Hs. rewrite Hw in Hs.
  destruct D as [[[success D] H]|[([success D] & H & Hc)|(D & H & Hc)]]; rewrite D in Hs; destruct e; try discriminate; injection Hs as <-.
  - right; left. split; [by exists success|done].
  - right; right. cbn. unfold after_exit. by rewrite H.
  - right; right. unfold disconnect. by rewrite Hc.
  - right; right. unfold connection_status. by rewrite Hc.
Qed.

Lemma told_step n a e a' i : inv n a -> told i a -> quiet e = true -> step a e = Some a' -> told i a'.
Proof.
  intros I [[Hi T]|D] Hq Hs; [|right; by apply (dismissed_step n a e)]. destruct (thread_event e) eqn:Et.
  { destruct (thread_step n a e a' I Et Hs) as (H1 & H2 & H3). left. rewrite H1, H2. split; [done|].
    destruct T as [T|[T|[T H]]]; [by left|by right; left|]. right; right. split; [done|]. rewrite H3; [done|by right]. }
  unfold step in Hs. destruct T as [T|[T|[T H]]]; rewrite T in Hs; destruct e; try discriminate.
  - injection Hs as <-. left. split; [done|]. right. by left.
  - destruct (w_writer a); [done|]. injection Hs as <-. left. split; [done|]. right. by right.
  - injection Hs as <-. left. unfold disconnect. rewrite Hi. destruct written; cbn; split; try done; [by left|by right; right].
  - injection Hs as <-. unfold connection_status. rewrite Hi. destruct (try_wait answers i a) as [[success|]|]; [|left; by auto..].
    right; left. split; [by exists success|done].
Qed.

(** Looking at a helper that was told to stop and has ended. *)
Lemma status_dismisses i success a a' : told i a -> w_exits a !! i = Some (Some success) -> step a (EStatus true) = Some a' -> dismissed a'.
Proof.
  intros T He Hs. unfold step in Hs. destruct (w_command a) eqn:Hc; try discriminate. injection Hs as <-. unfold connection_status, try_wait.
  destruct T as [[Hi [?|[?|[_ H]]]]|[[[? ?] _]|[([? ?] & _)|D]]]; try congruence.
  - rewrite Hi, He. left. split; [by exists success|done].
  - destruct D as (? & ? & Hn). rewrite Hn. right; by right.
Qed.

(** A property quiet events keep. *)
Lemma steps_keep (Q : App -> Prop) n a es a' :
  (forall n a e a', inv n a -> Q a -> quiet e = true -> step a e = Some a' -> Q a') ->
  Z.of_nat (n + length es) < 2 ^ 64 -> run n a -> Forall (fun e => quiet e = true) es -> steps a es = Some a' -> Q a -> Q a'.
Proof.
  intros Hk. revert n a. induction es as [|e es IH]; cbn; intros n a Hn Hr Hq; [by intros [= <-]|].
  apply List.Forall_cons_iff in Hq as [He Hq]. destruct (step a e) as [a1|] eqn:E; [|done]. cbn. intros Hs HQ.
  apply (IH (S n) a1); try done; [lia|by eapply run_step|]. apply (Hk n a e a1); [apply run_inv; [lia|done]|done..].
Qed.

(** [C39] The window and the helpers.  In every state the application can reach (in fewer than
    2^64 events), under any interleaving of the commands, the tray and the threads that read
    what helpers print: at most one helper runs.  When the window shows "disconnected", there
    is none, but for one that is just being started.  What helpers still print changes neither
    "disconnected" nor "disconnecting".  A helper that was told to stop is shown as
    "disconnected" when a command that looked at it after its end has finished, whatever its
    exit code and whatever other commands, readers and helpers did since the request and while
    the command ran, as long as there was no new connection, no end of the application and no
    error of the tray; and from "disconnecting", such a command can always finish. *)
Theorem window_and_helpers n a : Z.of_nat n < 2 ^ 64 -> run n a ->
  (forall i j, w_exits a !! i = Some None -> w_exits a !! j = Some None -> i = j) /\
  (cs_state (w_snapshot a) = Disconnected -> w_child a = None /\ forall i, w_exits a !! i = Some None -> starting (w_command a) = Some i) /\
  (resting (cs_state (w_snapshot a)) -> forall e a', reader_event e = true -> step a e = Some a' -> w_snapshot a' = w_snapshot a) /\
  (forall i es es' success a1 a', Z.of_nat (n + length es + S (length es')) < 2 ^ 64 -> Forall (fun e => quiet e = true) (es ++ es') ->
     w_command a = Stopping -> w_child a = Some i ->
     steps a es = Some a1 -> w_exits a1 !! i = Some (Some success) -> steps a1 (EStatus true :: es') = Some a' ->
     w_command a' = Idle -> w_snapshot a' = default_snapshot /\ w_child a' = None) /\
  (forall i success, cs_state (w_snapshot a) = Disconnecting -> w_command a = Idle -> w_child a = Some i -> w_exits a !! i = Some (Some success) ->
     exists a', steps a [EStatus true; ECount; ESettle] = Some a' /\ w_command a' = Idle /\ w_snapshot a' = default_snapshot /\ w_child a' = None).
Proof.
  intros Hn Hr. pose proof (run_inv n a Hn Hr) as I. split; [|split; [|split; [|split]]].
  - intros i j Hi Hj. pose proof (inv_starting _ _ I) as Hst. destruct (inv_one _ _ I i Hi) as [H1|H1], (inv_one _ _ I j Hj) as [H2|H2]; try congruence.
    + rewrite Hst in H1 by (by rewrite H2). done.
    + rewrite Hst in H2 by (by rewrite H1). done.
  - intros Hoff. pose proof (inv_off _ _ I Hoff) as Hc. split; [done|]. intros i Hi. destruct (inv_one _ _ I i Hi); [congruence|done].
  - intros Hrest e a'. by apply (resting_undisturbed n).
  - intros i es es' success a1 a' Hlen [Hq Hq']%List.Forall_app Hc Hi Hs He Hs' Hidle.
    assert (T : told i a1) by (apply (steps_keep (told i) n a es); try done; [by intros ? ? ? ? ?; eapply told_step|lia|left; by auto]).
    assert (Hr1 : run (n + length es) a1) by (by eapply steps_run).
    assert (Ha2 : exists a2, step a1 (EStatus true) = Some a2 /\ steps a2 es' = Some a' /\ dismissed a2).
    { cbn [steps] in Hs'. destruct (step a1 (EStatus true)) as [a2|] eqn:E; [|done]. exists a2. split; [done|]. split; [done|].
      by eapply status_dismisses. }
    destruct Ha2 as (a2 & E2 & Hs2 & D). assert (D' : dismissed a').
    { apply (steps_keep dismissed (S (n + length es)) a2 es'); try done; [by intros ? ? ? ? ?; eapply dismissed_step|lia|by eapply run_step]. }
    destruct D' as [[[? D'] _]|[([? D'] & _)|(_ & ? & ?)]]; [congruence..|done].
  - intros i success Hs Hc Hi He. assert (Hw : w_writer a = None) by (apply (inv_resting _ _ I); by right).
    assert (E1 : step a (EStatus true) = Some (go (Reaped success) a)) by (cbn; unfold connection_status, try_wait; by rewrite Hc, Hi, He).
    assert (E2 : step (go (Reaped success) a) ECount = Some (go (ReapCounted success) (set_child None (count_up (go (Reaped success) a))))) by done.
    cbn [steps]. rewrite E1. cbn [mbind option_bind]. rewrite E2. cbn. rewrite Hw. eexists. split; [done|]. cbn. split; [done|]. split; [|done].
    unfold after_exit. by rewrite Hs.
Qed.

(** ** The log *)

(** The counter is ahead of an open file, and the file has at most a line more than the bound. *)
Definition log_ok (longest : Z) (d : LogDisk) (l : HelperLog) : Prop :=
  0 <= hl_written l /\ (hl_file l = true -> log_size d <= hl_written l) /\ log_size d <= MAX_LOG_BYTES + longest.

Lemma rotate_size x d : log_size (rotate x d).1 <= log_size d /\ ((rotate x d).2 = true -> log_size (rotate x d).1 = 0).
Proof.
  unfold rotate, log_size, len. destruct d as [[c|] [p|]]; cbn; repeat (case_match; cbn); lia.
Qed.

Lemma append_size x d : log_size (append_to x d).1 = log_size d.
Proof. unfold append_to, log_size. by destruct (opens x), d as [[]]. Qed.

(** The log stays within its bound and one line, whatever the file system answers: a rotation
    that fails closes the file. *)
Theorem log_is_bounded longest x timestamp message d l :
  log_ok longest d l -> len (as_bytes (digits 20 timestamp ++ [32] ++ message ++ [10])) <= longest -> 0 <= longest < 2 ^ 62 ->
  let '(d', l') := log_write x timestamp message d l in log_ok longest d' l'.
Proof.
  intros (Hw & Hf & Hs) Hline Hlong. unfold log_write. set (line := as_bytes _) in *.
  assert (Hmax : MAX_LOG_BYTES = 2097152) by done.
  assert (Hroll : let '(d1, l1) := if MAX_LOG_BYTES <=? hl_written l then roll x d else (d, l) in log_ok longest d1 l1 /\ hl_written l1 < MAX_LOG_BYTES).
  { destruct (Z.leb_spec MAX_LOG_BYTES (hl_written l)) as [Hge|Hlt]; [|by split].
    unfold roll. pose proof (rotate_size x d) as [H1 H2]. destruct (rotate x d) as [d1 []]; cbn [fst snd] in *.
    - pose proof (append_size x d1) as Ha. destruct (append_to x d1) as [d2 o]. cbn [fst] in Ha. unfold log_ok. cbn.
      specialize (H2 eq_refl). split; [split; [lia|split; [intros _; lia|lia]]|lia].
    - unfold log_ok. cbn. split; [split; [lia|split; [done|lia]]|lia]. }
  destruct (if MAX_LOG_BYTES <=? hl_written l then roll x d else (d, l)) as [d1 l1]. destruct Hroll as [(H1 & H2 & H3) H4].
  assert (0 <= len line) by (unfold len; lia). assert (Hsat : sat_add64 (hl_written l1) (len line) = hl_written l1 + len line).
  { unfold sat_add64, u64_max. rewrite Hmax in H4. apply Z.min_l. lia. }
  unfold log_ok. cbn [hl_written hl_file]. rewrite Hsat. split; [lia|]. destruct (hl_file l1) eqn:E; [|split; [done|lia]].
  specialize (H2 eq_refl).
  assert (Hsize : log_size (mkLogDisk (Some (default [] (log_current d1) ++ take (wrote x) line)) (log_previous d1)) = log_size d1 + len (take (wrote x) line))
    by (unfold log_size; cbn [log_current]; apply len_app).
  rewrite Hsize. assert (len (take (wrote x) line) <= len line) by (unfold len; rewrite length_take; lia). split; [intros _|]; lia.
Qed.

(** A rotation that fails stops the recording: the line that asked for it and every line until
    the counter has gone round again are lost. *)
Theorem failed_rotation_stops_recording x timestamp message d l :
  MAX_LOG_BYTES <= hl_written l -> (rotate x d).2 = false ->
  hl_file (log_write x timestamp message d l).2 = false /\
  (forall x' timestamp' message' d' l', hl_file l' = false -> hl_written l' < MAX_LOG_BYTES ->
     (log_write x' timestamp' message' d' l').1 = d' /\ hl_file (log_write x' timestamp' message' d' l').2 = false).
Proof.
  intros Hw Hr. split.
  - unfold log_write. rewrite (proj2 (Z.leb_le _ _)) by done. unfold roll. destruct (rotate x d) as [d1 r]. cbn in Hr. by subst r.
  - intros x' t' m' d' l' Hf Hlt. unfold log_write. rewrite (proj2 (Z.leb_gt _ _)) by done. by rewrite Hf.
Qed.

(** ** Concrete runs *)

Module ToyWindow.

Definition connected_line : str := text "MOUSEVPN_STATE=connected".
Definition home : str := text "home".

(** Connect, connected, disconnect; the helper still prints a line, then ends with an error. *)
Definition session : list Event :=
  [EConnect (Some home) true true; EShow; ELaunch None; ELine 0 connected_line; ELock 0; EWrite 0;
   EDisconnect true; ECount; ELine 0 (text "MOUSEVPN_STATE=reconnecting"); ESettle; EExit 0 false].

Definition look : list Event := [EStatus true; ELine 0 connected_line; ECount; ELine 0 connected_line; ESettle].

Definition after (es : list Event) : App := default app0 (steps app0 es).

Lemma session_runs : run 11 (after session).
Proof. apply (steps_run 0 app0 session); [constructor|]. vm_compute. reflexivity. Qed.

Lemma told_runs : run 7 (after (take 7 session)).
Proof. apply (steps_run 0 app0 (take 7 session)); [constructor|]. vm_compute. reflexivity. Qed.

(** From the request on: the rest of the session, then a look, while a reader prints on. *)
Lemma window_and_helpers_witness :
  Z.of_nat 7 < 2 ^ 64 /\ run 7 (after (take 7 session)) /\
  w_snapshot (after (session ++ look)) = default_snapshot /\ w_child (after (session ++ look)) = None.
Proof.
  assert (Hn : Z.of_nat 7 < 2 ^ 64) by lia. split; [exact Hn|]. split; [exact told_runs|].
  destruct (window_and_helpers 7 (after (take 7 session)) Hn told_runs) as (_ & _ & _ & Hstop & _).
  apply (Hstop 0%nat (drop 7 session) (drop 1 look) false (after session)); [vm_compute; reflexivity|repeat constructor|vm_compute; reflexivity..].
Defined.

(** An error of the tray in between: the exit of the helper is then taken for a failure. *)
Example tray_error_hides_the_request :
  cs_state (w_snapshot (after (take 10 session ++ [ETrayError (text "error"); EExit 0 false] ++ look))) = Failed /\
  is_Some (steps app0 (take 10 session ++ [ETrayError (text "error"); EExit 0 false] ++ look)).
Proof. vm_compute. split; [reflexivity|]. by eexists. Qed.

(** The window shows what was said in between. *)
Example session_shown :
  cs_state (w_snapshot (after (take 6 session))) = Connected /\ cs_state (w_snapshot (after session)) = Disconnecting.
Proof. vm_compute. done. Qed.

(** The old reader between the snapshot and the generation of a new connection: a helper ends
    unnoticed, the user connects another profile, and a late line of the old helper is shown
    for the new one, which has printed nothing. *)
Definition late_line : list Event :=
  [EConnect (Some home) true true; EShow; ELaunch None; EExit 0 false; EConnect (Some (text "office")) true true; EShow;
   ELine 0 connected_line; ELock 0; EWrite 0; ELaunch None].

Example late_line_is_shown :
  let a := after late_line in
  w_snapshot a = mkSnapshot Connected (text "Защищённое соединение установлено") (Some (text "office")) /\ w_child a = Some 1%nat /\
  is_Some (steps app0 late_line).
Proof. vm_compute. split; [reflexivity|]. split; [reflexivity|]. by eexists. Qed.

(** A helper ends unnoticed and the next one cannot be started: the window goes on showing
    "connected", and neither asking for the state nor disconnecting changes it. *)
Definition dead_end : list Event :=
  [EConnect (Some home) true true; EShow; ELaunch None; ELine 0 connected_line; ELock 0; EWrite 0; EExit 0 false; EConnect (Some home) true false].

Example connected_without_a_helper :
  let a := after dead_end in
  cs_state (w_snapshot a) = Connected /\ w_child a = None /\ steps a [EStatus true; EDisconnect true] = Some a /\ is_Some (steps app0 dead_end).
Proof. vm_compute. split; [reflexivity|]. split; [reflexivity|]. split; [reflexivity|]. by eexists. Qed.

End ToyWindow.
