(* ===== verification/WinRuntime.v ===== *)
(** * The Windows tunnel and its restarts

    windows-client/src/runtime.rs: the start of a full tunnel, its restarts under the network
    policy of WinNetwork.v, and their end; the helper of windows-gui/src-tauri/src/main.rs
    that runs it.

    The state is the machine of WinNetwork.v with the Wintun adapter: how many of its sessions
    are open and its MTU.  The driver refuses a session while another one is open; the state
    also counts such refusals and keeps what each look at the flag [stopping] found.  The calls are the tape of
    WinNetwork.v, the handshakes that of Handshake.v, and [stopping] is the flag at each
    position of the tape.  What a packet loop does to the policy is the list of its calls, as
    in WinNetwork.v; the packets are the subject of FullTunnel.v.  Loading wintun.dll and the
    thread that connects beside it are one call.

    The theorems: however the tunnel ends or is killed, the journal tells the next start what
    to undo; a session is only asked for when none is open, and none is left open; once the
    policy is installed only a request to stop ends the tunnel, at the first look that finds
    it; waiting for one ends in time. *)

From S2P Require Import Prelude Protocol Replay Crypto ToyCrypto DataPlane Morph Speedy Config ClientWire Handshake Effects Flow WinNetwork.

Definition RESTART_BACKOFF_MIN : Z := 1000.
Definition RESTART_BACKOFF_MAX : Z := 16000.
Definition STABLE_RUNTIME : Z := 60000.

Definition double_backoff (backoff : Z) : Z := Z.min (backoff * 2) RESTART_BACKOFF_MAX.

(** [rt_clashes] counts the sessions asked for while one was open, [rt_flags] is what each
    look at the flag found. *)
Record Runtime := mkRuntime { rt_machine : Machine; rt_sessions : nat; rt_mtu : option Z; rt_clashes : nat; rt_flags : list bool }.

Definition set_machine (m : Machine) (s : Runtime) : Runtime := mkRuntime m (rt_sessions s) (rt_mtu s) (rt_clashes s) (rt_flags s).
Definition set_sessions (n : nat) (s : Runtime) : Runtime := mkRuntime (rt_machine s) n (rt_mtu s) (rt_clashes s) (rt_flags s).
Definition put_mtu (mtu : Z) (s : Runtime) : Runtime := mkRuntime (rt_machine s) (rt_sessions s) (Some mtu) (rt_clashes s) (rt_flags s).
Definition note_clash (s : Runtime) : Runtime := mkRuntime (rt_machine s) (rt_sessions s) (rt_mtu s) (S (rt_clashes s)) (rt_flags s).
Definition note_flag (b : bool) (s : Runtime) : Runtime := mkRuntime (rt_machine s) (rt_sessions s) (rt_mtu s) (rt_clashes s) (rt_flags s ++ [b]).

(** The calls of WinNetwork.v within the runtime. *)
Definition on_machine {A} (m : Effects.L Machine A) : Effects.L Runtime A := fun s w =>
  let '(s', w', r) := m (rt_machine s) w in (set_machine s' s, w', r).

Section Runtime.
Context `{N : Noise, P : Primitives}.
Context (replies : nat -> option reply) (index_of : Z -> Z) (stopping : nat -> bool) (actions : nat -> list action).

Abbreviation L := (Effects.L Runtime) (only parsing).
Notation "x <- m ; k" := (lbind m (fun x => k)) (at level 100, m at next level, right associativity).

Definition exhausted {A} : L A := fun s w => (s, w, None).

(** [stopping.load], [Instant::now] and a call that may fail *)
Definition load_stopping : L bool := fun s w =>
  (note_flag (stopping (pos w)) s, mkWorld (S (pos w)) (sent w) (wire w), Some (Ok (stopping (pos w)))).
Definition instant_now : L Z := r <- call replies; lret (r_now r).
Definition os_call (effect : Runtime -> Runtime) : L unit := file_call replies effect.

(** *** Waiting *)

Fixpoint wait_until (fuel : nat) (deadline : Z) : L bool :=
  match fuel with
  | O => exhausted
  | S fuel =>
      stopped <- load_stopping;
      if stopped : bool then lret true
      else
        now <- instant_now;
        if sat_sub deadline now =? 0 then lret false
        else _ <- call replies; wait_until fuel deadline
  end.

Definition wait_for_stop (fuel : nat) (duration : Z) : L bool :=
  now <- instant_now;
  wait_until fuel (now + duration).

(** *** The adapter *)

Definition set_mtu (mtu : Z) : L unit := os_call (put_mtu mtu).

(** The driver refuses a session while another one is open. *)
Definition start_session : L unit :=
  open <- gets rt_sessions;
  match open with
  | O => os_call (set_sessions 1)
  | S _ => _ <- modify note_clash; _ <- call replies; lthrow ClientError.Platform
  end.

(** [Session::shutdown] and the last handle going out of scope *)
Definition drop_session : L unit := modify (fun s => set_sessions (pred (rt_sessions s)) s).

(** A failure after the session was opened drops it. *)
Definition or_drop_session {A} (m : L A) : L A :=
  r <- catch m;
  match r with
  | Ok a => lret a
  | Err e => _ <- drop_session; lthrow e
  | Panic => lres Panic
  end.

(** *** Restarting *)

Context (connect : L (TunnelDataPlane * SessionParameters.t)).

(** The closure [attempt]: the handshake, the socket's timeout and clone, the adapter. *)
Definition attempt : L (TunnelDataPlane * SessionParameters.t) :=
  connected <- connect;
  _ <- os_call (fun s => s);
  _ <- os_call (fun s => s);
  _ <- set_mtu (SessionParameters.mtu (snd connected));
  _ <- start_session;
  lret connected.

(** The inner loop; [None] when the tunnel is to stop. *)
Fixpoint restart (fuel : nat) (backoff : Z) (guard : NetworkGuard) (parameters : SessionParameters.t)
    : L (option (TunnelDataPlane * SessionParameters.t * NetworkGuard)) :=
  match fuel with
  | O => exhausted
  | S fuel =>
      stopped <- wait_for_stop fuel backoff;
      if stopped : bool then lret None
      else
        refreshed <- catch (on_machine (refresh replies index_of guard));
        match refreshed with
        | Ok _ =>
            attempted <- catch attempt;
            match attempted with
            | Ok (plane, next_parameters) =>
                if bool_decide (next_parameters = parameters) then lret (Some (plane, parameters, guard))
                else
                  updated <- catch (on_machine (update_parameters replies guard next_parameters));
                  match updated with
                  | Ok guard => lret (Some (plane, next_parameters, guard))
                  | Err _ =>
                      _ <- ignored (set_mtu (SessionParameters.mtu parameters));
                      _ <- drop_session;
                      restart fuel (double_backoff backoff) guard parameters
                  | Panic => lres Panic
                  end
            | Err _ => restart fuel (double_backoff backoff) guard parameters
            | Panic => lres Panic
            end
        | Err _ => restart fuel (double_backoff backoff) guard parameters
        | Panic => lres Panic
        end
  end.

(** What the packet loop does to the policy until it returns. *)
Definition packet_loop (guard : NetworkGuard) : L NetworkGuard := fun s w =>
  on_machine (live replies index_of (actions (pos w)) guard) s w.

(** The outer loop, which the guard outlives by being dropped at its end. *)
Fixpoint runtime_loop (fuel : nat) (backoff : Z) (guard : NetworkGuard) (parameters : SessionParameters.t) : L NetworkGuard :=
  match fuel with
  | O => exhausted
  | S fuel =>
      started <- instant_now;
      guard <- packet_loop guard;
      _ <- drop_session;
      stopped <- load_stopping;
      if stopped : bool then lret guard
      else
        now <- instant_now;
        let backoff := if STABLE_RUNTIME <=? now - started then RESTART_BACKOFF_MIN else backoff in
        restarted <- restart fuel backoff guard parameters;
        match restarted with
        | None => lret guard
        | Some (_, parameters, guard) => runtime_loop fuel RESTART_BACKOFF_MIN guard parameters
        end
  end.

(** [run_with_stop] once the process runs alone: the recovery, the first session and the
    policy; [bypass] is what [AppBypassGuard::install] answers. *)
Definition run_with_stop (polls fuel : nat) (server : IpAddr) (mode : AppRoutingMode.t) (bypass : res ClientError.t bool) : L unit :=
  _ <- on_machine (recover_stale_state replies);
  match server with
  | V6 _ => lthrow ClientError.Platform
  | V4 server_ip =>
      connected <- connect;
      let parameters := snd connected in
      _ <- os_call (fun s => s);
      _ <- os_call (fun s => s);
      _ <- os_call (fun s => s);
      _ <- set_mtu (SessionParameters.mtu parameters);
      _ <- start_session;
      guard <- or_drop_session (
        app_bypass <- lres bypass;
        on_machine (install replies index_of polls server_ip parameters mode app_bypass));
      guard <- runtime_loop fuel RESTART_BACKOFF_MIN guard parameters;
      on_machine (drop_guard replies guard)
  end.

(** [run_helper] once the profile and the routing policy are loaded: [session] is the split
    tunnel or the full one. *)
Fixpoint helper_loop (session : L unit) (fuel : nat) (backoff : Z) : L unit :=
  match fuel with
  | O => exhausted
  | S fuel =>
      r <- catch session;
      match r with
      | Ok _ => lret tt
      | Err _ =>
          stopped <- load_stopping;
          if stopped : bool then lret tt
          else
            stopped <- wait_for_stop fuel backoff;
            if stopped : bool then lret tt else helper_loop session fuel (double_backoff backoff)
      | Panic => lres Panic
      end
  end.

(** [repair_network] once the process runs alone *)
Definition repair_network : L unit := on_machine (repair replies).

End Runtime.

(** [connect] of handshake.rs *)
Definition runtime_connect `{N : Noise, P : Primitives} (tape : nat -> moment) (fuel : nat) (config : ValidatedClientConfig)
    : Effects.L Runtime (TunnelDataPlane * SessionParameters.t) := run_m (windows_connect tape fuel config).

(** ** Triples of the runtime *)

Lemma keeps_triple {St A} (I : St -> Prop) (m : Effects.L St A) : keeps I m -> triple I m (fun _ => I) I.
Proof. intros Hk l w Hl. specialize (Hk l w Hl). by destruct (m l w) as [[l1 w1] [[a|e|]|]]. Qed.

(** The machine within the runtime, with what else is known. *)
Definition within (J : nat -> nat -> list bool -> Prop) (I : Machine -> Prop) (s : Runtime) : Prop :=
  J (rt_sessions s) (rt_clashes s) (rt_flags s) /\ I (rt_machine s).

Lemma triple_on_machine {A} J (m : Effects.L Machine A) I Q F :
  triple I m Q F -> triple (within J I) (on_machine m) (fun a => within J (Q a)) (within J F).
Proof.
  intros Hm s w [Hs HI]. specialize (Hm (rt_machine s) w HI). unfold on_machine. destruct (m (rt_machine s) w) as [[s1 w1] [[a|e|]|]]; by split.
Qed.

(** No look since found the flag set; the last one, and only it, did. *)
Definition unasked (flags0 flags : list bool) : Prop := exists looks, flags = flags0 ++ looks /\ Forall (fun b => b = false) looks.
Definition asked (flags0 flags : list bool) : Prop := exists looks, flags = flags0 ++ looks ++ [true] /\ Forall (fun b => b = false) looks.

Lemma unasked_start flags0 : unasked flags0 flags0.
Proof. exists []. by rewrite app_nil_r. Qed.

Lemma unasked_look flags0 flags (b : bool) : unasked flags0 flags -> if b then asked flags0 (flags ++ [b]) else unasked flags0 (flags ++ [b]).
Proof.
  intros (looks & -> & Hl). destruct b; [exists looks; by rewrite <- app_assoc|]. exists (looks ++ [false]). split; [by rewrite <- app_assoc|].
  apply Forall_app. split; [done|]. by constructor.
Qed.

Lemma in_session_kept guard m : in_session guard m -> no_journal_lost m.
Proof. intros H _. by apply (in_session_journaled guard). Qed.

Section RuntimeTheorems.
Context `{N : Noise, P : Primitives}.
Context (replies : nat -> option reply) (index_of : Z -> Z) (stopping : nat -> bool) (actions : nat -> list action).
Context (connect : Effects.L Runtime (TunnelDataPlane * SessionParameters.t)).

(** A handshake touches neither the machine nor the adapter. *)
Hypothesis connect_keeps : forall I, keeps I connect.

(** The clashes and the looks before the run. *)
Context (clashes0 : nat) (flags0 : list bool).

Definition having (n : nat) : (Machine -> Prop) -> Runtime -> Prop := within (fun sessions clashes flags => sessions = n /\ clashes = clashes0 /\ unasked flags0 flags).
Definition halted : (Machine -> Prop) -> Runtime -> Prop := within (fun sessions clashes flags => sessions = 0%nat /\ clashes = clashes0 /\ asked flags0 flags).

(** Where a runtime may be cut: it never asked for a session too many, and the journal, if
    there is one, is right. *)
Definition recoverable (s : Runtime) : Prop := rt_clashes s = clashes0 /\ no_journal_lost (rt_machine s).

Lemma having_recoverable n I s : (forall m, I m -> no_journal_lost m) -> having n I s -> recoverable s.
Proof. intros HI [(_ & Hc & _) Hm]. split; [done|by apply HI]. Qed.

Lemma halted_recoverable I s : (forall m, I m -> no_journal_lost m) -> halted I s -> recoverable s.
Proof. intros HI [(_ & Hc & _) Hm]. split; [done|by apply HI]. Qed.

Lemma triple_os (I : Runtime -> Prop) effect (Q : unit -> Runtime -> Prop) (F : Runtime -> Prop) :
  (forall s, I s -> Q tt (effect s)) -> (forall s, I s -> F s) -> triple I (os_call replies effect) Q F.
Proof. apply triple_file_call. Qed.

(** What does not change the state. *)
Lemma triple_same {A} (I F : Runtime -> Prop) (m : Effects.L Runtime A) : (forall J, keeps J m) -> (forall s, I s -> F s) -> triple I m (fun _ => I) F.
Proof. intros Hm HF. eapply triple_weaken; [apply (keeps_triple I m), Hm|auto..]. Qed.

Lemma keeps_exhausted {A} I : keeps I (exhausted (A := A)).
Proof. by intros s w. Qed.

Lemma keeps_instant I : keeps I (instant_now replies).
Proof. unfold instant_now. repeat (apply keeps_call || keeps_step). Qed.

Lemma update_in_session guard parameters :
  triple (in_session guard) (update_parameters replies guard parameters) (fun guard' => in_session guard') (in_session guard).
Proof.
  unfold update_parameters. case_bool_decide; [by apply triple_ret|].
  eapply triple_bind; [apply keeps_triple, keeps_interface_luid|]. intros tunnel.
  eapply triple_bind; [apply triple_catch, keeps_triple, keeps_apply_session|]. intros [[]|e|].
  - apply triple_ret. intros m Hm. exact Hm.
  - eapply triple_bind; [apply keeps_triple, keeps_apply_session|]. intros []. by apply triple_throw.
  - by apply triple_res.
Qed.

(** *** Waiting *)

Abbreviation looked := (fun I (stopped : bool) => if stopped then halted I else having 0 I) (only parsing).

Lemma triple_stopping I F : triple (having 0 I) (load_stopping stopping) (looked I) F.
Proof.
  intros s w [(Hs & Hc & Hf) Hm]. unfold load_stopping. pose proof (unasked_look _ _ (stopping (pos w)) Hf) as H. by destruct (stopping (pos w)).
Qed.

Lemma triple_wait_until fuel deadline I : triple (having 0 I) (wait_until replies stopping fuel deadline) (looked I) (having 0 I).
Proof.
  induction fuel as [|fuel IH]; cbn [wait_until]; [by intros s w Hs|]. eapply triple_bind; [apply triple_stopping|]. intros []; [by apply triple_ret|].
  eapply triple_bind; [apply triple_same; [intros; apply keeps_instant|done]|]. intros now. case_match; [by apply triple_ret|].
  eapply triple_bind; [apply triple_same; [intros; apply keeps_call|done]|]. intros r. exact IH.
Qed.

Lemma triple_wait fuel duration I : triple (having 0 I) (wait_for_stop replies stopping fuel duration) (looked I) (having 0 I).
Proof.
  unfold wait_for_stop. eapply triple_bind; [apply triple_same; [intros; apply keeps_instant|done]|]. intros now. apply triple_wait_until.
Qed.

(** *** The inner loop *)

Abbreviation running := (fun guard n => having n (in_session guard)) (only parsing).

(** Opening a session from a state without one. *)
Lemma triple_set_mtu n (I : Machine -> Prop) mtu : triple (having n I) (set_mtu replies mtu) (fun _ => having n I) (having n I).
Proof. apply triple_os; by intros s []. Qed.

Lemma triple_start (I : Machine -> Prop) : triple (having 0 I) (start_session replies) (fun _ => having 1 I) (having 0 I).
Proof.
  unfold start_session. eapply triple_bind; [apply triple_gets|]. intros [|n].
  - apply triple_os; [intros s [[(_ & Hc & Hf) Hm] _]; by split|by intros s []].
  - intros s w [[[Hs _] _] Hn]. congruence.
Qed.

Lemma triple_attempt guard : triple (running guard 0%nat) (attempt replies connect) (fun _ => running guard 1%nat) (running guard 0%nat).
Proof.
  unfold attempt. eapply triple_bind; [by apply triple_same|]. intros connected.
  do 2 (eapply triple_bind; [apply (triple_os _ _ (fun _ => running guard 0%nat)); auto|]; intros []).
  eapply triple_bind; [apply triple_set_mtu|]. intros []. eapply triple_bind; [apply triple_start|]. intros []. by apply triple_ret.
Qed.

Abbreviation restarted := (fun guard (r : option (TunnelDataPlane * SessionParameters.t * NetworkGuard)) s =>
  match r with None => halted (in_session guard) s | Some (_, _, guard') => running guard' 1%nat s end) (only parsing).

Lemma running_recoverable guard n s : running guard n s -> recoverable s.
Proof. apply having_recoverable. intros m. apply in_session_kept. Qed.

(** A session is dropped. *)
Lemma triple_drop I F : triple (having 1 I) drop_session (fun _ => having 0 I) F.
Proof. apply triple_modify. intros s [(Hs & Hc & Hf) Hm]. split; [|done]. cbn. by rewrite Hs. Qed.

#[local] Hint Resolve running_recoverable : core.

Lemma triple_restart fuel backoff guard parameters :
  triple (running guard 0%nat) (restart replies index_of stopping connect fuel backoff guard parameters) (restarted guard) recoverable.
Proof.
  revert backoff. induction fuel as [|fuel IH]; intros backoff; cbn [restart].
  { intros s w Hs. cbn. by apply (running_recoverable guard 0). }
  assert (H0 : forall s, running guard 0%nat s -> recoverable s) by (intros s; apply running_recoverable).
  assert (H1 : forall s, running guard 1%nat s -> recoverable s) by (intros s; apply running_recoverable).
  eapply triple_bind; [eapply triple_weaken; [apply triple_wait|done|intros r s Hs; exact Hs|exact H0]|]. intros []; [by apply triple_ret|].
  apply triple_bind with (Q := fun _ => running guard 0%nat).
  { eapply triple_weaken; [apply triple_catch, triple_on_machine, keeps_triple, (keeps_refresh replies index_of guard)|done| |exact H0].
    by intros []. }
  intros [[]|e|]; [|exact (IH _)|by apply triple_res].
  eapply triple_bind; [eapply triple_weaken; [apply triple_catch, triple_attempt|done|intros a s Hs; exact Hs|exact H0]|].
  intros [[plane next]|e|]; [|exact (IH _)|by apply triple_res].
  case_bool_decide; [by apply triple_ret|].
  eapply triple_bind; [eapply triple_weaken; [apply triple_catch, triple_on_machine, update_in_session|done|intros a s Hs; exact Hs|exact H1]|].
  intros [guard'|e|]; [by apply triple_ret| |by apply triple_res].
  apply triple_bind with (Q := fun _ => running guard 1%nat).
  { apply triple_weaken with (I' := running guard 1%nat) (Q' := fun _ => running guard 1%nat) (F' := running guard 1%nat); [|done|done|exact H1].
    apply triple_ignored, triple_os; [by intros s []|done]. }
  intros []. eapply triple_bind; [apply triple_drop|]. intros []. apply IH.
Qed.

(** *** The outer loop *)

Lemma triple_packet_loop guard : triple (running guard 1%nat) (packet_loop replies index_of actions guard) (fun guard' => running guard' 1%nat) recoverable.
Proof.
  intros s w [(Hs & Hc & Hf) Hm]. unfold packet_loop, on_machine. destruct (live_journaled replies index_of (actions (pos w)) guard (rt_machine s) w Hm) as [Hl Hok].
  destruct (live replies index_of (actions (pos w)) guard (rt_machine s) w) as [[m1 w1] [[guard'|e|]|]]; [|by split; [|intros _]..].
  split; [done|]. by apply (Hok _ _ w1).
Qed.

Lemma triple_runtime_loop fuel backoff guard parameters :
  triple (running guard 1%nat) (runtime_loop replies index_of stopping actions connect fuel backoff guard parameters)
    (fun guard' => halted (in_session guard')) recoverable.
Proof.
  revert backoff guard parameters. induction fuel as [|fuel IH]; intros backoff guard parameters; cbn [runtime_loop].
  { intros s w Hs. cbn. by apply (running_recoverable guard 1). }
  eapply triple_bind; [apply triple_same; [intros; apply keeps_instant|intros s; apply running_recoverable]|]. intros started.
  eapply triple_bind; [apply triple_packet_loop|]. intros guard1. eapply triple_bind; [apply triple_drop|]. intros [].
  eapply triple_bind; [apply triple_stopping|]. intros []; [by apply triple_ret|].
  eapply triple_bind; [apply triple_same; [intros; apply keeps_instant|intros s; apply running_recoverable]|]. intros now.
  eapply triple_bind; [apply triple_restart|]. intros [[[plane next] guard2]|]; [apply IH|by apply triple_ret].
Qed.

(** *** Errors

    Computations that catch the errors of their calls. *)

Definition calm {St A} (m : Effects.L St A) : Prop := forall s w s' w' e, m s w <> (s', w', Some (Err e)).

Lemma calm_bind {St A B} (m : Effects.L St A) (k : A -> Effects.L St B) : calm m -> (forall a, calm (k a)) -> calm (lbind m k).
Proof.
  intros Hm Hk s w s' w' e H. unfold lbind in H. destruct (m s w) as [[s1 w1] [[a|e1|]|]] eqn:E; [by apply (Hk a) in H| |done..].
  by apply (Hm s w s1 w1 e1).
Qed.

Lemma calm_catch {St A} (m : Effects.L St A) : calm (catch m).
Proof. intros s w s' w' e. unfold catch. by destruct (m s w) as [[s1 w1] [[a|e1|]|]]. Qed.

Lemma calm_ret {St A} (a : A) : calm (lret (St := St) a).
Proof. done. Qed.

Lemma calm_panic {St A} : calm (lres (St := St) (A := A) Panic).
Proof. done. Qed.

Lemma calm_call {St} : calm (call (St := St) replies).
Proof. intros s w s' w' e. unfold call. by destruct (replies (pos w)). Qed.

Lemma calm_on_machine {A} (m : Effects.L Machine A) : calm m -> calm (on_machine m).
Proof. intros Hm s w s' w' e. unfold on_machine. destruct (m (rt_machine s) w) as [[m1 w1] r] eqn:E. intros [= <- <- ->]. by apply Hm in E. Qed.

Lemma calm_live l guard : calm (live replies index_of l guard).
Proof.
  revert guard. induction l as [|[|p] l IH]; intros guard; cbn [live]; [apply calm_ret|apply calm_bind..].
  - unfold ignored. apply calm_bind; [apply calm_catch|intros; apply calm_ret].
  - intros []. apply IH.
  - apply calm_catch.
  - intros r. apply IH.
Qed.

Lemma calm_instant : calm (instant_now replies).
Proof. unfold instant_now. apply calm_bind; [apply calm_call|intros; apply calm_ret]. Qed.

Lemma calm_wait fuel duration : calm (wait_for_stop replies stopping fuel duration).
Proof.
  unfold wait_for_stop. apply calm_bind; [apply calm_instant|]. intros now. generalize (now + duration). intros deadline.
  induction fuel as [|fuel IH]; cbn [wait_until]; [done|]. apply calm_bind; [done|]. intros []; [apply calm_ret|].
  apply calm_bind; [apply calm_instant|]. intros t. case_match; [apply calm_ret|]. apply calm_bind; [apply calm_call|]. intros; apply IH.
Qed.

Lemma calm_restart fuel backoff guard parameters : calm (restart replies index_of stopping connect fuel backoff guard parameters).
Proof.
  revert backoff. induction fuel as [|fuel IH]; intros backoff; cbn [restart]; [done|].
  apply calm_bind; [apply calm_wait|]. intros []; [apply calm_ret|]. apply calm_bind; [apply calm_catch|]. intros [[]|e|]; [|apply IH|apply calm_panic].
  apply calm_bind; [apply calm_catch|]. intros [[plane next]|e|]; [|apply IH|apply calm_panic]. case_bool_decide; [apply calm_ret|].
  apply calm_bind; [apply calm_catch|]. intros [guard'|e|]; [apply calm_ret| |apply calm_panic].
  apply calm_bind; [unfold ignored; apply calm_bind; [apply calm_catch|intros; apply calm_ret]|]. intros []. apply calm_bind; [done|]. intros []. apply IH.
Qed.

Lemma calm_runtime_loop fuel backoff guard parameters : calm (runtime_loop replies index_of stopping actions connect fuel backoff guard parameters).
Proof.
  revert backoff guard parameters. induction fuel as [|fuel IH]; intros backoff guard parameters; cbn [runtime_loop]; [done|].
  apply calm_bind; [apply calm_instant|]. intros started. apply calm_bind; [intros s w; apply (calm_on_machine _ (calm_live (actions (pos w)) guard))|].
  intros guard1. apply calm_bind; [done|]. intros []. apply calm_bind; [done|]. intros []; [apply calm_ret|].
  apply calm_bind; [apply calm_instant|]. intros now. apply calm_bind; [apply calm_restart|]. intros [[[plane next] guard2]|]; [apply IH|apply calm_ret].
Qed.

Lemma calm_helper_loop session fuel backoff : calm (helper_loop replies stopping session fuel backoff).
Proof.
  revert backoff. induction fuel as [|fuel IH]; intros backoff; cbn [helper_loop]; [done|]. apply calm_bind; [apply calm_catch|].
  intros [[]|e|]; [apply calm_ret| |apply calm_panic]. apply calm_bind; [done|]. intros []; [apply calm_ret|].
  apply calm_bind; [apply calm_wait|]. intros []; [apply calm_ret|apply IH].
Qed.

(** *** The whole run *)

Lemma keeps_either {St A} (I J : St -> Prop) (m : Effects.L St A) : keeps I m -> keeps J m -> keeps (fun s => I s \/ J s) m.
Proof. intros HI HJ s w [H|H]; [left; by apply HI|right; by apply HJ]. Qed.

Lemma recover_kept : triple journaled (recover_stale_state replies) (fun _ => clean) no_journal_lost.
Proof.
  intros m w Hm. destruct (recover_stale_state replies m w) as [[m' w'] r] eqn:E.
  assert (Hend : no_journal_lost m').
  { set (I m1 := (journal m1 = journal m /\ (rules m = false -> rules m1 = false)) \/ journal m1 = None).
    assert (Hclean : forall fr, keeps I (cleanup replies fr)).
    { intros fr. apply keeps_either; [apply keeps_cleanup|]. intros s w0 Hs. by apply (keeps_cleanup replies fr None true s w0). }
    assert (Hremove : keeps I (remove_journal replies)) by (apply keeps_file_call; intros s _; by right; destruct s).
    assert (HI : I m').
    { assert (Hk : keeps I (recover_stale_state replies)).
      { unfold recover_stale_state, read_state, interface_exists. repeat (apply keeps_call || apply Hclean || apply Hremove || apply keeps_interface_luid || keeps_step). }
      specialize (Hk m w). rewrite E in Hk. apply Hk. by left. }
    intros Hn. destruct HI as [[Hj Hr]|HI]; [|done]. destruct (journal m) as [f|] eqn:Hf; [|done]. by apply (kept_journaled f m). }
  destruct r as [[[]|e|]|]; [|done..]. by apply (recover_cleans replies m w m' w').
Qed.

Lemma triple_install polls ip parameters mode bypass :
  triple clean (install replies index_of polls ip parameters mode bypass) (fun guard => in_session guard) no_journal_lost.
Proof.
  intros m w Hm. pose proof (install_journal replies index_of polls ip parameters mode bypass m w Hm) as Hj.
  destruct (install replies index_of polls ip parameters mode bypass m w) as [[m' w'] [[guard|e|]|]] eqn:E; [|done..].
  by apply (install_in_session replies index_of polls ip parameters mode bypass m w guard m' w').
Qed.

Lemma triple_drop_guard guard : triple (in_session guard) (drop_guard replies guard) (fun _ => no_journal_lost) no_journal_lost.
Proof.
  intros m w Hm. pose proof (drop_guard_journaled replies guard m w Hm) as Hj.
  destruct (drop_guard replies guard m w) as [[m' w'] [[[]|e|]|]]; by intros _.
Qed.

Lemma triple_or_drop {A} I (m : Effects.L Runtime A) Q (F : Machine -> Prop) : (forall x, F x -> no_journal_lost x) ->
  triple (having 1 I) m Q (having 1 F) -> triple (having 1 I) (or_drop_session m) Q recoverable.
Proof.
  intros HF Hm. assert (Hrec : forall s, having 1 F s -> recoverable s) by (intros s; by apply having_recoverable).
  unfold or_drop_session. eapply triple_bind; [eapply triple_weaken; [apply triple_catch, Hm|done|intros r s Hs; exact Hs|exact Hrec]|].
  intros [a|e|]; [by apply triple_ret| |by apply triple_res].
  eapply triple_bind; [apply triple_drop|]. intros []. apply triple_throw. intros s. by apply having_recoverable.
Qed.

Lemma clean_kept m : clean m -> no_journal_lost m.
Proof. intros (Hj & _) Hn. by rewrite Hj in Hn. Qed.

Lemma triple_run polls fuel server mode bypass :
  triple (having 0 journaled) (run_with_stop replies index_of stopping actions connect polls fuel server mode bypass)
    (fun _ => halted no_journal_lost) recoverable.
Proof.
  assert (Hrec : forall s, having 0 clean s -> recoverable s) by (intros s; apply having_recoverable, clean_kept).
  unfold run_with_stop. eapply triple_bind.
  { eapply triple_weaken; [apply triple_on_machine, recover_kept|done|intros a s Hs; exact Hs|intros s; by apply having_recoverable]. }
  intros []. destruct server as [server_ip|]; [|by apply triple_throw].
  eapply triple_bind; [by apply triple_same|]. intros connected. cbv zeta.
  do 3 (eapply triple_bind; [apply (triple_os _ _ (fun _ => having 0 clean)); auto|]; intros []).
  eapply triple_bind; [eapply triple_weaken; [apply triple_set_mtu|done|intros a s Hs; exact Hs|exact Hrec]|]. intros [].
  eapply triple_bind; [eapply triple_weaken; [apply triple_start|done|intros a s Hs; exact Hs|exact Hrec]|]. intros [].
  eapply triple_bind.
  { apply (triple_or_drop clean _ (fun guard => running guard 1%nat) no_journal_lost); [done|].
    eapply triple_bind; [apply (triple_res _ _ (fun _ => having 1 clean)); [done|intros s [Hs Hm]; split; [done|by apply clean_kept]]|].
    intros app_bypass. apply triple_on_machine, triple_install. }
  intros guard. eapply triple_bind; [apply triple_runtime_loop|]. intros guard'.
  eapply triple_weaken; [apply triple_on_machine, triple_drop_guard|done|intros [] s Hs; exact Hs|]. intros s. by apply halted_recoverable.
Qed.

(** *** Errors leave no session open *)

(** From a state with [n] sessions and no look at the flag, an error leaves neither. *)
Definition closes {A} (n : nat) (m : Effects.L Runtime A) : Prop := forall s w s' w' e,
  rt_sessions s = n -> rt_flags s = flags0 -> m s w = (s', w', Some (Err e)) -> rt_sessions s' = 0%nat /\ rt_flags s' = flags0.

Abbreviation untouched n := (fun s => rt_sessions s = n /\ rt_flags s = flags0) (only parsing).

Lemma closes_bind {A B} n (m : Effects.L Runtime A) (k : A -> Effects.L Runtime B) :
  keeps (untouched 0%nat) m -> (forall a, closes n (k a)) -> n = 0%nat -> closes n (lbind m k).
Proof.
  intros Hm Hk -> s w s' w' e Hs Hf H. specialize (Hm s w (conj Hs Hf)). unfold lbind in H.
  destruct (m s w) as [[s1 w1] [[a|e1|]|]]; cbn [fst] in Hm; [|by simplify_eq..]. destruct Hm. by apply (Hk a s1 w1 s' w' e).
Qed.

Lemma closes_start {B} (k : Effects.L Runtime B) : closes 1 k -> closes 0 (lbind (start_session replies) (fun _ => k)).
Proof.
  intros Hk s w s' w' e Hs Hf. unfold start_session, os_call, file_call, lbind, gets, lret. cbn. rewrite Hs. unfold call.
  destruct (replies (pos w)) as [r|]; [|done]. destruct (r_io r); cbn; [by intros [= <- _ _]|]. by apply Hk.
Qed.

Lemma closes_or_drop {A B} (m : Effects.L Runtime A) (k : A -> Effects.L Runtime B) :
  keeps (untouched 1%nat) m -> (forall a, calm (k a)) -> closes 1 (lbind (or_drop_session m) k).
Proof.
  intros Hm Hk s w s' w' e Hs Hf. specialize (Hm s w (conj Hs Hf)). unfold or_drop_session, drop_session, modify, catch, lbind, lthrow, lret, lres.
  destruct (m s w) as [[s1 w1] [[a|e1|]|]]; cbn in *; [intros H; by apply (Hk a) in H| |done..]. destruct Hm as [Hm1 Hm2].
  intros [= <- _ _]. cbn. by rewrite Hm1.
Qed.

Lemma keeps_on_machine {A} n (m : Effects.L Machine A) : keeps (untouched n) (on_machine m).
Proof. intros s w Hs. unfold on_machine. by destruct (m (rt_machine s) w) as [[m1 w1] r]. Qed.

Lemma keeps_os_call n effect : (forall s, rt_sessions (effect s) = rt_sessions s /\ rt_flags (effect s) = rt_flags s) -> keeps (untouched n) (os_call replies effect).
Proof. intros He. unfold os_call. apply keeps_file_call. intros s [Hs Hf]. destruct (He s) as [-> ->]. done. Qed.

Lemma calm_drop_guard guard : calm (drop_guard replies guard).
Proof.
  unfold drop_guard, undo, ignored, drop_kill_switch. repeat first [apply calm_catch | apply calm_ret | apply calm_bind | case_match | intros ?]; done.
Qed.

Lemma run_closes polls fuel server mode bypass : closes 0 (run_with_stop replies index_of stopping actions connect polls fuel server mode bypass).
Proof.
  unfold run_with_stop. apply closes_bind; [apply keeps_on_machine| |done]. intros []. destruct server as [server_ip|]; [|by intros s w s' w' e Hs Hf [= <- _ _]].
  apply closes_bind; [apply connect_keeps| |done]. intros connected. cbv zeta.
  do 3 (apply closes_bind; [by apply keeps_os_call| |done]; intros []). apply closes_bind; [by apply keeps_os_call| |done]. intros [].
  apply closes_start. apply closes_or_drop.
  - apply keeps_bind; [apply keeps_res|]. intros app_bypass. apply keeps_on_machine.
  - intros guard. apply calm_bind; [apply calm_runtime_loop|]. intros guard'. apply calm_on_machine, calm_drop_guard.
Qed.

End RuntimeTheorems.

Section Restarts.
Context `{N : Noise, P : Primitives}.
Context (replies : nat -> option reply) (index_of : Z -> Z) (stopping : nat -> bool) (actions : nat -> list action).
Context (connect : Effects.L Runtime (TunnelDataPlane * SessionParameters.t)).
Hypothesis connect_keeps : forall I, keeps I connect.


End Restarts.

(** ** Waiting ends

    When every turn, with its sleep of at most 100 ms, takes that long or reaches the deadline,
    a wait has an end within the turns the duration has room for. *)

Section Waiting.
Context (replies : nat -> option reply) (stopping : nat -> bool).

Definition now_at (p : nat) : Z := match replies p with Some r => r_now r | None => 0 end.

Theorem wait_ends fuel deadline s w :
  (forall p, is_Some (replies p)) -> (forall p, now_at p + 100 <= now_at (p + 3) \/ deadline <= now_at (p + 3)) ->
  (0 < fuel)%nat -> deadline - now_at (S (pos w)) <= (Z.of_nat fuel - 1) * 100 ->
  exists s' w' stopped, wait_until replies stopping fuel deadline s w = (s', w', Some (Ok stopped)).
Proof.
  intros Ha Hclock. revert s w. induction fuel as [|fuel IH]; intros s w Hf Hb; [lia|]. cbn [wait_until].
  unfold lbind at 1, load_stopping. destruct (stopping (pos w)); [by eexists _, _, _|].
  unfold lbind at 1, instant_now, lbind at 1, call at 1. cbn [pos]. specialize (Hclock (S (pos w))). unfold now_at in Hb, Hclock at 1.
  destruct (Ha (S (pos w))) as [r Hr]. rewrite Hr in *. cbn [lret]. unfold sat_sub. destruct (Z.eqb_spec (Z.max 0 (deadline - r_now r)) 0) as [E|E]; [by eexists _, _, _|].
  unfold lbind at 1, call at 1. cbn [pos]. destruct (Ha (S (S (pos w)))) as [r2 Hr2]. rewrite Hr2. apply IH; [lia|]. cbn [pos].
  replace (S (S (S (S (pos w))))) with (S (pos w) + 3)%nat by lia. lia.
Qed.

End Waiting.

(** ** Concrete runs *)

Module ToyRuntime.

Import Toy ToyHandshake ToyNetwork.

Definition plane : TunnelDataPlane := mkTunnelDataPlane 42 0 1280 (mkSecureSession 7 ReplayWindow.default (zeros 32)).

(** Every handshake assigns the same parameters. *)
Definition same_connect : Effects.L Runtime (TunnelDataPlane * SessionParameters.t) := fun s w => (s, w, Some (Ok (plane, parameters))).

Lemma same_connect_keeps I : keeps I same_connect.
Proof. by intros s w. Qed.

Definition start : Runtime := mkRuntime machine 0 None 0 [].
Definition always (k : nat) : option reply := Some (mkReply 0 None (Z.of_nat k * 1000) true).

(** The first packet loop returns, the second too, and then the user stops. *)
Definition stops (k : nat) : bool := (60 <? k)%nat.
Abbreviation toy_run := (run_with_stop always index_of stops (fun _ => [Refresh]) same_connect 1 9 (V4 server) AppRoutingMode.Exclude (Ok false) start before).


(** The waits of 1, 2, 4, 8, 16 and again 16 seconds. *)
Example backoffs : map (fun n => Nat.iter n double_backoff RESTART_BACKOFF_MIN) (seq 0 6) = [1000; 2000; 4000; 8000; 16000; 16000].
Proof. reflexivity. Qed.

(** The packet loop has moved the policy to other parameters in a reconnect of its own; the
    runtime still compares with those of the start.  When a restart is assigned these again,
    the policy is not moved back: the session and the adapter's address disagree. *)
Definition others : SessionParameters.t := SessionParameters.mk (ipv4_new 10 77 0 9) 24 1280 (ipv4_new 10 77 0 1).
Definition guard0 : NetworkGuard := mkGuard (mkRecovery server false) parameters true false.

Example restart_leaves_other_parameters :
  let '(s1, w1, r1) := packet_loop always index_of (fun _ => [Update others]) guard0 (mkRuntime machine 1 (Some 1280) 0 []) before in
  match r1 with
  | Some (Ok guard1) =>
      g_parameters guard1 = others /\
      match (restart always index_of (fun _ => false) same_connect 99 0 guard1 parameters (set_sessions 0 s1) w1).2 with
      | Some (Ok (Some (_, session_parameters, guard2))) => session_parameters = parameters /\ g_parameters guard2 = others
      | _ => False
      end
  | _ => False
  end.
Proof. vm_compute. split; [reflexivity|]. split; reflexivity. Qed.

End ToyRuntime.
