(* ===== verification/Float64.v ===== *)
(** * Binary64 numbers

    The [f64] of Rust as far as linux-gui/src-tauri/src/reliability.rs computes with it: the
    specification of IEEE 754 in the Standard Library, at 53 bits of precision and the
    exponent 1024, with the conversion of integers, [clamp] and [total_cmp].

    The lemmas keep track of signs: numbers that are not negative stay so under addition,
    multiplication and division by a positive integer, and none of these gives a NaN. *)

From S2P Require Import Prelude.
From Stdlib Require Import SpecFloat.

Definition f64 := spec_float.
Definition fadd : f64 -> f64 -> f64 := SFadd 53 1024.
Definition fsub : f64 -> f64 -> f64 := SFsub 53 1024.
Definition fmul : f64 -> f64 -> f64 := SFmul 53 1024.
Definition fdiv : f64 -> f64 -> f64 := SFdiv 53 1024.

(** [n as f64]: to nearest, ties to even. *)
Definition as_f64 (n : Z) : f64 := binary_normalize 53 1024 n 0 false.

(** [f64::clamp] *)
Definition clamp (x low high : f64) : f64 :=
  let x := if SFltb x low then low else x in
  if SFltb high x then high else x.

(** [f64::total_cmp] of numbers that are not NaN: zeros are ordered by their sign. *)
Definition total_cmp (x y : f64) : comparison :=
  match x, y with
  | S754_zero s, S754_zero s' => match s, s' with true, false => Lt | false, true => Gt | _, _ => Eq end
  | _, _ => match SFcompare x y with Some c => c | None => Eq end
  end.

(** ** Signs *)

(** A number, of sign [s]. *)
Definition signed (s : bool) (x : f64) : Prop :=
  match x with S754_zero s' | S754_infinity s' | S754_finite s' _ _ => s' = s | S754_nan => False end.

Definition is_positive (x : f64) : Prop := match x with S754_finite false _ _ => True | _ => False end.

Lemma shr_1_value r : 0 <= shr_m r -> shr_m (shr_1 r) = shr_m r / 2.
Proof.
  destruct r as [[|p|p] r s]; cbn [shr_m]; [done| |lia]. intros _. rewrite <- Z.div2_div. by destruct p.
Qed.

Lemma iter_shr_value p r : 0 <= shr_m r -> shr_m (iter_pos shr_1 p r) = shr_m r / 2 ^ Zpos p.
Proof.
  revert r. induction p as [p IH|p IH|]; intros r Hr; cbn [iter_pos].
  - assert (H1 : 0 <= shr_m (shr_1 r)) by (rewrite shr_1_value by done; apply Z.div_pos; lia).
    rewrite IH, IH, shr_1_value, !Z.div_div by (try rewrite IH; try done; try apply Z.div_pos; lia).
    f_equal. replace (Zpos p~1) with (1 + Zpos p + Zpos p) by lia. rewrite !Z.pow_add_r by lia. lia.
  - rewrite IH, IH, Z.div_div by (try rewrite IH; try done; try apply Z.div_pos; lia).
    f_equal. replace (Zpos p~0) with (Zpos p + Zpos p) by lia. rewrite Z.pow_add_r by lia. lia.
  - by rewrite shr_1_value.
Qed.

Lemma record_of_loc_m m l : shr_m (shr_record_of_loc m l) = m.
Proof. by destruct l as [|[]]. Qed.

Lemma shr_value r e n : 0 <= shr_m r -> shr_m (fst (shr r e n)) = shr_m r / 2 ^ Z.max 0 n /\ snd (shr r e n) = e + Z.max 0 n.
Proof.
  intros Hr. destruct n as [|p|p]; cbn [shr fst snd]; [rewrite Z.pow_0_r, Z.div_1_r; split; lia| |rewrite Z.pow_0_r, Z.div_1_r; split; lia].
  rewrite iter_shr_value by done. split; [do 2 f_equal; lia|lia].
Qed.

Lemma shr_fexp_value m e l : 0 <= m ->
  let n := Z.max 0 (fexp 53 1024 (Zdigits2 m + e) - e) in
  shr_m (fst (shr_fexp 53 1024 m e l)) = m / 2 ^ n /\ snd (shr_fexp 53 1024 m e l) = e + n.
Proof.
  intros Hm. unfold shr_fexp. cbv zeta. rewrite <- (record_of_loc_m m l) in Hm. pose proof (shr_value _ e (fexp 53 1024 (Zdigits2 m + e) - e) Hm) as H.
  by rewrite record_of_loc_m in H.
Qed.

Lemma round_even_bounds m l : m <= round_nearest_even m l <= m + 1.
Proof. destruct l as [|[]]; cbn; try lia. destruct (Z.even m); lia. Qed.

(** Rounding keeps the sign and gives a number. *)
Lemma round_aux_signed s m e l : 0 <= m -> signed s (binary_round_aux 53 1024 s m e l).
Proof.
  intros Hm. unfold binary_round_aux. destruct (shr_fexp 53 1024 m e l) as [r e'] eqn:E1.
  pose proof (proj1 (shr_fexp_value m e l Hm)) as H1. rewrite E1 in H1. cbn [fst] in H1.
  pose proof (round_even_bounds (shr_m r) (loc_of_shr_record r)) as Hb.
  assert (Hr : 0 <= shr_m r) by (rewrite H1; apply Z.div_pos; [done|apply Z.pow_pos_nonneg; lia]).
  destruct (shr_fexp 53 1024 (round_nearest_even _ _) e' loc_Exact) as [r' e''] eqn:E2.
  assert (H2 : 0 <= shr_m r').
  { assert (Hn : 0 <= round_nearest_even (shr_m r) (loc_of_shr_record r)) by lia. pose proof (proj1 (shr_fexp_value _ e' loc_Exact Hn)) as H.
    rewrite E2 in H. cbn [fst] in H. rewrite H. apply Z.div_pos; [done|apply Z.pow_pos_nonneg; lia]. }
  destruct (shr_m r'); [done| |lia]. by destruct (e'' <=? _).
Qed.

Lemma round_signed s m e : signed s (binary_round 53 1024 s m e).
Proof. unfold binary_round. destruct (shl_align _ _ _). by apply round_aux_signed. Qed.

Lemma normalize_signed m e : 0 <= m -> signed false (binary_normalize 53 1024 m e false).
Proof. destruct m as [|p|p]; cbn; [done| |lia]. intros _. apply round_signed. Qed.

Lemma normalize_number m e : exists s, signed s (binary_normalize 53 1024 m e false).
Proof. destruct m as [|p|p]; cbn; [by exists false|exists false|exists true]; apply round_signed. Qed.

Lemma fadd_signed x y : signed false x -> signed false y -> signed false (fadd x y).
Proof.
  destruct x as [[]|[]| |[] mx ex], y as [[]|[]| |[] my ey]; intros Hx Hy; cbn in Hx, Hy; try done; cbn [fadd SFadd]; try done.
  apply normalize_signed. cbn [cond_Zopp]. lia.
Qed.

Lemma fmul_signed x y : signed false x -> is_positive y -> signed false (fmul x y).
Proof.
  destruct x as [[]|[]| |[] mx ex], y as [[]|[]| |[] my ey]; intros Hx Hy; cbn in Hx, Hy; try done. by apply round_aux_signed.
Qed.

Lemma fdiv_signed x y : signed false x -> is_positive y -> signed false (fdiv x y).
Proof.
  destruct x as [[]|[]| |[] mx ex], y as [[]|[]| |[] my ey]; intros Hx Hy; cbn in Hx, Hy; try done.
  unfold fdiv, SFdiv, SFdiv_core_binary. cbv zeta. destruct (Z.div_eucl _ _) as [q r] eqn:E. apply round_aux_signed.
  match type of E with Z.div_eucl ?a ?b = _ => assert (Hq : q = a / b) by (unfold Z.div; by rewrite E); assert (0 <= a) end.
  { case_match; [done| |done]. rewrite Z.shiftl_nonneg. done. }
  rewrite Hq. by apply Z.div_pos.
Qed.

Lemma fsub_number x y : is_positive x -> signed false y -> exists s, signed s (fsub x y).
Proof.
  destruct x as [[]|[]| |[] mx ex], y as [[]|[]| |[] my ey]; intros Hx Hy; cbn in Hx, Hy; try done; unfold fsub; cbn [SFsub negb];
    [by exists false|by exists true|apply normalize_number].
Qed.

(** ** Integers *)

Lemma digits_bounds p : 2 ^ (Zpos (digits2_pos p) - 1) <= Zpos p < 2 ^ Zpos (digits2_pos p).
Proof.
  induction p as [p IH|p IH|]; cbn [digits2_pos]; [| |done];
    rewrite Pos2Z.inj_succ; (replace (Z.succ (Zpos (digits2_pos p)) - 1) with (Z.succ (Zpos (digits2_pos p) - 1)) by lia); rewrite !Z.pow_succ_r by lia; lia.
Qed.

Lemma digits_at_most p n : 0 <= n -> Zpos p < 2 ^ n -> Zpos (digits2_pos p) <= n.
Proof.
  intros Hn Hp. destruct (Z.le_gt_cases (Zpos (digits2_pos p)) n) as [|H]; [done|].
  pose proof (proj1 (digits_bounds p)). pose proof (Z.pow_le_mono_r 2 n (Zpos (digits2_pos p) - 1) ltac:(lia) ltac:(lia)). lia.
Qed.

(** A shift of rounding leaves something, and is short. *)
Lemma shr_fexp_positive p e : -1000 <= e -> Zpos p < 2 ^ 65 ->
  let n := Z.max 0 (fexp 53 1024 (Zdigits2 (Zpos p) + e) - e) in 0 < Zpos p / 2 ^ n <= Zpos p /\ n <= 12.
Proof.
  intros He Hp. cbv zeta. cbn [Zdigits2]. pose proof (digits_bounds p) as [Hd _]. pose proof (digits_at_most p 65 ltac:(lia) Hp) as Hm.
  unfold fexp, emin. match goal with |- context [2 ^ ?x] => set (n := x) end.
  assert (Hn : 0 <= n <= Zpos (digits2_pos p) - 1 /\ n <= 12) by lia. split; [|lia].
  pose proof (Z.pow_le_mono_r 2 n (Zpos (digits2_pos p) - 1) ltac:(lia) ltac:(lia)).
  assert (0 < 2 ^ n) by (apply Z.pow_pos_nonneg; lia). split; [apply Z.div_str_pos; lia|apply Z.div_le_upper_bound; nia].
Qed.

Lemma round_aux_positive p e l : -1000 <= e <= 100 -> Zpos p < 2 ^ 64 -> is_positive (binary_round_aux 53 1024 false (Zpos p) e l).
Proof.
  intros He Hp. unfold binary_round_aux. destruct (shr_fexp 53 1024 (Zpos p) e l) as [r e'] eqn:E1.
  pose proof (shr_fexp_value (Zpos p) e l ltac:(lia)) as [H1 H1']. rewrite E1 in H1, H1'. cbn [fst snd] in H1, H1'.
  pose proof (shr_fexp_positive p e ltac:(lia) ltac:(lia)) as [Hr Hn]. rewrite <- H1 in Hr.
  pose proof (round_even_bounds (shr_m r) (loc_of_shr_record r)) as Hb. destruct (round_nearest_even _ _) as [|q|q]; [lia| |lia].
  destruct (shr_fexp 53 1024 (Zpos q) e' loc_Exact) as [r' e''] eqn:E2.
  pose proof (shr_fexp_value (Zpos q) e' loc_Exact ltac:(lia)) as [H2 H2']. rewrite E2 in H2, H2'. cbn [fst snd] in H2, H2'.
  pose proof (shr_fexp_positive q e' ltac:(lia) ltac:(lia)) as [Hr' Hn']. rewrite <- H2 in Hr'.
  destruct (shr_m r'); [lia| |lia]. case_match eqn:Hle; [done|]. lia.
Qed.

Lemma iter_xO p d : Zpos (Pos.iter xO p d) = Zpos p * 2 ^ Zpos d.
Proof.
  induction d as [|d IH] using Pos.peano_ind; [cbn; lia|]. rewrite Pos.iter_succ, Pos2Z.inj_succ, Z.pow_succ_r by lia. lia.
Qed.

(** A positive integer is a positive number. *)
Lemma as_f64_positive n : 0 < n <= u64_max -> is_positive (as_f64 n).
Proof.
  destruct n as [|p|p]; [lia| |lia]. intros [_ Hp]. unfold u64_max in Hp. unfold as_f64, binary_normalize, binary_round, shl_align.
  pose proof (digits_bounds p) as [_ Hd]. pose proof (digits_at_most p 64 ltac:(lia) ltac:(lia)) as Hm.
  assert (Hf : fexp 53 1024 (Zpos (digits2_pos p) + 0) = Zpos (digits2_pos p) - 53) by (unfold fexp, emin; lia).
  rewrite Hf. destruct (Zpos (digits2_pos p) - 53 - 0) as [|d|d] eqn:E; [apply round_aux_positive; lia..|].
  apply round_aux_positive; [lia|]. rewrite iter_xO. replace (Zpos d) with (53 - Zpos (digits2_pos p)) by lia.
  assert (0 < 2 ^ (53 - Zpos (digits2_pos p))) by (apply Z.pow_pos_nonneg; lia).
  apply Z.lt_trans with (2 ^ Zpos (digits2_pos p) * 2 ^ (53 - Zpos (digits2_pos p))); [nia|]. rewrite <- Z.pow_add_r by lia.
  replace (_ + _) with 53 by lia. lia.
Qed.

Lemma as_f64_signed n : 0 <= n -> signed false (as_f64 n).
Proof. apply normalize_signed. Qed.

(** ** Order *)

(** Neither negative nor infinite; a zero may have either sign. *)
Definition bounded (x : f64) : Prop := match x with S754_zero _ | S754_finite false _ _ => True | _ => False end.

Lemma clamp_bounded s x high : signed s x -> is_positive high ->
  bounded (clamp x (as_f64 0) high) /\ SFleb (as_f64 0) (clamp x (as_f64 0) high) = true /\ SFleb (clamp x (as_f64 0) high) high = true.
Proof.
  intros Hx Hh. destruct high as [| | |[] mh eh]; try done. unfold clamp, SFltb, SFleb. change (as_f64 0) with (S754_zero false).
  destruct x as [s'|[]| |[] mx ex]; try done; cbn [SFcompare].
  - by rewrite Z.compare_refl, Pos.compare_cont_refl.
  - destruct (Z.compare_spec eh ex) as [->|H|H]; cbn [SFcompare].
    + destruct (Pos.compare_cont Eq mh mx) eqn:E; cbn [SFcompare]; rewrite Z.compare_refl; fold (Pos.compare mx mh); fold (Pos.compare mh mx) in E.
      * by rewrite (Pos.compare_antisym mh mx), E.
      * by rewrite Pos.compare_refl.
      * by rewrite (Pos.compare_antisym mh mx), E.
    + by rewrite Z.compare_refl, Pos.compare_cont_refl.
    + by rewrite (proj2 (Z.compare_lt_iff ex eh) H).
Qed.

(** Bounded numbers are ordered by three integers. *)
Definition rank (x : f64) : list Z :=
  match x with
  | S754_zero true => [-1; 0; 0]
  | S754_finite false m e => [1; e; Zpos m]
  | _ => [0; 0; 0]
  end.

(** Lexicographic order *)
Fixpoint lex (a b : list Z) : comparison :=
  match a, b with
  | x :: a, y :: b => match x ?= y with Eq => lex a b | c => c end
  | [], [] => Eq
  | [], _ => Lt
  | _, [] => Gt
  end.

Lemma lex_antisym a b : lex b a = CompOpp (lex a b).
Proof.
  revert b. induction a as [|x a IH]; intros [|y b]; cbn; [done..|]. rewrite (Z.compare_antisym x y). destruct (x ?= y); cbn; [apply IH|done|done].
Qed.

Lemma lex_refl a : lex a a = Eq.
Proof. induction a as [|x a IH]; cbn; [done|by rewrite Z.compare_refl]. Qed.

Lemma lex_trans a b c : lex a b <> Gt -> lex b c <> Gt -> lex a c <> Gt.
Proof.
  revert b c. induction a as [|x a IH]; intros [|y b] [|z c]; cbn; try done.
  destruct (Z.compare_spec x y) as [->|H|H], (Z.compare_spec y z) as [->|H'|H']; try done.
  - eauto.
  - by rewrite (proj2 (Z.compare_lt_iff x z) H).
  - intros _ _. by rewrite (proj2 (Z.compare_lt_iff x z) ltac:(lia)).
Qed.

Lemma lex_app a b c d : length a = length b -> lex (a ++ c) (b ++ d) = match lex a b with Eq => lex c d | r => r end.
Proof.
  revert b. induction a as [|x a IH]; intros [|y b] [=]; cbn; [done|]. destruct (x ?= y); [by apply IH|done..].
Qed.

Lemma total_cmp_lex x y : bounded x -> bounded y -> total_cmp x y = lex (rank x) (rank y).
Proof.
  destruct x as [[]| | |[] mx ex], y as [[]| | |[] my ey]; try done; intros _ _; cbn [total_cmp SFcompare rank lex Z.compare]; try done.
  destruct (ex ?= ey); [|done..]. change (Pos.compare_cont Eq mx my) with (mx ?= my)%positive. by destruct (mx ?= my)%positive.
Qed.
