(* ===== verification/Reliability.v ===== *)
(** * The reliability monitor of the Linux application

    linux-gui/src-tauri/src/reliability.rs: the counters a helper prints are accumulated per
    profile and protocol, kept in a file, and compared to recommend a protocol.

    JSON is a parameter; the file is in a directory of GuiProfiles.v and written as there.
    Rates and scores are the floating-point numbers of Float64.v.

    The theorems: a session adds its last counters to the totals, once, however often it is
    observed; scores lie between 0 and 100, and the recommended protocol is the best of those
    with enough data. *)

From Stdlib Require Import SpecFloat.
From S2P Require Import Prelude Float64 Protocol Text Replay Crypto DataPlane Morph Speedy Config ClientWire Handshake Effects Flow WinNetwork AppPaths Profile GuiProfiles.

Definition FORMAT_VERSION : Z := 1.
Definition MINIMUM_OBSERVATION_SECONDS : Z := 5 * 60.
Definition MINIMUM_KEEPALIVES : Z := 20.

Record RuntimeMetrics := mkMetrics {
  m_uptime_seconds : Z;
  m_outgoing_packets : Z;
  m_incoming_packets : Z;
  m_outgoing_drops : Z;
  m_keepalives_sent : Z;
  m_keepalive_responses : Z;
  m_keepalive_timeouts : Z;
  m_reconnects : Z;
  m_reconnect_failures : Z;
  m_peer_unreachable : Z;
  m_migrations : Z;
  m_keepalive_rtt_total_ms : Z;
  m_keepalive_rtt_samples : Z;
  m_last_keepalive_rtt_ms : Z;
  m_max_keepalive_rtt_ms : Z;
}.

Definition no_metrics : RuntimeMetrics := mkMetrics 0 0 0 0 0 0 0 0 0 0 0 0 0 0 0.

Definition delta (self previous : RuntimeMetrics) : RuntimeMetrics := {|
  m_uptime_seconds := sat_sub (m_uptime_seconds self) (m_uptime_seconds previous);
  m_outgoing_packets := sat_sub (m_outgoing_packets self) (m_outgoing_packets previous);
  m_incoming_packets := sat_sub (m_incoming_packets self) (m_incoming_packets previous);
  m_outgoing_drops := sat_sub (m_outgoing_drops self) (m_outgoing_drops previous);
  m_keepalives_sent := sat_sub (m_keepalives_sent self) (m_keepalives_sent previous);
  m_keepalive_responses := sat_sub (m_keepalive_responses self) (m_keepalive_responses previous);
  m_keepalive_timeouts := sat_sub (m_keepalive_timeouts self) (m_keepalive_timeouts previous);
  m_reconnects := sat_sub (m_reconnects self) (m_reconnects previous);
  m_reconnect_failures := sat_sub (m_reconnect_failures self) (m_reconnect_failures previous);
  m_peer_unreachable := sat_sub (m_peer_unreachable self) (m_peer_unreachable previous);
  m_migrations := sat_sub (m_migrations self) (m_migrations previous);
  m_keepalive_rtt_total_ms := sat_sub (m_keepalive_rtt_total_ms self) (m_keepalive_rtt_total_ms previous);
  m_keepalive_rtt_samples := sat_sub (m_keepalive_rtt_samples self) (m_keepalive_rtt_samples previous);
  m_last_keepalive_rtt_ms := m_last_keepalive_rtt_ms self;
  m_max_keepalive_rtt_ms := m_max_keepalive_rtt_ms self;
|}.

Record ModeTotals := mkTotals {
  t_sessions : Z;
  t_observed_seconds : Z;
  t_outgoing_packets : Z;
  t_incoming_packets : Z;
  t_outgoing_drops : Z;
  t_keepalives_sent : Z;
  t_keepalive_responses : Z;
  t_keepalive_timeouts : Z;
  t_reconnects : Z;
  t_reconnect_failures : Z;
  t_peer_unreachable : Z;
  t_migrations : Z;
  t_keepalive_rtt_total_ms : Z;
  t_keepalive_rtt_samples : Z;
  t_max_keepalive_rtt_ms : Z;
  t_updated_at : Z;
}.

Definition no_totals : ModeTotals := mkTotals 0 0 0 0 0 0 0 0 0 0 0 0 0 0 0 0.

(** [+=] wraps in a release build. *)
Definition totals_add (now : Z) (self : ModeTotals) (d : RuntimeMetrics) (first_observation : bool) : ModeTotals := {|
  t_sessions := wrap64 (t_sessions self + if first_observation then 1 else 0);
  t_observed_seconds := wrap64 (t_observed_seconds self + m_uptime_seconds d);
  t_outgoing_packets := wrap64 (t_outgoing_packets self + m_outgoing_packets d);
  t_incoming_packets := wrap64 (t_incoming_packets self + m_incoming_packets d);
  t_outgoing_drops := wrap64 (t_outgoing_drops self + m_outgoing_drops d);
  t_keepalives_sent := wrap64 (t_keepalives_sent self + m_keepalives_sent d);
  t_keepalive_responses := wrap64 (t_keepalive_responses self + m_keepalive_responses d);
  t_keepalive_timeouts := wrap64 (t_keepalive_timeouts self + m_keepalive_timeouts d);
  t_reconnects := wrap64 (t_reconnects self + m_reconnects d);
  t_reconnect_failures := wrap64 (t_reconnect_failures self + m_reconnect_failures d);
  t_peer_unreachable := wrap64 (t_peer_unreachable self + m_peer_unreachable d);
  t_migrations := wrap64 (t_migrations self + m_migrations d);
  t_keepalive_rtt_total_ms := wrap64 (t_keepalive_rtt_total_ms self + m_keepalive_rtt_total_ms d);
  t_keepalive_rtt_samples := wrap64 (t_keepalive_rtt_samples self + m_keepalive_rtt_samples d);
  t_max_keepalive_rtt_ms := Z.max (t_max_keepalive_rtt_ms self) (m_max_keepalive_rtt_ms d);
  t_updated_at := now;
|}.

Definition protocol_key (p : ClientProtocol) : str :=
  match p with
  | Legacy => text "legacy"
  | SpeedyProtocol => text "speedy"
  | MorphQuiet => text "morph_quiet"
  | MorphBalanced => text "morph_balanced"
  | MorphParanoid => text "morph_paranoid"
  end.

Definition protocol_label (p : ClientProtocol) : str :=
  match p with
  | Legacy => text "Legacy"
  | SpeedyProtocol => text "Speedy"
  | MorphQuiet => text "Morph Quiet"
  | MorphBalanced => text "Morph Balanced"
  | MorphParanoid => text "Morph Paranoid"
  end.

Definition ALL_PROTOCOLS : list ClientProtocol := [Legacy; SpeedyProtocol; MorphQuiet; MorphBalanced; MorphParanoid].

(** Profiles and their modes by name. *)
Record StoredDiagnostics := mkDiagnostics { sd_version : Z; sd_profiles : gmap (list Z) (gmap (list Z) ModeTotals) }.

Record ActiveSession := mkActive { as_profile_id : str; as_protocol : ClientProtocol; as_previous : RuntimeMetrics; as_observed : bool }.

Record ReliabilityMonitor := mkMonitor { rm_has_path : bool; rm_stored : StoredDiagnostics; rm_active : option ActiveSession }.

(** [load]; [file] is what could be read. *)
Definition load (from_json : str -> option StoredDiagnostics) (has_path : bool) (file : option str) : ReliabilityMonitor :=
  let stored := match (if has_path then file else None) ≫= from_json with
                | Some stored => if sd_version stored =? FORMAT_VERSION then Some stored else None
                | None => None
                end in
  mkMonitor has_path (default (mkDiagnostics FORMAT_VERSION ∅) stored) None.

Definition begin (profile_id : str) (protocol : ClientProtocol) (m : ReliabilityMonitor) : ReliabilityMonitor :=
  mkMonitor (rm_has_path m) (rm_stored m) (Some (mkActive profile_id protocol no_metrics false)).

Definition totals_of (m : ReliabilityMonitor) (profile_id : str) (protocol : ClientProtocol) : ModeTotals :=
  default no_totals (default ∅ (sd_profiles (rm_stored m) !! profile_id) !! protocol_key protocol).

Definition put_totals (profile_id : str) (protocol : ClientProtocol) (t : ModeTotals) (d : StoredDiagnostics) : StoredDiagnostics :=
  mkDiagnostics (sd_version d)
    (<[profile_id := <[protocol_key protocol := t]> (default ∅ (sd_profiles d !! profile_id))]> (sd_profiles d)).

(** [observe] up to the saving; [now] is the time of the clock in seconds. *)
Definition observe (now : Z) (profile_id : str) (protocol : ClientProtocol) (current : RuntimeMetrics) (m : ReliabilityMonitor) : ReliabilityMonitor :=
  let fresh := mkActive profile_id protocol no_metrics false in
  let active :=
    match rm_active m with
    | Some active => if bool_decide (as_profile_id active = profile_id) && bool_decide (as_protocol active = protocol) then active else fresh
    | None => fresh
    end in
  let d := delta current (as_previous active) in
  let totals := totals_add now (totals_of m profile_id protocol) d (negb (as_observed active)) in
  mkMonitor (rm_has_path m) (put_totals profile_id protocol totals (rm_stored m)) (Some (mkActive (as_profile_id active) (as_protocol active) current true)).

Definition clear_profile (profile_id : str) (m : ReliabilityMonitor) : ReliabilityMonitor :=
  mkMonitor (rm_has_path m) (mkDiagnostics (sd_version (rm_stored m)) (delete profile_id (sd_profiles (rm_stored m))))
    (match rm_active m with
     | Some active => Some (if bool_decide (as_profile_id active = profile_id) then mkActive (as_profile_id active) (as_protocol active) (as_previous active) false else active)
     | None => None
     end).

(** [save]; whether the directory exists is the truth. *)
Section Save.
Context `{U : Uuids} (to_json : StoredDiagnostics -> option str) (replies : nat -> option reply).
Notation "x <- m ; k" := (lbind m (fun x => k)) (at level 100, m at next level, right associativity).

Definition DIAGNOSTICS : str := text "reliability-v1.json".

Definition save (fresh : Uuid) (m : ReliabilityMonitor) : Effects.L (option (gmap (list Z) (list Z))) unit :=
  if rm_has_path m then
    d <- gets (fun d => d);
    _ <- (match d with Some _ => lret tt | None => create_dir_all replies end);
    let temporary := temporary_name DIAGNOSTICS fresh in
    r <- catch (
      contents <- lres (ok_or (to_json (rm_stored m)) ClientError.Platform);
      GuiProfiles.replace_file replies temporary DIAGNOSTICS contents);
    match r with
    | Ok _ => lret tt
    | Err e => _ <- ignored (file_call replies (fmap (delete temporary))); lthrow e
    | Panic => lres Panic
    end
  else lret tt.

End Save.

(** ** The summary *)

Definition percentage (value total : Z) : f64 :=
  if total =? 0 then as_f64 0 else fdiv (fmul (as_f64 value) (as_f64 100)) (as_f64 total).

Definition hourly (value seconds : Z) : f64 :=
  if seconds =? 0 then as_f64 0 else fdiv (fmul (as_f64 value) (as_f64 3600)) (as_f64 seconds).

Record ModeSummary := mkModeSummary {
  ms_protocol : str;
  ms_label : str;
  ms_sessions : Z;
  ms_observed_seconds : Z;
  ms_outgoing_packets : Z;
  ms_incoming_packets : Z;
  ms_outgoing_drops : Z;
  ms_keepalives_sent : Z;
  ms_keepalive_responses : Z;
  ms_keepalive_timeouts : Z;
  ms_loss_percent : f64;
  ms_average_rtt_ms : Z;
  ms_max_rtt_ms : Z;
  ms_reconnects : Z;
  ms_reconnects_per_hour : f64;
  ms_reconnect_failures : Z;
  ms_peer_unreachable : Z;
  ms_migrations : Z;
  ms_stability_score : f64;
  ms_enough_data : bool;
  ms_updated_at : Z;
}.

(** 3.5 *)
Definition three_and_a_half : f64 := fdiv (as_f64 7) (as_f64 2).

Definition stability_penalty (t : ModeTotals) : f64 :=
  fadd (fadd (fadd (fmul (percentage (t_keepalive_timeouts t) (sat_add64 (t_keepalive_responses t) (t_keepalive_timeouts t))) three_and_a_half)
                   (fmul (hourly (t_reconnects t) (t_observed_seconds t)) (as_f64 8)))
             (fmul (hourly (t_reconnect_failures t) (t_observed_seconds t)) (as_f64 12)))
       (fmul (hourly (t_peer_unreachable t) (t_observed_seconds t)) (as_f64 2)).

Definition from_totals (protocol : ClientProtocol) (t : ModeTotals) : ModeSummary := {|
  ms_protocol := protocol_key protocol;
  ms_label := protocol_label protocol;
  ms_sessions := t_sessions t;
  ms_observed_seconds := t_observed_seconds t;
  ms_outgoing_packets := t_outgoing_packets t;
  ms_incoming_packets := t_incoming_packets t;
  ms_outgoing_drops := t_outgoing_drops t;
  ms_keepalives_sent := t_keepalives_sent t;
  ms_keepalive_responses := t_keepalive_responses t;
  ms_keepalive_timeouts := t_keepalive_timeouts t;
  ms_loss_percent := percentage (t_keepalive_timeouts t) (sat_add64 (t_keepalive_responses t) (t_keepalive_timeouts t));
  ms_average_rtt_ms := if t_keepalive_rtt_samples t =? 0 then 0 else t_keepalive_rtt_total_ms t / t_keepalive_rtt_samples t;
  ms_max_rtt_ms := t_max_keepalive_rtt_ms t;
  ms_reconnects := t_reconnects t;
  ms_reconnects_per_hour := hourly (t_reconnects t) (t_observed_seconds t);
  ms_reconnect_failures := t_reconnect_failures t;
  ms_peer_unreachable := t_peer_unreachable t;
  ms_migrations := t_migrations t;
  ms_stability_score := clamp (fsub (as_f64 100) (stability_penalty t)) (as_f64 0) (as_f64 100);
  ms_enough_data := (MINIMUM_OBSERVATION_SECONDS <=? t_observed_seconds t) && (MINIMUM_KEEPALIVES <=? t_keepalives_sent t);
  ms_updated_at := t_updated_at t;
|}.

(** The comparison of [sort_by], and the sort, which is stable. *)
Definition compare_modes (left right : ModeSummary) : comparison :=
  match total_cmp (ms_stability_score right) (ms_stability_score left) with
  | Eq => match ms_average_rtt_ms left ?= ms_average_rtt_ms right with
          | Eq => ms_observed_seconds right ?= ms_observed_seconds left
          | c => c
          end
  | c => c
  end.

Fixpoint insert_sorted (x : ModeSummary) (l : list ModeSummary) : list ModeSummary :=
  match l with
  | [] => [x]
  | y :: l' => match compare_modes x y with Gt => y :: insert_sorted x l' | _ => x :: l end
  end.
Definition sort_modes (l : list ModeSummary) : list ModeSummary := foldr insert_sorted [] l.

Record ReliabilitySummary := mkReliability { rs_best_protocol : option str; rs_eligible_modes : Z; rs_modes : list ModeSummary }.

Definition monitor_summary (profile_id : str) (m : ReliabilityMonitor) : ReliabilitySummary :=
  let modes := map (fun protocol => from_totals protocol (totals_of m profile_id protocol)) ALL_PROTOCOLS in
  let eligible := sort_modes (List.filter ms_enough_data modes) in
  mkReliability (match eligible with best :: _ :: _ => Some (ms_protocol best) | _ => None end) (len eligible) modes.

(** ** Sessions add up *)

(** The counters of [b] are not behind those of [a]. *)
Definition not_behind (a b : RuntimeMetrics) : Prop :=
  0 <= m_uptime_seconds a <= m_uptime_seconds b /\
  0 <= m_outgoing_packets a <= m_outgoing_packets b /\
  0 <= m_incoming_packets a <= m_incoming_packets b /\
  0 <= m_outgoing_drops a <= m_outgoing_drops b /\
  0 <= m_keepalives_sent a <= m_keepalives_sent b /\
  0 <= m_keepalive_responses a <= m_keepalive_responses b /\
  0 <= m_keepalive_timeouts a <= m_keepalive_timeouts b /\
  0 <= m_reconnects a <= m_reconnects b /\
  0 <= m_reconnect_failures a <= m_reconnect_failures b /\
  0 <= m_peer_unreachable a <= m_peer_unreachable b /\
  0 <= m_migrations a <= m_migrations b /\
  0 <= m_keepalive_rtt_total_ms a <= m_keepalive_rtt_total_ms b /\
  0 <= m_keepalive_rtt_samples a <= m_keepalive_rtt_samples b /\
  0 <= m_max_keepalive_rtt_ms a <= m_max_keepalive_rtt_ms b.

(** The totals with a session of these counters added. *)
Definition with_session (now : Z) (t : ModeTotals) (m : RuntimeMetrics) : ModeTotals := {|
  t_sessions := t_sessions t + 1;
  t_observed_seconds := t_observed_seconds t + m_uptime_seconds m;
  t_outgoing_packets := t_outgoing_packets t + m_outgoing_packets m;
  t_incoming_packets := t_incoming_packets t + m_incoming_packets m;
  t_outgoing_drops := t_outgoing_drops t + m_outgoing_drops m;
  t_keepalives_sent := t_keepalives_sent t + m_keepalives_sent m;
  t_keepalive_responses := t_keepalive_responses t + m_keepalive_responses m;
  t_keepalive_timeouts := t_keepalive_timeouts t + m_keepalive_timeouts m;
  t_reconnects := t_reconnects t + m_reconnects m;
  t_reconnect_failures := t_reconnect_failures t + m_reconnect_failures m;
  t_peer_unreachable := t_peer_unreachable t + m_peer_unreachable m;
  t_migrations := t_migrations t + m_migrations m;
  t_keepalive_rtt_total_ms := t_keepalive_rtt_total_ms t + m_keepalive_rtt_total_ms m;
  t_keepalive_rtt_samples := t_keepalive_rtt_samples t + m_keepalive_rtt_samples m;
  t_max_keepalive_rtt_ms := Z.max (t_max_keepalive_rtt_ms t) (m_max_keepalive_rtt_ms m);
  t_updated_at := now;
|}.

Definition has_room (t : ModeTotals) (m : RuntimeMetrics) : Prop :=
  0 <= t_sessions t < u64_max /\ 0 <= t_max_keepalive_rtt_ms t /\
  (0 <= t_observed_seconds t /\ t_observed_seconds t + m_uptime_seconds m <= u64_max) /\
  (0 <= t_outgoing_packets t /\ t_outgoing_packets t + m_outgoing_packets m <= u64_max) /\
  (0 <= t_incoming_packets t /\ t_incoming_packets t + m_incoming_packets m <= u64_max) /\
  (0 <= t_outgoing_drops t /\ t_outgoing_drops t + m_outgoing_drops m <= u64_max) /\
  (0 <= t_keepalives_sent t /\ t_keepalives_sent t + m_keepalives_sent m <= u64_max) /\
  (0 <= t_keepalive_responses t /\ t_keepalive_responses t + m_keepalive_responses m <= u64_max) /\
  (0 <= t_keepalive_timeouts t /\ t_keepalive_timeouts t + m_keepalive_timeouts m <= u64_max) /\
  (0 <= t_reconnects t /\ t_reconnects t + m_reconnects m <= u64_max) /\
  (0 <= t_reconnect_failures t /\ t_reconnect_failures t + m_reconnect_failures m <= u64_max) /\
  (0 <= t_peer_unreachable t /\ t_peer_unreachable t + m_peer_unreachable m <= u64_max) /\
  (0 <= t_migrations t /\ t_migrations t + m_migrations m <= u64_max) /\
  (0 <= t_keepalive_rtt_total_ms t /\ t_keepalive_rtt_total_ms t + m_keepalive_rtt_total_ms m <= u64_max) /\
  (0 <= t_keepalive_rtt_samples t /\ t_keepalive_rtt_samples t + m_keepalive_rtt_samples m <= u64_max).

Lemma not_behind_trans a b c : not_behind a b -> not_behind b c -> not_behind a c.
Proof. unfold not_behind. intros Ha Hb. repeat (destruct Ha as [? Ha]); repeat (destruct Hb as [? Hb]). repeat split; lia. Qed.

Lemma has_room_before t a b : not_behind a b -> has_room t b -> has_room t a.
Proof. unfold not_behind, has_room. intros Ha Hb. repeat (destruct Ha as [? Ha]); repeat (destruct Hb as [? Hb]). repeat split; lia. Qed.

Lemma wrap_sum x a b : 0 <= x -> 0 <= b <= a -> x + a <= u64_max -> wrap64 (x + b + sat_sub a b) = x + a.
Proof. intros Hx Hb Hs. unfold wrap64, sat_sub, u64_max in *. rewrite Z.mod_small; lia. Qed.

Ltac sums := repeat match goal with H : _ /\ _ |- _ => destruct H end.

Lemma first_observation now t m : not_behind no_metrics m -> has_room t m -> totals_add now t (delta m no_metrics) true = with_session now t m.
Proof.
  intros Hb Hr. unfold not_behind, no_metrics in Hb. cbn in Hb. unfold has_room in Hr. sums. unfold totals_add, with_session, delta, no_metrics. cbn.
  f_equal; try (unfold wrap64, sat_sub, u64_max in *; rewrite Z.mod_small; lia).
Qed.

Lemma next_observation now before t m m' : not_behind m m' -> has_room t m' ->
  totals_add now (with_session before t m) (delta m' m) false = with_session now t m'.
Proof.
  intros Hb Hr. unfold not_behind in Hb. unfold has_room in Hr. sums. unfold totals_add, with_session, delta. cbn.
  f_equal; try (apply wrap_sum; lia); [|lia]. unfold wrap64, u64_max in *. rewrite Z.mod_small; lia.
Qed.

Section Session.
Context (p : str) (k : ClientProtocol).

(** The monitor has observed [m] of a session that began at totals [t]. *)
Definition in_step (now : Z) (t : ModeTotals) (m : RuntimeMetrics) (x : ReliabilityMonitor) : Prop :=
  totals_of x p k = with_session now t m /\ rm_active x = Some (mkActive p k m true).

Lemma observe_active now current x a : rm_active x = Some a -> as_profile_id a = p -> as_protocol a = k ->
  totals_of (observe now p k current x) p k = totals_add now (totals_of x p k) (delta current (as_previous a)) (negb (as_observed a)) /\
  rm_active (observe now p k current x) = Some (mkActive p k current true).
Proof.
  intros Ha Hp Hk. unfold observe. rewrite Ha, Hp, Hk, !bool_decide_eq_true_2 by done. cbn [andb rm_active]. rewrite Hp, Hk. split; [|done].
  unfold totals_of at 1, put_totals. cbn [rm_stored sd_profiles]. rewrite lookup_insert_eq. cbn [from_option id]. by rewrite lookup_insert_eq.
Qed.

(** The counters a session prints, none behind the one before. *)
Fixpoint counts_up (previous : RuntimeMetrics) (ms : list (Z * RuntimeMetrics)) : Prop :=
  match ms with [] => True | (_, m) :: ms => not_behind previous m /\ counts_up m ms end.

Definition observe_all (ms : list (Z * RuntimeMetrics)) (x : ReliabilityMonitor) : ReliabilityMonitor :=
  fold_left (fun x '(now, m) => observe now p k m x) ms x.

Lemma last_not_behind m ms d : counts_up m ms -> not_behind m m -> not_behind m (snd (List.last ms (d, m))).
Proof.
  revert m. induction ms as [|[now m1] ms IH]; intros m Hc Hm; [done|]. destruct Hc as [H1 Hc].
  assert (Hm1 : not_behind m1 m1) by (revert H1; unfold not_behind; intros H1; repeat (destruct H1 as [? H1]); repeat split; lia).
  destruct ms as [|x ms]; [done|]. change (List.last ((now, m1) :: x :: ms) (d, m)) with (List.last (x :: ms) (d, m)).
  apply (not_behind_trans m m1); [done|]. specialize (IH m1 Hc Hm1).
  replace (List.last (x :: ms) (d, m)) with (List.last (x :: ms) (d, m1)); [done|]. clear. revert x. induction ms as [|y ms IH]; intros x; [done|apply (IH y)].
Qed.

Lemma in_step_all now t m ms x : in_step now t m x -> counts_up m ms -> not_behind m m -> has_room t (snd (List.last ms (now, m))) ->
  in_step (fst (List.last ms (now, m))) t (snd (List.last ms (now, m))) (observe_all ms x).
Proof.
  revert now m x. induction ms as [|[now1 m1] ms IH]; intros now m x Hx Hc Hm Hr; [done|]. destruct Hc as [H1 Hc].
  assert (Hm1 : not_behind m1 m1) by (revert H1; unfold not_behind; intros H1; repeat (destruct H1 as [? H1]); repeat split; lia).
  assert (Hl : List.last ((now1, m1) :: ms) (now, m) = List.last ms (now1, m1)).
  { clear. destruct ms as [|y ms]; [done|]. change (List.last ((now1, m1) :: y :: ms) (now, m)) with (List.last (y :: ms) (now, m)).
    revert y. induction ms as [|z ms IH]; intros y; [done|apply (IH z)]. }
  rewrite Hl in *. cbn [observe_all fold_left]. apply IH; [|done|done|done].
  destruct Hx as [Ht Ha]. destruct (observe_active now1 m1 x _ Ha eq_refl eq_refl) as [Ht1 Ha1]. split; [|done].
  rewrite Ht1, Ht. cbn [as_previous as_observed negb]. apply next_observation; [done|]. eapply has_room_before; [|exact Hr].
  by apply last_not_behind.
Qed.

(** A session adds what it counted, once.  When a session has begun and prints counters that
    never go back, the totals of its profile and protocol are those before with one session
    and its last counters added, however often it was observed; as long as they fit 64 bits. *)
Theorem sessions_add_up x now m ms :
  not_behind no_metrics m -> counts_up m ms -> has_room (totals_of x p k) (snd (List.last ms (now, m))) ->
  totals_of (observe_all ((now, m) :: ms) (begin p k x)) p k =
  with_session (fst (List.last ms (now, m))) (totals_of x p k) (snd (List.last ms (now, m))).
Proof.
  intros H0 Hc Hr. assert (Hm : not_behind m m) by (revert H0; unfold not_behind, no_metrics; cbn; intros H1; repeat (destruct H1 as [? H1]); repeat split; lia).
  cbn [observe_all fold_left]. apply in_step_all; [|done|done|done].
  destruct (observe_active now m (begin p k x) (mkActive p k no_metrics false) eq_refl eq_refl eq_refl) as [Ht Ha]. split; [|done].
  rewrite Ht. cbn [as_previous as_observed negb]. apply first_observation; [done|]. eapply has_room_before; [|exact Hr]. by apply last_not_behind.
Qed.

End Session.

(** ** Scores and the recommendation *)

Definition wf_totals (t : ModeTotals) : Prop :=
  0 <= t_observed_seconds t <= u64_max /\ 0 <= t_keepalive_responses t /\ 0 <= t_keepalive_timeouts t /\
  0 <= t_reconnects t /\ 0 <= t_reconnect_failures t /\ 0 <= t_peer_unreachable t.

Lemma ratio_signed value factor total : 0 <= value -> 0 <= total <= u64_max -> is_positive factor ->
  signed false (if total =? 0 then as_f64 0 else fdiv (fmul (as_f64 value) factor) (as_f64 total)).
Proof.
  intros Hv Ht Hf. case_match; [done|]. apply fdiv_signed; [apply fmul_signed; [by apply as_f64_signed|done]|apply as_f64_positive; lia].
Qed.

Lemma penalty_signed t : wf_totals t -> signed false (stability_penalty t).
Proof.
  intros (? & ? & ? & ? & ? & ?). unfold stability_penalty, percentage, hourly.
  repeat apply fadd_signed; apply fmul_signed; try done; apply ratio_signed; try done; unfold sat_add64, u64_max; lia.
Qed.

(** The score of a mode is a number from 0 to 100, never a NaN. *)
Lemma score_bounded protocol t : wf_totals t ->
  bounded (ms_stability_score (from_totals protocol t)) /\
  SFleb (as_f64 0) (ms_stability_score (from_totals protocol t)) = true /\ SFleb (ms_stability_score (from_totals protocol t)) (as_f64 100) = true.
Proof.
  intros Ht. destruct (fsub_number (as_f64 100) (stability_penalty t)) as [s Hs]; [done|by apply penalty_signed|]. by eapply clamp_bounded.
Qed.

(** The comparison is that of a key, from the best mode to the worst. *)
Definition mode_key (m : ModeSummary) : list Z := map Z.opp (rank (ms_stability_score m)) ++ [ms_average_rtt_ms m; - ms_observed_seconds m].

Lemma lex_opp a b : length a = length b -> lex (map Z.opp a) (map Z.opp b) = lex b a.
Proof.
  revert b. induction a as [|x a IH]; intros [|y b] [=]; cbn [map lex]; [done|]. rewrite Z.compare_opp. destruct (y ?= x); [by apply IH|done..].
Qed.

Lemma rank_length x : length (rank x) = 3%nat.
Proof. by destruct x as [[]| | |[]]. Qed.

Lemma compare_modes_lex a b : bounded (ms_stability_score a) -> bounded (ms_stability_score b) -> compare_modes a b = lex (mode_key a) (mode_key b).
Proof.
  intros Ha Hb. unfold compare_modes, mode_key. rewrite lex_app by (by rewrite !length_map, !rank_length).
  rewrite lex_opp by (by rewrite !rank_length). rewrite (total_cmp_lex _ _ Hb Ha). destruct (lex _ _); [|done..]. cbn [lex].
  rewrite Z.compare_opp. destruct (_ ?= _); [|done..]. by destruct (_ ?= _).
Qed.

Lemma insert_sorted_member x l y : y ∈ insert_sorted x l <-> y = x \/ y ∈ l.
Proof. induction l as [|z l IH]; cbn; [set_solver|]. case_match; set_solver. Qed.

Lemma sort_modes_member l y : y ∈ sort_modes l <-> y ∈ l.
Proof. induction l as [|x l IH]; cbn; [done|]. by rewrite insert_sorted_member, elem_of_cons, IH. Qed.

(** The head of a sorted list is before all others. *)
Lemma sorted_head l best rest : Forall (fun m => bounded (ms_stability_score m)) l -> sort_modes l = best :: rest ->
  forall m, m ∈ l -> lex (mode_key best) (mode_key m) <> Gt.
Proof.
  revert best rest. induction l as [|x l IH]; intros best rest Hl E m Hm; [done|]. apply List.Forall_cons_iff in Hl as [Hx Hl]. cbn in E. fold (sort_modes l) in E.
  assert (Href : forall a, lex a a <> Gt) by (intros a; by rewrite lex_refl).
  destruct (sort_modes l) as [|y l'] eqn:El; cbn in E.
  - injection E as <- <-. assert (m = x) as ->; [|apply Href]. apply elem_of_cons in Hm as [->|Hm]; [done|]. rewrite <- sort_modes_member, El in Hm. by apply not_elem_of_nil in Hm.
  - assert (Hy : bounded (ms_stability_score y)).
    { rewrite List.Forall_forall in Hl. apply Hl, list_elem_of_In. rewrite <- sort_modes_member, El. by left. }
    rewrite (compare_modes_lex _ _ Hx Hy) in E. specialize (IH y l' Hl eq_refl).
    assert (Hbest : (best = x /\ lex (mode_key x) (mode_key y) <> Gt) \/ (best = y /\ lex (mode_key y) (mode_key x) <> Gt)).
    { rewrite (lex_antisym (mode_key x) (mode_key y)). destruct (lex (mode_key x) (mode_key y)); injection E as <- _; [left|left|right]; done. }
    apply elem_of_cons in Hm as [->|Hm]; destruct Hbest as [[-> H]|[-> H]]; [apply Href|done|by eapply lex_trans; [exact H|apply IH]|by apply IH].
Qed.

(** A recommendation is one of the protocols, with enough observed time and keepalives; it is
    only made when there are two to choose from, and no other one with enough data comes
    before it: by a higher score, or the same and a shorter round trip, or both the same and
    a longer observation. *)
Theorem recommendation_is_best profile m key :
  (forall protocol, wf_totals (totals_of m profile protocol)) ->
  rs_best_protocol (monitor_summary profile m) = Some key ->
  2 <= rs_eligible_modes (monitor_summary profile m) /\
  exists best, best ∈ rs_modes (monitor_summary profile m) /\ ms_protocol best = key /\
    MINIMUM_OBSERVATION_SECONDS <= ms_observed_seconds best /\ MINIMUM_KEEPALIVES <= ms_keepalives_sent best /\
    forall other, other ∈ rs_modes (monitor_summary profile m) -> ms_enough_data other = true -> compare_modes best other <> Gt.
Proof.
  intros Hwf. unfold monitor_summary. cbn [rs_best_protocol rs_eligible_modes rs_modes].
  set (modes := map _ ALL_PROTOCOLS). destruct (sort_modes _) as [|best [|second rest]] eqn:E; [done..|].
  intros [= <-]. split; [unfold len; cbn; lia|].
  assert (Hall : Forall (fun m => bounded (ms_stability_score m)) modes).
  { apply List.Forall_forall. intros x Hx. apply in_map_iff in Hx as (protocol & <- & _). by apply score_bounded. }
  assert (Hf : Forall (fun m => bounded (ms_stability_score m)) (List.filter ms_enough_data modes)).
  { rewrite List.Forall_forall in Hall |- *. intros x Hx. apply filter_In in Hx as [Hx _]. by apply Hall. }
  assert (Hb : best ∈ List.filter ms_enough_data modes) by (rewrite <- sort_modes_member, E; by left).
  pose proof Hb as Hb'. apply list_elem_of_In, filter_In in Hb' as [Hin Hd]. apply list_elem_of_In in Hin.
  assert (Hd' : MINIMUM_OBSERVATION_SECONDS <= ms_observed_seconds best /\ MINIMUM_KEEPALIVES <= ms_keepalives_sent best).
  { apply list_elem_of_In, in_map_iff in Hin as (protocol & <- & _). cbn in Hd |- *. lia. }
  exists best. split_and!; [done|done|apply Hd'|apply Hd'|]. intros other Ho Hdo. rewrite List.Forall_forall in Hall.
  rewrite compare_modes_lex by (by apply Hall, list_elem_of_In). eapply sorted_head; [exact Hf|exact E|]. apply list_elem_of_In, filter_In. by rewrite <- list_elem_of_In.
Qed.

(** ** Concrete sessions *)

Module ToyReliability.

Definition home : str := text "home".
Definition counters (n : Z) : RuntimeMetrics := mkMetrics n n n n n n n n n n n n n n n.
Definition empty : ReliabilityMonitor := load (fun _ => None) true None.

(** Three looks at one session count it once. *)
Lemma sessions_add_up_witness :
  totals_of (observe_all home Legacy [(1, counters 5); (2, counters 7); (3, counters 9)] (begin home Legacy empty)) home Legacy =
  with_session 3 no_totals (counters 9).
Proof.
  refine (sessions_add_up home Legacy empty 1 (counters 5) [(2, counters 7); (3, counters 9)] _ _ _).
  - repeat split; vm_compute; discriminate.
  - repeat split; vm_compute; discriminate.
  - repeat split; vm_compute; try discriminate; reflexivity.
Defined.

(** Speedy lost no keepalive, the other mode one in ten. *)
Definition observed (lost : Z) : RuntimeMetrics := mkMetrics 3600 1000 1000 0 100 (100 - lost) lost 0 0 0 0 2000 100 40 0.

Example recommendation_is_best_witness :
  let busy := observe 9 home SpeedyProtocol (observed 0) (observe 8 home Legacy (observed 10) empty) in
  rs_best_protocol (monitor_summary home busy) = Some (protocol_key SpeedyProtocol) /\ 2 <= rs_eligible_modes (monitor_summary home busy).
Proof.
  intros busy. assert (H : rs_best_protocol (monitor_summary home busy) = Some (protocol_key SpeedyProtocol)) by (vm_compute; reflexivity).
  split; [exact H|]. apply (recommendation_is_best home busy (protocol_key SpeedyProtocol)); [|exact H].
  intros protocol. by destruct protocol; vm_compute; repeat split.
Defined.

(** Readers are not told apart: when a session has ended and another of the same profile and
    protocol has begun, a late line of the first is counted again from zero, and what the
    second counts is lost until it has overtaken the first. *)
Example late_line_counts_twice :
  let first := observe 1 home Legacy (counters 100) (begin home Legacy empty) in
  let second := observe 2 home Legacy (counters 101) (begin home Legacy first) in
  let third := observe 3 home Legacy (counters 60) second in
  t_outgoing_packets (totals_of second home Legacy) = 201 /\ t_outgoing_packets (totals_of third home Legacy) = 201.
Proof. vm_compute. done. Qed.

End ToyReliability.
