(* ===== verification/LinuxGui.v ===== *)
(** * The Linux application and its helper

    linux-gui/src-tauri/src/main.rs: the commands on profiles, connecting and the state shown,
    and the copy of the helper an AppImage starts; helper_runtime.rs: the lock of the helper,
    its watchdog and the identity of a process.

    Profiles are those of GuiProfiles.v and the monitor that of Reliability.v.  A command is
    one step, since nothing tells the readers of old helpers from that of the present one.
    What the system answers is an argument: a list of samples for the watchdog, a function of
    the turn for the lock.  PolicyKit, Tauri and the tray are not modelled.

    The theorems: the identity of a process is read right whatever its command is called; the
    watchdog repairs the network only when its helper is gone and no other one runs; waiting
    for the lock ends; the copied helper is complete or the old one. *)

From S2P Require Import Prelude Protocol Text Replay Crypto DataPlane Morph Speedy Config ClientWire Handshake Effects Flow WinNetwork AppPaths Profile GuiProfiles WinGui Reliability.

(** ** What the helper prints *)

Fixpoint contains (pattern s : str) : bool :=
  match strip_prefix pattern s with
  | Some _ => true
  | None => match s with [] => false | _ :: s => contains pattern s end
  end.

Definition linux_line (log_path : option str) (line : str) (current : ConnectionSnapshot) : ConnectionSnapshot :=
  if bool_decide (line = text "MOUSEVPN_STATE=connected") || bool_decide (line = text "MOUSEVPN_STATE=reconnected") || contains (text "MouseVPN connected") line then
    show_state Connected
      (if bool_decide (line = text "MOUSEVPN_STATE=reconnected") then text "Соединение восстановлено" else text "Защищённое соединение установлено") current
  else if bool_decide (line = text "MOUSEVPN_STATE=reconnecting") then show_state Connecting (text "Сеть изменилась, переподключаемся…") current
  else match strip_prefix (text "MOUSEVPN_RECONNECT_ERROR=") line with
  | Some message => show_state Connecting (text "Ждём восстановления сети: " ++ message) current
  | None =>
      match strip_prefix (text "MOUSEVPN_ERROR=") line with
      | Some message => show_state Failed (match log_path with None => message | Some path => message ++ [10] ++ text "Журнал: " ++ path end) current
      | None => current
      end
  end.

(** ** The application *)

Record LinuxApp := mkLinuxApp {
  la_child : option nat;
  la_snapshot : ConnectionSnapshot;
  la_monitor : ReliabilityMonitor;
  la_started : nat;
}.

Definition set_la_snapshot (s : ConnectionSnapshot) (a : LinuxApp) : LinuxApp := mkLinuxApp (la_child a) s (la_monitor a) (la_started a).
Definition set_la_monitor (m : ReliabilityMonitor) (a : LinuxApp) : LinuxApp := mkLinuxApp (la_child a) (la_snapshot a) m (la_started a).

(** [exits] is what [try_wait] says of a helper: an error, or how it ended, if it has;
    [spawns] whether the helper is found and started. *)
Definition linux_connect_profile (profile : option (str * ClientProtocol)) (exits : nat -> option (option bool)) (spawns : bool) (a : LinuxApp) : LinuxApp :=
  match profile with
  | None => a
  | Some (id, protocol) =>
      let start a :=
        if spawns then
          mkLinuxApp (Some (la_started a)) (mkSnapshot Connecting (text "Ожидание разрешения PolicyKit…") (Some id))
            (begin id protocol (la_monitor a)) (S (la_started a))
        else a in
      match la_child a with
      | None => start a
      | Some child =>
          match exits child with
          | None | Some None => a
          | Some (Some _) => start (mkLinuxApp None (la_snapshot a) (la_monitor a) (la_started a))
          end
      end
  end.

Definition linux_disconnect (written : bool) (a : LinuxApp) : LinuxApp :=
  match la_child a with
  | None => a
  | Some _ => if written then set_la_snapshot (show_state Disconnecting (text "Безопасно отключаем VPN…") (la_snapshot a)) a else a
  end.

Definition linux_connection_status (exits : nat -> option (option bool)) (a : LinuxApp) : LinuxApp :=
  match la_child a with
  | None => a
  | Some child =>
      match exits child with
      | Some (Some success) => mkLinuxApp None (after_exit success (la_snapshot a)) (la_monitor a) (la_started a)
      | _ => a
      end
  end.

(** One line of [read_helper_status]; [from_json] reads the metrics, [now] is the clock. *)
Definition linux_read_helper_status (from_json : str -> option RuntimeMetrics) (now : Z) (profile_id : str) (protocol : ClientProtocol)
    (log_path : option str) (line : str) (a : LinuxApp) : LinuxApp :=
  match strip_prefix (text "MOUSEVPN_METRICS=") line with
  | Some payload =>
      match from_json payload with
      | Some metrics => set_la_monitor (observe now profile_id protocol metrics (la_monitor a)) a
      | None => a
      end
  | None => set_la_snapshot (linux_line log_path line (la_snapshot a)) a
  end.

(** ** Profiles *)

Section Profiles.
Context `{U : Uuids, X : ProfileLibs, B : Base64, P : Primitives}.
Context (lower : str -> str) (to_toml : StoredProfile -> option str) (from_toml : str -> option StoredProfile) (config_dir : option str).
Context (replies : nat -> option reply).

Notation "x <- m ; k" := (lbind m (fun x => k)) (at level 100, m at next level, right associativity).
Abbreviation L := (Effects.L (option (gmap (list Z) (list Z)))) (only parsing).

Definition linux_list_profiles (entries : list str) : L (list ProfileSummary) := list_profiles lower from_toml config_dir replies entries.

Definition linux_import_profile (token password : str) (fresh fresh_temporary : Uuid) : L ProfileSummary :=
  import_profile to_toml config_dir (text "mousevpn0") replies token password fresh fresh_temporary.

Definition linux_set_profile_protocol (snapshot : ConnectionSnapshot) (id : str) (protocol : ClientProtocol) (fresh_temporary : Uuid) : L ProfileSummary :=
  WinGui.set_profile_protocol to_toml from_toml config_dir replies snapshot id protocol fresh_temporary.

(** [delete_profile] up to the monitor, which then forgets the profile *)
Definition linux_delete_profile (a : LinuxApp) (id : str) : L LinuxApp :=
  _ <- WinGui.delete_profile config_dir replies (la_snapshot a) id;
  id <- lres (normalized_id id);
  lret (set_la_monitor (clear_profile id (la_monitor a)) a).

(** ** The helper of an AppImage *)

Definition HELPER : str := text "mousevpn-helper".

(** [privileged_helper_executable] in an AppImage: [bundled] is the helper it has, and the
    directory is that of the cache; [fs::copy] creates the temporary file. *)
Definition replace_helper (temporary bundled : str) : L unit :=
  _ <- write_all replies temporary bundled;
  _ <- file_call replies (fun d => d);
  rename replies temporary HELPER.

Definition privileged_helper (bundled : option str) (fresh : Uuid) : L unit :=
  match bundled with
  | None => lthrow ClientError.Platform
  | Some bundled =>
      d <- gets (fun d => d);
      _ <- (match d with Some _ => lret tt | None => create_dir_all replies end);
      let temporary := text "mousevpn-helper.tmp-" ++ uuid_show fresh in
      r <- catch (replace_helper temporary bundled);
      match r with
      | Ok _ => lret tt
      | Err e => _ <- ignored (file_call replies (fmap (delete temporary))); lthrow e
      | Panic => lres Panic
      end
  end.

End Profiles.

(** ** The runtime of the helper *)

Definition LOCK_WAIT : Z := 2000.
Definition LOCK_POLL : Z := 50.

Inductive LockAnswer := Locked | WouldBlock | LockFails.

(** [acquire_runtime_lock]: the answers and the clock by the turn; [None]: out of turns. *)
Fixpoint acquire_runtime_lock (fuel : nat) (answers : nat -> LockAnswer) (clock : nat -> Z) (deadline : Z) (turn : nat) : option (res ClientError.t unit) :=
  match fuel with
  | O => None
  | S fuel =>
      match answers turn with
      | Locked => Some (Ok tt)
      | LockFails => Some (Err ClientError.Platform)
      | WouldBlock =>
          if deadline <=? clock turn then Some (Err ClientError.Platform)
          else acquire_runtime_lock fuel answers clock deadline (S turn)
      end
  end.

(** [str::rfind] of one character, and the text after it *)
Fixpoint after_last (c : Z) (s : str) : option str :=
  match s with
  | [] => None
  | x :: s => match after_last c s with Some rest => Some rest | None => if x =? c then Some s else None end
  end.

(** [str::split_whitespace]; [word] is the current piece, backwards. *)
Fixpoint split_words (word : str) (s : str) : list str :=
  match s with
  | [] => match word with [] => [] | _ => [rev word] end
  | c :: s => if is_whitespace c then match word with [] => split_words [] s | _ => rev word :: split_words [] s end else split_words (c :: word) s
  end.
Definition split_whitespace (s : str) : list str := split_words [] s.

(** [u64::from_str] *)
Definition parse_u64 (s : str) : option Z :=
  let digits := match s with c :: ((_ :: _) as rest) => if c =? 43 then rest else s | _ => s end in
  match digits with
  | [] => None
  | _ => n ← number digits 0; if n <=? u64_max then Some n else None
  end.

(** [process_identity] of the contents of /proc/<pid>/stat: the state and the start time. *)
Definition process_identity (stat : str) : option (Z * Z) :=
  rest ← after_last 41 stat;
  match split_whitespace rest with
  | [] => None
  | state :: fields => state ← head state; started ← fields !! 18%nat; started ← parse_u64 started; Some (state, started)
  end.

Definition is_helper (started : Z) (identity : option (Z * Z)) : bool :=
  match identity with Some (state, actual) => negb (state =? 90) && (actual =? started) | None => false end.

(** [run_watchdog]: the samples of the helper's identity, then the answer of the lock; whether
    the network is repaired.  [None] while the helper still runs. *)
Inductive WatchdogEnd := LeaveAlone | LockError | Repair.

Fixpoint run_watchdog (started : Z) (samples : list (option (Z * Z))) (lock : LockAnswer) : option WatchdogEnd :=
  match samples with
  | [] => None
  | identity :: samples =>
      if is_helper started identity then run_watchdog started samples lock
      else Some (match lock with Locked => Repair | WouldBlock => LeaveAlone | LockFails => LockError end)
  end.

(** ** The identity of a process *)

Lemma after_last_app c before rest : c ∉ rest -> after_last c (before ++ [c] ++ rest) = Some rest.
Proof.
  intros Hc. assert (Hn : after_last c rest = None).
  { induction rest as [|x rest IH]; [done|]. apply not_elem_of_cons in Hc as [Hx Hr]. cbn. rewrite (IH Hr). by rewrite (proj2 (Z.eqb_neq x c)) by congruence. }
  induction before as [|x before IH]; cbn; [by rewrite Hn, Z.eqb_refl|]. cbn in IH. by rewrite IH.
Qed.

(** A piece without white space. *)
Definition is_word (s : str) : Prop := s <> [] /\ Forall (fun c => is_whitespace c = false) s.

Lemma split_words_word word s rest : Forall (fun c => is_whitespace c = false) s -> split_words word (s ++ rest) = split_words (rev s ++ word) rest.
Proof.
  intros Hs. revert word. induction Hs as [|c s Hc Hs IH]; intros word; [done|]. cbn. rewrite Hc, IH. by rewrite <- app_assoc.
Qed.

Lemma split_words_flat words word : Forall is_word words -> word <> [] -> split_words (rev word) (flat_map (fun f => 32 :: f) words) = word :: words.
Proof.
  intros Hw. revert word. induction Hw as [|w words [Hne Hc] Hw IH]; intros word Hword.
  - cbn. rewrite rev_involutive. destruct (rev word) eqn:E; [|done]. by rewrite <- (rev_involutive word), E in Hword.
  - cbn [flat_map app split_words]. change (is_whitespace 32) with true. cbv iota. rewrite split_words_word, app_nil_r, IH, rev_involutive by done.
    destruct (rev word) eqn:E; [|done]. by rewrite <- (rev_involutive word), E in Hword.
Qed.

Lemma split_whitespace_words words : Forall is_word words -> split_whitespace (flat_map (fun f => 32 :: f) words) = words.
Proof.
  intros [|w ws [Hne Hc] Hw]%id; [done|]. unfold split_whitespace. cbn [flat_map app split_words]. change (is_whitespace 32) with true. cbv iota.
  rewrite split_words_word, app_nil_r by done. by apply split_words_flat.
Qed.

Lemma number_digits fuel n rest acc : 0 <= n < 10 ^ Z.of_nat fuel -> (0 < fuel)%nat ->
  number (digits fuel n ++ rest) acc = number rest (acc * 10 ^ Z.of_nat (length (digits fuel n)) + n).
Proof.
  revert n rest acc. induction fuel as [|fuel IH]; [lia|]. intros n rest acc Hn _. cbn [digits].
  assert (Hone : forall d s u, 0 <= d < 10 -> number ((48 + d) :: s) u = number s (u * 10 + d)).
  { intros d s u Hd. cbn. rewrite !(proj2 (Z.leb_le _ _)) by lia. cbn. f_equal. lia. }
  destruct (Z.ltb_spec n 10) as [Hs|Hb].
  - cbn [app length]. by rewrite Hone by lia.
  - assert (Hf : (0 < fuel)%nat) by (destruct fuel; [cbn in Hn; lia|lia]). rewrite Nat2Z.inj_succ, Z.pow_succ_r in Hn by lia.
    pose proof (Z.mod_pos_bound n 10 ltac:(lia)) as Hr. pose proof (Z.div_mod n 10 ltac:(lia)) as Hdm.
    rewrite <- app_assoc, IH; [|split; [apply Z.div_pos; lia|apply Z.div_lt_upper_bound; lia]|done]. cbn [app].
    rewrite Hone by lia. rewrite length_app, Nat2Z.inj_add, Z.pow_add_r by lia. cbn [length]. change (10 ^ Z.of_nat 1) with 10. f_equal. lia.
Qed.

Lemma parse_u64_digits n : 0 <= n <= u64_max -> parse_u64 (digits 20 n) = Some n.
Proof.
  intros Hn. assert (Hb : 0 <= n < 10 ^ Z.of_nat 20) by (unfold u64_max in Hn; change (10 ^ Z.of_nat 20) with 100000000000000000000; lia).
  pose proof (number_digits 20 n [] 0 Hb ltac:(lia)) as Hd. rewrite app_nil_r in Hd. cbn [number] in Hd. 
  assert (Hc : exists d rest, digits 20 n = (48 + d) :: rest /\ 0 <= d < 10).
  { clear Hd. assert (Hgo : forall fuel m, 0 <= m -> (0 < fuel)%nat -> exists d rest, digits fuel m = (48 + d) :: rest /\ 0 <= d < 10).
    { induction fuel as [|fuel IH]; [lia|]. intros m Hm _. cbn [digits]. destruct (Z.ltb_spec m 10); [by exists m, []; split; [|lia]|].
      destruct fuel as [|fuel]; [exists (m mod 10), []; split; [done|apply Z.mod_pos_bound; lia]|].
      destruct (IH (m / 10) ltac:(apply Z.div_pos; lia) ltac:(lia)) as (d & rest & E & Hd). rewrite E. by eexists _, _. }
    apply Hgo; lia. }
  destruct Hc as (d & rest & E & Hr). unfold parse_u64. rewrite E.
  replace (match rest with [] => (48 + d) :: rest | _ :: _ => if 48 + d =? 43 then rest else (48 + d) :: rest end) with ((48 + d) :: rest)
    by (destruct rest; [done|]; by rewrite (proj2 (Z.eqb_neq (48 + d) 43)) by lia).
  rewrite <- E, Hd. cbn [mbind option_bind]. by rewrite (proj2 (Z.leb_le _ _)) by lia.
Qed.

(** What /proc says of a process: its number, its command in parentheses, its state and more
    fields, the nineteenth of which is when it was started. *)
Definition stat_text (pid command : str) (state : Z) (fields : list str) : str :=
  pid ++ [32; 40] ++ command ++ [41] ++ flat_map (fun f => 32 :: f) ([state] :: fields).

(** The identity of a process is read right whatever its command is called, white space and
    parentheses included. *)
Theorem identity_is_read pid command state fields started :
  is_word [state] -> state <> 41 -> Forall (fun f => is_word f /\ 41 ∉ f) fields ->
  fields !! 18%nat = Some (digits 20 started) -> 0 <= started <= u64_max ->
  process_identity (stat_text pid command state fields) = Some (state, started).
Proof.
  intros Hs Hne Hf Hl Hst. unfold process_identity, stat_text.
  replace (pid ++ [32; 40] ++ command ++ [41] ++ flat_map (fun f => 32 :: f) ([state] :: fields))
    with ((pid ++ [32; 40] ++ command) ++ [41] ++ flat_map (fun f => 32 :: f) ([state] :: fields)) by (by rewrite <- !app_assoc).
  rewrite after_last_app.
  - cbn [mbind option_bind]. rewrite split_whitespace_words.
    + cbn. rewrite Hl. cbn [mbind option_bind]. by rewrite parse_u64_digits.
    + constructor; [done|]. revert Hf. apply List.Forall_impl. by intros f [].
  - intros Hin%list_elem_of_In%in_flat_map. destruct Hin as (f & [<-|Hfin] & [Hc|Hc]); [done| |done|].
    + apply list_elem_of_In in Hc. apply list_elem_of_singleton in Hc. congruence.
    + rewrite List.Forall_forall in Hf. destruct (Hf f Hfin) as [_ Hn]. by apply list_elem_of_In in Hc.
Qed.

(** ** The watchdog and the lock *)

(** The watchdog repairs the network exactly when its helper is gone (not in the process
    table, a zombie, or another process under its number) and the lock is free, that is, no
    other helper has started. *)
Theorem watchdog_repairs_when_alone started samples lock :
  run_watchdog started samples lock = Some Repair <->
  lock = Locked /\ exists before identity after,
    samples = before ++ identity :: after /\ Forall (fun x => is_helper started x = true) before /\ is_helper started identity = false.
Proof.
  induction samples as [|x samples IH]; cbn [run_watchdog].
  { split; [done|]. intros (_ & before & identity & after & E & _). by destruct before. }
  destruct (is_helper started x) eqn:Hx.
  - rewrite IH. split.
    + intros (-> & before & identity & after & -> & Hb & Hi). split; [done|]. exists (x :: before), identity, after. split; [done|]. by split; [constructor|].
    + intros (-> & before & identity & after & E & Hb & Hi). split; [done|]. destruct before as [|y before]; [injection E as -> ->; congruence|].
      injection E as -> ->. exists before, identity, after. split; [done|]. split; [by inversion Hb|done].
  - split.
    + intros H. destruct lock; try discriminate H. split; [done|]. by exists [], x, samples.
    + by intros (-> & _).
Qed.

(** Waiting for the lock ends: with a clock that moves on by the poll each turn, after the
    turns the wait has room for. *)
Theorem lock_wait_ends answers clock deadline turn fuel :
  (forall k, clock k + LOCK_POLL <= clock (S k)) -> (0 < fuel)%nat -> deadline - clock turn <= (Z.of_nat fuel - 1) * LOCK_POLL ->
  exists r, acquire_runtime_lock fuel answers clock deadline turn = Some r /\ (r = Ok tt -> exists k, answers k = Locked).
Proof.
  intros Hc. revert turn. unfold LOCK_POLL in *. induction fuel as [|fuel IH]; intros turn Hf Hb; [lia|]. cbn [acquire_runtime_lock].
  destruct (answers turn) eqn:E; [by eexists; split; [done|exists turn]| |by eexists].
  destruct (Z.leb_spec deadline (clock turn)); [by eexists|]. specialize (Hc turn). apply IH; lia.
Qed.

(** ** The copied helper *)

Section Copy.
Context `{U : Uuids} (replies : nat -> option reply) (t bundled : str) (m : gmap (list Z) (list Z)).
Hypothesis Hne : t <> HELPER.

(** The helper a later start runs is the old one or the complete new one. *)
Lemma triple_replace_helper : triple (agrees t m) (replace_helper replies t bundled)
  (fun _ d => written t HELPER bundled m d /\ files d !! HELPER = Some bundled) (written t HELPER bundled m).
Proof.
  unfold replace_helper. eapply triple_bind; [by apply triple_write_all|]. intros [].
  apply triple_bind with (Q := fun _ d => agrees t m d /\ files d !! t = Some bundled); [|intros []; by apply triple_rename].
  apply triple_file_call; [auto|]. intros d [Hd _]. by apply agrees_written.
Qed.

End Copy.

Theorem helper_copy_is_whole `{U : Uuids} replies bundled fresh m w :
  let '(d, _, r) := privileged_helper replies (Some bundled) fresh (Some m) w in
  (files d !! HELPER = m !! HELPER \/ files d !! HELPER = Some bundled) /\ (r = Some (Ok tt) -> files d !! HELPER = Some bundled).
Proof.
  set (t := text "mousevpn-helper.tmp-" ++ uuid_show fresh). assert (Hne : t <> HELPER).
  { intros E. apply (f_equal length) in E. unfold t in E. rewrite length_app in E. vm_compute in E. lia. }
  assert (Ht : triple (fun d => d = Some m) (privileged_helper replies (Some bundled) fresh)
    (fun _ d => written t HELPER bundled m d /\ files d !! HELPER = Some bundled) (written t HELPER bundled m)).
  { assert (Hw : forall d, d = Some m -> written t HELPER bundled m d) by (intros d ->; apply agrees_written; [done|by exists m]).
    unfold privileged_helper. fold t. eapply triple_bind; [apply triple_gets|]. intros d0.
    apply triple_bind with (Q := fun _ d => d = Some m); [intros d w0 [-> ->]; done|]. intros [].
    eapply triple_bind; [eapply triple_weaken; [apply triple_catch, (triple_replace_helper replies t bundled m Hne)|intros d ->; by exists m|intros r d H; exact H|done]|].
    intros [[]|e|]; [by apply triple_ret| |by apply triple_res].
    apply triple_bind with (Q := fun _ => written t HELPER bundled m); [|intros []; by apply triple_throw].
    apply triple_ignored, triple_file_call; [|done]. intros d (m' & -> & H1 & H2). exists (delete t m'). split; [done|].
    split; [intros k Hk Hp; rewrite lookup_delete_ne by done; by apply H1|]. by rewrite lookup_delete_ne. }
  specialize (Ht (Some m) w eq_refl). destruct (privileged_helper _ _ _ _ _) as [[d w'] [[[]|e|]|]]; [destruct Ht as [Ht Hd]|..].
  1: by split; [right|].
  all: destruct Ht as (m' & -> & _ & H2); by split.
Qed.

(** ** Concrete runs *)

Module ToyLinuxGui.

Lemma identity_is_read_witness :
  process_identity (stat_text (text "4242") (text "a) R (b") 83 (replicate 18 (text "-1") ++ [digits 20 987654; text "0"])) = Some (83, 987654).
Proof.
  apply (identity_is_read (text "4242") (text "a) R (b") 83 (replicate 18 (text "-1") ++ [digits 20 987654; text "0"]) 987654).
  - split; [discriminate|]. repeat constructor.
  - discriminate.
  - assert (H : Forall (fun f => (negb (bool_decide (f = [])) && forallb (fun c => negb (is_whitespace c) && negb (c =? 41)) f) = true)
      (replicate 18 (text "-1") ++ [digits 20 987654; text "0"])) by (apply List.Forall_forall, forallb_forall; vm_compute; reflexivity).
    revert H. apply List.Forall_impl. intros f [Hne Hf]%andb_true_iff. rewrite forallb_forall in Hf. split; [split|].
    + intros ->. discriminate Hne.
    + apply List.Forall_forall. intros c Hc. specialize (Hf c Hc). by destruct (is_whitespace c).
    + intros Hc%list_elem_of_In. specialize (Hf 41 Hc). by rewrite andb_false_r in Hf.
  - vm_compute. reflexivity.
  - vm_compute. split; discriminate.
Defined.

(** A helper has ended and the window shows so; a line of it that is read late puts the window
    back to "connected", with no helper. *)
Definition toy_monitor : ReliabilityMonitor := load (fun _ => None) false None.
Example late_line_after_the_end :
  let a := linux_connect_profile (Some (text "home", Legacy)) (fun _ => Some None) true (mkLinuxApp None default_snapshot toy_monitor 0) in
  let a := linux_connection_status (fun _ => Some (Some true)) (linux_disconnect true a) in
  let late := linux_read_helper_status (fun _ => None) 0 (text "home") Legacy None (text "MOUSEVPN_STATE=connected") a in
  cs_state (la_snapshot a) = Disconnected /\ cs_state (la_snapshot late) = Connected /\ la_child late = None.
Proof. vm_compute. done. Qed.

End ToyLinuxGui.
