(* ===== verification/Startup.v ===== *)
(** * Commands that set up and start

    server/src/bootstrap.rs and main.rs: the first pair of configurations and the arguments of
    the server; proxy-client/src/main.rs: the arguments of the proxy; linux-client/src/proxy.rs:
    the listener and its accept loop.

    Files are those of Profile.v, key generation that of Crypto.v with its documented law.  How
    a write ends, whether a removal succeeds and what [accept] answers are arguments.  Loading
    a TOML file is a parameter.

    The theorems: generating configurations never touches a file that exists, and the pair it
    writes fits together; the proxy only listens on a loopback address; its accept loop serves
    every client it accepts, once, and ends with the flag that stops the tunnel. *)

From S2P Require Import Prelude Protocol Text Replay Crypto ToyCrypto DataPlane Morph Config ClientWire Handshake Effects Flow WinNetwork AppPaths Profile GuiProfiles WinGui Reliability LinuxGui.

(** The public half that [snow] generates belongs to the secret one. *)
Class KeypairLaws `{P : Primitives, N : Noise} := {
  keypair_halves : forall entropy secret public, generate_keypair entropy = Some (secret, public) -> public = public_key secret;
}.

(** ** The first configurations *)

Section Bootstrap.
Context `{B : Base64, P : Primitives, N : Noise}.

Definition setting (key value : str) : str := key ++ ascii_bytes " = " ++ value ++ [10].

(** The text of the server's file. *)
Definition server_text (endpoint : SocketAddr) (server_public_key server_private_key client_public_key : str) : str :=
  line (ascii_bytes "listen") (ascii_bytes "0.0.0.0:" ++ digits 5 (port endpoint)) ++
  line (ascii_bytes "public_endpoint") (show_socket endpoint) ++
  line (ascii_bytes "server_public_key") server_public_key ++ line (ascii_bytes "server_private_key") server_private_key ++ [10] ++
  ascii_bytes "[tun]" ++ [10] ++ line (ascii_bytes "name") (ascii_bytes "mousevpn0") ++ line (ascii_bytes "address") (ascii_bytes "10.77.0.1") ++
  setting (ascii_bytes "prefix_len") (ascii_bytes "24") ++ setting (ascii_bytes "mtu") (ascii_bytes "1280") ++ line (ascii_bytes "dns") (ascii_bytes "1.1.1.1") ++ [10] ++
  ascii_bytes "[[clients]]" ++ [10] ++ line (ascii_bytes "name") (ascii_bytes "owner") ++ line (ascii_bytes "public_key") client_public_key ++
  line (ascii_bytes "address") (ascii_bytes "10.77.0.2").

(** [entropy] is drawn once per pair of keys. *)
Definition generate_example_configs (entropy client_entropy : bytes) (server_write client_write : Write) (removed : bool)
    (server_path client_path : str) (endpoint : SocketAddr) (fs : gmap (list Z) bytes) : gmap (list Z) bytes * res CliError.t unit :=
  match (server ← KeyPair_generate entropy; client ← KeyPair_generate client_entropy; Ok (server, client)) with
  | Err e => (fs, Err (CliError.KeyGeneration e))
  | Panic => (fs, Panic)
  | Ok ((server_secret, server_public), (client_secret, client_public)) =>
      let server_config := server_text endpoint (encode_public_key server_public) (encode_secret_key server_secret) (encode_public_key client_public) in
      let client_config := client_text endpoint (encode_public_key server_public) (encode_secret_key client_secret) (ascii_bytes "mousevpn0") in
      match write_new server_write fs server_path (as_bytes server_config) with
      | (fs, false) => (fs, Err CliError.Io)
      | (fs, true) =>
          match write_new client_write fs client_path (as_bytes client_config) with
          | (fs, true) => (fs, Ok tt)
          | (fs, false) => (if removed then delete server_path fs else fs, Err CliError.Io)
          end
      end
  end.

(** What the server's command does: run with a validated configuration, or write examples.
    A malformed endpoint is an error of usage as well. *)
Inductive Started := RunServer (config : ValidatedServerConfig) | ExamplesWritten.

Definition server_main (load : str -> res ConfigError.t ServerConfig) (entropy client_entropy : bytes) (server_write client_write : Write)
    (removed : bool) (args : list str) (fs : gmap (list Z) bytes) : gmap (list Z) bytes * res CliError.t Started :=
  match args with
  | [flag; path] =>
      if bool_decide (flag = ascii_bytes "--config") then
        (fs, config ← map_err CliError.Config (load path); config ← map_err CliError.Config (ServerConfig_validate config); Ok (RunServer config))
      else (fs, Err CliError.Usage)
  | [command; server_flag; server_path; client_flag; client_path; endpoint_flag; endpoint] =>
      if bool_decide (command = ascii_bytes "generate-example") && bool_decide (server_flag = ascii_bytes "--server-config") &&
         bool_decide (client_flag = ascii_bytes "--client-config") && bool_decide (endpoint_flag = ascii_bytes "--server-endpoint")
      then
        match parse_socket endpoint with
        | None => (fs, Err CliError.Usage)
        | Some endpoint =>
            let '(fs, r) := generate_example_configs entropy client_entropy server_write client_write removed server_path client_path endpoint fs in
            (fs, _ ← r; Ok ExamplesWritten)
        end
      else (fs, Err CliError.Usage)
  | _ => (fs, Err CliError.Usage)
  end.

End Bootstrap.

(** ** The arguments of the proxy *)

Record ProxyArguments := mkProxyArguments { pa_config : str; pa_listen : Ipv4Addr * Z }.

Definition DEFAULT_LISTEN : str := ascii_bytes "127.0.0.1:1080".

(** [SocketAddrV4::from_str] *)
Definition parse_socket_v4 (s : str) : option (Ipv4Addr * Z) :=
  match read_socket_v4 s with Some (mkSocketAddr (V4 a) p, []) => Some (a, p) | _ => None end.

(** [u16::from_str] *)
Definition parse_u16 (s : str) : option Z := n ← parse_u64 s; if n <=? 65535 then Some n else None.

(** [values.chunks_exact(2).find(..)] is [flag_value]. *)
Definition parse_arguments (values : list str) : res CliError.t ProxyArguments :=
  config ← ok_or (flag_value (ascii_bytes "--config") values) CliError.Usage;
  let explicit_listen := flag_value (ascii_bytes "--listen") values in
  let port := flag_value (ascii_bytes "--port") values in
  listen ← (match explicit_listen, port with
            | Some _, Some _ => Err CliError.Usage
            | Some address, None => ok_or (parse_socket_v4 address) CliError.Usage
            | None, Some port =>
                match parse_u16 port with
                | Some port => if port =? 0 then Err CliError.Usage else Ok (ipv4_new 127 0 0 1, port)
                | None => Err CliError.Usage
                end
            | None, None => ok_or (parse_socket_v4 DEFAULT_LISTEN) CliError.Usage
            end);
  let expected_length := 2 + (match explicit_listen, port with None, None => 0 | _, _ => 1 end) * 2 in
  if negb (len values =? expected_length) then Err CliError.Usage else Ok (mkProxyArguments config listen).

(** ** The accept loop of the proxy *)

Definition is_loopback (a : Ipv4Addr) : bool := Z.shiftr a 24 =? 127.

Inductive Accepted := AcceptedClient (client : nat) | AcceptFails | NoClient.

(** The loop of [run]: at each turn whether the flag is seen raised and, if not, what the
    accept of half a second gives.  The clients that are served, and the flag when the loop
    has ended ([None] while it has not). *)
Fixpoint accept_loop (turns : list (bool * Accepted)) : list nat * option bool :=
  match turns with
  | [] => ([], None)
  | (true, _) :: _ => ([], Some true)
  | (false, AcceptedClient client) :: turns => let '(served, stopping) := accept_loop turns in (client :: served, stopping)
  | (false, AcceptFails) :: _ => ([], Some true)
  | (false, NoClient) :: turns => accept_loop turns
  end.

Inductive ProxyError := InvalidInput | SystemError.

(** [ProxyServerGuard::start] with its worker: binding and spawning may fail at once; a runtime
    or a listener that cannot be made raises the flag of the tunnel. *)
Definition proxy_start (listen : Ipv4Addr * Z) (bound spawned runtime : bool) (turns : list (bool * Accepted)) : res ProxyError (list nat * option bool) :=
  if negb (is_loopback listen.1) || (listen.2 =? 0) then Err InvalidInput
  else if negb bound then Err SystemError
  else if negb spawned then Err SystemError
  else if runtime then Ok (accept_loop turns)
  else Ok ([], Some true).

(** ** Theorems *)

Section Theorems.
Context `{B : Base64, BL : !Base64Laws, P : Primitives, N : Noise, KL : !KeypairLaws}.

Lemma generated_pair entropy secret public : KeyPair_generate entropy = Ok (secret, public) ->
  public = public_key secret /\ len secret = KEY_LEN /\ len public = KEY_LEN.
Proof.
  intros ([s p] & Hg & (s' & Hs & (p' & Hp & [= <- <-])%bind_ok)%bind_ok)%bind_ok.
  unfold noise_err, ok_or in Hg. destruct (generate_keypair entropy) as [[s0 p0]|] eqn:E; [|done]. injection Hg as -> ->.
  unfold SecretKey_from_vec, PublicKey_from_slice, try_into_array in *. revert Hs Hp. do 2 case_match; try done. intros [= <-] [= <-].
  split; [by eapply keypair_halves|]. lia.
Qed.

(** The configurations the two files describe. *)
Definition example_server (endpoint : SocketAddr) (server_secret : SecretKey) (server_public client_public : PublicKey) : ServerConfig :=
  mkServerConfig (mkSocketAddr (V4 0) (port endpoint)) (Some endpoint) (encode_public_key server_public) (encode_secret_key server_secret)
    (mkServerTunConfig (ascii_bytes "mousevpn0") (ipv4_new 10 77 0 1) 24 1280 (ipv4_new 1 1 1 1))
    [mkAuthorizedClientConfig (ascii_bytes "owner") (encode_public_key client_public) (ipv4_new 10 77 0 2)].

Definition example_client (endpoint : SocketAddr) (server_public : PublicKey) (client_secret : SecretKey) : ClientConfig :=
  mkClientConfig endpoint (encode_public_key server_public) (encode_secret_key client_secret) (ascii_bytes "mousevpn0") Legacy.

Lemma example_valid endpoint ss cs : len ss = KEY_LEN -> len (public_key ss) = KEY_LEN -> len cs = KEY_LEN -> len (public_key cs) = KEY_LEN ->
  exists server client,
    ServerConfig_validate (example_server endpoint ss (public_key ss) (public_key cs)) = Ok server /\
    ClientConfig_validate (example_client endpoint (public_key ss) cs) = Ok client /\
    vc_server client = endpoint /\ vc_server_public_key client = vs_server_public_key server /\ vc_context client = vs_context server /\
    map va_public_key (vs_clients server) = [public_key (vc_client_private_key client)].
Proof.
  intros Hss Hsp Hcs Hcp.
  exists (mkValidatedServerConfig (mkSocketAddr (V4 0) (port endpoint)) (Some endpoint) (public_key ss) ss (context_for_server (public_key ss))
            (sv_tun (example_server endpoint ss (public_key ss) (public_key cs)))
            [mkValidatedAuthorizedClient (ascii_bytes "owner") (public_key cs) (ipv4_new 10 77 0 2)]),
    (mkValidatedClientConfig endpoint (public_key ss) cs (context_for_server (public_key ss)) (ascii_bytes "mousevpn0") Legacy).
  split; [|split; [|done]].
  - apply server_config_validate_iff. split_and!; try done. unfold clients_ok. split_and!.
    + by constructor; [split_and!|constructor].
    + apply NoDup_singleton.
    + apply NoDup_singleton.
    + intros v _. split; apply not_elem_of_empty.
  - unfold ClientConfig_validate, example_client. change decode_secret_key with decode_public_key. change encode_secret_key with encode_public_key.
    cbn [cc_server_public_key cc_client_private_key].
    by rewrite (proj2 (decode_public_key_ok _ _) (conj eq_refl Hsp)), (proj2 (decode_public_key_ok _ _) (conj eq_refl Hcs)).
Qed.

(** Generating the first configurations never changes or removes a file that existed.  When it
    succeeds both files are new, and what they say is valid: the client names the server's key
    and address, derives the same deployment context, and the server authorizes the public key
    of the client's secret. *)
Theorem example_configs_fit entropy client_entropy w1 w2 removed server_path client_path endpoint fs :
  let '(fs', r) := generate_example_configs entropy client_entropy w1 w2 removed server_path client_path endpoint fs in
  (forall k c, fs !! k = Some c -> fs' !! k = Some c) /\
  (r = Ok tt -> exists server_secret server_public client_secret client_public server client,
     fs' !! server_path = Some (as_bytes (server_text endpoint (encode_public_key server_public) (encode_secret_key server_secret) (encode_public_key client_public))) /\
     fs' !! client_path = Some (as_bytes (client_text endpoint (encode_public_key server_public) (encode_secret_key client_secret) (ascii_bytes "mousevpn0"))) /\
     ServerConfig_validate (example_server endpoint server_secret server_public client_public) = Ok server /\
     ClientConfig_validate (example_client endpoint server_public client_secret) = Ok client /\
     vc_server client = endpoint /\ vc_server_public_key client = vs_server_public_key server /\ vc_context client = vs_context server /\
     map va_public_key (vs_clients server) = [public_key (vc_client_private_key client)]).
Proof.
  unfold generate_example_configs.
  destruct (_ ← KeyPair_generate entropy; _) as [[[ss sp] [cs cp]]|e|] eqn:E; [|done..].
  revert E. intros ([ss' sp'] & Hs & ([cs' cp'] & Hc & [= -> -> -> ->])%bind_ok)%bind_ok.
  apply generated_pair in Hs as (-> & Hss & Hsp), Hc as (-> & Hcs & Hcp).
  destruct (write_new w1 fs server_path _) as [fs1 [|]] eqn:E1;
    [|split; [|done]; intros k c Hk; change fs1 with (fs1, false).1; rewrite <- E1; by apply write_new_keeps].
  pose proof (write_new_true _ _ _ _ _ E1) as [Hn1 ->]. destruct (write_new w2 _ client_path _) as [fs2 [|]] eqn:E2.
  - pose proof (write_new_true _ _ _ _ _ E2) as [Hn2 ->]. apply lookup_insert_None in Hn2 as [Hn2 Hne]. split.
    + intros k c Hk. rewrite !lookup_insert_ne; congruence.
    + intros _. destruct (example_valid endpoint ss cs Hss Hsp Hcs Hcp) as (server & client & H). exists ss, (public_key ss), cs, (public_key cs), server, client.
      rewrite lookup_insert_ne, !lookup_insert_eq by done. done.
  - split; [|done]. intros k c Hk. assert (server_path <> k) by congruence.
    assert (fs2 !! k = Some c).
    { change fs2 with (fs2, false).1. rewrite <- E2. apply write_new_keeps. by rewrite lookup_insert_ne. }
    by destruct removed; rewrite ?lookup_delete_ne.
Qed.

End Theorems.

(** The proxy never listens beyond the machine, whatever its arguments say. *)
Theorem proxy_listens_on_loopback listen bound spawned runtime turns r :
  proxy_start listen bound spawned runtime turns = Ok r -> is_loopback listen.1 = true /\ listen.2 <> 0.
Proof. unfold proxy_start. case_match eqn:E; [done|]. intros _. apply orb_false_iff in E as [E1 E2]. apply negb_false_iff in E1. split; [done|lia]. Qed.

(** The loop serves the clients it accepts, in their order, until the flag is seen raised or
    accepting fails, and then the flag is raised. *)
Definition goes_on (t : bool * Accepted) : bool := negb t.1 && match t.2 with AcceptFails => false | _ => true end.
Definition client_of (t : bool * Accepted) : option nat := match t.2 with AcceptedClient client => Some client | _ => None end.

Theorem accept_loop_spec turns : exists before rest,
  turns = before ++ rest /\ forallb goes_on before = true /\ (accept_loop turns).1 = omap client_of before /\
  match rest with
  | [] => (accept_loop turns).2 = None
  | t :: _ => goes_on t = false /\ (accept_loop turns).2 = Some true
  end.
Proof.
  induction turns as [|t turns (before & rest & -> & Hb & Hs & Hr)]; [by exists [], []|].
  destruct (goes_on t) eqn:Ht.
  - exists (t :: before), rest. destruct t as [[] [client| |]]; try done; cbn; destruct (accept_loop (before ++ rest)) as [served ended]; cbn in *;
      (split_and!; [done|done|by rewrite Hs|done]).
  - exists [], (t :: before ++ rest). by destruct t as [[] [client| |]].
Qed.

(** ** Concrete commands *)

Module ToyStartup.
Import Toy ToyConfig.

#[export] Instance toy_keypairs : KeypairLaws.
Proof. split. intros entropy secret public. cbn. case_match; [|done]. by intros [= <- <-]. Qed.

Definition toy_endpoint : SocketAddr := mkSocketAddr (V4 (ipv4_new 198 51 100 7)) 51820.

(** The file of the client is there already: the server's is taken back. *)
Example existing_file_is_kept :
  let mine := ascii_bytes "client.toml" in
  let '(fs, r) := generate_example_configs (replicate 32 5) (replicate 32 6) Written Written true (ascii_bytes "server.toml") mine toy_endpoint {[mine := [1; 2]]} in
  fs = {[mine := [1; 2]]} /\ r = Err CliError.Io.
Proof. vm_compute. done. Qed.

(** A write that stops half way leaves its part, and the next attempt finds the file. *)
Example partial_file_blocks :
  let run := fun w fs => generate_example_configs (replicate 32 5) (replicate 32 6) w Written true (ascii_bytes "server.toml") (ascii_bytes "client.toml") toy_endpoint fs in
  let first := run (WriteStops 10%nat) ∅ in
  first.1 !! ascii_bytes "server.toml" = Some (ascii_bytes "listen = " ++ [34]) /\ (run Written first.1).2 = Err CliError.Io.
Proof. vm_compute. done. Qed.

Example proxy_arguments :
  let values := map ascii_bytes in
  parse_arguments (values ["--config"; "a.toml"]%string) = Ok (mkProxyArguments (ascii_bytes "a.toml") (ipv4_new 127 0 0 1, 1080)) /\
  parse_arguments (values ["--config"; "a.toml"; "--port"; "2080"]%string) = Ok (mkProxyArguments (ascii_bytes "a.toml") (ipv4_new 127 0 0 1, 2080)) /\
  parse_arguments (values ["--config"; "a.toml"; "--port"; "0"]%string) = Err CliError.Usage /\
  parse_arguments (values ["--config"; "a.toml"; "--port"; "1"; "--listen"; "127.0.0.1:1"]%string) = Err CliError.Usage /\
  parse_arguments (values ["--config"; "a.toml"; "b"]%string) = Err CliError.Usage.
Proof. vm_compute. done. Qed.

End ToyStartup.
