(* ===== verification/TrafficOpen.v ===== *)
(** * Opening the traffic store

    The part of crates/admin-api/src/traffic.rs that opens the database, creates its tables and
    imports the history of the format before it, a TOML document, once.

    The disk holds the database file (its mode and what SQLite keeps in it) and the legacy
    document.  Every system call and every SQL statement takes a reply from the tape: it may
    fail, or the process may die in it.  A transaction has its effect at the commit.  TOML is a
    parameter.  Table rows and [upsert] are those of Traffic.v, as is the remark on sums below
    2^63.

    The theorem: over any number of attempts to open the store, each ending anywhere, the
    legacy history is in the table exactly when the marker is, and then once. *)

From S2P Require Import Prelude Protocol Text Replay Crypto DataPlane Config ClientWire Handshake Effects Flow WinNetwork AppPaths Profile GuiProfiles Traffic.

Definition TRAFFIC_VERSION : Z := 1.

(** The buckets have the fields of [TrafficBucket]. *)
Record LegacyTrafficDocument := mkLegacy { lg_version : Z; lg_buckets : list TrafficBucket }.

(** [LEGACY_MIGRATION_KEY] is the only key of traffic_metadata: its value, if there is one. *)
Inductive Marker := MarkerDone | MarkerNone.

Record Tables := mkTables { t_hourly : gmap (Z * list Z) row; t_metadata : option Marker }.

Record TrafficDisk := mkTrafficDisk {
  td_directory : bool;
  td_database : option (Z * option Tables);
  td_legacy : option (Z * str);
}.

Definition storage_paths (requested : str) : str * str :=
  if bool_decide (name_extension requested = Some (ascii_bytes "toml"))
  then (GuiProfiles.with_extension requested (ascii_bytes "sqlite"), requested)
  else (requested, GuiProfiles.with_extension requested (ascii_bytes "toml")).

(** The permission check of a file of this mode. *)
Definition private_mode (mode : Z) : bool := Z.land (Z.land mode 0x1ff) 0x3f =? 0.

Section Open.
Context (from_toml : str -> option LegacyTrafficDocument) (replies : nat -> option reply).

Notation "x <- m ; k" := (lbind m (fun x => k)) (at level 100, m at next level, right associativity).
Abbreviation L := (Effects.L TrafficDisk) (only parsing).

Definition statement : L unit := file_call replies (fun d => d).

Definition ensure_private_permissions (mode : Z) : L unit :=
  _ <- statement;
  if private_mode mode then lret tt else lthrow ClientError.Platform.

Definition prepare_database_file : L unit :=
  _ <- file_call replies (fun d => mkTrafficDisk true (td_database d) (td_legacy d));
  d <- gets (fun d => d);
  match td_database d with
  | Some (mode, _) => ensure_private_permissions mode
  | None => file_call replies (fun d => mkTrafficDisk (td_directory d) (Some (0x180, None)) (td_legacy d))
  end.

Definition set_tables (t : Tables) (d : TrafficDisk) : TrafficDisk :=
  match td_database d with
  | Some (mode, _) => mkTrafficDisk (td_directory d) (Some (mode, Some t)) (td_legacy d)
  | None => d
  end.

Definition tables_of (d : TrafficDisk) : Tables :=
  match td_database d with Some (_, Some t) => t | _ => mkTables ∅ None end.

(** CREATE TABLE IF NOT EXISTS *)
Definition configure_database : L unit := file_call replies (fun d => set_tables (tables_of d) d).

Definition legacy_upsert (db : gmap (Z * list Z) row) (b : TrafficBucket) : gmap (Z * list Z) row :=
  upsert (tb_hour b) db (mkPendingTraffic (tb_public_key b) (tb_name b) (tb_upload b) (tb_download b)).

(** One statement per bucket, inside the transaction. *)
Fixpoint insert_buckets (buckets : list TrafficBucket) (staged : gmap (Z * list Z) row) : L (gmap (Z * list Z) row) :=
  match buckets with
  | [] => lret staged
  | b :: buckets => _ <- statement; insert_buckets buckets (legacy_upsert staged b)
  end.

Definition migrate_legacy_toml : L unit :=
  _ <- statement;
  d <- gets (fun d => d);
  match t_metadata (tables_of d) with
  | Some _ => lret tt
  | None =>
      match td_legacy d with
      | Some (mode, contents) =>
          _ <- ensure_private_permissions mode;
          _ <- statement;
          legacy <- lres (ok_or (from_toml contents) ClientError.Platform);
          if negb (lg_version legacy =? TRAFFIC_VERSION) then lthrow ClientError.Platform
          else
            _ <- statement;
            staged <- insert_buckets (lg_buckets legacy) (t_hourly (tables_of d));
            _ <- statement;
            file_call replies (set_tables (mkTables staged (Some MarkerDone)))
      | None => file_call replies (fun d => set_tables (mkTables (t_hourly (tables_of d)) (Some MarkerNone)) d)
      end
  end.

Definition open_store : L unit :=
  _ <- prepare_database_file;
  _ <- statement;
  _ <- configure_database;
  migrate_legacy_toml.

(** ** The import happens once *)

(** What the legacy document adds for a key. *)
Definition legacy_bytes (up : bool) (legacy : option (Z * str)) (key : str) : Z :=
  match legacy ≫= (fun l => from_toml l.2) with
  | Some document => fold_right (fun b n => (if decide (tb_public_key b = key) then sel up (tb_upload b) (tb_download b) else 0) + n) 0 (lg_buckets document)
  | None => 0
  end.

Context (legacy : option (Z * str)) (base : bool -> str -> Z).

Definition fits (b : TrafficBucket) : Prop := tb_upload b <= i64_max /\ tb_download b <= i64_max.

Hypothesis Hfits : forall mode contents document, legacy = Some (mode, contents) -> from_toml contents = Some document -> Forall fits (lg_buckets document).

(** The table holds [base], and the legacy history when the marker is set. *)
Definition imported (d : TrafficDisk) : Prop :=
  td_legacy d = legacy /\
  forall up key, stored up (t_hourly (tables_of d)) key =
    base up key + (match t_metadata (tables_of d) with Some _ => legacy_bytes up legacy key | None => 0 end).

Definition ready (d : TrafficDisk) : Prop := imported d /\ exists mode t, td_database d = Some (mode, Some t).

Lemma legacy_upserts_stored up buckets db key : Forall fits buckets ->
  stored up (fold_left legacy_upsert buckets db) key =
  stored up db key + fold_right (fun b n => (if decide (tb_public_key b = key) then sel up (tb_upload b) (tb_download b) else 0) + n) 0 buckets.
Proof.
  intros Hb. revert db. induction Hb as [|b buckets [Hu Hd] Hb IH]; intros db; cbn [fold_left fold_right]; [lia|].
  rewrite IH. unfold legacy_upsert at 1. rewrite upsert_stored by done. unfold pended. cbn [pt_public_key pt_upload pt_download]. lia.
Qed.

Lemma triple_statement (I F : TrafficDisk -> Prop) : (forall d, I d -> F d) -> triple I statement (fun _ => I) F.
Proof. intros HF. by apply triple_file_call. Qed.

Lemma triple_insert buckets staged (I F : TrafficDisk -> Prop) : (forall d, I d -> F d) ->
  triple I (insert_buckets buckets staged) (fun r d => I d /\ r = fold_left legacy_upsert buckets staged) F.
Proof.
  intros HF. revert staged. induction buckets as [|b buckets IH]; intros staged; cbn [insert_buckets fold_left]; [by apply triple_ret|].
  eapply triple_bind; [by apply triple_statement|]. intros []. apply IH.
Qed.

Lemma triple_private mode (I F : TrafficDisk -> Prop) : (forall d, I d -> F d) -> triple I (ensure_private_permissions mode) (fun _ => I) F.
Proof.
  intros HF. unfold ensure_private_permissions. eapply triple_bind; [by apply triple_statement|]. intros []. destruct (private_mode mode); [by apply triple_ret|by apply triple_throw].
Qed.

Lemma tables_set t d mode t0 : td_database d = Some (mode, t0) -> tables_of (set_tables t d) = t /\ td_legacy (set_tables t d) = td_legacy d.
Proof. intros Hd. unfold set_tables. rewrite Hd. done. Qed.

Definition settled (d : TrafficDisk) : Prop := imported d /\ exists marker, t_metadata (tables_of d) = Some marker.

(** The commit, from the tables the transaction started with. *)
Lemma commit_imports d0 staged marker :
  ready d0 -> t_metadata (tables_of d0) = None ->
  (forall up key, stored up staged key = stored up (t_hourly (tables_of d0)) key + legacy_bytes up legacy key) ->
  settled (set_tables (mkTables staged (Some marker)) d0).
Proof.
  intros [[Hl Hs] (mode & t & Hd)] Hn Hst. destruct (tables_set (mkTables staged (Some marker)) d0 mode (Some t) Hd) as [Ht Hl'].
  split; [|exists marker; by rewrite Ht]. split; [by rewrite Hl'|]. intros up key. rewrite Ht. cbn [t_hourly t_metadata]. rewrite Hst, Hs, Hn. lia.
Qed.

Lemma triple_migrate : triple ready migrate_legacy_toml (fun _ => settled) imported.
Proof.
  unfold migrate_legacy_toml. assert (HF : forall d, ready d -> imported d) by (by intros d [H _]).
  eapply triple_bind; [by apply triple_statement|]. intros []. apply triple_pre. intros d0 Hd0.
  assert (Himp : forall d', d' = d0 -> imported d') by (intros d' ->; auto).
  apply triple_bind with (Q := fun d d' => d' = d0 /\ d = d0); [by intros d' w ->|]. intros d. apply triple_fact. intros ->.
  destruct (t_metadata (tables_of d0)) as [marker|] eqn:Hm.
  { apply triple_ret. intros d' ->. split; [apply Hd0|eauto]. }
  destruct (td_legacy d0) as [[mode contents]|] eqn:Hl.
  - eapply triple_bind; [by apply triple_private|]. intros []. eapply triple_bind; [by apply triple_statement|]. intros [].
    apply triple_bind with (Q := fun document d' => d' = d0 /\ from_toml contents = Some document).
    { apply triple_res; [|done]. intros d' document -> Hj. split; [done|]. unfold ok_or in Hj. by destruct (from_toml contents); simplify_eq. }
    intros document. apply triple_fact. intros Hj.
    destruct (negb _); [by apply triple_throw|]. eapply triple_bind; [by apply triple_statement|]. intros [].
    eapply triple_bind; [by apply triple_insert|]. intros staged. apply triple_fact. intros ->.
    eapply triple_bind; [by apply triple_statement|]. intros []. apply triple_file_call; [|done]. intros d' ->.
    assert (Hleg : legacy = Some (mode, contents)) by (destruct Hd0 as [[H _] _]; congruence).
    apply commit_imports; [done|done|]. intros up key. rewrite legacy_upserts_stored by (by eapply Hfits). unfold legacy_bytes. rewrite Hleg. cbn. by rewrite Hj.
  - apply triple_file_call; [|done]. intros d' ->. apply commit_imports; [done|done|]. intros up key.
    assert (Hleg : legacy = None) by (destruct Hd0 as [[H _] _]; congruence). unfold legacy_bytes. rewrite Hleg. cbn. lia.
Qed.

Abbreviation has_file := (fun d => imported d /\ exists x, td_database d = Some x).

Lemma triple_prepare : triple imported prepare_database_file (fun _ => has_file) imported.
Proof.
  unfold prepare_database_file. apply triple_bind with (Q := fun _ => imported); [by apply triple_file_call|].
  intros []. apply triple_pre. intros d0 Hd0. apply triple_bind with (Q := fun d d' => d' = d0 /\ d = d0); [by intros d' w ->|]. intros d. apply triple_fact. intros ->.
  assert (Himp : forall d', d' = d0 -> imported d') by (by intros d' ->).
  destruct (td_database d0) as [[mode t]|] eqn:Hd.
  - eapply triple_weaken; [by apply triple_private|intros d' H; exact H| |done]. intros _ d' ->. eauto.
  - apply triple_file_call; [|done]. intros d' ->. split; [|by eexists]. destruct Hd0 as [Hl Hs]. split; [done|]. intros up key. specialize (Hs up key).
    unfold tables_of in *. rewrite Hd in Hs. exact Hs.
Qed.

Lemma triple_open : triple imported (open_store) (fun _ => settled) imported.
Proof.
  unfold open_store. eapply triple_bind; [apply triple_prepare|]. intros []. eapply triple_bind; [by apply triple_statement; intros d [H _]|]. intros [].
  apply triple_bind with (Q := fun _ => ready); [|intros []; apply triple_migrate]. apply triple_file_call; [|by intros d [H _]].
  intros d [[Hl Hs] [[mode t] Hd]]. destruct (tables_set (tables_of d) d mode t Hd) as [Ht Hl']. split.
  - split; [by rewrite Hl'|]. intros up key. rewrite Ht. apply Hs.
  - unfold set_tables. rewrite Hd. by eexists _, _.
Qed.

(** Attempts to open the store, one after the other, from where each left the disk; each has
    its own world. *)
Fixpoint open_all (worlds : list world) (d : TrafficDisk) : TrafficDisk :=
  match worlds with [] => d | w :: worlds => open_all worlds (open_store d w).1.1 end.

Lemma open_all_imported worlds d : imported d -> imported (open_all worlds d).
Proof.
  revert d. induction worlds as [|w worlds IH]; intros d Hd; [done|]. cbn [open_all]. apply IH.
  pose proof (triple_open d w Hd) as H. destruct (open_store d w) as [[d' w'] [[[]|e|]|]]; [apply H|done..].
Qed.

(** However many attempts there are and wherever each fails or dies, the legacy history is
    added at most once, and exactly once when the store has been opened. *)
Theorem legacy_is_imported_once worlds d w d' w' :
  imported d ->
  open_store (open_all worlds d) w = (d', w', Some (Ok tt)) ->
  (exists marker, t_metadata (tables_of d') = Some marker) /\
  forall up key, stored up (t_hourly (tables_of d')) key = base up key + legacy_bytes up legacy key.
Proof.
  intros Hd E. pose proof (triple_open (open_all worlds d) w (open_all_imported worlds d Hd)) as H. rewrite E in H.
  destruct H as [[_ Hs] [marker Hm]]. split; [by exists marker|]. intros up key. by rewrite Hs, Hm.
Qed.

End Open.

(** ** A store with history *)

Module ToyMigration.

Definition toy_toml (s : str) : option LegacyTrafficDocument :=
  if bool_decide (s = [1]) then Some (mkLegacy 1 [mkTrafficBucket 5 [65] [97] 30 7; mkTrafficBucket 5 [65] [98] 2 0; mkTrafficBucket 6 [66] [99] 1 1]) else None.

Definition toy_legacy : option (Z * str) := Some (0x180, [1]).
Definition toy_disk : TrafficDisk := mkTrafficDisk true None toy_legacy.

(** The replies of two attempts: the first dies in its commit, the second is answered well. *)
Definition toy_replies (n : nat) : option reply := if (n =? 12)%nat then None else Some (mkReply 0 None 0 false).
Definition toy_world (n : nat) : world := mkWorld n [] ClientWire.Legacy.

Lemma legacy_is_imported_once_witness :
  let d' := (open_store toy_toml toy_replies (open_all toy_toml toy_replies [toy_world 0; toy_world 14] toy_disk) (toy_world 40)).1.1 in
  (exists marker, t_metadata (tables_of d') = Some marker) /\ stored true (t_hourly (tables_of d')) [65] = 32.
Proof.
  intros d'.
  destruct (legacy_is_imported_once toy_toml toy_replies toy_legacy (fun _ _ => 0)) with (worlds := [toy_world 0; toy_world 14]) (d := toy_disk) (w := toy_world 40) (d' := d') (w' := toy_world 45) as [Hm Hs].
  - intros mode contents document [= <- <-]. cbn. intros [= <-]. repeat constructor; vm_compute; discriminate.
  - split; [done|]. intros up key. done.
  - vm_compute. reflexivity.
  - split; [exact Hm|]. rewrite Hs. vm_compute. reflexivity.
Defined.

(** The first attempt leaves no trace in the table. *)
Example died_in_the_commit :
  let d := open_all toy_toml toy_replies [toy_world 0] toy_disk in
  td_database d = Some (0x180, Some (mkTables ∅ None)) /\ (open_store toy_toml toy_replies toy_disk (toy_world 0)).2 = None.
Proof. vm_compute. done. Qed.

End ToyMigration.
